(* ===== verification/_CoqProject ===== *)
-Q . S2P
Prelude.v
Cap.v
Titular.v
Phys.v
Channel.v
Sched.v
Endpoint.v
Juicios.v
Blake3.v
Formato.v
Flujo.v
Guardar.v
Transaccion.v
Disco.v
Volumen.v
Bex.v
Vmm.v
Derribo.v
Espacios.v
Autotest.v
Pila.v
Sha2.v
Primo.v
Campo.v
Curva.v
Edwards.v
Escalar.v
Firma.v
Carga.v
Admitir.v
Aterrizaje.v
Reparto.v
Imagen.v
Admision.v
