(* ===== verification/Prelude.v ===== *)
(** * BMO-X: the kernel core, its storage and its network stack, verified

    BMO-X is an operating system for x86-64 written in Rust: a Ring 0 kernel
    (src/Ultra_kernel_x86-64), the portable crates that take its decisions
    (src/platform), programs (src/Ultra_userspace) and compilers
    (src/toolchain).  This library models the parts whose errors break the
    promises of the system: who may touch which memory, that no call or wake-up
    is lost, that only admitted programs run, that a power cut leaves a volume
    that can be read, and that nothing that arrives from outside stops the
    machine.

    ** The parts and the files that model them

    - [Prelude] (this file): words, results, arrays, little-endian encodings,
      hints and tactics shared by the rest.
    - [Cap]: the capability engine, obj/cap.rs, and the handles of bmo-abi.
    - [Titular]: the owner of each physical frame and the DMA flights,
      mm/titular.  [Phys]: the bitmap allocator, mm/phys, on top of it.
    - [Vmm], [Derribo], [Espacios], [Autotest]: page tables, mm/vmm, over
      [Phys]: the operations; what dismantling gives back; the invariant of all
      spaces; the start-up test.
    - [Sched]: the scheduler, task/scheduler.  Page tables are parameters there.
    - [Channel]: bmo-channel and obj/channel.rs.  [Endpoint]: RPC between
      processes, obj/endpoint.rs and its system calls, over [Cap], [Channel]
      and, through the class [SleepLaws], [Sched].
    - [Juicios]: the small judges of the kernel (MMIO, DMA, loans, costs) and
      the lock-free ring bmo-cola; a Module each.
    - [Blake3]: bmo-hash.  [Bex]: the executable gate, the loading plan and the
      closing of each section by hash (bmo-bex-gate, task/bex.rs,
      task/landing.rs).
    - [Formato], [Flujo], [Guardar], [Transaccion]: the ESTRATOS crate, from
      the layout of a block to the tree of a file and the transaction.
      [Disco]: block contract, GPT and the kernel's disk.  [Volumen]: the
      mounted volume, fsys/estratos, over all of them.
    - [Pila]: bmo-pila below TCP, a Module per protocol.
    - [Sha2], [Campo], [Curva], [Edwards], [Escalar]: bmo-cripto: the hashes
      and the key derivation, the field of 2^255 - 19, X25519, Ed25519 and the
      integers modulo the order of its group.  [Primo] proves that 2^255 - 19 is
      prime, by certificates.  [Firma]: bmo-firma and the anchor of trust,
      task/confianza.rs.
    - [Carga], [Admitir]: what a program declares (bmo-carga-juicio) and its
      admission (task/admitir.rs), block by block over the machine of [Vmm].
      [Aterrizaje] is the invariant of the loader, [Reparto] its plan,
      [Imagen] what a page and a section hold, [Admision] the promise.

    ** How the model corresponds to the code

    Names are the names of the source; PROJECT.json maps every definition to
    its lines.  [static mut] variables of a module become one record; a
    function that changes them takes and returns it.  The spin locks make each
    function one step, so an execution of a component is a sequence of its
    operations ([run], [vivido], a step relation), and what the theorems say of
    "every reachable state" is by induction on that sequence.  A function that
    answers [Option] or [Result] does so in the model.  Where the code would
    stop the machine (an index out of range, a slice past the end of a buffer,
    memory outside the mirror) the model answers [None] around that result, and
    the theorems say that it does not happen, or exactly when it does.

    Words are [Z] values with the wrap-around written out ([w8], [w16], [w32],
    [w64]): the workspace builds with [overflow-checks = false]
    (src/Cargo.toml, src/Ultra_kernel_x86-64/Cargo.toml), so [+], [-] and [*]
    on unsigned integers wrap.  Buffers and tables are lists; an index that the
    source has already checked is read with [!!!] and written with [<[_:=_]>];
    large tables of .bss are finite maps whose missing entries are zero.

    Loops whose recursion is not structural take fuel: the length of the input,
    the number of entries of the table or the depth of the tree, named next to
    each.  Each has a lemma that the fuel is enough (the loop ends before it
    runs out), so no result depends on it.

    ** What is taken from outside

    Devices, assembly and the processor are parameters.  The disk is the one
    with a state of its own: [Disco] keeps what is on the platter and what the
    drive has accepted since the last FLUSH CACHE, of which a power cut leaves
    any part; every command may fail.  The clock, the frames that the firmware
    reports and the bytes of a packet are inputs without any hypothesis, except
    where a theorem names one.

    ** What the theorems show

    - Capabilities: a handle resolves to what was granted and to nothing else;
      a revoked one never again ([Cap]).
    - Memory: frames are handed out once and given back once; an owner or a
      flight is not overwritten; spaces are disjoint outside the shared half,
      and dismantling one returns exactly its frames; what a mapping answers is
      what the processor's walk finds.  No page is both writable and executable
      where the processor has the NX bit; without it the code sets none, and the
      statements say which case they are in ([Titular], [Phys], [Vmm] to
      [Autotest]).
    - Concurrency: the choice of the scheduler, waits that are not lost, the
      reaping of stacks; its invariant holds in every state reached, traps and
      the death of a ring 3 included, until 2^32 - 3 identifiers were given.
      Rings are queues that deliver each message once and in order; an endpoint
      drops the notice of a call when the ring of its server is full, and says
      so ([Sched], [Channel], [Endpoint], [Juicios.Cola]).
    - Programs: the gate accepts exactly the well-formed images; a program that
      is admitted is in memory as its file says, relocated, with its hashes
      compared, nothing else mapped, and whatever the outcome nobody else
      notices; three files, run in [Admision], show what the code does not check
      ([Bex], [Carga] to [Admision]).  BLAKE3 is the BLAKE3 tree ([Blake3]).
    - Cryptography: limbs compute the field without overflow; hashes do not
      depend on how a message is cut; X25519 and Ed25519 compute what their
      RFCs define, and a file counts as signed only by a key of the anchor
      ([Sha2] to [Firma]).
    - Storage: encoders and decoders are inverse and only well-formed blocks are
      decoded; a file reads back as it was written, or the write that failed is
      reported; directories behave as maps, but for a name inserted twice in two
      spellings;
      a cut at any moment leaves the volume of before or of after ([Formato] to
      [Volumen]).
    - Network: a message that one node sends is read by the other as sent; no
      frame stops the node; only answers to questions enter the ARP cache
      ([Pila]).

    ** Not modelled

    The compilers and the tools of src/toolchain and the programs of
    src/Ultra_userspace run outside the authority this library is about.
    Register-level drivers (SATA, USB, network cards, graphics), interrupt and
    system-call entry, CPU start-up and the boot chain are assembly or
    device registers, whose meaning is in no source here.  The shell, the
    reports, CABINA and the splash print; their lines are left out where they
    appear inside a modelled function.  PROJECT.json lists every component with
    its status. *)

From Stdlib Require Export ZArith Lia.
From stdpp Require Export base tactics numbers list sets.

#[global] Open Scope Z_scope.

Ltac Zify.zify_post_hook ::= Z.to_euclidean_division_equations.

(** * Machine words *)

Definition w8 (z : Z) : Z := z mod 2 ^ 8.
Definition w16 (z : Z) : Z := z mod 2 ^ 16.
Definition w32 (z : Z) : Z := z mod 2 ^ 32.
Definition w64 (z : Z) : Z := z mod 2 ^ 64.

Definition is_u8 (z : Z) : Prop := 0 <= z < 2 ^ 8.
Definition is_u16 (z : Z) : Prop := 0 <= z < 2 ^ 16.
Definition is_u32 (z : Z) : Prop := 0 <= z < 2 ^ 32.
Definition is_u64 (z : Z) : Prop := 0 <= z < 2 ^ 64.

(** [checked_add] on [u64]. *)
Definition checked_add (a b : Z) : option Z :=
  if decide (a + b < 2 ^ 64) then Some (a + b) else None.

(** [saturating_sub] on an unsigned integer. *)
Definition saturating_sub (a b : Z) : Z := Z.max 0 (a - b).

Declare Scope bmo_scope.
Delimit Scope bmo_scope with bmo.

(** Wrapping 64-bit arithmetic, as the release profile compiles it. *)
Notation "a +w b" := (w64 (a + b)) (at level 50, left associativity) : bmo_scope.
Notation "a -w b" := (w64 (a - b)) (at level 50, left associativity) : bmo_scope.

#[global] Open Scope bmo_scope.

Lemma w64_small z : is_u64 z -> w64 z = z.
Proof. unfold is_u64, w64. intros. by rewrite Z.mod_small. Qed.

Lemma w64_range z : is_u64 (w64 z).
Proof. unfold is_u64, w64. lia. Qed.

Lemma w32_small z : is_u32 z -> w32 z = z.
Proof. unfold is_u32, w32. intros. by rewrite Z.mod_small. Qed.

Lemma w16_small z : is_u16 z -> w16 z = z.
Proof. unfold is_u16, w16. intros. by rewrite Z.mod_small. Qed.

(** * Rust results *)

Inductive result (T E : Type) : Type :=
| Ok (x : T)
| Err (e : E).
Arguments Ok {T E} x.
Arguments Err {T E} e.

Definition result_bind {T U E} (r : result T E) (k : T -> result U E) : result U E :=
  match r with Ok x => k x | Err e => Err e end.

Notation "x <-? c ;; k" := (result_bind c (fun x => k))
  (at level 100, c at next level, right associativity) : bmo_scope.

Definition ok_or {T E} (o : option T) (e : E) : result T E :=
  match o with Some x => Ok x | None => Err e end.

#[global] Instance result_eq_dec `{EqDecision T, EqDecision E} : EqDecision (result T E).
Proof. solve_decision. Defined.

(** * Bits *)

Lemma land_ones_mod z n : 0 <= n -> Z.land z (2 ^ n - 1) = z mod 2 ^ n.
Proof. intros. rewrite <- Z.land_ones by done. by rewrite Z.ones_equiv, Z.sub_1_r. Qed.

(** A field shifted above a narrower one: [|] is [+]. *)
Lemma testbit_above b n i : 0 <= b < 2 ^ n -> n <= i -> Z.testbit b i = false.
Proof.
  intros Hb Hi. destruct (decide (b = 0)) as [->|]; [apply Z.bits_0|].
  apply Z.bits_above_log2; [lia|]. apply Z.log2_lt_pow2; [lia|].
  eapply Z.lt_le_trans; [apply Hb|]. apply Z.pow_le_mono_r; lia.
Qed.

Lemma lor_shiftl_add a b n :
  0 <= n -> 0 <= b < 2 ^ n -> Z.lor (Z.shiftl a n) b = a * 2 ^ n + b.
Proof.
  intros Hn Hb. rewrite <- Z.shiftl_mul_pow2 by done.
  assert (Hd : Z.land (Z.shiftl a n) b = 0).
  { apply Z.bits_inj'; intros i Hi. rewrite Z.land_spec, Z.bits_0.
    destruct (decide (i < n)); [by rewrite Z.shiftl_spec_low|].
    rewrite (testbit_above b n i), andb_false_r; [done|lia|lia]. }
  rewrite Z.add_nocarry_lxor by done. by rewrite Z.lxor_lor.
Qed.

Lemma testbit_setbit_iff w b i :
  0 <= b -> 0 <= i ->
  Z.testbit (Z.lor w (Z.shiftl 1 b)) i = Z.testbit w i || bool_decide (i = b).
Proof.
  intros. rewrite Z.lor_spec. f_equal. rewrite Z.shiftl_1_l.
  case_bool_decide as E; [subst; by apply Z.pow2_bits_true|].
  by apply Z.pow2_bits_false.
Qed.

Lemma land_bit_zero w b : 0 <= b -> (Z.land w (Z.shiftl 1 b) =? 0) = negb (Z.testbit w b).
Proof.
  intros Hb. rewrite Z.shiftl_1_l. destruct (Z.testbit w b) eqn:E; simpl.
  - apply Z.eqb_neq. intros H. apply (f_equal (fun z => Z.testbit z b)) in H.
    rewrite Z.land_spec, Z.bits_0, E, Z.pow2_bits_true in H by done. done.
  - apply Z.eqb_eq, Z.bits_inj'. intros i Hi. rewrite Z.land_spec, Z.bits_0.
    destruct (decide (i = b)) as [->|]; [by rewrite E|].
    rewrite Z.pow2_bits_false by congruence. apply andb_false_r.
Qed.

(** [u16::is_power_of_two] and the like. *)
Lemma land_pred_zero a : 0 < a -> Z.land a (a - 1) = 0 <-> exists k, 0 <= k /\ a = 2 ^ k.
Proof.
  intros Ha. split.
  - intros H. exists (Z.log2 a). pose proof (Z.log2_spec a Ha) as [H1 H2]. pose proof (Z.log2_nonneg a).
    split; [done|]. destruct (decide (a = 2 ^ Z.log2 a)) as [|Hne]; [done|exfalso].
    assert (Hb : Z.testbit (Z.land a (a - 1)) (Z.log2 a) = true); [|by rewrite H, Z.bits_0 in Hb].
    rewrite Z.land_spec, Z.bit_log2 by done. cbn [andb].
    replace (Z.log2 a) with (Z.log2 (a - 1)); [apply Z.bit_log2; lia|].
    apply Z.log2_unique; [done|]. lia.
  - intros (k & Hk & ->). rewrite land_ones_mod by done. apply Z.mod_same. lia.
Qed.

(** * Arrays *)

(** [iter().position(p)]. *)
Fixpoint position {A} (p : A -> bool) (l : list A) : option nat :=
  match l with
  | [] => None
  | x :: l => if p x then Some O else S <$> position p l
  end.

Lemma position_Some {A} (p : A -> bool) l i :
  position p l = Some i ->
  exists x, l !! i = Some x /\ p x = true /\
            forall j y, (j < i)%nat -> l !! j = Some y -> p y = false.
Proof.
  revert i; induction l as [|a l IH]; intros i; simpl; [done|].
  destruct (p a) eqn:E.
  - intros [= <-]. exists a. split_and!; [done..|intros; lia].
  - destruct (position p l) as [k|] eqn:Ek; simpl; intros [= <-].
    destruct (IH k eq_refl) as (x & Hx & Hp & Hlt). exists x.
    split_and!; [done..|]. intros [|j] y Hj Hy; simpl in *; [congruence|].
    eapply Hlt; [|done]; lia.
Qed.

Lemma position_None {A} (p : A -> bool) l :
  position p l = None <-> forall i x, l !! i = Some x -> p x = false.
Proof.
  induction l as [|a l IH]; simpl; [split; [intros _ i x H; by rewrite lookup_nil in H|done]|].
  destruct (p a) eqn:E.
  - split; [done|]. intros H. specialize (H O a eq_refl). congruence.
  - destruct (position p l) eqn:Ep; simpl; (split; [|intros H]); try done.
    + assert (Some n = None) as [=]. apply IH. intros i x. apply (H (S i)).
    + intros _ [|i] x; simpl; [congruence|]. by apply IH.
Qed.

Lemma position_lt {A} (p : A -> bool) l i : position p l = Some i -> (i < length l)%nat.
Proof. intros (x & Hx & _)%position_Some. by apply lookup_lt_Some in Hx. Qed.

(** * Byte buffers *)

(** [&b[o..o + n]]. *)
Definition slice {A} (o n : nat) (b : list A) : list A := take n (drop o b).

(** [b[o..o + src.len()].copy_from_slice(src)], for a range inside [b]. *)
Definition put {A} (o : nat) (src b : list A) : list A :=
  take o b ++ src ++ drop (o + length src) b.

Lemma length_put {A} o (src b : list A) :
  (o + length src <= length b)%nat -> length (put o src b) = length b.
Proof. intros H. unfold put. rewrite !length_app, length_take, length_drop. lia. Qed.

Lemma length_slice {A} o n (b : list A) : (o + n <= length b)%nat -> length (slice o n b) = n.
Proof. intros H. unfold slice. rewrite length_take, length_drop. lia. Qed.

Lemma slice_put_eq {A} o n (src b : list A) :
  n = length src -> (o + n <= length b)%nat -> slice o n (put o src b) = src.
Proof.
  intros -> H. unfold slice, put. rewrite drop_app_length' by (rewrite length_take; lia).
  apply take_app_length.
Qed.

Lemma slice_put_before {A} o n p (src b : list A) :
  (o + n <= p)%nat -> (p <= length b)%nat -> slice o n (put p src b) = slice o n b.
Proof.
  intros H1 H2. unfold slice, put. rewrite drop_app_le by (rewrite length_take; lia).
  rewrite take_app_le by (rewrite length_drop, length_take; lia).
  rewrite !take_drop_commute, take_take. do 2 f_equal. lia.
Qed.

Lemma slice_put_after {A} o n p (src b : list A) :
  (p + length src <= o)%nat -> (p <= length b)%nat -> slice o n (put p src b) = slice o n b.
Proof.
  intros H1 H2. unfold slice, put. f_equal. rewrite app_assoc.
  rewrite drop_app_ge by (rewrite length_app, length_take; lia).
  rewrite drop_drop. f_equal. rewrite length_app, length_take. lia.
Qed.

Lemma slice_app {A} o n (b r : list A) :
  (o + n <= length b)%nat -> slice o n (b ++ r) = slice o n b.
Proof.
  intros H. unfold slice. rewrite drop_app_le by lia. by rewrite take_app_le by (rewrite length_drop; lia).
Qed.

Lemma slice_0 {A} n (b : list A) : slice 0 n b = take n b.
Proof. done. Qed.

(** The same with the length [N] of the buffer carried along, for buffers built
    by a chain of [put]s; [buf N] reads a slice through such a chain. *)
Lemma length_putN {A} N o (src b : list A) :
  length b = N -> (o + length src <= N)%nat -> length (put o src b) = N.
Proof. intros <-. apply length_put. Qed.
Lemma slice_putN_eq {A} N o n (src b : list A) :
  length b = N -> n = length src -> (o + n <= N)%nat -> slice o n (put o src b) = src.
Proof. intros <-. apply slice_put_eq. Qed.
Lemma slice_putN_before {A} N o n p (src b : list A) :
  length b = N -> (o + n <= p)%nat -> (p <= N)%nat -> slice o n (put p src b) = slice o n b.
Proof. intros <-. apply slice_put_before. Qed.
Lemma slice_putN_after {A} N o n p (src b : list A) :
  length b = N -> (p + length src <= o)%nat -> (p <= N)%nat -> slice o n (put p src b) = slice o n b.
Proof. intros <-. apply slice_put_after. Qed.

(** A buffer of [N] bytes that starts with [b] and is zero after it. *)
Definition pad (N : nat) (b : list Z) : list Z := b ++ replicate (N - length b) 0.

Lemma length_pad N b : (length b <= N)%nat -> length (pad N b) = N.
Proof. intros H. unfold pad. rewrite length_app, length_replicate. lia. Qed.

Lemma put_pad N b c : (length b + length c <= N)%nat -> put (length b) c (pad N b) = pad N (b ++ c).
Proof.
  intros H. unfold put, pad. rewrite take_app_length, <- app_assoc, drop_app_ge by lia.
  do 3 f_equal. rewrite drop_replicate, length_app. f_equal. lia.
Qed.

Lemma put_zeros N b : (length b <= N)%nat -> put 0 b (replicate N 0) = pad N b.
Proof. intros H. exact (eq_trans (f_equal (put 0 b) (eq_sym (f_equal (fun k => replicate k 0) (Nat.sub_0_r N)))) (put_pad N [] b H)). Qed.

(** Tables of cells of one length. *)
Section Celdas.
Context {A B : Type} (f : A -> list B) (n : nat).
Local Abbreviation parejas := (Forall (fun x => length (f x) = n)).

Lemma length_concat_celdas l : parejas l -> length (concat (f <$> l)) = (length l * n)%nat.
Proof.
  induction 1 as [|x l Hx _ IH]; [done|]. rewrite fmap_cons. cbn [concat length].
  rewrite length_app, IH, Hx. lia.
Qed.

Lemma slice_celda l i x : parejas l -> l !! i = Some x -> slice (i * n) n (concat (f <$> l)) = f x.
Proof.
  intros H Hi. destruct (list_elem_of_split_length _ _ _ Hi) as (l1 & l2 & -> & ->).
  apply Forall_app in H as [H1 H2]. apply Forall_cons in H2 as [Hx _].
  rewrite fmap_app, concat_app. unfold slice.
  rewrite drop_app_length' by (by rewrite length_concat_celdas). cbn. by apply take_app_length'.
Qed.

Lemma put_celda l i x r : parejas l -> length (f x) = n -> (i < length l)%nat ->
  put (i * n) (f x) (concat (f <$> l) ++ r) = concat (f <$> <[i := x]> l) ++ r.
Proof.
  intros H Hx Hi. destruct (lookup_lt_is_Some_2 _ _ Hi) as [y Hy].
  destruct (list_elem_of_split_length _ _ _ Hy) as (l1 & l2 & -> & ->).
  apply Forall_app in H as [H1 H2]. apply Forall_cons in H2 as [Hy' _].
  rewrite (insert_app_r_alt l1) by lia. rewrite Nat.sub_diag. cbn [insert list_insert].
  rewrite !fmap_app, !concat_app, <- !app_assoc. cbn [fmap list_fmap concat]. unfold put.
  rewrite take_app_length' by (by rewrite length_concat_celdas).
  rewrite <- !(app_assoc (f _)), (app_assoc (concat _) (f y)), drop_app_length'; [done|].
  rewrite length_app, length_concat_celdas by done. congruence.
Qed.
End Celdas.

(** [to_le_bytes] and [from_le_bytes]. *)
Fixpoint le (n : nat) (z : Z) : list Z :=
  match n with O => [] | S n => z mod 2 ^ 8 :: le n (z / 2 ^ 8) end.
Fixpoint of_le (l : list Z) : Z :=
  match l with [] => 0 | x :: l => x + 2 ^ 8 * of_le l end.

Lemma length_le n z : length (le n z) = n.
Proof. revert z; induction n; intros z; simpl; [done|]. by rewrite IHn. Qed.

Lemma le_lookup n z k : (k < n)%nat -> le n z !! k = Some ((z / 256 ^ Z.of_nat k) mod 256).
Proof.
  revert z k. induction n as [|n IH]; intros z k Hk; [lia|]. destruct k as [|k]; [by rewrite Z.div_1_r|].
  cbn [le]. change ((z mod 2 ^ 8 :: le n (z / 2 ^ 8)) !! S k) with (le n (z / 2 ^ 8) !! k). rewrite IH by lia.
  rewrite Z.div_div by lia. rewrite Nat2Z.inj_succ, Z.pow_succ_r by lia. done.
Qed.
Lemma of_le_le n z : 0 <= z < 2 ^ (8 * Z.of_nat n) -> of_le (le n z) = z.
Proof.
  revert z; induction n as [|n IH]; intros z H; [simpl in *; lia|].
  cbn [le of_le]. rewrite IH; [lia|].
  replace (8 * Z.of_nat (S n)) with (8 + 8 * Z.of_nat n) in H by lia.
  rewrite Z.pow_add_r in H by lia. split; [lia|]. apply Z.div_lt_upper_bound; lia.
Qed.

Lemma of_le_range l : Forall is_u8 l -> 0 <= of_le l < 2 ^ (8 * Z.of_nat (length l)).
Proof.
  induction 1 as [|x l Hx _ IH]; [simpl; lia|]. cbn [of_le length].
  replace (8 * Z.of_nat (S (length l))) with (8 + 8 * Z.of_nat (length l)) by lia.
  rewrite Z.pow_add_r by lia. unfold is_u8 in Hx. lia.
Qed.

Lemma le_of_le l : Forall is_u8 l -> le (length l) (of_le l) = l.
Proof.
  induction 1 as [|x l Hx _ IH]; [done|]. cbn [of_le length le]. unfold is_u8 in Hx.
  replace ((x + 2 ^ 8 * of_le l) mod 2 ^ 8) with x by lia.
  replace ((x + 2 ^ 8 * of_le l) / 2 ^ 8) with (of_le l) by lia. by rewrite IH.
Qed.

Lemma le_bytes n z : 0 <= z -> Forall is_u8 (le n z).
Proof.
  revert z; induction n as [|n IH]; intros z Hz; simpl; constructor; [unfold is_u8; lia|].
  apply IH. lia.
Qed.

(** Case analysis on a [bool] test of the code, turned into its proposition. *)
Ltac bdestr :=
  repeat match goal with
  | H : negb _ = true |- _ => apply negb_true_iff in H
  | H : negb _ = false |- _ => apply negb_false_iff in H
  | H : _ && _ = true |- _ => apply andb_true_iff in H as [??]
  | H : _ || _ = false |- _ => apply orb_false_iff in H as [??]
  | H : (_ <? _) = true |- _ => apply Z.ltb_lt in H
  | H : (_ <? _) = false |- _ => apply Z.ltb_ge in H
  | H : (_ <=? _) = true |- _ => apply Z.leb_le in H
  | H : (_ <=? _) = false |- _ => apply Z.leb_gt in H
  | H : (_ =? _) = true |- _ => apply Z.eqb_eq in H
  | H : (_ =? _) = false |- _ => apply Z.eqb_neq in H
  | H : bool_decide _ = true |- _ => apply bool_decide_eq_true in H
  | H : bool_decide _ = false |- _ => apply bool_decide_eq_false in H
  end.

(** Splits every [if] and [match] of the goal or of [H], keeping equations. *)
Ltac case_if :=
  match goal with
  | |- context [if ?b then _ else _] =>
      match type of b with bool => destruct b eqn:? end
  end.
Ltac case_if_in H :=
  match type of H with
  | context [if ?b then _ else _] =>
      match type of b with bool => destruct b eqn:? end
  end.

(** Lengths of buffers; [buflen] collects the lengths of their sources. *)
Create Rewrite HintDb buflen.
#[export] Hint Rewrite @length_replicate length_le @length_app : buflen.
Ltac blen_arith := autorewrite with buflen; cbn [length]; lia.
Ltac blen :=
  lazymatch goal with
  | |- length _ = _ => repeat (apply length_putN; [|blen_arith]); blen_arith
  | |- _ => blen_arith
  end.
Ltac buf1 N o n p src b :=
  let antes := eval vm_compute in (o + n <=? p)%nat in
  lazymatch antes with
  | true => rewrite (slice_putN_before N o n p src b) by blen
  | false =>
      let igual := eval vm_compute in (o =? p)%nat in
      lazymatch igual with
      | true => rewrite (slice_putN_eq N o n src b) by blen
      | false => rewrite (slice_putN_after N o n p src b) by blen
      end
  end.
Ltac buf N :=
  repeat match goal with
  | |- context [slice ?o ?n (put ?p ?src ?b)] => buf1 N o n p src b
  end.

Create HintDb bmo.
#[export] Hint Resolve w64_range position_lt : bmo.
#[export] Hint Unfold is_u8 is_u16 is_u32 is_u64 : bmo.
