(* ===== verification/Cap.v ===== *)
(** The Ring 0 capability engine: per-process tables of slots, handles that
    encode (tag, kind, generation, index), and the operations that grant,
    resolve, find and revoke them.
    Source: src/Ultra_kernel_x86-64/kernel/src/ring0/obj/cap.rs, with the
    ABI-side view of a handle from
    src/platform/abi/bmo-abi/src/fundamentals/handle/{kind,opaque}.rs.

    The [static mut TABLES] is the value [cap_tables] passed from operation to
    operation; the spin lock makes each operation atomic, so an execution is a
    sequence of operations ([run]). *)

From S2P Require Import Prelude.

Definition MAX_PROCS : Z := 16.
Definition SLOTS_PER_PROC : Z := 64.
Definition MAX_CHANNEL_PAGES : nat := 16.

Definition KIND_FRAMEBUFFER : Z := 0x0F.
Definition KIND_AUDIO : Z := 0x10.
Definition KIND_INPUT : Z := 0x20.
Definition KIND_CONSOLE : Z := 0x30.
Definition KIND_DIRECTORIO : Z := 0x40.
Definition KIND_ARCHIVO : Z := 0x41.
Definition KIND_MEMORIA : Z := 0x50.
Definition KIND_PRESTADO : Z := 0x51.
Definition KIND_CHANNEL : Z := 0x60.
Definition KIND_ENDPOINT : Z := 0x70.
Definition KIND_REPLY : Z := 0x71.
Definition KIND_MMIO : Z := 0x74.
Definition KIND_LATIDO : Z := 0x75.
Definition KIND_RED : Z := 0x76.
Definition KIND_TAREA : Z := 0x55.

Definition RIGHT_READ : Z := Z.shiftl 1 0.
Definition RIGHT_WRITE : Z := Z.shiftl 1 1.
Definition RIGHT_WAIT : Z := Z.shiftl 1 6.

Definition ERROR_INVALID_HANDLE : Z := 2.
Definition ERROR_PERMISSION_DENIED : Z := 3.
Definition FLAG_NEEDS_CAP : Z := Z.shiftl 1 4.

Definition HANDLE_TAG_SHIFT : Z := 63.
Definition HANDLE_KIND_SHIFT : Z := 56.
Definition HANDLE_KIND_MASK : Z := 0x7F.
Definition HANDLE_GEN_SHIFT : Z := 40.
Definition HANDLE_GEN_MASK : Z := 0xFFFF.
Definition HANDLE_INDEX_MASK : Z := 0x000000FFFFFFFFFF.

Record CapSlot := mkSlot {
  kind : Z; live : bool; generation : Z; rights : Z; object : Z
}.

Definition FREE : CapSlot := mkSlot 0 false 0 0 0.
#[export] Instance CapSlot_inhabited : Inhabited CapSlot := populate FREE.

Record Resolved := mkResolved { r_kind : Z; r_rights : Z; r_object : Z }.

(** [CapTables]: [MAX_PROCS] rows of [SLOTS_PER_PROC] slots. *)
Abbreviation cap_tables := (list (list CapSlot)).

Definition TABLES_init : cap_tables :=
  replicate (Z.to_nat MAX_PROCS) (replicate (Z.to_nat SLOTS_PER_PROC) FREE).

(** Row and slot reads and writes; the callers below bound [pid] and [index]. *)
Definition row (t : cap_tables) (pid : Z) : list CapSlot := t !!! Z.to_nat pid.
Definition slot (t : cap_tables) (pid index : Z) : CapSlot :=
  row t pid !!! Z.to_nat index.
Definition set_row (t : cap_tables) (pid : Z) (r : list CapSlot) : cap_tables :=
  <[Z.to_nat pid := r]> t.
Definition set_slot (t : cap_tables) (pid index : Z) (s : CapSlot) : cap_tables :=
  set_row t pid (<[Z.to_nat index := s]> (row t pid)).

Definition kind_tag (k : Z) : Z := if k =? KIND_CHANNEL then 1 else 0.

Definition encode (k g index : Z) : Z :=
  Z.lor (Z.lor (Z.lor
    (w64 (Z.shiftl (kind_tag k) HANDLE_TAG_SHIFT))
    (w64 (Z.shiftl (Z.land k HANDLE_KIND_MASK) HANDLE_KIND_SHIFT)))
    (w64 (Z.shiftl (Z.land g HANDLE_GEN_MASK) HANDLE_GEN_SHIFT)))
    (Z.land index HANDLE_INDEX_MASK).

Definition next_generation (g : Z) : Z :=
  let g' := w16 (g + 1) in if g' =? 0 then 1 else g'.

Definition grant (t : cap_tables) (pid k r o : Z) : cap_tables * option Z :=
  if MAX_PROCS <=? pid then (t, None)
  else match position (fun s => negb (live s)) (row t pid) with
  | None => (t, None)
  | Some i =>
      let index := Z.of_nat i in
      let g := next_generation (generation (slot t pid index)) in
      (set_slot t pid index (mkSlot k true g r o), Some (encode k g index))
  end.

(** The three fields of a handle, as [resolve] and [revoke] take it apart. *)
Definition handle_kind (h : Z) : Z := Z.land (Z.shiftr h HANDLE_KIND_SHIFT) HANDLE_KIND_MASK.
Definition handle_gen (h : Z) : Z := Z.land (Z.shiftr h HANDLE_GEN_SHIFT) HANDLE_GEN_MASK.
Definition handle_index (h : Z) : Z := Z.land h HANDLE_INDEX_MASK.

Definition resolve (t : cap_tables) (pid handle required : Z) : result Resolved (Z * Z) :=
  if MAX_PROCS <=? pid then Err (ERROR_INVALID_HANDLE, 0)
  else
    let k := handle_kind handle in
    let g := handle_gen handle in
    let index := handle_index handle in
    if (SLOTS_PER_PROC <=? index) || (g =? 0) then Err (ERROR_INVALID_HANDLE, 0)
    else
      let s := slot t pid index in
      if negb (live s) || negb (generation s =? g) || negb (kind s =? k)
         || negb (kind_tag k =? Z.shiftr handle HANDLE_TAG_SHIFT)
      then Err (ERROR_INVALID_HANDLE, 0)
      else if negb (Z.land (rights s) required =? required)
      then Err (ERROR_PERMISSION_DENIED, FLAG_NEEDS_CAP)
      else Ok (mkResolved (kind s) (rights s) (object s)).

Definition find (t : cap_tables) (pid k o : Z) : option Z :=
  if MAX_PROCS <=? pid then None
  else match position (fun s => live s && (kind s =? k) && (object s =? o)) (row t pid) with
  | None => None
  | Some i => let s := slot t pid (Z.of_nat i) in
              Some (encode (kind s) (generation s) (Z.of_nat i))
  end.

(** A revoked slot keeps its generation; everything else goes. *)
Definition cleared (s : CapSlot) : CapSlot := mkSlot 0 false (generation s) 0 0.

Definition revoke (t : cap_tables) (pid handle : Z) : cap_tables * bool :=
  if MAX_PROCS <=? pid then (t, false)
  else
    let g := handle_gen handle in
    let index := handle_index handle in
    if (SLOTS_PER_PROC <=? index) || (g =? 0) then (t, false)
    else
      let s := slot t pid index in
      if negb (live s) || negb (generation s =? g) then (t, false)
      else (set_slot t pid index (cleared s), true).

Definition live_count_of (t : cap_tables) (pid : Z) : Z :=
  if MAX_PROCS <=? pid then 0
  else Z.of_nat (length (filter (fun s => live s = true) (row t pid))).

Definition revoke_all_slots (t : cap_tables) (pid : Z) : cap_tables :=
  if MAX_PROCS <=? pid then t else set_row t pid (cleared <$> row t pid).

(** [seed_init]: one channel capability per estuary; the number of grants that
    failed is what the code reports to CABINA. *)
Fixpoint seed_loop (t : cap_tables) (pid : Z) (index n : nat) (fallidas : Z) : cap_tables * Z :=
  match n with
  | O => (t, fallidas)
  | S n =>
      let '(t', h) := grant t pid KIND_CHANNEL
                        (Z.lor (Z.lor RIGHT_READ RIGHT_WRITE) RIGHT_WAIT) (Z.of_nat index) in
      seed_loop t' pid (S index) n
        (match h with None => w32 (fallidas + 1) | Some _ => fallidas end)
  end.

Definition seed_init (t : cap_tables) (pid : Z) : cap_tables * Z :=
  seed_loop t pid 0 MAX_CHANNEL_PAGES 0.

(** Executions: the lock serialises the operations of every process. *)
Inductive op :=
| Grant (pid k r o : Z)
| Revoke (pid h : Z)
| RevokeAll (pid : Z).

Definition step (t : cap_tables) (a : op) : cap_tables :=
  match a with
  | Grant pid k r o => fst (grant t pid k r o)
  | Revoke pid h => fst (revoke t pid h)
  | RevokeAll pid => revoke_all_slots t pid
  end.

Definition run (ops : list op) (t : cap_tables) : cap_tables := foldl step t ops.

(** How many grants to [pid] an execution contains. *)
Fixpoint grants_to (pid : Z) (ops : list op) : nat :=
  match ops with
  | [] => O
  | Grant p _ _ _ :: ops => ((if (p =? pid)%Z then 1 else 0) + grants_to pid ops)%nat
  | _ :: ops => grants_to pid ops
  end.

(** * The handle of the ABI crate *)

Inductive HandleKind :=
| Device | Queue | CmdList | Pso | RootSig | Heap | Buffer | Texture | Sampler
| Fence | Swapchain | QueryHeap | BlasAccelStruct | TlasAccelStruct | Framebuffer
| AudioEngine | AudioVoice | AudioSpatializer | AudioStream
| InputDevice | InputProfile
| NetSocket | NetEndpoint | NetTlsCtx | NetQuicConn
| File | Directory | Mount | StorageOp
| Process | Thread | Mutex | Futex | Port
| Channel | MmioWindow | Latido | Red.

#[export] Instance HandleKind_eq_dec : EqDecision HandleKind.
Proof. solve_decision. Defined.

Definition code (k : HandleKind) : Z :=
  match k with
  | Device => 0x01 | Queue => 0x02 | CmdList => 0x03 | Pso => 0x04 | RootSig => 0x05
  | Heap => 0x06 | Buffer => 0x07 | Texture => 0x08 | Sampler => 0x09 | Fence => 0x0A
  | Swapchain => 0x0B | QueryHeap => 0x0C | BlasAccelStruct => 0x0D
  | TlasAccelStruct => 0x0E | Framebuffer => 0x0F
  | AudioEngine => 0x10 | AudioVoice => 0x11 | AudioSpatializer => 0x12 | AudioStream => 0x13
  | InputDevice => 0x20 | InputProfile => 0x21
  | NetSocket => 0x30 | NetEndpoint => 0x31 | NetTlsCtx => 0x32 | NetQuicConn => 0x33
  | File => 0x40 | Directory => 0x41 | Mount => 0x42 | StorageOp => 0x43
  | Process => 0x50 | Thread => 0x51 | Mutex => 0x52 | Futex => 0x53 | Port => 0x54
  | Channel => 0x60 | MmioWindow => 0x74 | Latido => 0x75 | Red => 0x76
  end.

Definition tag (k : HandleKind) : Z :=
  match k with
  | Queue | CmdList | AudioVoice | AudioStream | NetSocket | NetQuicConn
  | Thread | StorageOp | Channel => 1
  | _ => 0
  end.

Definition all_kinds : list HandleKind :=
  [Device; Queue; CmdList; Pso; RootSig; Heap; Buffer; Texture; Sampler; Fence;
   Swapchain; QueryHeap; BlasAccelStruct; TlasAccelStruct; Framebuffer;
   AudioEngine; AudioVoice; AudioSpatializer; AudioStream; InputDevice; InputProfile;
   NetSocket; NetEndpoint; NetTlsCtx; NetQuicConn; File; Directory; Mount; StorageOp;
   Process; Thread; Mutex; Futex; Port; Channel; MmioWindow; Latido; Red].

(** [from_code]: its match lists each kind at its own [code]. *)
Definition from_code (c : Z) : option HandleKind :=
  match c with
  | 0x01 => Some Device | 0x02 => Some Queue | 0x03 => Some CmdList | 0x04 => Some Pso
  | 0x05 => Some RootSig | 0x06 => Some Heap | 0x07 => Some Buffer | 0x08 => Some Texture
  | 0x09 => Some Sampler | 0x0A => Some Fence | 0x0B => Some Swapchain
  | 0x0C => Some QueryHeap | 0x0D => Some BlasAccelStruct | 0x0E => Some TlasAccelStruct
  | 0x0F => Some Framebuffer
  | 0x10 => Some AudioEngine | 0x11 => Some AudioVoice | 0x12 => Some AudioSpatializer
  | 0x13 => Some AudioStream | 0x20 => Some InputDevice | 0x21 => Some InputProfile
  | 0x30 => Some NetSocket | 0x31 => Some NetEndpoint | 0x32 => Some NetTlsCtx
  | 0x33 => Some NetQuicConn | 0x40 => Some File | 0x41 => Some Directory
  | 0x42 => Some Mount | 0x43 => Some StorageOp
  | 0x50 => Some Process | 0x51 => Some Thread | 0x52 => Some Mutex | 0x53 => Some Futex
  | 0x54 => Some Port | 0x60 => Some Channel | 0x74 => Some MmioWindow
  | 0x75 => Some Latido | 0x76 => Some Red
  | _ => None
  end.

(** [BmoHandle::new] and its readers. *)
Definition BmoHandle_new (k : HandleKind) (g index : Z) : Z :=
  Z.lor (Z.lor (Z.lor
    (w64 (Z.shiftl (tag k) HANDLE_TAG_SHIFT))
    (w64 (Z.shiftl (Z.land (code k) HANDLE_KIND_MASK) HANDLE_KIND_SHIFT)))
    (w64 (Z.shiftl (Z.land g HANDLE_GEN_MASK) HANDLE_GEN_SHIFT)))
    (Z.land index HANDLE_INDEX_MASK).

Definition BmoHandle_kind_code (h : Z) : Z :=
  w8 (Z.land (Z.shiftr h HANDLE_KIND_SHIFT) HANDLE_KIND_MASK).
Definition BmoHandle_kind (h : Z) : option HandleKind := from_code (BmoHandle_kind_code h).
Definition BmoHandle_generation (h : Z) : Z :=
  w16 (Z.land (Z.shiftr h HANDLE_GEN_SHIFT) HANDLE_GEN_MASK).
Definition BmoHandle_index (h : Z) : Z := Z.land h HANDLE_INDEX_MASK.
Definition BmoHandle_is_active (h : Z) : bool := Z.shiftr h HANDLE_TAG_SHIFT =? 1.

(** * Handles as numbers *)

(** The masks keep the low 7, 16 and 40 bits. *)
Lemma land_kind_mask z : Z.land z HANDLE_KIND_MASK = z mod 2 ^ 7.
Proof. by apply (land_ones_mod z 7). Qed.
Lemma land_gen_mask z : Z.land z HANDLE_GEN_MASK = z mod 2 ^ 16.
Proof. by apply (land_ones_mod z 16). Qed.
Lemma land_index_mask z : Z.land z HANDLE_INDEX_MASK = z mod 2 ^ 40.
Proof. by apply (land_ones_mod z 40). Qed.

Lemma handle_kind_mod h : handle_kind h = (h / 2 ^ 56) mod 2 ^ 7.
Proof. unfold handle_kind. by rewrite land_kind_mask, Z.shiftr_div_pow2. Qed.
Lemma handle_gen_mod h : handle_gen h = (h / 2 ^ 40) mod 2 ^ 16.
Proof. unfold handle_gen. by rewrite land_gen_mask, Z.shiftr_div_pow2. Qed.
Lemma handle_index_mod h : handle_index h = h mod 2 ^ 40.
Proof. apply land_index_mask. Qed.
Lemma handle_tag_div h : Z.shiftr h HANDLE_TAG_SHIFT = h / 2 ^ 63.
Proof. by apply Z.shiftr_div_pow2. Qed.

Definition pack (t k g i : Z) : Z := t * 2 ^ 63 + k * 2 ^ 56 + g * 2 ^ 40 + i.

(** Both encoders build the same sum of fields. *)
Lemma pack_eq t k g i :
  0 <= t <= 1 -> 0 <= k < 2 ^ 7 -> is_u16 g -> 0 <= i < 2 ^ 40 ->
  Z.lor (Z.lor (Z.lor
    (w64 (Z.shiftl t HANDLE_TAG_SHIFT))
    (w64 (Z.shiftl (Z.land k HANDLE_KIND_MASK) HANDLE_KIND_SHIFT)))
    (w64 (Z.shiftl (Z.land g HANDLE_GEN_MASK) HANDLE_GEN_SHIFT)))
    (Z.land i HANDLE_INDEX_MASK) = pack t k g i.
Proof.
  unfold is_u16; intros Ht Hk Hg Hi.
  rewrite land_kind_mask, land_gen_mask, land_index_mask.
  unfold HANDLE_TAG_SHIFT, HANDLE_KIND_SHIFT, HANDLE_GEN_SHIFT.
  rewrite (Z.mod_small k), (Z.mod_small g), (Z.mod_small i) by lia.
  rewrite !Z.shiftl_mul_pow2 by lia.
  rewrite !w64_small by (unfold is_u64; lia).
  replace (t * 2 ^ 63) with (Z.shiftl (Z.shiftl t 7) 56)
    by (rewrite !Z.shiftl_mul_pow2 by lia; lia).
  rewrite <- (Z.shiftl_mul_pow2 k), <- Z.shiftl_lor by lia.
  rewrite (lor_shiftl_add (Z.lor _ _)), (lor_shiftl_add t) by lia.
  replace ((t * 2 ^ 7 + k) * 2 ^ 56 + g * 2 ^ 40)
    with (Z.shiftl ((t * 2 ^ 7 + k) * 2 ^ 16 + g) 40) by (rewrite Z.shiftl_mul_pow2 by lia; lia).
  rewrite lor_shiftl_add by lia. unfold pack. lia.
Qed.

Lemma kind_tag_range k : 0 <= kind_tag k <= 1.
Proof. unfold kind_tag. destruct (k =? _); lia. Qed.

Lemma encode_pack k g i :
  0 <= k < 2 ^ 7 -> is_u16 g -> 0 <= i < 2 ^ 40 -> encode k g i = pack (kind_tag k) k g i.
Proof. intros. apply pack_eq; auto using kind_tag_range. Qed.

Section pack_fields.
Context (t k g i : Z).
Context (Ht : 0 <= t <= 1) (Hk : 0 <= k < 2 ^ 7) (Hg : is_u16 g) (Hi : 0 <= i < 2 ^ 40).

Lemma pack_kind : handle_kind (pack t k g i) = k.
Proof. rewrite handle_kind_mod. unfold pack, is_u16 in *. lia. Qed.
Lemma pack_gen : handle_gen (pack t k g i) = g.
Proof. rewrite handle_gen_mod. unfold pack, is_u16 in *. lia. Qed.
Lemma pack_index : handle_index (pack t k g i) = i.
Proof. rewrite handle_index_mod. unfold pack, is_u16 in *. lia. Qed.
Lemma pack_tag : Z.shiftr (pack t k g i) HANDLE_TAG_SHIFT = t.
Proof. rewrite handle_tag_div. unfold pack, is_u16 in *. lia. Qed.
End pack_fields.

(** A [u64] is determined by the four fields. *)
Lemma pack_fields_eq h :
  is_u64 h -> h = pack (Z.shiftr h HANDLE_TAG_SHIFT) (handle_kind h) (handle_gen h) (handle_index h).
Proof.
  unfold is_u64, pack; intros Hh.
  rewrite handle_tag_div, handle_kind_mod, handle_gen_mod, handle_index_mod. lia.
Qed.

Lemma handle_gen_range h : is_u16 (handle_gen h).
Proof. rewrite handle_gen_mod. unfold is_u16. lia. Qed.
Lemma handle_kind_range h : 0 <= handle_kind h < 2 ^ 7.
Proof. rewrite handle_kind_mod. lia. Qed.
Lemma handle_index_range h : 0 <= handle_index h < 2 ^ 40.
Proof. rewrite handle_index_mod. lia. Qed.

(** * Well-formed tables *)

(** A live slot has a generation other than 0 and a kind that fits the
    handle's field; a dead one names nothing. *)
Record wf_slot (s : CapSlot) : Prop := {
  wf_generation : is_u16 (generation s);
  wf_live : live s = true -> generation s <> 0 /\ 0 <= kind s < 2 ^ 7;
  wf_dead : live s = false -> kind s = 0 /\ rights s = 0 /\ object s = 0
}.

Definition wf (t : cap_tables) : Prop :=
  length t = 16%nat /\ Forall (fun r => length r = 64%nat /\ Forall wf_slot r) t.

Lemma wf_row t pid :
  wf t -> 0 <= pid < MAX_PROCS -> length (row t pid) = 64%nat /\ Forall wf_slot (row t pid).
Proof.
  unfold MAX_PROCS, row. intros [Hl Ht] Hp.
  rewrite Forall_lookup in Ht. apply (Ht (Z.to_nat pid)).
  apply list_lookup_lookup_total_lt. lia.
Qed.

Lemma wf_at t pid i :
  wf t -> 0 <= pid < MAX_PROCS -> 0 <= i < SLOTS_PER_PROC -> wf_slot (slot t pid i).
Proof.
  unfold SLOTS_PER_PROC. intros Ht Hp Hi. destruct (wf_row t pid Ht Hp) as [Hl Hr].
  rewrite Forall_lookup in Hr. eapply (Hr (Z.to_nat i)).
  apply list_lookup_lookup_total_lt. lia.
Qed.

Lemma wf_set_row t pid r :
  wf t -> length r = 64%nat -> Forall wf_slot r -> wf (set_row t pid r).
Proof.
  intros [Hl Ht] Hr Hs. split; [by unfold set_row; rewrite length_insert|].
  by apply Forall_insert.
Qed.

Lemma wf_set_slot t pid i s :
  wf t -> 0 <= pid < MAX_PROCS -> wf_slot s -> wf (set_slot t pid i s).
Proof.
  intros Ht Hp Hs. destruct (wf_row t pid Ht Hp). apply wf_set_row; [done| |].
  - by rewrite length_insert.
  - by apply Forall_insert.
Qed.

Lemma row_set_row t pid pid' r :
  wf t -> 0 <= pid < MAX_PROCS -> 0 <= pid' ->
  row (set_row t pid r) pid' = if decide (pid = pid') then r else row t pid'.
Proof.
  unfold MAX_PROCS, row, set_row. intros [Hl _] Hp Hp'. case_decide as E.
  - subst. apply list_lookup_total_insert_eq. lia.
  - apply list_lookup_total_insert_ne. lia.
Qed.

Lemma slot_set_slot t pid i s pid' i' :
  wf t -> 0 <= pid < MAX_PROCS -> 0 <= i < SLOTS_PER_PROC -> 0 <= pid' -> 0 <= i' ->
  slot (set_slot t pid i s) pid' i' =
    if decide (pid = pid' /\ i = i') then s else slot t pid' i'.
Proof.
  unfold SLOTS_PER_PROC, slot, set_slot. intros Ht Hp Hi Hp' Hi'.
  rewrite row_set_row by done. destruct (wf_row t pid Ht Hp) as [Hl _].
  destruct (decide (pid = pid')) as [<-|]; [|case_decide; [intuition congruence|done]].
  destruct (decide (i = i')) as [<-|]; case_decide; try intuition congruence.
  - apply list_lookup_total_insert_eq. lia.
  - apply list_lookup_total_insert_ne. lia.
Qed.

Lemma next_generation_spec g :
  is_u16 g -> is_u16 (next_generation g) /\ next_generation g <> 0.
Proof.
  unfold is_u16, next_generation, w16. intros. case_if; bdestr; lia.
Qed.

Lemma wf_slot_granted s k r o :
  wf_slot s -> 0 <= k < 2 ^ 7 -> wf_slot (mkSlot k true (next_generation (generation s)) r o).
Proof.
  intros [Hg _ _] Hk. apply next_generation_spec in Hg as [??]. by split.
Qed.

Lemma wf_slot_cleared s : wf_slot s -> wf_slot (cleared s).
Proof. intros [Hg _ _]. by split. Qed.

Lemma wf_slot_FREE : wf_slot FREE.
Proof. by split. Qed.

#[export] Hint Resolve wf_slot_granted wf_slot_cleared wf_slot_FREE wf_set_slot wf_at : bmo.

(** The slot [grant] takes. *)
Lemma grant_inv t pid k r o t' h :
  wf t -> 0 <= pid -> grant t pid k r o = (t', Some h) ->
  pid < MAX_PROCS /\ exists i,
    0 <= i < SLOTS_PER_PROC /\ live (slot t pid i) = false /\
    t' = set_slot t pid i (mkSlot k true (next_generation (generation (slot t pid i))) r o) /\
    h = encode k (next_generation (generation (slot t pid i))) i.
Proof.
  unfold grant. intros Ht Hp H. case_if_in H; [done|]. bdestr. split; [done|].
  destruct (position _ _) as [i|] eqn:E; [|done]. injection H as <- <-.
  pose proof (position_lt _ _ _ E) as Hi. apply position_Some in E as (s & Hs & Hd & _).
  destruct (wf_row t pid Ht) as [Hl _]; [done|].
  exists (Z.of_nat i). unfold SLOTS_PER_PROC. split_and!; [lia|lia| |done..].
  unfold slot. rewrite Nat2Z.id. rewrite (list_lookup_total_correct _ _ _ Hs).
  by apply negb_true_iff.
Qed.

(** What [resolve] accepts, field by field. *)
Definition opens (t : cap_tables) (pid h : Z) : Prop :=
  pid < MAX_PROCS /\ handle_index h < SLOTS_PER_PROC /\ handle_gen h <> 0 /\
  live (slot t pid (handle_index h)) = true /\
  generation (slot t pid (handle_index h)) = handle_gen h /\
  kind (slot t pid (handle_index h)) = handle_kind h /\
  kind_tag (handle_kind h) = Z.shiftr h HANDLE_TAG_SHIFT.

#[export] Instance opens_dec t pid h : Decision (opens t pid h).
Proof. solve_decision. Defined.

Definition answer (s : CapSlot) (required : Z) : result Resolved (Z * Z) :=
  if Z.land (rights s) required =? required
  then Ok (mkResolved (kind s) (rights s) (object s))
  else Err (ERROR_PERMISSION_DENIED, FLAG_NEEDS_CAP).

Lemma resolve_eq t pid h req :
  resolve t pid h req =
    if decide (opens t pid h) then answer (slot t pid (handle_index h)) req
    else Err (ERROR_INVALID_HANDLE, 0).
Proof.
  unfold resolve, opens, answer. case_decide as H.
  - destruct H as (Hp & Hi & Hg & Hl & Hgen & Hk & Ht).
    rewrite Hl, Hgen, Hk, Ht, !Z.eqb_refl, (proj2 (Z.leb_gt _ _) Hp),
      (proj2 (Z.leb_gt _ _) Hi), (proj2 (Z.eqb_neq _ _) Hg). simpl.
    by destruct (_ =? req).
  - repeat (case_if; bdestr; try done). all: exfalso; apply H; split_and!; try done; lia.
Qed.

(** [resolve] depends on the one slot its handle names. *)
Lemma resolve_ext t t' pid h req :
  slot t' pid (handle_index h) = slot t pid (handle_index h) ->
  resolve t' pid h req = resolve t pid h req.
Proof. intros Hs. unfold resolve. by rewrite Hs. Qed.

(** Executions preserve well-formedness. *)
Definition op_ok (a : op) : Prop :=
  match a with
  | Grant pid k _ _ => 0 <= pid /\ 0 <= k < 2 ^ 7
  | Revoke pid _ | RevokeAll pid => 0 <= pid
  end.

Lemma grant_wf t pid k r o :
  wf t -> 0 <= pid -> 0 <= k < 2 ^ 7 -> wf (fst (grant t pid k r o)).
Proof.
  intros Ht Hp Hk. destruct (grant t pid k r o) as [t' [h|]] eqn:E; simpl.
  - apply grant_inv in E as (Hm & i & Hi & _ & -> & _); [|done..].
    apply wf_set_slot; [done..|]. eauto with bmo.
  - unfold grant in E. case_if_in E; [by injection E as <-|].
    destruct (position _ _); [done|by injection E as <-].
Qed.

(** [revoke] clears the slot of a handle with the right generation. *)
Lemma revoke_eq t pid h :
  revoke t pid h =
    if decide (pid < MAX_PROCS /\ handle_index h < SLOTS_PER_PROC /\ handle_gen h <> 0 /\
               live (slot t pid (handle_index h)) = true /\
               generation (slot t pid (handle_index h)) = handle_gen h)
    then (set_slot t pid (handle_index h) (cleared (slot t pid (handle_index h))), true)
    else (t, false).
Proof.
  unfold revoke. case_decide as H.
  - destruct H as (Hp & Hi & Hg & Hl & Hgen).
    by rewrite Hl, Hgen, Z.eqb_refl, (proj2 (Z.leb_gt _ _) Hp),
      (proj2 (Z.leb_gt _ _) Hi), (proj2 (Z.eqb_neq _ _) Hg).
  - repeat (case_if; bdestr; try done). all: exfalso; apply H; split_and!; try done; lia.
Qed.

Lemma handle_index_nonneg h : 0 <= handle_index h.
Proof. apply handle_index_range. Qed.
#[export] Hint Resolve handle_index_nonneg : bmo.

Lemma revoke_wf t pid h : wf t -> 0 <= pid -> wf (fst (revoke t pid h)).
Proof.
  intros Ht Hp. rewrite revoke_eq. case_decide as H; [|done].
  destruct H as (? & ? & _). apply wf_set_slot; [done..|].
  auto with bmo.
Qed.

Lemma revoke_all_wf t pid : wf t -> 0 <= pid -> wf (revoke_all_slots t pid).
Proof.
  intros Ht Hp. unfold revoke_all_slots. case_if; [done|]. bdestr.
  destruct (wf_row t pid Ht) as [Hl Hr]; [done|]. apply wf_set_row; [done| |].
  - by rewrite length_fmap.
  - apply Forall_fmap. eapply Forall_impl; [done|]. apply wf_slot_cleared.
Qed.

Lemma step_wf t a : wf t -> op_ok a -> wf (step t a).
Proof.
  destruct a; simpl; intros; intuition auto using grant_wf, revoke_wf, revoke_all_wf.
Qed.

Lemma run_wf_from ops t : wf t -> Forall op_ok ops -> wf (run ops t).
Proof.
  revert t. induction ops as [|a ops IH]; intros t Ht Ho; [done|].
  apply Forall_cons in Ho as [??]. apply IH; auto using step_wf.
Qed.

Lemma TABLES_init_wf : wf TABLES_init.
Proof.
  split; [done|]. apply Forall_replicate. split; [done|].
  apply Forall_replicate, wf_slot_FREE.
Qed.

(** * Properties of the engine *)

(** Every execution from the empty tables keeps the tables well formed:
    16 rows of 64 slots, 16-bit generations, a live slot with a non-zero
    generation and a kind that fits the handle, a dead slot naming nothing. *)
Theorem run_wf ops : Forall op_ok ops -> wf (run ops TABLES_init).
Proof. intros. apply run_wf_from; auto using TABLES_init_wf. Qed.

Lemma run_wf_witness :
  wf (run [Grant 3 KIND_ARCHIVO RIGHT_READ 7; Revoke 3 0; RevokeAll 3] TABLES_init).
Proof. apply run_wf. repeat constructor; simpl; unfold KIND_ARCHIVO; lia. Defined.

(** C1: a handle that resolves is exactly the encoding of a live slot of that
    process with the rights asked for, and the answer is what the slot holds:
    no other 64-bit number resolves. *)
Theorem resolve_unforgeable t pid h req r :
  wf t -> 0 <= pid -> is_u64 h ->
  resolve t pid h req = Ok r <->
  pid < MAX_PROCS /\ exists i, 0 <= i < SLOTS_PER_PROC /\
    let s := slot t pid i in
    live s = true /\ h = encode (kind s) (generation s) i /\
    Z.land (rights s) req = req /\ r = mkResolved (kind s) (rights s) (object s).
Proof.
  intros Ht Hp Hh. rewrite resolve_eq. split.
  - case_decide as H; [|done]. destruct H as (Hm & Hi & Hg & Hl & Hgen & Hk & Htag).
    unfold answer. intros Ha. case_if_in Ha; [|done]. bdestr. injection Ha as <-.
    split; [done|]. exists (handle_index h). split; [auto with bmo|].
    split_and!; [done| |done..].
    rewrite Hk, Hgen, encode_pack
      by auto using handle_kind_range, handle_gen_range, handle_index_range.
    rewrite Htag. by apply pack_fields_eq.
  - intros (Hm & i & Hi & Hl & -> & Hr & ->). set (s := slot t pid i) in *.
    destruct (wf_at t pid i) as [Hg Hw _]; [done..|]. destruct (Hw Hl) as [Hg0 Hk].
    assert (0 <= i < 2 ^ 40) by (unfold SLOTS_PER_PROC in *; lia).
    rewrite encode_pack by done. pose proof (kind_tag_range (kind s)).
    assert (Ho : opens t pid (pack (kind_tag (kind s)) (kind s) (generation s) i)).
    { unfold opens. rewrite pack_index, pack_gen, pack_kind, pack_tag by done.
      split_and!; try done. lia. }
    rewrite decide_True by done. rewrite pack_index by done.
    unfold answer. fold s. by rewrite Hr, Z.eqb_refl.
Qed.

Lemma resolve_unforgeable_witness :
  let t := fst (grant TABLES_init 3 KIND_ARCHIVO RIGHT_READ 7) in
  resolve t 3 (encode KIND_ARCHIVO 1 0) RIGHT_READ = Ok (mkResolved KIND_ARCHIVO RIGHT_READ 7).
Proof.
  apply resolve_unforgeable.
  - apply grant_wf; [apply TABLES_init_wf|lia|unfold KIND_ARCHIVO; lia].
  - lia.
  - unfold is_u64. vm_compute. split; [discriminate|reflexivity].
  - split; [unfold MAX_PROCS; lia|]. exists 0. split; [unfold SLOTS_PER_PROC; lia|].
    vm_compute. repeat split; reflexivity.
Defined.

(** Reading back one handle through the encoding of another slot. *)
Lemma opens_encode t pid k g i :
  0 <= k < 2 ^ 7 -> is_u16 g -> 0 <= i < SLOTS_PER_PROC ->
  opens t pid (encode k g i) <->
  pid < MAX_PROCS /\ g <> 0 /\ live (slot t pid i) = true /\
  generation (slot t pid i) = g /\ kind (slot t pid i) = k.
Proof.
  unfold SLOTS_PER_PROC; intros. pose proof (kind_tag_range k).
  rewrite encode_pack by (done || lia). unfold opens, SLOTS_PER_PROC.
  rewrite pack_index, pack_gen, pack_kind, pack_tag by (done || lia). intuition lia.
Qed.

(** What [grant] answers is a [u64]. *)
Lemma grant_handle_u64 t pid k r o t' h :
  wf t -> 0 <= pid -> 0 <= k < 2 ^ 7 -> grant t pid k r o = (t', Some h) -> is_u64 h.
Proof.
  intros Ht Hp Hk E. apply grant_inv in E as (Hm & i & Hi & _ & _ & ->); [|done..].
  assert (Hg : is_u16 (next_generation (generation (slot t pid i)))).
  { apply next_generation_spec, wf_at; done || lia. }
  unfold SLOTS_PER_PROC in Hi. pose proof (kind_tag_range k).
  rewrite encode_pack by (done || lia). unfold pack, is_u64, is_u16 in *. lia.
Qed.

Lemma handle_index_encode k g i :
  0 <= k < 2 ^ 7 -> is_u16 g -> 0 <= i < SLOTS_PER_PROC -> handle_index (encode k g i) = i.
Proof.
  unfold SLOTS_PER_PROC; intros. pose proof (kind_tag_range k).
  rewrite encode_pack by (done || lia). by rewrite pack_index by (done || lia).
Qed.

Lemma grant_resolves t pid k r o t' h :
  wf t -> 0 <= pid -> 0 <= k < 2 ^ 7 -> grant t pid k r o = (t', Some h) ->
  (forall req, resolve t' pid h req = answer (mkSlot k true 0 r o) req) /\
  (forall req, resolve t pid h req = Err (ERROR_INVALID_HANDLE, 0)) /\
  (forall pid' h' req, 0 <= pid' -> is_u64 h' -> (pid', h') <> (pid, h) ->
     resolve t' pid' h' req = resolve t pid' h' req).
Proof.
  intros Ht Hp Hk E. apply grant_inv in E as (Hm & i & Hi & Hd & -> & ->); [|done..].
  destruct (wf_at t pid i Ht (conj Hp Hm) Hi) as [Hg _ _].
  apply next_generation_spec in Hg as [Hg Hg0]. set (g := next_generation _) in *.
  split_and!.
  - intros req. rewrite resolve_eq, handle_index_encode, slot_set_slot by (done || lia).
    rewrite (decide_True (P := pid = pid /\ i = i)) by done. rewrite decide_True; [done|].
    apply opens_encode; [done..|]. rewrite slot_set_slot by (done || lia).
    by rewrite decide_True.
  - intros req. rewrite resolve_eq, decide_False; [done|].
    rewrite opens_encode by done. intros (_ & _ & ? & _). congruence.
  - intros pid' h' req Hp' Hh' Hne. pose proof (handle_index_nonneg h').
    destruct (decide (pid = pid' /\ i = handle_index h')) as [[-> Hi']|Hn].
    + rewrite !resolve_eq. rewrite (decide_False (P := opens t pid' h')).
      2:{ intros (_ & _ & _ & ? & _). rewrite <- Hi' in *. congruence. }
      rewrite decide_False; [done|]. unfold opens.
      rewrite slot_set_slot by (done || lia). rewrite decide_True by done. simpl.
      intros (_ & _ & _ & _ & Hgen & Hkind & Htag). apply Hne. f_equal.
      rewrite encode_pack by (done || unfold SLOTS_PER_PROC in *; lia).
      rewrite (pack_fields_eq h') by done. congruence.
    + apply resolve_ext. rewrite slot_set_slot by (done || lia). by rewrite decide_False.
Qed.

(** A successful [grant] makes its handle resolve, with exactly the rights
    granted and to exactly the object granted, and changes the meaning of no
    other handle of any process. *)
Theorem grant_spec t pid k r o t' h :
  wf t -> 0 <= pid -> 0 <= k < 2 ^ 7 -> grant t pid k r o = (t', Some h) ->
  (forall req, resolve t' pid h req = answer (mkSlot k true 0 r o) req) /\
  (forall req, resolve t pid h req = Err (ERROR_INVALID_HANDLE, 0)) /\
  (forall pid' h' req, 0 <= pid' -> is_u64 h' -> (pid', h') <> (pid, h) ->
     resolve t' pid' h' req = resolve t pid' h' req).
Proof. apply grant_resolves. Qed.

Lemma grant_spec_witness :
  resolve (fst (grant TABLES_init 3 KIND_CHANNEL RIGHT_WAIT 9)) 3 (encode KIND_CHANNEL 1 0)
    RIGHT_READ = Err (ERROR_PERMISSION_DENIED, FLAG_NEEDS_CAP).
Proof.
  refine (proj1 (grant_spec TABLES_init 3 KIND_CHANNEL RIGHT_WAIT 9 _ _
    TABLES_init_wf _ _ eq_refl) RIGHT_READ); unfold KIND_CHANNEL; lia.
Defined.

Lemma revoke_kills t pid h :
  wf t -> 0 <= pid -> is_u64 h ->
  let '(t', ok) := revoke t pid h in
  (forall req, resolve t' pid h req = Err (ERROR_INVALID_HANDLE, 0)) /\
  (forall req r, resolve t pid h req = Ok r -> ok = true) /\
  (forall pid' h' req, 0 <= pid' -> (pid', handle_index h') <> (pid, handle_index h) ->
     resolve t' pid' h' req = resolve t pid' h' req).
Proof.
  intros Ht Hp Hh. rewrite revoke_eq. pose proof (handle_index_nonneg h).
  case_decide as H1; split_and!.
  - intros req. rewrite resolve_eq, decide_False; [done|].
    unfold opens. rewrite slot_set_slot by (done || lia). rewrite decide_True by done.
    simpl. intuition congruence.
  - done.
  - intros pid' h' req Hp' Hne. pose proof (handle_index_nonneg h'). apply resolve_ext.
    rewrite slot_set_slot by (done || lia). rewrite decide_False; [done|].
    intros [??]. apply Hne. congruence.
  - intros req. rewrite resolve_eq, decide_False; [done|]. unfold opens. tauto.
  - intros req r. rewrite resolve_eq, decide_False; [done|]. unfold opens. tauto.
  - done.
Qed.

(** [revoke] kills its handle (and the handles of the same slot and
    generation), answers [true] exactly when the slot was live under that
    generation, and changes no handle of another slot or process. *)
Theorem revoke_spec t pid h :
  wf t -> 0 <= pid -> is_u64 h ->
  let '(t', ok) := revoke t pid h in
  (forall req, resolve t' pid h req = Err (ERROR_INVALID_HANDLE, 0)) /\
  (forall req r, resolve t pid h req = Ok r -> ok = true) /\
  (forall pid' h' req, 0 <= pid' -> (pid', handle_index h') <> (pid, handle_index h) ->
     resolve t' pid' h' req = resolve t pid' h' req).
Proof. apply revoke_kills. Qed.

Lemma revoke_spec_witness :
  let t := fst (grant TABLES_init 3 KIND_ARCHIVO RIGHT_READ 7) in
  let h := encode KIND_ARCHIVO 1 0 in
  resolve t 3 h 0 = Ok (mkResolved KIND_ARCHIVO RIGHT_READ 7) /\
  resolve (fst (revoke t 3 h)) 3 h 0 = Err (ERROR_INVALID_HANDLE, 0).
Proof.
  split; [reflexivity|].
  refine (proj1 (revoke_spec (fst (grant TABLES_init 3 KIND_ARCHIVO RIGHT_READ 7)) 3
    (encode KIND_ARCHIVO 1 0) _ _ _) 0).
  - apply grant_wf; [apply TABLES_init_wf|lia|unfold KIND_ARCHIVO; lia].
  - lia.
  - unfold is_u64. vm_compute. split; [discriminate|reflexivity].
Defined.

(** When a process dies [revoke_all_slots] leaves it with no live
    capability, no handle resolves for it any more, and no other process
    notices. *)
Theorem revoke_all_slots_spec t pid :
  wf t -> 0 <= pid < MAX_PROCS ->
  let t' := revoke_all_slots t pid in
  live_count_of t' pid = 0 /\
  (forall h req, resolve t' pid h req = Err (ERROR_INVALID_HANDLE, 0)) /\
  (forall pid' h req, 0 <= pid' -> pid' <> pid -> resolve t' pid' h req = resolve t pid' h req) /\
  (forall i, 0 <= i < SLOTS_PER_PROC -> generation (slot t' pid i) = generation (slot t pid i)).
Proof.
  intros Ht [Hp Hm]. simpl.
  assert (Hrow : forall p, 0 <= p -> row (revoke_all_slots t pid) p
                 = if decide (pid = p) then cleared <$> row t pid else row t p).
  { intros p Hp'. unfold revoke_all_slots.
    rewrite (proj2 (Z.leb_gt _ _) Hm). by rewrite row_set_row. }
  assert (Hslot : forall i, 0 <= i < SLOTS_PER_PROC ->
            slot (revoke_all_slots t pid) pid i = cleared (slot t pid i)).
  { intros i Hi. unfold slot. rewrite Hrow, decide_True by done.
    unfold SLOTS_PER_PROC in Hi. destruct (wf_row t pid Ht (conj Hp Hm)) as [Hl _].
    apply list_lookup_total_correct. rewrite list_lookup_fmap.
    rewrite list_lookup_lookup_total_lt by lia. done. }
  split_and!.
  - unfold live_count_of. rewrite (proj2 (Z.leb_gt _ _) Hm), Hrow, decide_True by done.
    generalize (row t pid). intros r. induction r as [|s r IH]; [done|].
    simpl. by rewrite filter_cons_False.
  - intros h req. rewrite resolve_eq, decide_False; [done|]. unfold opens.
    intros (_ & Hi & _ & Hl & _). rewrite Hslot in Hl by auto with bmo. done.
  - intros p h req Hp' Hne. apply resolve_ext. unfold slot.
    by rewrite Hrow, decide_False by congruence.
  - intros i Hi. by rewrite Hslot.
Qed.

Lemma revoke_all_slots_spec_witness :
  let t := fst (grant TABLES_init 3 KIND_ARCHIVO RIGHT_READ 7) in
  live_count_of t 3 = 1 /\ live_count_of (revoke_all_slots t 3) 3 = 0.
Proof.
  split; [reflexivity|].
  refine (proj1 (revoke_all_slots_spec (fst (grant TABLES_init 3 KIND_ARCHIVO RIGHT_READ 7)) 3 _ _)).
  - apply grant_wf; [apply TABLES_init_wf|lia|unfold KIND_ARCHIVO; lia].
  - unfold MAX_PROCS. lia.
Defined.

(** ** Use after free *)

(** [k] reuses of a slot later. *)
Definition generation_after (k : nat) (g : Z) : Z := (g - 1 + Z.of_nat k) mod 65535 + 1.

Lemma next_generation_after k g :
  1 <= g <= 65535 -> next_generation (generation_after k g) = generation_after (S k) g.
Proof.
  unfold next_generation, generation_after, w16. intros Hg.
  rewrite Nat2Z.inj_succ. case_if; bdestr; lia.
Qed.

(** The generation comes back only after a whole turn of 65535 reuses. *)
Lemma generation_after_ne k g :
  1 <= g <= 65535 -> 0 < Z.of_nat k < 65535 -> generation_after k g <> g.
Proof. unfold generation_after. intros. lia. Qed.

(** The slot of a revoked handle, [k] grants into the execution. *)
Definition stale (t : cap_tables) (pid i g : Z) (k : nat) : Prop :=
  generation (slot t pid i) = generation_after k g /\
  (k = 0%nat -> live (slot t pid i) = false).

Lemma stale_step t pid i g k a :
  wf t -> op_ok a -> 0 <= pid < MAX_PROCS -> 0 <= i < SLOTS_PER_PROC -> 1 <= g <= 65535 ->
  stale t pid i g k ->
  stale (step t a) pid i g k \/
  (stale (step t a) pid i g (S k) /\ exists c r o, a = Grant pid c r o).
Proof.
  intros Ht Ho Hp Hi Hg [Hgen Hl]. destruct a as [p c r o|p h|p]; simpl in *.
  - destruct Ho as [Hp0 Hc]. destruct (grant t p c r o) as [t' [h|]] eqn:E; simpl.
    + apply grant_inv in E as (Hm & j & Hj & Hd & -> & _); [|done..].
      unfold stale. rewrite slot_set_slot by (done || lia).
      case_decide as Hc'; [|by left]. destruct Hc' as [-> ->]. right. simpl. split; [|eauto].
      rewrite Hgen, next_generation_after by done. done.
    + left. unfold grant in E. case_if_in E; [by injection E as <-|].
      by destruct (position _ _); [|injection E as <-].
  - left. rewrite revoke_eq. pose proof (handle_index_nonneg h).
    case_decide as Hd; [|done]. unfold stale. simpl.
    rewrite slot_set_slot by (done || lia). case_decide as Hc; [|done].
    destruct Hc as [-> ->]. simpl. done.
  - left. unfold revoke_all_slots. case_if; [done|]. bdestr. unfold stale, slot in *.
    rewrite row_set_row by (done || lia). case_decide as Hc; [|done]. subst p.
    destruct (wf_row t pid Ht Hp) as [Hlen _]. unfold SLOTS_PER_PROC in Hi.
    rewrite (list_lookup_total_correct _ _ (cleared (row t pid !!! Z.to_nat i))).
    { simpl. done. }
    rewrite list_lookup_fmap, list_lookup_lookup_total_lt by lia. done.
Qed.

Lemma stale_run ops t pid i g k :
  wf t -> Forall op_ok ops -> 0 <= pid < MAX_PROCS -> 0 <= i < SLOTS_PER_PROC ->
  1 <= g <= 65535 -> stale t pid i g k ->
  exists k', (k <= k' <= k + grants_to pid ops)%nat /\ stale (run ops t) pid i g k'.
Proof.
  revert t k. induction ops as [|a ops IH]; intros t k Ht Ho Hp Hi Hg Hs; simpl.
  - exists k. split; [lia|done].
  - apply Forall_cons in Ho as [Ha Ho]. pose proof (step_wf t a Ht Ha).
    destruct (stale_step t pid i g k a) as [Hs'|(Hs' & c & r & o & ->)]; try done.
    + destruct (IH (step t a) k) as (k' & Hk & Hs''); [done..|].
      exists k'. split; [|done]. destruct a; simpl in *; lia.
    + destruct (IH (step t (Grant pid c r o)) (S k)) as (k' & Hk & Hs''); [done..|].
      exists k'. split; [|done]. rewrite Z.eqb_refl. lia.
Qed.

(** C7: a handle that has been revoked does not resolve again in any execution
    that grants its process fewer than 65535 capabilities: no copy of it
    reaches whatever object now occupies the slot. *)
Theorem stale_handle_fails t pid h req r ops req' :
  wf t -> 0 <= pid -> is_u64 h -> resolve t pid h req = Ok r -> Forall op_ok ops ->
  Z.of_nat (grants_to pid ops) < 65535 ->
  resolve (run ops (fst (revoke t pid h))) pid h req' = Err (ERROR_INVALID_HANDLE, 0).
Proof.
  intros Ht Hp Hh Hr Ho Hn. rewrite resolve_eq in Hr. case_decide as H; [|done].
  destruct H as (Hm & Hi & Hg & Hl & Hgen & _). pose proof (handle_index_nonneg h).
  pose proof (handle_gen_range h) as Hg16. unfold is_u16 in Hg16.
  destruct (stale_run ops (fst (revoke t pid h)) pid (handle_index h) (handle_gen h) 0)
    as (k & Hk & Hs & Hd); [auto using revoke_wf|done|done|done|lia| |].
  { rewrite revoke_eq, decide_True by done. unfold stale. simpl.
    rewrite slot_set_slot, decide_True by (done || lia). simpl. split; [|done].
    unfold generation_after. rewrite Hgen. lia. }
  rewrite resolve_eq, decide_False; [done|]. intros (_ & _ & _ & Hl' & Hgen' & _).
  destruct (decide (k = 0%nat)) as [->|]; [rewrite Hd in Hl' by done; done|].
  rewrite Hs in Hgen'. apply (generation_after_ne k (handle_gen h)); lia || done.
Qed.

Lemma stale_handle_fails_witness :
  let h := encode KIND_ARCHIVO 1 0 in
  resolve (run [Grant 3 KIND_ARCHIVO RIGHT_READ 8]
             (fst (revoke (fst (grant TABLES_init 3 KIND_ARCHIVO RIGHT_READ 7)) 3 h)))
    3 h RIGHT_READ = Err (ERROR_INVALID_HANDLE, 0).
Proof.
  apply (stale_handle_fails _ 3 (encode KIND_ARCHIVO 1 0) RIGHT_READ
           (mkResolved KIND_ARCHIVO RIGHT_READ 7)).
  - apply grant_wf; [apply TABLES_init_wf|lia|unfold KIND_ARCHIVO; lia].
  - lia.
  - unfold is_u64. vm_compute. split; [discriminate|reflexivity].
  - reflexivity.
  - repeat constructor; simpl; unfold KIND_ARCHIVO; lia.
  - simpl. lia.
Defined.

(** The tables in which slot 0 of process 3 has been used up to generation [g]. *)
Definition spent (g : Z) : cap_tables := set_slot TABLES_init 3 0 (mkSlot 0 false g 0 0).

(** One reuse of that slot: a grant and the revocation of its handle. *)
Definition reuse (g : Z) : list op :=
  [Grant 3 KIND_ARCHIVO RIGHT_READ 8; Revoke 3 (encode KIND_ARCHIVO (next_generation g) 0)].

Fixpoint reuses (n : nat) (g : Z) : list op :=
  match n with O => [] | S n => reuse g ++ reuses n (next_generation g) end.

Lemma grant_spent g k r o :
  grant (spent g) 3 k r o =
    (set_slot (spent g) 3 0 (mkSlot k true (next_generation g) r o),
     Some (encode k (next_generation g) 0)).
Proof. reflexivity. Qed.

Lemma run_reuse g : 1 <= g <= 65535 -> run (reuse g) (spent g) = spent (next_generation g).
Proof.
  intros Hg. destruct (next_generation_spec g) as [Hn Hn0]; [unfold is_u16; lia|].
  unfold run, reuse. cbn [foldl step]. rewrite grant_spent. cbn [fst].
  assert (Hi : handle_index (encode KIND_ARCHIVO (next_generation g) 0) = 0)
    by (apply handle_index_encode; [unfold KIND_ARCHIVO; lia|done|unfold SLOTS_PER_PROC; lia]).
  assert (Hh : handle_gen (encode KIND_ARCHIVO (next_generation g) 0) = next_generation g).
  { rewrite encode_pack by (done || unfold KIND_ARCHIVO; lia).
    pose proof (kind_tag_range KIND_ARCHIVO).
    by rewrite pack_gen by (done || unfold KIND_ARCHIVO; lia). }
  rewrite revoke_eq, decide_True; [rewrite Hi; reflexivity|].
  rewrite Hi, Hh. split_and!; [reflexivity..|done|reflexivity|reflexivity].
Qed.

Lemma run_reuses n g : 1 <= g <= 65535 -> run (reuses n g) (spent g) = spent (generation_after n g).
Proof.
  revert g. induction n as [|n IH]; intros g Hg; cbn [reuses].
  - unfold run, generation_after. simpl. f_equal. lia.
  - pose proof (next_generation_after 0 g Hg) as Hn.
    replace (generation_after 0 g) with g in Hn by (unfold generation_after; lia).
    unfold run. rewrite foldl_app. fold (run (reuse g) (spent g)). rewrite run_reuse by done.
    fold (run (reuses n (next_generation g)) (spent (next_generation g))).
    rewrite IH by (rewrite Hn; unfold generation_after; lia).
    f_equal. rewrite Hn. unfold generation_after. lia.
Qed.

Lemma reuses_ok n g : Forall op_ok (reuses n g) /\ grants_to 3 (reuses n g) = n.
Proof.
  revert g; induction n as [|n IH]; intros g; [done|].
  destruct (IH (next_generation g)) as [IH1 IH2]. split.
  - cbn [reuses reuse app]. repeat (constructor; [simpl; unfold KIND_ARCHIVO; lia|]). done.
  - cbn [reuses reuse app grants_to]. rewrite IH2. done.
Qed.

(** The bound of [stale_handle_fails] is sharp.  The 16-bit generation
    comes round after 65535 grants, and a handle revoked long ago then
    resolves again, to the object of another capability. *)
Theorem stale_handle_revives :
  exists ops, Forall op_ok ops /\ Z.of_nat (grants_to 3 ops) = 65535 /\
    let h := encode KIND_ARCHIVO 1 0 in
    let t := fst (grant TABLES_init 3 KIND_ARCHIVO RIGHT_READ 7) in
    resolve t 3 h RIGHT_READ = Ok (mkResolved KIND_ARCHIVO RIGHT_READ 7) /\
    resolve (run ops (fst (revoke t 3 h))) 3 h RIGHT_READ
      = Ok (mkResolved KIND_ARCHIVO RIGHT_READ 9).
Proof.
  assert (exists n, Z.of_nat n = 65534) as [n Hn] by (exists (Z.to_nat 65534); lia).
  exists (reuses n 1 ++ [Grant 3 KIND_ARCHIVO RIGHT_READ 9]).
  destruct (reuses_ok n 1) as [Ho Hg]. split_and!.
  - apply Forall_app. split; [done|]. repeat constructor; unfold KIND_ARCHIVO; lia.
  - assert (Happ : forall l, grants_to 3 (l ++ [Grant 3 KIND_ARCHIVO RIGHT_READ 9])
                             = S (grants_to 3 l)).
    { induction l as [|[p c r o|p h|p] l IH]; simpl in *; [done|..]; rewrite IH; lia. }
    rewrite Happ, Hg. lia.
  - intros h t. split; [reflexivity|].
    change (fst (revoke t 3 h)) with (spent 1).
    unfold run. rewrite foldl_app. fold (run (reuses n 1) (spent 1)).
    rewrite run_reuses by lia.
    replace (generation_after n 1) with 65535 by (unfold generation_after; lia).
    cbn [foldl step]. rewrite grant_spent. reflexivity.
Qed.

(** ** The two sides of the handle *)

Lemma tag_range k : 0 <= tag k <= 1.
Proof. destruct k; simpl; lia. Qed.
Lemma code_range k : 0 <= code k < 2 ^ 7.
Proof. destruct k; simpl; lia. Qed.

Lemma from_code_code k : from_code (code k) = Some k.
Proof. by destruct k. Qed.

Lemma BmoHandle_new_pack k g i :
  is_u16 g -> 0 <= i < 2 ^ 40 -> BmoHandle_new k g i = pack (tag k) (code k) g i.
Proof. intros. apply pack_eq; auto using tag_range, code_range. Qed.

(** [BmoHandle::new] loses nothing: kind, generation, index and the
    active tag are all read back from the 64-bit value. *)
Theorem BmoHandle_roundtrip k g i :
  is_u16 g -> 0 <= i < 2 ^ 40 ->
  let h := BmoHandle_new k g i in
  BmoHandle_kind h = Some k /\ BmoHandle_generation h = g /\ BmoHandle_index h = i /\
  BmoHandle_is_active h = (tag k =? 1).
Proof.
  intros Hg Hi. simpl. rewrite BmoHandle_new_pack by done.
  pose proof (tag_range k) as Ht. pose proof (code_range k) as Hk.
  unfold BmoHandle_kind, BmoHandle_kind_code, BmoHandle_generation, BmoHandle_index,
    BmoHandle_is_active.
  fold (handle_kind (pack (tag k) (code k) g i)) (handle_gen (pack (tag k) (code k) g i))
       (handle_index (pack (tag k) (code k) g i)).
  rewrite pack_kind, pack_gen, pack_index, pack_tag by done.
  unfold w8. rewrite Z.mod_small, from_code_code, w16_small by (done || lia). done.
Qed.

Lemma BmoHandle_roundtrip_witness : BmoHandle_kind (BmoHandle_new Thread 5 3) = Some Thread.
Proof. refine (proj1 (BmoHandle_roundtrip Thread 5 3 _ _)); unfold is_u16; lia. Defined.

(** The kernel encodes a handle as the ABI crate does exactly for the
    kinds whose tag the two agree on; the eight active kinds other than
    [Channel] are encoded with the tag of a passive resource. *)
Theorem kernel_abi_agree k g i :
  is_u16 g -> 0 <= i < 2 ^ 40 ->
  (encode (code k) g i = BmoHandle_new k g i <->
   ~ k ∈ [Queue; CmdList; AudioVoice; AudioStream; NetSocket; NetQuicConn; Thread; StorageOp]).
Proof.
  intros Hg Hi. rewrite encode_pack, BmoHandle_new_pack by auto using code_range.
  assert (pack (kind_tag (code k)) (code k) g i = pack (tag k) (code k) g i
          <-> kind_tag (code k) = tag k) as -> by (unfold pack; lia).
  destruct (decide (k ∈ [Queue; CmdList; AudioVoice; AudioStream; NetSocket; NetQuicConn;
    Thread; StorageOp])) as [H|H]; split; try done.
  - intros Heq. exfalso. repeat (apply elem_of_cons in H as [->|H]; [done|]). by inversion H.
  - intros _. destruct k; try done; exfalso; apply H; by repeat constructor.
Qed.

Lemma kernel_abi_agree_witness :
  encode KIND_FRAMEBUFFER 1 0 = BmoHandle_new Framebuffer 1 0 /\
  encode KIND_CONSOLE 1 0 <> BmoHandle_new NetSocket 1 0.
Proof.
  split.
  - apply (kernel_abi_agree Framebuffer 1 0); unfold is_u16; [lia|lia|].
    intros H. repeat (apply elem_of_cons in H as [H|H]; [done|]). by inversion H.
  - intros H. apply (kernel_abi_agree NetSocket 1 0) in H; unfold is_u16; [|lia|lia].
    apply H. by repeat constructor.
Defined.
