(* ===== verification/Titular.v ===== *)
(** The owner table of physical frames: one byte per frame, whose low nibble
    says who the frame was handed to and whose high nibble says which device
    has a DMA in flight towards it; flights, loans and the silence watchdog.
    Source: src/Ultra_kernel_x86-64/kernel/src/ring0/mm/titular/
    (mod.rs: data; amarilla.rs: marking and the judge of a free; roja.rs:
    flights and loans; verde.rs: readers), with the constants of mm/mod.rs.

    [TABLA] is an all-zero array of [MARCOS] bytes in .bss: a finite map whose
    missing entries are 0.  Every other [static mut] is a field of
    [titular_st]. *)

From stdpp Require Import gmap.
From S2P Require Import Prelude.

Definition PHYSMAP_SIZE : Z := 0x400000000.
Definition PAGE : Z := 4096.
Definition MARCOS : Z := PHYSMAP_SIZE / PAGE.

Inductive Titular :=
| Nadie | Anonimo | Tabla | Hoja | Pila | Bloque | Bufer | Kernel | Neutro.

#[export] Instance Titular_eq_dec : EqDecision Titular.
Proof. solve_decision. Defined.

(** [q as u8]. *)
Definition byte_of (q : Titular) : Z :=
  match q with
  | Nadie => 0 | Anonimo => 1 | Tabla => 2 | Hoja => 3 | Pila => 4
  | Bloque => 5 | Bufer => 6 | Kernel => 7 | Neutro => 8
  end.

Definition de_byte (b : Z) : Titular :=
  match Z.land b 0x0F with
  | 2 => Tabla | 3 => Hoja | 4 => Pila | 5 => Bloque | 6 => Bufer
  | 7 => Kernel | 8 => Neutro | 1 => Anonimo | _ => Nadie
  end.

Record titular_st := mkTitular {
  tabla : gmap Z Z;
  neutros_vivos : Z; neutros_soltados : Z;
  en_vuelo_vivos : Z; en_vuelo_pisados : Z; en_vuelo_choques : Z;
  vuelos_de : list Z; ultima_noticia : list Z; peor_silencio_de : list Z;
  n_caducados : Z;
  prestamos : list (Z * Z * Z)
}.

Definition titular_init : titular_st :=
  mkTitular ∅ 0 0 0 0 0 (replicate 16 0) (replicate 16 0) (replicate 16 0) 0
    (replicate 4 (0, 0, 0)).

(** One-field updates of the statics. *)
Definition set_tabla (s : titular_st) (m : gmap Z Z) :=
  mkTitular m (neutros_vivos s) (neutros_soltados s) (en_vuelo_vivos s) (en_vuelo_pisados s)
    (en_vuelo_choques s) (vuelos_de s) (ultima_noticia s) (peor_silencio_de s)
    (n_caducados s) (prestamos s).
Definition set_neutros (s : titular_st) (v x : Z) :=
  mkTitular (tabla s) v x (en_vuelo_vivos s) (en_vuelo_pisados s)
    (en_vuelo_choques s) (vuelos_de s) (ultima_noticia s) (peor_silencio_de s)
    (n_caducados s) (prestamos s).
Definition set_vivos (s : titular_st) (v : Z) :=
  mkTitular (tabla s) (neutros_vivos s) (neutros_soltados s) v (en_vuelo_pisados s)
    (en_vuelo_choques s) (vuelos_de s) (ultima_noticia s) (peor_silencio_de s)
    (n_caducados s) (prestamos s).
Definition set_pisados (s : titular_st) (v : Z) :=
  mkTitular (tabla s) (neutros_vivos s) (neutros_soltados s) (en_vuelo_vivos s) v
    (en_vuelo_choques s) (vuelos_de s) (ultima_noticia s) (peor_silencio_de s)
    (n_caducados s) (prestamos s).
Definition choque (s : titular_st) :=
  mkTitular (tabla s) (neutros_vivos s) (neutros_soltados s) (en_vuelo_vivos s)
    (en_vuelo_pisados s) (w64 (en_vuelo_choques s + 1)) (vuelos_de s) (ultima_noticia s)
    (peor_silencio_de s) (n_caducados s) (prestamos s).
Definition set_vuelos_de (s : titular_st) (l : list Z) :=
  mkTitular (tabla s) (neutros_vivos s) (neutros_soltados s) (en_vuelo_vivos s)
    (en_vuelo_pisados s) (en_vuelo_choques s) l (ultima_noticia s) (peor_silencio_de s)
    (n_caducados s) (prestamos s).
Definition set_noticias (s : titular_st) (u p : list Z) :=
  mkTitular (tabla s) (neutros_vivos s) (neutros_soltados s) (en_vuelo_vivos s)
    (en_vuelo_pisados s) (en_vuelo_choques s) (vuelos_de s) u p (n_caducados s) (prestamos s).
Definition set_caducados (s : titular_st) (v : Z) :=
  mkTitular (tabla s) (neutros_vivos s) (neutros_soltados s) (en_vuelo_vivos s)
    (en_vuelo_pisados s) (en_vuelo_choques s) (vuelos_de s) (ultima_noticia s)
    (peor_silencio_de s) v (prestamos s).
Definition set_prestamos (s : titular_st) (l : list (Z * Z * Z)) :=
  mkTitular (tabla s) (neutros_vivos s) (neutros_soltados s) (en_vuelo_vivos s)
    (en_vuelo_pisados s) (en_vuelo_choques s) (vuelos_de s) (ultima_noticia s)
    (peor_silencio_de s) (n_caducados s) l.

Definition byte_at (m : gmap Z Z) (i : Z) : Z := default 0 (m !! i).
Definition at_ (l : list Z) (a : Z) : Z := default 0 (l !! Z.to_nat a).

Definition indice (phys : Z) : option Z :=
  if negb (phys mod PAGE =? 0) || (PHYSMAP_SIZE <=? phys) then None
  else Some (phys / PAGE).

(** [(b & 0xF0) >> 4] and [b & 0x0F]. *)
Definition alto (b : Z) : Z := Z.shiftr (Z.land b 0xF0) 4.
Definition bajo (b : Z) : Z := Z.land b 0x0F.

(** ** amarilla.rs *)

Definition marcar (s : titular_st) (phys : Z) (q : Titular) : titular_st :=
  match indice phys with
  | None => s
  | Some i =>
      let antes := byte_at (tabla s) i in
      let s := set_tabla s (<[i := Z.lor (Z.land antes 0xF0) (byte_of q)]> (tabla s)) in
      let era := bajo antes =? byte_of Neutro in
      let es := bool_decide (q = Neutro) in
      let s := if es && negb era
               then set_neutros s (w64 (neutros_vivos s + 1)) (neutros_soltados s)
               else if era && negb es
               then set_neutros s (saturating_sub (neutros_vivos s) 1)
                      (w64 (neutros_soltados s + 1))
               else s in
      if negb (Z.land antes 0xF0 =? 0) && negb (bajo antes =? byte_of q)
      then set_pisados s (w64 (en_vuelo_pisados s + 1)) else s
  end.

Definition titular_de (s : titular_st) (phys : Z) : Titular :=
  match indice phys with
  | Some i => de_byte (byte_at (tabla s) i)
  | None => Nadie
  end.

Inductive Veredicto :=
| Adelante
| SinOpinion
| NoEsTuyo (tiene suelta : Titular).

Definition puede_soltar (s : titular_st) (phys : Z) (quien : Titular) : Veredicto :=
  let tiene := titular_de s phys in
  if bool_decide (tiene = Anonimo) || bool_decide (tiene = Nadie)
     || bool_decide (quien = Anonimo) then SinOpinion
  else if bool_decide (tiene = quien) then Adelante
  else NoEsTuyo tiene quien.

(** ** roja.rs: flights *)

Definition APARATO_AHCI : Z := 1.
Definition APARATO_NIC : Z := 2.
Definition APARATO_XHCI : Z := 3.
Definition APARATO_GPU : Z := 4.

Definition anoto (s : titular_st) (aparato cuando : Z) (habia_trabajo : bool) : titular_st :=
  let a := Z.to_nat aparato in
  let antes := at_ (ultima_noticia s) aparato in
  let peor :=
    if negb (antes =? 0) && habia_trabajo then
      let callado := w64 (cuando - antes) in
      if at_ (peor_silencio_de s) aparato <? callado
      then <[a := callado]> (peor_silencio_de s) else peor_silencio_de s
    else peor_silencio_de s in
  set_noticias s (<[a := cuando]> (ultima_noticia s)) peor.

Definition en_vuelo (s : titular_st) (phys aparato cuando : Z) : titular_st * bool :=
  if (aparato =? 0) || (15 <? aparato) then (s, false) else
  match indice phys with
  | None => (s, false)
  | Some i =>
      let antes := byte_at (tabla s) i in
      let quien := alto antes in
      if negb (quien =? 0) && negb (quien =? aparato) then (choque s, false) else
      let s := set_tabla s (<[i := Z.lor (Z.land antes 0x0F) (Z.shiftl aparato 4)]> (tabla s)) in
      if quien =? 0 then
        let habia := negb (at_ (vuelos_de s) aparato =? 0) in
        let s := set_vivos s (w64 (en_vuelo_vivos s + 1)) in
        let s := set_vuelos_de s
                   (<[Z.to_nat aparato := w32 (at_ (vuelos_de s) aparato + 1)]> (vuelos_de s)) in
        (anoto s aparato cuando habia, true)
      else (s, true)
  end.

Definition prestado (s : titular_st) (phys : Z) : bool :=
  existsb (fun '(base, paginas, _) =>
    negb (paginas =? 0) && (base <=? phys) && (phys <? w64 (base + w64 (paginas * PAGE))))
    (prestamos s).

Definition aterrizo (s : titular_st) (phys aparato cuando : Z) : titular_st * bool :=
  match indice phys with
  | None => (s, false)
  | Some i =>
      let antes := byte_at (tabla s) i in
      let quien := alto antes in
      if quien =? 0 then (s, false)
      else if negb (quien =? aparato) then (choque s, false)
      else if prestado s phys then (choque s, false)
      else
        let s := set_tabla s (<[i := Z.land antes 0x0F]> (tabla s)) in
        let s := set_vivos s (saturating_sub (en_vuelo_vivos s) 1) in
        let s := set_vuelos_de s (<[Z.to_nat aparato :=
                   saturating_sub (at_ (vuelos_de s) aparato) 1]> (vuelos_de s)) in
        (anoto s aparato cuando true, true)
  end.

Definition PLAZO_SIN_MEDIR : Z := 0.

(** [for a in 1..16] of [caducados]: the map of overdue devices. *)
Fixpoint caducados_loop (s : titular_st) (ahora plazo : Z) (a : Z) (n : nat) (mapa : Z)
  : titular_st * Z :=
  match n with
  | O => (s, mapa)
  | S n =>
      let abiertos := at_ (vuelos_de s) a in
      let ultima := at_ (ultima_noticia s) a in
      if (abiertos =? 0) || (ultima =? 0) then caducados_loop s ahora plazo (a + 1) n mapa
      else if plazo <? w64 (ahora - ultima)
      then caducados_loop (set_caducados s (w64 (n_caducados s + 1))) ahora plazo (a + 1) n
             (Z.lor mapa (w16 (Z.shiftl 1 a)))
      else caducados_loop s ahora plazo (a + 1) n mapa
  end.

Definition caducados (s : titular_st) (ahora plazo : Z) : titular_st * Z :=
  if plazo =? 0 then (s, 0) else caducados_loop s ahora plazo 1 15 0.

Definition en_vuelo_de (s : titular_st) (phys : Z) : option Z :=
  match indice phys with
  | None => None
  | Some i => match alto (byte_at (tabla s) i) with 0 => None | a => Some a end
  end.

(** ** roja.rs: loans *)

Inductive NoPresta := Malo | FueraDelEspejo | Choque | SinHueco.

(** First pass of [prestar_tramo]: [None] when every page may be lent. *)
Fixpoint prestar_revisa (s : titular_st) (base k : Z) (n : nat) (aparato : Z) : option NoPresta :=
  match n with
  | O => None
  | S n =>
      match indice (w64 (base + w64 (k * PAGE))) with
      | None => Some FueraDelEspejo
      | Some i =>
          let quien := alto (byte_at (tabla s) i) in
          if negb (quien =? 0) && negb (quien =? aparato) then Some Choque
          else prestar_revisa s base (k + 1) n aparato
      end
  end.

(** Second pass: mark, counting the pages that were not in flight. *)
Fixpoint prestar_marca (s : titular_st) (base k : Z) (n : nat) (aparato nuevas : Z)
  : titular_st * Z :=
  match n with
  | O => (s, nuevas)
  | S n =>
      match indice (w64 (base + w64 (k * PAGE))) with
      | None => prestar_marca s base (k + 1) n aparato nuevas
      | Some i =>
          let antes := byte_at (tabla s) i in
          let nuevas := if Z.land antes 0xF0 =? 0 then w64 (nuevas + 1) else nuevas in
          prestar_marca
            (set_tabla s (<[i := Z.lor (Z.land antes 0x0F) (Z.shiftl aparato 4)]> (tabla s)))
            base (k + 1) n aparato nuevas
      end
  end.

Definition prestar_tramo (s : titular_st) (base paginas aparato : Z)
  : titular_st * result unit NoPresta :=
  if (aparato =? 0) || (15 <? aparato) || (paginas =? 0) then (s, Err Malo) else
  match position (fun '(_, p, _) => p =? 0) (prestamos s) with
  | None => (s, Err SinHueco)
  | Some hueco =>
      match prestar_revisa s base 0 (Z.to_nat paginas) aparato with
      | Some Choque => (choque s, Err Choque)
      | Some e => (s, Err e)
      | None =>
          let '(s, nuevas) := prestar_marca s base 0 (Z.to_nat paginas) aparato 0 in
          let s := set_vivos s (w64 (en_vuelo_vivos s + nuevas)) in
          (set_prestamos s (<[hueco := (base, paginas, aparato)]> (prestamos s)), Ok tt)
      end
  end.

Fixpoint devolver_loop (s : titular_st) (base k : Z) (n : nat) (aparato vueltas : Z)
  : titular_st * Z :=
  match n with
  | O => (s, vueltas)
  | S n =>
      match indice (w64 (base + w64 (k * PAGE))) with
      | None => devolver_loop s base (k + 1) n aparato vueltas
      | Some i =>
          let antes := byte_at (tabla s) i in
          if alto antes =? aparato
          then devolver_loop (set_tabla s (<[i := Z.land antes 0x0F]> (tabla s)))
                 base (k + 1) n aparato (w64 (vueltas + 1))
          else devolver_loop s base (k + 1) n aparato vueltas
      end
  end.

Definition devolver_tramo (s : titular_st) (base aparato : Z) : titular_st * bool :=
  match position (fun '(b, p, a) => negb (p =? 0) && (b =? base) && (a =? aparato))
          (prestamos s) with
  | None => (s, false)
  | Some h =>
      let paginas := match prestamos s !! h with Some (_, p, _) => p | None => 0 end in
      let '(s, vueltas) := devolver_loop s base 0 (Z.to_nat paginas) aparato 0 in
      let s := set_vivos s (saturating_sub (en_vuelo_vivos s) vueltas) in
      (set_prestamos s (<[h := (0, 0, 0)]> (prestamos s)), true)
  end.

(** ** verde.rs *)

(** How many entries satisfy [p]; entries that are 0 never do for the [p]
    used here, so the loop over the whole array is a count over the map. *)
Definition cuenta (p : Z -> bool) (m : gmap Z Z) : Z :=
  Z.of_nat (size (filter (fun kv => p kv.2 = true) m)).

Definition cubiertos (s : titular_st) : Z := cuenta (fun b => 2 <=? b) (tabla s).
Definition vuelos (s : titular_st) : Z * Z * Z :=
  (en_vuelo_vivos s, en_vuelo_pisados s, en_vuelo_choques s).

Fixpoint peor_silencio_loop (s : titular_st) (a : Z) (n : nat) (quien peor : Z) : Z * Z :=
  match n with
  | O => (quien, peor)
  | S n => let v := at_ (peor_silencio_de s) a in
           if peor <? v then peor_silencio_loop s (a + 1) n a v
           else peor_silencio_loop s (a + 1) n quien peor
  end.
Definition peor_silencio (s : titular_st) : Z * Z * Z :=
  let '(quien, peor) := peor_silencio_loop s 1 15 0 0 in (quien, peor, n_caducados s).
Definition neutros (s : titular_st) : Z * Z := (neutros_vivos s, neutros_soltados s).

(** * Nibbles *)

Definition is_byte (b : Z) : Prop := 0 <= b < 256.
Definition is_nib (q : Z) : Prop := 0 <= q < 16.

(** A statement about all bytes and nibbles is checked by enumeration. *)
Lemma byte_nib_all (P : Z -> Z -> bool) :
  forallb (fun b => forallb (P b) (seqZ 0 16)) (seqZ 0 256) = true ->
  forall b q, is_byte b -> is_nib q -> P b q = true.
Proof.
  intros H b q Hb Hq. rewrite forallb_forall in H.
  specialize (H b). rewrite <- list_elem_of_In, elem_of_seqZ in H.
  specialize (H ltac:(unfold is_byte in *; lia)). rewrite forallb_forall in H.
  apply H. rewrite <- list_elem_of_In, elem_of_seqZ. unfold is_nib in *; lia.
Qed.

Definition nibs_ok (b q : Z) : bool :=
  let m := Z.lor (Z.land b 0xF0) q in
  let v := Z.lor (Z.land b 0x0F) (Z.shiftl q 4) in
  let l := Z.land b 0x0F in
  (0 <=? m) && (m <? 256) && (alto m =? alto b) && (bajo m =? q) &&
  (0 <=? v) && (v <? 256) && (alto v =? q) && (bajo v =? bajo b) &&
  (0 <=? l) && (l <? 256) && (alto l =? 0) && (bajo l =? bajo b) &&
  eqb (Z.land b 0xF0 =? 0) (alto b =? 0) && (0 <=? alto b) && (alto b <? 16) &&
  (0 <=? bajo b) && (bajo b <? 16) && (alto b * 16 + bajo b =? b).

Lemma nibs b q : is_byte b -> is_nib q -> nibs_ok b q = true.
Proof. apply byte_nib_all. vm_compute. reflexivity. Qed.

(** The three ways a byte of the table is rewritten. *)
Ltac nib b q :=
  let H := fresh "N" in
  assert (H := nibs b q); unfold nibs_ok in H;
  specialize (H ltac:(done) ltac:(done)); bdestr.

Lemma nib_mark b q : is_byte b -> is_nib q ->
  is_byte (Z.lor (Z.land b 0xF0) q) /\ alto (Z.lor (Z.land b 0xF0) q) = alto b /\
  bajo (Z.lor (Z.land b 0xF0) q) = q.
Proof. intros. nib b q. unfold is_byte. lia. Qed.

Lemma nib_fly b a : is_byte b -> is_nib a ->
  is_byte (Z.lor (Z.land b 0x0F) (Z.shiftl a 4)) /\
  alto (Z.lor (Z.land b 0x0F) (Z.shiftl a 4)) = a /\
  bajo (Z.lor (Z.land b 0x0F) (Z.shiftl a 4)) = bajo b.
Proof. intros. nib b a. unfold is_byte. lia. Qed.

Lemma nib_land b : is_byte b ->
  is_byte (Z.land b 0x0F) /\ alto (Z.land b 0x0F) = 0 /\ bajo (Z.land b 0x0F) = bajo b.
Proof. intros. assert (is_nib 0) by done. nib b 0. unfold is_byte. lia. Qed.

Lemma nib_range b : is_byte b ->
  is_nib (alto b) /\ is_nib (bajo b) /\ (Z.land b 0xF0 =? 0) = (alto b =? 0) /\
  b = alto b * 16 + bajo b.
Proof.
  intros. assert (is_nib 0) by done. nib b 0.
  match goal with H : eqb _ _ = true |- _ => apply eqb_prop in H end. unfold is_nib. lia.
Qed.

Lemma byte_of_nib q : is_nib (byte_of q).
Proof. destruct q; done. Qed.

Lemma byte_of_inj q q' : byte_of q = byte_of q' -> q = q'.
Proof. by destruct q, q'. Qed.

Lemma de_byte_bajo b q : bajo b = byte_of q -> de_byte b = q.
Proof. unfold de_byte, bajo. intros ->. by destruct q. Qed.

Lemma de_byte_ext b b' : bajo b = bajo b' -> de_byte b = de_byte b'.
Proof. unfold de_byte, bajo. by intros ->. Qed.

#[export] Hint Resolve byte_of_nib : bmo.

(** * The table and its counts *)

Record tabla_ok (m : gmap Z Z) : Prop := {
  ok_keys : forall i b, m !! i = Some b -> 0 <= i < MARCOS;
  ok_bytes : forall i b, m !! i = Some b -> is_byte b
}.

Lemma byte_at_byte m i : tabla_ok m -> is_byte (byte_at m i).
Proof.
  intros [_ Hb]. unfold byte_at. destruct (m !! i) eqn:E; simpl; [eauto|by unfold is_byte].
Qed.
#[export] Hint Resolve byte_at_byte : bmo.

Lemma byte_at_insert m i b j :
  byte_at (<[i := b]> m) j = if decide (i = j) then b else byte_at m j.
Proof. unfold byte_at. rewrite lookup_insert. by case_decide. Qed.

Lemma tabla_ok_insert m i b :
  tabla_ok m -> 0 <= i < MARCOS -> is_byte b -> tabla_ok (<[i := b]> m).
Proof.
  intros [Hk Hb] Hi Hbyte.
  split; intros j x; rewrite lookup_insert; case_decide; intros; simplify_eq; eauto.
Qed.

Lemma indice_Some phys i :
  indice phys = Some i -> 0 <= phys -> phys = i * PAGE /\ 0 <= i < MARCOS.
Proof.
  unfold indice, MARCOS, PHYSMAP_SIZE, PAGE. intros H Hp. case_if_in H; [done|].
  injection H as <-. bdestr. lia.
Qed.

Section counts.
Context (p : Z -> bool) (Hp0 : p 0 = false).

Lemma cuenta_delete m i : cuenta p m = cuenta p (delete i m) + Z.b2z (p (byte_at m i)).
Proof.
  unfold cuenta, byte_at. destruct (m !! i) as [x|] eqn:E; simpl.
  - rewrite <- (insert_delete_id m i x) at 1 by done. destruct (p x) eqn:Ex; simpl.
    + rewrite map_filter_insert_True by done.
      rewrite map_size_insert_None; [lia|].
      rewrite map_lookup_filter_None. left. apply lookup_delete_eq.
    + rewrite map_filter_insert_False by (simpl; congruence). rewrite (delete_id (delete i m)) by apply lookup_delete_eq. lia.
  - rewrite delete_id by done. rewrite Hp0. simpl. lia.
Qed.

Lemma cuenta_insert m i b :
  cuenta p (<[i := b]> m) = cuenta p m - Z.b2z (p (byte_at m i)) + Z.b2z (p b).
Proof.
  rewrite (cuenta_delete (<[i := b]> m) i), delete_insert_eq, (cuenta_delete m i).
  rewrite byte_at_insert, decide_True by done. lia.
Qed.
End counts.

Lemma cuenta_bound p m : tabla_ok m -> 0 <= cuenta p m <= MARCOS.
Proof.
  intros [Hk _]. unfold cuenta. split; [lia|].
  assert (Hs : (size (filter (fun kv : Z * Z => p kv.2 = true) m) <= size m)%nat).
  { rewrite <- !size_dom. apply subseteq_size, dom_filter_subseteq. }
  assert (Hd : (size m <= length (seqZ 0 MARCOS))%nat).
  { rewrite <- size_dom.
    rewrite <- (size_list_to_set (C := gset Z)) by apply NoDup_seqZ.
    apply subseteq_size. intros i [b Hb]%elem_of_dom. apply Hk in Hb.
    rewrite elem_of_list_to_set, elem_of_seqZ. lia. }
  rewrite length_seqZ in Hd. unfold MARCOS, PHYSMAP_SIZE, PAGE in *. lia.
Qed.

Definition vuela (b : Z) : bool := negb (alto b =? 0).
Definition es_neutro (b : Z) : bool := bajo b =? byte_of Neutro.

(** The running counters say what a walk of the whole table would count. *)
Record titular_ok (s : titular_st) : Prop := {
  ok_tabla : tabla_ok (tabla s);
  ok_vivos : en_vuelo_vivos s = cuenta vuela (tabla s);
  ok_neutros : neutros_vivos s = cuenta es_neutro (tabla s)
}.

(** A rewrite of one byte moves each counter by what that byte changes. *)
Lemma ok_update s i b v n x :
  titular_ok s -> 0 <= i < MARCOS -> is_byte b ->
  v = en_vuelo_vivos s - Z.b2z (vuela (byte_at (tabla s) i)) + Z.b2z (vuela b) ->
  n = neutros_vivos s - Z.b2z (es_neutro (byte_at (tabla s) i)) + Z.b2z (es_neutro b) ->
  titular_ok (set_neutros (set_vivos (set_tabla s (<[i := b]> (tabla s))) v) n x).
Proof.
  intros [Ht Hv Hn] Hi Hb -> ->. split; simpl.
  - by apply tabla_ok_insert.
  - rewrite cuenta_insert by done. lia.
  - rewrite cuenta_insert by done. lia.
Qed.

(** The invariant reads only the table and the two counters. *)
Lemma ok_ext s s' :
  titular_ok s -> tabla s' = tabla s -> en_vuelo_vivos s' = en_vuelo_vivos s ->
  neutros_vivos s' = neutros_vivos s -> titular_ok s'.
Proof. intros [Ht Hv Hn] E1 E2 E3. split; congruence. Qed.

Lemma b2z_range b : 0 <= Z.b2z b <= 1.
Proof. destruct b; simpl; lia. Qed.

(** A counter can always give back the unit of a byte that it counted. *)
Lemma cuenta_ge p m i : p 0 = false -> Z.b2z (p (byte_at m i)) <= cuenta p m.
Proof. intros Hp. rewrite (cuenta_delete p Hp m i). unfold cuenta. lia. Qed.

Lemma ok_counts s : titular_ok s ->
  0 <= en_vuelo_vivos s <= MARCOS /\ 0 <= neutros_vivos s <= MARCOS.
Proof. intros [Ht -> ->]. split; by apply cuenta_bound. Qed.

(** After the rewrite a counter is still the size of a set of frames. *)
Lemma cuenta_insert_bound p m i b :
  p 0 = false -> tabla_ok m -> 0 <= i < MARCOS -> is_byte b ->
  0 <= cuenta p m - Z.b2z (p (byte_at m i)) + Z.b2z (p b) < 2 ^ 64.
Proof.
  intros Hp Hm Hi Hb. rewrite <- cuenta_insert by done.
  pose proof (cuenta_bound p (<[i := b]> m) ltac:(by apply tabla_ok_insert)).
  unfold MARCOS, PHYSMAP_SIZE, PAGE in *. lia.
Qed.

(** A byte rewritten without touching its device nibble, or without touching
    its owner nibble. *)
Lemma marcar_ok s phys q : titular_ok s -> 0 <= phys -> titular_ok (marcar s phys q).
Proof.
  intros Hs Hp. unfold marcar. destruct (indice phys) as [i|] eqn:Ei; [|done].
  apply indice_Some in Ei as [_ Hi]; [|done]. pose proof (ok_tabla s Hs) as Ht.
  set (antes := byte_at (tabla s) i). assert (Ha : is_byte antes) by (apply byte_at_byte, Ht).
  destruct (nib_mark antes (byte_of q)) as (Hb & Halto & Hbajo); [done|auto with bmo|].
  set (b := Z.lor (Z.land antes 0xF0) (byte_of q)) in *.
  pose proof (cuenta_insert_bound es_neutro (tabla s) i b eq_refl Ht Hi Hb) as Hbound.
  rewrite <- (ok_neutros s Hs) in Hbound. fold antes in Hbound.
  apply (ok_ext (set_neutros (set_vivos (set_tabla s (<[i := b]> (tabla s))) (en_vuelo_vivos s))
           (neutros_vivos s - Z.b2z (es_neutro antes) + Z.b2z (es_neutro b)) 0)).
  { apply ok_update; try done. unfold vuela. fold antes. rewrite Halto. lia. }
  all: assert (Hes : bool_decide (q = Neutro) = es_neutro b)
         by (unfold es_neutro; rewrite Hbajo; by destruct q).
  all: rewrite Hes; change (bajo antes =? byte_of Neutro) with (es_neutro antes).
  all: destruct (es_neutro antes), (es_neutro b), (negb (Z.land antes 0xF0 =? 0)),
         (negb (bajo antes =? byte_of q)); simpl in *;
       unfold w64, saturating_sub; try done; lia.
Qed.

(** The two rewrites of the device nibble. *)
Lemma ok_fly s i a :
  titular_ok s -> 0 <= i < MARCOS -> is_nib a -> a <> 0 ->
  let antes := byte_at (tabla s) i in
  titular_ok (set_vivos (set_tabla s (<[i := Z.lor (Z.land antes 0x0F) (Z.shiftl a 4)]> (tabla s)))
    (en_vuelo_vivos s + Z.b2z (alto antes =? 0))).
Proof.
  intros Hs Hi Ha Ha0 antes. pose proof (ok_tabla s Hs) as Ht.
  destruct (nib_fly antes a) as (Hb & Halto & Hbajo); [by apply byte_at_byte|done|].
  eapply ok_ext; [eapply (ok_update s i _ _ _ 0 Hs Hi Hb eq_refl eq_refl)|done|..]; simpl.
  - unfold vuela. fold antes. rewrite Halto, (proj2 (Z.eqb_neq a 0)) by done.
    destruct (alto antes =? 0); simpl; lia.
  - unfold es_neutro. fold antes. rewrite Hbajo. lia.
Qed.

Lemma ok_land s i :
  titular_ok s -> 0 <= i < MARCOS ->
  let antes := byte_at (tabla s) i in
  titular_ok (set_vivos (set_tabla s (<[i := Z.land antes 0x0F]> (tabla s)))
    (en_vuelo_vivos s - Z.b2z (vuela antes))).
Proof.
  intros Hs Hi antes. pose proof (ok_tabla s Hs) as Ht.
  destruct (nib_land antes) as (Hb & Halto & Hbajo); [by apply byte_at_byte|].
  eapply ok_ext; [eapply (ok_update s i _ _ _ 0 Hs Hi Hb eq_refl eq_refl)|done|..]; simpl.
  - unfold vuela. fold antes. rewrite Halto. simpl. lia.
  - unfold es_neutro. fold antes. rewrite Hbajo. lia.
Qed.

Lemma w64_count s z : titular_ok s -> z = en_vuelo_vivos s -> w64 z = z.
Proof.
  intros Hs ->. apply w64_small. apply ok_counts in Hs.
  unfold is_u64, MARCOS, PHYSMAP_SIZE, PAGE in *. lia.
Qed.

Lemma en_vuelo_ok s phys a t :
  titular_ok s -> 0 <= phys -> 0 <= a -> titular_ok (fst (en_vuelo s phys a t)).
Proof.
  intros Hs Hp Ha. unfold en_vuelo. case_if; [done|]. bdestr.
  destruct (indice phys) as [i|] eqn:Ei; [|done].
  apply indice_Some in Ei as [_ Hi]; [|done].
  case_if; [by apply (ok_ext s)|].
  pose proof (ok_fly s i a Hs Hi ltac:(unfold is_nib; lia) ltac:(done)) as Hf. simpl in Hf.
  destruct (alto (byte_at (tabla s) i) =? 0); simpl in *.
  - apply (ok_ext _ _ Hf); simpl; try done. eapply w64_count; [exact Hf|done].
  - apply (ok_ext _ _ Hf); simpl; try done. lia.
Qed.

Lemma aterrizo_ok s phys a t :
  titular_ok s -> 0 <= phys -> titular_ok (fst (aterrizo s phys a t)).
Proof.
  intros Hs Hp. unfold aterrizo. destruct (indice phys) as [i|] eqn:Ei; [|done].
  apply indice_Some in Ei as [_ Hi]; [|done].
  case_if; [done|]. case_if; [by apply (ok_ext s)|]. case_if; [by apply (ok_ext s)|].
  pose proof (ok_land s i Hs Hi) as Hf. simpl in Hf.
  apply (ok_ext _ _ Hf); simpl; try done.
  pose proof (ok_counts _ Hf). simpl in *. unfold saturating_sub, vuela in *. bdestr.
  rewrite (proj2 (Z.eqb_neq _ _)) in * by done. simpl in *. lia.
Qed.

Lemma caducados_loop_ok n s ahora plazo a mapa :
  titular_ok s -> titular_ok (fst (caducados_loop s ahora plazo a n mapa)).
Proof.
  revert s a mapa. induction n as [|n IH]; intros s a mapa Hs; [done|]. simpl.
  repeat case_if; try by apply IH. apply IH. by apply (ok_ext s).
Qed.

Lemma caducados_ok s ahora plazo : titular_ok s -> titular_ok (fst (caducados s ahora plazo)).
Proof. intros. unfold caducados. case_if; [done|]. by apply caducados_loop_ok. Qed.

(** Marking keeps [en_vuelo_vivos + nuevas] exact. *)
Lemma prestar_marca_ok n s base k a nuevas :
  titular_ok (set_vivos s (en_vuelo_vivos s + nuevas)) ->
  0 <= en_vuelo_vivos s -> 0 <= nuevas -> is_nib a -> a <> 0 ->
  let '(s', nuevas') := prestar_marca s base k n a nuevas in
  titular_ok (set_vivos s' (en_vuelo_vivos s' + nuevas')) /\
  en_vuelo_vivos s' = en_vuelo_vivos s /\ 0 <= nuevas' /\ prestamos s' = prestamos s.
Proof.
  revert s k nuevas. induction n as [|n IH]; intros s k nuevas Hs Hv Hn Ha Ha0; [done|].
  cbn [prestar_marca].
  destruct (indice _) as [i|] eqn:Ei; [|by apply IH].
  apply indice_Some in Ei as [_ Hi]; [|apply w64_range].
  pose proof (ok_fly _ i a Hs Hi Ha Ha0) as Hf. simpl in Hf.
  pose proof (ok_counts _ Hf) as [Hc _]. simpl in Hc.
  assert (Hbyte : is_byte (byte_at (tabla s) i)) by apply byte_at_byte, (ok_tabla _ Hs).
  destruct (nib_range _ Hbyte) as (_ & _ & Hz & _). rewrite Hz.
  set (nuevas2 := if alto (byte_at (tabla s) i) =? 0 then w64 (nuevas + 1) else nuevas).
  assert (Hn2 : nuevas2 = nuevas + Z.b2z (alto (byte_at (tabla s) i) =? 0)).
  { unfold nuevas2. destruct (alto _ =? 0); simpl in *; [|lia]. apply w64_small.
    unfold is_u64, MARCOS, PHYSMAP_SIZE, PAGE in *. lia. }
  match goal with |- context [prestar_marca ?s1 _ _ _ _ _] => set (s2 := s1) end.
  specialize (IH s2 (k + 1) nuevas2).
  destruct (prestar_marca s2 base (k + 1) n a nuevas2) as [s' nuevas'].
  apply IH; try done.
  - apply (ok_ext _ _ Hf); simpl; try done. lia.
  - rewrite Hn2. destruct (alto _ =? 0); simpl; lia.
Qed.

Lemma prestar_tramo_ok s base n a :
  titular_ok s -> 0 <= a -> titular_ok (fst (prestar_tramo s base n a)).
Proof.
  intros Hs Ha. unfold prestar_tramo. case_if; [done|]. bdestr.
  destruct (position _ _) as [h|]; [|done].
  destruct (prestar_revisa _ _ _ _ _) as [[]|]; try done; [by apply (ok_ext s)|].
  pose proof (ok_counts _ Hs) as [Hc _].
  pose proof (prestar_marca_ok (Z.to_nat n) s base 0 a 0) as Hm.
  destruct (prestar_marca s base 0 (Z.to_nat n) a 0) as [s' nuevas].
  destruct Hm as (Hf & Hv & Hn & _); try done; try (unfold is_nib; lia).
  { apply (ok_ext s); simpl; try done. lia. }
  apply (ok_ext _ _ Hf); simpl; try done. eapply w64_count; [exact Hf|done].
Qed.

Lemma devolver_loop_ok n s base k a vueltas :
  titular_ok (set_vivos s (en_vuelo_vivos s - vueltas)) -> 0 <= vueltas ->
  en_vuelo_vivos s < 2 ^ 64 -> a <> 0 ->
  let '(s', vueltas') := devolver_loop s base k n a vueltas in
  titular_ok (set_vivos s' (en_vuelo_vivos s' - vueltas')) /\
  en_vuelo_vivos s' = en_vuelo_vivos s /\ prestamos s' = prestamos s.
Proof.
  revert s k vueltas. induction n as [|n IH]; intros s k v Hs Hv Hlt Ha0; [done|].
  cbn [devolver_loop].
  destruct (indice _) as [i|] eqn:Ei; [|by apply IH].
  apply indice_Some in Ei as [_ Hi]; [|apply w64_range].
  case_if; [|by apply IH]. bdestr.
  pose proof (ok_land _ i Hs Hi) as Hf. simpl in Hf.
  assert (Hva : vuela (byte_at (tabla s) i) = true).
  { unfold vuela. by rewrite (proj2 (Z.eqb_neq _ _)) by congruence. }
  rewrite Hva in Hf. pose proof (ok_counts _ Hf) as [Hc _]. simpl in Hc.
  assert (Hw : w64 (v + 1) = v + 1) by (apply w64_small; unfold is_u64; lia).
  match goal with |- context [devolver_loop ?s1 _ _ _ _ _] => set (s2 := s1) end.
  specialize (IH s2 (k + 1) (w64 (v + 1))).
  destruct (devolver_loop s2 base (k + 1) n a (w64 (v + 1))) as [s' v'].
  apply IH; try done; [|lia].
  apply (ok_ext _ _ Hf); simpl; try done. lia.
Qed.

Lemma devolver_tramo_ok s base a :
  titular_ok s -> 0 < a -> titular_ok (fst (devolver_tramo s base a)).
Proof.
  intros Hs Ha. unfold devolver_tramo. destruct (position _ _) as [h|]; [|done].
  set (paginas := match prestamos s !! h with Some (_, p, _) => p | None => 0 end).
  pose proof (ok_counts _ Hs) as [Hc _].
  pose proof (devolver_loop_ok (Z.to_nat paginas) s base 0 a 0) as Hm.
  destruct (devolver_loop s base 0 (Z.to_nat paginas) a 0) as [s' v].
  destruct Hm as (Hf & Hv & _); try done; try lia.
  { apply (ok_ext s); simpl; try done. lia. }
  { unfold MARCOS, PHYSMAP_SIZE, PAGE in *. lia. }
  apply (ok_ext _ _ Hf); simpl; try done.
  pose proof (ok_counts _ Hf). simpl in *. unfold saturating_sub. lia.
Qed.

(** No loan is recorded for device 0. *)
Definition prestamos_ok (s : titular_st) : Prop :=
  Forall (fun '(_, p, a) => p <> 0 -> 0 < a) (prestamos s).

(** One call of the module, made by any subsystem at any time. *)
Inductive tstep (s : titular_st) : titular_st -> Prop :=
| ts_marcar phys q : 0 <= phys -> tstep s (marcar s phys q)
| ts_en_vuelo phys a t : 0 <= phys -> 0 <= a -> tstep s (fst (en_vuelo s phys a t))
| ts_aterrizo phys a t : 0 <= phys -> 0 <= a -> tstep s (fst (aterrizo s phys a t))
| ts_caducados ahora plazo : tstep s (fst (caducados s ahora plazo))
| ts_prestar base n a : 0 <= a -> tstep s (fst (prestar_tramo s base n a))
| ts_devolver base a : 0 <= a -> tstep s (fst (devolver_tramo s base a)).

Inductive treach : titular_st -> Prop :=
| tr_init : treach titular_init
| tr_step s s' : treach s -> tstep s s' -> treach s'.

Lemma marcar_prestamos s phys q : prestamos (marcar s phys q) = prestamos s.
Proof. unfold marcar. destruct (indice phys); [|done]. by repeat case_if. Qed.

Lemma en_vuelo_prestamos s phys a t : prestamos (fst (en_vuelo s phys a t)) = prestamos s.
Proof. unfold en_vuelo. case_if; [done|]. destruct (indice phys); [|done]. by repeat case_if. Qed.

Lemma aterrizo_prestamos s phys a t : prestamos (fst (aterrizo s phys a t)) = prestamos s.
Proof. unfold aterrizo. destruct (indice phys); [|done]. by repeat case_if. Qed.

Lemma caducados_prestamos s ahora plazo : prestamos (fst (caducados s ahora plazo)) = prestamos s.
Proof.
  unfold caducados. case_if; [done|]. generalize 1 15%nat 0.
  intros a n mapa; revert s a mapa. induction n as [|n IH]; intros s a mapa; [done|].
  simpl. by repeat case_if; rewrite IH.
Qed.

Lemma prestar_marca_prestamos n s base k a nuevas :
  prestamos (fst (prestar_marca s base k n a nuevas)) = prestamos s.
Proof.
  revert s k nuevas. induction n as [|n IH]; intros; [done|]. cbn [prestar_marca].
  destruct (indice _); by rewrite IH.
Qed.

Lemma devolver_loop_prestamos n s base k a v :
  prestamos (fst (devolver_loop s base k n a v)) = prestamos s.
Proof.
  revert s k v. induction n as [|n IH]; intros; [done|]. cbn [devolver_loop].
  destruct (indice _); [case_if|]; by rewrite IH.
Qed.

Lemma prestamos_ok_ext s s' : prestamos s' = prestamos s -> prestamos_ok s -> prestamos_ok s'.
Proof. unfold prestamos_ok. by intros ->. Qed.

Lemma prestar_prestamos_ok s base n a :
  prestamos_ok s -> 0 <= a -> prestamos_ok (fst (prestar_tramo s base n a)).
Proof.
  unfold prestamos_ok, prestar_tramo. intros Hs Ha. case_if; [done|]. bdestr.
  destruct (position _ _); [|done]. destruct (prestar_revisa _ _ _ _ _) as [[]|]; try done.
  pose proof (prestar_marca_prestamos (Z.to_nat n) s base 0 a 0) as Hp.
  destruct (prestar_marca _ _ _ _ _ _) as [s' v]. simpl in *. rewrite Hp.
  apply Forall_insert; [done|]. lia.
Qed.

Lemma devolver_zero s base : prestamos_ok s -> devolver_tramo s base 0 = (s, false).
Proof.
  intros Hs. unfold devolver_tramo. destruct (position _ _) as [h|] eqn:E; [|done].
  apply position_Some in E as ([[b p] a] & Hl & Hp & _). bdestr.
  unfold prestamos_ok in Hs. rewrite Forall_lookup in Hs. specialize (Hs h _ Hl). simpl in Hs. lia.
Qed.

Lemma devolver_prestamos_ok s base a :
  prestamos_ok s -> prestamos_ok (fst (devolver_tramo s base a)).
Proof.
  unfold prestamos_ok, devolver_tramo. intros Hs. destruct (position _ _) as [h|]; [|done].
  match goal with |- context [devolver_loop s base 0 ?n a 0] =>
    pose proof (devolver_loop_prestamos n s base 0 a 0) as Hp;
    destruct (devolver_loop s base 0 n a 0) as [s' v] end.
  simpl in *. rewrite Hp. by apply Forall_insert.
Qed.

Lemma titular_init_ok : titular_ok titular_init /\ prestamos_ok titular_init.
Proof.
  split; [|by repeat constructor]. split; [|done..].
  split; intros i b Hb; simpl in Hb; by apply lookup_empty_Some in Hb.
Qed.

(** Whatever sequence of calls the kernel makes, the table stays a table
    of bytes over the frames of the mirror, the counter of frames with a DMA
    in flight is the number of frames whose device nibble is not 0, and the
    counter of device frames is the number of frames owned as [Neutro]. *)
Theorem titular_counters_exact s : treach s -> titular_ok s /\ prestamos_ok s.
Proof.
  induction 1 as [|s s' _ [Hs Hp] Hstep]; [apply titular_init_ok|].
  destruct Hstep as [| | | | |base a Ha]; split;
    eauto using marcar_ok, en_vuelo_ok, aterrizo_ok, caducados_ok, prestar_tramo_ok,
      prestar_prestamos_ok, devolver_prestamos_ok, prestamos_ok_ext, marcar_prestamos,
      en_vuelo_prestamos, aterrizo_prestamos, caducados_prestamos.
  destruct (decide (a = 0)) as [->|]; [by rewrite devolver_zero|].
  apply devolver_tramo_ok; [done|lia].
Qed.

Lemma titular_counters_exact_witness :
  let s := fst (en_vuelo (marcar titular_init 0x5000 Neutro) 0x5000 APARATO_AHCI 100) in
  titular_ok s /\ vuelos s = (1, 0, 0) /\ neutros s = (1, 0).
Proof.
  split; [|split; reflexivity]. apply titular_counters_exact.
  eapply tr_step; [eapply tr_step; [apply tr_init|apply (ts_marcar _ 0x5000 Neutro); lia]|].
  apply ts_en_vuelo; unfold APARATO_AHCI; lia.
Defined.

Lemma marcar_tabla s phys q i :
  indice phys = Some i ->
  tabla (marcar s phys q) =
    <[i := Z.lor (Z.land (byte_at (tabla s) i) 0xF0) (byte_of q)]> (tabla s).
Proof. intros Ei. unfold marcar. rewrite Ei. by repeat case_if. Qed.

Lemma indice_page f : 0 <= f < MARCOS -> indice (f * PAGE) = Some f.
Proof.
  unfold indice, MARCOS, PHYSMAP_SIZE, PAGE. intros Hf.
  rewrite Z_mod_mult, Z_div_mult by lia. simpl.
  rewrite (proj2 (Z.leb_gt _ _)) by lia. done.
Qed.

(** Marking one frame names its owner and leaves every other frame's alone. *)
Lemma titular_de_marcar s q f g :
  titular_ok s -> 0 <= f < MARCOS -> 0 <= g < MARCOS ->
  titular_de (marcar s (f * PAGE) q) (g * PAGE) =
    if decide (f = g) then q else titular_de s (g * PAGE).
Proof.
  intros Hs Hf Hg. unfold titular_de.
  rewrite indice_page, (marcar_tabla s (f * PAGE) q f), byte_at_insert by auto using indice_page.
  case_decide as E; [|done]. subst. apply de_byte_bajo.
  apply nib_mark; [apply byte_at_byte, Hs|apply byte_of_nib].
Qed.

(** ** Who may touch a frame in flight *)

Lemma prestar_revisa_choque n s base k a j i :
  indice (w64 (base + w64 ((k + Z.of_nat j) * PAGE))) = Some i -> (j < n)%nat ->
  alto (byte_at (tabla s) i) <> 0 -> alto (byte_at (tabla s) i) <> a ->
  prestar_revisa s base k n a <> None.
Proof.
  revert k j. induction n as [|n IH]; intros k j Hi Hj H0 Ha; [lia|]. cbn [prestar_revisa].
  destruct j as [|j].
  - rewrite Z.add_0_r in Hi. rewrite Hi.
    by rewrite (proj2 (Z.eqb_neq _ 0)), (proj2 (Z.eqb_neq _ a)) by done.
  - destruct (indice (w64 (base + w64 (k * PAGE)))); [|done]. case_if; [done|].
    apply (IH (k + 1) j); [|lia|done..]. rewrite <- Hi. do 4 f_equal. lia.
Qed.

(** C8: while device [a] has a DMA in flight on a frame, no other device can
    take the frame, land on it or be lent it -- the call is refused and the
    table does not change --, and handing the frame to another owner does not
    erase the flight. *)
Theorem en_vuelo_exclusive s phys a :
  titular_ok s -> 0 <= phys -> en_vuelo_de s phys = Some a ->
  (forall b t, b <> a ->
     snd (en_vuelo s phys b t) = false /\ tabla (fst (en_vuelo s phys b t)) = tabla s) /\
  (forall b t, b <> a ->
     snd (aterrizo s phys b t) = false /\ tabla (fst (aterrizo s phys b t)) = tabla s) /\
  (forall base n b j, b <> a -> 0 <= j < n -> phys = w64 (base + w64 (j * PAGE)) ->
     snd (prestar_tramo s base n b) <> Ok tt /\ tabla (fst (prestar_tramo s base n b)) = tabla s) /\
  (forall q, en_vuelo_de (marcar s phys q) phys = Some a).
Proof.
  intros Hs Hp. unfold en_vuelo_de at 1. destruct (indice phys) as [i|] eqn:Ei; [|done].
  intros Ha. assert (Hal : alto (byte_at (tabla s) i) = a /\ a <> 0).
  { destruct (alto (byte_at (tabla s) i)) eqn:E; simplify_eq; lia. }
  clear Ha. destruct Hal as [Hal Ha0]. split_and!.
  - intros b t Hb. unfold en_vuelo. rewrite Ei, Hal. case_if; [done|].
    by rewrite (proj2 (Z.eqb_neq a 0)), (proj2 (Z.eqb_neq a b)) by done.
  - intros b t Hb. unfold aterrizo. rewrite Ei, Hal.
    by rewrite (proj2 (Z.eqb_neq a 0)), (proj2 (Z.eqb_neq a b)) by done.
  - intros base n b j Hb Hj ->. unfold prestar_tramo. case_if; [done|].
    destruct (position _ _); [|done].
    pose proof (prestar_revisa_choque (Z.to_nat n) s base 0 b (Z.to_nat j) i) as Hr.
    rewrite Z.add_0_l, Z2Nat.id in Hr by lia.
    specialize (Hr Ei ltac:(lia) ltac:(congruence) ltac:(congruence)).
    by destruct (prestar_revisa _ _ _ _ _) as [[]|].
  - intros q. pose proof (ok_tabla s Hs) as Ht.
    destruct (nib_mark (byte_at (tabla s) i) (byte_of q)) as (_ & Halto & _);
      [by apply byte_at_byte|apply byte_of_nib|].
    unfold en_vuelo_de.
    rewrite Ei, (marcar_tabla s phys q i), byte_at_insert, decide_True, Halto, Hal by done.
    by destruct a.
Qed.

Lemma en_vuelo_exclusive_witness :
  let s := fst (en_vuelo titular_init 0x5000 APARATO_NIC 10) in
  snd (en_vuelo s 0x5000 APARATO_AHCI 11) = false /\
  snd (aterrizo s 0x5000 APARATO_AHCI 11) = false.
Proof.
  assert (Hs : titular_ok (fst (en_vuelo titular_init 0x5000 APARATO_NIC 10))).
  { apply en_vuelo_ok; [apply titular_init_ok|lia|unfold APARATO_NIC; lia]. }
  pose proof (en_vuelo_exclusive _ 0x5000 APARATO_NIC Hs ltac:(lia) eq_refl) as (H1 & H2 & _).
  split.
  - exact (proj1 (H1 APARATO_AHCI 11 ltac:(done))).
  - exact (proj1 (H2 APARATO_AHCI 11 ltac:(done))).
Defined.

(** A loan over a page that was already in flight for the same device
    loses the flight: once the loan is returned the page carries no device and
    the global counter is 0, yet the device keeps one open flight for ever,
    and the watchdog then reports it overdue. *)
Theorem prestamo_sobre_vuelo :
  let s1 := fst (en_vuelo titular_init 0x5000 APARATO_NIC 10) in
  let s2 := fst (prestar_tramo s1 0x5000 1 APARATO_NIC) in
  let s3 := fst (devolver_tramo s2 0x5000 APARATO_NIC) in
  en_vuelo_de s3 0x5000 = None /\ vuelos s3 = (0, 0, 0) /\
  at_ (vuelos_de s3) APARATO_NIC = 1 /\
  snd (aterrizo s3 0x5000 APARATO_NIC 11) = false /\
  snd (caducados s3 1000 100) = Z.shiftl 1 APARATO_NIC.
Proof. vm_compute. split_and!; reflexivity. Qed.

(** [cubiertos] counts frames that carry no owner at all: a free frame
    with a DMA in flight is counted as labelled. *)
Theorem cubiertos_counts_flights :
  let s := fst (en_vuelo titular_init 0x5000 APARATO_NIC 10) in
  titular_de s 0x5000 = Nadie /\ cubiertos s = 1.
Proof. vm_compute. split; reflexivity. Qed.
