(* ===== verification/Phys.v ===== *)
(** The physical frame allocator: a bitmap of 4 KiB frames below the mirror
    ([PHYSMAP_SIZE]), its counters, the book of double frees, and the owner
    labels it maintains in [Titular].
    Source: src/Ultra_kernel_x86-64/kernel/src/ring0/mm/phys/{roja,amarilla}.rs
    and src/platform/shared/bmo-fisica-juicio/src/lib.rs.

    [BITMAP] is a finite map from word index to word (missing = 0, the .bss
    value); [LOCK] makes each function atomic.  What the code takes from the
    linker and the clock ([__bss_end], the address and size of the
    [BootContext], [timer::ticks]) are parameters.  CABINA messages are not
    modelled. *)

From stdpp Require Import gmap.
From S2P Require Import Prelude Titular.

Definition MAX_PHYS : Z := PHYSMAP_SIZE.
Definition FRAME_SLOTS : Z := MAX_PHYS / PAGE / 64.
(** The same number as a loop bound. *)
Definition SLOTS : nat := Z.to_nat FRAME_SLOTS.
Definition MAX_TRAMOS : nat := 64.
Definition DOBLES_FICHAS : Z := 8.

(** [bmo_mmio_juicio::Tramo] and [boot_context::MemoryEntry]. *)
Record Tramo := mkTramo { t_base : Z; t_bytes : Z; t_es_ram : bool }.
Record MemoryEntry := mkEntry { e_base : Z; e_size : Z; e_kind : Z }.

Record phys_st := mkPhys {
  bitmap : gmap Z Z;
  total_frames : Z; free_frames : Z; hint : Z;
  tramos : list Tramo;
  dobles : list (Z * Z); dobles_n : Z;
  tit : titular_st
}.

Definition phys_bss : phys_st :=
  mkPhys ∅ 0 0 0 [] (replicate 8 (0, 0)) 0 titular_init.

(** [!0], [!x], [count_zeros] and [trailing_zeros] on [u64]. *)
Definition ones64 : Z := Z.ones 64.
Definition not64 (x : Z) : Z := Z.lxor x ones64.

Fixpoint zsum (f : Z -> Z) (n : nat) : Z :=
  match n with O => 0 | S n => zsum f n + f (Z.of_nat n) end.

Definition count_zeros (w : Z) : Z := zsum (fun i => Z.b2z (negb (Z.testbit w i))) 64.
Definition trailing_zeros (w : Z) : Z :=
  match position (fun i => Z.testbit w i) (seqZ 0 64) with
  | Some n => Z.of_nat n | None => 64
  end.

(** [z & !(PAGE - 1)]. *)
Definition page_down (z : Z) : Z := Z.land z (not64 (PAGE - 1)).

Definition used (bm : gmap Z Z) (frame : Z) : bool :=
  negb (Z.land (byte_at bm (frame / 64)) (Z.shiftl 1 (frame mod 64)) =? 0).
Definition set_bit (bm : gmap Z Z) (frame : Z) : gmap Z Z :=
  <[frame / 64 := Z.lor (byte_at bm (frame / 64)) (Z.shiftl 1 (frame mod 64))]> bm.
Definition clear_bit (bm : gmap Z Z) (frame : Z) : gmap Z Z :=
  <[frame / 64 := Z.land (byte_at bm (frame / 64)) (not64 (Z.shiftl 1 (frame mod 64)))]> bm.

(** Turns of [while a < end { ...; a += PAGE }]. *)
Definition paginas (a fin : Z) : nat := Z.to_nat ((fin - a + (PAGE - 1)) / PAGE).

Fixpoint reserva_loop (bm : gmap Z Z) (free a : Z) (n : nat) : gmap Z Z * Z :=
  match n with
  | O => (bm, free)
  | S n =>
      let frame := a / PAGE in
      if used bm frame then reserva_loop bm free (a + PAGE) n
      else reserva_loop (set_bit bm frame) (w64 (free - 1)) (a + PAGE) n
  end.

Definition reserve_range (s : phys_st) (base size : Z) : phys_st :=
  if (size =? 0) || (MAX_PHYS <=? base) then s else
  let a := page_down base in
  let fin := page_down (w64 (base + size + PAGE - 1)) in
  let fin := if MAX_PHYS <? fin then MAX_PHYS else fin in
  let '(bm, free) := reserva_loop (bitmap s) (free_frames s) a (paginas a fin) in
  mkPhys bm (total_frames s) free (hint s) (tramos s) (dobles s) (dobles_n s) (tit s).

(** Step 2 of [init]: one usable entry. *)
Fixpoint libera_loop (bm : gmap Z Z) (total free base : Z) (n : nat) : gmap Z Z * Z * Z :=
  match n with
  | O => (bm, total, free)
  | S n =>
      let frame := base / PAGE in
      if used bm frame
      then libera_loop (clear_bit bm frame) (w64 (total + 1)) (w64 (free + 1)) (base + PAGE) n
      else libera_loop bm total free (base + PAGE) n
  end.

Definition init_entry (s : phys_st) (e : MemoryEntry) : phys_st :=
  if negb (e_kind e =? 1) || (e_size e =? 0) then s else
  let tr := if (length (tramos s) <? MAX_TRAMOS)%nat
            then tramos s ++ [mkTramo (e_base e) (e_size e) true] else tramos s in
  let base := page_down (w64 (e_base e + PAGE - 1)) in
  let fin := page_down (w64 (e_base e + e_size e)) in
  if MAX_PHYS <=? base
  then mkPhys (bitmap s) (total_frames s) (free_frames s) (hint s) tr
         (dobles s) (dobles_n s) (tit s)
  else
    let fin := if MAX_PHYS <? fin then MAX_PHYS else fin in
    let '(bm, total, free) :=
      libera_loop (bitmap s) (total_frames s) (free_frames s) base (paginas base fin) in
    mkPhys bm total free (hint s) tr (dobles s) (dobles_n s) (tit s).

(** Step 1 of [init]: every word is [!0] and the counters are 0. *)
Definition todo_ocupado : gmap Z Z :=
  list_to_map ((fun w => (w, ones64)) <$> seqZ 0 FRAME_SLOTS).

Definition caida_BASE : Z := 0x04000000.
Definition caida_BYTES : Z := 256 * 1024.

Record BootContext := mkBoot {
  memory_map : list MemoryEntry;        (* the first [memory_map_count] *)
  stages : list (Z * Z);                (* (stage_base, stage_size) *)
  fb_addr : Z; fb_stride : Z; fb_height : Z;
  ring3_payload_phys : Z; ring3_payload_size : Z;
  ring3_workspace_phys : Z; ring3_workspace_size : Z
}.

(** Step 3 of [init]: the kernel's own reservations, in order.
    [kernel_end] is the page-rounded [__bss_end]; [ctx_addr], [ctx_size] locate
    the [BootContext] itself. *)
Definition reservas (ctx : BootContext) (kernel_end ctx_addr ctx_size : Z) : list (Z * Z) :=
  [(0, 0x100000); (0x400000, w64 (kernel_end - 0x400000))]
  ++ filter (fun bs => bs.1 <> 0 /\ bs.2 <> 0) (stages ctx)
  ++ [(ctx_addr, ctx_size)]
  ++ (if fb_addr ctx =? 0 then [] else
      let fb_start := page_down (fb_addr ctx) in
      [(fb_start, w64 (w64 (w64 (fb_stride ctx * fb_height ctx) * 4) + (fb_addr ctx - fb_start)))])
  ++ [(0xFEC00000, 0x1400000); (caida_BASE, caida_BYTES)]
  ++ (if ring3_payload_phys ctx =? 0 then []
      else [(ring3_payload_phys ctx, ring3_payload_size ctx)])
  ++ (if ring3_workspace_phys ctx =? 0 then []
      else [(ring3_workspace_phys ctx, ring3_workspace_size ctx)]).

Definition init (s : phys_st) (ctx : BootContext) (kernel_end ctx_addr ctx_size : Z) : phys_st :=
  let s := mkPhys todo_ocupado 0 0 0 [] (dobles s) (dobles_n s) (tit s) in
  let s := foldl init_entry s (memory_map ctx) in
  foldl (fun s br => reserve_range s br.1 br.2) s (reservas ctx kernel_end ctx_addr ctx_size).

(** ** Allocation *)

Definition contar_de_nuevo (bm : gmap Z Z) : Z :=
  zsum (fun w => count_zeros (byte_at bm w)) SLOTS.

(** [for _ in 0..FRAME_SLOTS], starting at word [i]. *)
Fixpoint busca (bm : gmap Z Z) (i : Z) (n : nat) : option Z :=
  match n with
  | O => None
  | S n => if byte_at bm i =? ones64 then busca bm ((i + 1) mod FRAME_SLOTS) n else Some i
  end.

Definition marcar_entregado (t : titular_st) (f : Z) : titular_st := marcar t f Anonimo.

Definition alloc_frame (s : phys_st) : phys_st * option Z :=
  if free_frames s =? 0 then (s, None) else
  match busca (bitmap s) (hint s mod FRAME_SLOTS) SLOTS with
  | Some i =>
      let w := byte_at (bitmap s) i in
      let bit := trailing_zeros (not64 w) in
      let p := w64 ((i * 64 + bit) * PAGE) in
      (mkPhys (<[i := Z.lor w (Z.shiftl 1 bit)]> (bitmap s)) (total_frames s)
         (w64 (free_frames s - 1)) i (tramos s) (dobles s) (dobles_n s)
         (marcar_entregado (tit s) p), Some p)
  | None =>
      (mkPhys (bitmap s) (total_frames s) (contar_de_nuevo (bitmap s)) (hint s) (tramos s)
         (dobles s) (dobles_n s) (tit s), None)
  end.

(** The scan of [alloc_frames_contig]; [fuel] bounds the turns of
    [while frame < total].  Answers the first frame of the run. *)
Fixpoint contig_loop (bm : gmap Z Z) (count run start frame : Z) (fuel : nat) : option Z :=
  match fuel with
  | O => None
  | S fuel =>
      if negb (frame <? FRAME_SLOTS * 64) then None
      else if (run =? 0) && (frame mod 64 =? 0) && (byte_at bm (frame / 64) =? ones64)
      then contig_loop bm count run start (frame + 64) fuel
      else if negb (used bm frame) then
        let start := if run =? 0 then frame else start in
        let run := run + 1 in
        if run =? count then Some start
        else contig_loop bm count run start (frame + 1) fuel
      else contig_loop bm count 0 start (frame + 1) fuel
  end.

(** [for f in start..start + count] setting bits, then marking frames. *)
Fixpoint set_run (bm : gmap Z Z) (f : Z) (n : nat) : gmap Z Z :=
  match n with O => bm | S n => set_run (set_bit bm f) (f + 1) n end.
Fixpoint marca_run (t : titular_st) (f : Z) (n : nat) (q : Titular) : titular_st :=
  match n with O => t | S n => marca_run (marcar t (w64 (f * PAGE)) q) (f + 1) n q end.

Definition alloc_frames_contig (s : phys_st) (count : Z) : phys_st * option Z :=
  if count =? 0 then (s, None)
  else if free_frames s <? count then (s, None)
  else match contig_loop (bitmap s) count 0 0 0 (S (Z.to_nat (FRAME_SLOTS * 64))) with
  | None => (s, None)
  | Some start =>
      (mkPhys (set_run (bitmap s) start (Z.to_nat count)) (total_frames s)
         (w64 (free_frames s - count)) (start / 64) (tramos s) (dobles s) (dobles_n s)
         (marca_run (tit s) start (Z.to_nat count) Anonimo), Some (w64 (start * PAGE)))
  end.

(** ** Release *)

Definition anotar_doble (s : phys_st) (phys ticks : Z) : phys_st :=
  let n := Z.to_nat (dobles_n s mod DOBLES_FICHAS) in
  mkPhys (bitmap s) (total_frames s) (free_frames s) (hint s) (tramos s)
    (<[n := (phys, ticks)]> (dobles s)) (w64 (dobles_n s + 1)) (tit s).

Definition se_devolvio_dos_veces (s : phys_st) (phys : Z) : option Z :=
  let base := page_down phys in
  match position (fun '(p, tick) => negb (tick =? 0) && (p =? base)) (dobles s) with
  | Some i => snd <$> dobles s !! i
  | None => None
  end.

Definition free_frame (s : phys_st) (phys ticks : Z) : phys_st :=
  if negb (phys mod PAGE =? 0) || (MAX_PHYS <=? phys) then s else
  let frame := phys / PAGE in
  if used (bitmap s) frame
  then mkPhys (clear_bit (bitmap s) frame) (total_frames s) (w64 (free_frames s + 1)) (hint s)
         (tramos s) (dobles s) (dobles_n s) (marcar (tit s) phys Nadie)
  else anotar_doble s phys ticks.

(** ** The declared variants *)

Definition with_tit (s : phys_st) (t : titular_st) : phys_st :=
  mkPhys (bitmap s) (total_frames s) (free_frames s) (hint s) (tramos s)
    (dobles s) (dobles_n s) t.

Definition alloc_frame_de (s : phys_st) (quien : Titular) : phys_st * option Z :=
  match alloc_frame s with
  | (s, None) => (s, None)
  | (s, Some f) => (with_tit s (marcar (tit s) f quien), Some f)
  end.

Fixpoint marca_desde (t : titular_st) (base i : Z) (n : nat) (q : Titular) : titular_st :=
  match n with
  | O => t
  | S n => marca_desde (marcar t (w64 (base + w64 (i * PAGE))) q) base (i + 1) n q
  end.

Definition alloc_frames_contig_de (s : phys_st) (count : Z) (quien : Titular)
  : phys_st * option Z :=
  match alloc_frames_contig s count with
  | (s, None) => (s, None)
  | (s, Some base) =>
      (with_tit s (marca_desde (tit s) base 0 (Z.to_nat count) quien), Some base)
  end.

Definition free_frame_de (s : phys_st) (phys ticks : Z) (quien : Titular) : phys_st * bool :=
  match puede_soltar (tit s) phys quien with
  | NoEsTuyo _ _ => (s, false)
  | _ => (free_frame s phys ticks, true)
  end.

Definition esta_libre (s : phys_st) (phys : Z) : option bool :=
  if MAX_PHYS <=? phys then None else Some (negb (used (bitmap s) (phys / PAGE))).

Definition stats (s : phys_st) : Z * Z := (total_frames s, free_frames s).

(** ** amarilla.rs *)

Inductive Paso := Si | Cero | FueraDelEspejo.

Definition se_puede_caminar (fisica espejo_bytes : Z) : Paso :=
  if fisica =? 0 then Cero
  else if espejo_bytes <=? fisica then FueraDelEspejo else Si.

(** Physical memory is a function from byte addresses; [zero_frame] is the
    only function of the module that writes it. *)
Definition zero_frame (mem : Z -> Z) (phys : Z) : Z -> Z :=
  if negb (phys mod PAGE =? 0)
     || negb (match se_puede_caminar phys PHYSMAP_SIZE with Si => true | _ => false end)
  then mem
  else fun a => if (phys <=? a) && (a <? phys + PAGE) then 0 else mem a.

(** * Bits and counts *)

(** The sum over the bitmap is compared by its definition, never by running
    it: 65536 is a large number in unary. *)
Strategy expand [contar_de_nuevo todo_ocupado].
Strategy 1000 [SLOTS].

Lemma FRAME_SLOTS_eq : FRAME_SLOTS = 65536.
Proof. reflexivity. Qed.
Lemma SLOTS_Z : Z.of_nat SLOTS = FRAME_SLOTS.
Proof. unfold SLOTS. apply Z2Nat.id. rewrite FRAME_SLOTS_eq. lia. Qed.
Lemma MARCOS_eq : MARCOS = 65536 * 64.
Proof. reflexivity. Qed.

Lemma used_testbit bm f : used bm f = Z.testbit (byte_at bm (f / 64)) (f mod 64).
Proof. unfold used. rewrite land_bit_zero by lia. apply negb_involutive. Qed.

Lemma testbit_not64 z i : 0 <= i -> Z.testbit (not64 z) i = xorb (Z.testbit z i) (i <? 64).
Proof.
  intros. unfold not64, ones64. rewrite Z.lxor_spec. f_equal.
  rewrite Z.testbit_ones by lia. destruct (0 <=? i) eqn:E; bdestr; [done|lia].
Qed.

Lemma used_set_bit bm f g : used (set_bit bm f) g = (f =? g) || used bm g.
Proof.
  rewrite !used_testbit. unfold set_bit. rewrite byte_at_insert. case_decide as E.
  - rewrite testbit_setbit_iff, E, orb_comm by lia. f_equal.
    case_bool_decide; symmetry; [apply Z.eqb_eq|apply Z.eqb_neq]; lia.
  - rewrite (proj2 (Z.eqb_neq f g)); [done|congruence].
Qed.

Lemma used_clear_bit bm f g : used (clear_bit bm f) g = negb (f =? g) && used bm g.
Proof.
  rewrite !used_testbit. unfold clear_bit. rewrite byte_at_insert. case_decide as E.
  - rewrite Z.land_spec, testbit_not64, Z.shiftl_1_l by lia. rewrite E, andb_comm.
    rewrite (proj2 (Z.ltb_lt (g mod 64) 64)) by lia. f_equal. rewrite xorb_true_r. f_equal.
    rewrite Z.pow2_bits_eqb by lia.
    destruct (f =? g) eqn:Ef; bdestr; [apply Z.eqb_eq|apply Z.eqb_neq]; lia.
  - rewrite (proj2 (Z.eqb_neq f g)); [done|congruence].
Qed.

Lemma u64_bits z : 0 <= z -> (forall i, 64 <= i -> Z.testbit z i = false) -> is_u64 z.
Proof.
  intros Hz Hb. split; [done|]. destruct (decide (z < 2 ^ 64)) as [|H]; [done|].
  assert (64 <= Z.log2 z) by (apply Z.log2_le_pow2; lia).
  exfalso. pose proof (Hb (Z.log2 z) ltac:(done)) as H1. rewrite Z.bit_log2 in H1 by lia. done.
Qed.

Lemma u64_high z i : is_u64 z -> 64 <= i -> Z.testbit z i = false.
Proof. unfold is_u64. intros. by apply (testbit_above z 64). Qed.

Definition words_ok (bm : gmap Z Z) : Prop := forall i, is_u64 (byte_at bm i).

Lemma words_insert bm i w : words_ok bm -> is_u64 w -> words_ok (<[i := w]> bm).
Proof. intros H Hw j. rewrite byte_at_insert. by case_decide. Qed.

Lemma set_word_u64 w b : is_u64 w -> 0 <= b < 64 -> is_u64 (Z.lor w (Z.shiftl 1 b)).
Proof.
  intros Hw Hb. apply u64_bits.
  - apply Z.lor_nonneg. split; [apply Hw|]. by apply Z.shiftl_nonneg.
  - intros i Hi. rewrite testbit_setbit_iff, u64_high by (done || lia).
    case_bool_decide; [lia|done].
Qed.

Lemma clear_word_u64 w m : is_u64 w -> is_u64 (Z.land w m).
Proof.
  intros Hw. apply u64_bits; [apply Z.land_nonneg; left; apply Hw|].
  intros i Hi. by rewrite Z.land_spec, u64_high.
Qed.

Lemma words_set_bit bm f : words_ok bm -> words_ok (set_bit bm f).
Proof. intros H. apply words_insert, set_word_u64; [done..|lia]. Qed.
Lemma words_clear_bit bm f : words_ok bm -> words_ok (clear_bit bm f).
Proof. intros H. by apply words_insert, clear_word_u64. Qed.
#[export] Hint Resolve words_set_bit words_clear_bit : bmo.

(** ** Sums over a range *)

Lemma zsum_ext f g n : (forall i, 0 <= i < Z.of_nat n -> f i = g i) -> zsum f n = zsum g n.
Proof.
  induction n as [|n IH]; intros H; simpl; [done|].
  rewrite IH by (intros; apply H; lia). by rewrite H by lia.
Qed.

Lemma zsum_update f g n j :
  0 <= j < Z.of_nat n -> (forall i, i <> j -> g i = f i) ->
  zsum g n = zsum f n - f j + g j.
Proof.
  intros Hj Hg. induction n as [|n IH]; simpl; [lia|].
  destruct (decide (j = Z.of_nat n)) as [->|].
  - rewrite (zsum_ext g f n) by (intros; apply Hg; lia). lia.
  - rewrite IH by lia. rewrite (Hg (Z.of_nat n)) by done. lia.
Qed.

Lemma zsum_nonneg f n : (forall i, 0 <= f i) -> 0 <= zsum f n.
Proof. intros H. induction n; simpl; [done|]. specialize (H (Z.of_nat n)). lia. Qed.

Lemma zsum_le f n c : (forall i, f i <= c) -> zsum f n <= c * Z.of_nat n.
Proof. intros H. induction n; simpl; [lia|]. specialize (H (Z.of_nat n)). lia. Qed.

Lemma zsum_zero f n : (forall i, 0 <= f i) ->
  zsum f n = 0 <-> forall i, 0 <= i < Z.of_nat n -> f i = 0.
Proof.
  intros Hf. induction n as [|n IH]; simpl; [split; [lia|done]|].
  pose proof (zsum_nonneg f n Hf). pose proof (Hf (Z.of_nat n)). split.
  - intros H1 i Hi. destruct (decide (i = Z.of_nat n)) as [->|]; [lia|].
    apply IH; lia.
  - intros H1. rewrite H1 by lia. rewrite (proj2 IH); [done|]. intros; apply H1; lia.
Qed.

Lemma zsum_const f n c : (forall i, 0 <= i < Z.of_nat n -> f i = c) -> zsum f n = c * Z.of_nat n.
Proof.
  intros H. induction n as [|n IH]; simpl; [lia|].
  rewrite IH by (intros; apply H; lia). rewrite H by lia. lia.
Qed.

Lemma count_zeros_range w : 0 <= count_zeros w <= 64.
Proof.
  unfold count_zeros. split; [apply zsum_nonneg; intros; by destruct (Z.testbit _ _)|].
  apply (zsum_le _ 64 1). intros; by destruct (Z.testbit _ _).
Qed.

(** One bit of difference is one unit of the count. *)
Lemma count_zeros_flip w w' b :
  0 <= b < 64 -> (forall i, i <> b -> Z.testbit w' i = Z.testbit w i) ->
  count_zeros w' = count_zeros w + Z.b2z (Z.testbit w b) - Z.b2z (Z.testbit w' b).
Proof.
  intros Hb H. unfold count_zeros.
  rewrite (zsum_update (fun i => Z.b2z (negb (Z.testbit w i)))
             (fun i => Z.b2z (negb (Z.testbit w' i))) 64 b); [|lia|].
  - destruct (Z.testbit w b), (Z.testbit w' b); simpl; lia.
  - intros i Hi. by rewrite H.
Qed.

Lemma count_zeros_ones w : is_u64 w -> count_zeros w = 0 <-> w = ones64.
Proof.
  intros Hw. unfold count_zeros.
  rewrite zsum_zero by (intros; by destruct (Z.testbit _ _)). split.
  - intros H. apply Z.bits_inj'. intros i Hi. unfold ones64. rewrite Z.testbit_ones by lia.
    destruct (decide (i < 64)).
    + specialize (H i ltac:(lia)). rewrite (proj2 (Z.ltb_lt i 64)) by done.
      rewrite (proj2 (Z.leb_le 0 i)) by done. by destruct (Z.testbit w i).
    + rewrite u64_high by (done || lia). rewrite (proj2 (Z.ltb_ge i 64)) by lia.
      by rewrite andb_false_r.
  - intros -> i Hi. unfold ones64. rewrite Z.ones_spec_low by lia. done.
Qed.

Lemma contar_range bm : 0 <= contar_de_nuevo bm <= MARCOS.
Proof.
  unfold contar_de_nuevo. split; [apply zsum_nonneg; intros; apply count_zeros_range|].
  pose proof (zsum_le (fun w => count_zeros (byte_at bm w)) SLOTS 64) as H.
  specialize (H ltac:(intros; apply count_zeros_range)).
  rewrite SLOTS_Z in H. by change (64 * FRAME_SLOTS) with MARCOS in H.
Qed.

(** A rewrite of one word moves the count by what the word changes. *)
Lemma contar_insert bm i w :
  0 <= i < FRAME_SLOTS ->
  contar_de_nuevo (<[i := w]> bm) = contar_de_nuevo bm - count_zeros (byte_at bm i) + count_zeros w.
Proof.
  intros Hi. unfold contar_de_nuevo.
  rewrite (zsum_update (fun w => count_zeros (byte_at bm w)) _ _ i).
  - by rewrite byte_at_insert, decide_True.
  - by rewrite SLOTS_Z.
  - intros j Hj. by rewrite byte_at_insert, decide_False by congruence.
Qed.

Lemma frame_word f : 0 <= f < MARCOS -> 0 <= f / 64 < FRAME_SLOTS.
Proof. rewrite MARCOS_eq, FRAME_SLOTS_eq. lia. Qed.

Lemma contar_set_bit bm f : 0 <= f < MARCOS ->
  contar_de_nuevo (set_bit bm f) = contar_de_nuevo bm - Z.b2z (negb (used bm f)).
Proof.
  intros Hf. unfold set_bit. rewrite contar_insert by exact (frame_word _ Hf).
  rewrite (count_zeros_flip (byte_at bm (f / 64))
    (Z.lor (byte_at bm (f / 64)) (Z.shiftl 1 (f mod 64))) (f mod 64)).
  - rewrite used_testbit, testbit_setbit_iff, bool_decide_eq_true_2, orb_true_r by lia.
    destruct (Z.testbit _ _); simpl; lia.
  - lia.
  - intros i Hi. destruct (decide (0 <= i)); [|by rewrite !Z.testbit_neg_r by lia].
    rewrite testbit_setbit_iff, bool_decide_eq_false_2 by (done || lia). apply orb_false_r.
Qed.

Lemma contar_clear_bit bm f : words_ok bm -> 0 <= f < MARCOS ->
  contar_de_nuevo (clear_bit bm f) = contar_de_nuevo bm + Z.b2z (used bm f).
Proof.
  intros Hw Hf. unfold clear_bit. rewrite contar_insert by exact (frame_word _ Hf).
  rewrite (count_zeros_flip (byte_at bm (f / 64))
    (Z.land (byte_at bm (f / 64)) (not64 (Z.shiftl 1 (f mod 64)))) (f mod 64)); [|lia|].
  - rewrite used_testbit, Z.land_spec, testbit_not64, Z.shiftl_1_l, Z.pow2_bits_true by lia.
    rewrite (proj2 (Z.ltb_lt (f mod 64) 64)), andb_false_r by lia.
    generalize (contar_de_nuevo bm). intros c. simpl. lia.
  - intros i Hi. destruct (decide (0 <= i)); [|by rewrite !Z.testbit_neg_r by lia].
    destruct (decide (i < 64)).
    + rewrite Z.land_spec, testbit_not64, Z.shiftl_1_l, Z.pow2_bits_false by (done || lia).
      rewrite (proj2 (Z.ltb_lt i 64)) by done. apply andb_true_r.
    + rewrite Z.land_spec, (u64_high _ i); [done|apply Hw|lia].
Qed.

(** * The allocator's invariant *)

(** The words are [u64], the counter is the number of clear bits, and the
    owner table is consistent. *)
Record phys_ok (s : phys_st) : Prop := {
  ok_words : words_ok (bitmap s);
  ok_free : free_frames s = contar_de_nuevo (bitmap s);
  ok_tit : titular_ok (tit s)
}.

Lemma word_full_used bm f : byte_at bm (f / 64) = ones64 -> used bm f = true.
Proof.
  intros H. rewrite used_testbit, H. unfold ones64. apply Z.ones_spec_low. lia.
Qed.

Lemma contar_zero bm : words_ok bm ->
  contar_de_nuevo bm = 0 -> forall f, 0 <= f < MARCOS -> used bm f = true.
Proof.
  intros Hw H f Hf.
  pose proof (proj1 (zsum_zero (fun w => count_zeros (byte_at bm w)) SLOTS
    (fun i => proj1 (count_zeros_range _))) H (f / 64)) as Hz.
  rewrite SLOTS_Z in Hz.
  apply word_full_used, count_zeros_ones; [apply Hw|]. apply Hz. by apply frame_word.
Qed.

Lemma contar_full bm :
  (forall j, 0 <= j < FRAME_SLOTS -> byte_at bm j = ones64) -> contar_de_nuevo bm = 0.
Proof.
  intros H. unfold contar_de_nuevo.
  rewrite (zsum_const _ _ 0); [done|]. intros i Hi. rewrite SLOTS_Z in Hi.
  apply count_zeros_ones; [|by apply H]. rewrite H by done. split; done.
Qed.

Lemma used_contar_pos bm f : words_ok bm -> 0 <= f < MARCOS -> used bm f = false ->
  0 < contar_de_nuevo bm.
Proof.
  intros Hw Hf Hu. pose proof (contar_set_bit bm f Hf) as H. rewrite Hu in H. simpl in H.
  pose proof (contar_range (set_bit bm f)). lia.
Qed.

(** ** The search of [alloc_frame] *)

Lemma busca_Some bm i n j :
  0 <= i < FRAME_SLOTS -> busca bm i n = Some j ->
  0 <= j < FRAME_SLOTS /\ byte_at bm j <> ones64.
Proof.
  revert i. induction n as [|n IH]; intros i Hi; simpl; [done|]. case_if.
  - apply IH. rewrite FRAME_SLOTS_eq. lia.
  - intros [= <-]. bdestr. done.
Qed.

Lemma busca_None bm i n :
  0 <= i < FRAME_SLOTS -> busca bm i n = None ->
  forall k, 0 <= k < Z.of_nat n -> byte_at bm ((i + k) mod FRAME_SLOTS) = ones64.
Proof.
  revert i. induction n as [|n IH]; intros i Hi; cbn [busca]; [lia|]. case_if; [|done].
  intros H k Hk. bdestr. destruct (decide (k = 0)) as [->|].
  - rewrite Z.add_0_r, Z.mod_small by done. done.
  - rewrite FRAME_SLOTS_eq in *. specialize (IH ((i + 1) mod 65536) ltac:(lia) H (k - 1) ltac:(lia)).
    rewrite <- IH. f_equal. lia.
Qed.

Lemma busca_complete bm i :
  0 <= i < FRAME_SLOTS -> busca bm i SLOTS = None ->
  forall j, 0 <= j < FRAME_SLOTS -> byte_at bm j = ones64.
Proof.
  intros Hi H j Hj. pose proof (busca_None _ _ _ Hi H ((j - i) mod FRAME_SLOTS)) as Hn.
  rewrite SLOTS_Z in Hn. rewrite <- Hn.
  - f_equal. rewrite FRAME_SLOTS_eq in *. lia.
  - rewrite FRAME_SLOTS_eq. lia.
Qed.

(** [(!w).trailing_zeros()] is the lowest clear bit of [w]. *)
Lemma trailing_zeros_not w :
  is_u64 w -> w <> ones64 ->
  0 <= trailing_zeros (not64 w) < 64 /\ Z.testbit w (trailing_zeros (not64 w)) = false.
Proof.
  intros Hw Hne. unfold trailing_zeros.
  assert (Hbit : forall n i, seqZ 0 64 !! n = Some i -> i = Z.of_nat n /\ 0 <= i < 64).
  { intros n i Hi. apply lookup_seqZ in Hi. lia. }
  destruct (position _ _) as [n|] eqn:E.
  - apply position_Some in E as (i & Hi & Ht & _). destruct (Hbit _ _ Hi) as [-> Hr].
    split; [done|]. rewrite testbit_not64, (proj2 (Z.ltb_lt _ _)) in Ht by lia.
    by destruct (Z.testbit w _).
  - exfalso. apply Hne, count_zeros_ones; [done|]. unfold count_zeros.
    rewrite (zsum_const _ _ 0); [done|]. intros i Hi. rewrite position_None in E.
    specialize (E (Z.to_nat i) i). rewrite testbit_not64, (proj2 (Z.ltb_lt i 64)) in E by lia.
    rewrite lookup_seqZ in E. specialize (E ltac:(lia)).
    by destruct (Z.testbit w i).
Qed.

Lemma set_bit_word bm i b :
  0 <= b < 64 -> set_bit bm (i * 64 + b) = <[i := Z.lor (byte_at bm i) (Z.shiftl 1 b)]> bm.
Proof.
  intros Hb. unfold set_bit.
  replace ((i * 64 + b) / 64) with i by lia. by replace ((i * 64 + b) mod 64) with b by lia.
Qed.

Lemma frame_addr f : 0 <= f < MARCOS -> w64 (f * PAGE) = f * PAGE.
Proof. rewrite MARCOS_eq. intros. apply w64_small. unfold is_u64, PAGE. lia. Qed.

(** What a successful [alloc_frame] does to the state. *)
Lemma alloc_frame_inv s s' p :
  phys_ok s -> alloc_frame s = (s', Some p) ->
  exists f, 0 <= f < MARCOS /\ p = f * PAGE /\ used (bitmap s) f = false /\
    bitmap s' = set_bit (bitmap s) f /\ tit s' = marcar (tit s) p Anonimo /\
    free_frames s' = free_frames s - 1 /\ phys_ok s'.
Proof.
  intros [Hw Hf Ht]. unfold alloc_frame. case_if; [done|]. bdestr.
  destruct (busca _ _ _) as [i|] eqn:E; [|done]. intros [= <- <-].
  apply busca_Some in E as [Hi Hne]; [|rewrite FRAME_SLOTS_eq; lia].
  destruct (trailing_zeros_not (byte_at (bitmap s) i)) as [Hb Hbit]; [apply Hw|done|].
  set (b := trailing_zeros _) in *.
  assert (Hr : 0 <= i * 64 + b < MARCOS) by (rewrite MARCOS_eq; rewrite FRAME_SLOTS_eq in Hi; lia).
  assert (Hu : used (bitmap s) (i * 64 + b) = false).
  { rewrite used_testbit. replace ((i * 64 + b) / 64) with i by lia.
    by replace ((i * 64 + b) mod 64) with b by lia. }
  pose proof (contar_set_bit (bitmap s) _ Hr) as Hc. rewrite Hu in Hc. cbn [negb Z.b2z] in Hc.
  pose proof (contar_range (bitmap s)) as Hcr. pose proof (used_contar_pos _ _ Hw Hr Hu).
  rewrite MARCOS_eq in Hcr. cbn [bitmap tit free_frames].
  rewrite <- set_bit_word, frame_addr by done.
  assert (Hfree : w64 (free_frames s - 1) = free_frames s - 1)
    by (apply w64_small; unfold is_u64; lia).
  exists (i * 64 + b). rewrite Hfree. repeat (split; [assumption || reflexivity|]).
  split; cbn [bitmap tit free_frames]; [auto with bmo|lia|].
  apply marcar_ok; [assumption|]. unfold PAGE. lia.
Qed.

Lemma alloc_None s s' : phys_ok s -> alloc_frame s = (s', None) ->
  s' = s /\ forall f, 0 <= f < MARCOS -> used (bitmap s) f = true.
Proof.
  intros [Hw Hf Ht]. unfold alloc_frame. case_if.
  { intros [= <-]. bdestr. split; [done|]. apply contar_zero; [done|]. by rewrite <- Hf. }
  destruct (busca _ _ _) eqn:Eb; [done|]. intros _. exfalso. bdestr.
  match goal with H : free_frames s <> 0 |- _ => apply H end.
  rewrite Hf. apply contar_full. eapply busca_complete; [|exact Eb]. rewrite FRAME_SLOTS_eq. lia.
Qed.

(** C9: [alloc_frame] hands out a page-aligned frame of the mirror that was
    free, and that frame only: every other frame keeps its state, the free
    counter drops by one and stays exact.  It answers [None] exactly when no
    frame is free, and then nothing changes. *)
Theorem alloc_frame_spec s :
  phys_ok s ->
  match alloc_frame s with
  | (s', Some p) =>
      exists f, 0 <= f < MARCOS /\ p = f * PAGE /\ used (bitmap s) f = false /\
        (forall g, used (bitmap s') g = (f =? g) || used (bitmap s) g) /\
        free_frames s' = free_frames s - 1 /\ titular_de (tit s') p = Anonimo /\ phys_ok s'
  | (s', None) => s' = s /\ forall f, 0 <= f < MARCOS -> used (bitmap s) f = true
  end.
Proof.
  intros Hs. destruct (alloc_frame s) as [s' [p|]] eqn:E.
  - apply alloc_frame_inv in E as (f & Hf & -> & Hu & Hb & Ht & Hfree & Hs'); [|done].
    exists f. do 3 (split; [assumption || reflexivity|]). split; [|split; [assumption|split]].
    + intros g. rewrite Hb. apply used_set_bit.
    + rewrite Ht, titular_de_marcar by (exact Hf || exact Hf || apply Hs).
      by rewrite decide_True.
    + assumption.
  - by apply alloc_None.
Qed.

Lemma todas_llenas bm : words_ok bm -> (forall f, 0 <= f < MARCOS -> used bm f = true) ->
  forall j, 0 <= j < FRAME_SLOTS -> byte_at bm j = ones64.
Proof.
  intros Hw Hall j Hj. apply count_zeros_ones; [apply Hw|]. unfold count_zeros.
  rewrite (zsum_const _ _ 0); [done|]. intros i Hi.
  specialize (Hall (j * 64 + i)). rewrite used_testbit, MARCOS_eq in Hall.
  replace ((j * 64 + i) / 64) with j in Hall by lia.
  replace ((j * 64 + i) mod 64) with i in Hall by lia.
  rewrite FRAME_SLOTS_eq in Hj. by rewrite Hall by lia.
Qed.

Lemma contar_todo bm : words_ok bm -> (forall f, 0 <= f < MARCOS -> used bm f = true) -> contar_de_nuevo bm = 0.
Proof. intros Hw Hall. exact (contar_full _ (todas_llenas bm Hw Hall)). Qed.

(** The scan always ends.  Even with a free counter that lies -- any
    value, over a full bitmap -- [alloc_frame] answers [None] and leaves the
    counter recounted from the bitmap. *)
Theorem alloc_frame_repairs s :
  (forall f, 0 <= f < MARCOS -> used (bitmap s) f = true) -> words_ok (bitmap s) ->
  snd (alloc_frame s) = None /\ free_frames (fst (alloc_frame s)) = 0 /\
  bitmap (fst (alloc_frame s)) = bitmap s.
Proof.
  intros Hall Hw. unfold alloc_frame. case_if; [by bdestr|].
  pose proof (todas_llenas (bitmap s) Hw Hall) as Hones.
  destruct (busca _ _ _) as [i|] eqn:E.
  - apply busca_Some in E as [Hi Hne]; [|rewrite FRAME_SLOTS_eq; lia].
    exfalso. by apply Hne, Hones.
  - cbn [fst snd free_frames bitmap].
    repeat (split; [reflexivity || exact (contar_full _ Hones)|]). reflexivity.
Qed.

(** ** Runs of frames *)

Lemma set_run_used bm f n g :
  used (set_run bm f n) g = ((f <=? g) && (g <? f + Z.of_nat n)) || used bm g.
Proof.
  revert bm f. induction n as [|n IH]; intros bm f; cbn [set_run].
  - destruct ((f <=? g) && (g <? f + Z.of_nat 0)) eqn:E; bdestr; [lia|done].
  - rewrite IH, used_set_bit, orb_assoc. f_equal.
    destruct (decide (f = g)) as [->|Hne].
    + rewrite Z.eqb_refl, orb_true_r. symmetry. apply andb_true_iff.
      split; [apply Z.leb_le|apply Z.ltb_lt]; lia.
    + rewrite (proj2 (Z.eqb_neq f g)), orb_false_r by done.
      apply eq_iff_eq_true. rewrite !andb_true_iff, !Z.leb_le, !Z.ltb_lt. lia.
Qed.

Lemma words_set_run bm f n : words_ok bm -> words_ok (set_run bm f n).
Proof. revert bm f. induction n; intros; cbn [set_run]; auto with bmo. Qed.

Lemma contar_set_run bm f n :
  0 <= f -> f + Z.of_nat n <= MARCOS ->
  (forall g, f <= g < f + Z.of_nat n -> used bm g = false) ->
  contar_de_nuevo (set_run bm f n) = contar_de_nuevo bm - Z.of_nat n.
Proof.
  revert bm f. induction n as [|n IH]; intros bm f Hf Hm Hu; cbn [set_run].
  - generalize (contar_de_nuevo bm). lia.
  - rewrite IH; [|lia..|].
    + rewrite contar_set_bit, Hu by lia. generalize (contar_de_nuevo bm). simpl Z.b2z. lia.
    + intros g Hg. rewrite used_set_bit, Hu, (proj2 (Z.eqb_neq f g)) by lia. done.
Qed.

Lemma marca_run_ok n t f q : titular_ok t -> 0 <= f -> titular_ok (marca_run t f n q).
Proof.
  revert t f. induction n as [|n IH]; intros t f Ht Hf; cbn [marca_run]; [done|].
  apply IH; [|lia]. apply marcar_ok; [done|]. apply w64_range.
Qed.

(** A run of [count] frames starting at [f] that the scan could answer. *)
Definition hueco (bm : gmap Z Z) (f count : Z) : Prop :=
  0 <= f /\ f + count <= MARCOS /\ forall g, f <= g < f + count -> used bm g = false.

(** What the scan knows at [frame]: the last [run] frames are free, and no
    run of [count] frames starts before them. *)
Definition scan_inv (bm : gmap Z Z) (count run start frame : Z) : Prop :=
  0 <= run < count /\ (0 < run -> start + run = frame) /\ run <= frame /\
  (forall g, frame - run <= g < frame -> used bm g = false) /\
  (forall f, 0 <= f < frame - run -> ~ hueco bm f count).

Lemma scan_word bm count start frame :
  scan_inv bm count 0 start frame -> frame mod 64 = 0 -> byte_at bm (frame / 64) = ones64 ->
  scan_inv bm count 0 start (frame + 64).
Proof.
  intros (Hr & Hs & Hf & Hu & Hc) Hm Hw. unfold scan_inv. split_and!; try (intros; lia).
  intros f Hlt Hh. destruct (decide (f < frame)).
  - apply (Hc f); [lia|exact Hh].
  - destruct Hh as (H0 & _ & Hfree).
    specialize (Hfree f ltac:(lia)). rewrite word_full_used in Hfree; [done|].
    rewrite <- Hw. f_equal. lia.
Qed.

Lemma scan_free bm count run start frame :
  scan_inv bm count run start frame -> used bm frame = false -> run + 1 <> count ->
  scan_inv bm count (run + 1) (if run =? 0 then frame else start) (frame + 1).
Proof.
  intros (Hr & Hs & Hf & Hu & Hc) Hm Hw. unfold scan_inv. split_and!; try lia.
  - intros _. case_if; bdestr; lia.
  - intros g Hg. destruct (decide (g = frame)) as [->|]; [done|]. apply Hu. lia.
  - intros f Hlt. apply Hc. lia.
Qed.

Lemma scan_used bm count run start frame :
  scan_inv bm count run start frame -> used bm frame = true ->
  scan_inv bm count 0 start (frame + 1).
Proof.
  intros (Hr & Hs & Hf & Hu & Hc) Hm. unfold scan_inv. split_and!; try (intros; lia).
  intros f Hlt Hh. destruct (decide (f < frame - run)).
  - apply (Hc f); [lia|exact Hh].
  - destruct Hh as (H0 & Hle & Hfree). specialize (Hfree frame ltac:(lia)). congruence.
Qed.

Lemma contig_loop_spec bm count fuel : forall run start frame,
  scan_inv bm count run start frame -> MARCOS - frame < Z.of_nat fuel ->
  match contig_loop bm count run start frame fuel with
  | Some f => hueco bm f count
  | None => forall f, ~ hueco bm f count
  end.
Proof.
  induction fuel as [|fuel IH]; intros run start frame Hinv Hfuel; cbn [contig_loop].
  - intros f Hh. pose proof Hh as (H0 & Hle & _). destruct Hinv as (Hr & _ & Hf & _ & Hc).
    apply (Hc f); [lia|exact Hh].
  - change (FRAME_SLOTS * 64) with MARCOS.
    destruct (frame <? MARCOS) eqn:Em; bdestr; cbn [negb].
    2:{ intros f Hh. pose proof Hh as (H0 & Hle & _). destruct Hinv as (Hr & _ & Hf & _ & Hc).
        apply (Hc f); [lia|done]. }
    case_if; bdestr.
    { destruct_and?. subst. apply IH; [|lia]. by apply scan_word. }
    destruct (used bm frame) eqn:Eu; cbn [negb].
    { apply IH; [|lia]. by apply (scan_used _ _ run). }
    case_if; bdestr; [|apply IH; [by apply scan_free|lia]].
    destruct Hinv as (Hr & Hs & Hf & Hu & Hc).
    assert (Hst : (if run =? 0 then frame else start) = frame - run) by (case_if; bdestr; lia).
    rewrite Hst. split_and!; [lia..|].
    intros g Hg. destruct (decide (g = frame)) as [->|]; [done|]. apply Hu. lia.
Qed.

Lemma hueco_contar bm f count :
  0 < count -> hueco bm f count -> count <= contar_de_nuevo bm.
Proof.
  intros Hc (H0 & Hm & Hu).
  pose proof (contar_set_run bm f (Z.to_nat count)) as H.
  rewrite Z2Nat.id in H by lia. specialize (H H0 Hm Hu).
  pose proof (contar_range (set_run bm f (Z.to_nat count))). lia.
Qed.

Strategy 1000 [contig_loop].

Lemma alloc_frames_contig_cases s count :
  phys_ok s -> 0 < count ->
  match alloc_frames_contig s count with
  | (s', Some base) =>
      exists f, base = f * PAGE /\ hueco (bitmap s) f count /\
        (forall g, used (bitmap s') g =
           ((f <=? g) && (g <? f + count)) || used (bitmap s) g) /\
        free_frames s' = free_frames s - count /\ phys_ok s'
  | (s', None) => s' = s /\ forall f, ~ hueco (bitmap s) f count
  end.
Proof.
  intros [Hw Hf Ht] Hc. unfold alloc_frames_contig.
  rewrite (proj2 (Z.eqb_neq count 0)) by lia.
  case_if; bdestr.
  { split; [reflexivity|]. intros f Hh%hueco_contar; lia. }
  pose proof (contig_loop_spec (bitmap s) count (S (Z.to_nat (FRAME_SLOTS * 64))) 0 0 0) as Hl.
  destruct (contig_loop _ _ _ _ _ _) as [f|].
  2:{ split; [reflexivity|]. apply Hl.
      - unfold scan_inv. split_and!; try lia; intros; lia.
      - rewrite Nat2Z.inj_succ, Z2Nat.id by (rewrite FRAME_SLOTS_eq; lia).
        change (FRAME_SLOTS * 64) with MARCOS. lia. }
  specialize (Hl ltac:(unfold scan_inv; split_and!; try lia; intros; lia)
    ltac:(rewrite Nat2Z.inj_succ, Z2Nat.id by (rewrite FRAME_SLOTS_eq; lia);
          change (FRAME_SLOTS * 64) with MARCOS; lia)).
  pose proof Hl as (H0 & Hm & Hu). exists f.
  pose proof (hueco_contar _ _ _ Hc Hl). pose proof (contar_range (bitmap s)) as Hr.
  assert (Hfree : w64 (free_frames s - count) = free_frames s - count).
  { apply w64_small. unfold is_u64. rewrite MARCOS_eq in Hr. lia. }
  cbn [bitmap free_frames]. rewrite Hfree.
  split; [apply frame_addr; lia|]. split; [exact Hl|].
  split; [intros g; rewrite set_run_used, Z2Nat.id by lia; reflexivity|].
  split; [reflexivity|]. split; cbn [bitmap free_frames tit].
  - by apply words_set_run.
  - rewrite contar_set_run; rewrite ?Z2Nat.id by lia; [lia|assumption..].
  - by apply marca_run_ok.
Qed.

(** C38: for a positive [count], [alloc_frames_contig] hands out [count] adjacent frames that were all
    free, marks exactly those, and takes [count] off the counter; it answers
    [None] exactly when the bitmap has no such run, and then nothing
    changes.  The scan always ends. *)
Theorem alloc_frames_contig_spec s count :
  phys_ok s -> 0 < count ->
  match alloc_frames_contig s count with
  | (s', Some base) =>
      exists f, base = f * PAGE /\ hueco (bitmap s) f count /\
        (forall g, used (bitmap s') g =
           ((f <=? g) && (g <? f + count)) || used (bitmap s) g) /\
        free_frames s' = free_frames s - count /\ phys_ok s'
  | (s', None) => s' = s /\ forall f, ~ hueco (bitmap s) f count
  end.
Proof. apply alloc_frames_contig_cases. Qed.

Lemma marca_desde_ok n t b i q : titular_ok t -> titular_ok (marca_desde t b i n q).
Proof.
  revert t i. induction n as [|n IH]; intros t i Ht; cbn [marca_desde]; [done|].
  apply IH, marcar_ok; [done|]. apply w64_range.
Qed.

(** The declared variant differs in the owners only. *)
Lemma alloc_contig_de_inv s count q s' base :
  phys_ok s -> 0 < count -> alloc_frames_contig_de s count q = (s', Some base) ->
  exists f, base = f * PAGE /\ hueco (bitmap s) f count /\
    (forall g, used (bitmap s') g = ((f <=? g) && (g <? f + count)) || used (bitmap s) g) /\
    free_frames s' = free_frames s - count /\ phys_ok s'.
Proof.
  intros Hs Hc. unfold alloc_frames_contig_de.
  pose proof (alloc_frames_contig_cases s count Hs Hc) as H.
  destruct (alloc_frames_contig s count) as [s1 [b|]]; [|done]. intros [= <- <-].
  destruct H as (f & H1 & H2 & H3 & H4 & [H5 H6 H7]). exists f.
  split; [exact H1|]. split; [exact H2|]. split; [exact H3|]. split; [exact H4|].
  split; cbn [bitmap free_frames tit with_tit]; [exact H5|exact H6|by apply marca_desde_ok].
Qed.

(** ** Release *)

Lemma page_down_eq z : is_u64 z -> page_down z = z / PAGE * PAGE.
Proof.
  intros Hz. unfold page_down. change PAGE with (2 ^ 12).
  rewrite <- Z.shiftl_mul_pow2, <- Z.shiftr_div_pow2 by lia.
  apply Z.bits_inj'. intros i Hi. rewrite Z.land_spec, testbit_not64 by done.
  change (2 ^ 12 - 1) with (Z.ones 12). rewrite Z.testbit_ones by lia.
  rewrite (proj2 (Z.leb_le 0 i)) by done. destruct (decide (i < 12)).
  - rewrite Z.shiftl_spec_low by done. rewrite (proj2 (Z.ltb_lt i 12)), (proj2 (Z.ltb_lt i 64)) by lia.
    apply andb_false_r.
  - rewrite Z.shiftl_spec, Z.shiftr_spec by lia. replace (i - 12 + 12) with i by lia.
    rewrite (proj2 (Z.ltb_ge i 12)) by lia. destruct (decide (i < 64)).
    + rewrite (proj2 (Z.ltb_lt i 64)) by done. apply andb_true_r.
    + by rewrite u64_high by (done || lia).
Qed.

Lemma free_frame_used s f t :
  phys_ok s -> 0 <= f < MARCOS -> used (bitmap s) f = true ->
  free_frame s (f * PAGE) t =
    mkPhys (clear_bit (bitmap s) f) (total_frames s) (free_frames s + 1) (hint s)
      (tramos s) (dobles s) (dobles_n s) (marcar (tit s) (f * PAGE) Nadie).
Proof.
  intros [Hw Hf Ht] Hr Hu. unfold free_frame.
  assert (Hm : f * PAGE mod PAGE = 0) by (apply Z.mod_mul; done).
  assert (Hd : f * PAGE / PAGE = f) by (apply Z.div_mul; done).
  assert (Hb : (MAX_PHYS <=? f * PAGE) = false)
    by (apply Z.leb_gt; unfold MAX_PHYS, PHYSMAP_SIZE, PAGE; rewrite MARCOS_eq in Hr; lia).
  rewrite Hm, Hd, Hb, Hu. cbn [Z.eqb negb orb].
  pose proof (contar_range (bitmap s)) as Hc. rewrite MARCOS_eq in Hc.
  rewrite w64_small by (unfold is_u64; lia). reflexivity.
Qed.

Lemma free_frame_free s f t :
  0 <= f < MARCOS -> used (bitmap s) f = false ->
  free_frame s (f * PAGE) t = anotar_doble s (f * PAGE) t.
Proof.
  intros Hr Hu. unfold free_frame.
  assert (Hm : f * PAGE mod PAGE = 0) by (apply Z.mod_mul; done).
  assert (Hd : f * PAGE / PAGE = f) by (apply Z.div_mul; done).
  assert (Hb : (MAX_PHYS <=? f * PAGE) = false)
    by (apply Z.leb_gt; unfold MAX_PHYS, PHYSMAP_SIZE, PAGE; rewrite MARCOS_eq in Hr; lia).
  rewrite Hm, Hd, Hb, Hu. reflexivity.
Qed.

(** Giving back a frame in use keeps the allocator well formed. *)
Lemma free_frame_ok s f t :
  phys_ok s -> 0 <= f < MARCOS -> used (bitmap s) f = true ->
  phys_ok (free_frame s (f * PAGE) t).
Proof.
  intros Hs Hr Hu. rewrite free_frame_used by done. destruct Hs as [Hw Hf Ht].
  split; cbn [bitmap free_frames tit].
  - auto with bmo.
  - rewrite contar_clear_bit, Hu by done. rewrite Hf. reflexivity.
  - apply marcar_ok; [done|]. unfold PAGE. lia.
Qed.

(** Giving back what [alloc_frame] handed out restores the allocator: the
    same frames are free, the counter is back, and the frame has no owner. *)
Theorem alloc_free_roundtrip s s' p t :
  phys_ok s -> alloc_frame s = (s', Some p) ->
  (forall g, used (bitmap (free_frame s' p t)) g = used (bitmap s) g) /\
  free_frames (free_frame s' p t) = free_frames s /\
  titular_de (tit (free_frame s' p t)) p = Nadie /\
  phys_ok (free_frame s' p t).
Proof.
  intros Hs E. apply alloc_frame_inv in E as (f & Hf & -> & Hu & Hb & Ht & Hfr & Hs'); [|done].
  assert (Hus : used (bitmap s') f = true) by (by rewrite Hb, used_set_bit, Z.eqb_refl).
  split; [|split; [|split]].
  - intros g. rewrite free_frame_used by done. cbn [bitmap].
    rewrite used_clear_bit, Hb, used_set_bit. destruct (f =? g) eqn:E; bdestr; [by subst|done].
  - rewrite free_frame_used by done. cbn [free_frames]. rewrite Hfr. lia.
  - rewrite free_frame_used by done. cbn [tit].
    rewrite titular_de_marcar by (exact Hf || apply Hs'). by rewrite decide_True.
  - by apply free_frame_ok.
Qed.

Lemma se_devolvio_anotado s n p t :
  page_down p = p -> dobles s !! n = Some (p, t) -> t <> 0 ->
  se_devolvio_dos_veces s p <> None.
Proof.
  intros Hp Hn Ht. unfold se_devolvio_dos_veces. rewrite Hp.
  destruct (position _ _) as [i|] eqn:E.
  - apply position_Some in E as ([q u] & Hi & _). by rewrite Hi.
  - exfalso. rewrite position_None in E. specialize (E n (p, t) Hn). simpl in E.
    rewrite Z.eqb_refl, (proj2 (Z.eqb_neq t 0)) in E by done. done.
Qed.

(** A frame given back twice is not freed twice: the second call leaves
    the bitmap, the counter and the owners as the first one left them, and
    the address is in the book of double frees from then on. *)
Theorem double_free_logged s f t1 t2 :
  phys_ok s -> length (dobles s) = 8%nat -> 0 <= f < MARCOS ->
  used (bitmap s) f = true -> t2 <> 0 ->
  let s1 := free_frame s (f * PAGE) t1 in
  let s2 := free_frame s1 (f * PAGE) t2 in
  bitmap s2 = bitmap s1 /\ free_frames s2 = free_frames s1 /\ tit s2 = tit s1 /\
  se_devolvio_dos_veces s2 (f * PAGE) <> None.
Proof.
  intros Hs Hl Hf Hu Ht s1 s2.
  assert (Hu1 : used (bitmap s1) f = false).
  { unfold s1. rewrite free_frame_used by done. cbn [bitmap].
    by rewrite used_clear_bit, Z.eqb_refl. }
  assert (Hd1 : dobles s1 = dobles s) by (unfold s1; by rewrite free_frame_used by done).
  unfold s2. rewrite free_frame_free by done.
  do 3 (split; [reflexivity|]).
  assert (Hn : (Z.to_nat (dobles_n s1 mod DOBLES_FICHAS) < length (dobles s1))%nat)
    by (rewrite Hd1, Hl; unfold DOBLES_FICHAS; lia).
  eapply (se_devolvio_anotado _ (Z.to_nat (dobles_n s1 mod DOBLES_FICHAS)) _ t2); [| |done].
  - rewrite page_down_eq; [by rewrite Z.div_mul|].
    unfold is_u64, PAGE. rewrite MARCOS_eq in Hf. lia.
  - unfold anotar_doble. cbn [dobles]. by apply list_lookup_insert_eq.
Qed.

(** A frame taken in the name of [q] by [alloc_frame_de] can be given back
    by [q], which makes it free again with nobody as its owner; a claim by any
    other named owner is refused and changes nothing. *)
Theorem free_frame_de_owner s q s' p t :
  phys_ok s -> q <> Nadie -> q <> Anonimo -> alloc_frame_de s q = (s', Some p) ->
  titular_de (tit s') p = q /\
  (forall q', q' <> q -> q' <> Anonimo -> free_frame_de s' p t q' = (s', false)) /\
  snd (free_frame_de s' p t q) = true /\
  used (bitmap (fst (free_frame_de s' p t q))) (p / PAGE) = false /\
  titular_de (tit (fst (free_frame_de s' p t q))) p = Nadie.
Proof.
  intros Hs Hn Ha E. unfold alloc_frame_de in E.
  destruct (alloc_frame s) as [s1 [p1|]] eqn:E1; [|done]. injection E as <- ->.
  apply alloc_frame_inv in E1 as (f & Hf & -> & Hu & Hb & Ht & Hfr & Hs'); [|done].
  assert (Hd : titular_de (marcar (tit s1) (f * PAGE) q) (f * PAGE) = q).
  { rewrite titular_de_marcar by (exact Hf || apply Hs'). by rewrite decide_True. }
  assert (Hok : phys_ok (with_tit s1 (marcar (tit s1) (f * PAGE) q))).
  { destruct Hs'. split; [done..|]. apply marcar_ok; [done|]. unfold PAGE. lia. }
  assert (Hus : used (bitmap (with_tit s1 (marcar (tit s1) (f * PAGE) q))) f = true)
    by (cbn [bitmap with_tit]; by rewrite Hb, used_set_bit, Z.eqb_refl).
  split; [exact Hd|].
  unfold free_frame_de, puede_soltar. cbn [tit with_tit] in *. rewrite Hd.
  rewrite (bool_decide_eq_false_2 _ Ha), (bool_decide_eq_false_2 _ Hn). cbn [orb].
  split; [|rewrite (bool_decide_eq_true_2 (q = q)) by done; cbn [fst snd]; split; [done|]].
  - intros q' Hq Hq'. rewrite !bool_decide_eq_false_2 by congruence. done.
  - rewrite free_frame_used, Z.div_mul by done. cbn [bitmap tit]. split.
    + by rewrite used_clear_bit, Z.eqb_refl.
    + rewrite titular_de_marcar by (exact Hf || apply Hok). by rewrite decide_True.
Qed.

(** ** Start-up *)

Definition frange (a n : Z) (g : Z) : bool := (a <=? g) && (g <? a + n).

Lemma frange_S a n g : 0 <= n -> frange a (n + 1) g = (a =? g) || frange (a + 1) n g.
Proof.
  intros. unfold frange. apply eq_iff_eq_true.
  rewrite orb_true_iff, !andb_true_iff, !Z.leb_le, !Z.ltb_lt, Z.eqb_eq. lia.
Qed.

Lemma frange_0 a g : frange a 0 g = false.
Proof. unfold frange. apply not_true_iff_false. rewrite andb_true_iff, Z.leb_le, Z.ltb_lt. lia. Qed.

(** A counter that follows the number of clear bits. *)
Definition counted (bm : gmap Z Z) (free : Z) : Prop :=
  words_ok bm /\ free = contar_de_nuevo bm.

Lemma counted_set bm free f : counted bm free -> 0 <= f < MARCOS -> used bm f = false ->
  counted (set_bit bm f) (w64 (free - 1)).
Proof.
  intros [Hw ->] Hf Hu. split; [auto with bmo|].
  pose proof (contar_set_bit bm f Hf) as H. rewrite Hu in H. cbn [negb Z.b2z] in H.
  pose proof (contar_range (set_bit bm f)) as Hr. rewrite MARCOS_eq in Hr.
  rewrite w64_small; [|unfold is_u64]; lia.
Qed.

Lemma counted_clear bm free f : counted bm free -> 0 <= f < MARCOS -> used bm f = true ->
  counted (clear_bit bm f) (w64 (free + 1)).
Proof.
  intros [Hw ->] Hf Hu. split; [auto with bmo|].
  pose proof (contar_clear_bit bm f Hw Hf) as H. rewrite Hu in H. cbn [Z.b2z] in H.
  pose proof (contar_range (clear_bit bm f)) as Hr. rewrite MARCOS_eq in Hr.
  rewrite w64_small; [|unfold is_u64]; lia.
Qed.

Lemma reserva_loop_spec n : forall bm free f,
  counted bm free -> 0 <= f -> f + Z.of_nat n <= MARCOS ->
  let r := reserva_loop bm free (f * PAGE) n in
  counted (fst r) (snd r) /\
  forall g, used (fst r) g = frange f (Z.of_nat n) g || used bm g.
Proof.
  induction n as [|n IH]; intros bm free f Hc Hf Hm; cbn [reserva_loop].
  { split; [exact Hc|]. intros g. by rewrite frange_0. }
  rewrite Z.div_mul by done.
  replace (f * PAGE + PAGE) with ((f + 1) * PAGE) by lia.
  rewrite Nat2Z.inj_succ. unfold Z.succ.
  destruct (used bm f) eqn:Eu.
  - destruct (IH bm free (f + 1) Hc ltac:(lia) ltac:(lia)) as [H1 H2]. split; [exact H1|].
    intros g. rewrite H2, frange_S by lia. destruct (f =? g) eqn:E; bdestr; [|done].
    subst. rewrite Eu. by rewrite orb_true_r.
  - destruct (IH (set_bit bm f) (w64 (free - 1)) (f + 1)) as [H1 H2];
      [apply counted_set; [exact Hc|lia|exact Eu]|lia|lia|].
    split; [exact H1|]. intros g. rewrite H2, frange_S, used_set_bit by lia.
    by rewrite orb_assoc, (orb_comm (frange _ _ _)).
Qed.

Lemma libera_loop_spec n : forall bm total free f,
  counted bm free -> 0 <= f -> f + Z.of_nat n <= MARCOS ->
  let r := libera_loop bm total free (f * PAGE) n in
  counted (fst (fst r)) (snd r) /\
  forall g, used (fst (fst r)) g = negb (frange f (Z.of_nat n) g) && used bm g.
Proof.
  induction n as [|n IH]; intros bm total free f Hc Hf Hm; cbn [libera_loop].
  { split; [exact Hc|]. intros g. by rewrite frange_0. }
  rewrite Z.div_mul by done.
  replace (f * PAGE + PAGE) with ((f + 1) * PAGE) by lia.
  rewrite Nat2Z.inj_succ. unfold Z.succ.
  destruct (used bm f) eqn:Eu.
  - destruct (IH (clear_bit bm f) (w64 (total + 1)) (w64 (free + 1)) (f + 1)) as [H1 H2];
      [apply counted_clear; [exact Hc|lia|exact Eu]|lia|lia|].
    split; [exact H1|]. intros g. rewrite H2, frange_S, used_clear_bit by lia.
    by destruct (f =? g), (frange (f + 1) (Z.of_nat n) g), (used bm g).
  - destruct (IH bm total free (f + 1) Hc ltac:(lia) ltac:(lia)) as [H1 H2]. split; [exact H1|].
    intros g. rewrite H2, frange_S by lia. destruct (f =? g) eqn:E; bdestr; [|done].
    subst. rewrite Eu. by rewrite andb_false_r.
Qed.

(** Frame [g] meets the bytes [b .. b + sz). *)
Definition toca (b sz g : Z) : bool := (b <? (g + 1) * PAGE) && (g * PAGE <? b + sz) && (0 <? sz).
(** Frame [g] lies inside the bytes [b .. b + sz). *)
Definition dentro (b sz g : Z) : bool := (b <=? g * PAGE) && ((g + 1) * PAGE <=? b + sz).

Definition entra (b sz : Z) : Prop := 0 <= b /\ 0 <= sz /\ b + sz + PAGE - 1 < 2 ^ 64.

(** The three counters [init] starts from are consistent. *)
Definition phys_counted (s : phys_st) : Prop := counted (bitmap s) (free_frames s).

Lemma frames_between a fin : 0 <= a -> Z.of_nat (paginas (a * PAGE) (fin * PAGE)) = Z.max 0 (fin - a).
Proof. intros. unfold paginas, PAGE. lia. Qed.

Lemma reserve_range_spec s b sz :
  phys_counted s -> entra b sz ->
  phys_counted (reserve_range s b sz) /\ tit (reserve_range s b sz) = tit s /\
  forall g, 0 <= g < MARCOS ->
    used (bitmap (reserve_range s b sz)) g = toca b sz g || used (bitmap s) g.
Proof.
  intros Hc (Hb & Hsz & Hlt). unfold reserve_range.
  case_if.
  { split; [exact Hc|split; [reflexivity|]]. intros g Hg. apply eq_iff_eq_true. unfold toca.
    rewrite orb_true_iff, !andb_true_iff, !Z.ltb_lt. rewrite orb_true_iff in Heqb0.
    rewrite Z.eqb_eq, Z.leb_le in Heqb0. unfold MAX_PHYS, PHYSMAP_SIZE, PAGE in *.
    rewrite MARCOS_eq in Hg. destruct (used (bitmap s) g); intuition lia. }
  bdestr. unfold PAGE in Hlt.
  rewrite (page_down_eq b) by (unfold is_u64; lia).
  rewrite (w64_small (b + sz + PAGE - 1)) by (unfold is_u64, PAGE; lia).
  rewrite page_down_eq by (unfold is_u64, PAGE; lia).
  set (e := (b + sz + PAGE - 1) / PAGE).
  assert (Hfin : (if MAX_PHYS <? e * PAGE then MAX_PHYS else e * PAGE) = Z.min e MARCOS * PAGE).
  { unfold MAX_PHYS, PHYSMAP_SIZE, PAGE. rewrite MARCOS_eq. case_if; bdestr; lia. }
  rewrite Hfin.
  assert (He : b / PAGE < e) by (unfold e, PAGE; lia).
  assert (Hbm : b / PAGE < MARCOS)
    by (rewrite MARCOS_eq; unfold MAX_PHYS, PHYSMAP_SIZE, PAGE in *; lia).
  assert (Hb0 : 0 <= b / PAGE) by (unfold PAGE; lia).
  pose proof (frames_between (b / PAGE) (Z.min e MARCOS) Hb0) as Hn.
  pose proof (reserva_loop_spec (paginas (b / PAGE * PAGE) (Z.min e MARCOS * PAGE))
    (bitmap s) (free_frames s) (b / PAGE) Hc Hb0) as Hl.
  rewrite Hn in Hl. specialize (Hl ltac:(lia)). cbv zeta in Hl.
  destruct (reserva_loop _ _ _ _) as [bm free]. cbn [fst snd] in Hl.
  destruct Hl as [H1 H2]. split; [exact H1|split; [reflexivity|]].
  intros g Hg. cbn [bitmap]. rewrite H2. f_equal. apply eq_iff_eq_true. unfold frange, toca.
  rewrite !andb_true_iff, Z.leb_le, !Z.ltb_lt. unfold e, PAGE in *. lia.
Qed.

Definition usable (e : MemoryEntry) : bool := (e_kind e =? 1) && negb (e_size e =? 0).

Lemma init_entry_spec s e :
  phys_counted s -> entra (e_base e) (e_size e) ->
  phys_counted (init_entry s e) /\ tit (init_entry s e) = tit s /\
  forall g, 0 <= g < MARCOS ->
    used (bitmap (init_entry s e)) g =
      negb (usable e && dentro (e_base e) (e_size e) g) && used (bitmap s) g.
Proof.
  intros Hc (Hb & Hsz & Hlt). unfold init_entry, usable. unfold PAGE in Hlt.
  destruct (e_kind e =? 1) eqn:Ek; cbn [negb orb andb]; [|by repeat (split; [assumption || reflexivity|])].
  destruct (e_size e =? 0) eqn:Es; cbn [negb orb andb]; [by repeat (split; [assumption || reflexivity|])|].
  bdestr.
  rewrite (w64_small (e_base e + PAGE - 1)) by (unfold is_u64, PAGE; lia).
  rewrite (w64_small (e_base e + e_size e)) by (unfold is_u64, PAGE; lia).
  rewrite !page_down_eq by (unfold is_u64, PAGE; lia).
  set (a := (e_base e + PAGE - 1) / PAGE). set (z := (e_base e + e_size e) / PAGE).
  case_if; bdestr.
  { split; [exact Hc|split; [reflexivity|]]. intros g Hg. cbn [bitmap].
    assert (dentro (e_base e) (e_size e) g = false) as ->; [|done].
    apply not_true_iff_false. unfold dentro. rewrite andb_true_iff, !Z.leb_le.
    unfold a, MAX_PHYS, PHYSMAP_SIZE, PAGE in *. rewrite MARCOS_eq in Hg. lia. }
  assert (Hfin : (if MAX_PHYS <? z * PAGE then MAX_PHYS else z * PAGE) = Z.min z MARCOS * PAGE).
  { unfold MAX_PHYS, PHYSMAP_SIZE, PAGE. rewrite MARCOS_eq. case_if; bdestr; lia. }
  rewrite Hfin.
  assert (Ha : 0 <= a < MARCOS)
    by (rewrite MARCOS_eq; unfold a, MAX_PHYS, PHYSMAP_SIZE, PAGE in *; lia).
  pose proof (frames_between a (Z.min z MARCOS) (proj1 Ha)) as Hn.
  pose proof (libera_loop_spec (paginas (a * PAGE) (Z.min z MARCOS * PAGE))
    (bitmap s) (total_frames s) (free_frames s) a Hc (proj1 Ha)) as Hl.
  rewrite Hn in Hl. specialize (Hl ltac:(lia)). cbv zeta in Hl.
  destruct (libera_loop _ _ _ _ _) as [[bm total] free]. cbn [fst snd] in Hl.
  destruct Hl as [H1 H2]. split; [exact H1|split; [reflexivity|]].
  intros g Hg. cbn [bitmap]. rewrite H2. f_equal. f_equal. apply eq_iff_eq_true.
  unfold frange, dentro. rewrite !andb_true_iff, !Z.leb_le, !Z.ltb_lt. unfold a, z, PAGE in *. lia.
Qed.

Lemma byte_at_const (l : list Z) c w :
  w ∈ l -> byte_at (list_to_map ((fun w => (w, c)) <$> l)) w = c.
Proof.
  induction l as [|x l IH]; intros H; [by apply not_elem_of_nil in H|].
  rewrite fmap_cons, list_to_map_cons, byte_at_insert. case_decide; [done|].
  apply IH. apply elem_of_cons in H as [->|]; done.
Qed.

Lemma todo_ocupado_word w : 0 <= w < FRAME_SLOTS -> byte_at todo_ocupado w = ones64.
Proof. intros Hw. unfold todo_ocupado. apply byte_at_const, elem_of_seqZ. lia. Qed.

Lemma todo_ocupado_counted : counted todo_ocupado 0.
Proof.
  split.
  - intros w. destruct (decide (0 <= w < FRAME_SLOTS)).
    + rewrite todo_ocupado_word by done. split; done.
    + unfold byte_at, todo_ocupado. rewrite not_elem_of_list_to_map_1; [split; done|].
      intros (x & Hx & Hin)%list_elem_of_fmap. apply list_elem_of_fmap in Hin as (y & -> & Hy).
      apply elem_of_seqZ in Hy. simpl in Hx. subst. lia.
  - symmetry. apply contar_full, todo_ocupado_word.
Qed.

Lemma todo_ocupado_used f : 0 <= f < MARCOS -> used todo_ocupado f = true.
Proof. intros Hf. by apply word_full_used, todo_ocupado_word, frame_word. Qed.

Lemma foldl_reserve l : forall s,
  phys_counted s -> Forall (fun br => entra br.1 br.2) l ->
  let s' := foldl (fun s br => reserve_range s br.1 br.2) s l in
  phys_counted s' /\ tit s' = tit s /\
  forall g, 0 <= g < MARCOS ->
    used (bitmap s') g = existsb (fun br => toca br.1 br.2 g) l || used (bitmap s) g.
Proof.
  induction l as [|[b sz] l IH]; intros s Hc Hl; cbn [foldl existsb].
  { by repeat (split; [assumption || reflexivity|]). }
  apply Forall_cons in Hl as [Hbs Hl]. cbn [fst snd] in *.
  destruct (reserve_range_spec s b sz Hc Hbs) as (H1 & H2 & H3).
  destruct (IH _ H1 Hl) as (H4 & H5 & H6). split; [exact H4|]. split; [congruence|].
  intros g Hg. rewrite H6, H3 by done. rewrite orb_assoc. f_equal. apply orb_comm.
Qed.

Lemma foldl_entries l : forall s,
  phys_counted s -> Forall (fun e => entra (e_base e) (e_size e)) l ->
  let s' := foldl init_entry s l in
  phys_counted s' /\ tit s' = tit s /\
  forall g, 0 <= g < MARCOS ->
    used (bitmap s') g =
      negb (existsb (fun e => usable e && dentro (e_base e) (e_size e) g) l) && used (bitmap s) g.
Proof.
  induction l as [|e l IH]; intros s Hc Hl; cbn [foldl existsb].
  { by repeat (split; [assumption || reflexivity|]). }
  apply Forall_cons in Hl as [Hbs Hl].
  destruct (init_entry_spec s e Hc Hbs) as (H1 & H2 & H3).
  destruct (IH _ H1 Hl) as (H4 & H5 & H6). split; [exact H4|]. split; [congruence|].
  intros g Hg. rewrite H6, H3 by done. rewrite negb_orb, andb_assoc. f_equal. apply andb_comm.
Qed.

Lemma init_cases s ctx kernel_end ctx_addr ctx_size :
  titular_ok (tit s) ->
  Forall (fun e => entra (e_base e) (e_size e)) (memory_map ctx) ->
  Forall (fun br => entra br.1 br.2) (reservas ctx kernel_end ctx_addr ctx_size) ->
  phys_ok (init s ctx kernel_end ctx_addr ctx_size) /\
  forall g, 0 <= g < MARCOS ->
    used (bitmap (init s ctx kernel_end ctx_addr ctx_size)) g =
      negb (existsb (fun e => usable e && dentro (e_base e) (e_size e) g) (memory_map ctx))
      || existsb (fun br => toca br.1 br.2 g) (reservas ctx kernel_end ctx_addr ctx_size).
Proof.
  intros Ht Hm Hr. unfold init.
  set (s0 := mkPhys todo_ocupado 0 0 0 [] (dobles s) (dobles_n s) (tit s)).
  assert (H0 : phys_counted s0) by apply todo_ocupado_counted.
  destruct (foldl_entries _ s0 H0 Hm) as (H1 & H2 & H3).
  destruct (foldl_reserve _ _ H1 Hr) as (H4 & H5 & H6). split.
  - destruct H4 as [Hw Hf]. split; [exact Hw|exact Hf|].
    rewrite H5, H2. exact Ht.
  - intros g Hg. rewrite H6, H3 by done. unfold s0. cbn [bitmap].
    rewrite todo_ocupado_used by done. by rewrite andb_true_r, orb_comm.
Qed.

(** The map [tramos] keeps: the usable entries in order, the first
    [MAX_TRAMOS] of them. *)
Definition tramo_de (e : MemoryEntry) : Tramo := mkTramo (e_base e) (e_size e) true.

Lemma init_entry_tramos s e :
  tramos (init_entry s e) =
    if usable e && (length (tramos s) <? MAX_TRAMOS)%nat then tramos s ++ [tramo_de e] else tramos s.
Proof.
  unfold init_entry, usable. destruct (e_kind e =? 1), (e_size e =? 0); cbn [negb orb andb]; try done.
  case_if; [done|]. by destruct (libera_loop _ _ _ _ _) as [[??]?].
Qed.

Lemma reserve_range_tramos s b sz : tramos (reserve_range s b sz) = tramos s.
Proof. unfold reserve_range. case_if; [done|]. by destruct (reserva_loop _ _ _ _). Qed.

Lemma foldl_entries_tramos l : forall s,
  (length (tramos s) + length l <= MAX_TRAMOS)%nat ->
  forall e, e ∈ l -> usable e = true -> tramo_de e ∈ tramos (foldl init_entry s l).
Proof.
  assert (Hkeep : forall l s t, t ∈ tramos s -> t ∈ tramos (foldl init_entry s l)).
  { induction l0 as [|e l0 IH]; intros s t Ht; [done|]. apply IH.
    rewrite init_entry_tramos. case_if; [apply elem_of_app; by left|done]. }
  induction l as [|e0 l IH]; intros s Hlen e He Hu; [by apply not_elem_of_nil in He|].
  cbn [foldl length] in *. apply elem_of_cons in He as [->|He].
  - apply Hkeep. rewrite init_entry_tramos, Hu, (proj2 (Nat.ltb_lt _ _)) by lia.
    apply elem_of_app. right. by apply list_elem_of_singleton.
  - apply IH; [|done..]. rewrite init_entry_tramos. case_if; [rewrite length_app; simpl|]; lia.
Qed.

Lemma foldl_reserve_tramos l : forall s,
  tramos (foldl (fun s br => reserve_range s br.1 br.2) s l) = tramos s.
Proof.
  induction l as [|br l IH]; intros s; [done|]. cbn [foldl]. by rewrite IH, reserve_range_tramos.
Qed.

Lemma init_tramos s ctx kernel_end ctx_addr ctx_size e :
  (length (memory_map ctx) <= MAX_TRAMOS)%nat -> e ∈ memory_map ctx -> usable e = true ->
  tramo_de e ∈ tramos (init s ctx kernel_end ctx_addr ctx_size).
Proof.
  intros Hl He Hu. unfold init.
  rewrite foldl_reserve_tramos. by apply foldl_entries_tramos.
Qed.

(** After [init] a frame is free exactly when it lies wholly inside a
    usable entry of the loader's map and meets none of the kernel's
    reservations (low memory, kernel image, stages, boot context, framebuffer,
    APIC window, crash area, payload, workspace); the free counter is the
    number of such frames. *)
Theorem init_spec s ctx kernel_end ctx_addr ctx_size :
  titular_ok (tit s) ->
  Forall (fun e => entra (e_base e) (e_size e)) (memory_map ctx) ->
  Forall (fun br => entra br.1 br.2) (reservas ctx kernel_end ctx_addr ctx_size) ->
  phys_ok (init s ctx kernel_end ctx_addr ctx_size) /\
  forall g, 0 <= g < MARCOS ->
    used (bitmap (init s ctx kernel_end ctx_addr ctx_size)) g =
      negb (existsb (fun e => usable e && dentro (e_base e) (e_size e) g) (memory_map ctx))
      || existsb (fun br => toca br.1 br.2 g) (reservas ctx kernel_end ctx_addr ctx_size).
Proof. exact (init_cases s ctx kernel_end ctx_addr ctx_size). Qed.

(** ** Concrete runs *)

(** 16 GiB of free frames, and the same after one allocation. *)
Definition phys_demo : phys_st :=
  mkPhys ∅ MARCOS MARCOS 0 [] (replicate 8 (0, 0)) 0 titular_init.
Definition phys_demo1 : phys_st := fst (alloc_frame phys_demo).

Lemma phys_demo_ok : phys_ok phys_demo.
Proof.
  split; cbn [phys_demo bitmap free_frames tit].
  - intros i. unfold byte_at. rewrite lookup_empty. split; done.
  - unfold contar_de_nuevo. rewrite (zsum_const _ _ 64).
    + rewrite SLOTS_Z. reflexivity.
    + intros i _. unfold byte_at. by rewrite lookup_empty.
  - apply titular_init_ok.
Qed.

Lemma phys_demo_alloc : alloc_frame phys_demo = (phys_demo1, Some (0 * PAGE)).
Proof. unfold phys_demo1. rewrite (surjective_pairing (alloc_frame phys_demo)). reflexivity. Qed.

Lemma phys_demo1_ok : phys_ok phys_demo1 /\ used (bitmap phys_demo1) 0 = true.
Proof.
  pose proof (alloc_frame_inv _ _ _ phys_demo_ok phys_demo_alloc) as (f & _ & Hp & _ & Hb & _ & _ & Hs).
  split; [done|]. assert (f = 0) as -> by (unfold PAGE in Hp; lia).
  by rewrite Hb, used_set_bit.
Qed.

Lemma alloc_frame_spec_witness :
  snd (alloc_frame phys_demo) = Some 0 /\
  exists f, 0 * PAGE = f * PAGE /\ free_frames phys_demo1 = MARCOS - 1 /\ phys_ok phys_demo1.
Proof.
  split; [by rewrite phys_demo_alloc|]. exists 0.
  pose proof (alloc_frame_spec phys_demo phys_demo_ok) as H. rewrite phys_demo_alloc in H.
  destruct H as (f & _ & Hp & _ & _ & Hf & _ & Hs). by split_and!.
Defined.

Lemma alloc_frame_repairs_witness :
  words_ok todo_ocupado /\
  let s := mkPhys todo_ocupado 0 7 0 [] [] 0 titular_init in
  snd (alloc_frame s) = None /\ free_frames (fst (alloc_frame s)) = 0.
Proof.
  split; [apply todo_ocupado_counted|]. intros s.
  destruct (alloc_frame_repairs s) as (H1 & H2 & _).
  - exact todo_ocupado_used.
  - apply todo_ocupado_counted.
  - exact (conj H1 H2).
Defined.

Lemma phys_demo_hueco n : 0 < n <= MARCOS -> hueco (bitmap phys_demo) 0 n.
Proof.
  intros Hn. unfold hueco. split; [lia|split; [lia|]].
  intros g Hg. rewrite used_testbit. unfold byte_at. cbn [phys_demo bitmap].
  rewrite lookup_empty. apply Z.bits_0.
Qed.

Lemma alloc_frames_contig_spec_witness :
  hueco (bitmap phys_demo) 0 3 /\ snd (alloc_frames_contig phys_demo 3) <> None.
Proof.
  assert (Hh : hueco (bitmap phys_demo) 0 3) by (apply phys_demo_hueco; rewrite MARCOS_eq; lia).
  split; [exact Hh|].
  pose proof (alloc_frames_contig_spec phys_demo 3 phys_demo_ok ltac:(lia)) as H.
  destruct (alloc_frames_contig phys_demo 3) as [s' [b|]]; [discriminate|].
  exfalso. exact (proj2 H 0 Hh).
Defined.

Lemma alloc_free_roundtrip_witness :
  free_frames (free_frame phys_demo1 (0 * PAGE) 5) = MARCOS /\
  titular_de (tit (free_frame phys_demo1 (0 * PAGE) 5)) (0 * PAGE) = Nadie.
Proof.
  destruct (alloc_free_roundtrip phys_demo phys_demo1 (0 * PAGE) 5 phys_demo_ok phys_demo_alloc)
    as (_ & H1 & H2 & _).
  exact (conj H1 H2).
Defined.

Lemma double_free_logged_witness :
  se_devolvio_dos_veces
    (free_frame (free_frame phys_demo1 (0 * PAGE) 5) (0 * PAGE) 6) (0 * PAGE) <> None.
Proof.
  apply (double_free_logged phys_demo1 0 5 6);
    [apply phys_demo1_ok|reflexivity|rewrite MARCOS_eq; lia|apply phys_demo1_ok|lia].
Defined.

Lemma free_frame_de_owner_witness :
  exists s', alloc_frame_de phys_demo Bufer = (s', Some (0 * PAGE)) /\
    free_frame_de s' (0 * PAGE) 5 Kernel = (s', false).
Proof.
  assert (E : alloc_frame_de phys_demo Bufer =
    (with_tit phys_demo1 (marcar (tit phys_demo1) (0 * PAGE) Bufer), Some (0 * PAGE)))
    by (unfold alloc_frame_de; by rewrite phys_demo_alloc).
  eexists. split; [exact E|].
  apply (free_frame_de_owner phys_demo Bufer _ (0 * PAGE) 5 phys_demo_ok); [done|done|exact E|done|done].
Defined.

(** One usable entry of 256 MiB from 1 MiB on. *)
Definition boot_demo : BootContext :=
  mkBoot [mkEntry 0x100000 0x10000000 1] [(0x800000, 0x100000)] 0 0 0 0 0 0 0.

Lemma boot_demo_entra :
  Forall (fun e => entra (e_base e) (e_size e)) (memory_map boot_demo) /\
  Forall (fun br => entra br.1 br.2) (reservas boot_demo 0x600000 0x300000 4096).
Proof.
  split; [repeat constructor; unfold PAGE; cbn; lia|].
  assert (E : reservas boot_demo 0x600000 0x300000 4096 =
    [(0, 0x100000); (0x400000, 0x200000); (0x800000, 0x100000); (0x300000, 4096);
     (0xFEC00000, 0x1400000); (0x4000000, 0x40000)]) by (vm_compute; reflexivity).
  rewrite E. repeat (apply Forall_cons_2; [unfold entra, PAGE; cbn; lia|]). apply Forall_nil_2.
Qed.

Lemma init_spec_witness :
  let s := init phys_bss boot_demo 0x600000 0x300000 4096 in
  phys_ok s /\ used (bitmap s) 0 = true /\ used (bitmap s) 0x500 = true /\
  used (bitmap s) 0x700 = false.
Proof.
  intros s. destruct (init_spec phys_bss boot_demo 0x600000 0x300000 4096) as [H1 H2];
    [apply titular_init_ok|apply boot_demo_entra..|].
  split; [exact H1|]. unfold s. rewrite !H2 by (rewrite MARCOS_eq; lia). split_and!; reflexivity.
Defined.

Lemma boot_demo_tramos :
  tramos (init phys_bss boot_demo 0x600000 0x300000 4096) = [mkTramo 0x100000 0x10000000 true].
Proof.
  assert (E : memory_map boot_demo = [mkEntry 0x100000 0x10000000 1]) by reflexivity.
  unfold init. rewrite foldl_reserve_tramos, E. cbn [foldl]. rewrite init_entry_tramos. reflexivity.
Qed.
