(* ===== verification/Channel.v ===== *)
(** The BMO channel: two rings of [RING_SIZE] entries in a page shared by
    Ring 3 and Ring 0, and the kernel's service loop over the channels.
    Source: src/platform/shared/bmo-channel/src/lib.rs and
    src/Ultra_kernel_x86-64/kernel/src/ring0/obj/channel.rs.

    The abstract specification is a pair of bounded FIFO queues
    ([spec_st], [spec_step]); [channel_refines] shows that the rings, their
    four free-running counters and their [% RING_SIZE] indexing implement it.
    Handlers are [FnMut]: they thread a state [S] of their own and do not
    touch the page. *)

From S2P Require Import Prelude Cap.

Definition CHANNEL_MAGIC : Z := 0x424D4F43.
Definition RING_SIZE : Z := 62.

Record ChannelEntry := mkEnt { opcode : Z; arg0 : Z; arg1 : Z; arg2 : Z }.

#[export] Instance ChannelEntry_eq_dec : EqDecision ChannelEntry.
Proof. solve_decision. Defined.
#[export] Instance ChannelEntry_inhabited : Inhabited ChannelEntry := populate (mkEnt 0 0 0 0).

Record Channel := mkChannel {
  magic : Z; doorbell : Z;
  submit_head : Z; submit_tail : Z; complete_head : Z; complete_tail : Z;
  submit_ring : list ChannelEntry; complete_ring : list ChannelEntry
}.

(** [&self.ring[(i % RING_SIZE) as usize]]. *)
Definition slot (i : Z) : nat := Z.to_nat (i mod RING_SIZE).

Definition init (c : Channel) : Channel :=
  mkChannel CHANNEL_MAGIC 0 0 0 0 0 (submit_ring c) (complete_ring c).

Definition ring0_complete (c : Channel) (e : ChannelEntry) : Channel * bool :=
  let head := complete_head c in
  let tail := complete_tail c in
  if RING_SIZE <=? w64 (head - tail) then (c, false)
  else (mkChannel (magic c) (doorbell c) (submit_head c) (submit_tail c) (w64 (head + 1)) tail
          (submit_ring c) (<[slot head := e]> (complete_ring c)), true).

(** ** Ring 3 *)

Definition ring3_submit (c : Channel) (e : ChannelEntry) : Channel * bool :=
  let head := submit_head c in
  let tail := submit_tail c in
  if RING_SIZE <=? w64 (head - tail) then (c, false)
  else (mkChannel (magic c) (doorbell c) (w64 (head + 1)) tail (complete_head c) (complete_tail c)
          (<[slot head := e]> (submit_ring c)) (complete_ring c), true).

Definition set_doorbell (c : Channel) (v : Z) : Channel :=
  mkChannel (magic c) v (submit_head c) (submit_tail c) (complete_head c) (complete_tail c)
    (submit_ring c) (complete_ring c).
Definition ring3_doorbell (c : Channel) : Channel := set_doorbell c 1.

Definition ring3_send (c : Channel) (e : ChannelEntry) : Channel * bool :=
  match ring3_submit c e with
  | (c, true) => (ring3_doorbell c, true)
  | (c, false) => (c, false)
  end.

(** The loop of [ring3_poll_n]: the entries handed to the callback, the tail
    and the count. *)
Fixpoint poll_loop (c : Channel) (head tail : Z) (n : nat) : list ChannelEntry * Z * Z :=
  match n with
  | O => ([], tail, 0)
  | S n =>
      if tail <? head then
        let e := complete_ring c !!! slot tail in
        let '(out, t, k) := poll_loop c head (w64 (tail + 1)) n in
        (if opcode e =? 0 then out else e :: out, t, k + 1)
      else ([], tail, 0)
  end.

Definition set_complete_tail (c : Channel) (t : Z) : Channel :=
  mkChannel (magic c) (doorbell c) (submit_head c) (submit_tail c) (complete_head c) t
    (submit_ring c) (complete_ring c).

Definition ring3_poll_n (c : Channel) (limit : Z) : Channel * list ChannelEntry * Z :=
  let '(out, tail, count) :=
    poll_loop c (complete_head c) (complete_tail c) (Z.to_nat (Z.min limit RING_SIZE)) in
  (if 0 <? count then set_complete_tail c tail else c, out, count).

Definition ring3_poll (c : Channel) := ring3_poll_n c RING_SIZE.

(** ** Ring 0 *)

Definition ring0_has_work (c : Channel) : bool := negb (doorbell c =? 0).

Section Handler.
Context {S : Type}.
Variable handler : S -> ChannelEntry -> S * option ChannelEntry.

(** One turn of [ring0_process_n]: take the entry at [tail], clear its
    opcode, call the handler and publish what it answers. *)
Definition serve_one (c : Channel) (s : S) (tail : Z) : Channel * S :=
  let entry := submit_ring c !!! slot tail in
  let sr := <[slot tail := mkEnt 0 (arg0 entry) (arg1 entry) (arg2 entry)]> (submit_ring c) in
  match handler s entry with
  | (s, Some r) =>
      (mkChannel (magic c) (doorbell c) (submit_head c) (submit_tail c)
         (w64 (complete_head c + 1)) (complete_tail c) sr
         (<[slot (complete_head c) := r]> (complete_ring c)), s)
  | (s, None) =>
      (mkChannel (magic c) (doorbell c) (submit_head c) (submit_tail c)
         (complete_head c) (complete_tail c) sr (complete_ring c), s)
  end.

(** The loop, with the [head] read before it. *)
Fixpoint process_loop (c : Channel) (s : S) (head tail : Z) (n : nat) : Channel * S * Z * Z :=
  match n with
  | O => (c, s, tail, 0)
  | Datatypes.S n =>
      if tail <? head then
        if RING_SIZE <=? w64 (complete_head c - complete_tail c) then (c, s, tail, 0)
        else
          let '(c, s) := serve_one c s tail in
          let '(c, s, t, k) := process_loop c s head (w64 (tail + 1)) n in
          (c, s, t, k + 1)
      else (c, s, tail, 0)
  end.

(** The two stores after the loop. *)
Definition process_finish (c : Channel) (head tail : Z) : Channel :=
  mkChannel (magic c) (Z.b2z (tail <? head)) (submit_head c) tail
    (complete_head c) (complete_tail c) (submit_ring c) (complete_ring c).

(** What runs after the load of [submit_head] returned [head]. *)
Definition process_from (c : Channel) (s : S) (head limit : Z) : Channel * S * Z :=
  let '(c, s, tail, count) :=
    process_loop c s head (submit_tail c) (Z.to_nat (Z.min limit RING_SIZE)) in
  (process_finish c head tail, s, count).

Definition ring0_process_n (c : Channel) (s : S) (limit : Z) : Channel * S * Z :=
  process_from c s (submit_head c) limit.

Definition ring0_process (c : Channel) (s : S) := ring0_process_n c s RING_SIZE.
End Handler.

(** ** obj/channel.rs *)

Definition REQUEST_BUDGET_PER_CHANNEL : Z := 8.

(** The kernel's view: the pages, the services bound at boot, and the state
    [S] the services and the scheduler live in.  [wake_by_key] and the
    physical address of a page come from outside. *)
Section Kernel.
Context {S : Type}.
Variable wake_by_key : S -> Z -> S.
Variable page_phys : nat -> Z.

Definition ServiceFn : Type := S -> ChannelEntry -> S * option ChannelEntry.

Record chan_st := mkChan {
  pages : list Channel;
  services : list (option ServiceFn)
}.

Definition register_service (k : chan_st) (index : nat) (f : ServiceFn) : option chan_st :=
  if (index <? MAX_CHANNEL_PAGES)%nat
  then Some (mkChan (pages k) (<[index := Some f]> (services k))) else None.

Definition chan_init (k : chan_st) : chan_st := mkChan (init <$> pages k) (services k).

Definition wait_key (index : nat) : Z := page_phys index.

Definition complete_seq (k : chan_st) (index : nat) : option Z :=
  complete_head <$> pages k !! index.

(** The transport acknowledgement of an estuary with no service. *)
Definition echo : ServiceFn := fun s e => (s, Some e).

Definition service (k : chan_st) (s : S) (index : nat) : chan_st * S * Z :=
  match pages k !! index with
  | None => (k, s, 0)
  | Some ch =>
      if negb (ring0_has_work ch) then (k, s, 0)
      else
        let h := match services k !! index with Some (Some f) => f | _ => echo end in
        let '(ch, s, processed) := ring0_process_n h ch s REQUEST_BUDGET_PER_CHANNEL in
        let k := mkChan (<[index := ch]> (pages k)) (services k) in
        let s := if 0 <? processed then wake_by_key s (wait_key index) else s in
        (k, s, processed)
  end.

Fixpoint service_from (k : chan_st) (s : S) (index n : nat) : chan_st * S * Z :=
  match n with
  | O => (k, s, 0)
  | Datatypes.S n =>
      let '(k, s, p) := service k s index in
      let '(k, s, total) := service_from k s (Datatypes.S index) n in
      (k, s, p + total)
  end.

Definition service_all (k : chan_st) (s : S) : chan_st * S * Z :=
  service_from k s 0 MAX_CHANNEL_PAGES.
End Kernel.
Arguments chan_st : clear implicits.

(** * The abstract specification: two bounded queues *)

Record spec_st (S : Type) := mkSpec {
  subq : list ChannelEntry;      (* submitted, not yet served *)
  compq : list ChannelEntry;     (* published, not yet polled *)
  bell : bool;
  hst : S                        (* the handler's state *)
}.
Arguments mkSpec {S} _ _ _ _.
Arguments subq {S} _.
Arguments compq {S} _.
Arguments bell {S} _.
Arguments hst {S} _.

(** One operation of either side on the page. *)
Inductive chan_op :=
| OpSubmit (e : ChannelEntry)
| OpDoorbell
| OpPoll (limit : Z)
| OpComplete (e : ChannelEntry)
| OpProcess (limit : Z).

(** What an operation answers to its caller. *)
Inductive chan_out :=
| OutBool (b : bool)
| OutUnit
| OutPoll (delivered : list ChannelEntry) (count : Z)
| OutCount (count : Z).

Definition RINGn : nat := 62.
Definition visible (e : ChannelEntry) : bool := negb (opcode e =? 0).

Section Spec.
Context {S : Type}.
Variable handler : S -> ChannelEntry -> S * option ChannelEntry.

(** Serve at most [n] requests of [q] while the other queue has [room]. *)
Fixpoint spec_serve (n : nat) (s : S) (q : list ChannelEntry) (room : nat)
  : S * list ChannelEntry * nat :=
  match n, q, room with
  | Datatypes.S n, e :: q, Datatypes.S room' =>
      match handler s e with
      | (s, Some r) => let '(s, out, k) := spec_serve n s q room' in (s, r :: out, Datatypes.S k)
      | (s, None) => let '(s, out, k) := spec_serve n s q room in (s, out, Datatypes.S k)
      end
  | _, _, _ => (s, [], O)
  end.

Definition budget (limit : Z) : nat := Z.to_nat (Z.min limit RING_SIZE).

Definition spec_step (a : spec_st S) (op : chan_op) : spec_st S * chan_out :=
  match op with
  | OpSubmit e =>
      if (length (subq a) <? RINGn)%nat
      then (mkSpec (subq a ++ [e]) (compq a) (bell a) (hst a), OutBool true)
      else (a, OutBool false)
  | OpDoorbell => (mkSpec (subq a) (compq a) true (hst a), OutUnit)
  | OpPoll limit =>
      let taken := take (budget limit) (compq a) in
      (mkSpec (subq a) (drop (budget limit) (compq a)) (bell a) (hst a),
       OutPoll (filter visible taken) (Z.of_nat (length taken)))
  | OpComplete e =>
      if (length (compq a) <? RINGn)%nat
      then (mkSpec (subq a) (compq a ++ [e]) (bell a) (hst a), OutBool true)
      else (a, OutBool false)
  | OpProcess limit =>
      let '(s, out, k) := spec_serve (budget limit) (hst a) (subq a) (RINGn - length (compq a)) in
      let rest := drop k (subq a) in
      (mkSpec rest (compq a ++ out) (negb (Nat.eqb (length rest) 0)) s, OutCount (Z.of_nat k))
  end.

(** The same operation on the shared page. *)
Definition chan_step (cs : Channel * S) (op : chan_op) : Channel * S * chan_out :=
  let '(c, s) := cs in
  match op with
  | OpSubmit e => let '(c, b) := ring3_submit c e in (c, s, OutBool b)
  | OpDoorbell => (ring3_doorbell c, s, OutUnit)
  | OpPoll limit => let '(c, out, k) := ring3_poll_n c limit in (c, s, OutPoll out k)
  | OpComplete e => let '(c, b) := ring0_complete c e in (c, s, OutBool b)
  | OpProcess limit => let '(c, s, k) := ring0_process_n handler c s limit in (c, s, OutCount k)
  end.

Fixpoint spec_run (a : spec_st S) (ops : list chan_op) : spec_st S * list chan_out :=
  match ops with
  | [] => (a, [])
  | op :: ops => let '(a, o) := spec_step a op in let '(a, os) := spec_run a ops in (a, o :: os)
  end.
Fixpoint chan_run (cs : Channel * S) (ops : list chan_op) : Channel * S * list chan_out :=
  match ops with
  | [] => (cs, [])
  | op :: ops =>
      let '(cs, o) := chan_step cs op in let '(cs, os) := chan_run cs ops in (cs, o :: os)
  end.
End Spec.

(** The entries between [tail] and [head]. *)
Definition ring_slice (r : list ChannelEntry) (tail head : Z) : list ChannelEntry :=
  (fun i => r !!! slot i) <$> seqZ tail (head - tail).

(** The page is well formed and no counter has passed [bound]. *)
Record chan_wf (c : Channel) (bound : Z) : Prop := {
  wf_sring : length (submit_ring c) = RINGn;
  wf_cring : length (complete_ring c) = RINGn;
  wf_bell : doorbell c = 0 \/ doorbell c = 1;
  wf_sub : 0 <= submit_tail c <= submit_head c;
  wf_comp : 0 <= complete_tail c <= complete_head c;
  wf_sub_room : submit_head c - submit_tail c <= RING_SIZE;
  wf_comp_room : complete_head c - complete_tail c <= RING_SIZE;
  wf_sub_bound : submit_head c <= bound;
  wf_comp_bound : complete_head c <= bound
}.

(** What the page stands for. *)
Definition abs {S} (cs : Channel * S) : spec_st S :=
  let c := fst cs in
  mkSpec (ring_slice (submit_ring c) (submit_tail c) (submit_head c))
         (ring_slice (complete_ring c) (complete_tail c) (complete_head c))
         (ring0_has_work c) (snd cs).

(** ** Slices of a ring *)

Lemma slice_length r t h : t <= h -> length (ring_slice r t h) = Z.to_nat (h - t).
Proof. intros. unfold ring_slice. by rewrite length_fmap, length_seqZ. Qed.

Lemma slice_nil r t : ring_slice r t t = [].
Proof. unfold ring_slice. rewrite seqZ_nil by lia. done. Qed.

Lemma slice_cons r t h : t < h -> ring_slice r t h = r !!! slot t :: ring_slice r (t + 1) h.
Proof.
  intros. unfold ring_slice. rewrite seqZ_cons by lia. rewrite fmap_cons. f_equal.
  f_equal. f_equal; lia.
Qed.

Lemma slice_snoc r t h : t <= h -> ring_slice r t (h + 1) = ring_slice r t h ++ [r !!! slot h].
Proof.
  intros. unfold ring_slice.
  replace (h + 1 - t) with (Z.of_nat (S (Z.to_nat (h - t)))) by lia.
  rewrite seqZ_S, fmap_app. replace (Z.of_nat (Z.to_nat (h - t))) with (h - t) by lia.
  simpl. do 3 f_equal. f_equal. lia.
Qed.

Lemma slot_lt i : (slot i < RINGn)%nat.
Proof. unfold slot, RING_SIZE, RINGn. lia. Qed.

Lemma slot_inj i j : - RING_SIZE < i - j < RING_SIZE -> slot i = slot j -> i = j.
Proof. unfold slot, RING_SIZE. lia. Qed.

(** A write outside the slice is not seen by it. *)
Lemma slice_insert r e j t h :
  (forall i, t <= i < h -> - RING_SIZE < i - j < RING_SIZE /\ i <> j) ->
  ring_slice (<[slot j := e]> r) t h = ring_slice r t h.
Proof.
  intros H. unfold ring_slice. apply list_fmap_ext. intros n i Hi.
  apply lookup_seqZ in Hi as [-> Hn]. apply list_lookup_total_insert_ne.
  specialize (H (t + Z.of_nat n) ltac:(lia)). intros E. destruct H as [H Hne].
  apply Hne. symmetry. apply slot_inj; [lia|done].
Qed.

Lemma slice_push r e t h :
  length r = RINGn -> t <= h -> h - t < RING_SIZE ->
  ring_slice (<[slot h := e]> r) t (h + 1) = ring_slice r t h ++ [e].
Proof.
  intros Hl Ht Hr. rewrite slice_snoc by done. f_equal.
  - apply slice_insert. intros. lia.
  - f_equal. apply list_lookup_total_insert_eq. rewrite Hl. apply slot_lt.
Qed.

(** ** Each operation refines its specification *)

Lemma poll_loop_spec c n : forall tail head,
  0 <= tail <= head -> head < 2 ^ 64 ->
  let l := take n (ring_slice (complete_ring c) tail head) in
  poll_loop c head tail n =
    (filter visible l, tail + Z.of_nat (length l), Z.of_nat (length l)).
Proof.
  induction n as [|n IH]; intros tail head Ht Hh; cbn [poll_loop].
  { cbn. by rewrite Z.add_0_r. }
  destruct (tail <? head) eqn:E; bdestr.
  - rewrite (slice_cons _ tail head) by done. cbn [take].
    rewrite w64_small by (unfold is_u64; lia). rewrite IH by lia. cbn zeta.
    rewrite filter_cons. cbn [length]. rewrite Nat2Z.inj_succ.
    set (e := complete_ring c !!! slot tail).
    apply pair_equal_spec. split; [apply pair_equal_spec; split; [|lia]|lia].
    case_decide as Hv; unfold visible in Hv; destruct (opcode e =? 0); simpl in Hv; done.
  - replace head with tail by lia. rewrite slice_nil. cbn. by rewrite Z.add_0_r.
Qed.

Lemma wf_space r t h : 0 <= t <= h -> h < 2 ^ 64 -> h - t <= RING_SIZE ->
  (RING_SIZE <=? w64 (h - t)) = negb (length (ring_slice r t h) <? RINGn)%nat.
Proof.
  intros Ht Hh Hr. rewrite slice_length, w64_small by (unfold is_u64, RING_SIZE in *; lia).
  unfold RING_SIZE, RINGn in *.
  destruct (Nat.ltb_spec (Z.to_nat (h - t)) 62), (Z.leb_spec 62 (h - t)); done || lia.
Qed.

Lemma init_wf c :
  length (submit_ring c) = RINGn -> length (complete_ring c) = RINGn -> chan_wf (init c) 0.
Proof. intros. split; cbn; try done; auto; unfold RING_SIZE; lia. Qed.

Section Refine.
Context {S : Type}.
Variable h : S -> ChannelEntry -> S * option ChannelEntry.

Lemma spec_serve_full n s q : spec_serve h n s q 0 = (s, [], O).
Proof. by destruct n, q. Qed.

(** One turn of the loop, seen through the slices. *)
Lemma serve_one_wf c s tail B :
  chan_wf (process_finish c (submit_head c) tail) B -> B < 2 ^ 64 - 1 ->
  tail < submit_head c -> complete_head c - complete_tail c < RING_SIZE ->
  let r := serve_one h c s tail in
  let e := submit_ring c !!! slot tail in
  chan_wf (process_finish (fst r) (submit_head c) (tail + 1)) (B + 1) /\
  snd r = fst (h s e) /\ submit_head (fst r) = submit_head c /\
  ring_slice (submit_ring (fst r)) (tail + 1) (submit_head c) =
    ring_slice (submit_ring c) (tail + 1) (submit_head c) /\
  ring_slice (complete_ring (fst r)) (complete_tail (fst r)) (complete_head (fst r)) =
    ring_slice (complete_ring c) (complete_tail c) (complete_head c) ++ option_list (snd (h s e)).
Proof.
  intros [H1 H2 _ H3 H4 H5 H6 H7 H8] HB Ht Hroom. cbn in *.
  unfold serve_one. destruct (h s _) as [s' [r|]]; cbn;
    rewrite ?w64_small by (unfold is_u64; lia).
  all: split; [split; cbn; rewrite ?length_insert; try (done || lia); destruct (_ <? _); auto|].
  all: split; [done|]; split; [done|]; split.
  1, 3: apply slice_insert; intros; unfold RING_SIZE in *; lia.
  - by rewrite slice_push by (done || lia).
  - by rewrite app_nil_r.
Qed.

Lemma process_loop_spec n : forall c s tail B,
  chan_wf (process_finish c (submit_head c) tail) B -> B + Z.of_nat n < 2 ^ 64 ->
  let '(c', s', t', k) := process_loop h c s (submit_head c) tail n in
  let '(s2, out, k2) :=
    spec_serve h n s (ring_slice (submit_ring c) tail (submit_head c))
      (RINGn - length (ring_slice (complete_ring c) (complete_tail c) (complete_head c))) in
  s' = s2 /\ k = Z.of_nat k2 /\ submit_head c' = submit_head c /\
  chan_wf (process_finish c' (submit_head c) t') (B + Z.of_nat n) /\
  ring_slice (submit_ring c') t' (submit_head c) =
    drop k2 (ring_slice (submit_ring c) tail (submit_head c)) /\
  ring_slice (complete_ring c') (complete_tail c') (complete_head c') =
    ring_slice (complete_ring c) (complete_tail c) (complete_head c) ++ out.
Proof.
  induction n as [|n IH]; intros c s tail B Hwf HB; cbn [process_loop spec_serve].
  { rewrite Z.add_0_r, app_nil_r, drop_0. by split_and!. }
  pose proof Hwf as [H1 H2 _ H3 H4 H5 H6 H7 H8]. cbn in *.
  assert (Hweak : chan_wf (process_finish c (submit_head c) tail) (B + Z.of_nat (Datatypes.S n)))
    by (destruct Hwf; split; cbn in *; lia).
  destruct (tail <? submit_head c) eqn:E; bdestr.
  2:{ assert (tail = submit_head c) as -> by lia. rewrite slice_nil, app_nil_r.
      repeat (split; [assumption || reflexivity|]). reflexivity. }
  rewrite (slice_cons (submit_ring c)) by done. cbn [spec_serve].
  rewrite (wf_space (complete_ring c)) by lia.
  destruct (Nat.ltb_spec (length (ring_slice (complete_ring c) (complete_tail c) (complete_head c))) RINGn)
    as [Hlt|Hge]; cbn [negb].
  2:{ replace (RINGn - _)%nat with O by lia. rewrite app_nil_r, drop_0, <- slice_cons by done.
      by split_and!. }
  rewrite slice_length in Hlt by lia. unfold RINGn in Hlt.
  pose proof (serve_one_wf c s tail B Hwf ltac:(lia) E ltac:(unfold RING_SIZE; lia)) as Hs.
  destruct (serve_one h c s tail) as [c1 s1]. cbn [fst snd] in Hs.
  destruct Hs as (Hwf1 & -> & Hh & Hsub & Hcomp).
  rewrite w64_small by (unfold is_u64; lia).
  rewrite <- Hh in Hwf1. specialize (IH c1 (fst (h s (submit_ring c !!! slot tail))) (tail + 1) (B + 1) Hwf1 ltac:(lia)).
  rewrite Hh in IH. rewrite Hsub, Hcomp in IH.
  destruct (process_loop h c1 _ (submit_head c) (tail + 1) n) as [[[c' s'] t'] k].
  match goal with |- context [(?a - length (ring_slice (complete_ring c) ?t ?hd))%nat] =>
    replace (a - length (ring_slice (complete_ring c) t hd))%nat
      with (Datatypes.S (61 - Z.to_nat (complete_head c - complete_tail c)))
      by (rewrite slice_length by lia; unfold RINGn; lia)
  end.
  cbv beta iota.
  rewrite length_app, slice_length in IH by lia. unfold RINGn in IH.
  destruct (h s _) as [s1 [r|]]; cbn [fst snd option_list length] in *.
  - change (option_list (Some r)) with [r] in *. cbn [length app] in IH.
    replace (62 - (Z.to_nat (complete_head c - complete_tail c) + 1))%nat
      with (61 - Z.to_nat (complete_head c - complete_tail c))%nat in IH by lia.
    destruct (spec_serve h n s1 _ _) as [[s2 out] k2].
    destruct IH as (-> & -> & -> & H9 & H10 & H11).
    rewrite <- app_assoc in H11.
    replace (B + 1 + Z.of_nat n) with (B + Z.of_nat (Datatypes.S n)) in H9 by lia.
    cbn [drop]. split_and!; done || lia.
  - change (option_list (@None ChannelEntry)) with (@nil ChannelEntry) in *. cbn [length app] in IH.
    replace (62 - (Z.to_nat (complete_head c - complete_tail c) + 0))%nat
      with (Datatypes.S (61 - Z.to_nat (complete_head c - complete_tail c)))%nat in IH
      by lia.
    destruct (spec_serve h n s1 _ _) as [[s2 out] k2].
    destruct IH as (-> & -> & -> & H9 & H10 & H11).
    rewrite <- app_assoc in H11.
    replace (B + 1 + Z.of_nat n) with (B + Z.of_nat (Datatypes.S n)) in H9 by lia.
    cbn [drop]. split_and!; done || lia.
Qed.
Lemma abs_room c B : chan_wf c B -> B < 2 ^ 64 ->
  (RING_SIZE <=? w64 (submit_head c - submit_tail c)) =
    negb (length (ring_slice (submit_ring c) (submit_tail c) (submit_head c)) <? RINGn)%nat /\
  (RING_SIZE <=? w64 (complete_head c - complete_tail c)) =
    negb (length (ring_slice (complete_ring c) (complete_tail c) (complete_head c)) <? RINGn)%nat.
Proof. intros [] HB. split; apply wf_space; lia. Qed.

Lemma submit_refines c s e B :
  chan_wf c B -> B + 1 < 2 ^ 64 ->
  chan_wf (fst (ring3_submit c e)) (B + 1) /\
  (abs (fst (ring3_submit c e), s), OutBool (snd (ring3_submit c e))) =
    spec_step h (abs (c, s)) (OpSubmit e).
Proof.
  intros Hwf HB. unfold ring3_submit. rewrite (proj1 (abs_room c B Hwf ltac:(lia))).
  unfold abs, spec_step. cbn [subq compq bell hst fst snd].
  destruct Hwf as [H1 H2 Hbell H3 H4 H5 H6 H7 H8].
  destruct (Nat.ltb_spec (length (ring_slice (submit_ring c) (submit_tail c) (submit_head c))) RINGn)
    as [Hlt|Hge]; cbn [negb fst snd].
  2:{ split; [split; try done; lia|done]. }
  rewrite slice_length in Hlt by lia. unfold RINGn in Hlt.
  rewrite w64_small by (unfold is_u64; lia). split.
  - split; cbn; rewrite ?length_insert; try done; unfold RING_SIZE in *; lia.
  - cbn. rewrite slice_push by (done || unfold RING_SIZE; lia). done.
Qed.

Lemma complete_refines c s e B :
  chan_wf c B -> B + 1 < 2 ^ 64 ->
  chan_wf (fst (ring0_complete c e)) (B + 1) /\
  (abs (fst (ring0_complete c e), s), OutBool (snd (ring0_complete c e))) =
    spec_step h (abs (c, s)) (OpComplete e).
Proof.
  intros Hwf HB. unfold ring0_complete. rewrite (proj2 (abs_room c B Hwf ltac:(lia))).
  unfold abs, spec_step. cbn [subq compq bell hst fst snd].
  destruct Hwf as [H1 H2 Hbell H3 H4 H5 H6 H7 H8].
  destruct (Nat.ltb_spec (length (ring_slice (complete_ring c) (complete_tail c) (complete_head c))) RINGn)
    as [Hlt|Hge]; cbn [negb fst snd].
  2:{ split; [split; try done; lia|done]. }
  rewrite slice_length in Hlt by lia. unfold RINGn in Hlt.
  rewrite w64_small by (unfold is_u64; lia). split.
  - split; cbn; rewrite ?length_insert; try done; unfold RING_SIZE in *; lia.
  - cbn. rewrite slice_push by (done || unfold RING_SIZE; lia). done.
Qed.

Lemma drop_slice r n t hd : t <= hd ->
  drop n (ring_slice r t hd) = ring_slice r (t + Z.of_nat (length (take n (ring_slice r t hd)))) hd.
Proof.
  revert t. induction n as [|n IH]; intros t Ht; cbn [drop take].
  { by rewrite Z.add_0_r. }
  destruct (decide (t < hd)).
  - rewrite slice_cons by done. cbn [drop take length]. rewrite IH by lia.
    f_equal. lia.
  - replace hd with t by lia. by rewrite slice_nil, drop_nil, Z.add_0_r, slice_nil.
Qed.

Lemma poll_refines c s limit B :
  chan_wf c B -> B < 2 ^ 64 ->
  let '(c', out, k) := ring3_poll_n c limit in
  chan_wf c' B /\ (abs (c', s), OutPoll out k) = spec_step h (abs (c, s)) (OpPoll limit).
Proof.
  intros Hwf HB. unfold ring3_poll_n. destruct Hwf as [H1 H2 Hbell H3 H4 H5 H6 H7 H8].
  rewrite poll_loop_spec by lia. cbn zeta. fold (budget limit). set (n := budget limit).
  unfold abs, spec_step. cbn [subq compq bell hst fst snd].
  pose proof (drop_slice (complete_ring c) n (complete_tail c) (complete_head c) ltac:(lia)) as Hd.
  assert (Hl : (length (take n (ring_slice (complete_ring c) (complete_tail c) (complete_head c))) <=
    Z.to_nat (complete_head c - complete_tail c))%nat)
    by (rewrite <- (slice_length (complete_ring c)) by lia; rewrite length_take; lia).
  fold n. rewrite Hd. case_if; bdestr; cbn.
  - split; [split; cbn; try done; lia|]. done.
  - replace (Z.of_nat _) with 0 by lia. rewrite Z.add_0_r. split; [split; try done; lia|done].
Qed.

Lemma process_refines c s limit B :
  chan_wf c B -> B + RING_SIZE < 2 ^ 64 ->
  let '(c', s', k) := ring0_process_n h c s limit in
  chan_wf c' (B + RING_SIZE) /\
  (abs (c', s'), OutCount k) = spec_step h (abs (c, s)) (OpProcess limit).
Proof.
  intros Hwf HB. unfold ring0_process_n, process_from. fold (budget limit).
  assert (Hn : Z.of_nat (budget limit) <= RING_SIZE) by (unfold budget, RING_SIZE; lia).
  pose proof (process_loop_spec (budget limit) c s (submit_tail c) B) as Hl.
  unfold abs, spec_step. cbn [subq compq bell hst fst snd].
  destruct (process_loop _ _ _ _ _ _) as [[[c' s'] t'] k].
  destruct (spec_serve _ _ _ _ _) as [[s2 out] k2].
  destruct Hl as (-> & -> & Hh & Hwf' & Hd & Hc).
  { destruct Hwf. split; cbn; try done. destruct (_ <? _); auto. }
  { lia. }
  destruct Hwf' as [H1 H2 Hbell H3 H4 H5 H6 H7 H8]. cbn in *. rewrite Hh in *. split.
  - split; cbn; try done; lia.
  - rewrite Hd, Hc. f_equal. f_equal. rewrite <- Hd, slice_length by lia.
    unfold ring0_has_work. cbn. f_equal.
    destruct (Z.ltb_spec t' (submit_head c)), (Nat.eqb_spec (Z.to_nat (submit_head c - t')) 0);
      cbn; done || lia.
Qed.

Lemma chan_step_refines c s op B :
  chan_wf c B -> B + RING_SIZE < 2 ^ 64 ->
  let r := chan_step h (c, s) op in
  chan_wf (fst (fst r)) (B + RING_SIZE) /\ (abs (fst r), snd r) = spec_step h (abs (c, s)) op.
Proof.
  intros Hwf HB.
  assert (Hmono : forall c' B', chan_wf c' B' -> B' <= B + RING_SIZE -> chan_wf c' (B + RING_SIZE))
    by (intros c' B' [] ?; split; try done; lia).
  destruct op as [e| |limit|e|limit]; cbn [chan_step].
  - pose proof (submit_refines c s e B Hwf ltac:(unfold RING_SIZE in *; lia)) as [H1 H2].
    destruct (ring3_submit c e) as [c' b]. cbn in *.
    split; [eapply Hmono; [exact H1|unfold RING_SIZE; lia]|exact H2].
  - cbn. split; [|done]. apply (Hmono _ B); [|unfold RING_SIZE; lia].
    destruct Hwf. split; cbn; auto.
  - pose proof (poll_refines c s limit B Hwf ltac:(unfold RING_SIZE in *; lia)) as H.
    destruct (ring3_poll_n c limit) as [[c' out] k]. destruct H as [H1 H2]. cbn in *.
    split; [eapply Hmono; [exact H1|unfold RING_SIZE; lia]|exact H2].
  - pose proof (complete_refines c s e B Hwf ltac:(unfold RING_SIZE in *; lia)) as [H1 H2].
    destruct (ring0_complete c e) as [c' b]. cbn in *.
    split; [eapply Hmono; [exact H1|unfold RING_SIZE; lia]|exact H2].
  - pose proof (process_refines c s limit B Hwf HB) as H.
    destruct (ring0_process_n h c s limit) as [[c' s'] k]. exact H.
Qed.

Lemma chan_run_refines ops : forall c s B,
  chan_wf c B -> B + RING_SIZE * Z.of_nat (length ops) < 2 ^ 64 ->
  let r := chan_run h (c, s) ops in
  chan_wf (fst (fst r)) (B + RING_SIZE * Z.of_nat (length ops)) /\
  (abs (fst r), snd r) = spec_run h (abs (c, s)) ops.
Proof.
  induction ops as [|op ops IH]; intros c s B Hwf HB; cbn [chan_run spec_run length].
  { rewrite Z.mul_0_r, Z.add_0_r. done. }
  cbn [length] in HB.
  pose proof (chan_step_refines c s op B Hwf ltac:(unfold RING_SIZE in *; lia)) as [H1 H2].
  destruct (chan_step h (c, s) op) as [[c1 s1] o]. cbn [fst snd] in *. rewrite <- H2.
  specialize (IH c1 s1 _ H1 ltac:(unfold RING_SIZE in *; lia)).
  destruct (chan_run h (c1, s1) ops) as [[c2 s2] os]. cbn [fst snd] in *.
  destruct IH as [H3 H4]. rewrite <- H4. split; [|done].
  replace (B + RING_SIZE * Z.of_nat (Datatypes.S (length ops)))
    with (B + RING_SIZE + RING_SIZE * Z.of_nat (length ops)) by (unfold RING_SIZE; lia).
  exact H3.
Qed.

(** C6: the shared page implements the abstract channel.  From a page fresh
    from [init], any sequence of submissions, doorbells, polls, publications
    and served budgets gives the same answers and leaves the same pending
    entries, in the same order, as two empty bounded FIFO queues -- as long as
    the free-running counters stay below 2^64. *)
Theorem channel_refines ops c s :
  length (submit_ring c) = RINGn -> length (complete_ring c) = RINGn ->
  RING_SIZE * Z.of_nat (length ops) < 2 ^ 64 ->
  let r := chan_run h (init c, s) ops in
  (abs (fst r), snd r) = spec_run h (mkSpec [] [] false s) ops.
Proof.
  intros Hs Hc Hlen. apply (chan_run_refines ops (init c) s 0 (init_wf c Hs Hc)). lia.
Qed.
End Refine.

(** ** Exactly once, in order *)

(** The submissions the channel took, the requests it served and the entries
    it delivered, read off the answers. *)
Fixpoint accepted (ops : list chan_op) (outs : list chan_out) : list ChannelEntry :=
  match ops, outs with
  | OpSubmit e :: ops, OutBool true :: outs => e :: accepted ops outs
  | _ :: ops, _ :: outs => accepted ops outs
  | _, _ => []
  end.
Fixpoint total_served (outs : list chan_out) : Z :=
  match outs with
  | OutCount k :: outs => k + total_served outs
  | _ :: outs => total_served outs
  | [] => 0
  end.
Fixpoint delivered (outs : list chan_out) : list ChannelEntry :=
  match outs with
  | OutPoll l _ :: outs => l ++ delivered outs
  | _ :: outs => delivered outs
  | [] => []
  end.

Definition no_publish (op : chan_op) : Prop :=
  match op with OpComplete _ => False | _ => True end.

Section Once.
Context {S : Type}.
Variable h : S -> ChannelEntry -> S * option ChannelEntry.

(** The handler applied to a list of requests, first to last. *)
Fixpoint handle_all (s : S) (l : list ChannelEntry) : S * list ChannelEntry :=
  match l with
  | [] => (s, [])
  | e :: l =>
      let '(s1, r) := h s e in
      let '(s2, rs) := handle_all s1 l in (s2, option_list r ++ rs)
  end.

Lemma handle_all_app s l1 l2 :
  handle_all s (l1 ++ l2) =
    (fst (handle_all (fst (handle_all s l1)) l2),
     snd (handle_all s l1) ++ snd (handle_all (fst (handle_all s l1)) l2)).
Proof.
  revert s. induction l1 as [|e l1 IH]; intros s; cbn [app handle_all fst snd].
  { by destruct (handle_all s l2). }
  destruct (h s e) as [s1 r]. rewrite IH. destruct (handle_all s1 l1) as [s2 rs].
  cbn [fst snd]. by rewrite app_assoc.
Qed.

Lemma spec_serve_handles n : forall s q room,
  let '(s', out, k) := spec_serve h n s q room in
  handle_all s (take k q) = (s', out) /\ (k <= length q)%nat.
Proof.
  induction n as [|n IH]; intros s q room; cbn [spec_serve]; [split; [done|cbn; lia]|].
  destruct q as [|e q]; [done|]. destruct room as [|room]; [split; [done|cbn; lia]|].
  destruct (h s e) as [s1 [r|]] eqn:E.
  - specialize (IH s1 q room). destruct (spec_serve h n s1 q room) as [[s' out] k].
    destruct IH as [H1 H2]. cbn [take handle_all length]. rewrite E, H1. split; [done|lia].
  - specialize (IH s1 q (Datatypes.S room)).
    destruct (spec_serve h n s1 q (Datatypes.S room)) as [[s' out] k].
    destruct IH as [H1 H2]. cbn [take handle_all length]. rewrite E, H1. split; [done|lia].
Qed.

(** What was put in the completion queue, in order: for each budget that was
    served, what the handler answered to the next requests of [served]; and
    each entry that the kernel published on its own. *)
Fixpoint posted (s : S) (served : list ChannelEntry) (ops : list chan_op) (outs : list chan_out)
  : list ChannelEntry :=
  match ops, outs with
  | OpComplete e :: ops, OutBool true :: outs => e :: posted s served ops outs
  | OpProcess _ :: ops, OutCount k :: outs =>
      let '(s1, rs) := handle_all s (take (Z.to_nat k) served) in
      rs ++ posted s1 (drop (Z.to_nat k) served) ops outs
  | _ :: ops, _ :: outs => posted s served ops outs
  | _, _ => []
  end.

Lemma spec_history ops : forall a,
  let '(a', outs) := spec_run h a ops in
  exists served,
    subq a ++ accepted ops outs = served ++ subq a' /\
    Z.of_nat (length served) = total_served outs /\
    fst (handle_all (hst a) served) = hst a' /\
    delivered outs ++ filter visible (compq a') =
      filter visible (compq a ++ posted (hst a) served ops outs) /\
    (Forall no_publish ops -> posted (hst a) served ops outs = snd (handle_all (hst a) served)).
Proof.
  induction ops as [|op ops IH]; intros a; cbn [spec_run].
  { exists []. cbn. by rewrite !app_nil_r. }
  destruct (spec_step h a op) as [a1 o] eqn:Es. specialize (IH a1).
  destruct (spec_run h a1 ops) as [a' outs]. destruct IH as (served & H1 & H2 & H3 & H4 & H5).
  assert (Hnp : Forall no_publish (op :: ops) -> no_publish op /\ Forall no_publish ops)
    by apply Forall_cons.
  destruct op as [e| |limit|e|limit]; cbn [spec_step] in Es.
  - revert Es. case_if; intros [= <- <-]; cbn in *; exists served; [|by split_and!; intuition].
    split_and!; try done; [|by intuition]. by rewrite <- H1, <- app_assoc.
  - injection Es as <- <-. exists served. cbn in *. by split_and!; intuition.
  - injection Es as <- <-. cbn in *. exists served. split_and!; try done; [|by intuition].
    rewrite <- app_assoc, H4, <- filter_app, app_assoc, take_drop. done.
  - revert Es. case_if; intros [= <- <-]; cbn in *; exists served; (split_and!; try done).
    + by rewrite H4, <- app_assoc.
    + intros Hf. by destruct (Hnp Hf).
    + intros Hf. by destruct (Hnp Hf).
  - pose proof (spec_serve_handles (budget limit) (hst a) (subq a) (RINGn - length (compq a))) as Hk.
    destruct (spec_serve h _ _ _ _) as [[s1 out] k]. destruct Hk as [Hk Hkl].
    injection Es as <- <-. cbn in *. exists (take k (subq a) ++ served).
    assert (Ht : length (take k (subq a)) = k) by (rewrite length_take; lia).
    rewrite Nat2Z.id, take_app_length', drop_app_length' by done.
    rewrite handle_all_app, Hk. cbn [fst snd]. split_and!.
    + rewrite <- app_assoc, <- H1, app_assoc, take_drop. done.
    + rewrite length_app. lia.
    + done.
    + by rewrite H4, <- app_assoc.
    + intros Hf. by rewrite H5 by (by apply Hnp).
Qed.

(** C10: exactly once, in order.  On a page fresh from [init], whatever the two
    sides do in whatever order, in fewer than 2^64 / 62 operations (the counters
    of the page do not wrap): the handler runs exactly once on each accepted
    submission, in submission order, up to those still pending; and what Ring 3
    has polled, followed by what it still can poll, is exactly what was posted,
    in that order -- the handler's answers to each budget that was served and,
    between them, what the kernel published on its own and was accepted --, less
    the entries with opcode 0, which [ring3_poll] drops.  When the kernel
    publishes nothing on its own that is the list of the handler's answers. *)
Theorem channel_exactly_once ops c s :
  length (submit_ring c) = RINGn -> length (complete_ring c) = RINGn ->
  RING_SIZE * Z.of_nat (length ops) < 2 ^ 64 ->
  let r := chan_run h (init c, s) ops in
  let outs := snd r in
  let a := abs (fst r) in
  exists served,
    accepted ops outs = served ++ subq a /\
    Z.of_nat (length served) = total_served outs /\
    snd (fst r) = fst (handle_all s served) /\
    delivered outs ++ filter visible (compq a) = filter visible (posted s served ops outs) /\
    (Forall no_publish ops -> posted s served ops outs = snd (handle_all s served)).
Proof.
  intros Hs Hc Hlen r outs a.
  destruct (chan_run_refines h ops (init c) s 0 (init_wf c Hs Hc) ltac:(lia)) as [_ Hr].
  pose proof (spec_history ops (abs (init c, s))) as Hh.
  rewrite <- Hr in Hh. destruct Hh as (served & H1 & H2 & H3 & H4 & H5).
  exists served. fold r in H1, H2, H3, H4, H5. fold outs a in H1, H2, H3, H4, H5.
  split; [exact H1|]. split; [exact H2|]. split; [symmetry; exact H3|].
  split; [exact H4|exact H5].
Qed.

(** ** Forged pages *)

Lemma process_loop_bounds n : forall c s head tail,
  is_u64 tail ->
  let '(c', _, t', k) := process_loop h c s head tail n in
  0 <= k <= Z.of_nat n /\ t' = w64 (tail + k) /\
  length (submit_ring c') = length (submit_ring c) /\
  length (complete_ring c') = length (complete_ring c) /\
  exists p, 0 <= p <= k /\ (p = 0 -> complete_head c' = complete_head c) /\
    (0 < p -> complete_head c' = w64 (complete_head c + p)).
Proof.
  induction n as [|n IH]; intros c s head tail Ht; cbn [process_loop].
  { rewrite Z.add_0_r, w64_small by done. split_and!; try (done || lia).
    exists 0. split_and!; done || lia. }
  assert (Hstop : 0 <= 0 <= Z.of_nat (Datatypes.S n) /\ tail = w64 (tail + 0) /\
    length (submit_ring c) = length (submit_ring c) /\
    length (complete_ring c) = length (complete_ring c) /\
    exists p, 0 <= p <= 0 /\ (p = 0 -> complete_head c = complete_head c) /\
      (0 < p -> complete_head c = w64 (complete_head c + p))).
  { rewrite Z.add_0_r, w64_small by done. split_and!; try (done || lia).
    exists 0. split_and!; done || lia. }
  case_if; [|exact Hstop]. case_if; [exact Hstop|].
  assert (Hone : length (submit_ring (fst (serve_one h c s tail))) = length (submit_ring c) /\
    length (complete_ring (fst (serve_one h c s tail))) = length (complete_ring c) /\
    (complete_head (fst (serve_one h c s tail)) = complete_head c \/
     complete_head (fst (serve_one h c s tail)) = w64 (complete_head c + 1))).
  { unfold serve_one. destruct (h s _) as [s1 [r|]]; cbn; rewrite ?length_insert; auto. }
  destruct (serve_one h c s tail) as [c1 s1]. cbn [fst] in Hone. destruct Hone as (Hl1 & Hl2 & Hh).
  specialize (IH c1 s1 head (w64 (tail + 1)) (w64_range _)).
  destruct (process_loop h c1 s1 head (w64 (tail + 1)) n) as [[[c' s'] t'] k].
  destruct IH as (Hk & -> & Hl3 & Hl4 & p & Hp & Hp0 & Hp1).
  split_and!; [lia|lia| |congruence|congruence|].
  - unfold w64. rewrite Zplus_mod_idemp_l. f_equal. lia.
  - destruct Hh as [Hh|Hh]; [exists p; rewrite <- Hh; split_and!; auto; lia|].
    exists (p + 1). split_and!; [lia|lia|lia|]. intros _.
    destruct (decide (p = 0)) as [->|]; [rewrite Hp0 by done; by rewrite Hh|].
    rewrite Hp1, Hh by lia. unfold w64. rewrite Zplus_mod_idemp_l. f_equal. lia.
Qed.

Lemma process_n_bounds c s limit :
  is_u64 (submit_tail c) -> 0 <= limit ->
  let '(c', _, k) := ring0_process_n h c s limit in
  0 <= k <= Z.min limit RING_SIZE /\ submit_tail c' = w64 (submit_tail c + k) /\
  length (submit_ring c') = length (submit_ring c) /\
  length (complete_ring c') = length (complete_ring c) /\
  exists p, 0 <= p <= k /\ (p = 0 -> complete_head c' = complete_head c) /\
    (0 < p -> complete_head c' = w64 (complete_head c + p)).
Proof.
  intros Ht Hl. unfold ring0_process_n, process_from. fold (budget limit).
  pose proof (process_loop_bounds (budget limit) c s (submit_head c) (submit_tail c) Ht) as H.
  destruct (process_loop _ _ _ _ _ _) as [[[c' s'] t'] k].
  replace (Z.of_nat (budget limit)) with (Z.min limit RING_SIZE) in H
    by (unfold budget, RING_SIZE; lia). exact H.
Qed.

(** A page is shared memory, so Ring 3 can write anything in it.  Whatever
    the counters say, one call of [ring0_process_n] serves at most
    [min limit RING_SIZE] requests, moves [submit_tail] by exactly that, and
    publishes at most one completion per request. *)
Theorem process_bounded_forged c s limit :
  is_u64 (submit_tail c) -> 0 <= limit ->
  let '(c', _, k) := ring0_process_n h c s limit in
  0 <= k <= Z.min limit RING_SIZE /\ submit_tail c' = w64 (submit_tail c + k) /\
  length (submit_ring c') = length (submit_ring c) /\
  length (complete_ring c') = length (complete_ring c) /\
  exists p, 0 <= p <= k /\ (p = 0 -> complete_head c' = complete_head c) /\
    (0 < p -> complete_head c' = w64 (complete_head c + p)).
Proof. apply process_n_bounds. Qed.

(** ** The doorbell between two processors *)

(** The kernel loads [submit_head] before the loop and stores the
    doorbell after it.  A [ring3_send] that lands in between is accepted and
    stays in the ring, but the store erases its doorbell: the page then has a
    pending request and no work for the kernel.  (With one processor and
    interrupts masked Ring 3 cannot run there.) *)
Theorem doorbell_lost_between c s e limit B :
  chan_wf c B -> B + 1 < 2 ^ 64 -> submit_head c = submit_tail c ->
  snd (ring3_send c e) = true ->
  let '(c', _, k) := process_from h (fst (ring3_send c e)) s (submit_head c) limit in
  k = 0 /\ subq (abs (c', s)) = [e] /\ ring0_has_work c' = false.
Proof.
  intros Hwf HB He Hsend. unfold ring3_send in *.
  pose proof (submit_refines h c s e B Hwf HB) as [_ H].
  destruct (ring3_submit c e) as [c1 [|]] eqn:E; [|done]. cbn [fst snd] in *.
  assert (Hq : ring_slice (submit_ring c) (submit_tail c) (submit_head c) = []).
  { rewrite He. apply slice_nil. }
  assert (Ht : submit_tail c1 = submit_tail c).
  { revert E. unfold ring3_submit. case_if; intros [= <-]; done. }
  unfold abs, spec_step in H. cbn [subq compq bell hst fst snd] in H. rewrite Hq in H.
  cbn in H. injection H as Hs _ _.
  assert (Hloop : forall n, process_loop h (ring3_doorbell c1) s (submit_head c) (submit_tail c1) n =
    (ring3_doorbell c1, s, submit_tail c1, 0)).
  { intros n. rewrite Ht, He. destruct n; cbn [process_loop]; [done|]. by rewrite Z.ltb_irrefl. }
  unfold process_from. replace (submit_tail (ring3_doorbell c1)) with (submit_tail c1) by done.
  rewrite Hloop. split; [done|]. unfold abs, ring0_has_work. cbn.
  split; [exact Hs|]. by rewrite Ht, He, Z.ltb_irrefl.
Qed.
End Once.

(** ** The kernel's budget *)

Definition tails_ok {S} (k : chan_st S) : Prop :=
  Forall (fun c => is_u64 (submit_tail c)) (pages k).

Lemma service_bounds {S} (wake : S -> Z -> S) pp (k : chan_st S) s i :
  tails_ok k ->
  let '(k', _, p) := service wake pp k s i in
  0 <= p <= REQUEST_BUDGET_PER_CHANNEL /\ tails_ok k' /\
  length (pages k') = length (pages k) /\ services k' = services k.
Proof.
  intros Hk. unfold service.
  assert (0 <= 0 <= REQUEST_BUDGET_PER_CHANNEL) by (unfold REQUEST_BUDGET_PER_CHANNEL; lia).
  destruct (pages k !! i) as [c|] eqn:E; [|done]. case_if; [done|].
  pose proof (process_n_bounds (match services k !! i with Some (Some f) => f | _ => echo end)
    c s REQUEST_BUDGET_PER_CHANNEL) as Hb.
  destruct (ring0_process_n _ c s _) as [[c' s'] p].
  destruct Hb as (H1 & H2 & _).
  { unfold tails_ok in Hk. rewrite Forall_lookup in Hk. by eapply Hk. }
  { done. }
  unfold REQUEST_BUDGET_PER_CHANNEL, RING_SIZE in *. split; [lia|]. cbn. split; [|split; [|done]].
  - apply Forall_insert; [done|]. rewrite H2. apply w64_range.
  - apply length_insert.
Qed.

(** One pass over every estuary serves at most
    [REQUEST_BUDGET_PER_CHANNEL] requests per page, whatever Ring 3 has
    written in the pages: the tick that calls [service_all] always ends, and
    the services bound at boot are the ones it calls. *)
Theorem service_all_budget {S} (wake : S -> Z -> S) pp (k : chan_st S) s :
  tails_ok k ->
  let '(k', _, total) := service_all wake pp k s in
  0 <= total <= REQUEST_BUDGET_PER_CHANNEL * Z.of_nat MAX_CHANNEL_PAGES /\
  services k' = services k /\ tails_ok k'.
Proof.
  unfold service_all. generalize MAX_CHANNEL_PAGES as n. intros n. generalize O as i.
  revert k s. induction n as [|n IH]; intros k s i Hk; cbn [service_from].
  { split_and!; (done || lia). }
  pose proof (service_bounds wake pp k s i Hk) as H1.
  destruct (service wake pp k s i) as [[k1 s1] p]. destruct H1 as (Hp & Hk1 & _ & Hsv).
  specialize (IH k1 s1 (Datatypes.S i) Hk1).
  destruct (service_from wake pp k1 s1 (Datatypes.S i) n) as [[k2 s2] t].
  destruct IH as (Ht & Hsv2 & Hk2). unfold REQUEST_BUDGET_PER_CHANNEL in *.
  split_and!; [lia|lia|congruence|done].
Qed.

(** ** Concrete runs *)

Definition page0 : Channel :=
  mkChannel 0 0 0 0 0 0 (replicate 62 (mkEnt 0 0 0 0)) (replicate 62 (mkEnt 0 0 0 0)).
Definition demo_ops : list chan_op :=
  [OpSubmit (mkEnt 7 1 2 3); OpDoorbell; OpSubmit (mkEnt 8 4 5 6); OpProcess 8; OpPoll 1;
   OpSubmit (mkEnt 9 0 0 0)].
(** A handler that counts its calls and answers with the request. *)
Definition demo_handler (n : Z) (e : ChannelEntry) : Z * option ChannelEntry := (n + 1, Some e).

Lemma channel_refines_witness :
  let r := chan_run demo_handler (init page0, 0) demo_ops in
  snd r = [OutBool true; OutUnit; OutBool true; OutCount 2; OutPoll [mkEnt 7 1 2 3] 1; OutBool true] /\
  (abs (fst r), snd r) = spec_run demo_handler (mkSpec [] [] false 0) demo_ops.
Proof.
  split; [vm_compute; reflexivity|].
  apply (channel_refines demo_handler demo_ops page0 0 eq_refl eq_refl). unfold RING_SIZE. cbn. lia.
Defined.

Lemma channel_exactly_once_witness :
  let ops := demo_ops ++ [OpComplete (mkEnt 5 0 0 1); OpProcess 8] in
  let r := chan_run demo_handler (init page0, 0) ops in
  exists served,
    [mkEnt 7 1 2 3; mkEnt 8 4 5 6; mkEnt 9 0 0 0] = served ++ subq (abs (fst r)) /\
    Z.of_nat (length served) = 3 /\
    delivered (snd r) ++ filter visible (compq (abs (fst r))) =
      filter visible (posted demo_handler 0 served ops (snd r)).
Proof.
  intros ops r.
  destruct (channel_exactly_once demo_handler ops page0 0) as (served & H1 & H2 & _ & H4 & _).
  - done.
  - done.
  - unfold RING_SIZE. cbn. lia.
  - exists served. exact (conj H1 (conj H2 H4)).
Defined.

Lemma process_bounded_forged_witness :
  let c := mkChannel 0 1 (2 ^ 64 - 1) 5 0 0 (submit_ring page0) (complete_ring page0) in
  let '(c', _, k) := ring0_process_n demo_handler c 0 8 in
  0 <= k <= 8 /\ submit_tail c' = w64 (5 + k).
Proof.
  intros c. pose proof (process_bounded_forged demo_handler c 0 8) as H.
  destruct (ring0_process_n demo_handler c 0 8) as [[c' s'] k].
  destruct H as (H1 & H2 & _); [unfold is_u64; cbn; lia|lia|].
  unfold RING_SIZE in H1. split; [lia|exact H2].
Defined.

Lemma doorbell_lost_between_witness :
  let '(c', _, k) := process_from demo_handler (fst (ring3_send (init page0) (mkEnt 7 1 2 3))) 0 0 8 in
  k = 0 /\ subq (abs (c', 0)) = [mkEnt 7 1 2 3] /\ ring0_has_work c' = false.
Proof.
  exact (doorbell_lost_between demo_handler (init page0) 0 (mkEnt 7 1 2 3) 8 0 (init_wf page0 eq_refl eq_refl)
    eq_refl eq_refl eq_refl).
Defined.

Lemma service_all_budget_witness :
  let k := mkChan (replicate 16 (init page0)) [] in
  snd (service_all (fun s key => s + key) Z.of_nat k 0) <= 128.
Proof.
  intros k. pose proof (service_all_budget (fun s key => s + key) Z.of_nat k 0) as H.
  destruct (service_all _ _ k 0) as [[k' s'] t]. destruct H as ([H0 H] & _).
  - unfold tails_ok. cbn. repeat constructor; unfold is_u64; cbn; lia.
  - exact H.
Defined.
