(* ===== verification/Sched.v ===== *)
(** The kernel scheduler: the table of [MAX_TASKS] tasks, the choice of the
    next one, the switch, the timer tick, waiting and waking, birth, death and
    the reaping of kernel stacks and address spaces.
    Source: src/Ultra_kernel_x86-64/kernel/src/ring0/task/scheduler/{roja,verde}.rs.

    [SCHED_LOCK] makes each function one step on [world]: the table, the
    per-CPU cell the trap path reads ([cpu_st]), the frame allocator of [Phys]
    and the book of freed stacks.  What the code reads from the machine (RSP,
    the TSC, the tick) arrives in an [env].  Parameters: the page-table code
    ([kernel_pml4], [destroy_address_space]) and [trap::fabricate].  The seal
    of the outgoing context, the [SWITCH_SNAP] diagnostics and the CABINA
    messages are not modelled. *)

From Stdlib Require Import ZifyNat.
From stdpp Require Import gmap.
From S2P Require Import Prelude Titular Phys.

Definition MAX_TASKS : nat := 64.
Definition DEFAULT_QUANTUM_TICKS : Z := 4.
Definition QUANTUM_DELANTE : Z := 8.
Definition TASK_STACK_PAGES : Z := 4.
Definition HIGH_MEM_BASE : Z := 0xFFFF800000000000.
Definition phys_to_virt (phys : Z) : Z := w64 (phys + HIGH_MEM_BASE).

Inductive TaskState := Empty | Ready | Running | Blocked | Exited.

#[export] Instance TaskState_eq_dec : EqDecision TaskState.
Proof. solve_decision. Defined.

Record Task := mkTask {
  tid : Z; pid : Z; state : TaskState; priority : Z;
  remaining_ticks : Z; quantum : Z;
  context_rsp : Z; stack_phys : Z; stack_pages : Z;
  wait_key : Z; wait_deadline : Z;
  is_user : bool; cr3 : Z; kernel_stack_top : Z;
  cpu_ciclos : Z; entro_en : Z
}.

Definition EMPTY : Task :=
  mkTask 0 0 Empty 0 0 DEFAULT_QUANTUM_TICKS 0 0 0 0 0 false 0 0 0 0.
#[export] Instance Task_inhabited : Inhabited Task := populate EMPTY.

(** Assignments to fields. *)
Definition set_state (st : TaskState) (t : Task) : Task :=
  mkTask (tid t) (pid t) st (priority t) (remaining_ticks t) (quantum t) (context_rsp t)
    (stack_phys t) (stack_pages t) (wait_key t) (wait_deadline t) (is_user t) (cr3 t)
    (kernel_stack_top t) (cpu_ciclos t) (entro_en t).
Definition set_wait (key deadline : Z) (t : Task) : Task :=
  mkTask (tid t) (pid t) (state t) (priority t) (remaining_ticks t) (quantum t) (context_rsp t)
    (stack_phys t) (stack_pages t) key deadline (is_user t) (cr3 t)
    (kernel_stack_top t) (cpu_ciclos t) (entro_en t).
Definition set_ticks (remaining q : Z) (t : Task) : Task :=
  mkTask (tid t) (pid t) (state t) (priority t) remaining q (context_rsp t)
    (stack_phys t) (stack_pages t) (wait_key t) (wait_deadline t) (is_user t) (cr3 t)
    (kernel_stack_top t) (cpu_ciclos t) (entro_en t).
Definition set_context (rsp : Z) (t : Task) : Task :=
  mkTask (tid t) (pid t) (state t) (priority t) (remaining_ticks t) (quantum t) rsp
    (stack_phys t) (stack_pages t) (wait_key t) (wait_deadline t) (is_user t) (cr3 t)
    (kernel_stack_top t) (cpu_ciclos t) (entro_en t).
Definition set_cuenta (ciclos entro : Z) (t : Task) : Task :=
  mkTask (tid t) (pid t) (state t) (priority t) (remaining_ticks t) (quantum t) (context_rsp t)
    (stack_phys t) (stack_pages t) (wait_key t) (wait_deadline t) (is_user t) (cr3 t)
    (kernel_stack_top t) ciclos entro.

(** [Scheduler] and the static [IDLE]. *)
Record Scheduler := mkSched {
  tasks : list Task; current : nat; next_tid : Z; IDLE : nat
}.
Definition set_tasks (s : Scheduler) (l : list Task) : Scheduler :=
  mkSched l (current s) (next_tid s) (IDLE s).
Definition on_task (s : Scheduler) (i : nat) (f : Task -> Task) : Scheduler :=
  set_tasks s (alter f i (tasks s)).
Definition task (s : Scheduler) (i : nat) : Task := tasks s !!! i.
Definition current_task (s : Scheduler) : Task := task s (current s).

(** The cell of [percpu], the TSS and CR3. *)
Record cpu_st := mkCpu { trap_rsp : Z; cr3_reg : Z; tss_rsp0 : Z; syscall_stack_top : Z }.

(** [percpu::set_trap_rsp]; the entry stub of every trap writes the same cell
    with the context it has just saved. *)
Definition set_trap_rsp (rsp : Z) (c : cpu_st) : cpu_st :=
  mkCpu rsp (cr3_reg c) (tss_rsp0 c) (syscall_stack_top c).

Record PilaMuerta := mkPila { m_tid : Z; m_base : Z; m_paginas : Z; m_tick : Z; m_motivo : Z }.
Definition MORGUE_FICHAS : Z := 32.

Record world := mkWorld {
  sch : Scheduler; cpu : cpu_st; mem : phys_st;
  morgue : list PilaMuerta; morgue_n : Z;
  latido_cuenta : Z                     (* latido::CUENTA *)
}.
Definition with_sch (w : world) (s : Scheduler) : world :=
  mkWorld s (cpu w) (mem w) (morgue w) (morgue_n w) (latido_cuenta w).
Definition with_cpu (w : world) (c : cpu_st) : world :=
  mkWorld (sch w) c (mem w) (morgue w) (morgue_n w) (latido_cuenta w).
Definition with_mem (w : world) (p : phys_st) : world :=
  mkWorld (sch w) (cpu w) p (morgue w) (morgue_n w) (latido_cuenta w).

(** What the machine answers during one call. *)
Record env := mkEnv { rsp_ahora : Z; ticks : Z; rdtsc : Z }.

Definition is_state (st : TaskState) (t : Task) : bool := bool_decide (state t = st).

(** ** The choice *)

Definition better (best : option (nat * Z)) (t : Task) : bool :=
  match best with None => true | Some (_, p) => p <? priority t end.

Definition choose_step (s : Scheduler) (best : option (nat * Z)) (offset : nat)
  : option (nat * Z) :=
  let index := ((current s + offset) mod MAX_TASKS)%nat in
  if Nat.eqb index (IDLE s) then best
  else
    let t := task s index in
    if is_state Ready t && better best t then Some (index, priority t) else best.

Definition choose_next (s : Scheduler) : nat :=
  match foldl (choose_step s) None (seq 1 MAX_TASKS) with
  | Some (i, _) => i
  | None =>
      if (IDLE s <? MAX_TASKS)%nat && is_state Ready (task s (IDLE s)) then IDLE s
      else current s
  end.

Definition init (w : world) : world :=
  let t0 := mkTask 1 0 Running 0 DEFAULT_QUANTUM_TICKS DEFAULT_QUANTUM_TICKS 0 0 0 0 0 false 0 0 0 0 in
  with_sch w (mkSched (<[0%nat := t0]> (replicate MAX_TASKS EMPTY)) 0 2 (IDLE (sch w))).

Inductive Saliente := Publicado | Ninguno.

Definition anotar_muerta (w : world) (e : env) (t base paginas motivo : Z) : world :=
  let n := Z.to_nat (morgue_n w mod MORGUE_FICHAS) in
  mkWorld (sch w) (cpu w) (mem w)
    (<[n := mkPila t base paginas (ticks e) motivo]> (morgue w)) (w64 (morgue_n w + 1)) (latido_cuenta w).

(** [for p in 0..stack_pages]. *)
Fixpoint libera_pila (m : phys_st) (base p : Z) (n : nat) (tick : Z) : phys_st :=
  match n with
  | O => m
  | S n => libera_pila (free_frame m (w64 (base + w64 (p * PAGE))) tick) base (p + 1) n tick
  end.

Section Machine.
Variable kernel_pml4 : Z.
Variable destroy_address_space : phys_st -> Z -> phys_st.

(** Is [p] inside the stack of [t], seen through the physmap? *)
Definition dentro (t : Task) (p : Z) : bool :=
  let ini := phys_to_virt (stack_phys t) in
  (ini <=? p) && (p <? w64 (ini + w64 (stack_pages t * PAGE))).

(** Does another live task keep its context in the stack of task [i]? *)
Definition contexto_ajeno (s : Scheduler) (i : nat) : bool :=
  existsb (fun j => negb (Nat.eqb j i) && negb (is_state Empty (task s j))
                    && dentro (task s i) (context_rsp (task s j))) (seq 0 (length (tasks s))).

Definition motivo_de (w : world) (i : nat) : Z :=
  let t := task (sch w) i in
  let m := if dentro t (tss_rsp0 (cpu w)) then 1 else 0 in
  let m := if dentro t (syscall_stack_top (cpu w)) then Z.lor m 2 else m in
  let m := if dentro t (trap_rsp (cpu w)) then Z.lor m 4 else m in
  if contexto_ajeno (sch w) i then Z.lor m 8 else m.

Definition compartido (s : Scheduler) (i : nat) : bool :=
  let t := task s i in
  existsb (fun j => let o := task s j in
    negb (Nat.eqb j i) && negb (is_state Empty o) && negb (tid o =? tid t) && (cr3 o =? cr3 t))
    (seq 0 (length (tasks s))).

(** One turn of [reap]. *)
Definition reap_one (e : env) (current_tid : Z) (w : world) (i : nat) : world :=
  let t := task (sch w) i in
  if negb (is_state Exited t) || (tid t =? current_tid) then w
  else if negb (stack_phys t =? 0) && dentro t (rsp_ahora e) then w
  else
    let w :=
      if stack_phys t =? 0 then w
      else
        let w := anotar_muerta w e (tid t) (stack_phys t) (stack_pages t) (motivo_de w i) in
        with_mem w (libera_pila (mem w) (stack_phys t) 0 (Z.to_nat (stack_pages t)) (ticks e)) in
    let w :=
      if is_user t && negb (cr3 t =? 0) && negb (cr3 t =? kernel_pml4) && negb (compartido (sch w) i)
      then with_mem w (destroy_address_space (mem w) (cr3 t)) else w in
    with_sch w (on_task (sch w) i (fun _ => EMPTY)).

Definition reap (e : env) (w : world) : world :=
  foldl (reap_one e (tid (current_task (sch w)))) w (seq 0 (length (tasks (sch w)))).

(** ** The switch *)

Definition marca_ready (s : Scheduler) : Scheduler :=
  if is_state Running (current_task s) then on_task s (current s) (set_state Ready) else s.

(** The accounting and the state of the switch from [current] to [next]. *)
Definition cambia (e : env) (s : Scheduler) (next : nat) : Scheduler :=
  let s :=
    if entro_en (current_task s) =? 0 then s
    else on_task s (current s) (fun t =>
           set_cuenta (w64 (cpu_ciclos t + w64 (rdtsc e - entro_en t))) 0 t) in
  let s := on_task s next (fun t =>
             set_ticks (quantum t) (quantum t)
               (set_state Running (set_cuenta (cpu_ciclos t) (rdtsc e) t))) in
  mkSched (tasks s) next (next_tid s) (IDLE s).

Definition carga_cpu (c : cpu_st) (t : Task) (next_rsp : Z) : cpu_st :=
  let next_cr3 := if is_user t then cr3 t else kernel_pml4 in
  let top := kernel_stack_top t in
  if top =? 0 then mkCpu next_rsp next_cr3 (tss_rsp0 c) (syscall_stack_top c)
  else mkCpu next_rsp next_cr3 top top.

Definition schedule_locked (e : env) (w : world) (saliente : Saliente) : world :=
  let outgoing := trap_rsp (cpu w) in
  let s := marca_ready (sch w) in
  let next := choose_next s in
  if Nat.eqb next (current s) then
    let s := if is_state Ready (task s next) then on_task s next (set_state Running) else s in
    reap e (with_sch w s)
  else
    let next_rsp := context_rsp (task s next) in
    if next_rsp =? 0 then
      with_sch w (if is_state Running (current_task s) then s
                  else on_task s (current s) (set_state Running))
    else
      let s := match saliente with
               | Publicado =>
                   if outgoing =? 0 then s else on_task s (current s) (set_context outgoing)
               | Ninguno => s
               end in
      let s := cambia e s next in
      reap e (mkWorld s (carga_cpu (cpu w) (task s next) next_rsp) (mem w) (morgue w) (morgue_n w) (latido_cuenta w)).

(** [current != 0] and [Running]: the only tasks that can die here. *)
Definition mark_exit (s : Scheduler) : Scheduler :=
  if negb (Nat.eqb (current s) 0) && is_state Running (current_task s)
  then on_task s (current s) (set_state Exited) else s.

Definition kill_current_and_pick (e : env) (w : world) : world * Z :=
  let w := schedule_locked e (with_sch w (mark_exit (sch w))) Ninguno in
  (w, trap_rsp (cpu w)).

(** ** The tick *)

Definition LLAVE : Z := 0x1A71D0.

Definition wake_task (t : Task) : Task := set_state Ready (set_wait 0 0 t).

Definition tick_task (now : Z) (t : Task) : Task :=
  if is_state Blocked t && negb (wait_deadline t =? 0) && (wait_deadline t <=? now) then wake_task t
  else if is_state Blocked t && (wait_key t =? LLAVE) then wake_task t
  else t.

(** [latido::tic], under the scheduler's lock. *)
Definition tic (w : world) : world :=
  mkWorld (sch w) (cpu w) (mem w) (morgue w) (morgue_n w) (w64 (latido_cuenta w + 1)).

Definition on_timer (e : env) (now : Z) (w : world) : world :=
  let w := tic w in
  let s := set_tasks (sch w) (tick_task now <$> tasks (sch w)) in
  let c := current_task s in
  if is_state Running c && (1 <? remaining_ticks c) then
    with_sch w (on_task s (current s) (fun t => set_ticks (remaining_ticks t - 1) (quantum t) t))
  else
    schedule_locked e
      (with_sch w (on_task s (current s) (fun t => set_ticks (quantum t) (quantum t) t))) Publicado.

Definition wake_by_key (w : world) (key : Z) : world :=
  with_sch w (set_tasks (sch w)
    ((fun t => if is_state Blocked t && (wait_key t =? key) then wake_task t else t)
     <$> tasks (sch w))).

(** ** Birth *)

(** [s.next_tid.wrapping_add(1).max(2)]. *)
Definition tid_siguiente (t : Z) : Z := Z.max (w32 (t + 1)) 2.

Definition nace (s : Scheduler) (index : nat) (t : Task) : Scheduler :=
  mkSched (<[index := t]> (tasks s)) (current s) (tid_siguiente (next_tid s)) (IDLE s).

Variable fabricate : Z -> Z -> Z -> Z.

Definition spawn_kernel (w : world) (entry arg prio : Z) : world * option Z :=
  match alloc_frames_contig_de (mem w) TASK_STACK_PAGES Pila with
  | (m, None) => (with_mem w m, None)
  | (m, Some stack_base) =>
      let w := with_mem w m in
      let stack_top := w64 (phys_to_virt stack_base + w64 (TASK_STACK_PAGES * PAGE)) in
      let context := fabricate stack_top entry arg in
      let s := sch w in
      match position (is_state Empty) (tasks s) with
      | None => (w, None)
      | Some index =>
          (with_sch w (nace s index
             (mkTask (next_tid s) 0 Ready (Z.min prio 31) DEFAULT_QUANTUM_TICKS
                DEFAULT_QUANTUM_TICKS context stack_base TASK_STACK_PAGES 0 0 false 0 stack_top 0 0)),
           Some (next_tid s))
      end
  end.

Definition spawn_user (w : world) (p rsp kstack kpages ktop c prio : Z) : world * option Z :=
  let s := sch w in
  match position (is_state Empty) (tasks s) with
  | None => (w, None)
  | Some index =>
      (with_sch w (nace s index
         (mkTask (next_tid s) p Ready (Z.min prio 31) DEFAULT_QUANTUM_TICKS
            DEFAULT_QUANTUM_TICKS rsp kstack kpages 0 0 true c ktop 0 0)),
       Some (next_tid s))
  end.

Definition init_idle (w : world) (idle_thread : Z) : world * option Z :=
  match spawn_kernel w idle_thread 0 0 with
  | (w, None) => (w, None)
  | (w, Some t) =>
      let s := sch w in
      match position (fun k => tid k =? t) (tasks s) with
      | Some i => (with_sch w (mkSched (tasks s) (current s) (next_tid s) i), Some t)
      | None => (w, Some t)
      end
  end.

(** ** What a task does to itself *)

Definition mark_yield (s : Scheduler) : Scheduler :=
  if is_state Running (current_task s) then on_task s (current s) (set_state Ready) else s.

Definition mark_wait (s : Scheduler) (key deadline : Z) : Scheduler :=
  if is_state Running (current_task s)
  then on_task s (current s) (fun t => set_wait key deadline (set_state Blocked t)) else s.

Definition yield_current (e : env) (w : world) : world :=
  schedule_locked e (with_sch w (mark_yield (sch w))) Publicado.
Definition exit_current (e : env) (w : world) : world :=
  schedule_locked e (with_sch w (mark_exit (sch w))) Publicado.
Definition wait_current (e : env) (w : world) (key deadline : Z) : world :=
  schedule_locked e (with_sch w (mark_wait (sch w) key deadline)) Publicado.

(** [seq] is read under the lock: its value is [current_seq]. *)
Definition wait_current_checked (e : env) (w : world) (key deadline observed current_seq : Z)
  : world * Z :=
  if negb (current_seq =? observed) then (w, current_seq)
  else (schedule_locked e (with_sch w (mark_wait (sch w) key deadline)) Publicado, observed).

(** The locked part of [park_until] and of [exit_and_park]; the processor
    then halts until a tick chooses it again. *)
Definition park_until (w : world) (deadline : Z) : world :=
  with_sch w (mark_wait (sch w) 0 deadline).
Definition exit_and_park (w : world) : world := with_sch w (mark_exit (sch w)).

Definition cpu_propio (e : env) (w : world) : Z :=
  let t := current_task (sch w) in
  let abierto := if entro_en t =? 0 then 0 else w64 (rdtsc e - entro_en t) in
  w64 (cpu_ciclos t + abierto).

(** ** What one task does to another *)

Definition delante_task (target : Z) (t : Task) : Task :=
  if negb (is_user t) || is_state Empty t then t
  else if tid t =? target then set_ticks (remaining_ticks t) QUANTUM_DELANTE t
  else set_ticks (remaining_ticks t) DEFAULT_QUANTUM_TICKS t.

Definition delante (w : world) (target : Z) : world * bool :=
  let encontrada :=
    existsb (fun t => is_user t && negb (is_state Empty t) && (tid t =? target)) (tasks (sch w)) in
  (with_sch w (set_tasks (sch w) (delante_task target <$> tasks (sch w))), encontrada).

(** The first task with that tid, slot 0 aside. *)
Definition busca_tid (s : Scheduler) (target : Z) : option nat :=
  S <$> position (fun t => tid t =? target) (drop 1 (tasks s)).

Definition terminar (w : world) (target : Z) : world * bool :=
  match busca_tid (sch w) target with
  | None => (w, false)
  | Some i =>
      let t := task (sch w) i in
      if negb (is_user t) then (w, false)
      else if is_state Empty t || is_state Exited t then (w, false)
      else (with_sch w (on_task (sch w) i (set_state Exited)), true)
  end.

(** [limpieza_de_ring3]: the pids of the live tasks of Ring 3, the
    revocations (a parameter: [cap::revoke_all] runs in every object module),
    and the kill of every task of those pids. *)
Definition es_viva (t : Task) : bool :=
  is_user t && negb (is_state Empty t) && negb (is_state Exited t).
Definition pids_de_ring3 (s : Scheduler) : list Z := pid <$> filter es_viva (drop 1 (tasks s)).

Definition limpieza_mata (pids : list Z) (i : nat) (t : Task) : Task :=
  if negb (Nat.eqb i 0) && es_viva t && bool_decide (pid t ∈ pids) then set_state Exited t else t.

(** The last pass, the only one that writes the table, under its own lock. *)
Definition limpieza_marca (pids : list Z) (w : world) : world :=
  with_sch w (set_tasks (sch w) (imap (limpieza_mata pids) (tasks (sch w)))).

Definition limpieza_de_ring3 (revoke_all : world -> Z -> world) (w : world) : world * (Z * Z) :=
  let libres_antes := snd (stats (mem w)) in
  let pids := pids_de_ring3 (sch w) in
  let w := foldl revoke_all w pids in
  let muertas := length (filter (fun t => es_viva t /\ pid t ∈ pids) (drop 1 (tasks (sch w)))) in
  (limpieza_marca pids w, (Z.of_nat muertas, libres_antes)).
End Machine.

(** ** Readers (verde.rs) *)

Definition state_code (st : TaskState) : Z :=
  match st with Empty => 0 | Ready => 1 | Running => 2 | Blocked => 3 | Exited => 4 end.

Definition find_task (p : Task -> bool) (s : Scheduler) : option Task :=
  match position p (tasks s) with Some i => Some (task s i) | None => None end.

Definition tid_state (s : Scheduler) (t : Z) : Z :=
  match find_task (fun k => (tid k =? t) && negb (is_state Empty k)) s with
  | Some k => state_code (state k) | None => 255
  end.
Definition quien_corre (s : Scheduler) : Z * bool := (tid (current_task s), is_user (current_task s)).
Definition titular_de_pila (s : Scheduler) (rsp : Z) : option (Z * bool) :=
  match find_task (fun t => negb ((stack_phys t =? 0) || (stack_pages t =? 0)) && dentro t rsp) s with
  | Some t => Some (tid t, is_user t) | None => None
  end.
Definition fue_de_quien (w : world) (rsp : Z) : option (Z * Z * Z) :=
  let en f := negb (m_paginas f =? 0) && (phys_to_virt (m_base f) <=? rsp)
              && (rsp <? w64 (phys_to_virt (m_base f) + w64 (m_paginas f * PAGE))) in
  match position en (morgue w) with
  | Some i => (fun f => (m_tid f, m_tick f, m_motivo f)) <$> morgue w !! i
  | None => None
  end.
Definition context_rsp_of (s : Scheduler) (t : Z) : Z :=
  match find_task (fun k => (tid k =? t) && is_state Blocked k) s with
  | Some k => context_rsp k | None => 0
  end.
Definition queda_alguna_de_ring3 (s : Scheduler) : bool :=
  existsb (fun t => is_user t && negb (is_state Empty t)) (tasks s).
Definition hay_hueco (s : Scheduler) : bool := existsb (is_state Empty) (tasks s).
Definition huecos_libres (s : Scheduler) : nat := length (filter (is_state Empty) (tasks s)).
Definition current_state (s : Scheduler) : TaskState := state (current_task s).
Definition current_tid (s : Scheduler) : Z := tid (current_task s).
Definition current_pid (s : Scheduler) : Z := pid (current_task s).
Definition cr3_de_pid (s : Scheduler) (p : Z) : option Z :=
  cr3 <$> find_task (fun t => (pid t =? p) && negb (is_state Empty t) && is_user t) s.
Definition vive (s : Scheduler) (t : Z) : bool :=
  existsb (fun k => (tid k =? t) && negb (is_state Empty k)) (tasks s).
Definition pid_de (s : Scheduler) (t : Z) : option Z :=
  pid <$> find_task (fun k => (tid k =? t) && negb (is_state Empty k)) s.
Definition tid_de (s : Scheduler) (p : Z) : option Z :=
  tid <$> find_task (fun k => (pid k =? p) && negb (is_state Empty k) && negb (is_state Exited k)) s.
Definition counts (s : Scheduler) : nat * nat :=
  (length (filter (fun t => negb (is_state Empty t)) (tasks s)),
   length (filter (fun t => is_state Ready t || is_state Running t) (tasks s))).

Definition ns_to_tsc (tsc_freq ns : Z) : Z :=
  if tsc_freq =? 0 then 0 else w64 (ns * tsc_freq / 1000000000).

(** * The table *)

Lemma is_state_true st t : is_state st t = true <-> state t = st.
Proof. apply bool_decide_eq_true. Qed.
Lemma is_state_false st t : is_state st t = false <-> state t <> st.
Proof. apply bool_decide_eq_false. Qed.

Lemma task_on_task s i f j : (i < length (tasks s))%nat ->
  task (on_task s i f) j = if decide (i = j) then f (task s j) else task s j.
Proof.
  intros Hi. unfold task, on_task, set_tasks. cbn [tasks]. case_decide as E.
  - subst j. by rewrite list_lookup_total_alter, decide_True.
  - rewrite list_lookup_total_alter, decide_False; [done|]. by intros [? _].
Qed.

Lemma task_mk s c n d j : task (mkSched (tasks s) c n d) j = task s j.
Proof. done. Qed.

Lemma length_on_task s i f : length (tasks (on_task s i f)) = length (tasks s).
Proof. apply length_alter. Qed.

Lemma task_fmap s g j : (j < length (tasks s))%nat ->
  task (set_tasks s (g <$> tasks s)) j = g (task s j).
Proof.
  intros Hj. unfold task, set_tasks. cbn [tasks]. by apply list_lookup_total_fmap.
Qed.

(** ** The invariant *)

(** At most one task runs, and it is [current]; live tasks have distinct tids
    below [next_tid]; slot 0, the boot context, never dies and is not of
    Ring 3. *)
Record sched_ok (s : Scheduler) : Prop := {
  ok_len : length (tasks s) = MAX_TASKS;
  ok_cur : (current s < MAX_TASKS)%nat;
  ok_run : forall i, (i < MAX_TASKS)%nat -> state (task s i) = Running -> i = current s;
  ok_tid : forall i, (i < MAX_TASKS)%nat -> state (task s i) <> Empty -> 1 <= tid (task s i) < next_tid s;
  ok_uni : forall i j, (i < MAX_TASKS)%nat -> (j < MAX_TASKS)%nat ->
    state (task s i) <> Empty -> state (task s j) <> Empty ->
    tid (task s i) = tid (task s j) -> i = j;
  ok_zero : state (task s 0) <> Empty /\ state (task s 0) <> Exited /\ is_user (task s 0) = false;
  ok_live : state (current_task s) <> Empty;
  ok_next : 2 <= next_tid s < 2 ^ 32
}.

(** What a step that creates no task may do to one. *)
Definition keeps (t t' : Task) : Prop :=
  tid t' = tid t /\ is_user t' = is_user t /\ (state t' = Empty <-> state t = Empty).
Definition evolves (t t' : Task) : Prop := t' = EMPTY \/ keeps t t'.

Lemma sched_ok_evolves s s' :
  sched_ok s -> length (tasks s') = MAX_TASKS -> (current s' < MAX_TASKS)%nat ->
  next_tid s' = next_tid s ->
  (forall i, (i < MAX_TASKS)%nat -> evolves (task s i) (task s' i)) ->
  (forall i, (i < MAX_TASKS)%nat -> state (task s' i) = Running -> i = current s') ->
  state (task s' 0) <> Empty /\ state (task s' 0) <> Exited ->
  state (current_task s') <> Empty ->
  sched_ok s'.
Proof.
  intros Hs Hl Hc Hn He Hr H0 Hcl.
  assert (Hlive : forall i, (i < MAX_TASKS)%nat -> state (task s' i) <> Empty ->
    tid (task s' i) = tid (task s i) /\ state (task s i) <> Empty).
  { intros i Hi Hne. destruct (He i Hi) as [E|(Ht & _ & Hst)].
    - exfalso. apply Hne. by rewrite E.
    - split; [done|]. intros E. by apply Hne, Hst. }
  split; try done.
  - intros i Hi Hne. destruct (Hlive i Hi Hne) as [-> H]. rewrite Hn. by apply Hs.
  - intros i j Hi Hj Hne Hne' Heq.
    destruct (Hlive i Hi Hne) as [Ei H1], (Hlive j Hj Hne') as [Ej H2].
    apply (ok_uni s Hs); try done. congruence.
  - destruct H0 as [H0 H1]. split_and!; try done.
    destruct (He 0%nat) as [E|(_ & -> & _)]; [unfold MAX_TASKS; lia| |apply Hs].
    exfalso. apply H0. by rewrite E.
  - rewrite Hn. apply Hs.
Qed.

Lemma keeps_refl t : keeps t t.
Proof. unfold keeps. split_and!; done. Qed.
Lemma evolves_refl t : evolves t t.
Proof. right. apply keeps_refl. Qed.

(** A change of one task's fields that keeps who it is and whether it lives. *)
Lemma sched_ok_on_task s i f :
  sched_ok s -> (i < MAX_TASKS)%nat ->
  keeps (task s i) (f (task s i)) ->
  (state (f (task s i)) = Running -> i = current s) ->
  (i = 0%nat -> state (f (task s i)) <> Exited) ->
  sched_ok (on_task s i f).
Proof.
  intros Hs Hi He Hr H0.
  assert (Hl : (i < length (tasks s))%nat) by (by rewrite (ok_len s Hs)).
  apply (sched_ok_evolves s); try done.
  - rewrite length_on_task. apply Hs.
  - apply Hs.
  - intros j Hj. rewrite task_on_task by done. case_decide; [subst; by right|apply evolves_refl].
  - intros j Hj. rewrite task_on_task by done. case_decide as E.
    + subst. intros. by apply Hr.
    + apply (ok_run s Hs); done.
  - destruct (ok_zero s Hs) as (? & ? & _).
    rewrite task_on_task by done. case_decide as E; [|done]. subst.
    split; [|by apply H0]. destruct He as (_ & _ & He). by rewrite He.
  - unfold current_task. rewrite task_on_task by done. case_decide as E; [|apply Hs].
    destruct He as (_ & _ & He). rewrite E in He |- *. cbn [current on_task set_tasks] in *.
    rewrite He. apply Hs.
Qed.

(** The same for a change of every task. *)
Lemma sched_ok_fmap s g :
  sched_ok s -> (forall t, keeps t (g t)) ->
  (forall t, state (g t) = Running -> state t = Running) ->
  (forall t, is_user t = false -> state t <> Exited -> state (g t) <> Exited) ->
  sched_ok (set_tasks s (g <$> tasks s)).
Proof.
  intros Hs He Hr H0.
  assert (Ht : forall i, (i < MAX_TASKS)%nat -> task (set_tasks s (g <$> tasks s)) i = g (task s i))
    by (intros i Hi; apply task_fmap; by rewrite (ok_len s Hs)).
  apply (sched_ok_evolves s); try done.
  - cbn. rewrite length_fmap. apply Hs.
  - apply Hs.
  - intros i Hi. rewrite Ht by done. right. apply He.
  - intros i Hi. rewrite Ht by done. intros E%Hr. apply (ok_run s Hs); done.
  - rewrite Ht by (unfold MAX_TASKS; lia).
    destruct (ok_zero s Hs) as (H1 & H2 & H3). split; [|by apply H0].
    destruct (He (task s 0)) as (_ & _ & E). by rewrite E.
  - unfold current_task. cbn [current set_tasks]. rewrite Ht by apply Hs.
    destruct (He (task s (current s))) as (_ & _ & E). rewrite E. apply Hs.
Qed.

(** ** The choice *)

Definition idx (s : Scheduler) (o : nat) : nat := ((current s + o) mod MAX_TASKS)%nat.
(** How many turns of the loop reach slot [j]: 1 for the next one, 64 for the
    current one. *)
Definition vuelta (s : Scheduler) (j : nat) : nat :=
  (Nat.modulo (j + (MAX_TASKS - 1) - current s) MAX_TASKS + 1)%nat.

Lemma idx_vuelta s j : (current s < MAX_TASKS)%nat -> (j < MAX_TASKS)%nat -> idx s (vuelta s j) = j.
Proof. unfold idx, vuelta, MAX_TASKS. lia. Qed.
Lemma vuelta_idx s o : (current s < MAX_TASKS)%nat -> (1 <= o <= MAX_TASKS)%nat -> vuelta s (idx s o) = o.
Proof. unfold idx, vuelta, MAX_TASKS. lia. Qed.
Lemma vuelta_range s j : (1 <= vuelta s j <= MAX_TASKS)%nat.
Proof. unfold vuelta, MAX_TASKS. lia. Qed.
Lemma idx_lt s o : (idx s o < MAX_TASKS)%nat.
Proof. unfold idx, MAX_TASKS. lia. Qed.

(** A task the strict order may choose. *)
Definition candidate (s : Scheduler) (j : nat) : Prop :=
  j <> IDLE s /\ state (task s j) = Ready.

Lemma choose_fold s n :
  match foldl (choose_step s) None (seq 1 n) with
  | None => forall o, (1 <= o <= n)%nat -> ~ candidate s (idx s o)
  | Some (i, p) =>
      exists o, (1 <= o <= n)%nat /\ i = idx s o /\ candidate s i /\ p = priority (task s i) /\
        forall o', (1 <= o' <= n)%nat -> candidate s (idx s o') ->
          priority (task s (idx s o')) <= p /\
          ((o' < o)%nat -> priority (task s (idx s o')) < p)
  end.
Proof.
  induction n as [|n IH]; [cbn; intros; lia|].
  rewrite seq_S, foldl_app. cbn [foldl].
  set (best := foldl (choose_step s) None (seq 1 n)) in *.
  unfold choose_step. fold (idx s (1 + n)). change (1 + n)%nat with (S n).
  destruct (Nat.eqb_spec (idx s (S n)) (IDLE s)) as [Hidle|Hidle].
  { assert (Hno : ~ candidate s (idx s (S n))) by (by intros [H _]).
    destruct best as [[i p]|].
    - destruct IH as (o & Ho & Hi & Hc & Hp & Hmax). exists o. split_and!; try (done || lia).
      intros o' Ho' Hc'. apply Hmax; [|done]. destruct (decide (o' = S n)) as [->|]; [done|lia].
    - intros o Ho. destruct (decide (o = S n)) as [->|]; [done|]. apply IH. lia. }
  destruct (is_state Ready (task s (idx s (S n)))) eqn:Er; cbn [andb].
  2:{ apply is_state_false in Er.
      assert (Hno : ~ candidate s (idx s (S n))) by (by intros [_ H]).
      destruct best as [[i p]|].
      - destruct IH as (o & Ho & Hi & Hc & Hp & Hmax). exists o. split_and!; try (done || lia).
        intros o' Ho' Hc'. apply Hmax; [|done]. destruct (decide (o' = S n)) as [->|]; [done|lia].
      - intros o Ho. destruct (decide (o = S n)) as [->|]; [done|]. apply IH. lia. }
  apply is_state_true in Er. assert (Hyes : candidate s (idx s (S n))) by done.
  destruct best as [[i p]|]; cbn [better].
  - destruct IH as (o & Ho & Hi & Hc & Hp & Hmax). case_if; bdestr.
    + exists (S n). split_and!; try (done || lia). intros o' Ho' Hc'.
      destruct (decide (o' = S n)) as [->|]; [split; lia|].
      destruct (Hmax o' ltac:(lia) Hc'). split; intros; lia.
    + exists o. split_and!; try (done || lia). intros o' Ho' Hc'.
      destruct (decide (o' = S n)) as [->|]; [split; lia|]. apply Hmax; [lia|done].
  - exists (S n). split_and!; try (done || lia). intros o' Ho' Hc'.
    destruct (decide (o' = S n)) as [->|]; [split; lia|]. exfalso. apply (IH o'); [lia|done].
Qed.

(** What the choice answers when somebody may be chosen, and when nobody. *)
Lemma choose_next_some s j :
  (current s < MAX_TASKS)%nat -> (j < MAX_TASKS)%nat -> candidate s j ->
  let i := choose_next s in
  (i < MAX_TASKS)%nat /\ candidate s i /\
  priority (task s j) <= priority (task s i) /\
  ((vuelta s j < vuelta s i)%nat -> priority (task s j) < priority (task s i)).
Proof.
  intros Hc Hj Hcand. unfold choose_next. pose proof (choose_fold s MAX_TASKS) as H.
  destruct (foldl _ _ _) as [[i p]|]; cbn zeta.
  - destruct H as (o & Ho & -> & Hci & -> & Hmax).
    split; [apply idx_lt|]. split; [done|].
    specialize (Hmax (vuelta s j) (vuelta_range s j)).
    rewrite idx_vuelta in Hmax by done. rewrite vuelta_idx by done. by apply Hmax.
  - exfalso. apply (H (vuelta s j) (vuelta_range s j)). by rewrite idx_vuelta.
Qed.

Lemma choose_next_none s :
  (current s < MAX_TASKS)%nat -> (forall j, (j < MAX_TASKS)%nat -> ~ candidate s j) ->
  choose_next s =
    if decide ((IDLE s < MAX_TASKS)%nat /\ state (task s (IDLE s)) = Ready) then IDLE s else current s.
Proof.
  intros Hc Hno. unfold choose_next. pose proof (choose_fold s MAX_TASKS) as H.
  destruct (foldl _ _ _) as [[i p]|].
  - destruct H as (o & Ho & -> & Hci & _). exfalso. by apply (Hno (idx s o) (idx_lt s o)).
  - destruct (Nat.ltb_spec (IDLE s) MAX_TASKS); cbn [andb].
    + destruct (is_state Ready (task s (IDLE s))) eqn:E.
      * apply is_state_true in E. by rewrite decide_True.
      * apply is_state_false in E. rewrite decide_False; [done|]. by intros [_ ?].
    + rewrite decide_False; [done|]. lia.
Qed.

(** Nothing but [candidate] and [idle] matters, so the choice is decidable. *)
Lemma some_candidate s :
  (exists j, (j < MAX_TASKS)%nat /\ candidate s j) \/
  (forall j, (j < MAX_TASKS)%nat -> ~ candidate s j).
Proof.
  destruct (decide (Exists (fun j => negb (Nat.eqb j (IDLE s)) && is_state Ready (task s j) = true)
    (seq 0 MAX_TASKS))) as [H|H].
  - left. apply Exists_exists in H as (j & Hj & Hp). apply elem_of_seq in Hj.
    apply andb_true_iff in Hp as [H1 H2]. exists j. split; [lia|]. split.
    + intros ->. by rewrite Nat.eqb_refl in H1.
    + by apply is_state_true.
  - right. intros j Hj [H1 H2]. apply H, Exists_exists. exists j. split; [apply elem_of_seq; lia|].
    apply is_state_true in H2. rewrite H2, (proj2 (Nat.eqb_neq _ _) H1). done.
Qed.

Lemma choose_next_cases s :
  (current s < MAX_TASKS)%nat ->
  (choose_next s < MAX_TASKS)%nat /\
  (state (task s (choose_next s)) = Ready \/ choose_next s = current s).
Proof.
  intros Hc. destruct (some_candidate s) as [(j & Hj & Hcand)|Hno].
  - destruct (choose_next_some s j Hc Hj Hcand) as (H1 & [_ H2] & _). auto.
  - rewrite choose_next_none by done. case_decide as E; [by destruct E; auto|auto].
Qed.

(** The choice is strict by priority and circular inside a priority.  If
    any task other than the idle one is [Ready], [choose_next] answers a
    [Ready], non-idle task of the highest priority among them, and of those
    the first one after [current] in circular order; otherwise it answers the
    idle task if it is [Ready], and the current one if not. *)
Theorem choose_next_spec s :
  (current s < MAX_TASKS)%nat ->
  let i := choose_next s in
  (forall j, (j < MAX_TASKS)%nat -> candidate s j ->
     (i < MAX_TASKS)%nat /\ candidate s i /\ priority (task s j) <= priority (task s i) /\
     (priority (task s j) = priority (task s i) -> j <> i -> (vuelta s i < vuelta s j)%nat)) /\
  ((forall j, (j < MAX_TASKS)%nat -> ~ candidate s j) ->
     i = if decide ((IDLE s < MAX_TASKS)%nat /\ state (task s (IDLE s)) = Ready)
         then IDLE s else current s).
Proof.
  intros Hc i. split; [|by apply choose_next_none].
  intros j Hj Hcand. destruct (choose_next_some s j Hc Hj Hcand) as (H1 & H2 & H3 & H4).
  split_and!; [done..|]. fold i in H1, H2, H3, H4. intros Heq Hne.
  assert (vuelta s i <> vuelta s j).
  { intros E. apply Hne. rewrite <- (idx_vuelta s j), <- (idx_vuelta s i) by done. by rewrite E. }
  lia.
Qed.

(** ** Reaping *)

(** What [reap] decides about a task. *)
Definition reapable (e : env) (ct : Z) (t : Task) : bool :=
  is_state Exited t && negb (tid t =? ct)
  && negb (negb (stack_phys t =? 0) && dentro t (rsp_ahora e)).

Definition reaped (e : env) (ct : Z) (t : Task) : Task := if reapable e ct t then EMPTY else t.

(** Everything of the world but the table, the memory and the morgue. *)
Definition same_frame (w w' : world) : Prop :=
  current (sch w') = current (sch w) /\ next_tid (sch w') = next_tid (sch w) /\
  IDLE (sch w') = IDLE (sch w) /\ cpu w' = cpu w /\ latido_cuenta w' = latido_cuenta w.

Section Reap.
Variable kernel_pml4 : Z.
Variable destroy_address_space : phys_st -> Z -> phys_st.
Abbreviation reap_one := (reap_one kernel_pml4 destroy_address_space).
Abbreviation reap := (reap kernel_pml4 destroy_address_space).

Lemma reap_one_sch e ct w i :
  sch (reap_one e ct w i) =
    if reapable e ct (task (sch w) i) then on_task (sch w) i (fun _ => EMPTY) else sch w.
Proof.
  unfold reap_one, reapable.
  destruct (is_state Exited _); cbn [negb andb orb]; [|done].
  destruct (tid _ =? ct); cbn [negb andb]; [done|].
  destruct (negb (stack_phys _ =? 0) && dentro _ _) eqn:E; cbn [negb]; [done|].
  destruct (stack_phys _ =? 0); cbn [negb andb]; repeat case_if; done.
Qed.

Lemma reap_one_frame e ct w i : same_frame w (reap_one e ct w i).
Proof.
  unfold reap_one, same_frame, anotar_muerta, with_mem, with_sch, on_task, set_tasks.
  destruct (stack_phys _ =? 0); cbn [negb andb]; repeat case_if; done.
Qed.

Lemma reap_fold e ct l : forall w,
  (forall i, i ∈ l -> (i < length (tasks (sch w)))%nat) -> NoDup l ->
  let w' := foldl (reap_one e ct) w l in
  same_frame w w' /\ length (tasks (sch w')) = length (tasks (sch w)) /\
  forall j, task (sch w') j =
    if decide (j ∈ l) then reaped e ct (task (sch w) j) else task (sch w) j.
Proof.
  induction l as [|i l IH]; intros w Hin Hnd; cbn [foldl].
  { split; [by unfold same_frame|split; [done|]]. intros j.
    by rewrite decide_False by apply not_elem_of_nil. }
  apply NoDup_cons in Hnd as [Hni Hnd].
  assert (Hi : (i < length (tasks (sch w)))%nat) by (apply Hin, list_elem_of_here).
  assert (Hlen : length (tasks (sch (reap_one e ct w i))) = length (tasks (sch w))).
  { rewrite reap_one_sch. case_if; [apply length_on_task|done]. }
  destruct (IH (reap_one e ct w i)) as (Hf & Hl & Ht); [|done|].
  { intros j Hj. rewrite Hlen. by apply Hin, list_elem_of_further. }
  destruct (reap_one_frame e ct w i) as (F1 & F2 & F3 & F4 & F5).
  destruct Hf as (G1 & G2 & G3 & G4 & G5). split.
  { unfold same_frame. split_and!; congruence. }
  split; [congruence|]. intros j. rewrite Ht, reap_one_sch.
  assert (Hone : task (if reapable e ct (task (sch w) i) then on_task (sch w) i (fun _ => EMPTY)
      else sch w) j = if decide (i = j) then reaped e ct (task (sch w) j) else task (sch w) j).
  { unfold reaped. case_decide as E.
    - subst j. case_if; [|done]. rewrite task_on_task by done. by rewrite decide_True.
    - case_if; [|done]. rewrite task_on_task by done. by rewrite decide_False. }
  rewrite Hone. destruct (decide (j ∈ i :: l)) as [H|H]; rewrite elem_of_cons in H;
    destruct (decide (j ∈ l)), (decide (i = j)); subst; first [done|tauto|destruct H; congruence].
Qed.

Lemma reap_spec e w :
  length (tasks (sch w)) = MAX_TASKS ->
  let w' := reap e w in
  same_frame w w' /\ length (tasks (sch w')) = MAX_TASKS /\
  forall j, (j < MAX_TASKS)%nat ->
    task (sch w') j = reaped e (tid (current_task (sch w))) (task (sch w) j).
Proof.
  intros Hl. unfold Sched.reap.
  destruct (reap_fold e (tid (current_task (sch w))) (seq 0 (length (tasks (sch w)))) w) as (H1 & H2 & H3).
  - intros i Hi%elem_of_seq. lia.
  - apply NoDup_ListNoDup, List.seq_NoDup.
  - split; [exact H1|]. split; [congruence|]. intros j Hj.
    rewrite H3, decide_True; [done|]. apply elem_of_seq. lia.
Qed.

Lemma reaped_evolves e ct t : evolves t (reaped e ct t).
Proof. unfold reaped. case_if; [by left|apply evolves_refl]. Qed.

(** [reap] leaves alone everything that has not exited, and the current task. *)
Lemma reaped_alive e ct t : state t <> Exited \/ tid t = ct -> reaped e ct t = t.
Proof.
  intros H. unfold reaped, reapable. destruct (is_state Exited t) eqn:E; cbn [andb]; [|done].
  apply is_state_true in E. destruct H as [H|H]; [done|].
  by rewrite H, Z.eqb_refl.
Qed.

Lemma reap_ok e w : sched_ok (sch w) -> sched_ok (sch (reap e w)).
Proof.
  intros Hs. destruct (reap_spec e w (ok_len _ Hs)) as ((F1 & F2 & _) & Hl & Ht).
  apply (sched_ok_evolves (sch w)); try done.
  - rewrite F1. apply Hs.
  - intros i Hi. rewrite Ht by done. apply reaped_evolves.
  - intros i Hi. rewrite Ht by done. rewrite F1. unfold reaped. case_if; [done|].
    by apply (ok_run _ Hs).
  - destruct (ok_zero _ Hs) as (H0 & H1 & _).
    rewrite Ht by (unfold MAX_TASKS; lia). rewrite reaped_alive by auto. done.
  - unfold current_task. rewrite F1, Ht by apply Hs.
    rewrite reaped_alive by (by right). apply Hs.
Qed.

(** C14: [reap] empties exactly the slots of the tasks that have exited, except
    the current one and the one whose kernel stack the processor is standing
    on; every other slot, the current task and the per-CPU cell are
    untouched. *)
Theorem reap_exact e w :
  length (tasks (sch w)) = MAX_TASKS -> (current (sch w) < MAX_TASKS)%nat ->
  let w' := reap e w in
  (forall j, (j < MAX_TASKS)%nat ->
     state (task (sch w) j) = Exited ->
     tid (task (sch w) j) <> tid (current_task (sch w)) ->
     stack_phys (task (sch w) j) = 0 \/ dentro (task (sch w) j) (rsp_ahora e) = false ->
     task (sch w') j = EMPTY) /\
  (forall j, (j < MAX_TASKS)%nat ->
     state (task (sch w) j) <> Exited \/
     (stack_phys (task (sch w) j) <> 0 /\ dentro (task (sch w) j) (rsp_ahora e) = true) ->
     task (sch w') j = task (sch w) j) /\
  current_task (sch w') = current_task (sch w) /\ cpu w' = cpu w.
Proof.
  intros Hl Hc. destruct (reap_spec e w Hl) as ((F1 & _ & _ & F4 & _) & _ & Ht).
  split; [|split; [|split; [|done]]].
  - intros j Hj Hst Htid Hdentro. rewrite Ht by done. unfold reaped, reapable.
    apply is_state_true in Hst. rewrite Hst, (proj2 (Z.eqb_neq _ _) Htid). cbn [andb negb].
    destruct Hdentro as [->| ->]; [done|]. by rewrite andb_false_r.
  - intros j Hj H. rewrite Ht by done. destruct H as [H|[H1 H2]].
    { by apply reaped_alive; left. }
    unfold reaped, reapable. rewrite H2, (proj2 (Z.eqb_neq _ _) H1). cbn [negb andb].
    by rewrite andb_false_r.
  - unfold current_task. rewrite F1, Ht by done. by apply reaped_alive; right.
Qed.
End Reap.

(** ** The switch *)

Lemma keeps_trans t1 t2 t3 : keeps t1 t2 -> keeps t2 t3 -> keeps t1 t3.
Proof. unfold keeps. intros (->&->&H1) (->&->&H2). split_and!; try done. by rewrite H2. Qed.

Lemma keeps_state st t : st <> Empty -> state t <> Empty -> keeps t (set_state st t).
Proof. intros H1 H2. unfold keeps. cbn. split_and!; done. Qed.

(** What a switch leaves alone in the tasks that do not enter the CPU. *)
Definition quieto (t t' : Task) : Prop :=
  state t' = state t /\ priority t' = priority t /\
  wait_key t' = wait_key t /\ wait_deadline t' = wait_deadline t /\ tid t' = tid t.

Lemma quieto_refl t : quieto t t.
Proof. by unfold quieto. Qed.
Lemma quieto_trans t1 t2 t3 : quieto t1 t2 -> quieto t2 t3 -> quieto t1 t3.
Proof. unfold quieto. intros (->&->&->&->&->) (->&->&->&->&->). done. Qed.

Section Switch.
Variable kernel_pml4 : Z.
Variable destroy_address_space : phys_st -> Z -> phys_st.
Abbreviation reap := (Sched.reap kernel_pml4 destroy_address_space).
Abbreviation schedule_locked := (Sched.schedule_locked kernel_pml4 destroy_address_space).

Lemma marca_ready_spec s :
  sched_ok s ->
  sched_ok (marca_ready s) /\ current (marca_ready s) = current s /\
  IDLE (marca_ready s) = IDLE s /\
  forall i, (i < MAX_TASKS)%nat ->
    task (marca_ready s) i =
      if decide (state (task s i) = Running) then set_state Ready (task s i) else task s i.
Proof.
  intros Hs. unfold marca_ready.
  assert (Hl : (current s < length (tasks s))%nat) by (rewrite (ok_len s Hs); apply Hs).
  destruct (is_state Running (current_task s)) eqn:E.
  - apply is_state_true in E. split; [|split; [done|split; [done|]]].
    + apply sched_ok_on_task; cbn; try done; [apply Hs|].
      apply keeps_state; [done|]. unfold current_task in E. by rewrite E.
    + intros i Hi. rewrite task_on_task by done. unfold current_task in E. case_decide as Ei.
      * subst i. by rewrite decide_True.
      * rewrite decide_False; [done|]. intros H. by apply Ei, eq_sym, (ok_run s Hs).
  - apply is_state_false in E. split; [done|split; [done|split; [done|]]].
    intros i Hi. rewrite decide_False; [done|]. intros H.
    apply E. unfold current_task. by rewrite <- (ok_run s Hs i Hi H).
Qed.

(** The world right after the switch, before the reaping. *)
Definition switched (e : env) (w : world) (saliente : Saliente) : world :=
  let s := marca_ready (sch w) in
  let next := choose_next s in
  let s := match saliente with
           | Publicado => if trap_rsp (cpu w) =? 0 then s
                          else on_task s (current s) (set_context (trap_rsp (cpu w)))
           | Ninguno => s
           end in
  let s := cambia e s next in
  mkWorld s (carga_cpu kernel_pml4 (cpu w) (task s next) (context_rsp (task (marca_ready (sch w)) next)))
    (mem w) (morgue w) (morgue_n w) (latido_cuenta w).

Lemma cambia_spec e s next :
  length (tasks s) = MAX_TASKS -> (current s < MAX_TASKS)%nat -> (next < MAX_TASKS)%nat ->
  next <> current s ->
  let s' := cambia e s next in
  length (tasks s') = MAX_TASKS /\ current s' = next /\ next_tid s' = next_tid s /\
  task s' next = set_ticks (quantum (task s next)) (quantum (task s next))
      (set_state Running (set_cuenta (cpu_ciclos (task s next)) (rdtsc e) (task s next))) /\
  (forall i, (i < MAX_TASKS)%nat -> i <> next ->
     keeps (task s i) (task s' i) /\ quieto (task s i) (task s' i) /\
     context_rsp (task s' i) = context_rsp (task s i)).
Proof.
  intros Hl Hc Hn Hne. unfold cambia.
  set (s1 := if entro_en (current_task s) =? 0 then s else _).
  assert (Hl1 : length (tasks s1) = MAX_TASKS)
    by (unfold s1; case_if; [done|by rewrite length_on_task]).
  assert (Hkeep : forall i, (i < MAX_TASKS)%nat ->
    keeps (task s i) (task s1 i) /\ quieto (task s i) (task s1 i) /\
    context_rsp (task s1 i) = context_rsp (task s i)).
  { intros i Hi. unfold s1. case_if; [by auto using keeps_refl, quieto_refl|].
    rewrite task_on_task by (by rewrite Hl). case_decide; [|by auto using keeps_refl, quieto_refl].
    split; [unfold keeps|split; [unfold quieto|]]; done. }
  assert (Hnext : task s1 next = task s next).
  { unfold s1. case_if; [done|]. rewrite task_on_task by (by rewrite Hl).
    by rewrite decide_False. }
  cbv zeta. split; [cbn [tasks]; by rewrite length_on_task|]. split; [done|].
  split; [cbn; unfold s1; by case_if|]. split; [|intros i Hi Hin]; rewrite !task_mk.
  - rewrite task_on_task by (by rewrite Hl1). by rewrite decide_True, Hnext.
  - rewrite task_on_task by (by rewrite Hl1). rewrite decide_False by done. by apply Hkeep.
Qed.

(** The context that the outgoing task is left with. *)
Definition contexto_guardado (saliente : Saliente) (trap ctx : Z) : Z :=
  match saliente with Publicado => if trap =? 0 then ctx else trap | Ninguno => ctx end.

Lemma publica_spec (s : Scheduler) (rsp : Z) (saliente : Saliente) :
  length (tasks s) = MAX_TASKS -> (current s < MAX_TASKS)%nat ->
  let s' := match saliente with
            | Publicado => if rsp =? 0 then s else on_task s (current s) (set_context rsp)
            | Ninguno => s end in
  length (tasks s') = MAX_TASKS /\ current s' = current s /\ next_tid s' = next_tid s /\
  (forall i, (i < MAX_TASKS)%nat ->
     keeps (task s i) (task s' i) /\ quieto (task s i) (task s' i)) /\
  (forall i, (i < MAX_TASKS)%nat -> i <> current s -> task s' i = task s i) /\
  context_rsp (task s' (current s)) =
    contexto_guardado saliente rsp (context_rsp (task s (current s))).
Proof.
  intros Hl Hc.
  assert (Hid : forall i, (i < MAX_TASKS)%nat ->
    keeps (task s i) (task s i) /\ quieto (task s i) (task s i))
    by auto using keeps_refl, quieto_refl.
  unfold contexto_guardado. destruct saliente; cbv zeta; [|by split_and!].
  case_if; bdestr; [by split_and!|].
  rewrite length_on_task. split_and!; try done.
  - intros i Hi. rewrite task_on_task by (by rewrite Hl). case_decide; [|by auto].
    split; [unfold keeps|unfold quieto]; done.
  - intros i Hi Hne. rewrite task_on_task by (by rewrite Hl). by rewrite decide_False.
  - rewrite task_on_task by (by rewrite Hl). by rewrite decide_True.
Qed.

#[local] Opaque choose_next Sched.reap.
Strategy 1000 [choose_next Sched.reap marca_ready].

(** The three ways [schedule_locked] can go. *)
Lemma schedule_cases e w saliente :
  sched_ok (sch w) ->
  let s := marca_ready (sch w) in
  let next := choose_next s in
  let w' := schedule_locked e w saliente in
  (next = current (sch w) /\
   w' = reap e (with_sch w (if is_state Ready (task s next)
                             then on_task s next (set_state Running) else s))) \/
  (next <> current (sch w) /\ context_rsp (task s next) = 0 /\
   sch w' = on_task s (current s) (set_state Running) /\ cpu w' = cpu w) \/
  (next <> current (sch w) /\ context_rsp (task s next) <> 0 /\
   w' = reap e (switched e w saliente)).
Proof.
  intros Hs s next w'. destruct (marca_ready_spec (sch w) Hs) as (Hs1 & Hc1 & _ & Ht1).
  fold s in Hs1, Hc1, Ht1. unfold w', Sched.schedule_locked. fold s. fold next.
  replace (current s) with (current (sch w)) by (by rewrite <- Hc1).
  destruct (Nat.eqb_spec next (current (sch w))) as [E|E]; [by left|right].
  destruct (context_rsp (task s next) =? 0) eqn:Er; bdestr; [left|right; split; [done|split; [done|]];
    unfold switched; cbv zeta; fold s; rewrite Hc1; reflexivity].
  split; [done|split; [done|split; [|done]]]. cbn [with_sch sch].
  assert (is_state Running (current_task s) = false) as ->; [|reflexivity].
  apply is_state_false. unfold current_task. rewrite Hc1, Ht1 by apply Hs.
  case_decide; done.
Qed.

Lemma switched_spec e w saliente :
  sched_ok (sch w) ->
  let s := marca_ready (sch w) in
  let next := choose_next s in
  let w' := switched e w saliente in
  next <> current (sch w) ->
  sched_ok (sch w') /\ current (sch w') = next /\
  state (task (sch w') next) = Running /\
  priority (task (sch w') next) = priority (task s next) /\
  remaining_ticks (task (sch w') next) = quantum (task (sch w') next) /\
  entro_en (task (sch w') next) = rdtsc e /\
  trap_rsp (cpu w') = context_rsp (task s next) /\
  cr3_reg (cpu w') =
    (if is_user (task (sch w') next) then cr3 (task (sch w') next) else kernel_pml4) /\
  (let top := kernel_stack_top (task (sch w') next) in
   tss_rsp0 (cpu w') = (if top =? 0 then tss_rsp0 (cpu w) else top) /\
   syscall_stack_top (cpu w') = (if top =? 0 then syscall_stack_top (cpu w) else top)) /\
  context_rsp (task (sch w') (current (sch w))) =
    contexto_guardado saliente (trap_rsp (cpu w)) (context_rsp (task s (current (sch w)))) /\
  (forall i, (i < MAX_TASKS)%nat -> i <> next ->
     quieto (task s i) (task (sch w') i)) /\
  (forall i, (i < MAX_TASKS)%nat -> i <> next -> i <> current (sch w) ->
     context_rsp (task (sch w') i) = context_rsp (task s i)).
Proof.
  intros Hs s next w' Hne. destruct (marca_ready_spec (sch w) Hs) as (Hs1 & Hc1 & _ & Ht1).
  fold s in Hs1, Hc1, Ht1.
  destruct (choose_next_cases s) as [Hnlt Hnst]; [rewrite Hc1; apply Hs|]. fold next in Hnlt, Hnst.
  rewrite Hc1 in Hnst. destruct Hnst as [Hready|]; [|done].
  destruct (publica_spec s (trap_rsp (cpu w)) saliente (ok_len s Hs1) (ok_cur s Hs1))
    as (P1 & P2 & P3 & P4 & P5 & P6).
  unfold w', switched. fold s. fold next. cbn [sch cpu].
  set (s2 := match saliente with Publicado => _ | Ninguno => s end) in *.
  rewrite Hc1 in P2, P5, P6.
  destruct (cambia_spec e s2 next P1) as (C1 & C2 & C3 & C4 & C5);
    [rewrite P2; apply Hs|done|by rewrite P2|].
  rewrite P5 in C4 by done.
  assert (Hother : forall i, (i < MAX_TASKS)%nat -> i <> next ->
    quieto (task s i) (task (cambia e s2 next) i)).
  { intros i Hi Hin. destruct (C5 i Hi Hin) as (_ & H1 & _).
    destruct (P4 i Hi) as (_ & H2). exact (quieto_trans _ _ _ H2 H1). }
  split.
  { apply (sched_ok_evolves s _ Hs1 C1); [by rewrite C2|by rewrite C3, P3| | | |].
    - intros i Hi. right. destruct (decide (i = next)) as [->|Hin].
      + rewrite C4. unfold keeps. cbn. split_and!; try done. split; [done|]. by rewrite Hready.
      + destruct (C5 i Hi Hin) as (H1 & _). destruct (P4 i Hi) as (H2 & _).
        exact (keeps_trans _ _ _ H2 H1).
    - intros i Hi. rewrite C2. destruct (decide (i = next)) as [->|Hin]; [done|].
      destruct (Hother i Hi Hin) as [-> _]. rewrite Ht1 by done. by case_decide.
    - destruct (ok_zero s Hs1) as (Z1 & Z2 & _).
      destruct (decide (0%nat = next)) as [<-|Hin]; [by rewrite C4|].
      destruct (Hother 0%nat) as [-> _]; [unfold MAX_TASKS; lia|done|done].
    - unfold current_task. rewrite C2, C4. done. }
  split; [done|]. rewrite C4. cbn [state priority remaining_ticks quantum entro_en set_ticks set_state
    set_cuenta is_user cr3 kernel_stack_top].
  do 4 (split; [done|]). unfold carga_cpu. cbn [is_user cr3 kernel_stack_top set_ticks set_state set_cuenta].
  split; [by case_if|]. split; [by case_if|].
  split; [by case_if|].
  split; [destruct (C5 (current (sch w))) as (_ & _ & ->); [apply Hs|done|exact P6]|].
  split; [exact Hother|].
  intros i Hi Hin Hic. destruct (C5 i Hi Hin) as (_ & _ & ->). by rewrite P5.
Qed.

Lemma schedule_ok e w saliente :
  sched_ok (sch w) -> sched_ok (sch (schedule_locked e w saliente)).
Proof.
  intros Hs. destruct (marca_ready_spec (sch w) Hs) as (Hs1 & Hc1 & _ & Ht1).
  destruct (schedule_cases e w saliente Hs) as [[E ->]|[(E & _ & -> & _)|(E & _ & ->)]].
  - apply reap_ok. cbn [sch with_sch]. case_if; [|done]. apply is_state_true in Heqb.
    rewrite E in Heqb |- *. apply sched_ok_on_task; try done; [apply Hs|].
    apply keeps_state; [done|by rewrite Heqb].
  - apply sched_ok_on_task; try done; [rewrite Hc1; apply Hs|].
    apply keeps_state; [done|apply Hs1].
  - apply reap_ok. by apply switched_spec.
Qed.
End Switch.

(** ** The other operations keep the invariant *)

Lemma init_ok w : sched_ok (sch (init w)).
Proof.
  assert (H0 : task (sch (init w)) 0 = mkTask 1 0 Running 0 4 4 0 0 0 0 0 false 0 0 0 0) by done.
  assert (H : forall i, (0 < i < MAX_TASKS)%nat -> task (sch (init w)) i = EMPTY).
  { intros i Hi. unfold task, init. cbn [sch with_sch tasks].
    rewrite list_lookup_total_insert_ne by lia. apply list_lookup_total_correct, lookup_replicate_2. lia. }
  assert (Hc : forall i, (i < MAX_TASKS)%nat -> state (task (sch (init w)) i) <> Empty -> i = 0%nat).
  { intros i Hi Hne. destruct i; [done|]. by rewrite H in Hne by lia. }
  split; try done.
  - unfold MAX_TASKS. cbn. lia.
  - intros i Hi Hr. apply Hc; [done|]. by rewrite Hr.
  - intros i Hi Hne. rewrite (Hc i Hi Hne), H0. cbn. lia.
  - intros i j Hi Hj H1 H2 _. by rewrite (Hc i Hi H1), (Hc j Hj H2).
Qed.

Lemma nace_ok s index t :
  sched_ok s -> (index < MAX_TASKS)%nat -> state (task s index) = Empty ->
  tid t = next_tid s -> state t = Ready -> next_tid s < 2 ^ 32 - 1 ->
  sched_ok (nace s index t).
Proof.
  intros Hs Hi He Ht Hr Hn.
  assert (Htask : forall j, task (nace s index t) j = if decide (index = j) then t else task s j).
  { intros j. unfold task, nace. cbn [tasks]. case_decide as E.
    - subst. apply list_lookup_total_insert_eq. by rewrite (ok_len s Hs).
    - by apply list_lookup_total_insert_ne. }
  pose proof (ok_next s Hs) as Hnx.
  assert (Hsig : tid_siguiente (next_tid s) = next_tid s + 1)
    by (unfold tid_siguiente; rewrite w32_small by (unfold is_u32; lia); lia).
  assert (Hz : index <> 0%nat) by (intros ->; destruct (ok_zero s Hs) as (H0 & _); by apply H0).
  assert (Hcur : index <> current s)
    by (intros ->; pose proof (ok_live s Hs) as Hl; unfold current_task in Hl; done).
  split.
  - cbn. rewrite length_insert. apply Hs.
  - apply Hs.
  - intros i Hi2. rewrite Htask. case_decide; [by rewrite Hr|]. cbn. by apply (ok_run s Hs).
  - intros i Hi2. rewrite Htask. cbn [next_tid nace]. rewrite Hsig. case_decide; [lia|].
    intros Hne. pose proof (ok_tid s Hs i Hi2 Hne). lia.
  - intros i j Hi2 Hj2. rewrite !Htask. repeat case_decide; subst; try done; intros H1 H2 Heq.
    + pose proof (ok_tid s Hs j Hj2 H2). lia.
    + pose proof (ok_tid s Hs i Hi2 H1). lia.
    + by apply (ok_uni s Hs).
  - rewrite Htask, decide_False by done. apply Hs.
  - unfold current_task. rewrite Htask. cbn [current nace]. rewrite decide_False by done. apply Hs.
  - cbn [next_tid nace]. rewrite Hsig. lia.
Qed.

Lemma empty_slot s index : sched_ok s -> position (is_state Empty) (tasks s) = Some index ->
  (index < MAX_TASKS)%nat /\ state (task s index) = Empty.
Proof.
  intros Hs E. pose proof (position_lt _ _ _ E) as Hl. rewrite (ok_len s Hs) in Hl.
  split; [done|]. apply position_Some in E as (t & Ht & Hp & _). apply is_state_true in Hp.
  unfold task. by rewrite (list_lookup_total_correct _ _ _ Ht).
Qed.

Lemma mark_wait_ok s k d : sched_ok s -> sched_ok (mark_wait s k d).
Proof.
  intros Hs. unfold mark_wait. case_if; [|done].
  apply sched_ok_on_task; cbn; try done; [apply Hs|].
  unfold keeps. cbn. split_and!; try done. pose proof (ok_live s Hs). done.
Qed.

Lemma mark_exit_ok s : sched_ok s -> sched_ok (mark_exit s).
Proof.
  intros Hs. unfold mark_exit. case_if; [|done]. apply andb_true_iff in Heqb as [Hz _].
  apply negb_true_iff, Nat.eqb_neq in Hz.
  apply sched_ok_on_task; cbn; try done; [apply Hs|]. apply keeps_state; [done|apply Hs].
Qed.

Lemma mark_yield_ok s : sched_ok s -> sched_ok (mark_yield s).
Proof. intros Hs. by apply marca_ready_spec. Qed.

Lemma wake_task_keeps t : state t = Blocked -> keeps t (wake_task t).
Proof. intros H. unfold keeps, wake_task. cbn. by rewrite H. Qed.

Lemma tick_task_cases now t : tick_task now t = t \/ (state t = Blocked /\ tick_task now t = wake_task t).
Proof.
  unfold tick_task. destruct (is_state Blocked t) eqn:E; cbn [andb]; [|by left].
  apply is_state_true in E. repeat case_if; auto.
Qed.

Lemma sched_ok_wake s g :
  sched_ok s -> (forall t, g t = t \/ (state t = Blocked /\ g t = wake_task t)) ->
  sched_ok (set_tasks s (g <$> tasks s)).
Proof.
  intros Hs Hg. apply sched_ok_fmap; [done| | |]; intros t; destruct (Hg t) as [->|[Hb ->]];
    auto using keeps_refl, wake_task_keeps; done.
Qed.

Lemma set_ticks_ok s i r q : sched_ok s -> (i < MAX_TASKS)%nat ->
  sched_ok (on_task s i (fun t => set_ticks (r t) (q t) t)).
Proof.
  intros Hs Hi. apply sched_ok_on_task; cbn; try done.
  - by apply (ok_run s Hs).
  - intros ->. apply Hs.
Qed.

Lemma delante_ok w t : sched_ok (sch w) -> sched_ok (sch (fst (delante w t))).
Proof.
  intros Hs. cbn. apply sched_ok_fmap; [done| | |]; intros k; unfold delante_task;
    repeat case_if; try done; apply keeps_refl.
Qed.

Lemma busca_tid_spec s t i : busca_tid s t = Some i ->
  (0 < i < length (tasks s))%nat /\ tid (task s i) = t.
Proof.
  unfold busca_tid. intros (k & Hk & ->)%fmap_Some.
  pose proof (position_lt _ _ _ Hk) as Hl. rewrite length_drop in Hl.
  apply position_Some in Hk as (x & Hx & Hp & _). bdestr. rewrite lookup_drop in Hx.
  split; [lia|]. unfold task. rewrite (list_lookup_total_correct _ _ _ Hx). done.
Qed.

Lemma terminar_ok w t : sched_ok (sch w) -> sched_ok (sch (fst (terminar w t))).
Proof.
  intros Hs. unfold terminar. destruct (busca_tid _ _) as [i|] eqn:E; [|done].
  apply busca_tid_spec in E as [Hi _]. rewrite (ok_len _ Hs) in Hi.
  case_if; [done|]. case_if; [done|]. cbn. apply orb_false_iff in Heqb0 as [He _].
  apply is_state_false in He.
  apply sched_ok_on_task; [done|lia|by apply keeps_state|done|intros ->; lia].
Qed.

Lemma task_limpieza pids s i : sched_ok s -> (i < MAX_TASKS)%nat ->
  task (set_tasks s (imap (limpieza_mata pids) (tasks s))) i = limpieza_mata pids i (task s i).
Proof.
  intros Hs Hi. unfold task, set_tasks. cbn [tasks].
  apply list_lookup_total_correct. rewrite list_lookup_imap.
  rewrite (list_lookup_lookup_total_lt (tasks s) i) by (by rewrite (ok_len _ Hs)). done.
Qed.

Lemma limpieza_marca_ok pids w : sched_ok (sch w) -> sched_ok (sch (limpieza_marca pids w)).
Proof.
  intros Hs. cbn [sch with_sch limpieza_marca].
  pose proof (fun i => task_limpieza pids (sch w) i Hs) as Ht.
  assert (Hk : forall i t, keeps t (limpieza_mata pids i t)).
  { intros i t. unfold limpieza_mata. case_if; [|apply keeps_refl]. apply keeps_state; [done|].
    rewrite !andb_true_iff in Heqb. destruct Heqb as [[_ Hv] _]. unfold es_viva in Hv.
    rewrite !andb_true_iff, !negb_true_iff in Hv. apply is_state_false. apply Hv. }
  apply (sched_ok_evolves (sch w)); try done.
  - cbn. rewrite length_imap. apply Hs.
  - apply Hs.
  - intros i Hi. rewrite Ht by done. right. apply Hk.
  - intros i Hi. rewrite Ht by done. unfold limpieza_mata. case_if; [done|]. by apply (ok_run _ Hs).
  - rewrite Ht by (unfold MAX_TASKS; lia). destruct (ok_zero _ Hs) as (? & ? & _). done.
  - unfold current_task. cbn [current set_tasks]. rewrite Ht by apply Hs.
    destruct (Hk (current (sch w)) (task (sch w) (current (sch w)))) as (_ & _ & E).
    rewrite E. apply Hs.
Qed.

(** ** Runs of the scheduler *)

(** One critical section under [SCHED_LOCK], made by the running task, a trap
    or another task; or what happens to the rest of the machine between two of
    them: a trap publishes the context it saved, and other parts of the kernel
    take and give frames.  [limpieza_de_ring3] is its last pass, with any list
    of pids: the first pass writes nothing, and what the revocations between
    them do to the table is wake the waiters of the endpoints that die. *)
Section Run.
Variable kernel_pml4 : Z.
Variable destroy_address_space : phys_st -> Z -> phys_st.
Variable fabricate : Z -> Z -> Z -> Z.

Inductive sstep : world -> world -> Prop :=
| st_timer e now w : sstep w (on_timer kernel_pml4 destroy_address_space e now w)
| st_wake key w : sstep w (wake_by_key w key)
| st_spawn_kernel en a pr w : sstep w (fst (spawn_kernel fabricate w en a pr))
| st_spawn_user p r ks kp kt c pr w : sstep w (fst (spawn_user w p r ks kp kt c pr))
| st_idle en w : sstep w (fst (init_idle fabricate w en))
| st_yield e w : sstep w (yield_current kernel_pml4 destroy_address_space e w)
| st_exit e w : sstep w (exit_current kernel_pml4 destroy_address_space e w)
| st_kill e w : sstep w (fst (kill_current_and_pick kernel_pml4 destroy_address_space e w))
| st_wait e k d w : sstep w (wait_current kernel_pml4 destroy_address_space e w k d)
| st_wait_checked e k d o c w :
    sstep w (fst (wait_current_checked kernel_pml4 destroy_address_space e w k d o c))
| st_park d w : sstep w (park_until w d)
| st_exit_park w : sstep w (exit_and_park w)
| st_delante t w : sstep w (fst (delante w t))
| st_terminar t w : sstep w (fst (terminar w t))
| st_limpieza pids w : sstep w (limpieza_marca pids w)
| st_trap rsp w : sstep w (with_cpu w (set_trap_rsp rsp (cpu w)))
| st_mem m w : sstep w (with_mem w m).

(** A task was born in the step: the counter of tids moved. *)
Definition nacidas (w w' : world) : Z :=
  if next_tid (sch w') =? next_tid (sch w) then 0 else 1.

(** Reached from the boot with [n] tasks created. *)
Inductive reachable (w0 : world) : Z -> world -> Prop :=
| reach_init : reachable w0 0 (init w0)
| reach_step n w w' : reachable w0 n w -> sstep w w' -> reachable w0 (n + nacidas w w') w'.

Lemma next_tid_fijo s f i : next_tid (on_task s i f) = next_tid s.
Proof. done. Qed.

Lemma reap_next_tid e w : next_tid (sch (reap kernel_pml4 destroy_address_space e w)) = next_tid (sch w).
Proof.
  unfold reap. generalize (tid (current_task (sch w))). intros ct.
  generalize (seq 0 (length (tasks (sch w)))). intros l. revert w.
  induction l as [|i l IH]; intros w; [done|]. cbn [foldl]. rewrite IH.
  unfold reap_one. repeat (case_if; try done).
Qed.

Lemma schedule_next_tid e w sal :
  next_tid (sch (schedule_locked kernel_pml4 destroy_address_space e w sal)) = next_tid (sch w).
Proof.
  unfold schedule_locked, cambia, marca_ready.
  destruct sal; repeat case_if; rewrite ?reap_next_tid; cbn [sch with_sch next_tid];
    repeat case_if; done.
Qed.

Lemma spawn_kernel_ok w en a pr :
  sched_ok (sch w) ->
  let s' := sch (fst (spawn_kernel fabricate w en a pr)) in
  s' = sch w \/
  (next_tid s' = tid_siguiente (next_tid (sch w)) /\ (next_tid (sch w) < 2 ^ 32 - 1 -> sched_ok s')).
Proof.
  intros Hs. unfold spawn_kernel. destruct (alloc_frames_contig_de _ _ _) as [m [b|]]; [|by left].
  cbn [sch with_mem]. destruct (position _ _) as [i|] eqn:E; [right|by left].
  apply (empty_slot _ _ Hs) in E as [Hi He]. split; [done|]. intros Hn. cbn. by apply nace_ok.
Qed.

(** A step keeps the table well-formed unless the counter of tids was about to
    wrap and a task was born. *)
Lemma sstep_ok w w' : sched_ok (sch w) -> sstep w w' ->
  (next_tid (sch w') = next_tid (sch w) /\ sched_ok (sch w')) \/
  (next_tid (sch w') = tid_siguiente (next_tid (sch w)) /\
   (next_tid (sch w) < 2 ^ 32 - 1 -> sched_ok (sch w'))).
Proof.
  intros Hs H.
  assert (Hd : forall s', next_tid s' = next_tid (sch w) /\ sched_ok s' ->
    (next_tid s' = next_tid (sch w) /\ sched_ok s') \/
    (next_tid s' = tid_siguiente (next_tid (sch w)) /\ (next_tid (sch w) < 2 ^ 32 - 1 -> sched_ok s')))
    by auto.
  destruct H.
  - apply Hd. unfold on_timer. cbn [sch tic]. set (s := set_tasks _ _).
    assert (Hs' : sched_ok s) by (apply sched_ok_wake; [done|apply tick_task_cases]).
    case_if; rewrite ?schedule_next_tid; (split; [done|]);
      [cbn|apply schedule_ok; cbn]; apply (set_ticks_ok s (current s)); done || apply Hs'.
  - apply Hd. split; [done|]. cbn. apply sched_ok_wake; [done|]. intros t. case_if; [right|by left].
    apply andb_true_iff in Heqb as [Hb%is_state_true _]. done.
  - destruct (spawn_kernel_ok w en a pr Hs) as [->|H]; auto.
  - unfold spawn_user. destruct (position _ _) as [i|] eqn:E; [right|by left].
    apply (empty_slot _ _ Hs) in E as [Hi He]. split; [done|]. intros Hn. cbn. by apply nace_ok.
  - unfold init_idle. pose proof (spawn_kernel_ok w en 0 0 Hs) as Hk.
    destruct (spawn_kernel _ _ _ _ _) as [w1 [t|]]; cbn [fst] in Hk |- *.
    2:{ destruct Hk as [E|[E H]]; [left|right]; rewrite ?E; auto. }
    assert (Hi : forall i, sched_ok (sch w1) ->
      sched_ok (mkSched (tasks (sch w1)) (current (sch w1)) (next_tid (sch w1)) i))
      by (intros i H; destruct H; by split).
    destruct (position _ _) as [i|]; cbn [fst sch with_sch next_tid]; 
      [|destruct Hk as [E|[E H]]; [left|right]; rewrite ?E; auto].
    destruct Hk as [E|[E H]]; [left|right]; (split; [congruence|]); [apply Hi; congruence|auto].
  - apply Hd. unfold yield_current. rewrite schedule_next_tid.
    split; [cbn; unfold mark_yield; by case_if|]. apply schedule_ok. cbn. by apply mark_yield_ok.
  - apply Hd. unfold exit_current. rewrite schedule_next_tid.
    split; [cbn; unfold mark_exit; by case_if|]. apply schedule_ok. cbn. by apply mark_exit_ok.
  - apply Hd. cbn [fst kill_current_and_pick]. rewrite schedule_next_tid.
    split; [cbn; unfold mark_exit; by case_if|]. apply schedule_ok. cbn. by apply mark_exit_ok.
  - apply Hd. unfold wait_current. rewrite schedule_next_tid.
    split; [cbn; unfold mark_wait; by case_if|]. apply schedule_ok. cbn. by apply mark_wait_ok.
  - apply Hd. unfold wait_current_checked. case_if; [done|]. cbn [fst]. rewrite schedule_next_tid.
    split; [cbn; unfold mark_wait; by case_if|]. apply schedule_ok. by apply mark_wait_ok.
  - apply Hd. split; [cbn; unfold mark_wait; by case_if|]. by apply mark_wait_ok.
  - apply Hd. split; [cbn; unfold mark_exit; by case_if|]. by apply mark_exit_ok.
  - apply Hd. split; [done|]. by apply delante_ok.
  - apply Hd. split; [|by apply terminar_ok]. unfold terminar.
    destruct (busca_tid _ _); [|done]. by repeat case_if.
  - apply Hd. split; [done|]. by apply limpieza_marca_ok.
  - by apply Hd.
  - by apply Hd.
Qed.

(** Up to [n] births the counter is [2 + n]. *)
Lemma reachable_ok w0 n w : reachable w0 n w -> n <= 2 ^ 32 - 3 ->
  0 <= n /\ next_tid (sch w) = 2 + n /\ sched_ok (sch w).
Proof.
  induction 1 as [|n w w' Hr IH Hst]; intros Hn; [split_and!; [done|done|apply init_ok]|].
  assert (H0 : 0 <= nacidas w w') by (unfold nacidas; case_if; lia).
  destruct IH as (Hn0 & Hnx & Hok); [lia|].
  unfold nacidas in *. destruct (sstep_ok w w' Hok Hst) as [[E H]|[E H]].
  - rewrite E, Z.eqb_refl in *. split_and!; [lia|lia|done].
  - assert (Hlt : next_tid (sch w) < 2 ^ 32 - 1).
    { destruct (Z.eq_dec (next_tid (sch w)) (2 ^ 32 - 1)) as [Eq|]; [exfalso|].
      - assert (n = 2 ^ 32 - 3) by lia. subst n. rewrite E, Hnx in Hn. vm_compute in Hn. by apply Hn.
      - pose proof (ok_next _ Hok). lia. }
    assert (Es : next_tid (sch w') = next_tid (sch w) + 1).
    { rewrite E. unfold tid_siguiente. pose proof (ok_next _ Hok).
      rewrite w32_small by (unfold is_u32; lia). lia. }
    rewrite (proj2 (Z.eqb_neq _ _)) in * by lia. split_and!; [lia|lia|auto].
Qed.

(** C5: the table of tasks stays well-formed.  Whatever sequence of critical
    sections of the scheduler runs after the boot -- ticks, wake-ups, births,
    yields, waits, deaths, the clean-up of Ring 3 --, with traps publishing
    their contexts and other parts of the kernel changing the memory in between,
    as long as no more than 2^32 - 3 tasks have been created (the counter of
    tids has 32 bits and wraps after that): at most one task is [Running] and
    it is [current]; live tasks have distinct tids below the counter, which
    counts the births; the boot context in slot 0 never dies; the current slot
    is never empty. *)
Theorem sched_invariant w0 n w : reachable w0 n w -> n <= 2 ^ 32 - 3 ->
  next_tid (sch w) = 2 + n /\ sched_ok (sch w).
Proof. intros H Hn. by destruct (reachable_ok w0 n w H Hn) as (_ & ? & ?). Qed.
End Run.

(** ** What a turn of the scheduler does *)

Section Turn.
Variable kernel_pml4 : Z.
Variable destroy_address_space : phys_st -> Z -> phys_st.
Abbreviation reap := (Sched.reap kernel_pml4 destroy_address_space).
Abbreviation schedule_locked := (Sched.schedule_locked kernel_pml4 destroy_address_space).
Abbreviation switched := (Sched.switched kernel_pml4).

Lemma marca_context s i : sched_ok s -> (i < MAX_TASKS)%nat ->
  context_rsp (task (marca_ready s) i) = context_rsp (task s i) /\
  priority (task (marca_ready s) i) = priority (task s i) /\
  wait_key (task (marca_ready s) i) = wait_key (task s i) /\
  wait_deadline (task (marca_ready s) i) = wait_deadline (task s i).
Proof.
  intros Hs Hi. destruct (marca_ready_spec s Hs) as (_ & _ & _ & Ht).
  rewrite Ht by done. by case_decide.
Qed.

(** The current task survives the reaping of its own turn. *)
Lemma reap_current e w i :
  sched_ok (sch w) -> (i < MAX_TASKS)%nat ->
  state (task (sch w) i) <> Exited \/ i = current (sch w) ->
  task (sch (reap e w)) i = task (sch w) i.
Proof.
  intros Hs Hi H. destruct (reap_spec kernel_pml4 destroy_address_space e w (ok_len _ Hs))
    as (_ & _ & ->); [|done]. apply reaped_alive. destruct H as [H| ->]; auto.
Qed.

Lemma reap_world e w : sched_ok (sch w) ->
  current (sch (reap e w)) = current (sch w) /\ cpu (reap e w) = cpu w /\
  IDLE (sch (reap e w)) = IDLE (sch w).
Proof.
  intros Hs. destruct (reap_spec kernel_pml4 destroy_address_space e w (ok_len _ Hs))
    as ((? & _ & ? & ? & _) & _). done.
Qed.

Lemma switched_IDLE e w sal : IDLE (sch (switched e w sal)) = IDLE (sch w).
Proof.
  unfold Sched.switched, cambia, marca_ready. cbn [sch IDLE].
  destruct sal; repeat case_if; done.
Qed.

(** C11: a switch hands the processor to the chosen task whole.  In a table that
    satisfies the invariant [sched_ok], when the choice is another task and it
    has a saved context (a context of zero is no context: then nothing moves and
    the current task goes on): it is [current] and [Running] with a fresh
    quantum, the trap returns through its saved context, CR3 is its address space (the kernel's for a kernel task), and the
    TSS and SYSCALL stacks are its kernel stack, or stay as they were when it
    has none (the boot context).  With [Publicado] the outgoing task, if it has
    not exited, keeps the context the trap had published, if it had published
    one, so a later turn resumes it where it was; otherwise its saved context
    does not change. *)
Theorem context_switch_spec e w saliente :
  sched_ok (sch w) ->
  let me := current (sch w) in
  let next := choose_next (marca_ready (sch w)) in
  let w' := schedule_locked e w saliente in
  let t := task (sch w') next in
  next <> me ->
  (context_rsp (task (sch w) next) = 0 ->
     current (sch w') = me /\ state (task (sch w') me) = Running /\ cpu w' = cpu w) /\
  (context_rsp (task (sch w) next) <> 0 ->
  current (sch w') = next /\ state t = Running /\ remaining_ticks t = quantum t /\
  trap_rsp (cpu w') = context_rsp (task (sch w) next) /\
  cr3_reg (cpu w') = (if is_user t then cr3 t else kernel_pml4) /\
  tss_rsp0 (cpu w') =
    (if kernel_stack_top t =? 0 then tss_rsp0 (cpu w) else kernel_stack_top t) /\
  syscall_stack_top (cpu w') =
    (if kernel_stack_top t =? 0 then syscall_stack_top (cpu w) else kernel_stack_top t) /\
  (state (task (sch w) me) <> Exited ->
     context_rsp (task (sch w') me) =
       contexto_guardado saliente (trap_rsp (cpu w)) (context_rsp (task (sch w) me)))).
Proof.
  intros Hs me next w' t Hne.
  destruct (marca_ready_spec _ Hs) as (Hs1 & Hc1 & _ & Hm).
  assert (Hnlt : (next < MAX_TASKS)%nat) by (apply choose_next_cases; rewrite Hc1; apply Hs).
  destruct (marca_context (sch w) next Hs Hnlt) as (Hc & _).
  destruct (marca_context (sch w) me Hs (ok_cur _ Hs)) as (Hcm & _).
  destruct (schedule_cases kernel_pml4 destroy_address_space e w saliente Hs)
    as [[E _]|[(_ & E & E1 & E2)|(_ & E & Hw)]]; [done| |]; fold next in E; rewrite Hc in E.
  { split; [intros _|done]. fold w' in E1, E2. rewrite E1, E2, Hc1. split; [exact Hc1|].
    split; [|done]. rewrite task_on_task by (rewrite (ok_len _ Hs1); apply Hs).
    by rewrite decide_True. }
  split; [done|intros _].
  destruct (switched_spec kernel_pml4 destroy_address_space e w saliente Hs Hne) as
    (Hs' & W1 & W2 & _ & W3 & _ & W4 & W5 & [W6 W6'] & W7 & W8 & _).
  fold next in W1, W2, W3, W4, W5, W6, W6', W7, W8. rewrite Hc in W4.
  fold me in W7.
  assert (Ht : t = task (sch (switched e w saliente)) next).
  { unfold t, w'. rewrite Hw. apply reap_current; [exact Hs'|exact Hnlt|right; symmetry; exact W1]. }
  destruct (reap_world e _ Hs') as (R1 & R2 & _).
  rewrite Ht. unfold w'. rewrite Hw, R1, R2, W4.
  do 6 (split; [first [exact W1|exact W2|exact W3|reflexivity|exact W5|exact W6]|]).
  split; [exact W6'|]. intros Hex.
  rewrite reap_current; [by rewrite W7, Hcm|exact Hs'|apply Hs|left].
  destruct (W8 me (ok_cur _ Hs)) as (-> & _); [intros Heq; by apply Hne|].
  rewrite Hm by apply Hs. by case_decide.
Qed.

(** Who is [Ready] or [Running] stays so through a turn. *)
Lemma schedule_keeps_runnable e w saliente i :
  sched_ok (sch w) -> (i < MAX_TASKS)%nat ->
  state (task (sch w) i) = Ready \/ state (task (sch w) i) = Running ->
  state (task (sch (schedule_locked e w saliente)) i) = Ready \/
  state (task (sch (schedule_locked e w saliente)) i) = Running.
Proof.
  intros Hs Hi Hst. destruct (marca_ready_spec (sch w) Hs) as (Hs1 & Hc1 & _ & Ht1).
  assert (Hr : state (task (marca_ready (sch w)) i) = Ready).
  { rewrite Ht1 by done. case_decide; [done|]. by destruct Hst. }
  destruct (schedule_cases kernel_pml4 destroy_address_space e w saliente Hs)
    as [[E ->]|[(E & _ & -> & _)|(E & _ & ->)]].
  - assert (Hl : (choose_next (marca_ready (sch w)) < length (tasks (marca_ready (sch w))))%nat)
      by (rewrite E, (ok_len _ Hs1); apply Hs).
    set (s' := if is_state Ready (task (marca_ready (sch w)) (choose_next (marca_ready (sch w))))
               then _ else _).
    assert (Hs' : sched_ok s' /\ (state (task s' i) = Ready \/ state (task s' i) = Running)).
    { unfold s'. case_if; [|by auto]. apply is_state_true in Heqb. rewrite E in Heqb, Hl |- *. split.
      - apply sched_ok_on_task; try done; [apply Hs|]. apply keeps_state; [done|by rewrite Heqb].
      - rewrite task_on_task by done. case_decide; [by right|by left]. }
    destruct Hs' as [Hok Hgoal].
    rewrite reap_current; [exact Hgoal|exact Hok|exact Hi|left; cbn [with_sch sch]; destruct Hgoal; congruence].
  - rewrite task_on_task by (rewrite Hc1, (ok_len _ Hs1); apply Hs). case_decide; [by right|by left].
  - destruct (switched_spec kernel_pml4 destroy_address_space e w saliente Hs E) as
      (Hs' & W1 & W2 & _ & _ & _ & _ & _ & _ & _ & W8 & _).
    assert (Hgoal : state (task (sch (switched e w saliente)) i) = Ready \/
                    state (task (sch (switched e w saliente)) i) = Running).
    { destruct (decide (i = choose_next (marca_ready (sch w)))) as [->|Hin]; [by right|left].
      destruct (W8 i Hi Hin) as (-> & _). exact Hr. }
    rewrite reap_current; [exact Hgoal|exact Hs'|exact Hi|left; destruct Hgoal; congruence].
Qed.

(** No timed sleep and no heartbeat wait is missed: after a timer tick
    every task that was blocked with an expired deadline, or on the heartbeat
    key, is [Ready] or already [Running]. *)
Theorem tick_wakes e now w i :
  sched_ok (sch w) -> (i < MAX_TASKS)%nat ->
  let t := task (sch w) i in
  state t = Blocked ->
  (wait_deadline t <> 0 /\ wait_deadline t <= now) \/ wait_key t = LLAVE ->
  let t' := task (sch (on_timer kernel_pml4 destroy_address_space e now w)) i in
  state t' = Ready \/ state t' = Running.
Proof.
  intros Hs Hi t Hb Hw. unfold on_timer. cbn [sch tic].
  set (s := set_tasks (sch w) (tick_task now <$> tasks (sch w))).
  assert (Hs' : sched_ok s) by (apply sched_ok_wake; [done|apply tick_task_cases]).
  assert (Hr : state (task s i) = Ready).
  { unfold s. rewrite task_fmap by (by rewrite (ok_len _ Hs)). unfold tick_task. fold t.
    apply is_state_true in Hb. rewrite Hb. cbn [andb].
    destruct Hw as [[H1 H2]|H1].
    - rewrite (proj2 (Z.eqb_neq _ _) H1), (proj2 (Z.leb_le _ _) H2). done.
    - rewrite H1, Z.eqb_refl. by case_if. }
  assert (Hl : (current s < length (tasks s))%nat) by (rewrite (ok_len _ Hs'); apply Hs').
  assert (Hset : forall r q, state (task (on_task s (current s) (fun t => set_ticks (r t) (q t) t)) i) = Ready).
  { intros r q. rewrite task_on_task by done. by case_decide. }
  case_if.
  - left. apply Hset.
  - apply schedule_keeps_runnable; [|done|left; apply Hset].
    apply (set_ticks_ok s (current s)); [done|apply Hs'].
Qed.

(** The turn that follows a task's own [mark_wait]. *)
Lemma waiting_turn e w0 s key deadline :
  sched_ok s -> sched_ok (sch w0) ->
  let me := current s in
  sch w0 = on_task s me (fun t => set_wait key deadline (set_state Blocked t)) ->
  let n := choose_next (sch w0) in
  let w1 := schedule_locked e w0 Publicado in
  wait_key (task (sch w1) me) = key /\ wait_deadline (task (sch w1) me) = deadline /\
  tid (task (sch w1) me) = tid (task s me) /\
  if bool_decide (n <> me /\ context_rsp (task s n) = 0)
  then state (task (sch w1) me) = Running /\ current (sch w1) = me /\ cpu w1 = cpu w0
  else state (task (sch w1) me) = Blocked.
Proof.
  intros Hs Hs0 me H0 n w1.
  assert (Hl : (me < length (tasks s))%nat) by (rewrite (ok_len _ Hs); apply Hs).
  assert (Hcur : current (sch w0) = me) by (by rewrite H0).
  assert (Hme : task (sch w0) me = set_wait key deadline (set_state Blocked (task s me)))
    by (rewrite H0, task_on_task by done; by rewrite decide_True).
  assert (Hm : marca_ready (sch w0) = sch w0).
  { unfold marca_ready. assert (is_state Running (current_task (sch w0)) = false) as ->; [|done].
    apply is_state_false. unfold current_task. by rewrite Hcur, Hme. }
  destruct (choose_next_cases (sch w0) (ok_cur _ Hs0)) as [Hn _]. fold n in Hn.
  assert (Hcx : n <> me -> context_rsp (task (sch w0) n) = context_rsp (task s n)).
  { intros Hne. rewrite H0, task_on_task by done. by rewrite decide_False by congruence. }
  unfold w1. pose proof (schedule_cases kernel_pml4 destroy_address_space e w0 Publicado Hs0) as K.
  cbv zeta in K. rewrite Hm, Hcur in K. fold n in K.
  destruct K as [[E ->]|[(E & E0 & E1 & E2)|(E & E0 & ->)]].
  - rewrite bool_decide_false by (intros [H _]; exact (H E)). rewrite E.
    assert (is_state Ready (task (sch w0) me) = false) as -> by (apply is_state_false; by rewrite Hme).
    rewrite reap_current; [cbn [sch with_sch]; by rewrite Hme|done|apply Hs|left].
    cbn [sch with_sch]. by rewrite Hme.
  - rewrite bool_decide_true by (split; [exact E|rewrite <- Hcx; [exact E0|exact E]]). rewrite E1, E2.
    rewrite task_on_task by (rewrite (ok_len _ Hs0); apply Hs). rewrite decide_True by done.
    rewrite Hme. cbn. by rewrite Hcur.
  - rewrite bool_decide_false by (intros [H H']; apply E0; rewrite Hcx; [exact H'|exact H]).
    destruct (switched_spec kernel_pml4 destroy_address_space e w0 Publicado Hs0) as
      (Hs' & _ & _ & _ & _ & _ & _ & _ & _ & _ & W8 & _); [by rewrite Hm, Hcur|].
    rewrite Hm in W8. destruct (W8 me (ok_cur _ Hs)) as (Q1 & _ & Q2 & Q3 & Q4); [fold n; congruence|].
    rewrite reap_current; [|done|apply Hs|left; by rewrite Q1, Hme].
    by rewrite Q1, Q2, Q3, Q4, Hme.
Qed.

(** C12: no wake-up is lost between a task and whoever changes what it waits
    for.  In a table that satisfies the invariant [sched_ok],
    [wait_current_checked], called by the running task, returns at once when the
    sequence moved.  Otherwise, when the call's lock is released, the
    task is [Blocked] on its key with its deadline, and a [wake_by_key] with that
    key makes it [Ready] -- unless the task that the scheduler chose has no saved
    context: then the processor does not change hands and the waiter is still
    the running task, awake.  In both cases the waking touches no task that waits
    for something else. *)
Theorem wait_not_lost e w key deadline observed c :
  sched_ok (sch w) -> state (current_task (sch w)) = Running ->
  let me := current (sch w) in
  let n := choose_next (mark_wait (sch w) key deadline) in
  let r := wait_current_checked kernel_pml4 destroy_address_space e w key deadline observed c in
  let s' := sch (wake_by_key (fst r) key) in
  (c <> observed -> r = (w, c)) /\
  (c = observed ->
     snd r = observed /\
     wait_key (task (sch (fst r)) me) = key /\ wait_deadline (task (sch (fst r)) me) = deadline /\
     (if bool_decide (n <> me /\ context_rsp (task (sch w) n) = 0)
      then state (task (sch (fst r)) me) = Running /\ current (sch (fst r)) = me /\
           cpu (fst r) = cpu w /\ state (task s' me) = Running
      else state (task (sch (fst r)) me) = Blocked /\ state (task s' me) = Ready) /\
     forall i, (i < MAX_TASKS)%nat ->
       state (task (sch (fst r)) i) <> Blocked \/ wait_key (task (sch (fst r)) i) <> key ->
       task s' i = task (sch (fst r)) i).
Proof.
  intros Hs Hrun me n r s'. unfold r, wait_current_checked.
  split; intros Hc; [by rewrite (proj2 (Z.eqb_neq _ _) Hc)|].
  rewrite Hc, Z.eqb_refl. cbn [negb fst snd]. split; [done|].
  set (w0 := with_sch w (mark_wait (sch w) key deadline)).
  assert (Hs0 : sched_ok (sch w0)) by (by apply mark_wait_ok).
  assert (H0 : sch w0 = on_task (sch w) me (fun t => set_wait key deadline (set_state Blocked t))).
  { cbn. unfold mark_wait. apply is_state_true in Hrun. by rewrite Hrun. }
  set (w1 := schedule_locked e w0 Publicado).
  assert (H1 : sched_ok (sch w1)) by (by apply schedule_ok).
  assert (Hw : forall i, (i < MAX_TASKS)%nat -> task s' i =
    let t := task (sch w1) i in
    if is_state Blocked t && (wait_key t =? key) then wake_task t else t).
  { intros i Hi. unfold s', r, wait_current_checked. rewrite Hc, Z.eqb_refl. cbn [negb fst wake_by_key].
    fold w0. fold w1. cbn [sch with_sch]. apply task_fmap. by rewrite (ok_len _ H1). }
  pose proof (waiting_turn e w0 (sch w) key deadline Hs Hs0 H0) as Hq.
  fold me n in Hq. change (choose_next (sch w0)) with n in Hq.
  change (schedule_locked e w0 Publicado) with w1 in Hq. change (cpu w0) with (cpu w) in Hq.
  destruct Hq as (K1 & K2 & _ & Hq). split; [exact K1|]. split; [exact K2|]. split.
  - rewrite Hw by apply Hs. cbv zeta. case_bool_decide as En.
    + destruct Hq as (Q1 & Q2 & Q3). do 3 (split; [assumption|]).
      assert (is_state Blocked (task (sch w1) me) = false) as -> by (apply is_state_false; by rewrite Q1).
      exact Q1.
    + split; [exact Hq|]. apply is_state_true in Hq. by rewrite Hq, K1, Z.eqb_refl.
  - intros i Hi Hno. rewrite Hw by done. cbv zeta.
    assert (is_state Blocked (task (sch w1) i) && (wait_key (task (sch w1) i) =? key) = false) as ->;
      [|done].
    apply andb_false_iff. destruct Hno; [left; by apply is_state_false|right; by apply Z.eqb_neq].
Qed.

(** ** Fairness among equals *)

(** [j] waits for the processor with no one above it, every task that can be
    chosen has a context, and traps publish theirs. *)
Record espera (j : nat) (w : world) : Prop := {
  es_ok : sched_ok (sch w);
  es_j : (j < MAX_TASKS)%nat /\ candidate (sch w) j;
  es_top : forall k, (k < MAX_TASKS)%nat -> k <> IDLE (sch w) ->
    state (task (sch w) k) = Ready \/ state (task (sch w) k) = Running ->
    priority (task (sch w) k) <= priority (task (sch w) j);
  es_ctx : forall k, (k < MAX_TASKS)%nat -> state (task (sch w) k) = Ready ->
    context_rsp (task (sch w) k) <> 0;
  es_trap : trap_rsp (cpu w) <> 0
}.

Lemma vuelta_turn s s' j :
  (current s < MAX_TASKS)%nat -> (current s' < MAX_TASKS)%nat -> (j < MAX_TASKS)%nat ->
  (vuelta s (current s') < vuelta s j)%nat ->
  (vuelta s' j < vuelta s j)%nat.
Proof. unfold vuelta, MAX_TASKS. lia. Qed.

Lemma vuelta_current s : (current s < MAX_TASKS)%nat -> vuelta s (current s) = MAX_TASKS.
Proof. unfold vuelta, MAX_TASKS. lia. Qed.

(** One turn either gives [j] the processor or brings it closer. *)
Lemma turn_progress e w j :
  espera j w ->
  let w' := schedule_locked e w Publicado in
  (current (sch w') = j /\ state (task (sch w') j) = Running) \/
  (espera j w' /\ (vuelta (sch w') j < vuelta (sch w) j)%nat).
Proof.
  intros [Hs [Hj [Hji Hjr]] Htop Hctx Htrap].
  destruct (marca_ready_spec (sch w) Hs) as (Hs1 & Hc1 & Hi1 & Ht1).
  set (s1 := marca_ready (sch w)) in *.
  assert (Hcand : candidate s1 j).
  { split; [by rewrite Hi1|]. rewrite Ht1 by done. by case_decide. }
  destruct (choose_next_some s1 j (ok_cur _ Hs1) Hj Hcand) as (Hn & [Hni Hnr] & Hpr & Hlt).
  set (next := choose_next s1) in *. rewrite Hi1 in Hni.
  assert (Hprio : forall k, (k < MAX_TASKS)%nat -> priority (task s1 k) = priority (task (sch w) k))
    by (intros k Hk; by destruct (marca_context (sch w) k Hs Hk) as (_ & ? & _)).
  assert (Hrun : forall k, (k < MAX_TASKS)%nat -> state (task s1 k) = Ready ->
    state (task (sch w) k) = Ready \/ state (task (sch w) k) = Running).
  { intros k Hk. rewrite Ht1 by done. case_decide; auto. }
  assert (Hle : priority (task s1 next) <= priority (task s1 j)).
  { rewrite !Hprio by done. by apply Htop; [| |apply Hrun]. }
  assert (Hv : next <> j -> (vuelta s1 next < vuelta s1 j)%nat).
  { intros Hne. assert (vuelta s1 next <> vuelta s1 j).
    { intros E. apply Hne. rewrite <- (idx_vuelta s1 next), <- (idx_vuelta s1 j) by (apply Hs1 || done).
      by rewrite E. }
    lia. }
  assert (Hcn : context_rsp (task s1 next) <> 0).
  { destruct (marca_context (sch w) next Hs Hn) as (Hcx & _).
    unfold s1. rewrite Hcx. destruct (Hrun next Hn Hnr) as [Hr|Hr]; [by apply Hctx|].
    (* a running next is the current one: it is chosen only as [j] *)
    exfalso. pose proof (ok_run _ Hs next Hn Hr) as E.
    destruct (decide (next = j)) as [Ej|Ej]; [rewrite Ej in Hr; congruence|].
    specialize (Hv Ej). rewrite E, <- Hc1, vuelta_current in Hv by apply Hs1.
    pose proof (vuelta_range s1 j). lia. }
  destruct (schedule_cases kernel_pml4 destroy_address_space e w Publicado Hs)
    as [[E ->]|[(_ & E & _)|(E & _ & ->)]]; fold s1 in E |- *; fold next in E |- *; [| done |].
  { destruct (decide (next = j)) as [Ej|Ej].
    2:{ exfalso. specialize (Hv Ej). rewrite E, <- Hc1, vuelta_current in Hv by apply Hs1.
        pose proof (vuelta_range s1 j). lia. }
    left. rewrite (proj2 (is_state_true Ready (task s1 next))) by exact Hnr.
    assert (Hok : sched_ok (on_task s1 next (set_state Running))).
    { apply sched_ok_on_task; [exact Hs1|exact Hn|apply keeps_state; [done|by rewrite Hnr]| |done].
      intros _. by rewrite Hc1. }
    destruct (reap_world e (with_sch w (on_task s1 next (set_state Running))) Hok) as (R1 & _).
    rewrite R1, reap_current; [|exact Hok|exact Hj|right; cbn; by rewrite Hc1, <- E].
    cbn [sch with_sch]. split; [cbn; by rewrite Hc1, <- E|].
    rewrite task_on_task by (by rewrite (ok_len _ Hs1)). by rewrite decide_True. }
  destruct (switched_spec kernel_pml4 destroy_address_space e w Publicado Hs E) as
    (Hs' & W1 & W2 & W3 & _ & _ & W4 & _ & _ & W7 & W8 & W9).
  fold s1 in W1, W2, W3, W4, W7, W8, W9. fold next in W1, W2, W3, W4, W7, W8, W9.
  pose proof (switched_IDLE e w Publicado) as W10.
  set (ws := switched e w Publicado) in *. clearbody ws.
  destruct (reap_world e ws Hs') as (R1 & R2 & R3).
  assert (Hsj : forall k, (k < MAX_TASKS)%nat -> k <> next ->
    task (sch (reap e ws)) k = task (sch ws) k \/ task (sch (reap e ws)) k = EMPTY).
  { intros k Hk _. destruct (reap_spec kernel_pml4 destroy_address_space e ws (ok_len _ Hs'))
      as (_ & _ & Hrs). rewrite Hrs by done. unfold reaped. case_if; auto. }
  destruct (decide (next = j)) as [Ej|Ej].
  { left. rewrite R1, reap_current; [|exact Hs'|exact Hj|right; rewrite W1; symmetry; exact Ej].
    rewrite <- Ej. split; [exact W1|exact W2]. }
  right. destruct (W8 j Hj ltac:(congruence)) as (Q1 & Q2 & _).
  assert (Hjs : state (task (sch ws) j) = Ready).
  { rewrite Q1, Ht1, decide_False by (done || by rewrite Hjr). exact Hjr. }
  assert (Qj : task (sch (reap e ws)) j = task (sch ws) j).
  { apply reap_current; [exact Hs'|exact Hj|left]. by rewrite Hjs. }
  split.
  2:{ specialize (Hv Ej). apply vuelta_turn; [apply Hs|rewrite R1; apply Hs'|exact Hj|].
      rewrite R1, W1. unfold vuelta in *. by rewrite Hc1 in Hv. }
  split.
  - by apply reap_ok.
  - split; [exact Hj|]. split; [by rewrite R3, W10|by rewrite Qj].
  - intros k Hk Hki Hst. rewrite R3, W10 in Hki. rewrite Qj.
    destruct (decide (k = next)) as [->|Hkn].
    + rewrite reap_current in * by (exact Hs' || exact Hk || (right; symmetry; exact W1)).
      rewrite W3, Q2. exact Hle.
    + destruct (Hsj k Hk Hkn) as [Eq|Eq]; rewrite Eq in Hst |- *; [|by destruct Hst].
      destruct (W8 k Hk Hkn) as (Q3 & Q4 & _). rewrite Q4, Q2, !Hprio by done.
      apply Htop; [done|done|]. apply Hrun; [done|]. rewrite <- Q3.
      destruct Hst as [Hst|Hst]; [done|]. exfalso.
      apply Hkn. rewrite <- W1. apply (ok_run _ Hs'); done.
  - intros k Hk Hst. destruct (decide (k = next)) as [->|Hkn].
    + rewrite reap_current in Hst by (exact Hs' || exact Hk || (right; symmetry; exact W1)). congruence.
    + destruct (Hsj k Hk Hkn) as [Eq|Eq]; rewrite Eq in Hst |- *; [|done].
      destruct (decide (k = current (sch w))) as [->|Hkc].
      * rewrite W7. unfold contexto_guardado. by rewrite (proj2 (Z.eqb_neq _ _) Htrap).
      * rewrite W9 by done. destruct (W8 k Hk Hkn) as (Q3 & _).
        destruct (marca_context (sch w) k Hs Hk) as (Hcx & _). fold s1 in Hcx. rewrite Hcx.
        rewrite Q3 in Hst. destruct (Hrun k Hk Hst) as [Hr|Hr]; [by apply Hctx|].
        exfalso. by apply Hkc, (ok_run _ Hs).
  - rewrite R2, W4. exact Hcn.
Qed.

(** [n] turns in a row, each in its own environment. *)
Fixpoint turns (es : nat -> env) (w : world) (n : nat) : world :=
  match n with O => w | S n => schedule_locked (es n) (turns es w n) Publicado end.

(** C13: nobody starves among equals.  In a table that satisfies the invariant
    [sched_ok], let [j] be ready, no task but the idle
    one have a higher priority, every ready task have a saved context and the
    current trap have published its own (a task chosen without a context is
    never switched to, and its turn is lost).  Then within [MAX_TASKS] turns of
    the scheduler in a row -- expired quanta or yields, with no task created,
    blocked or woken in between -- [j] is the running task. *)
Theorem fair_among_equals es w j :
  espera j w ->
  exists n, (n <= MAX_TASKS)%nat /\
    current (sch (turns es w n)) = j /\ state (task (sch (turns es w n)) j) = Running.
Proof.
  intros Hw.
  assert (H : forall n,
    (exists k, (k <= n)%nat /\ current (sch (turns es w k)) = j /\
       state (task (sch (turns es w k)) j) = Running) \/
    (espera j (turns es w n) /\ (vuelta (sch (turns es w n)) j + n <= vuelta (sch w) j)%nat)).
  { induction n as [|n IH]; [right; split; [exact Hw|cbn; lia]|].
    destruct IH as [(k & Hk & Hd)|[He Hv]].
    - left. exists k. split; [lia|exact Hd].
    - destruct (turn_progress (es n) _ j He) as [Hd|[He' Hv']].
      + left. exists (S n). split; [lia|exact Hd].
      + right. cbn [turns]. split; [exact He'|lia]. }
  destruct (H MAX_TASKS) as [(k & Hk & Hd)|[_ Hv]]; [by exists k|].
  pose proof (vuelta_range (sch w) j). pose proof (vuelta_range (sch (turns es w MAX_TASKS)) j). lia.
Qed.
End Turn.

(** ** Kernel stacks *)

Lemma libera_pila_spec n : forall m f p t,
  phys_ok m -> 0 <= f -> 0 <= p -> f + p + Z.of_nat n <= MARCOS ->
  (forall g, f + p <= g < f + p + Z.of_nat n -> used (bitmap m) g = true) ->
  let m' := libera_pila m (f * PAGE) p n t in
  phys_ok m' /\ free_frames m' = free_frames m + Z.of_nat n /\
  forall g, used (bitmap m') g = negb (frange (f + p) (Z.of_nat n) g) && used (bitmap m) g.
Proof.
  induction n as [|n IH]; intros m f p t Hm Hf Hp Hle Hu; cbn [libera_pila].
  { split; [exact Hm|]. split; [lia|]. intros g. by rewrite frange_0. }
  assert (Hd : w64 (f * PAGE + w64 (p * PAGE)) = (f + p) * PAGE).
  { rewrite MARCOS_eq in Hle. unfold w64, PAGE. lia. }
  rewrite Hd.
  assert (Hr : 0 <= f + p < MARCOS) by lia.
  assert (Hup : used (bitmap m) (f + p) = true) by (apply Hu; lia).
  pose proof (free_frame_used m (f + p) t Hm Hr Hup) as E.
  pose proof (free_frame_ok m (f + p) t Hm Hr Hup) as Hok.
  set (m1 := free_frame m ((f + p) * PAGE) t) in *.
  assert (Hb1 : bitmap m1 = clear_bit (bitmap m) (f + p)) by (by rewrite E).
  assert (Hf1 : free_frames m1 = free_frames m + 1) by (by rewrite E).
  clearbody m1. rewrite Nat2Z.inj_succ in Hle. unfold Z.succ in Hle.
  destruct (IH m1 f (p + 1) t Hok Hf ltac:(lia) ltac:(lia)) as (H1 & H2 & H3).
  { intros g Hg. rewrite Hb1, used_clear_bit, (proj2 (Z.eqb_neq _ _)) by lia. apply Hu. lia. }
  split; [exact H1|]. split; [lia|]. intros g.
  rewrite H3, Hb1, used_clear_bit, Nat2Z.inj_succ. unfold Z.succ.
  rewrite frange_S by lia. replace (f + (p + 1)) with (f + p + 1) by lia.
  by destruct (f + p =? g), (frange (f + p + 1) (Z.of_nat n) g), (used (bitmap m) g).
Qed.

(** The stack of a kernel thread is taken and given back whole: freeing,
    page by page, what [spawn_kernel] takes for a stack leaves exactly the
    frames that were free before free again. *)
Theorem stack_roundtrip m m' base t :
  phys_ok m -> alloc_frames_contig_de m TASK_STACK_PAGES Pila = (m', Some base) ->
  let m2 := libera_pila m' base 0 (Z.to_nat TASK_STACK_PAGES) t in
  (forall g, used (bitmap m2) g = used (bitmap m) g) /\
  free_frames m2 = free_frames m /\ phys_ok m2.
Proof.
  intros Hm E. apply alloc_contig_de_inv in E as (f & -> & (H0 & Hle & Hfree) & Hu & Hf & Hok);
    [|done|done].
  destruct (libera_pila_spec (Z.to_nat TASK_STACK_PAGES) m' f 0 t Hok H0) as (H1 & H2 & H3).
  - done.
  - rewrite Z2Nat.id by done. lia.
  - intros g Hg. rewrite Z2Nat.id in Hg by done. rewrite Hu.
    rewrite (proj2 (Z.leb_le f g)), (proj2 (Z.ltb_lt g _)) by lia. done.
  - rewrite Z2Nat.id in H2, H3 by done. cbv zeta. split; [|split; [lia|exact H1]].
    intros g. rewrite H3, Hu, Z.add_0_r. unfold frange.
    destruct ((f <=? g) && (g <? f + TASK_STACK_PAGES)) eqn:E; [|done]. bdestr.
    rewrite Hfree by lia. done.
Qed.

(** [spawn_kernel] takes the stack before it looks for a slot.  With the
    table full it answers [None] and the four frames stay taken. *)
Theorem spawn_kernel_full_leaks fab w entry arg prio f :
  phys_ok (mem w) -> hueco (bitmap (mem w)) f TASK_STACK_PAGES ->
  hay_hueco (sch w) = false ->
  let r := spawn_kernel fab w entry arg prio in
  snd r = None /\ sch (fst r) = sch w /\
  free_frames (mem (fst r)) = free_frames (mem w) - TASK_STACK_PAGES /\ phys_ok (mem (fst r)).
Proof.
  intros Hm Hh Hfull r. unfold r, spawn_kernel.
  assert (Hpos : position (is_state Empty) (tasks (sch w)) = None).
  { apply position_None. intros i t Ht. apply not_true_iff_false. intros Hst.
    apply not_true_iff_false in Hfull. apply Hfull. unfold hay_hueco.
    apply existsb_exists. exists t. split; [|exact Hst].
    apply list_elem_of_In. by eapply list_elem_of_lookup_2. }
  destruct (alloc_frames_contig_de (mem w) TASK_STACK_PAGES Pila) as [m [b|]] eqn:E.
  - cbn [sch with_mem]. rewrite Hpos. cbn [fst snd mem with_mem].
    apply alloc_contig_de_inv in E as (g & _ & _ & _ & Hf & Hok); [|exact Hm|done].
    split; [done|]. split; [done|]. split; [exact Hf|exact Hok].
  - exfalso. revert E. unfold alloc_frames_contig_de.
    pose proof (alloc_frames_contig_cases (mem w) TASK_STACK_PAGES Hm ltac:(done)) as Hc.
    destruct (alloc_frames_contig _ _) as [s1 [b|]]; [done|]. destruct Hc as [_ Hc].
    intros _. by apply (Hc f).
Qed.

Lemma filter_conj {A} (P Q : A -> Prop) `{!forall x, Decision (P x), !forall x, Decision (Q x)} (l : list A) :
  (forall x, x ∈ l -> P x -> Q x) -> filter (fun x => P x /\ Q x) l = filter P l.
Proof.
  induction l as [|x l IH]; intros Hl; [done|]. rewrite !filter_cons.
  assert (Hx : P x -> Q x) by (apply Hl, list_elem_of_here).
  rewrite IH by (intros; apply Hl; [by apply list_elem_of_further|done]).
  repeat case_decide; tauto.
Qed.

(** The clean-up of Ring 3 leaves no live task of Ring 3 outside slot 0 --
    every one that was alive is [Exited], unless it already was --, and kills
    nothing of the kernel.  The revocations may do anything but touch the
    table. *)
Theorem limpieza_kills_ring3 revoke_all w :
  sched_ok (sch w) -> (forall w p, sch (revoke_all w p) = sch w) ->
  let r := limpieza_de_ring3 revoke_all w in
  (forall i, (0 < i < MAX_TASKS)%nat -> es_viva (task (sch (fst r)) i) = false) /\
  (forall i, (i < MAX_TASKS)%nat -> is_user (task (sch w) i) = false ->
     task (sch (fst r)) i = task (sch w) i) /\
  fst (snd r) = Z.of_nat (length (filter es_viva (drop 1 (tasks (sch w))))).
Proof.
  intros Hs Hrev r.
  assert (Hfold : forall l w0, sch (foldl revoke_all w0 l) = sch w0).
  { induction l as [|p l IH]; intros w0; cbn [foldl]; [done|]. by rewrite IH, Hrev. }
  unfold r, limpieza_de_ring3, limpieza_marca. cbn [fst snd sch with_sch]. rewrite !Hfold.
  set (pids := pids_de_ring3 (sch w)).
  assert (Hin : forall i, (0 < i < MAX_TASKS)%nat -> es_viva (task (sch w) i) = true ->
    pid (task (sch w) i) ∈ pids).
  { intros i Hi Hv. unfold pids, pids_de_ring3. apply list_elem_of_fmap.
    exists (task (sch w) i). split; [done|]. apply list_elem_of_filter. split; [by rewrite Hv|].
    apply (list_elem_of_lookup_2 _ (i - 1)). rewrite lookup_drop.
    replace (1 + (i - 1))%nat with i by lia. unfold task.
    apply list_lookup_lookup_total_lt. rewrite (ok_len _ Hs). lia. }
  pose proof (fun i => task_limpieza pids (sch w) i Hs) as Ht.
  split; [|split].
  - intros i Hi. rewrite Ht by lia. unfold limpieza_mata.
    destruct (es_viva (task (sch w) i)) eqn:Ev.
    + rewrite (proj2 (Nat.eqb_neq i 0)), (bool_decide_eq_true_2 _ (Hin i Hi Ev)) by lia. cbn [negb andb].
      unfold es_viva, is_state. cbn. apply andb_false_r.
    + rewrite andb_false_r. exact Ev.
  - intros i Hi Hu. rewrite Ht by done. unfold limpieza_mata.
    assert (es_viva (task (sch w) i) = false) as ->; [|by rewrite andb_false_r].
    unfold es_viva. by rewrite Hu.
  - f_equal. f_equal. apply filter_conj. intros t Hin' Hv.
    apply list_elem_of_lookup_1 in Hin' as (i & Hi). rewrite lookup_drop in Hi.
    pose proof (lookup_lt_Some _ _ _ Hi) as Hl. rewrite (ok_len _ Hs) in Hl.
    assert (Ei : task (sch w) (1 + i) = t) by (unfold task; by apply list_lookup_total_correct).
    rewrite <- Ei. apply Hin; [lia|]. rewrite Ei. by destruct (es_viva t).
Qed.

(** ** Concrete runs *)

Definition demo_pml4 : Z := 0x1000.
Definition demo_destroy (m : phys_st) (c : Z) : phys_st := m.
Definition demo_fab (top entry arg : Z) : Z := top - 512.
Definition demo_env : env := mkEnv 0x8000 5 1000.

(** A machine after boot with two processes of Ring 3 waiting for their turn. *)
Definition demo_w0 : world :=
  mkWorld (mkSched [] 0 0 MAX_TASKS) (mkCpu 0x9000 demo_pml4 0 0) phys_demo
    (replicate 32 (mkPila 0 0 0 0 0)) 0 0.
Definition demo_w1 : world := fst (spawn_user (init demo_w0) 7 0xA000 0 0 0xC000 0x5000 0).
Definition demo_w : world := fst (spawn_user demo_w1 8 0xB000 0 0 0 0x6000 0).

(** The two births are steps; a trap and the clean-up of Ring 3 come after. *)
Lemma demo_steps :
  sstep demo_pml4 demo_destroy demo_fab (init demo_w0) demo_w1 /\
  sstep demo_pml4 demo_destroy demo_fab demo_w1 demo_w.
Proof. split; apply st_spawn_user. Qed.

Definition demo_w2 : world :=
  limpieza_marca [8] (with_cpu demo_w (set_trap_rsp 0xF000 (cpu demo_w))).

Lemma demo_reach : reachable demo_pml4 demo_destroy demo_fab demo_w0 2 demo_w2.
Proof.
  destruct demo_steps as [H1 H2].
  pose proof (reach_step _ _ _ _ _ _ _ (reach_init demo_pml4 demo_destroy demo_fab demo_w0) H1) as R1.
  pose proof (reach_step _ _ _ _ _ _ _ R1 H2) as R2.
  pose proof (reach_step _ _ _ _ _ _ _ R2 (st_trap _ _ _ 0xF000 demo_w)) as R3.
  exact (reach_step _ _ _ _ _ _ _ R3 (st_limpieza _ _ _ [8] _)).
Qed.

Lemma demo_ok : sched_ok (sch demo_w).
Proof.
  destruct demo_steps as [H1 H2].
  pose proof (reach_step _ _ _ _ _ _ _ (reach_init demo_pml4 demo_destroy demo_fab demo_w0) H1) as R1.
  pose proof (reach_step _ _ _ _ _ _ _ R1 H2) as R2.
  apply (reachable_ok _ _ _ _ _ _ R2). vm_compute. discriminate.
Qed.

Lemma sched_invariant_witness :
  sched_ok (sch demo_w2) /\ tid (task (sch demo_w2) 1) = 2 /\ state (task (sch demo_w2) 2) = Exited.
Proof.
  split; [|vm_compute; done].
  apply (sched_invariant demo_pml4 demo_destroy demo_fab demo_w0 2 demo_w2 demo_reach).
  vm_compute. discriminate.
Defined.

Lemma choose_next_spec_witness :
  candidate (sch demo_w) 2 /\ choose_next (sch demo_w) = 1%nat /\
  (vuelta (sch demo_w) (choose_next (sch demo_w)) < vuelta (sch demo_w) 2)%nat.
Proof.
  assert (Hc : candidate (sch demo_w) 2) by (split; vm_compute; done).
  split; [exact Hc|]. split; [vm_compute; reflexivity|].
  destruct (choose_next_spec (sch demo_w)) as [H _]; [vm_compute; lia|].
  destruct (H 2%nat ltac:(vm_compute; lia) Hc) as (_ & _ & _ & Hv).
  apply Hv; [vm_compute; reflexivity|vm_compute; lia].
Defined.

Lemma reap_exact_witness :
  let w := with_sch demo_w (on_task (sch demo_w) 1 (set_state Exited)) in
  task (sch (reap demo_pml4 demo_destroy demo_env w)) 1 = EMPTY.
Proof.
  intros w. destruct (reap_exact demo_pml4 demo_destroy demo_env w) as (H & _).
  - vm_compute; reflexivity.
  - vm_compute; lia.
  - apply (H 1%nat); [vm_compute; lia|vm_compute; reflexivity|vm_compute; lia|left; vm_compute; reflexivity].
Defined.

Lemma context_switch_spec_witness :
  let w' := schedule_locked demo_pml4 demo_destroy demo_env demo_w Publicado in
  current (sch w') = 1%nat /\ trap_rsp (cpu w') = 0xA000 /\ tss_rsp0 (cpu w') = 0xC000 /\
  context_rsp (task (sch w') 0) = 0x9000.
Proof.
  intros w'. assert (Hn : choose_next (marca_ready (sch demo_w)) = 1%nat) by (vm_compute; reflexivity).
  pose proof (context_switch_spec demo_pml4 demo_destroy demo_env demo_w Publicado demo_ok) as H.
  cbv zeta in H. rewrite Hn in H. fold w' in H.
  destruct H as [_ H]; [vm_compute; lia|].
  destruct H as (H1 & _ & _ & H2 & _ & H3 & _ & H4); [vm_compute; lia|].
  split; [exact H1|]. split; [rewrite H2; vm_compute; reflexivity|].
  split; [rewrite H3; vm_compute; reflexivity|].
  change 0%nat with (current (sch demo_w)).
  rewrite H4; [vm_compute; reflexivity|vm_compute; discriminate].
Defined.

Lemma tick_wakes_witness :
  let w := with_sch demo_w (on_task (sch demo_w) 2 (fun t => set_wait 0 900 (set_state Blocked t))) in
  let t' := task (sch (on_timer demo_pml4 demo_destroy demo_env 1000 w)) 2 in
  state t' = Ready \/ state t' = Running.
Proof.
  intros w. apply (tick_wakes demo_pml4 demo_destroy demo_env 1000 w 2).
  - apply sched_ok_on_task; [exact demo_ok|vm_compute; lia| | |]; vm_compute; [split_and!; done|done|done].
  - vm_compute; lia.
  - vm_compute; reflexivity.
  - left. vm_compute. split; discriminate.
Defined.

Lemma wait_not_lost_witness :
  let r := wait_current_checked demo_pml4 demo_destroy demo_env demo_w 0x77 0 4 4 in
  state (task (sch (fst r)) 0) = Blocked /\
  state (task (sch (wake_by_key (fst r) 0x77)) 0) = Ready.
Proof.
  intros r.
  destruct (wait_not_lost demo_pml4 demo_destroy demo_env demo_w 0x77 0 4 4 demo_ok) as [_ H].
  - vm_compute; reflexivity.
  - destruct (H eq_refl) as (_ & _ & _ & H1 & _).
    assert (Hb : bool_decide (choose_next (mark_wait (sch demo_w) 0x77 0) <> current (sch demo_w) /\
      context_rsp (task (sch demo_w) (choose_next (mark_wait (sch demo_w) 0x77 0))) = 0) = false)
      by (vm_compute; reflexivity).
    rewrite Hb in H1. exact H1.
Defined.

Lemma fair_among_equals_witness :
  espera 2 demo_w /\
  exists n, current (sch (turns demo_pml4 demo_destroy (fun _ => demo_env) demo_w n)) = 2%nat.
Proof.
  assert (Hall : forallb (fun k => is_state Empty (task (sch demo_w) k)) (seq 3 61) = true)
    by (vm_compute; reflexivity).
  rewrite forallb_forall in Hall.
  assert (Hk : forall k, (k < MAX_TASKS)%nat -> k = 0%nat \/ k = 1%nat \/ k = 2%nat \/
    state (task (sch demo_w) k) = Empty).
  { intros k Hk. unfold MAX_TASKS in Hk. do 3 (destruct k as [|k]; [auto|]). do 3 right.
    apply is_state_true, Hall, List.in_seq. lia. }
  assert (He : espera 2 demo_w).
  { split; [exact demo_ok|split; [vm_compute; lia|split; vm_compute; done]| | |vm_compute; lia].
    - intros k Hlt _ Hst. destruct (Hk k Hlt) as [->|[->|[->|E]]]; [vm_compute; discriminate..|].
      destruct Hst; congruence.
    - intros k Hlt Hst. destruct (Hk k Hlt) as [->|[->|[->|E]]];
        [revert Hst; vm_compute; discriminate..|congruence]. }
  split; [exact He|].
  destruct (fair_among_equals demo_pml4 demo_destroy (fun _ => demo_env) demo_w 2 He) as (n & _ & H & _).
  exists n. exact H.
Defined.

Lemma stack_roundtrip_witness :
  exists m' base, alloc_frames_contig_de phys_demo TASK_STACK_PAGES Pila = (m', Some base) /\
    free_frames (libera_pila m' base 0 4 9) = MARCOS.
Proof.
  destruct (alloc_frames_contig_de phys_demo TASK_STACK_PAGES Pila) as [m' [base|]] eqn:E.
  - exists m', base. split; [reflexivity|].
    destruct (stack_roundtrip phys_demo m' base 9 phys_demo_ok E) as (_ & H & _). exact H.
  - exfalso. revert E. unfold alloc_frames_contig_de.
    pose proof (alloc_frames_contig_cases phys_demo TASK_STACK_PAGES phys_demo_ok ltac:(done)) as Hc.
    destruct (alloc_frames_contig _ _) as [s1 [b|]]; [done|]. intros _.
    destruct Hc as [_ Hc]. apply (Hc 0). apply phys_demo_hueco. rewrite MARCOS_eq. unfold TASK_STACK_PAGES. lia.
Defined.

Lemma spawn_kernel_full_leaks_witness :
  let w := with_sch demo_w (mkSched (replicate 64 (set_state Ready EMPTY)) 0 99 64) in
  let r := spawn_kernel demo_fab w 0 0 0 in
  snd r = None /\ free_frames (mem (fst r)) = MARCOS - 4.
Proof.
  intros w r.
  destruct (spawn_kernel_full_leaks demo_fab w 0 0 0 0 phys_demo_ok
    (phys_demo_hueco TASK_STACK_PAGES ltac:(rewrite MARCOS_eq; unfold TASK_STACK_PAGES; lia))) as (H1 & _ & H2 & _).
  - vm_compute; reflexivity.
  - exact (conj H1 H2).
Defined.

Lemma limpieza_kills_ring3_witness :
  fst (snd (limpieza_de_ring3 (fun w _ => w) demo_w)) = 2.
Proof.
  destruct (limpieza_kills_ring3 (fun w _ => w) demo_w demo_ok (fun _ _ => eq_refl)) as (_ & _ & ->).
  vm_compute. reflexivity.
Defined.
