(* ===== verification/Endpoint.v ===== *)
(** Endpoint RPC: a process of Ring 3 as a server.  The table of endpoints with
    their call queues, the reply slot of each task, and the composition with
    capabilities ([Cap]), channels ([Channel]) and the scheduler.
    Source: src/Ultra_kernel_x86-64/kernel/src/ring0/obj/endpoint.rs.

    The scheduler is used through the interface [Sleep] (who runs, where a
    blocked task keeps its context, wake, wait); its laws [SleepLaws] are
    proved for [Sched.world] at the end.  A function that indexes a table with
    a number that may be out of range answers [None]: Rust panics there, and a
    panic of the kernel stops the machine. *)

From Stdlib Require Import ZifyNat.
From stdpp Require Import gmap.
From S2P Require Import Prelude Cap Channel Titular Phys Sched.

Definition MAX_ENDPOINTS : nat := 8.
Definition QUEUE : nat := 16.
Definition ERROR_ENDPOINT_DEAD : Z := 18.
Definition ERROR_ENDPOINT_OCUPADO : Z := 19.
Definition XSAVE_AREA : Z := 1024.
(** Offsets of [rdx] and [rax] in [TrapFrame]. *)
Definition FRAME_RDX : Z := 12 * 8.
Definition FRAME_RAX : Z := 14 * 8.

Record Call := mkCall { caller_tid : Z; c_op : Z; c_args : Z * Z * Z }.
Definition CALL_EMPTY : Call := mkCall 0 0 (0, 0, 0).
#[export] Instance Call_inhabited : Inhabited Call := populate CALL_EMPTY.

Record Endpoint := mkEndpoint {
  vivo : bool; servidor_pid : Z; canal : nat;
  cola : list Call; cabeza : nat; n_cola : nat; e_seq : Z
}.
Definition ENDPOINT_EMPTY : Endpoint := mkEndpoint false 0 0 (replicate QUEUE CALL_EMPTY) 0 0 0.
#[export] Instance Endpoint_inhabited : Inhabited Endpoint := populate ENDPOINT_EMPTY.

Record Reply := mkReply { esperando : bool; lista : bool; gen : Z; r_code : Z; r_value : Z }.
Definition REPLY_EMPTY : Reply := mkReply false false 0 0 0.
#[export] Instance Reply_inhabited : Inhabited Reply := populate REPLY_EMPTY.

Record Outcome := mkOutcome { code : Z; value : Z }.

(** ** What an endpoint needs of the scheduler *)

Class Sleep (W : Type) := {
  sl_current_tid : W -> Z;
  sl_context_rsp_of : W -> Z -> Z;
  sl_wake : W -> Z -> W;
  (** [wait_current_checked(key, deadline, observed, seq)], its answer dropped
      as the callers drop it. *)
  sl_wait : W -> Z -> Z -> Z -> Z -> W
}.

(** The tasks blocked on a key, and what a wake does to them. *)
Class SleepLaws (W : Type) `{Sleep W} := {
  blocked_on : W -> Z -> Z -> Prop;
  law_wake : forall w k t k', blocked_on (sl_wake w k) t k' <-> blocked_on w t k' /\ k' <> k;
  law_wake_tid : forall w k, sl_current_tid (sl_wake w k) = sl_current_tid w;
  (** A wait on a sequence that did not move puts the caller to sleep, if the
      processor can go to somebody else. *)
  can_wait : W -> Z -> Z -> Prop;
  law_wait : forall w k d o, can_wait w k d -> blocked_on (sl_wait w k d o o) (sl_current_tid w) k
}.

Section Endpoint.
Context {W : Type} `{Sleep W}.

Record ep_st := mkEp {
  eps : list Endpoint; resp : list Reply;
  caps : cap_tables; chans : list Channel; slp : W;
  ultima_escritura : Z * Z * Z;
  ram : Z -> Z                         (* the 64-bit word at an address *)
}.

(** The addresses of the tables and the sizes of their rows. *)
Variables ep_base ep_size reply_base reply_size : Z.

Definition endpoint_key (idx : nat) : Z := w64 (ep_base + w64 (Z.of_nat idx * ep_size)).
Definition reply_key (tid : Z) : Z := w64 (reply_base + w64 (tid * reply_size)).

Definition with_eps (s : ep_st) (l : list Endpoint) : ep_st :=
  mkEp l (resp s) (caps s) (chans s) (slp s) (ultima_escritura s) (ram s).
Definition with_resp (s : ep_st) (l : list Reply) : ep_st :=
  mkEp (eps s) l (caps s) (chans s) (slp s) (ultima_escritura s) (ram s).
Definition with_caps (s : ep_st) (t : cap_tables) : ep_st :=
  mkEp (eps s) (resp s) t (chans s) (slp s) (ultima_escritura s) (ram s).
Definition with_chans (s : ep_st) (l : list Channel) : ep_st :=
  mkEp (eps s) (resp s) (caps s) l (slp s) (ultima_escritura s) (ram s).
Definition with_slp (s : ep_st) (w : W) : ep_st :=
  mkEp (eps s) (resp s) (caps s) (chans s) w (ultima_escritura s) (ram s).

Definition ep (s : ep_st) (idx : nat) : Endpoint := eps s !!! idx.
Definition reply_of (s : ep_st) (t : Z) : Reply := resp s !!! Z.to_nat t.
Definition set_ep (s : ep_st) (idx : nat) (e : Endpoint) : ep_st := with_eps s (<[idx := e]> (eps s)).
Definition set_reply (s : ep_st) (t : Z) (r : Reply) : ep_st :=
  with_resp s (<[Z.to_nat t := r]> (resp s)).

(** ** Create and connect *)

Definition create (s : ep_st) (pid : Z) (ch : nat) : ep_st * option Z :=
  match position (fun e => negb (vivo e)) (eps s) with
  | None => (s, None)
  | Some i =>
      let s := set_ep s i (mkEndpoint true pid ch (replicate QUEUE CALL_EMPTY) 0 0 0) in
      let '(t, h) := grant (caps s) pid KIND_ENDPOINT (Z.lor RIGHT_WAIT RIGHT_READ) (Z.of_nat i) in
      (with_caps s t, h)
  end.

Definition grant_client (s : ep_st) (idx : nat) (pid : Z) : option (ep_st * option Z) :=
  if (MAX_ENDPOINTS <=? idx)%nat then None
  else if negb (vivo (ep s idx)) then Some (s, None)
  else
    let '(t, h) := grant (caps s) pid KIND_ENDPOINT RIGHT_WRITE (Z.of_nat idx) in
    Some (with_caps s t, h).

(** ** Reply *)

Definition write_into_frame (s : ep_st) (t cod val : Z) : ep_st :=
  let ctx := sl_context_rsp_of (slp s) t in
  if ctx =? 0
  then mkEp (eps s) (resp s) (caps s) (chans s) (slp s) (t, 0, 0) (ram s)
  else
    let gpr_base := ram s (w64 (ctx + XSAVE_AREA)) in
    let mem :=
      if gpr_base =? 0 then ram s
      else if (gpr_base <=? ctx) || (64 * 1024 <? w64 (gpr_base - ctx)) then ram s
      else fun a =>
        if a =? w64 (gpr_base + FRAME_RAX) then cod
        else if a =? w64 (gpr_base + FRAME_RDX) then val else ram s a in
    mkEp (eps s) (resp s) (caps s) (chans s) (slp s) (t, ctx, gpr_base) mem.

Definition complete (s : ep_st) (t g cod val : Z) : ep_st :=
  if Z.of_nat MAX_TASKS <=? t then s
  else
    let r := reply_of s t in
    if negb (esperando r) || negb (gen r =? g) || lista r then s
    else
      let s := set_reply s t (mkReply true true g cod val) in
      let s := write_into_frame s t cod val in
      with_slp s (sl_wake (slp s) (reply_key t)).

Definition reply_to (s : ep_st) (servidor handle objeto cod val : Z) : ep_st * Outcome :=
  let t := Z.land objeto 0xFFFFFFFF in
  let g := w32 (Z.shiftr objeto 48) in
  let s := complete s t g cod val in
  (with_caps s (fst (revoke (caps s) servidor handle)), mkOutcome 0 0).

(** ** Call *)

Definition call (s : ep_st) (idx : nat) (op : Z) (args : Z * Z * Z) : option (ep_st * Outcome) :=
  let t := sl_current_tid (slp s) in
  if Z.of_nat MAX_TASKS <=? t then Some (s, mkOutcome ERROR_ENDPOINT_DEAD 0)
  else if (MAX_ENDPOINTS <=? idx)%nat then None
  else
    let e := ep s idx in
    if negb (vivo e) then Some (s, mkOutcome ERROR_ENDPOINT_DEAD 0)
    else if (QUEUE <=? n_cola e)%nat then Some (s, mkOutcome ERROR_ENDPOINT_OCUPADO 0)
    else
      let slot := ((cabeza e + n_cola e) mod QUEUE)%nat in
      let s := set_ep s idx (mkEndpoint (vivo e) (servidor_pid e) (canal e)
                 (<[slot := mkCall t op args]> (cola e)) (cabeza e) (S (n_cola e))
                 (w64 (e_seq e + 1))) in
      let s := set_reply s t (mkReply true false (w32 (gen (reply_of s t) + 1)) 0 0) in
      let s := with_slp s (sl_wake (slp s) (endpoint_key idx)) in
      let seq := if lista (reply_of s t) then 1 else 0 in
      let s := with_slp s (sl_wait (slp s) (reply_key t) 0 0 seq) in
      let r := reply_of s t in
      if lista r
      then Some (set_reply s t (mkReply false false (gen r) (r_code r) (r_value r)),
                 mkOutcome (r_code r) (r_value r))
      else Some (s, mkOutcome 0 0).

(** ** Wait *)

(** [channel::page_phys] asserts its index; the answer of [ring0_complete] is
    dropped. *)
Definition publish (s : ep_st) (ch : nat) (op : Z) (args : Z * Z * Z) : option ep_st :=
  if (MAX_CHANNEL_PAGES <=? ch)%nat then None
  else match chans s !! ch with
  | None => Some s
  | Some c =>
      let '(a0, a1, a2) := args in
      Some (with_chans s (<[ch := fst (ring0_complete c (mkEnt op a0 a1 a2))]> (chans s)))
  end.

(** Take the call at the head of the queue. *)
Definition pop (e : Endpoint) : Endpoint :=
  mkEndpoint (vivo e) (servidor_pid e) (canal e) (<[cabeza e := CALL_EMPTY]> (cola e))
    ((cabeza e + 1) mod QUEUE)%nat (n_cola e - 1) (e_seq e).

(** The object of a reply capability: generation, endpoint and caller. *)
Definition reply_object (g : Z) (idx : nat) (t : Z) : Z :=
  Z.lor (Z.lor (w64 (Z.shiftl g 48)) (w64 (Z.shiftl (Z.of_nat idx) 32))) t.

Definition wait_for (s : ep_st) (idx : nat) (servidor deadline : Z) : option (ep_st * Outcome) :=
  if (MAX_ENDPOINTS <=? idx)%nat then None
  else
    let e := ep s idx in
    if negb (vivo e) then Some (s, mkOutcome ERROR_ENDPOINT_DEAD 0)
    else if Nat.eqb (n_cola e) 0 then
      Some (with_slp s (sl_wait (slp s) (endpoint_key idx) deadline (e_seq e) (e_seq e)),
            mkOutcome 0 0)
    else
      let ll := cola e !!! cabeza e in
      let s := set_ep s idx (pop e) in
      let g := gen (reply_of s (caller_tid ll)) in
      match publish s (canal e) (c_op ll) (c_args ll) with
      | None => None
      | Some s =>
          let '(t, h) := grant (caps s) servidor KIND_REPLY RIGHT_WRITE
                           (reply_object g idx (caller_tid ll)) in
          let s := with_caps s t in
          match h with
          | Some h => Some (s, mkOutcome 0 h)
          | None => Some (complete s (caller_tid ll) g ERROR_ENDPOINT_OCUPADO 0,
                          mkOutcome ERROR_ENDPOINT_OCUPADO 0)
          end
      end.

(** ** Death *)

(** The inner [loop]: every queued call is failed. *)
Fixpoint drain (s : ep_st) (i k : nat) : ep_st :=
  match k with
  | O => s
  | S k =>
      let e := ep s i in
      let ll := cola e !!! cabeza e in
      let s := set_ep s i (pop e) in
      drain (complete s (caller_tid ll) (gen (reply_of s (caller_tid ll))) ERROR_ENDPOINT_DEAD 0) i k
  end.

Definition matar (e : Endpoint) : Endpoint :=
  mkEndpoint false (servidor_pid e) (canal e) (cola e) (cabeza e) (n_cola e) (e_seq e).

Definition died_one (pid : Z) (s : ep_st) (i : nat) : ep_st :=
  let e := ep s i in
  if negb (vivo e) || negb (servidor_pid e =? pid) then s
  else let s := drain s i (n_cola e) in set_ep s i (matar (ep s i)).

Definition process_died (s : ep_st) (pid : Z) : ep_st := foldl (died_one pid) s (seq 0 MAX_ENDPOINTS).

Definition alive (s : ep_st) : nat := length (filter (fun e => vivo e = true) (eps s)).
Definition queued (s : ep_st) (idx : nat) : nat :=
  if (MAX_ENDPOINTS <=? idx)%nat then 0%nat else n_cola (ep s idx).
Definition last_write (s : ep_st) : Z * Z * Z := ultima_escritura s.

(** The two operations of syscall/mod.rs that reach them: [arg0] is the
    register Ring 3 loaded, unchecked. *)
Definition op_endpoint_create (s : ep_st) (current_pid arg0 : Z) : ep_st * Outcome :=
  match create s current_pid (Z.to_nat arg0) with
  | (s, Some h) => (s, mkOutcome 0 h)
  | (s, None) => (s, mkOutcome ERROR_ENDPOINT_OCUPADO 0)
  end.
Definition op_endpoint_connect (s : ep_st) (current_pid arg0 : Z) : option (ep_st * Outcome) :=
  match grant_client s (Z.to_nat arg0) current_pid with
  | None => None
  | Some (s, Some h) => Some (s, mkOutcome 0 h)
  | Some (s, None) => Some (s, mkOutcome ERROR_ENDPOINT_DEAD 0)
  end.
End Endpoint.
Arguments ep_st W : clear implicits.

(** ** The scheduler is such a thing *)

Section Instance_.
Variable kernel_pml4 : Z.
Variable destroy_address_space : phys_st -> Z -> phys_st.
Variable e : env.

#[export] Instance world_sleep : Sleep world := {
  sl_current_tid w := current_tid (sch w);
  sl_context_rsp_of w t := context_rsp_of (sch w) t;
  sl_wake w k := wake_by_key w k;
  sl_wait w k d o c :=
    fst (wait_current_checked kernel_pml4 destroy_address_space e w k d o c)
}.

(** Some task with tid [t] is [Blocked] on [k]. *)
Definition world_blocked_on (w : world) (t k : Z) : Prop :=
  exists u, u ∈ tasks (sch w) /\ tid u = t /\ state u = Blocked /\ wait_key u = k.

Lemma world_wake w k t k' :
  world_blocked_on (wake_by_key w k) t k' <-> world_blocked_on w t k' /\ k' <> k.
Proof.
  unfold world_blocked_on. cbn [wake_by_key sch with_sch tasks set_tasks]. split.
  - intros (u & Hu & Ht & Hs & Hk). apply list_elem_of_fmap in Hu as (v & -> & Hv).
    destruct (is_state Blocked v) eqn:Eb; cbn [andb] in *.
    2:{ exfalso. apply is_state_false in Eb. done. }
    destruct (wait_key v =? k) eqn:Ek; bdestr; [done|].
    split; [by exists v|congruence].
  - intros ((u & Hu & Ht & Hs & Hk) & Hne). exists u. split_and!; try done.
    apply list_elem_of_fmap. exists u. split; [|done].
    rewrite (proj2 (Z.eqb_neq (wait_key u) k)), andb_false_r by congruence. done.
Qed.

(** The running task can sleep when the task chosen after it has a context. *)
Definition world_can_wait (w : world) (k d : Z) : Prop :=
  sched_ok (sch w) /\ state (current_task (sch w)) = Running /\
  let n := choose_next (mark_wait (sch w) k d) in
  n = current (sch w) \/ context_rsp (task (sch w) n) <> 0.

Lemma world_wait w k d o : world_can_wait w k d ->
  world_blocked_on (fst (wait_current_checked kernel_pml4 destroy_address_space e w k d o o))
    (current_tid (sch w)) k.
Proof.
  intros (Hs & Hrun & Hn). unfold wait_current_checked. rewrite Z.eqb_refl. cbn [negb fst].
  set (w0 := with_sch w (mark_wait (sch w) k d)).
  assert (Hs0 : sched_ok (sch w0)) by (by apply mark_wait_ok).
  pose proof (waiting_turn kernel_pml4 destroy_address_space e w0 (sch w) k d Hs Hs0) as Hq.
  cbv zeta in Hq. destruct Hq as (K1 & _ & K2 & Hq).
  { cbn. unfold mark_wait. apply is_state_true in Hrun. by rewrite Hrun. }
  rewrite bool_decide_false in Hq by (intros [H1 H2]; by destruct Hn).
  exists (task (sch (schedule_locked kernel_pml4 destroy_address_space e w0 Publicado)) (current (sch w))).
  split; [|split; [exact K2|split; [exact Hq|exact K1]]].
  apply (list_elem_of_lookup_2 _ (current (sch w))). unfold task. apply list_lookup_lookup_total_lt.
  rewrite (ok_len _ (schedule_ok kernel_pml4 destroy_address_space e w0 Publicado Hs0)). apply Hs.
Qed.

(** The scheduler keeps its side of the interface. *)
#[export] Instance world_sleep_laws : @SleepLaws world world_sleep.
Proof.
  refine {| blocked_on := world_blocked_on; can_wait := world_can_wait |}.
  - intros w k t k'. apply world_wake.
  - intros w k. cbn. unfold current_tid, current_task, task. cbn [wake_by_key sch with_sch set_tasks current tasks].
    rewrite !list_lookup_total_alt, list_lookup_fmap.
    destruct (tasks (sch w) !! current (sch w)) as [u|]; cbn; [by case_if|done].
  - intros w k d o. apply world_wait.
Defined.
End Instance_.

(** * Queues *)

(** The calls waiting in an endpoint, oldest first. *)
Definition pending (e : Endpoint) : list Call :=
  (fun k => cola e !!! ((cabeza e + k) mod QUEUE)%nat) <$> seq 0 (n_cola e).

Record endpoint_ok (e : Endpoint) : Prop := {
  q_len : length (cola e) = QUEUE;
  q_head : (cabeza e < QUEUE)%nat;
  q_n : (n_cola e <= QUEUE)%nat
}.

Definition push (e : Endpoint) (c : Call) : Endpoint :=
  mkEndpoint (vivo e) (servidor_pid e) (canal e)
    (<[((cabeza e + n_cola e) mod QUEUE)%nat := c]> (cola e)) (cabeza e) (S (n_cola e))
    (w64 (e_seq e + 1)).

Lemma push_pending e c : endpoint_ok e -> (n_cola e < QUEUE)%nat ->
  endpoint_ok (push e c) /\ pending (push e c) = pending e ++ [c].
Proof.
  intros [Hl Hh Hn] Hlt. split.
  - split; cbn; rewrite ?length_insert; done || lia.
  - unfold pending, push. cbn [cola cabeza n_cola]. rewrite seq_S, fmap_app. cbn [fmap list_fmap].
    f_equal.
    + apply list_fmap_ext. intros i k Hi. apply lookup_seq in Hi as [-> Hi].
      apply list_lookup_total_insert_ne. unfold QUEUE in *. lia.
    + f_equal. apply list_lookup_total_insert_eq. rewrite Hl. unfold QUEUE. lia.
Qed.

Lemma pop_pending e : endpoint_ok e -> n_cola e <> 0%nat ->
  endpoint_ok (pop e) /\ pending e = cola e !!! cabeza e :: pending (pop e).
Proof.
  intros [Hl Hh Hn] Hlt. split.
  - split; cbn; rewrite ?length_insert; try done; unfold QUEUE in *; lia.
  - unfold pending, pop. cbn [cola cabeza n_cola].
    destruct (n_cola e) as [|n]; [done|]. cbn [seq fmap list_fmap]. f_equal.
    + f_equal. unfold QUEUE in *. lia.
    + rewrite Nat.sub_succ, Nat.sub_0_r, <- fmap_S_seq, <- list_fmap_compose.
      apply list_fmap_ext. intros i k Hi. apply lookup_seq in Hi as [-> Hi].
      cbv beta delta [compose] iota. rewrite list_lookup_total_insert_ne; [f_equal|]; unfold QUEUE in *; lia.
Qed.

(** ** The object of a reply capability *)

Lemma reply_object_split g idx t :
  0 <= g -> (idx < MAX_ENDPOINTS)%nat -> 0 <= t < Z.of_nat MAX_TASKS ->
  Z.land (reply_object g idx t) 0xFFFFFFFF = t /\
  w32 (Z.shiftr (reply_object g idx t) 48) = g mod 2 ^ 16.
Proof.
  intros Hg Hi Ht. unfold MAX_ENDPOINTS in Hi.
  assert (Ht' : 0 <= t < 64) by (unfold MAX_TASKS in Ht; lia).
  assert (E : reply_object g idx t = (g mod 2 ^ 16) * 2 ^ 48 + Z.of_nat idx * 2 ^ 32 + t).
  { unfold reply_object.
    replace (w64 (Z.shiftl g 48)) with (Z.shiftl (g mod 2 ^ 16) 48)
      by (unfold w64; rewrite !Z.shiftl_mul_pow2 by lia; lia).
    replace (w64 (Z.shiftl (Z.of_nat idx) 32)) with (Z.of_nat idx * 2 ^ 32)
      by (unfold w64; rewrite Z.shiftl_mul_pow2 by lia; lia).
    rewrite (lor_shiftl_add (g mod 2 ^ 16) (Z.of_nat idx * 2 ^ 32) 48) by lia.
    replace ((g mod 2 ^ 16) * 2 ^ 48 + Z.of_nat idx * 2 ^ 32)
      with (((g mod 2 ^ 16) * 2 ^ 16 + Z.of_nat idx) * 2 ^ 32) by lia.
    rewrite <- (Z.shiftl_mul_pow2 ((g mod 2 ^ 16) * 2 ^ 16 + Z.of_nat idx) 32) by lia.
    rewrite (lor_shiftl_add _ t 32) by lia. rewrite Z.shiftl_mul_pow2 by lia. lia. }
  rewrite E. split.
  - change 0xFFFFFFFF with (2 ^ 32 - 1). rewrite land_ones_mod by lia. lia.
  - unfold w32. rewrite Z.shiftr_div_pow2 by lia. lia.
Qed.

(** * One call, from the client to the server and back *)

Section Rpc.
Context {W : Type} `{HW : Sleep W, !SleepLaws W}.
Variables ep_base ep_size reply_base reply_size : Z.
Abbreviation call := (Endpoint.call ep_base ep_size reply_base reply_size).
Abbreviation wait_for := (Endpoint.wait_for ep_base ep_size reply_base reply_size).
Abbreviation complete := (Endpoint.complete reply_base reply_size).
Abbreviation reply_to := (Endpoint.reply_to reply_base reply_size).
Abbreviation process_died := (Endpoint.process_died reply_base reply_size).
Abbreviation reply_key := (Endpoint.reply_key reply_base reply_size).
Abbreviation endpoint_key := (Endpoint.endpoint_key ep_base ep_size).
Abbreviation st := (ep_st W).

Record ep_ok (s : st) : Prop := {
  eo_eps : length (eps s) = MAX_ENDPOINTS;
  eo_resp : length (resp s) = MAX_TASKS;
  eo_each : forall i, (i < MAX_ENDPOINTS)%nat -> endpoint_ok (ep s i);
  eo_caps : wf (caps s)
}.

Lemma ep_set (s : st) i e j : length (eps s) = MAX_ENDPOINTS -> (i < MAX_ENDPOINTS)%nat ->
  ep (set_ep s i e) j = if decide (i = j) then e else ep s j.
Proof.
  intros Hl Hi. unfold ep, set_ep. cbn. case_decide as E.
  - subst. apply list_lookup_total_insert_eq. by rewrite Hl.
  - by apply list_lookup_total_insert_ne.
Qed.

Lemma reply_set (s : st) t r u : length (resp s) = MAX_TASKS -> 0 <= t < Z.of_nat MAX_TASKS -> 0 <= u ->
  reply_of (set_reply s t r) u = if decide (t = u) then r else reply_of s u.
Proof.
  intros Hl Ht Hu. unfold reply_of, set_reply. cbn. case_decide as E.
  - subst. apply list_lookup_total_insert_eq. rewrite Hl. lia.
  - apply list_lookup_total_insert_ne. lia.
Qed.

(** What a call that enters the queue leaves behind: the call at the end of
    the queue and a fresh reply slot. *)
Lemma call_queues (s : st) idx op args :
  ep_ok s -> (idx < MAX_ENDPOINTS)%nat ->
  let t := sl_current_tid (slp s) in
  0 <= t < Z.of_nat MAX_TASKS -> vivo (ep s idx) = true -> (n_cola (ep s idx) < QUEUE)%nat ->
  exists s', call s idx op args = Some (s', mkOutcome 0 0) /\ ep_ok s' /\
    ep s' idx = push (ep s idx) (mkCall t op args) /\
    reply_of s' t = mkReply true false (w32 (gen (reply_of s t) + 1)) 0 0 /\
    caps s' = caps s /\ chans s' = chans s /\
    slp s' = sl_wait (sl_wake (slp s) (endpoint_key idx)) (reply_key t) 0 0 0.
Proof.
  intros [He Hr Hq Hc] Hi t Ht Hv Hn. unfold Endpoint.call. fold t. cbv zeta.
  change (mkEndpoint (vivo (ep s idx)) (servidor_pid (ep s idx)) (canal (ep s idx))
    (<[((cabeza (ep s idx) + n_cola (ep s idx)) mod QUEUE)%nat := mkCall t op args]> (cola (ep s idx)))
    (cabeza (ep s idx)) (S (n_cola (ep s idx))) (w64 (e_seq (ep s idx) + 1)))
    with (push (ep s idx) (mkCall t op args)).
  rewrite (proj2 (Z.leb_gt _ _) (proj2 Ht)), (proj2 (Nat.leb_gt _ _) Hi), Hv,
    (proj2 (Nat.leb_gt _ _) Hn). cbn [negb].
  set (s1 := set_ep s idx _). set (r := mkReply true false _ 0 0).
  assert (Hr1 : length (resp s1) = MAX_TASKS) by exact Hr.
  assert (Hrep : forall w, reply_of (with_slp (set_reply s1 t r) w) t = r).
  { intros w. change (reply_of (with_slp (set_reply s1 t r) w) t) with (reply_of (set_reply s1 t r) t).
    rewrite reply_set by (done || lia). by rewrite decide_True. }
  assert (Hrep2 : forall w w', reply_of (with_slp (with_slp (set_reply s1 t r) w) w') t = r)
    by (intros w w'; apply (Hrep w')).
  rewrite Hrep2. cbn [lista r]. eexists. split; [reflexivity|].
  split; [|split; [|split; [exact (Hrep2 _ _)|split; [done|split; [done|]]]]];
    [| |cbn [slp with_slp]; rewrite Hrep; done].
  - split; cbn; rewrite ?length_insert; try done. intros j Hj.
    change (endpoint_ok (ep s1 j)). unfold s1. rewrite ep_set by done.
    case_decide; [|by apply Hq]. subst. apply push_pending; [by apply Hq|done].
  - change (ep s1 idx = push (ep s idx) (mkCall t op args)). unfold s1.
    rewrite ep_set by done. by rewrite decide_True.
Qed.

(** The message of a call, and what the channels hold after it. *)
Definition mensaje (op : Z) (args : Z * Z * Z) : ChannelEntry :=
  let '(a0, a1, a2) := args in mkEnt op a0 a1 a2.
Definition delivered_to (l : list Channel) (ch : nat) (c : Call) : list Channel :=
  match l !! ch with
  | None => l
  | Some k => <[ch := fst (ring0_complete k (mensaje (c_op c) (c_args c)))]> l
  end.

(** The entries that Ring 3 can still poll from a page. *)
Definition mensajes (k : Channel) : list ChannelEntry := compq (abs (k, tt)).

(** The message is the last one of the page if there was room; if there was
    not, it is lost and the page is as it was.  Nothing else moves. *)
Lemma delivered_spec l ch c k B : l !! ch = Some k -> chan_wf k B -> B + 1 < 2 ^ 64 ->
  exists k', delivered_to l ch c = <[ch := k']> l /\
    mensajes k' = mensajes k ++
      (if (length (mensajes k) <? RINGn)%nat then [mensaje (c_op c) (c_args c)] else []) /\
    subq (abs (k', tt)) = subq (abs (k, tt)).
Proof.
  intros Hk Hwf HB. unfold delivered_to. rewrite Hk.
  pose proof (complete_refines (fun (_ : unit) e => (tt, None)) k tt
    (mensaje (c_op c) (c_args c)) B Hwf HB) as [_ H].
  set (k' := fst (ring0_complete k _)) in *. exists k'. split; [done|].
  cbn [spec_step] in H. change (compq (abs (k, tt))) with (mensajes k) in H.
  destruct (length (mensajes k) <? RINGn)%nat.
  - injection H as H1 H2 _ _. split; [exact H2|exact H1].
  - rewrite app_nil_r. injection H as H1 H2 _ _. split; [exact H2|exact H1].
Qed.

Lemma publish_eq (s : st) ch c : (ch < MAX_CHANNEL_PAGES)%nat ->
  publish s ch (c_op c) (c_args c) = Some (with_chans s (delivered_to (chans s) ch c)).
Proof.
  intros Hc. unfold publish, delivered_to. rewrite (proj2 (Nat.leb_gt _ _) Hc).
  unfold mensaje. destruct (c_args c) as [[a0 a1] a2]. destruct (chans s !! ch); [done|]. by destruct s.
Qed.

(** The server takes the oldest call and gets the right to answer it. *)
Lemma wait_delivers (s : st) idx pid dl t h :
  (idx < MAX_ENDPOINTS)%nat -> vivo (ep s idx) = true -> n_cola (ep s idx) <> 0%nat ->
  (canal (ep s idx) < MAX_CHANNEL_PAGES)%nat ->
  let c := cola (ep s idx) !!! cabeza (ep s idx) in
  let g := gen (reply_of s (caller_tid c)) in
  grant (caps s) pid KIND_REPLY RIGHT_WRITE (reply_object g idx (caller_tid c)) = (t, Some h) ->
  wait_for s idx pid dl =
    Some (with_caps (with_chans (set_ep s idx (pop (ep s idx)))
            (delivered_to (chans s) (canal (ep s idx)) c)) t, mkOutcome 0 h).
Proof.
  intros Hi Hv Hn Hc c g Hg. unfold Endpoint.wait_for.
  rewrite (proj2 (Nat.leb_gt _ _) Hi), Hv, (proj2 (Nat.eqb_neq _ _) Hn). cbn [negb]. cbv zeta.
  fold c. rewrite publish_eq by done.
  change (gen (reply_of (set_ep s idx (pop (ep s idx))) (caller_tid c))) with g.
  change (caps (with_chans (set_ep s idx (pop (ep s idx)))
    (delivered_to (chans (set_ep s idx (pop (ep s idx)))) (canal (ep s idx)) c))) with (caps s).
  rewrite Hg. done.
Qed.

(** An answer that matches the call in course reaches its reply slot and
    wakes its caller. *)
Lemma complete_delivers (s : st) t g cod val :
  length (resp s) = MAX_TASKS -> 0 <= t < Z.of_nat MAX_TASKS ->
  reply_of s t = mkReply true false g 0 0 ->
  let s' := complete s t g cod val in
  reply_of s' t = mkReply true true g cod val /\ caps s' = caps s /\
  forall k u, blocked_on (slp s') u k <-> blocked_on (slp s) u k /\ k <> reply_key t.
Proof.
  intros Hl Ht Hr s'. unfold s', Endpoint.complete.
  rewrite (proj2 (Z.leb_gt _ _) (proj2 Ht)), Hr. cbn [esperando gen lista negb orb].
  rewrite Z.eqb_refl. cbn [negb orb]. cbv zeta.
  set (s1 := set_reply s t _).
  assert (Hw : forall u v : Z, let s2 := write_into_frame s1 t u v in
    resp s2 = resp s1 /\ caps s2 = caps s1 /\ slp s2 = slp s1).
  { intros u v. unfold write_into_frame. case_if; done. }
  destruct (Hw cod val) as (E1 & E2 & E3).
  split; [|split].
  - unfold reply_of. cbn [resp with_slp]. rewrite E1.
    change (reply_of s1 t = mkReply true true g cod val). unfold s1.
    rewrite reply_set by (done || lia). by rewrite decide_True.
  - cbn [caps with_slp]. by rewrite E2.
  - intros k u. cbn [slp with_slp]. rewrite E3. apply law_wake.
Qed.

(** C15: a call makes the round trip.  From an endpoint with a live server and
    nobody in its queue, called by a task with a tid below 64 -- the size of the
    table of replies -- that has made fewer than 2^16 - 1 calls -- what the reply
    capability can count --, with room for a capability in the server's table:
    [call] queues the caller's request, opens its reply slot and leaves it asleep
    on it (if the scheduler has somebody else to run).  [WAIT] of the server
    takes it from the queue, leaves the message as the last of the server's
    channel, if its completion ring is not full (if it is, the message is lost,
    and the channel is as it was; this while the counters of the channel have
    not reached 2^64), and hands over a reply capability for this
    very call.  Answering through it leaves the code and the value in the
    caller's slot, the caller blocked on nothing of its reply, and the capability
    dead: it cannot be answered twice. *)
Theorem rpc_roundtrip (s : st) idx op args pid dl cod val :
  ep_ok s -> (idx < MAX_ENDPOINTS)%nat ->
  let t := sl_current_tid (slp s) in
  let e := ep s idx in
  0 <= t < Z.of_nat MAX_TASKS -> 0 <= pid ->
  vivo e = true -> n_cola e = 0%nat -> (canal e < MAX_CHANNEL_PAGES)%nat ->
  0 <= gen (reply_of s t) < 2 ^ 16 - 1 ->
  (forall o, snd (grant (caps s) pid KIND_REPLY RIGHT_WRITE o) <> None) ->
  exists s1 s2 h obj,
    call s idx op args = Some (s1, mkOutcome 0 0) /\
    pending (ep s1 idx) = [mkCall t op args] /\
    reply_of s1 t = mkReply true false (gen (reply_of s t) + 1) 0 0 /\
    (can_wait (sl_wake (slp s) (endpoint_key idx)) (reply_key t) 0 ->
       blocked_on (slp s1) t (reply_key t)) /\
    wait_for s1 idx pid dl = Some (s2, mkOutcome 0 h) /\
    pending (ep s2 idx) = [] /\
    (forall k B, chans s !! canal e = Some k -> chan_wf k B -> B + 1 < 2 ^ 64 ->
       exists k', chans s2 = <[canal e := k']> (chans s) /\
         mensajes k' = mensajes k ++
           (if (length (mensajes k) <? RINGn)%nat then [mensaje op args] else [])) /\
    resolve (caps s2) pid h RIGHT_WRITE = Ok (mkResolved KIND_REPLY RIGHT_WRITE obj) /\
    let s3 := fst (reply_to s2 pid h obj cod val) in
    lista (reply_of s3 t) = true /\ r_code (reply_of s3 t) = cod /\ r_value (reply_of s3 t) = val /\
    ~ blocked_on (slp s3) t (reply_key t) /\
    forall req, resolve (caps s3) pid h req = Err (ERROR_INVALID_HANDLE, 0).
Proof.
  intros Hs Hi t e Ht Hp Hv Hn Hc Hg Hgrant.
  destruct (call_queues s idx op args Hs Hi Ht Hv) as (s1 & H1 & Hok1 & He1 & Hr1 & Hc1 & Hch1 & Hsl1);
    [fold e; rewrite Hn; unfold QUEUE; lia|].
  fold t e in H1, He1, Hr1.
  assert (Hgw : w32 (gen (reply_of s t) + 1) = gen (reply_of s t) + 1)
    by (apply w32_small; unfold is_u32; lia).
  rewrite Hgw in Hr1. set (g := gen (reply_of s t) + 1) in *.
  assert (Hhead : cola (push e (mkCall t op args)) !!! cabeza (push e (mkCall t op args))
    = mkCall t op args).
  { destruct (eo_each s Hs idx Hi) as [Hl Hh _]. unfold push. cbn [cola cabeza]. fold e in Hl, Hh.
    rewrite Hn, Nat.add_0_r, Nat.mod_small by done.
    apply list_lookup_total_insert_eq. by rewrite Hl. }
  set (obj := reply_object g idx t).
  destruct (grant (caps s1) pid KIND_REPLY RIGHT_WRITE obj) as [tc [h|]] eqn:Eg.
  2:{ exfalso. apply (Hgrant obj). rewrite <- Hc1. by rewrite Eg. }
  pose proof (wait_delivers s1 idx pid dl tc h Hi) as Hw. rewrite He1, Hhead in Hw.
  cbn [caller_tid] in Hw. rewrite Hr1 in Hw. cbn [gen] in Hw.
  specialize (Hw Hv ltac:(done) Hc Eg).
  destruct (grant_resolves (caps s1) pid KIND_REPLY RIGHT_WRITE obj tc h) as (Hres & _ & _);
    [apply Hok1|done|unfold KIND_REPLY; lia|done|].
  set (s2 := with_caps _ tc) in Hw.
  destruct (push_pending e (mkCall t op args) (eo_each s Hs idx Hi)) as [Hpok Hpp];
    [rewrite Hn; unfold QUEUE; lia|].
  assert (Hpe : pending e = []) by (unfold pending; by rewrite Hn).
  rewrite Hpe in Hpp. cbn [app] in Hpp.
  destruct (pop_pending _ Hpok) as [_ Hpop]; [done|]. rewrite Hpp, Hhead in Hpop.
  exists s1, s2, h, obj. split; [exact H1|].
  split; [by rewrite He1|]. split; [exact Hr1|].
  split; [intros Hcw; rewrite Hsl1; pose proof (law_wait _ _ 0 0 Hcw) as Hb;
    rewrite law_wake_tid in Hb; exact Hb|].
  split; [exact Hw|].
  split.
  { change (pending (ep (set_ep s1 idx (pop (push e (mkCall t op args)))) idx) = []).
    rewrite ep_set, decide_True by (done || apply Hok1).
    congruence. }
  split.
  { intros k B Hk Hwf HB. cbn [chans s2 with_caps with_chans]. rewrite Hch1.
    change (canal (push e (mkCall t op args))) with (canal e).
    destruct (delivered_spec (chans s) (canal e) (mkCall t op args) k B Hk Hwf HB) as (k' & D1 & D2 & _).
    exists k'. by split. }
  split; [cbn [caps s2 with_caps]; rewrite Hres; unfold answer; by cbn [rights kind object]|].
  destruct (reply_object_split g idx t) as [Ho1 Ho2]; [unfold g; lia|done|done|].
  rewrite Z.mod_small in Ho2 by (unfold g; lia). fold obj in Ho1, Ho2.
  unfold Endpoint.reply_to. rewrite Ho1, Ho2. cbn [fst].
  destruct (complete_delivers s2 t g cod val (eo_resp s1 Hok1) Ht Hr1) as (D1 & D2 & D3).
  set (s3 := complete s2 t g cod val) in *.
  change (reply_of (with_caps s3 (fst (revoke (caps s3) pid h))) t) with (reply_of s3 t).
  rewrite D1. split; [reflexivity|]. split; [reflexivity|]. split; [reflexivity|]. split.
  - change (~ blocked_on (slp s3) t (reply_key t)). rewrite D3. by intros [_ ?].
  - pose proof (revoke_kills (caps s3) pid h) as Hrev. rewrite D2 in *.
    cbn [caps with_caps s2] in *. destruct (revoke tc pid h) as [t4 ok]. cbn [fst].
    apply Hrev; [|exact Hp|].
    + pose proof (grant_wf (caps s1) pid KIND_REPLY RIGHT_WRITE obj (eo_caps s1 Hok1) Hp) as Hw2.
      rewrite Eg in Hw2. apply Hw2. unfold KIND_REPLY. lia.
    + apply (grant_handle_u64 (caps s1) pid KIND_REPLY RIGHT_WRITE obj tc h);
        [apply Hok1|exact Hp|unfold KIND_REPLY; lia|exact Eg].
Qed.

(** ** FIFO *)

(** Calls are served first come, first served, and refused when full: a
    [call] goes to the end of the queue, or is answered OCUPADO and changes
    nothing with [QUEUE] calls waiting; a successful [WAIT] takes the first
    one; and no other endpoint's queue changes. *)
Theorem endpoint_fifo (s : st) idx op args :
  ep_ok s -> (idx < MAX_ENDPOINTS)%nat -> vivo (ep s idx) = true ->
  let t := sl_current_tid (slp s) in
  0 <= t < Z.of_nat MAX_TASKS ->
  (n_cola (ep s idx) = QUEUE -> call s idx op args = Some (s, mkOutcome ERROR_ENDPOINT_OCUPADO 0)) /\
  ((n_cola (ep s idx) < QUEUE)%nat -> exists s', call s idx op args = Some (s', mkOutcome 0 0) /\
     pending (ep s' idx) = pending (ep s idx) ++ [mkCall t op args]) /\
  (forall pid dl tc h, n_cola (ep s idx) <> 0%nat -> (canal (ep s idx) < MAX_CHANNEL_PAGES)%nat ->
     let c := cola (ep s idx) !!! cabeza (ep s idx) in
     grant (caps s) pid KIND_REPLY RIGHT_WRITE
       (reply_object (gen (reply_of s (caller_tid c))) idx (caller_tid c)) = (tc, Some h) ->
     exists s', wait_for s idx pid dl = Some (s', mkOutcome 0 h) /\
       pending (ep s idx) = c :: pending (ep s' idx) /\
       forall j, j <> idx -> ep s' j = ep s j).
Proof.
  intros Hs Hi Hv t Ht. split; [|split].
  - intros Hn. unfold Endpoint.call. fold t.
    rewrite (proj2 (Z.leb_gt _ _) (proj2 Ht)), (proj2 (Nat.leb_gt _ _) Hi), Hv, Hn.
    by rewrite Nat.leb_refl.
  - intros Hn. destruct (call_queues s idx op args Hs Hi Ht Hv Hn) as (s' & H1 & _ & He & _).
    exists s'. split; [exact H1|]. rewrite He. apply push_pending; [by apply Hs|exact Hn].
  - intros pid dl tc h Hn Hc c Hg.
    rewrite (wait_delivers s idx pid dl tc h Hi Hv Hn Hc Hg). eexists. split; [reflexivity|].
    assert (He : forall j, ep (with_caps (with_chans (set_ep s idx (pop (ep s idx)))
        (delivered_to (chans s) (canal (ep s idx)) c)) tc) j = ep (set_ep s idx (pop (ep s idx))) j)
      by done.
    rewrite !He, ep_set, decide_True by (done || apply Hs). split.
    + apply pop_pending; [by apply Hs|done].
    + intros j Hj. rewrite He, ep_set, decide_False by (done || apply Hs). done.
Qed.

(** ** Where the round trip breaks *)

(** The generation of a reply does not fit its capability.  The slot
    counts calls in 32 bits and the capability's object keeps 16, so once a
    task has made 65536 calls an answer is dropped: the slot and the
    scheduler stay as they were, the caller stays blocked, and the server's
    right to answer is spent all the same. *)
Theorem reply_dropped_after_65536 (s : st) servidor h idx t cod val :
  (idx < MAX_ENDPOINTS)%nat -> 0 <= t < Z.of_nat MAX_TASKS ->
  2 ^ 16 <= gen (reply_of s t) < 2 ^ 32 ->
  let obj := reply_object (gen (reply_of s t)) idx t in
  let s' := fst (reply_to s servidor h obj cod val) in
  resp s' = resp s /\ slp s' = slp s /\ ram s' = ram s /\
  caps s' = fst (revoke (caps s) servidor h).
Proof.
  intros Hi Ht Hg obj s'.
  destruct (reply_object_split (gen (reply_of s t)) idx t) as [H1 H2]; [lia|done|done|].
  unfold s', Endpoint.reply_to. fold obj in H1, H2. rewrite H1, H2. cbn [fst].
  assert (E : complete s t (gen (reply_of s t) mod 2 ^ 16) cod val = s).
  { unfold Endpoint.complete. rewrite (proj2 (Z.leb_gt _ _) (proj2 Ht)).
    assert ((gen (reply_of s t) =? gen (reply_of s t) mod 2 ^ 16) = false) as ->
      by (apply Z.eqb_neq; lia).
    cbn [negb orb]. rewrite orb_true_r. done. }
  rewrite E. done.
Qed.

Lemma died_one_idle pid (s : st) i :
  length (eps s) = MAX_ENDPOINTS -> (i < MAX_ENDPOINTS)%nat ->
  (servidor_pid (ep s i) = pid -> vivo (ep s i) = true -> n_cola (ep s i) = 0%nat) ->
  let s' := died_one reply_base reply_size pid s i in
  resp s' = resp s /\ slp s' = slp s /\ ram s' = ram s /\ caps s' = caps s /\
  length (eps s') = MAX_ENDPOINTS /\
  forall j, ep s' j = if decide (i = j /\ servidor_pid (ep s i) = pid /\ vivo (ep s i) = true)
                      then matar (ep s i) else ep s j.
Proof.
  intros Hl Hi Hn. unfold died_one.
  destruct (vivo (ep s i)) eqn:Ev; cbn [negb orb].
  2:{ split_and!; try done. intros j. rewrite decide_False; [done|]. by intros (_ & _ & ?). }
  destruct (servidor_pid (ep s i) =? pid) eqn:Ep; cbn [negb]; bdestr.
  2:{ split_and!; try done. intros j. rewrite decide_False; [done|]. by intros (_ & ? & _). }
  rewrite (Hn Ep eq_refl). cbn [drain]. split_and!; try done.
  - cbn. by rewrite length_insert.
  - intros j. rewrite ep_set by done. repeat case_decide; try done; first [done|tauto].
Qed.

(** The death of a server fails only the calls still in its queue.  A
    caller whose call the server had already taken with [WAIT] is not told: if
    the queues of [pid] are empty, [process_died] changes no reply slot, no
    task and no saved frame, so that caller stays blocked for ever.  The
    endpoints of [pid] are closed and no other is touched. *)
Theorem taken_call_never_failed (s : st) pid :
  ep_ok s ->
  (forall i, (i < MAX_ENDPOINTS)%nat -> servidor_pid (ep s i) = pid -> vivo (ep s i) = true ->
     n_cola (ep s i) = 0%nat) ->
  let s' := process_died s pid in
  resp s' = resp s /\ slp s' = slp s /\ ram s' = ram s /\ caps s' = caps s /\
  forall i, (i < MAX_ENDPOINTS)%nat ->
    ep s' i = if decide (servidor_pid (ep s i) = pid /\ vivo (ep s i) = true)
              then matar (ep s i) else ep s i.
Proof.
  intros Hs Hq.
  assert (H : forall l s1, NoDup l -> (forall i, i ∈ l -> (i < MAX_ENDPOINTS)%nat) ->
    length (eps s1) = MAX_ENDPOINTS -> (forall i, i ∈ l -> ep s1 i = ep s i) ->
    let s' := foldl (died_one reply_base reply_size pid) s1 l in
    resp s' = resp s1 /\ slp s' = slp s1 /\ ram s' = ram s1 /\ caps s' = caps s1 /\
    forall j, ep s' j =
      if decide (j ∈ l /\ servidor_pid (ep s j) = pid /\ vivo (ep s j) = true)
      then matar (ep s j) else ep s1 j).
  { induction l as [|i l IH]; intros s1 Hnd Hl Hlen Heq; cbn [foldl].
    { do 4 (split; [done|]). intros j. rewrite decide_False; [done|].
      intros [Hj _]. by apply not_elem_of_nil in Hj. }
    apply NoDup_cons in Hnd as [Hni Hnd].
    assert (Hi : (i < MAX_ENDPOINTS)%nat) by (apply Hl, list_elem_of_here).
    assert (Ei : ep s1 i = ep s i) by (apply Heq, list_elem_of_here).
    destruct (died_one_idle pid s1 i Hlen Hi) as (R1 & R2 & R3 & R4 & R5 & R6);
      [rewrite Ei; by apply Hq|].
    rewrite Ei in R6.
    destruct (IH (died_one reply_base reply_size pid s1 i) Hnd) as (Q1 & Q2 & Q3 & Q4 & Q5);
      [intros; by apply Hl, list_elem_of_further|exact R5| |].
    { intros j Hj. rewrite R6, decide_False; [by apply Heq, list_elem_of_further|].
      intros (-> & _). done. }
    split_and!; [congruence..|]. intros j. rewrite Q5, R6.
    destruct (decide (i = j)) as [->|Hij].
    - rewrite (decide_False (P := j ∈ l /\ _)) by (by intros [? _]).
      destruct (decide (servidor_pid (ep s j) = pid /\ vivo (ep s j) = true)) as [Hd|Hd].
      + rewrite !decide_True; [done|split; [apply list_elem_of_here|done]|done].
      + rewrite !decide_False; [done|by intros [_ ?]|by intros [_ ?]].
    - rewrite (decide_False (P := i = j /\ _)) by (by intros [? _]).
      destruct (decide (j ∈ l /\ servidor_pid (ep s j) = pid /\ vivo (ep s j) = true)) as [Hd|Hd].
      + rewrite decide_True; [done|]. destruct Hd as [? ?]. split; [by apply list_elem_of_further|done].
      + rewrite decide_False; [done|]. intros [Hj ?]. apply Hd. split; [|done].
        apply elem_of_cons in Hj as [->|?]; done. }
  intros s'. destruct (H (seq 0 MAX_ENDPOINTS) s) as (Q1 & Q2 & Q3 & Q4 & Q5).
  - apply NoDup_ListNoDup, List.seq_NoDup.
  - intros i Hi%elem_of_seq. lia.
  - apply Hs.
  - done.
  - split; [exact Q1|]. split; [exact Q2|]. split; [exact Q3|]. split; [exact Q4|].
    intros i Hi. unfold s', Endpoint.process_died. rewrite Q5.
    assert (Hin : i ∈ seq 0 MAX_ENDPOINTS) by (apply elem_of_seq; lia).
    repeat case_decide; tauto.
Qed.

(** A client's capability names an endpoint by its row, and rows are
    reused.  After the server dies and another process creates an endpoint
    that takes the row, the old client's capability resolves as before: it
    now calls the new server, which never connected it. *)
Theorem stale_client_reaches_new_server (s : st) idx pid2 ch client h r s' h2 :
  ep_ok s -> 0 <= pid2 -> 0 <= client -> is_u64 h -> (idx < MAX_ENDPOINTS)%nat ->
  resolve (caps s) client h RIGHT_WRITE = Ok r ->
  r_kind r = KIND_ENDPOINT -> r_object r = Z.of_nat idx ->
  position (fun e => negb (vivo e)) (eps s) = Some idx ->
  create s pid2 ch = (s', Some h2) ->
  vivo (ep s' idx) = true /\ servidor_pid (ep s' idx) = pid2 /\
  resolve (caps s') client h RIGHT_WRITE = Ok r.
Proof.
  intros Hs Hp Hc Hh Hi Hr _ _ Hpos. unfold create. rewrite Hpos.
  destruct (grant (caps (set_ep s idx _)) pid2 KIND_ENDPOINT (Z.lor RIGHT_WAIT RIGHT_READ) _)
    as [t h'] eqn:Eg. intros [= <- ->].
  change (caps (set_ep s idx _)) with (caps s) in Eg.
  set (e := mkEndpoint true pid2 ch _ 0 0 0).
  change (ep (with_caps (set_ep s idx e) t) idx) with (ep (set_ep s idx e) idx).
  rewrite ep_set by (done || apply Hs). rewrite decide_True by done.
  split; [done|]. split; [done|]. cbn [caps with_caps].
  destruct (grant_resolves (caps s) pid2 KIND_ENDPOINT (Z.lor RIGHT_WAIT RIGHT_READ) (Z.of_nat idx) t h2)
    as (_ & G2 & G3); [apply Hs|done|unfold KIND_ENDPOINT; lia|exact Eg|].
  rewrite G3; [exact Hr|done|done|]. intros [= -> ->]. by rewrite G2 in Hr.
Qed.

(** Two numbers of Ring 3 reach an index of the kernel unchecked.
    [ENDPOINT_CONNECT] indexes the table of endpoints with its argument, and
    the channel given to [ENDPOINT_CREATE] is only looked at when the first
    call is published: with 8 or more in the first, or 16 or more in the
    second and a queued call, the kernel panics. *)
Theorem ring3_index_panics (s : st) pid arg idx dl :
  ep_ok s -> (idx < MAX_ENDPOINTS)%nat ->
  (Z.of_nat MAX_ENDPOINTS <= arg -> op_endpoint_connect s pid arg = None) /\
  (vivo (ep s idx) = true -> n_cola (ep s idx) <> 0%nat ->
   (MAX_CHANNEL_PAGES <= canal (ep s idx))%nat -> wait_for s idx pid dl = None).
Proof.
  intros Hs Hi. split.
  - intros Ha. unfold op_endpoint_connect, grant_client.
    assert ((MAX_ENDPOINTS <=? Z.to_nat arg)%nat = true) as -> by (apply Nat.leb_le; lia). done.
  - intros Hv Hn Hc. unfold Endpoint.wait_for.
    rewrite (proj2 (Nat.leb_gt _ _) Hi), Hv, (proj2 (Nat.eqb_neq _ _) Hn). cbn [negb].
    unfold publish. by rewrite (proj2 (Nat.leb_le _ _) Hc).
Qed.
End Rpc.

(** Tids are never reused but the reply table has one row per slot, so a
    task born after the 64th tid can call no one: once [next_tid] reached
    [MAX_TASKS] -- however many of the earlier tasks are gone -- every new task
    of Ring 3 gets a tid for which [call] answers DEAD, live server or not. *)
Theorem late_tasks_cannot_call {W} `{Sleep W} eb es rb rs (s : ep_st W) w p r ks kp kt c pr t idx op args :
  sched_ok (sch w) -> Z.of_nat MAX_TASKS <= next_tid (sch w) ->
  snd (spawn_user w p r ks kp kt c pr) = Some t -> sl_current_tid (slp s) = t ->
  call eb es rb rs s idx op args = Some (s, mkOutcome ERROR_ENDPOINT_DEAD 0).
Proof.
  intros Hs Hn Hsp Ht. unfold spawn_user in Hsp. destruct (position _ _); [|done].
  cbn in Hsp. injection Hsp as Hsp. unfold call. rewrite Ht, <- Hsp.
  by rewrite (proj2 (Z.leb_le _ _) Hn).
Qed.

(** ** Concrete runs *)

#[local] Existing Instance world_sleep_laws.

Definition demo_sleep : Sleep world := world_sleep demo_pml4 demo_destroy demo_env.
Definition demo_laws : @SleepLaws world demo_sleep :=
  world_sleep_laws demo_pml4 demo_destroy demo_env.

(** Endpoint 0 is served by process 5 through channel 2; process 6 may call it. *)
Definition demo_ep : Endpoint := mkEndpoint true 5 2 (replicate QUEUE CALL_EMPTY) 0 0 0.
Definition demo_st : ep_st world :=
  mkEp (<[0%nat := demo_ep]> (replicate MAX_ENDPOINTS ENDPOINT_EMPTY))
    (replicate MAX_TASKS REPLY_EMPTY)
    (fst (grant TABLES_init 6 KIND_ENDPOINT RIGHT_WRITE 0))
    (replicate 16 page0) demo_w (0, 0, 0) (fun _ => 0).

Lemma demo_endpoints_ok (s : ep_st world) :
  length (eps s) = MAX_ENDPOINTS -> length (resp s) = MAX_TASKS -> wf (caps s) ->
  (forall e, e ∈ eps s -> endpoint_ok e) -> ep_ok s.
Proof.
  intros He Hr Hc Hall. split; try done. intros i Hi. apply Hall.
  unfold ep. apply list_elem_of_lookup_2 with i. apply list_lookup_lookup_total_lt. by rewrite He.
Qed.

Lemma demo_st_ok : ep_ok demo_st.
Proof.
  apply demo_endpoints_ok; [done|done| |].
  - apply grant_wf; [apply TABLES_init_wf|lia|unfold KIND_ENDPOINT; lia].
  - intros e He. cbn [eps demo_st] in He. vm_compute in He.
    repeat (apply elem_of_cons in He as [->|He]; [split; vm_compute; lia|]).
    by apply not_elem_of_nil in He.
Qed.

Lemma page0_wf : chan_wf page0 0.
Proof. split; vm_compute; auto; try (split; discriminate); discriminate. Qed.

(** In the machine of the example the caller can sleep. *)
Lemma demo_can_wait :
  @can_wait world demo_sleep demo_laws (wake_by_key demo_w 0x1000) 0x9020 0.
Proof.
  split; [|split; [vm_compute; reflexivity|right; vm_compute; discriminate]].
  apply sched_ok_wake; [exact demo_ok|]. intros t. case_if; [right|by left].
  apply andb_true_iff in Heqb as [Hb%is_state_true _]. done.
Qed.

Lemma rpc_roundtrip_witness :
  exists s1 s2 h obj,
    @call world demo_sleep 0x1000 64 0x9000 32 demo_st 0 7 (1, 2, 3) = Some (s1, mkOutcome 0 0) /\
    @blocked_on world demo_sleep demo_laws (slp s1) 1 0x9020 /\
    @wait_for world demo_sleep 0x1000 64 0x9000 32 s1 0 5 0 = Some (s2, mkOutcome 0 h) /\
    (exists k', chans s2 = <[2%nat := k']> (chans demo_st) /\ mensajes k' = [mkEnt 7 1 2 3]) /\
    r_value (reply_of (fst (@reply_to world demo_sleep 0x9000 32 s2 5 h obj 0 42)) 1) = 42.
Proof.
  destruct (@rpc_roundtrip world demo_sleep demo_laws 0x1000 64 0x9000 32 demo_st 0 7 (1, 2, 3) 5 0 0 42)
    as (s1 & s2 & h & obj & H1 & _ & _ & H2 & H3 & _ & H4 & _ & _ & _ & H5 & _).
  - exact demo_st_ok.
  - unfold MAX_ENDPOINTS. lia.
  - vm_compute. split; [discriminate|reflexivity].
  - lia.
  - reflexivity.
  - reflexivity.
  - vm_compute. lia.
  - vm_compute. split; [discriminate|reflexivity].
  - intros o. vm_compute. discriminate.
  - exists s1, s2, h, obj. split; [exact H1|]. split; [exact (H2 demo_can_wait)|].
    split; [exact H3|]. split; [|exact H5].
    apply (H4 page0 0); [reflexivity|exact page0_wf|reflexivity].
Defined.

Lemma endpoint_fifo_witness :
  exists s', @call world demo_sleep 0x1000 64 0x9000 32 demo_st 0 7 (1, 2, 3) = Some (s', mkOutcome 0 0) /\
    pending (ep s' 0) = pending (ep demo_st 0) ++ [mkCall 1 7 (1, 2, 3)].
Proof.
  destruct (@endpoint_fifo world demo_sleep 0x1000 64 0x9000 32 demo_st 0 7 (1, 2, 3)) as (_ & H & _).
  - exact demo_st_ok.
  - unfold MAX_ENDPOINTS. lia.
  - reflexivity.
  - vm_compute. split; [discriminate|reflexivity].
  - apply H. vm_compute. lia.
Defined.

Lemma reply_dropped_after_65536_witness :
  let s := set_reply demo_st 1 (mkReply true false 65536 0 0) in
  resp (fst (@reply_to world demo_sleep 0x9000 32 s 5 0 (reply_object 65536 0 1) 0 42)) = resp s.
Proof.
  intros s.
  apply (@reply_dropped_after_65536 world demo_sleep 0x9000 32 s 5 0 0 1 0 42).
  - unfold MAX_ENDPOINTS. lia.
  - unfold MAX_TASKS. lia.
  - vm_compute. split; [discriminate|reflexivity].
Defined.

Lemma taken_call_never_failed_witness :
  let s' := @process_died world demo_sleep 0x9000 32 demo_st 5 in
  slp s' = slp demo_st /\ vivo (ep s' 0) = false.
Proof.
  intros s'.
  destruct (@taken_call_never_failed world demo_sleep 0x9000 32 demo_st 5) as (_ & H & _ & _ & He).
  - exact demo_st_ok.
  - intros i Hi _ _. unfold MAX_ENDPOINTS in Hi.
    do 8 (destruct i as [|i]; [reflexivity|]). lia.
  - split; [exact H|]. unfold s'. rewrite He by (unfold MAX_ENDPOINTS; lia). reflexivity.
Defined.

Lemma stale_client_reaches_new_server_witness :
  let s := @process_died world demo_sleep 0x9000 32 demo_st 5 in
  let h := encode KIND_ENDPOINT 1 0 in
  resolve (caps s) 6 h RIGHT_WRITE = Ok (mkResolved KIND_ENDPOINT RIGHT_WRITE 0) /\
  exists s' h2, create s 9 3 = (s', Some h2) /\ servidor_pid (ep s' 0) = 9 /\
    resolve (caps s') 6 h RIGHT_WRITE = Ok (mkResolved KIND_ENDPOINT RIGHT_WRITE 0).
Proof.
  intros s h. split; [vm_compute; reflexivity|].
  assert (Hc : caps s = caps demo_st) by (vm_compute; reflexivity).
  assert (Hok : ep_ok s).
  { apply demo_endpoints_ok; [vm_compute; reflexivity|vm_compute; reflexivity| |].
    - rewrite Hc. apply demo_st_ok.
    - assert (Hall : forallb (fun e => (length (cola e) =? 16)%nat && (cabeza e <? 16)%nat
                               && (n_cola e <=? 16)%nat) (eps s) = true) by (vm_compute; reflexivity).
      intros e He. rewrite forallb_forall in Hall. specialize (Hall e).
      rewrite <- list_elem_of_In in Hall. specialize (Hall He).
      apply andb_true_iff in Hall as [[H1 H2]%andb_true_iff H3].
      apply Nat.eqb_eq in H1. apply Nat.ltb_lt in H2. apply Nat.leb_le in H3. by split. }
  destruct (create s 9 3) as [s' [h2|]] eqn:E; [|exfalso; revert E; vm_compute; discriminate].
  exists s', h2. split; [reflexivity|].
  apply (stale_client_reaches_new_server s 0 9 3 6 h (mkResolved KIND_ENDPOINT RIGHT_WRITE 0) s' h2 Hok);
    [lia|lia|vm_compute; split; [discriminate|reflexivity]|unfold MAX_ENDPOINTS; lia
    |vm_compute; reflexivity|reflexivity|reflexivity|vm_compute; reflexivity|exact E].
Defined.

Lemma ring3_index_panics_witness :
  op_endpoint_connect demo_st 6 8 = None.
Proof.
  apply (@ring3_index_panics world demo_sleep 0x1000 64 0x9000 32 demo_st 6 8 0 0 demo_st_ok);
    unfold MAX_ENDPOINTS; lia.
Defined.

Lemma late_tasks_cannot_call_witness :
  let w := with_sch demo_w (mkSched (tasks (sch demo_w)) 0 70 64) in
  let s := with_slp demo_st (with_sch demo_w (mkSched [mkTask 70 9 Running 0 4 4 0 0 0 0 0 true 0 0 0 0] 0 71 64)) in
  @call world demo_sleep 0x1000 64 0x9000 32 s 0 7 (1, 2, 3) = Some (s, mkOutcome ERROR_ENDPOINT_DEAD 0).
Proof.
  intros w s.
  apply (@late_tasks_cannot_call world demo_sleep 0x1000 64 0x9000 32 s w 9 0 0 0 0 0 0 70).
  - pose proof demo_ok as Hd. destruct Hd as [D1 D2 D3 D4 D5 D6 D7 D8].
    split; try done. intros i Hi Hne. specialize (D4 i Hi Hne).
    change (task (sch w) i) with (task (sch demo_w) i).
    change (next_tid (sch demo_w)) with 4 in D4. change (next_tid (sch w)) with 70. lia.
  - vm_compute. discriminate.
  - vm_compute. reflexivity.
  - vm_compute. reflexivity.
Defined.
