(* ===== verification/Juicios.v ===== *)
(** The judges: small pure crates that decide on the kernel's behalf.
    [Mmio] may a range of physical addresses be handed to Ring 3
    (src/platform/shared/bmo-mmio-juicio); [Dma] may a device write there
    (bmo-dma-juicio); [Prestamo] which pages a loan maps
    (bmo-prestamo-juicio); [Coste] the verdict on a measured cost
    (bmo-juicio); [Cola] the single-producer ring (bmo-cola).

    Numbers are [u64]; [checked_add], [checked_mul] and [overflowing_add] are
    written out.  Names of vetoes are strings as in the source. *)

From Stdlib Require Import ZifyNat.
From stdpp Require Import gmap strings.
From S2P Require Import Prelude Titular Phys.

(** * [Mmio] *)

Module Mmio.

Definition PAGINA : Z := 4096.
Definition UN_MEGA : Z := 0x100000.
Definition APIC_BASE : Z := 0xFEC00000.
Definition APIC_BYTES : Z := 0x1400000.

Record Reserva := mkReserva { rv_base : Z; rv_bytes : Z; rv_nombre : string }.

Inductive Veto :=
| Vacio
| NoAlineado (base : Z)
| LargoNoAlineado (bytes : Z)
| SeSaleDelEspacio (base bytes : Z)
| MasPequenoQueUnaPagina (bytes : Z)
| DebajoDeUnMega (base : Z)
| PisaRam (base tramo_base tramo_bytes : Z)
| EsElApic (base : Z)
| EsDeLaCasa (base : Z) (nombre : string).

Definition solapan (a ab b bb : Z) : bool :=
  if (ab =? 0) || (bb =? 0) then false
  else
    let fin_a := w64 (a + ab) in
    let fin_b := w64 (b + bb) in
    let of_a := 2 ^ 64 <=? a + ab in
    let of_b := 2 ^ 64 <=? b + bb in
    if of_a || of_b then true else (a <? fin_b) && (b <? fin_a).

Fixpoint pisa_ram (base bytes : Z) (mapa : list Tramo) : option Veto :=
  match mapa with
  | [] => None
  | t :: mapa =>
      if t_es_ram t && solapan base bytes (t_base t) (t_bytes t)
      then Some (PisaRam base (t_base t) (t_bytes t)) else pisa_ram base bytes mapa
  end.
Fixpoint es_de_la_casa (base bytes : Z) (l : list Reserva) : option Veto :=
  match l with
  | [] => None
  | r :: l =>
      if solapan base bytes (rv_base r) (rv_bytes r)
      then Some (EsDeLaCasa base (rv_nombre r)) else es_de_la_casa base bytes l
  end.

Definition cedible (base bytes : Z) (mapa : list Tramo) (reservas : list Reserva) : result unit Veto :=
  if bytes =? 0 then Err Vacio
  else if negb (base mod PAGINA =? 0) then Err (NoAlineado base)
  else if bytes <? PAGINA then Err (MasPequenoQueUnaPagina bytes)
  else if negb (bytes mod PAGINA =? 0) then Err (LargoNoAlineado bytes)
  else match checked_add base bytes with
  | None => Err (SeSaleDelEspacio base bytes)
  | Some _ =>
      if base <? UN_MEGA then Err (DebajoDeUnMega base)
      else if solapan base bytes APIC_BASE APIC_BYTES then Err (EsElApic base)
      else match pisa_ram base bytes mapa with
      | Some v => Err v
      | None =>
          match es_de_la_casa base bytes reservas with
          | Some v => Err v
          | None => Ok tt
          end
      end
  end.

Definition nombre (v : Veto) : string :=
  match v with
  | Vacio => "cero bytes no es un rango"
  | NoAlineado _ => "la base no empieza en una pagina"
  | LargoNoAlineado _ => "el largo no es multiplo de pagina"
  | SeSaleDelEspacio _ _ => "base+largo se sale del espacio"
  | MasPequenoQueUnaPagina _ => "mas pequeno que una pagina"
  | DebajoDeUnMega _ => "el megabyte legacy no se cede"
  | PisaRam _ _ _ => "PISA RAM: una ventana al kernel"
  | EsElApic _ => "es el APIC: seria ceder las IRQ"
  | EsDeLaCasa _ _ => "se reparte por otra puerta"
  end.

Definition donde (v : Veto) : Z :=
  match v with
  | Vacio => 0
  | NoAlineado base => base
  | LargoNoAlineado bytes => bytes
  | SeSaleDelEspacio base _ => base
  | MasPequenoQueUnaPagina bytes => bytes
  | DebajoDeUnMega base => base
  | PisaRam base _ _ => base
  | EsElApic base => base
  | EsDeLaCasa base _ => base
  end.

(** Nothing of [a, a + ab) is in [b, b + bb), and the second range exists in
    64 bits; an empty range is far from everything. *)
Definition lejos (a ab b bb : Z) : Prop :=
  bb = 0 \/ (b + bb < 2 ^ 64 /\ forall x, a <= x < a + ab -> ~ (b <= x < b + bb)).

Lemma solapan_false a ab b bb :
  is_u64 a -> 0 < ab -> a + ab < 2 ^ 64 -> is_u64 b -> is_u64 bb ->
  solapan a ab b bb = false <-> lejos a ab b bb.
Proof.
  unfold is_u64, solapan, lejos. intros Ha Hab Hs Hb Hbb.
  rewrite (proj2 (Z.eqb_neq ab 0)) by lia. cbn [orb].
  destruct (bb =? 0) eqn:E0; bdestr; [by split; [left|]|].
  rewrite (proj2 (Z.leb_gt (2 ^ 64) (a + ab))) by lia. cbn [orb].
  destruct (2 ^ 64 <=? b + bb) eqn:E1; bdestr; [split; [done|lia]|].
  rewrite !w64_small by (unfold is_u64; lia).
  rewrite andb_false_iff, !Z.ltb_ge. split.
  - intros H. right. split; [done|]. lia.
  - intros [?|[_ H]]; [lia|]. specialize (H (Z.max a b)). lia.
Qed.

Lemma pisa_ram_None base bytes mapa :
  pisa_ram base bytes mapa = None <->
  Forall (fun t => t_es_ram t = true -> solapan base bytes (t_base t) (t_bytes t) = false) mapa.
Proof.
  induction mapa as [|t mapa IH]; cbn [pisa_ram]; [by split; [constructor|]|].
  rewrite Forall_cons, <- IH. destruct (t_es_ram t), (solapan _ _ _ _); cbn [andb]; intuition done.
Qed.

Lemma es_de_la_casa_None base bytes l :
  es_de_la_casa base bytes l = None <->
  Forall (fun r => solapan base bytes (rv_base r) (rv_bytes r) = false) l.
Proof.
  induction l as [|r l IH]; cbn [es_de_la_casa]; [by split; [constructor|]|].
  rewrite Forall_cons, <- IH. destruct (solapan _ _ _ _); intuition done.
Qed.

(** [cedible] as the chain of its questions. *)
Lemma cedible_Ok base bytes mapa res :
  cedible base bytes mapa res = Ok tt <->
  bytes <> 0 /\ base mod PAGINA = 0 /\ PAGINA <= bytes /\ bytes mod PAGINA = 0 /\
  base + bytes < 2 ^ 64 /\ UN_MEGA <= base /\ solapan base bytes APIC_BASE APIC_BYTES = false /\
  pisa_ram base bytes mapa = None /\ es_de_la_casa base bytes res = None.
Proof.
  unfold cedible, checked_add.
  repeat (case_if; bdestr; [intuition (done || lia)|]).
  case_decide; [|intuition (done || lia)].
  repeat (case_if; bdestr; [intuition (done || lia)|]).
  destruct (pisa_ram _ _ _); [intuition done|].
  destruct (es_de_la_casa _ _ _); [intuition done|].
  intuition (done || lia).
Qed.

Definition tramo_u64 (t : Tramo) : Prop := is_u64 (t_base t) /\ is_u64 (t_bytes t).
Definition reserva_u64 (r : Reserva) : Prop := is_u64 (rv_base r) /\ is_u64 (rv_bytes r).

(** The MMIO judge hands a range to Ring 3 exactly when it is a non-empty
    run of whole pages that exists in 64 bits, starts at 1 MiB or above, and
    shares no byte with the APIC window, with any RAM entry of the map nor with
    any range the house reserves; a RAM entry or a reservation whose end does
    not exist in 64 bits refuses everything. *)
Theorem cedible_spec base bytes mapa res :
  is_u64 base -> is_u64 bytes -> Forall tramo_u64 mapa -> Forall reserva_u64 res ->
  cedible base bytes mapa res = Ok tt <->
  0 < bytes /\ (PAGINA | base) /\ (PAGINA | bytes) /\ base + bytes < 2 ^ 64 /\
  UN_MEGA <= base /\ lejos base bytes APIC_BASE APIC_BYTES /\
  (forall t, t ∈ mapa -> t_es_ram t = true -> lejos base bytes (t_base t) (t_bytes t)) /\
  (forall r, r ∈ res -> lejos base bytes (rv_base r) (rv_bytes r)).
Proof.
  intros Hb Hs Hm Hr. rewrite cedible_Ok, pisa_ram_None, es_de_la_casa_None, !Forall_forall.
  rewrite Forall_forall in Hm. rewrite Forall_forall in Hr.
  rewrite <- !Z.mod_divide by done. unfold PAGINA in *.
  split.
  - intros (H1 & H2 & H3 & H4 & H5 & H6 & H7 & H8 & H9).
    assert (Hsol := fun b bb => solapan_false base bytes b bb Hb ltac:(lia) H5).
    repeat (split; [lia || (apply Hsol; done)|]). split.
    + intros t Ht Hram. apply Hsol; [apply Hm, Ht..|]. by apply H8.
    + intros r Hin. apply Hsol; [apply Hr, Hin..|]. by apply H9.
  - intros (H1 & H2 & H3 & H4 & H5 & H6 & H7 & H8).
    assert (Hsol := fun b bb => solapan_false base bytes b bb Hb H1 H4).
    repeat (split; [lia || (apply Hsol; done)|]). split.
    + intros t Ht Hram. apply Hsol; [apply Hm, Ht..|]. by apply H7.
    + intros r Hin. apply Hsol; [apply Hr, Hin..|]. by apply H8.
Qed.

(** What the MMIO judge hands out is never memory the frame allocator owns:
    after the kernel's start-up, with the map the loader can pass (at most 64
    entries), a range [cedible] against the map [phys] published shares no byte
    with any free frame. *)
Theorem cedible_ajeno_al_asignador s ctx kernel_end ctx_addr ctx_size base bytes res g :
  titular_ok (tit s) ->
  (length (memory_map ctx) <= MAX_TRAMOS)%nat ->
  Forall (fun e => entra (e_base e) (e_size e)) (memory_map ctx) ->
  Forall (fun br => entra br.1 br.2) (reservas ctx kernel_end ctx_addr ctx_size) ->
  is_u64 base -> is_u64 bytes -> 0 <= g < MARCOS ->
  cedible base bytes (tramos (init s ctx kernel_end ctx_addr ctx_size)) res = Ok tt ->
  used (bitmap (init s ctx kernel_end ctx_addr ctx_size)) g = false ->
  forall x, base <= x < base + bytes -> ~ (g * PAGE <= x < (g + 1) * PAGE).
Proof.
  intros Ht Hlen Hm Hr Hb Hs Hg Hc Hu x Hx Hin.
  destruct (init_cases s ctx kernel_end ctx_addr ctx_size Ht Hm Hr) as [_ Hused].
  rewrite Hused in Hu by done.
  apply orb_false_iff in Hu as [Hu _]. apply negb_false_iff, existsb_exists in Hu.
  destruct Hu as (e & He & [Huse Hd]%andb_true_iff). apply list_elem_of_In in He.
  pose proof (init_tramos s ctx kernel_end ctx_addr ctx_size e Hlen He Huse) as Htr.
  apply cedible_Ok in Hc as (_ & _ & Hp & _ & Hof & _ & _ & Hpr & _).
  apply pisa_ram_None in Hpr. rewrite Forall_forall in Hpr.
  specialize (Hpr _ Htr eq_refl). rewrite Forall_forall in Hm.
  destruct (Hm e He) as (H1 & H2 & H3). unfold PAGE, PAGINA in *.
  apply solapan_false in Hpr; [|unfold tramo_de, is_u64 in *; cbn [t_base t_bytes]; lia..].
  unfold dentro in Hd. bdestr. cbn [t_base t_bytes tramo_de] in Hpr. unfold PAGE in *.
  destruct Hpr as [?|[_ Hpr]]; [lia|]. apply (Hpr x); lia.
Qed.

(** Memory the firmware keeps ([es_ram] false) is no obstacle: only the range
    itself and the house's list are. *)
Lemma reservado_por_el_firmware :
  cedible 0x3F000000 4096 [mkTramo 0x3F000000 0x1000000 false] [] = Ok tt.
Proof. reflexivity. Qed.

Lemma cedible_spec_witness :
  Forall tramo_u64 [mkTramo 0x100000 0x10000000 true] /\
  Forall reserva_u64 [mkReserva 0xC0000000 0x1000000 "pantalla"] /\
  lejos 0xFEB00000 0x4000 APIC_BASE APIC_BYTES.
Proof.
  assert (Hm : Forall tramo_u64 [mkTramo 0x100000 0x10000000 true])
    by (repeat constructor; unfold is_u64; simpl; lia).
  assert (Hr : Forall reserva_u64 [mkReserva 0xC0000000 0x1000000 "pantalla"])
    by (repeat constructor; unfold is_u64; simpl; lia).
  split; [exact Hm|split; [exact Hr|]].
  refine (proj1 (proj2 (proj2 (proj2 (proj2 (proj2
    (proj1 (cedible_spec 0xFEB00000 0x4000 _ _ _ _ Hm Hr) eq_refl))))))); unfold is_u64; lia.
Defined.

Lemma cedible_ajeno_witness :
  cedible 0xFEB00000 0x4000 (tramos (init phys_bss boot_demo 0x600000 0x300000 4096)) [] = Ok tt /\
  forall x, 0xFEB00000 <= x < 0xFEB00000 + 0x4000 -> ~ (0x700 * PAGE <= x < (0x700 + 1) * PAGE).
Proof.
  assert (Hb : is_u64 0xFEB00000 /\ is_u64 0x4000) by (unfold is_u64; lia).
  destruct boot_demo_entra as [Hm Hr].
  assert (Hc : cedible 0xFEB00000 0x4000
    (tramos (init phys_bss boot_demo 0x600000 0x300000 4096)) [] = Ok tt)
    by (rewrite boot_demo_tramos; reflexivity).
  assert (Hg : 0 <= 0x700 < MARCOS) by (rewrite MARCOS_eq; lia).
  assert (Hu : used (bitmap (init phys_bss boot_demo 0x600000 0x300000 4096)) 0x700 = false).
  { rewrite (proj2 (init_cases phys_bss boot_demo 0x600000 0x300000 4096
      (proj1 titular_init_ok) Hm Hr) _ Hg). reflexivity. }
  assert (Hl : (length (memory_map boot_demo) <= MAX_TRAMOS)%nat)
    by (apply Nat.leb_le; reflexivity).
  split; [exact Hc|].
  exact (cedible_ajeno_al_asignador phys_bss boot_demo 0x600000 0x300000 4096 0xFEB00000 0x4000
    [] 0x700 (proj1 titular_init_ok) Hl Hm Hr (proj1 Hb) (proj2 Hb) Hg Hc Hu).
Defined.

End Mmio.

(** * [Dma] *)

Module Dma.

Record Marco := mkMarco {
  es_neutro : bool; en_vuelo_para : option Z; m_base : Z; m_bytes : Z; m_aparato : Z
}.
Record Peticion := mkPeticion {
  fisica : Z; p_bytes : Z; p_aparato : Z; alineacion : Z; bits_de_cuenta : Z; prestando : bool
}.
(** [Prenda(u64)]: its field is private, [juzgar_dma] is the only constructor. *)
Record Prenda := mkPrenda { cruda : Z }.

Inductive VetoDma :=
| NoEsDeUnAparato
| DeOtroAparato (suyo pide : Z)
| NoPideNada
| SeSaleDelMarco
| MalAlineada (pide : Z)
| NoCabeLaCuenta (bits : Z).

Definition juzgar_dma (p : Peticion) (m : Marco) : result Prenda VetoDma :=
  let ajeno := match en_vuelo_para m with
               | Some a => if a =? p_aparato p then None else Some a
               | None => None end in
  match ajeno with
  | Some a => Err (DeOtroAparato a (p_aparato p))
  | None =>
      if negb (prestando p) && negb (es_neutro m) then Err NoEsDeUnAparato
      else if negb (prestando p) && negb (m_aparato m =? p_aparato p)
      then Err (DeOtroAparato (m_aparato m) (p_aparato p))
      else if p_bytes p =? 0 then Err NoPideNada
      else match checked_add (m_base m) (m_bytes m), checked_add (fisica p) (p_bytes p) with
      | Some fin_marco, Some fin_pide =>
          if (fisica p <? m_base m) || (fin_marco <? fin_pide) then Err SeSaleDelMarco
          else if (1 <? alineacion p) && negb (fisica p mod alineacion p =? 0)
          then Err (MalAlineada (alineacion p))
          else if (0 <? bits_de_cuenta p) && (bits_de_cuenta p <? 64)
                  && (w64 (Z.shiftl 1 (bits_de_cuenta p)) <? p_bytes p)
          then Err (NoCabeLaCuenta (bits_de_cuenta p))
          else Ok (mkPrenda (fisica p))
      | _, _ => Err SeSaleDelMarco
      end
  end.

Lemma mal_alineada_false p :
  ((1 <? alineacion p) && negb (fisica p mod alineacion p =? 0)) = false <->
  (1 < alineacion p -> fisica p mod alineacion p = 0).
Proof.
  rewrite andb_false_iff, negb_false_iff, Z.ltb_ge, Z.eqb_eq.
  destruct (decide (1 < alineacion p)); intuition lia.
Qed.

Lemma no_cabe_false p :
  ((0 <? bits_de_cuenta p) && (bits_de_cuenta p <? 64)
    && (w64 (Z.shiftl 1 (bits_de_cuenta p)) <? p_bytes p)) = false <->
  (0 < bits_de_cuenta p < 64 -> p_bytes p <= w64 (Z.shiftl 1 (bits_de_cuenta p))).
Proof. rewrite !andb_false_iff, !Z.ltb_ge. lia. Qed.

(** [juzgar_dma] as the chain of its questions. *)
Lemma juzgar_dma_Ok p m t :
  juzgar_dma p m = Ok t <->
  (forall a, en_vuelo_para m = Some a -> a = p_aparato p) /\
  (prestando p = false -> es_neutro m = true /\ m_aparato m = p_aparato p) /\
  p_bytes p <> 0 /\ m_base m + m_bytes m < 2 ^ 64 /\ fisica p + p_bytes p < 2 ^ 64 /\
  m_base m <= fisica p /\ fisica p + p_bytes p <= m_base m + m_bytes m /\
  (1 < alineacion p -> fisica p mod alineacion p = 0) /\
  (0 < bits_de_cuenta p < 64 -> p_bytes p <= w64 (Z.shiftl 1 (bits_de_cuenta p))) /\
  t = mkPrenda (fisica p).
Proof.
  unfold juzgar_dma, checked_add.
  assert (Haj : (match en_vuelo_para m with
                 | Some a => if a =? p_aparato p then None else Some a
                 | None => None end) = None <->
                (forall a, en_vuelo_para m = Some a -> a = p_aparato p)).
  { destruct (en_vuelo_para m) as [a|]; [|by split]. case_if; bdestr; split; intros H; try done.
    - intros ? [= <-]; done.
    - by destruct Heqb; apply H. }
  destruct (match en_vuelo_para m with Some _ => _ | None => _ end).
  { split; [done|]. intros [H _]. apply Haj in H. done. }
  rewrite <- Haj. clear Haj.
  destruct (prestando p), (es_neutro m); cbn [negb andb]; try (intuition congruence).
  all: repeat (case_if; bdestr; [intuition (congruence || lia)|]).
  all: repeat case_decide; [|intuition (congruence || lia)..].
  all: case_if; bdestr; [rewrite orb_true_iff, !Z.ltb_lt in *; intuition (congruence || lia)|].
  all: rewrite <- (mal_alineada_false p), <- (no_cabe_false p).
  all: destruct ((1 <? alineacion p) && _); [intuition congruence|].
  all: destruct ((0 <? bits_de_cuenta p) && _ && _); intuition congruence.
Qed.

(** The DMA judge gives a token exactly when no other device has the frame
    in flight, the frame is the asker's own corral (or the kernel declares the
    loan), something is asked for, the bytes lie inside the frame without
    leaving 64 bits, the address has the alignment the device demands, and the
    count fits its field; and the token is the address that was asked for. *)
Theorem juzgar_dma_spec p m t :
  is_u64 (fisica p) -> is_u64 (p_bytes p) ->
  juzgar_dma p m = Ok t <->
  cruda t = fisica p /\
  (forall a, en_vuelo_para m = Some a -> a = p_aparato p) /\
  (prestando p = false -> es_neutro m = true /\ m_aparato m = p_aparato p) /\
  0 < p_bytes p /\
  m_base m <= fisica p /\ fisica p + p_bytes p <= m_base m + m_bytes m < 2 ^ 64 /\
  (1 < alineacion p -> (alineacion p | fisica p)) /\
  (0 < bits_de_cuenta p < 64 -> p_bytes p <= 2 ^ bits_de_cuenta p).
Proof.
  intros Hf Hb. rewrite juzgar_dma_Ok. unfold is_u64 in *. destruct t as [c]. cbn [cruda].
  assert (Hal : 1 < alineacion p -> fisica p mod alineacion p = 0 <-> (alineacion p | fisica p))
    by (intros; apply Z.mod_divide; lia).
  assert (Hsh : 0 < bits_de_cuenta p < 64 ->
    w64 (Z.shiftl 1 (bits_de_cuenta p)) = 2 ^ bits_de_cuenta p).
  { intros. rewrite Z.shiftl_1_l. apply w64_small. unfold is_u64.
    split; [lia|]. apply Z.pow_lt_mono_r; lia. }
  split.
  - intros (H1 & H2 & H3 & H4 & H5 & H6 & H7 & H8 & H9 & H10).
    split_and!; [congruence|exact H1|exact H2|lia..| |].
    + intros Ha. by apply Hal, H8.
    + intros Hc. rewrite <- Hsh by done. by apply H9.
  - intros (H1 & H2 & H3 & H4 & H5 & H6 & H7 & H8). subst.
    split_and!; [exact H2|exact H3|lia..| | |done].
    + intros Ha. by apply Hal, H7.
    + intros Hc. rewrite Hsh by done. by apply H8.
Qed.

Lemma juzgar_dma_spec_witness :
  let p := mkPeticion 0x5000 512 7 512 22 false in
  let m := mkMarco true None 0x4000 0x4000 7 in
  fisica p = 0x5000 /\ 0x5000 + 512 <= 0x8000.
Proof.
  intros p m.
  destruct (proj1 (juzgar_dma_spec p m (mkPrenda 0x5000) ltac:(by compute) ltac:(by compute)) eq_refl)
    as (H1 & _ & _ & _ & _ & [H2 _] & _).
  split; [exact H1|exact H2].
Defined.

End Dma.

(** * [Prestamo] *)

Module Prestamo.

Definition PAGINA_P : Z := 4096.

Record TramoP := mkTramoP { pagina : Z; dentro : Z; mapeado : Z }.

Definition base_para (t : TramoP) (va : Z) : Z := w64 (va + dentro t).
Definition cabe_en (t : TramoP) (ventana : Z) : bool := mapeado t <=? ventana.

Definition tramo (origen bytes : Z) : option TramoP :=
  if bytes =? 0 then None
  else
    _ ← checked_add origen bytes;
    let dentro := Z.land origen (PAGINA_P - 1) in
    let pagina := w64 (origen - dentro) in
    crudo ← checked_add dentro bytes;
    mas ← checked_add crudo (PAGINA_P - 1);
    let mapeado := page_down mas in
    _ ← checked_add pagina mapeado;
    Some (mkTramoP pagina dentro mapeado).

Lemma tramo_eq origen bytes :
  is_u64 origen -> is_u64 bytes -> bytes <> 0 ->
  tramo origen bytes =
    let fin := (origen + bytes + (PAGINA_P - 1)) / PAGINA_P * PAGINA_P in
    if decide (fin < 2 ^ 64)
    then Some (mkTramoP (origen / PAGINA_P * PAGINA_P) (origen mod PAGINA_P)
                 (fin - origen / PAGINA_P * PAGINA_P))
    else None.
Proof.
  unfold is_u64. intros Ho Hb Hz. unfold tramo. rewrite (proj2 (Z.eqb_neq bytes 0)) by done.
  change (PAGINA_P - 1) with (2 ^ 12 - 1). rewrite land_ones_mod by done.
  change (2 ^ 12) with PAGINA_P. unfold checked_add. set (fin := _ / _ * _). cbv zeta.
  assert (Hfin : fin = (origen + bytes + 4095) / 4096 * 4096) by reflexivity.
  unfold PAGINA_P in *. clearbody fin.
  destruct (decide (fin < 2 ^ 64)) as [Hf|Hf].
  - destruct (decide (origen + bytes < _)); [|lia]. cbn [mbind option_bind].
    rewrite w64_small by (unfold is_u64; lia).
    destruct (decide (origen mod 4096 + bytes < _)); [|lia]. cbn [mbind option_bind].
    destruct (decide (_ + (4096 - 1) < _)); [|lia]. cbn [mbind option_bind].
    rewrite page_down_eq by (unfold is_u64; lia). unfold PAGE.
    destruct (decide (_ + _ < _)); [|lia]. cbn [mbind option_bind]. f_equal. f_equal; lia.
  - destruct (decide (origen + bytes < _)); cbn [mbind option_bind]; [|done].
    rewrite w64_small by (unfold is_u64; lia).
    destruct (decide (origen mod 4096 + bytes < _)); cbn [mbind option_bind]; [|done].
    destruct (decide (_ + (4096 - 1) < _)); cbn [mbind option_bind]; [|done].
    rewrite page_down_eq by (unfold is_u64; lia). unfold PAGE.
    destruct (decide (_ + _ < _)); [lia|done].
Qed.

(** A loan's span is the least run of whole pages that covers
    the bytes from [origen] to [origen + bytes]: it starts at the page of the first byte, ends at
    the page end of the last, and no end leaves 64 bits; and there is none
    exactly when nothing is lent or that page end does not exist.  Mapped at
    any page-aligned address, the byte the borrower reads at offset [i] of
    [base_para] is byte [i] of what was lent. *)
Theorem tramo_spec origen bytes :
  is_u64 origen -> is_u64 bytes ->
  match tramo origen bytes with
  | Some t =>
      0 < bytes /\ (PAGINA_P | pagina t) /\ (PAGINA_P | mapeado t) /\
      pagina t <= origen < pagina t + PAGINA_P /\
      pagina t + mapeado t - PAGINA_P < origen + bytes <= pagina t + mapeado t /\
      pagina t + mapeado t < 2 ^ 64 /\
      (forall va i, is_u64 va -> (PAGINA_P | va) -> va + mapeado t < 2 ^ 64 -> 0 <= i < bytes ->
         va <= base_para t va + i < va + mapeado t /\
         pagina t + (base_para t va + i - va) = origen + i)
  | None =>
      bytes = 0 \/
      forall f, (PAGINA_P | f) -> origen + bytes <= f -> 2 ^ 64 <= f
  end.
Proof.
  intros Ho Hb. destruct (decide (bytes = 0)) as [->|Hz]; [by left|].
  rewrite tramo_eq by done. unfold is_u64, PAGINA_P in *. cbv zeta. case_decide as Hf.
  - cbn [pagina mapeado dentro]. unfold base_para. cbn [dentro].
    split; [lia|]. split; [by exists (origen / 4096)|].
    split; [exists ((origen + bytes + 4095) / 4096 - origen / 4096); lia|].
    split; [lia|]. split; [lia|]. split; [lia|]. intros va i Hva Hd Hlt Hi.
    rewrite w64_small by (unfold is_u64; lia). lia.
  - right. intros f [k ->] Hk. lia.
Qed.

Lemma tramo_spec_witness :
  tramo 0x12345678 0x2000 = Some (mkTramoP 0x12345000 0x678 0x3000) /\
  0x12345000 + 0x3000 - PAGINA_P < 0x12345678 + 0x2000.
Proof.
  assert (H : is_u64 0x12345678 /\ is_u64 0x2000) by (unfold is_u64; lia).
  split; [reflexivity|].
  destruct (tramo_spec 0x12345678 0x2000 (proj1 H) (proj2 H)) as (_ & _ & _ & _ & [H1 _] & _).
  exact H1.
Defined.

End Prestamo.

(** * [Coste] *)

Module Coste.

Record Presupuesto := mkPresupuesto { techo : Z; meta : Z }.

Definition desempaquetar (valor : Z) : Presupuesto :=
  mkPresupuesto (Z.land valor 0xFFFFFFFF) (Z.shiftr valor 32).
Definition sin_declarar (p : Presupuesto) : bool := techo p =? 0.

Record Medida := mkMedida {
  min : Z; media : Z; puertas : Z; ciclos_dispatch : Z; cerrada_sin_imprimir : bool
}.

Inductive Roto := VentanaSucia | SinPuertas | MinimoSobreMedia | MedidaEnCero | MediaDisparada.
Inductive Veredicto :=
| SinDeclarar
| SePasa (medido techo : Z)
| EnPlazo (medido techo meta faltan : Z)
| Meta (medido meta : Z)
| VRoto (r : Roto).

Definition MEDIA_MAXIMA_SOBRE_MINIMO : Z := 20.

(** [checked_mul] on [u64]. *)
Definition checked_mul (a b : Z) : option Z := if a * b <? 2 ^ 64 then Some (a * b) else None.
(** [checked_sub] on [u64]. *)
Definition checked_sub (a b : Z) : option Z := if b <=? a then Some (a - b) else None.

Definition revisar (m : Medida) : option Roto :=
  if negb (cerrada_sin_imprimir m) then Some VentanaSucia
  else if puertas m =? 0 then Some SinPuertas
  else if min m =? 0 then Some MedidaEnCero
  else if media m <? min m then Some MinimoSobreMedia
  else match checked_mul (min m) MEDIA_MAXIMA_SOBRE_MINIMO with
  | Some limite => if limite <? media m then Some MediaDisparada else None
  | None => None
  end.

Definition dispatch_medio (m : Medida) : option Z :=
  if puertas m =? 0 then None else Some (ciclos_dispatch m / puertas m).

Definition juzgar (m : Medida) (valor : Z) (p : Presupuesto) : Veredicto :=
  match revisar m with
  | Some r => VRoto r
  | None =>
      if valor =? 0 then VRoto MedidaEnCero
      else if sin_declarar p then SinDeclarar
      else if techo p <? valor then SePasa valor (techo p)
      else if meta p <? valor then EnPlazo valor (techo p) (meta p) (w64 (valor - meta p))
      else Meta valor (meta p)
  end.

Definition stub_desde (min_total dispatch : Z) : option Z := checked_sub min_total dispatch.

Inductive Reparto := NoMedido | MediaSobreMinimo | Stub (ciclos : Z).
Definition reparto (min_total dispatch : Z) : Reparto :=
  if dispatch =? 0 then NoMedido
  else match checked_sub min_total dispatch with
  | Some stub => Stub stub
  | None => MediaSobreMinimo
  end.

Record Reloj := mkReloj { tsc_hz : Z; nucleo_hz : Z }.
Definition ciclos (r : Reloj) (ticks : Z) : option Z :=
  if (tsc_hz r =? 0) || (nucleo_hz r =? 0) then None
  else Some (w64 (ticks * nucleo_hz r / tsc_hz r)).
Definition nanos (r : Reloj) (ticks : Z) : option Z :=
  if tsc_hz r =? 0 then None else Some (w64 (ticks * 1000000000 / tsc_hz r)).
Definition centesimas (r : Reloj) : option Z := ciclos r 100.

(** The two words of a budget, as the manifest packs them. *)
Definition empaquetar (p : Presupuesto) : Z := Z.lor (Z.shiftl (meta p) 32) (techo p).

Lemma desempaquetar_empaquetar p :
  is_u32 (techo p) -> is_u32 (meta p) -> desempaquetar (empaquetar p) = p.
Proof.
  destruct p as [t m]. unfold is_u32, desempaquetar, empaquetar. cbn [techo meta]. intros Ht Hm.
  rewrite lor_shiftl_add by lia. change 0xFFFFFFFF with (2 ^ 32 - 1).
  rewrite land_ones_mod, Z.shiftr_div_pow2 by done. f_equal; lia.
Qed.

Lemma revisar_None m :
  0 <= min m ->
  revisar m = None <->
  cerrada_sin_imprimir m = true /\ puertas m <> 0 /\ 0 < min m <= media m /\
  (min m * 20 < 2 ^ 64 -> media m <= min m * 20).
Proof.
  intros Hm. unfold revisar, checked_mul, MEDIA_MAXIMA_SOBRE_MINIMO.
  repeat (case_if; bdestr; [intuition (congruence || lia)|]).
  case_if; bdestr; [|intuition lia]. case_if; bdestr; intuition (congruence || lia).
Qed.

(** The verdict on a cost is a judgement only of a sane measure: a window
    closed without printing, with gates, a non-zero minimum, and a mean between
    the minimum and twenty times it; and then, against a budget both of whose
    halves fit 32 bits, it is exactly one of: no declared ceiling, over the
    ceiling, within it with what is left to the goal, or at the goal. *)
Theorem juzgar_spec m valor p :
  0 <= min m -> is_u64 valor -> is_u32 (techo p) -> is_u32 (meta p) ->
  match juzgar m valor (desempaquetar (empaquetar p)) with
  | VRoto r => revisar m = Some r \/ (revisar m = None /\ r = MedidaEnCero /\ valor = 0)
  | v =>
      cerrada_sin_imprimir m = true /\ puertas m <> 0 /\ 0 < min m <= media m /\
      (min m * 20 < 2 ^ 64 -> media m <= min m * 20) /\ 0 < valor /\
      (v = SinDeclarar <-> techo p = 0) /\
      (v = SePasa valor (techo p) <-> 0 < techo p < valor) /\
      (v = EnPlazo valor (techo p) (meta p) (valor - meta p) <->
         techo p <> 0 /\ meta p < valor <= techo p) /\
      (v = Meta valor (meta p) <-> techo p <> 0 /\ valor <= meta p /\ valor <= techo p)
  end.
Proof.
  intros Hm Hv Ht Hg. rewrite desempaquetar_empaquetar by done.
  unfold juzgar, sin_declarar, is_u64, is_u32 in *.
  destruct (revisar m) as [r|] eqn:Er; [by left|].
  case_if; bdestr; [by right|]. apply revisar_None in Er as (H1 & H2 & H3 & H4); [|done].
  case_if; bdestr.
  { split_and!; try done; try lia; split; intros; (done || lia). }
  case_if; bdestr.
  { split_and!; try done; try lia; split; intros; (done || lia). }
  case_if; bdestr.
  { rewrite w64_small by (unfold is_u64; lia).
    split_and!; try done; try lia; split; intros; (done || lia). }
  split_and!; try done; try lia; split; intros; (done || lia).
Qed.

Lemma juzgar_spec_witness :
  let m := mkMedida 100 180 5 900 true in
  juzgar m 180 (desempaquetar (empaquetar (mkPresupuesto 200 150))) = EnPlazo 180 200 150 30 /\
  0 < min m <= media m.
Proof.
  intros m. split; [reflexivity|].
  assert (H : is_u64 180 /\ is_u32 200 /\ is_u32 150) by (unfold is_u64, is_u32; lia).
  destruct (juzgar_spec m 180 (mkPresupuesto 200 150) ltac:(done)
    (proj1 H) (proj1 (proj2 H)) (proj2 (proj2 H))) as (_ & _ & H1 & _).
  exact H1.
Defined.

End Coste.

(** * [Cola] *)

Module Cola.
Section Cola.
Context {T : Type} `{Inhabited T}.

(** [N] is the length of [datos]. *)
Record Cola := mkCola { datos : list T; lee : nat; escribe : nat; perdidos : Z }.

Definition N (c : Cola) : nat := length (datos c).

Definition nueva (n : nat) (vacio : T) : Cola := mkCola (replicate n vacio) 0 0 0.

Definition empujar (c : Cola) (v : T) : Cola * bool :=
  let e := escribe c in
  let siguiente := ((e + 1) mod N c)%nat in
  if Nat.eqb siguiente (lee c)
  then (mkCola (datos c) (lee c) e (w32 (perdidos c + 1)), false)
  else (mkCola (<[e := v]> (datos c)) (lee c) siguiente (perdidos c), true).

Definition sacar (c : Cola) : Cola * option T :=
  let l := lee c in
  if Nat.eqb l (escribe c) then (c, None)
  else (mkCola (datos c) ((l + 1) mod N c)%nat (escribe c) (perdidos c), Some (datos c !!! l)).

Definition cuantos (c : Cola) : nat :=
  if (lee c <=? escribe c)%nat then (escribe c - lee c)%nat else (N c - lee c + escribe c)%nat.

Definition vaciar (c : Cola) : Cola * nat :=
  (mkCola (datos c) (escribe c) (escribe c) (perdidos c), cuantos c).

(** ** Two cores

    The atomic steps of [empujar] and of [sacar] and [vaciar] as the source
    orders them: each load and store of an index, the write and the read of
    the slot.  [Release]/[Acquire] on the indices make the slot's write happen
    before the index that announces it, so steps interleave one at a time.
    [aceptados] and [respuestas] are ghosts: the values whose [empujar] answered
    [true], in order, and what the consumer was answered, in order. *)
Inductive productor := PNada | PCompara (v : T) (e : nat) | PEscribe (v : T) (e : nat)
| PPublica (v : T) (e : nat).
Inductive consumidor := CNada | CCompara (l : nat) | CLee (l : nat) | CPublica (l : nat) (v : T)
| CCuenta (l : nat) | CTira (l e : nat).
Inductive respuesta := Saco (v : T) | SacoNada | Vacio (n : nat).

Record dos := mkDos {
  cola : Cola; prod : productor; cons_ : consumidor;
  aceptados : list T; respuestas : list respuesta
}.

Definition con_lee (c : Cola) (l : nat) : Cola := mkCola (datos c) l (escribe c) (perdidos c).

Inductive paso : dos -> dos -> Prop :=
| p_lee_escribe c k a r v :
    paso (mkDos c PNada k a r) (mkDos c (PCompara v (escribe c)) k a r)
| p_llena c k a r v e :
    ((e + 1) mod N c)%nat = lee c ->
    paso (mkDos c (PCompara v e) k a r)
         (mkDos (mkCola (datos c) (lee c) (escribe c) (w32 (perdidos c + 1))) PNada k a r)
| p_cabe c k a r v e :
    ((e + 1) mod N c)%nat <> lee c ->
    paso (mkDos c (PCompara v e) k a r) (mkDos c (PEscribe v e) k a r)
| p_dato c k a r v e :
    paso (mkDos c (PEscribe v e) k a r)
         (mkDos (mkCola (<[e := v]> (datos c)) (lee c) (escribe c) (perdidos c)) (PPublica v e) k a r)
| p_indice c k a r v e :
    paso (mkDos c (PPublica v e) k a r)
         (mkDos (mkCola (datos c) (lee c) ((e + 1) mod N c)%nat (perdidos c)) PNada k (a ++ [v]) r)
| c_lee_lee c p a r :
    paso (mkDos c p CNada a r) (mkDos c p (CCompara (lee c)) a r)
| c_vacia c p a r l :
    l = escribe c -> paso (mkDos c p (CCompara l) a r) (mkDos c p CNada a (r ++ [SacoNada]))
| c_hay c p a r l :
    l <> escribe c -> paso (mkDos c p (CCompara l) a r) (mkDos c p (CLee l) a r)
| c_dato c p a r l :
    paso (mkDos c p (CLee l) a r) (mkDos c p (CPublica l (datos c !!! l)) a r)
| c_indice c p a r l v :
    paso (mkDos c p (CPublica l v) a r)
         (mkDos (con_lee c ((l + 1) mod N c)%nat) p CNada a (r ++ [Saco v]))
| v_lee_lee c p a r :
    paso (mkDos c p CNada a r) (mkDos c p (CCuenta (lee c)) a r)
| v_lee_escribe c p a r l :
    paso (mkDos c p (CCuenta l) a r) (mkDos c p (CTira l (escribe c)) a r)
| v_indice c p a r l e :
    paso (mkDos c p (CTira l e) a r)
         (mkDos (con_lee c e) p CNada a
            (r ++ [Vacio (if (l <=? e)%nat then (e - l)%nat else (N c - l + e)%nat)])).

(** What the answers say against the accepted values: each [Saco v] is the
    oldest value not yet answered for, [Vacio n] stands for the [n] oldest, and
    [resto] is what is left. *)
Inductive reproduce : list T -> list respuesta -> list T -> Prop :=
| rep_nil a : reproduce a [] a
| rep_saco v a r resto : reproduce a r resto -> reproduce (v :: a) (Saco v :: r) resto
| rep_nada a r resto : reproduce a r resto -> reproduce a (SacoNada :: r) resto
| rep_vacio n a r resto :
    (n <= length a)%nat -> reproduce (drop n a) r resto -> reproduce a (Vacio n :: r) resto.

(** What the ring holds, oldest first. *)
Definition contenido (c : Cola) : list T :=
  (fun i => datos c !!! ((lee c + i) mod N c)%nat) <$> seq 0 (cuantos c).

(** ** Proofs *)

Lemma mod_cerca (n x y : nat) : (x <= y < x + n)%nat -> (x mod n = y mod n)%nat -> x = y.
Proof.
  intros Hx E. pose proof (Nat.div_mod_eq x n). pose proof (Nat.div_mod_eq y n).
  assert ((n * (y / n) - n * (x / n) < n)%nat) by lia.
  assert ((y / n = x / n)%nat); [|nia]. assert ((x / n <= y / n)%nat) by nia. nia.
Qed.

Lemma mod_suma (n h d : nat) :
  (d < n)%nat -> ((h + d) mod n = if h mod n + d <? n then h mod n + d else h mod n + d - n)%nat.
Proof.
  intros Hx. rewrite <- Nat.Div0.add_mod_idemp_l by lia.
  pose proof (Nat.mod_upper_bound h n ltac:(lia)). destruct (Nat.ltb_spec (h mod n + d) n).
  - by apply Nat.mod_small.
  - replace (h mod n + d)%nat with ((h mod n + d - n) + 1 * n)%nat at 1 by lia.
    rewrite Nat.Div0.mod_add. apply Nat.mod_small. lia.
Qed.

Lemma cuantos_mod (n h t : nat) :
  (h <= t < h + n)%nat ->
  (if h mod n <=? t mod n then t mod n - h mod n else n - h mod n + t mod n)%nat = (t - h)%nat.
Proof.
  intros Hx. pose proof (mod_suma n h (t - h) ltac:(lia)) as E.
  replace (h + (t - h))%nat with t in E by lia. rewrite E.
  pose proof (Nat.mod_upper_bound h n ltac:(lia)).
  destruct (Nat.ltb_spec (h mod n + (t - h)) n);
    match goal with |- context [(?a <=? ?b)%nat] => destruct (Nat.leb_spec a b) end; lia.
Qed.

Lemma reproduce_mas a r resto v : reproduce a r resto -> reproduce (a ++ [v]) r (resto ++ [v]).
Proof.
  induction 1 as [| | |n a r resto Hn _ IH]; [constructor..|]; [done..|].
  constructor; [rewrite length_app; lia|]. by rewrite drop_app_le.
Qed.

Lemma reproduce_luego a r resto r' resto' :
  reproduce a r resto -> reproduce resto r' resto' -> reproduce a (r ++ r') resto'.
Proof. induction 1; intros; cbn [app]; [done|constructor; auto..]. Qed.

(** The indices as residues of two counters, [h] values consumed and [t]
    values accepted. *)
Record anillo (n h t : nat) (s : dos) : Prop := {
  an_n : N (cola s) = n; an_lee : lee (cola s) = (h mod n)%nat;
  an_esc : escribe (cola s) = (t mod n)%nat; an_ord : (h <= t < h + n)%nat;
  an_len : length (aceptados s) = t;
  an_dat i : (h <= i < t)%nat -> aceptados s !! i = Some (datos (cola s) !!! (i mod n)%nat);
  an_rep : reproduce (aceptados s) (respuestas s) (drop h (aceptados s));
  an_prod : match prod s with
            | PNada => True
            | PCompara _ e => e = (t mod n)%nat
            | PEscribe _ e => e = (t mod n)%nat /\ (t + 1 < h + n)%nat
            | PPublica v e => e = (t mod n)%nat /\ (t + 1 < h + n)%nat /\ datos (cola s) !!! e = v
            end;
  an_cons : match cons_ s with
            | CNada => True
            | CCompara l | CCuenta l => l = (h mod n)%nat
            | CLee l => l = (h mod n)%nat /\ (h < t)%nat
            | CPublica l v => l = (h mod n)%nat /\ (h < t)%nat /\ aceptados s !! h = Some v
            | CTira l e => l = (h mod n)%nat /\ exists te, e = (te mod n)%nat /\ (h <= te <= t)%nat
            end
}.

Lemma insert_otro (l : list T) e v i : e <> i -> <[e := v]> l !!! i = l !!! i.
Proof. apply list_lookup_total_insert_ne. Qed.

Lemma anillo_paso n h t s s' :
  anillo n h t s -> paso s s' -> exists h' t', anillo n h' t' s'.
Proof.
  intros [Hn Hl He Ho Hlen Hd Hr Hp Hc] Hs.
  assert (Hpos : (0 < n)%nat) by lia.
  destruct Hs; cbn [cola prod cons_ aceptados respuestas datos lee escribe N con_lee] in *; subst n.
  - exists h, t. by constructor.
  - exists h, t. by constructor.
  - exists h, t. constructor; cbn; try done. split; [done|]. subst e.
    rewrite Nat.Div0.add_mod_idemp_l in H0. rewrite Hl in H0.
    destruct (decide (t + 1 < h + N c)%nat); [done|].
    replace (t + 1)%nat with (h + 1 * N c)%nat in H0 by lia. by rewrite Nat.Div0.mod_add in H0.
  - destruct Hp as [-> Hp]. exists h, t. constructor; cbn; unfold N in *; cbn; rewrite ?length_insert; try done.
    + intros i Hi. rewrite insert_otro; [by apply Hd|]. intros E. symmetry in E.
      apply mod_cerca in E; lia.
    + split; [done|]. split; [done|]. apply list_lookup_total_insert_eq, Nat.mod_upper_bound. lia.
  - destruct Hp as (-> & Hp & Hv). exists h, (S t). constructor; cbn; try done.
    + rewrite Nat.Div0.add_mod_idemp_l. f_equal. lia.
    + lia.
    + rewrite length_app. simpl. lia.
    + intros i Hi. destruct (decide (i = t)) as [->|].
      * rewrite lookup_app_r by lia. rewrite Hlen, Nat.sub_diag. by rewrite Hv.
      * rewrite lookup_app_l by lia. apply Hd. lia.
    + rewrite drop_app_le by lia. by apply reproduce_mas.
    + destruct k; try done; [lia..| |].
      * destruct Hc as (? & ? & ?). split; [done|]. split; [lia|]. rewrite lookup_app_l by lia. done.
      * destruct Hc as (? & te & ? & ?). split; [done|]. exists te. lia.
  - exists h, t. by constructor.
  - exists h, t. constructor; try done. cbn. apply (reproduce_luego _ _ _ _ _ Hr). repeat constructor.
  - exists h, t. constructor; try done. cbn. split; [done|]. subst l.
    destruct (decide (h < t)%nat); [done|]. assert (h = t) as -> by lia. congruence.
  - exists h, t. constructor; try done. cbn. destruct Hc as [-> Hc]. split; [done|]. split; [done|].
    apply Hd. lia.
  - destruct Hc as (-> & Hc & Hv). exists (S h), t. constructor; cbn; try done.
    + rewrite Nat.Div0.add_mod_idemp_l. f_equal. lia.
    + lia.
    + intros i Hi. apply Hd. lia.
    + rewrite (drop_S _ _ _ Hv) in Hr. apply (reproduce_luego _ _ _ _ _ Hr). repeat constructor.
    + destruct p; try done; intuition lia.
  - exists h, t. by constructor.
  - exists h, t. constructor; try done. cbn. split; [done|]. exists t. split; [done|lia].
  - destruct Hc as (-> & te & -> & Hte). exists te, t. constructor; cbn; try done.
    + lia.
    + intros i Hi. apply Hd. lia.
    + rewrite cuantos_mod by lia. apply (reproduce_luego _ _ _ _ _ Hr). constructor.
      * rewrite length_drop. lia.
      * rewrite drop_drop. replace (h + (te - h))%nat with te by lia. constructor.
    + destruct p; try done; intuition lia.
Qed.

Lemma anillo_contenido n h t s : anillo n h t s -> contenido (cola s) = drop h (aceptados s).
Proof.
  intros [Hn Hl He Ho Hlen Hd _ _ _].
  assert (Hcu : cuantos (cola s) = (t - h)%nat)
    by (unfold cuantos; rewrite Hl, He, Hn; by apply cuantos_mod).
  apply list_eq. intros j. unfold contenido. rewrite list_lookup_fmap, lookup_drop, Hcu, Hl, Hn.
  destruct (decide (j < t - h)%nat).
  - rewrite lookup_seq_lt by done. cbn [fmap option_fmap option_map]. rewrite Hd by lia.
    by rewrite Nat.Div0.add_mod_idemp_l.
  - rewrite lookup_seq_ge, lookup_ge_None_2 by lia. done.
Qed.

Lemma anillo_nueva n v0 : (0 < n)%nat -> anillo n 0 0 (mkDos (nueva n v0) PNada CNada [] []).
Proof.
  intros Hx. constructor; cbn; try done; try lia; [apply length_replicate|..].
  - symmetry. apply Nat.Div0.mod_0_l.
  - symmetry. apply Nat.Div0.mod_0_l.
  - constructor.
Qed.

Lemma anillo_alcanza n v0 s :
  (0 < n)%nat -> rtc paso (mkDos (nueva n v0) PNada CNada [] []) s -> exists h t, anillo n h t s.
Proof.
  intros Hx Hs. assert (Ha : exists h t, anillo n h t (mkDos (nueva n v0) PNada CNada [] []))
    by (exists 0%nat, 0%nat; by apply anillo_nueva).
  revert Ha. induction Hs as [|s s1 s2 Hp _ IH]; [done|]. intros (h & t & Ha).
  apply IH. exact (anillo_paso n h t s s1 Ha Hp).
Qed.

(** C16: one producer and one consumer on different cores, interleaved at every
    load and store: what the consumer was answered, in order, is exactly the
    accepted values from the oldest on (nothing lost, repeated, reordered or
    torn), what is left is what the ring holds, the ring never holds more than
    [N - 1], and the producer never writes the slot the consumer is reading. *)
Theorem cola_spsc n v0 s :
  (0 < n)%nat -> rtc paso (mkDos (nueva n v0) PNada CNada [] []) s ->
  reproduce (aceptados s) (respuestas s) (contenido (cola s)) /\
  (length (contenido (cola s)) <= n - 1)%nat /\
  (forall v e l, prod s = PEscribe v e -> cons_ s = CLee l -> e <> l).
Proof.
  intros Hx Hs. destruct (anillo_alcanza n v0 s Hx Hs) as (h & t & Ha).
  rewrite (anillo_contenido n h t s Ha). destruct Ha as [_ _ _ Ho Hlen _ Hr Hp Hc].
  split; [exact Hr|]. split; [rewrite length_drop; lia|].
  intros v e l Ep Ec. rewrite Ep in Hp. rewrite Ec in Hc. destruct Hp as [-> Hp], Hc as [-> Hc].
  intros E. symmetry in E. apply mod_cerca in E; lia.
Qed.

(** The functions are runs of those steps, one side at a time. *)
Lemma empujar_pasos c v k a r :
  rtc paso (mkDos c PNada k a r)
    (mkDos (fst (empujar c v)) PNada k (if snd (empujar c v) then a ++ [v] else a) r).
Proof.
  unfold empujar. cbv zeta. eapply rtc_l; [apply (p_lee_escribe c k a r v)|].
  destruct (Nat.eqb_spec ((escribe c + 1) mod N c)%nat (lee c)); cbn [fst snd].
  - apply rtc_once. by apply p_llena.
  - eapply rtc_l; [by apply p_cabe|]. eapply rtc_l; [apply p_dato|].
    eapply rtc_l; [apply p_indice|]. cbn [datos lee perdidos]. unfold N. cbn [datos].
    rewrite length_insert. apply rtc_refl.
Qed.

Lemma sacar_pasos c p a r :
  rtc paso (mkDos c p CNada a r)
    (mkDos (fst (sacar c)) p CNada a
       (r ++ [match snd (sacar c) with Some v => Saco v | None => SacoNada end])).
Proof.
  unfold sacar. cbv zeta. eapply rtc_l; [apply c_lee_lee|].
  destruct (Nat.eqb_spec (lee c) (escribe c)); cbn [fst snd].
  - apply rtc_once. by apply c_vacia.
  - eapply rtc_l; [by apply c_hay|]. eapply rtc_l; [apply c_dato|].
    eapply rtc_l; [apply c_indice|]. apply rtc_refl.
Qed.

Lemma vaciar_pasos c p a r :
  rtc paso (mkDos c p CNada a r)
    (mkDos (fst (vaciar c)) p CNada a (r ++ [Vacio (snd (vaciar c))])).
Proof.
  eapply rtc_l; [apply v_lee_lee|]. eapply rtc_l; [apply v_lee_escribe|].
  eapply rtc_l; [apply v_indice|]. apply rtc_refl.
Qed.
End Cola.
Arguments Cola : clear implicits.

Lemma cola_spsc_witness :
  let c := fst (empujar (fst (empujar (nueva 3 0) 7)) 8) in
  (length (contenido c) <= 3 - 1)%nat /\ contenido c = [7; 8].
Proof.
  intros c. split; [|reflexivity].
  assert (Hs : rtc paso (mkDos (nueva 3 0) PNada CNada [] []) (mkDos c PNada CNada [7; 8] [])).
  { etrans; [apply (empujar_pasos (nueva 3 0) 7)|].
    exact (empujar_pasos (fst (empujar (nueva 3 0) 7)) 8 CNada [7] []). }
  exact (proj1 (proj2 (cola_spsc 3 0 _ (Nat.lt_0_succ 2) Hs))).
Defined.
End Cola.
