(* ===== verification/Blake3.v ===== *)
(** BLAKE3, the hash of the content-addressed store and of the signed images.
    Source: src/platform/shared/bmo-hash/src/lib.rs.

    Bytes and 32-bit words are [Z]; arrays are lists.  The counters of a chunk
    ([u8]) and the length of the stack ([u8]) are [nat] with the wrap written
    out; [while] loops take the fuel that their measure gives ([input.len()],
    the 64 bits of a counter).  The reference is the tree of the BLAKE3
    definition: [tree] over the 1024-byte chunks, the left child being the
    largest power of two of chunks that leaves something to its right. *)

From Stdlib Require Import ZifyNat.
From S2P Require Import Prelude.

Definition OUT_LEN : nat := 32.
Definition BLOCK_LEN : nat := 64.
Definition CHUNK_LEN : nat := 1024.

Definition CHUNK_START : Z := Z.shiftl 1 0.
Definition CHUNK_END : Z := Z.shiftl 1 1.
Definition PARENT : Z := Z.shiftl 1 2.
Definition ROOT : Z := Z.shiftl 1 3.

Definition IV : list Z :=
  [0x6A09E667; 0xBB67AE85; 0x3C6EF372; 0xA54FF53A; 0x510E527F; 0x9B05688C; 0x1F83D9AB; 0x5BE0CD19].

Definition MSG_PERMUTATION : list nat := [2; 6; 3; 10; 7; 0; 4; 13; 1; 11; 12; 5; 9; 14; 15; 8]%nat.

(** [u32::rotate_right]. *)
Definition rotate_right (x n : Z) : Z := Z.lor (Z.shiftr x n) (w32 (Z.shiftl x (32 - n))).

Definition g (state : list Z) (a b c d : nat) (mx my : Z) : list Z :=
  let state := <[a := w32 (w32 (state !!! a + state !!! b) + mx)]> state in
  let state := <[d := rotate_right (Z.lxor (state !!! d) (state !!! a)) 16]> state in
  let state := <[c := w32 (state !!! c + state !!! d)]> state in
  let state := <[b := rotate_right (Z.lxor (state !!! b) (state !!! c)) 12]> state in
  let state := <[a := w32 (w32 (state !!! a + state !!! b) + my)]> state in
  let state := <[d := rotate_right (Z.lxor (state !!! d) (state !!! a)) 8]> state in
  let state := <[c := w32 (state !!! c + state !!! d)]> state in
  <[b := rotate_right (Z.lxor (state !!! b) (state !!! c)) 7]> state.

Definition round (state m : list Z) : list Z :=
  let state := g state 0 4 8 12 (m !!! 0%nat) (m !!! 1%nat) in
  let state := g state 1 5 9 13 (m !!! 2%nat) (m !!! 3%nat) in
  let state := g state 2 6 10 14 (m !!! 4%nat) (m !!! 5%nat) in
  let state := g state 3 7 11 15 (m !!! 6%nat) (m !!! 7%nat) in
  let state := g state 0 5 10 15 (m !!! 8%nat) (m !!! 9%nat) in
  let state := g state 1 6 11 12 (m !!! 10%nat) (m !!! 11%nat) in
  let state := g state 2 7 8 13 (m !!! 12%nat) (m !!! 13%nat) in
  g state 3 4 9 14 (m !!! 14%nat) (m !!! 15%nat).

Definition permute (m : list Z) : list Z := (fun i => m !!! i) <$> MSG_PERMUTATION.

(** The two halves of the last loop: [state[i] ^= state[i + 8]], then
    [state[i + 8] ^= chaining[i]]. *)
Definition compress (chaining block : list Z) (counter block_len flags : Z) : list Z :=
  let state := chaining ++ take 4 IV
               ++ [w32 counter; w32 (Z.shiftr counter 32); block_len; flags] in
  let m := block in
  let state := round state m in
  let m := permute m in let state := round state m in
  let m := permute m in let state := round state m in
  let m := permute m in let state := round state m in
  let m := permute m in let state := round state m in
  let m := permute m in let state := round state m in
  let m := permute m in let state := round state m in
  foldl (fun state i =>
           let state := <[i := Z.lxor (state !!! i) (state !!! (i + 8)%nat)]> state in
           <[(i + 8)%nat := Z.lxor (state !!! (i + 8)%nat) (chaining !!! i)]> state)
        state (seq 0 8).

Definition words_from_bytes (bytes : list Z) : list Z :=
  (fun i => of_le (slice (i * 4) 4 bytes)) <$> seq 0 16.

Record ChunkState := mkChunk {
  chaining : list Z; chunk_counter : Z; block : list Z;
  block_len : nat; blocks_compressed : nat; flags : Z
}.

Definition new_chunk (key : list Z) (counter flags : Z) : ChunkState :=
  mkChunk key counter (replicate BLOCK_LEN 0) 0 0 flags.

Definition len (c : ChunkState) : nat := (blocks_compressed c * BLOCK_LEN + block_len c)%nat.

Definition start_flag (c : ChunkState) : Z :=
  if Nat.eqb (blocks_compressed c) 0 then CHUNK_START else 0.

(** The full block is compressed only when more input arrives. *)
Definition vacia_bloque (c : ChunkState) : ChunkState :=
  if Nat.eqb (block_len c) BLOCK_LEN then
    mkChunk (take 8 (compress (chaining c) (words_from_bytes (block c)) (chunk_counter c)
                       (Z.of_nat BLOCK_LEN) (Z.lor (flags c) (start_flag c))))
      (chunk_counter c) (replicate BLOCK_LEN 0) 0 ((blocks_compressed c + 1) mod 256) (flags c)
  else c.

Fixpoint chunk_update (fuel : nat) (c : ChunkState) (input : list Z) : ChunkState :=
  match fuel, input with
  | O, _ | _, [] => c
  | S fuel, _ =>
      let c := vacia_bloque c in
      let want := (BLOCK_LEN - block_len c)%nat in
      let n := Nat.min want (length input) in
      let c := mkChunk (chaining c) (chunk_counter c)
                 (put (block_len c) (take n input) (block c))
                 ((block_len c + n) mod 256) (blocks_compressed c) (flags c) in
      chunk_update fuel c (drop n input)
  end.

Definition output (c : ChunkState) (is_root : bool) : list Z :=
  let f := Z.lor (Z.lor (flags c) (start_flag c)) CHUNK_END in
  let f := if is_root then Z.lor f ROOT else f in
  take 8 (compress (chaining c) (words_from_bytes (block c)) (chunk_counter c)
            (Z.of_nat (block_len c)) f).

Definition parent_cv (left right key : list Z) (flags : Z) (is_root : bool) : list Z :=
  let f := Z.lor flags PARENT in
  let f := if is_root then Z.lor f ROOT else f in
  take 8 (compress key (left ++ right) 0 (Z.of_nat BLOCK_LEN) f).

Record Hasher := mkHasher { chunk : ChunkState; cv_stack : list (list Z); cv_stack_len : nat }.

Definition new : Hasher := mkHasher (new_chunk IV 0 0) (replicate 54 (replicate 8 0)) 0.

(** [parent_cv(&left, &right, &IV, 0, is_root)], as every caller writes it. *)
Definition padre (l r : list Z) (root : bool) : list Z := parent_cv l r IV 0 root.

(** The two walks over the stack, stated over any [P] so that no conversion
    looks inside the compression. *)
Section Pila.
Variable P : list Z -> list Z -> bool -> list Z.

(** [while total & 1 == 0], 64 turns at most. [None]: the index of the stack
    is out of range and the code panics. *)
Fixpoint push_con (fuel : nat) (st : list (list Z)) (n : nat) (cv : list Z) (total : Z)
  : option (list (list Z) * nat) :=
  match fuel with
  | O => None
  | S fuel =>
      if Z.land total 1 =? 0 then
        match n with
        | O => None
        | S m => push_con fuel st m (P (st !!! m) cv false) (Z.shiftr total 1)
        end
      else if (n <? length st)%nat then Some (<[n := cv]> st, (n + 1) mod 256)%nat else None
  end.

(** [while idx > 0]: the stack from its top, the root flag on the last. *)
Fixpoint finalize_con (st : list (list Z)) (idx : nat) (cv : list Z) : list Z :=
  match idx with
  | O => cv
  | S idx => finalize_con st idx (P (st !!! idx) cv (Nat.eqb idx 0))
  end.
End Pila.

Definition push_loop := push_con padre 65.
Definition finalize_loop := finalize_con padre.

Definition push_cv (h : Hasher) (cv : list Z) (total_chunks : Z) : option Hasher :=
  match push_loop (cv_stack h) (cv_stack_len h) cv total_chunks with
  | Some (st, n) => Some (mkHasher (chunk h) st n)
  | None => None
  end.

(** The head of the loop: a full chunk goes to the stack. *)
Definition cierra_trozo (h : Hasher) : option Hasher :=
  if Nat.eqb (len (chunk h)) CHUNK_LEN then
    let cv := output (chunk h) false in
    let chunks_so_far := w64 (chunk_counter (chunk h) + 1) in
    h ← push_cv h cv chunks_so_far;
    Some (mkHasher (new_chunk IV chunks_so_far 0) (cv_stack h) (cv_stack_len h))
  else Some h.

Fixpoint update_loop (fuel : nat) (h : Hasher) (input : list Z) : option Hasher :=
  match fuel, input with
  | O, _ | _, [] => Some h
  | S fuel, _ =>
      h ← cierra_trozo h;
      let want := (CHUNK_LEN - len (chunk h))%nat in
      let n := Nat.min want (length input) in
      let h := mkHasher (chunk_update n (chunk h) (take n input)) (cv_stack h) (cv_stack_len h) in
      update_loop fuel h (drop n input)
  end.

Definition update (h : Hasher) (input : list Z) : option Hasher :=
  update_loop (length input) h input.

Definition cv_to_bytes (cv : list Z) : list Z := cv ≫= le 4.

Definition finalize (h : Hasher) : list Z :=
  if Nat.eqb (cv_stack_len h) 0 then cv_to_bytes (output (chunk h) true)
  else cv_to_bytes (finalize_loop (cv_stack h) (cv_stack_len h) (output (chunk h) false)).

Definition hash (bytes : list Z) : option (list Z) :=
  h ← update new bytes; Some (finalize h).

(** ** The definition of BLAKE3 *)

(** A sequence cut every [n]; the last piece is not empty unless all is. *)
Fixpoint parte_ (fuel n : nat) (l : list Z) : list (list Z) :=
  match fuel with
  | O => [l]
  | S fuel => if (length l <=? n)%nat then [l] else take n l :: parte_ fuel n (drop n l)
  end.
Definition parte (n : nat) (l : list Z) : list (list Z) := parte_ (length l) n l.

Definition relleno (b : list Z) : list Z := b ++ replicate (BLOCK_LEN - length b) 0.

(** One full block: the chaining value and whether it is the first. *)
Definition absorbe1 (k : Z) (s : list Z * bool) (b : list Z) : list Z * bool :=
  (take 8 (compress (fst s) (words_from_bytes b) k (Z.of_nat BLOCK_LEN)
             (Z.lor 0 (if snd s then CHUNK_START else 0))), false).

(** The chaining value of chunk [k], [b] its last block. *)
Definition chunk_cv (k : nat) (bytes : list Z) (root : bool) : list Z :=
  let bs := parte BLOCK_LEN bytes in
  let b := List.last bs [] in
  let s := foldl (absorbe1 (Z.of_nat k)) (IV, true) (removelast bs) in
  let f := Z.lor (Z.lor 0 (if snd s then CHUNK_START else 0)) CHUNK_END in
  take 8 (compress (fst s) (words_from_bytes (relleno b)) (Z.of_nat k) (Z.of_nat (length b))
            (if root then Z.lor f ROOT else f)).

(** Chunks of the left subtree of [n] chunks. *)
Definition left_len (n : nat) : nat := (2 ^ Nat.log2 (n - 1))%nat.

Fixpoint tree (fuel i : nat) (cs : list (list Z)) (root : bool) : list Z :=
  match fuel with
  | O => []
  | S fuel =>
      match cs with
      | [c] => chunk_cv i c root
      | _ => let l := left_len (length cs) in
             parent_cv (tree fuel i (take l cs) false) (tree fuel (i + l) (drop l cs) false) IV 0 root
      end
  end.
Definition arbol (i : nat) (cs : list (list Z)) (root : bool) : list Z := tree (length cs) i cs root.

Definition hash_ref (bytes : list Z) : list Z :=
  cv_to_bytes (arbol 0 (parte CHUNK_LEN bytes) true).

(** ** Cutting *)

Lemma parte_fuel n f : forall f' l, (0 < n)%nat -> (length l <= f)%nat -> (length l <= f')%nat ->
  parte_ f n l = parte_ f' n l.
Proof.
  induction f as [|f IH]; intros [|f'] l Hn H1 H2; cbn [parte_]; try done.
  - by rewrite (proj2 (Nat.leb_le _ _)) by lia.
  - by rewrite (proj2 (Nat.leb_le _ _)) by lia.
  - destruct (Nat.leb_spec (length l) n); [done|]. f_equal. apply IH; rewrite ?length_drop; lia.
Qed.

Lemma parte_corta n l : (length l <= n)%nat -> parte n l = [l].
Proof.
  intros H. unfold parte. destruct (length l) eqn:E; cbn [parte_]; [done|].
  by rewrite (proj2 (Nat.leb_le _ _)) by lia.
Qed.

Lemma parte_mas n a l : (0 < n)%nat -> length a = n -> l <> [] -> parte n (a ++ l) = a :: parte n l.
Proof.
  intros Hn Ha Hl. destruct l as [|x l]; [done|]. unfold parte.
  rewrite length_app, Ha. destruct n as [|n]; [lia|]. cbn [plus parte_].
  rewrite length_app, Ha, (proj2 (Nat.leb_gt _ _)) by (simpl; lia).
  rewrite take_app_length', drop_app_length' by done. f_equal. apply parte_fuel; simpl; lia.
Qed.

(** The two levels of the code's state: full pieces and a current one that is
    only empty at the very start. *)
Definition piezas (n : nat) (ps : list (list Z)) (p : list Z) : Prop :=
  Forall (fun q => length q = n) ps /\ (length p <= n)%nat /\ (ps <> [] -> p <> []).

Lemma parte_piezas n ps p : (0 < n)%nat -> piezas n ps p -> parte n (concat ps ++ p) = ps ++ [p].
Proof.
  intros Hn (Hf & Hp & Hne). induction ps as [|q ps IH]; cbn [concat app].
  { by apply parte_corta. }
  apply Forall_cons in Hf as [Hq Hf]. specialize (Hne ltac:(done)).
  rewrite <- app_assoc, parte_mas; [|done..|].
  - f_equal. apply IH; [done|]. by intros _.
  - intros E. apply app_eq_nil in E as [_ ?]. done.
Qed.

(** ** A chunk *)

Definition absorbido (k : nat) (bs : list (list Z)) : list Z * bool :=
  foldl (absorbe1 (Z.of_nat k)) (IV, true) bs.

(** The chunk state holds [bytes], the start of chunk [k]. *)
Record crep (k : nat) (bytes : list Z) (c : ChunkState) : Prop := {
  cr_counter : chunk_counter c = Z.of_nat k;
  cr_flags : flags c = 0;
  cr_cut : exists bs b, bytes = concat bs ++ b /\ piezas BLOCK_LEN bs b /\
    chaining c = fst (absorbido k bs) /\ block c = relleno b /\
    block_len c = length b /\ blocks_compressed c = length bs
}.

Lemma absorbido_snoc k bs b : absorbido k (bs ++ [b]) = absorbe1 (Z.of_nat k) (absorbido k bs) b.
Proof. unfold absorbido. by rewrite foldl_app. Qed.

Lemma absorbido_first k bs :
  snd (absorbido k bs) = match bs with [] => true | _ => false end.
Proof.
  destruct bs as [|b bs _] using rev_ind; [done|]. rewrite absorbido_snoc. by destruct bs.
Qed.

Lemma crep_start k bs c :
  blocks_compressed c = length bs ->
  start_flag c = if snd (absorbido k bs) then CHUNK_START else 0.
Proof. unfold start_flag. intros ->. rewrite absorbido_first. by destruct bs. Qed.

Lemma crep_new k : crep k [] (new_chunk IV (Z.of_nat k) 0).
Proof.
  split; [done..|]. exists [], []. split_and!; try done. by split; [|split; [simpl; lia|]].
Qed.

Lemma concat_len n bs : Forall (fun q : list Z => length q = n) bs -> length (concat bs) = (n * length bs)%nat.
Proof. induction 1 as [|x bs Hx Hf IH]; simpl; [lia|]. rewrite length_app. lia. Qed.

Lemma crep_len k bytes c : crep k bytes c -> len c = length bytes.
Proof.
  intros [_ _ (bs & b & -> & (Hf & _) & _ & _ & Hl & Hn)]. unfold len. rewrite Hl, Hn, length_app.
  rewrite (concat_len _ _ Hf). lia.
Qed.

Lemma relleno_lleno b : length b = BLOCK_LEN -> relleno b = b.
Proof. intros H. unfold relleno. by rewrite H, Nat.sub_diag, app_nil_r. Qed.

(** The lazy compression keeps what the chunk holds and makes room. *)
Lemma vacia_rep k bytes c :
  crep k bytes c -> (length bytes < CHUNK_LEN)%nat ->
  exists bs b, bytes = concat bs ++ b /\ Forall (fun q => length q = BLOCK_LEN) bs /\
    (length b < BLOCK_LEN)%nat /\
    let c' := vacia_bloque c in
    chunk_counter c' = Z.of_nat k /\ flags c' = 0 /\ chaining c' = fst (absorbido k bs) /\
    block c' = relleno b /\ block_len c' = length b /\ blocks_compressed c' = length bs.
Proof.
  intros [Hk Hfl (bs & b & -> & (Hf & Hb & Hne) & Hc & Hbl & Hl & Hn)] Hlen.
  unfold vacia_bloque. destruct (Nat.eqb_spec (block_len c) BLOCK_LEN) as [E|E].
  - exists (bs ++ [b]), []. rewrite concat_app. cbn [concat]. rewrite !app_nil_r.
    rewrite Hl in E. split; [done|]. split; [by apply Forall_app; split; [|constructor]|].
    split; [simpl; unfold BLOCK_LEN; lia|].
    cbv zeta. cbn [chunk_counter flags chaining block block_len blocks_compressed].
    split; [exact Hk|]. split; [exact Hfl|]. split; [|split; [reflexivity|split; [reflexivity|]]].
    + rewrite absorbido_snoc. unfold absorbe1. cbn [fst].
      rewrite Hc, Hk, Hfl, (crep_start k bs) by exact Hn. by rewrite Hbl, relleno_lleno.
    + rewrite Hn, length_app. cbn [length]. apply Nat.mod_small.
      rewrite length_app, (concat_len _ _ Hf) in Hlen. unfold BLOCK_LEN, CHUNK_LEN in *. lia.
  - exists bs, b. rewrite Hl in E. cbv zeta. assert (Hlt : (length b < BLOCK_LEN)%nat) by lia.
    exact (conj eq_refl (conj Hf (conj Hlt (conj Hk (conj Hfl (conj Hc (conj Hbl (conj Hl Hn)))))))).
Qed.

Lemma put_relleno b x :
  (length b + length x <= BLOCK_LEN)%nat -> put (length b) x (relleno b) = relleno (b ++ x).
Proof.
  intros H. unfold put, relleno. rewrite take_app_length, <- app_assoc. f_equal. f_equal.
  rewrite drop_app_ge by lia. rewrite drop_replicate, length_app. f_equal. lia.
Qed.

Lemma chunk_update_rep k fuel : forall bytes input c,
  crep k bytes c -> (length bytes + length input <= CHUNK_LEN)%nat -> (length input <= fuel)%nat ->
  crep k (bytes ++ input) (chunk_update fuel c input).
Proof.
  induction fuel as [|fuel IH]; intros bytes input c Hc Hle Hf.
  { destruct input; [|simpl in Hf; lia]. by rewrite app_nil_r. }
  destruct input as [|x input]; [by rewrite app_nil_r|].
  cbn [chunk_update]. set (inp := x :: input) in *.
  assert (Hpos : (0 < length inp)%nat) by (unfold inp; simpl; lia).
  destruct (vacia_rep k bytes c Hc ltac:(lia)) as (bs & b & Hb & Hfull & Hlt & Hk & Hfl & Hch & Hbl & Hlen & Hn).
  cbv zeta in *. rewrite Hlen.
  set (n := Nat.min (BLOCK_LEN - length b) (length inp)).
  rewrite <- (take_drop n inp) at 1. rewrite app_assoc. apply IH.
  - split; [exact Hk|exact Hfl|]. exists bs, (b ++ take n inp).
    cbn [chunk_counter flags chaining block block_len blocks_compressed].
    assert (Ht : length (take n inp) = n) by (rewrite length_take; lia).
    split; [by rewrite Hb, <- app_assoc|].
    split; [split; [done|]; split; [rewrite length_app; lia|]|].
    { intros _ E. apply (f_equal length) in E. rewrite length_app, Ht in E. simpl in E. lia. }
    split; [exact Hch|]. split; [rewrite Hbl; apply put_relleno; lia|].
    split; [rewrite length_app, Ht; apply Nat.mod_small; unfold BLOCK_LEN in *; lia|done].
  - rewrite length_app, length_take, length_drop. lia.
  - rewrite length_drop. lia.
Qed.

Lemma output_rep k bytes c root : crep k bytes c -> output c root = chunk_cv k bytes root.
Proof.
  intros [Hk Hfl (bs & b & -> & Hp & Hc & Hbl & Hl & Hn)].
  unfold output, chunk_cv. rewrite parte_piezas by (done || unfold BLOCK_LEN; lia).
  rewrite last_last, removelast_last. fold (absorbido k bs).
  by rewrite (crep_start k bs), Hc, Hbl, Hl, Hk, Hfl.
Qed.

(** ** The tree *)

(** ** Lengths *)

Lemma length_g st a b c d x y : length (g st a b c d x y) = length st.
Proof. unfold g. by rewrite !length_insert. Qed.

Lemma length_round st m : length (round st m) = length st.
Proof. unfold round. by rewrite !length_g. Qed.

Lemma length_compress ch bl k n f : length ch = 8%nat -> length (compress ch bl k n f) = 16%nat.
Proof.
  intros H. unfold compress. cbv zeta.
  assert (Hf : forall l s, length (foldl (fun state i =>
      let state := <[i := Z.lxor (state !!! i) (state !!! (i + 8)%nat)]> state in
      <[(i + 8)%nat := Z.lxor (state !!! (i + 8)%nat) (ch !!! i)]> state) s l) = length s).
  { induction l as [|i l IH]; intros s; [done|]. cbn [foldl]. by rewrite IH, !length_insert. }
  rewrite Hf, !length_round, !length_app, H. reflexivity.
Qed.

Lemma length_parent l r key f root : length key = 8%nat -> length (parent_cv l r key f root) = 8%nat.
Proof.
  intros H. unfold parent_cv. rewrite length_take, length_compress by done.
  reflexivity.
Qed.

Lemma length_absorbido k bs : length (fst (foldl (absorbe1 k) (IV, true) bs)) = 8%nat.
Proof.
  destruct bs as [|b bs _] using rev_ind; [done|]. rewrite foldl_app. cbn [foldl].
  assert (H : length (fst (foldl (absorbe1 k) (IV, true) bs)) = 8%nat).
  { induction bs as [|b' bs IH] using rev_ind; [done|]. rewrite foldl_app. cbn [foldl].
    unfold absorbe1 at 1. cbn [fst]. rewrite length_take, length_compress by done. done. }
  unfold absorbe1 at 1. cbn [fst]. rewrite length_take, length_compress by done. done.
Qed.

Lemma length_chunk_cv k bytes root : length (chunk_cv k bytes root) = 8%nat.
Proof.
  unfold chunk_cv. cbv zeta. rewrite length_take, length_compress by apply length_absorbido. done.
Qed.

Lemma length_tree f : forall i cs root, cs <> [] -> (length cs <= f)%nat -> length (tree f i cs root) = 8%nat.
Proof.
  destruct f as [|f]; intros i cs root Hne Hf; [destruct cs; simpl in *; done || lia|].
  cbn [tree]. destruct cs as [|c1 [|c2 cs]]; [done|apply length_chunk_cv|].
  cbv zeta. by apply length_parent.
Qed.

Lemma length_hash_ref bytes : length (hash_ref bytes) = 32%nat.
Proof.
  unfold hash_ref, cv_to_bytes, arbol.
  assert (Hne : parte CHUNK_LEN bytes <> []).
  { unfold parte. destruct (length bytes); cbn [parte_]; [done|]. by destruct (_ <=? _)%nat. }
  pose proof (length_tree (length (parte CHUNK_LEN bytes)) 0 _ true Hne (le_n _)) as H.
  revert H. generalize (tree (length (parte CHUNK_LEN bytes)) 0 (parte CHUNK_LEN bytes) true).
  intros l Hl. do 9 (destruct l as [|? l]; try done).
Qed.

#[local] Opaque compress chunk_cv parent_cv.

Lemma left_len_bounds n : (2 <= n)%nat -> (1 <= left_len n < n)%nat.
Proof.
  intros Hn. unfold left_len. pose proof (Nat.log2_spec (n - 1) ltac:(lia)).
  pose proof (Nat.pow_nonzero 2 (Nat.log2 (n - 1)) ltac:(lia)). lia.
Qed.

Lemma left_len_unique n b : (2 ^ b < n <= 2 ^ (S b))%nat -> left_len n = (2 ^ b)%nat.
Proof. intros H. unfold left_len. f_equal. apply Nat.log2_unique; lia. Qed.

Lemma tree_fuel f : forall f' i cs root,
  cs <> [] -> (length cs <= f)%nat -> (length cs <= f')%nat -> tree f i cs root = tree f' i cs root.
Proof.
  induction f as [|f IH]; intros [|f'] i cs root Hne H1 H2;
    [destruct cs; simpl in *; done || lia..|].
  destruct cs as [|c1 [|c2 cs]]; [by destruct Hne|reflexivity|]. cbn [tree]. set (l := c1 :: c2 :: cs) in *.
  assert (H : (2 <= length l)%nat) by (unfold l; simpl; lia).
  clearbody l. pose proof (left_len_bounds (length l) H).
  assert (Hd : forall x, (x < length l)%nat -> drop x l <> [])
    by (intros x Hx E; apply (f_equal length) in E; rewrite length_drop in E; simpl in E; lia).
  assert (Ht : take (left_len (length l)) l <> [])
    by (intros E; apply (f_equal length) in E; rewrite length_take in E; simpl in E; lia).
  assert (Hx : forall j q b, q <> [] -> (length q < length l)%nat -> tree f j q b = tree f' j q b)
    by (intros j q b Hq Hlt; apply IH; [done|lia|lia]).
  rewrite !Hx; [done|apply Hd; lia|rewrite length_drop; lia|done|rewrite length_take; lia].
Qed.

Lemma arbol_uno i c root : arbol i [c] root = chunk_cv i c root.
Proof. reflexivity. Qed.

Lemma arbol_dos i l r b root :
  length l = (2 ^ b)%nat -> r <> [] -> (length r <= 2 ^ b)%nat ->
  arbol i (l ++ r) root = padre (arbol i l false) (arbol (i + length l) r false) root.
Proof.
  intros Hl Hr Hle. unfold arbol at 1. rewrite length_app.
  assert (Hr1 : (1 <= length r)%nat) by (destruct r; simpl in *; [done|lia]).
  assert (Hl1 : (1 <= length l)%nat) by (rewrite Hl; pose proof (Nat.pow_nonzero 2 b ltac:(lia)); lia).
  destruct (length l + length r)%nat as [|f] eqn:E; [lia|]. cbn [tree].
  destruct (l ++ r) as [|c1 [|c2 cs]] eqn:Ec;
    [apply (f_equal length) in Ec; rewrite length_app in Ec; simpl in Ec; lia..|].
  rewrite <- Ec, length_app, (left_len_unique _ b) by (rewrite Nat.pow_succ_r'; lia).
  rewrite <- Hl, take_app_length, drop_app_length.
  unfold padre. f_equal; apply tree_fuel; try lia; [|exact Hr]. intros ->. simpl in Hl1. lia.
Qed.

(** [finalize]: the stack folded over the last piece, from its top. *)
Section Sube.
Variable P : list Z -> list Z -> bool -> list Z.

Fixpoint sube (st : list (list Z)) (cv : list Z) : list Z :=
  match st with
  | [] => cv
  | v :: st => sube st (P v cv (match st with [] => true | _ => false end))
  end.

Lemma sube_cons v st cv :
  sube (v :: st) cv = sube st (P v cv (match st with [] => true | _ => false end)).
Proof. reflexivity. Qed.

Lemma vacia_rev (st : list (list Z)) n : (n <= length st)%nat ->
  Nat.eqb n 0 = match rev (take n st) with [] => true | _ => false end.
Proof.
  intros Hn. destruct n as [|n]; [done|]. destruct (rev (take (S n) st)) eqn:E; [|done].
  apply (f_equal length) in E. rewrite length_rev, length_take in E. cbn [length] in E. lia.
Qed.

Lemma rev_take_S (st : list (list Z)) n v :
  st !! n = Some v -> rev (take (S n) st) = v :: rev (take n st).
Proof. intros Hv. by rewrite (take_S_r _ _ v Hv), rev_unit. Qed.

Lemma finalize_sube st n : forall cv,
  (n <= length st)%nat -> finalize_con P st n cv = sube (rev (take n st)) cv.
Proof.
  induction n as [|n IH]; intros cv Hn; [done|]. cbn [finalize_con]. rewrite IH by lia.
  destruct (lookup_lt_is_Some_2 st n ltac:(lia)) as [v Hv].
  rewrite (rev_take_S _ _ v Hv), sube_cons, (list_lookup_total_correct _ _ _ Hv).
  by rewrite (vacia_rev st n) by lia.
Qed.
End Sube.

Lemma total_even total : 0 < total -> (Z.land total 1 =? 0) = true <-> total mod 2 = 0.
Proof. intros. change 1 with (2 ^ 1 - 1). rewrite land_ones_mod by done. apply Z.eqb_eq. Qed.

(** ** Towers

    Over any tree [A] with the law [arbol_dos] for a parent [P]. *)
Section Torre.
Variable P : list Z -> list Z -> bool -> list Z.
Variable A : nat -> list (list Z) -> bool -> list Z.
Hypothesis A_dos : forall i l r b root,
  length l = (2 ^ b)%nat -> r <> [] -> (length r <= 2 ^ b)%nat ->
  A i (l ++ r) root = P (A i l false) (A (i + length l) r false) root.

(** The stack, top first: perfect subtrees of strictly growing size from level
    [a] up, over consecutive runs of chunks. *)
Inductive torre : nat -> list (list Z) -> list (list Z) -> Prop :=
| torre_nil a : torre a [] []
| torre_cons a b cs c st :
    (a <= b)%nat -> torre (S b) cs st -> length c = (2 ^ b)%nat ->
    torre a (cs ++ c) (A (length cs) c false :: st).

Lemma torre_mono a a' cs st : torre a cs st -> (a' <= a)%nat -> torre a' cs st.
Proof. intros []; [constructor|]. intros. econstructor; [|done..]. lia. Qed.

(** A tower from level [a] covers a multiple of [2^a] chunks. *)
Lemma torre_multiple a cs st : torre a cs st -> exists q, length cs = (q * 2 ^ a)%nat.
Proof.
  induction 1 as [a|a b cs c st Hab _ [q IH] Hc]; [by exists 0%nat|].
  rewrite length_app, IH, Hc. exists ((q * 2 + 1) * 2 ^ (b - a))%nat.
  replace b with (a + (b - a))%nat at 1 2 by lia.
  rewrite Nat.pow_succ_r', Nat.pow_add_r. nia.
Qed.

Lemma torre_altura a cs st :
  torre a cs st -> 2 ^ Z.of_nat a * (2 ^ Z.of_nat (length st) - 1) <= Z.of_nat (length cs).
Proof.
  induction 1 as [a|a b cs c st Hab _ IH Hc]; [simpl; lia|].
  rewrite length_app, Hc, Nat2Z.inj_add, Nat2Z.inj_pow. change (Z.of_nat 2) with 2. cbn [length].
  rewrite (Nat2Z.inj_succ (length st)), (Nat2Z.inj_succ b), !Z.pow_succ_r in * by lia.
  assert (2 ^ Z.of_nat a <= 2 ^ Z.of_nat b) by (apply Z.pow_le_mono_r; lia).
  assert (0 < 2 ^ Z.of_nat (length st)) by (apply Z.pow_pos_nonneg; lia).
  assert (0 < 2 ^ Z.of_nat a) by (apply Z.pow_pos_nonneg; lia). nia.
Qed.

Lemma pow2_nat_S b : Z.of_nat (2 ^ S b) = 2 * 2 ^ Z.of_nat b.
Proof.
  rewrite Nat2Z.inj_pow. change (Z.of_nat 2) with 2. by rewrite Nat2Z.inj_succ, Z.pow_succ_r by lia.
Qed.

Lemma not_nil_pow (c : list (list Z)) a : length c = (2 ^ a)%nat -> c <> [].
Proof. intros H ->. pose proof (Nat.pow_nonzero 2 a ltac:(lia)). simpl in H. lia. Qed.

(** An even count of closed subtrees of level [a]: the top one is of level [a]. *)
Lemma torre_par a cs (c : list (list Z)) st total :
  torre a cs st -> length c = (2 ^ a)%nat ->
  total * 2 ^ Z.of_nat a = Z.of_nat (length cs + length c) -> total mod 2 = 0 ->
  exists cs1 c1 st1, cs = cs1 ++ c1 /\ st = A (length cs1) c1 false :: st1 /\
    torre (S a) cs1 st1 /\ length c1 = (2 ^ a)%nat.
Proof.
  intros Ht Hc Htot He. assert (HA : 0 < 2 ^ Z.of_nat a) by (apply Z.pow_pos_nonneg; lia).
  assert (Hcz : Z.of_nat (length c) = 2 ^ Z.of_nat a) by (rewrite Hc, Nat2Z.inj_pow; done).
  destruct Ht as [a|a b cs1 c1 st1 Hab Ht1 Hc1].
  { exfalso. rewrite Nat2Z.inj_add, Hcz in Htot. cbn [length] in Htot.
    assert (total = 1) as -> by (apply (Z.mul_reg_r _ _ (2 ^ Z.of_nat a)); lia). discriminate He. }
  destruct (decide (a = b)) as [<-|Hne]; [by exists cs1, c1, st1|]. exfalso.
  destruct (torre_multiple (S a) (cs1 ++ c1) (A (length cs1) c1 false :: st1)) as [q Hq];
    [econstructor; [|done..]; lia|].
  rewrite Hq, Nat2Z.inj_add, Hcz, Nat2Z.inj_mul, pow2_nat_S in Htot.
  assert (total = 2 * Z.of_nat q + 1) by (apply (Z.mul_reg_r _ _ (2 ^ Z.of_nat a)); lia). lia.
Qed.

(** An odd count: every subtree of the stack is larger. *)
Lemma torre_impar a cs (c : list (list Z)) st total :
  torre a cs st -> length c = (2 ^ a)%nat ->
  total * 2 ^ Z.of_nat a = Z.of_nat (length cs + length c) -> total mod 2 <> 0 ->
  torre (S a) cs st.
Proof.
  intros Ht Hc Htot Ho. assert (HA : 0 < 2 ^ Z.of_nat a) by (apply Z.pow_pos_nonneg; lia).
  assert (Hcz : Z.of_nat (length c) = 2 ^ Z.of_nat a) by (rewrite Hc, Nat2Z.inj_pow; done).
  destruct Ht as [a|a b cs1 c1 st1 Hab Ht1 Hc1]; [constructor|].
  destruct (decide (a = b)) as [<-|Hne]; [exfalso|econstructor; [|done..]; lia].
  destruct (torre_multiple _ _ _ Ht1) as [q Hq].
  rewrite length_app, Hq, Hc1, !Nat2Z.inj_add, Hcz, Nat2Z.inj_mul, pow2_nat_S, Nat2Z.inj_pow in Htot.
  change (Z.of_nat 2) with 2 in Htot. apply Ho. apply Zmod_divides; [lia|]. exists (Z.of_nat q + 1).
  apply (Z.mul_reg_r _ _ (2 ^ Z.of_nat a)); lia.
Qed.

Lemma sube_torre a cs st : torre a cs st -> forall c,
  c <> [] -> (length c <= 2 ^ a)%nat -> st <> [] ->
  sube P st (A (length cs) c false) = A 0 (cs ++ c) true.
Proof.
  induction 1 as [a|a b cs c0 st Hab Ht IH Hc0]; intros c Hne Hle Hst; [by destruct Hst|].
  assert (Hcb : (length c <= 2 ^ b)%nat)
    by (etrans; [exact Hle|]; apply Nat.pow_le_mono_r; lia).
  rewrite sube_cons, length_app, <- app_assoc.
  rewrite <- (A_dos (length cs) c0 c b _ Hc0 Hne Hcb).
  destruct st as [|v st].
  - inversion Ht as [a0 Ha0 Hcs0|]. exact eq_refl.
  - apply IH; [|rewrite length_app, Nat.pow_succ_r'; lia|discriminate].
    intros [_ E]%app_eq_nil. exact (Hne E).
Qed.

(** One closed subtree of level [a] goes in: the pops are the carries of the
    binary counter of chunks. *)
Lemma push_con_spec fuel : forall a cs c st n total,
  torre a cs (rev (take n st)) -> (n <= length st)%nat -> length st = 54%nat ->
  length c = (2 ^ a)%nat ->
  total * 2 ^ Z.of_nat a = Z.of_nat (length cs + length c) ->
  0 < total < 2 ^ Z.of_nat fuel ->
  Z.of_nat (length cs + length c) < 2 ^ 54 ->
  exists st' n', push_con P fuel st n (A (length cs) c false) total = Some (st', n') /\
    (n' <= 54)%nat /\ length st' = 54%nat /\ torre 0 (cs ++ c) (rev (take n' st')).
Proof.
  induction fuel as [|fuel IH]; intros a cs c st n total Ht Hn Hst Hc Htot Hpos Hmax.
  { change (2 ^ Z.of_nat 0) with 1 in Hpos. lia. }
  cbn [push_con]. destruct (Z.land total 1 =? 0) eqn:Ee.
  - apply total_even in Ee; [|lia].
    destruct (torre_par a cs c (rev (take n st)) total Ht Hc Htot Ee)
      as (cs1 & c1 & st1 & Hcs & Hst1 & Ht1 & Hc1). subst cs.
    destruct n as [|m]; [discriminate|].
    destruct (lookup_lt_is_Some_2 st m ltac:(lia)) as [v Hv].
    rewrite (rev_take_S _ _ v Hv) in Hst1. injection Hst1 as -> <-.
    rewrite (list_lookup_total_correct _ _ _ Hv), length_app.
    rewrite <- (A_dos (length cs1) c1 c a false Hc1 (not_nil_pow c a Hc)) by lia.
    rewrite <- app_assoc. apply (IH (S a)); try done; try lia.
    + rewrite length_app, Nat.pow_succ_r'. lia.
    + rewrite Z.shiftr_div_pow2 by done. change (2 ^ 1) with 2.
      rewrite Nat2Z.inj_succ, Z.pow_succ_r, length_app in * by lia. lia.
    + rewrite Z.shiftr_div_pow2 by done. rewrite Nat2Z.inj_succ, Z.pow_succ_r in Hpos by lia. lia.
    + rewrite !length_app in *. lia.
  - assert (Ho : total mod 2 <> 0) by (intros E; apply total_even in E; [congruence|lia]).
    assert (Ht' : torre 0 (cs ++ c) (A (length cs) c false :: rev (take n st)))
      by (apply (torre_cons 0 a); [lia|exact (torre_impar a cs c _ total Ht Hc Htot Ho)|done]).
    assert (Hn54 : (n < 54)%nat).
    { pose proof (torre_altura _ _ _ Ht') as H. rewrite length_app in H. cbn [length] in H.
      rewrite length_rev, length_take, Nat.min_l in H by lia.
      change (2 ^ Z.of_nat 0) with 1 in H.
      destruct (decide (n < 54)%nat); [done|]. exfalso.
      assert (2 ^ 55 <= 2 ^ Z.of_nat (S n)) by (apply Z.pow_le_mono_r; lia). lia. }
    rewrite (proj2 (Nat.ltb_lt n (length st))) by lia.
    exists (<[n := A (length cs) c false]> st), ((n + 1) mod 256)%nat.
    rewrite Nat.mod_small by lia. split; [done|]. split; [lia|].
    split; [by rewrite length_insert|]. rewrite Nat.add_1_r.
    rewrite (rev_take_S _ _ (A (length cs) c false)) by (apply list_lookup_insert_eq; lia).
    rewrite take_insert_ge by lia. exact Ht'.
Qed.
End Torre.

(** ** The hasher *)

(** The hasher has been fed [bytes]. *)
Definition hrep (bytes : list Z) (h : Hasher) : Prop :=
  exists cs c, bytes = concat cs ++ c /\ piezas CHUNK_LEN cs c /\
    crep (length cs) c (chunk h) /\ length (cv_stack h) = 54%nat /\ (cv_stack_len h <= 54)%nat /\
    torre arbol 0 cs (rev (take (cv_stack_len h) (cv_stack h))).

Lemma hrep_new : hrep [] new.
Proof.
  exists [], []. split; [done|]. split; [split; [done|split; [simpl; lia|done]]|].
  split; [apply crep_new|]. split; [done|]. split; [simpl; lia|]. constructor.
Qed.

Lemma push_cv_spec h k cs c cv :
  torre arbol 0 cs (rev (take (cv_stack_len h) (cv_stack h))) ->
  length (cv_stack h) = 54%nat -> (cv_stack_len h <= 54)%nat ->
  cv = arbol (length cs) [c] false -> k = Z.of_nat (length cs) + 1 -> k < 2 ^ 54 ->
  exists h', push_cv h cv k = Some h' /\ length (cv_stack h') = 54%nat /\
    (cv_stack_len h' <= 54)%nat /\ torre arbol 0 (cs ++ [c]) (rev (take (cv_stack_len h') (cv_stack h'))).
Proof.
  intros Ht Hst Hn -> -> Hk. unfold push_cv, push_loop.
  destruct (push_con_spec padre arbol arbol_dos 65 0 cs [c] (cv_stack h) (cv_stack_len h)
    (Z.of_nat (length cs) + 1) Ht) as (st' & n' & -> & H1 & H2 & H3);
    [lia|done|done|simpl; lia|change (Z.of_nat 65) with 65; lia|simpl; lia|].
  by exists (mkHasher (chunk h) st' n').
Qed.

(** A full chunk is closed, once and only when more input arrives. *)
Lemma cierra_rep bytes h :
  hrep bytes h -> Z.of_nat (length bytes) < 2 ^ 64 ->
  exists h' cs c, cierra_trozo h = Some h' /\ bytes = concat cs ++ c /\
    Forall (fun q => length q = CHUNK_LEN) cs /\ (length c < CHUNK_LEN)%nat /\
    crep (length cs) c (chunk h') /\ length (cv_stack h') = 54%nat /\ (cv_stack_len h' <= 54)%nat /\
    torre arbol 0 cs (rev (take (cv_stack_len h') (cv_stack h'))).
Proof.
  intros (cs & c & -> & (Hf & Hc & Hne) & Hcr & Hst & Hn & Ht) Hlen. unfold cierra_trozo.
  rewrite (crep_len _ _ _ Hcr). destruct (Nat.eqb_spec (length c) CHUNK_LEN) as [E|E].
  - rewrite length_app, (concat_len _ _ Hf), E in Hlen. unfold CHUNK_LEN in Hlen.
    rewrite (cr_counter _ _ _ Hcr), (output_rep _ _ _ _ Hcr), w64_small by (unfold is_u64; lia).
    destruct (push_cv_spec h (Z.of_nat (length cs) + 1) cs c (chunk_cv (length cs) c false) Ht Hst Hn)
      as (h' & -> & H1 & H2 & H3); [exact (eq_sym (arbol_uno _ _ _))|done|lia|].
    cbn [mbind option_bind].
    exists (mkHasher (new_chunk IV (Z.of_nat (length cs) + 1) 0) (cv_stack h') (cv_stack_len h')).
    exists (cs ++ [c]), []. cbn [chunk cv_stack cv_stack_len].
    split; [done|]. split; [by rewrite concat_app; cbn [concat]; rewrite !app_nil_r|].
    split; [by apply Forall_app; split; [|constructor]|]. split; [simpl; unfold CHUNK_LEN; lia|].
    split; [|done]. rewrite length_app. cbn [length].
    replace (Z.of_nat (length cs) + 1) with (Z.of_nat (length cs + 1)) by lia. apply crep_new.
  - exists h, cs, c. assert (Hlt : (length c < CHUNK_LEN)%nat) by lia. by split_and!.
Qed.

Lemma update_loop_rep fuel : forall bytes input h,
  hrep bytes h -> (length input <= fuel)%nat -> Z.of_nat (length (bytes ++ input)) < 2 ^ 64 ->
  exists h', update_loop fuel h input = Some h' /\ hrep (bytes ++ input) h'.
Proof.
  induction fuel as [|fuel IH]; intros bytes input h Hh Hf Hlen.
  { destruct input; [|simpl in Hf; lia]. exists h. by rewrite app_nil_r. }
  destruct input as [|x input]; [exists h; by rewrite app_nil_r|].
  cbn [update_loop]. set (inp := x :: input) in *.
  assert (Hpos : (0 < length inp)%nat) by (unfold inp; simpl; lia). clearbody inp.
  destruct (cierra_rep bytes h Hh) as (h1 & cs & c & -> & Hb & Hfull & Hlt & Hcr & Hst & Hn & Ht).
  { rewrite length_app in Hlen. lia. }
  cbn [mbind option_bind]. rewrite (crep_len _ _ _ Hcr).
  set (n := Nat.min (CHUNK_LEN - length c) (length inp)).
  assert (Htk : length (take n inp) = n) by (rewrite length_take; lia).
  destruct (IH (bytes ++ take n inp) (drop n inp)
    (mkHasher (chunk_update n (chunk h1) (take n inp)) (cv_stack h1) (cv_stack_len h1)))
    as (h' & E & Hh').
  - exists cs, (c ++ take n inp). cbn [chunk cv_stack cv_stack_len].
    split; [by rewrite Hb, <- app_assoc|].
    split; [split; [done|]; split; [rewrite length_app; lia|]|].
    { intros _ E. apply (f_equal length) in E. rewrite length_app, Htk in E. cbn [length] in E. lia. }
    split; [apply chunk_update_rep; [done|lia|lia]|done].
  - rewrite length_drop. lia.
  - rewrite <- app_assoc, take_drop. done.
  - exists h'. split; [exact E|]. by rewrite <- app_assoc, take_drop in Hh'.
Qed.

Lemma update_rep bytes input h :
  hrep bytes h -> Z.of_nat (length (bytes ++ input)) < 2 ^ 64 ->
  exists h', update h input = Some h' /\ hrep (bytes ++ input) h'.
Proof. intros Hh Hlen. by apply update_loop_rep. Qed.

Lemma finalize_rep bytes h : hrep bytes h -> finalize h = hash_ref bytes.
Proof.
  intros (cs & c & -> & Hp & Hcr & Hst & Hn & Ht). unfold finalize, hash_ref.
  rewrite parte_piezas by (done || unfold CHUNK_LEN; lia).
  rewrite !(output_rep _ _ _ _ Hcr).
  destruct (Nat.eqb_spec (cv_stack_len h) 0) as [E|E].
  - rewrite E in Ht. inversion Ht; subst. exact eq_refl.
  - f_equal. unfold finalize_loop. rewrite finalize_sube by lia.
    rewrite <- (arbol_uno (length cs) c false).
    apply (sube_torre padre arbol arbol_dos 0 cs); [done|done|simpl; lia|].
    intros Er. apply (f_equal length) in Er.
    rewrite length_rev, length_take, Hst in Er. cbn [length] in Er. lia.
Qed.

Lemma hash_total bytes : Z.of_nat (length bytes) < 2 ^ 64 -> hash bytes = Some (hash_ref bytes).
Proof.
  intros Hlen. destruct (update_rep [] bytes new hrep_new Hlen) as (h & E & Hh).
  unfold hash. rewrite E. cbn [mbind option_bind]. by rewrite (finalize_rep _ _ Hh).
Qed.

(** Several calls of [update]. *)
Fixpoint alimenta (h : Hasher) (ps : list (list Z)) : option Hasher :=
  match ps with
  | [] => Some h
  | p :: ps => h ← update h p; alimenta h ps
  end.

Lemma alimenta_rep ps : forall bytes h,
  hrep bytes h -> Z.of_nat (length (bytes ++ concat ps)) < 2 ^ 64 ->
  exists h', alimenta h ps = Some h' /\ hrep (bytes ++ concat ps) h'.
Proof.
  induction ps as [|p ps IH]; intros bytes h Hh Hlen; cbn [alimenta concat] in *.
  { exists h. by rewrite app_nil_r. }
  destruct (update_rep bytes p h Hh) as (h1 & -> & H1).
  { rewrite !length_app in *. lia. }
  cbn [mbind option_bind]. rewrite app_assoc in *. by apply IH.
Qed.

(** C17: however the input is cut between calls of [update], and whatever its
    length below 2^64, the hasher never leaves its stack of 54 and its answer
    is the BLAKE3 tree over the whole input: chunks of 1024 bytes, blocks of
    64, left subtrees of the largest power of two, the root flag at the root
    only.  In particular [hash] is that tree. *)
Theorem hash_is_blake3_tree ps :
  Z.of_nat (length (concat ps)) < 2 ^ 64 ->
  exists h, alimenta new ps = Some h /\ finalize h = hash_ref (concat ps) /\
    hash (concat ps) = Some (finalize h).
Proof.
  intros Hlen. destruct (alimenta_rep ps [] new hrep_new Hlen) as (h & E & Hh).
  exists h. split; [exact E|]. rewrite (hash_total _ Hlen), (finalize_rep _ _ Hh). done.
Qed.

(** The official vectors, whose input is 0, 1, ..., 250, 0, 1, ... *)
Definition entrada (n : nat) : list Z := (fun i => Z.of_nat i mod 251) <$> seq 0 n.

Definition hexa (l : list Z) : Z := foldl (fun a b => a * 256 + b) 0 l.

Example vectores_oficiales :
  (fun n => hexa <$> hash (entrada n)) <$> [0; 1; 63; 64; 65; 1023; 1024; 1025; 2049; 3072]%nat =
  Some <$> [0xaf1349b9f5f9a1a6a0404dea36dcc9499bcb25c9adc112b7cc9a93cae41f3262;
            0x2d3adedff11b61f14c886e35afa036736dcd87a74d27b5c1510225d0f592e213;
            0xe9bc37a594daad83be9470df7f7b3798297c3d834ce80ba85d6e207627b7db7b;
            0x4eed7141ea4a5cd4b788606bd23f46e212af9cacebacdc7d1f4c6dc7f2511b98;
            0xde1e5fa0be70df6d2be8fffd0e99ceaa8eb6e8c93a63f2d8d1c30ecb6b263dee;
            0x10108970eeda3eb932baac1428c7a2163b0e924c9a9e25b35bba72b28f70bd11;
            0x42214739f095a406f3fc83deb889744ac00df831c10daa55189b5d121c855af7;
            0xd00278ae47eb27b34faecf67b4fe263f82d5412916c1ffd97c8cb7fb814b8444;
            0x5f4d72f40d7a5f82b15ca2b2e44b1de3c2ef86c426c95c1af0b6879522563030;
            0xb98cb0ff3623be03326b373de6b9095218513e64f1ee2edd2525c7ad1e5cffd2].
Proof. vm_compute. reflexivity. Qed.

Lemma hash_is_blake3_tree_witness :
  exists h, alimenta new [entrada 40; entrada 30] = Some h /\
    finalize h = hash_ref (entrada 40 ++ entrada 30).
Proof.
  destruct (hash_is_blake3_tree [entrada 40; entrada 30] ltac:(reflexivity)) as (h & E & Hf & _).
  exists h. split; [exact E|].
  transitivity (hash_ref (concat [entrada 40; entrada 30])); [exact Hf|].
  f_equal.
Defined.
