(* ===== verification/Formato.v ===== *)
(** The on-disk format of ESTRATOS: pointers, attributes, nodes, directory
    entries, strata and the superblock, with their encoders and decoders.
    Source: src/platform/drivers/storage/estratos/src/{lib,objects}.rs.

    A buffer is a list of bytes; [[u8; N]] is a list of length [N], filled with
    [put] where the code uses [copy_from_slice] and read with [slice].  A [&str]
    is the list of its UTF-8 bytes. *)

From S2P Require Import Prelude Blake3.

Definition Hash : Type := list Z.
Definition NO_HASH : Hash := replicate 32 0.

(** [bmo_hash::hash]; a buffer of 2^64 bytes, where it would panic, cannot
    exist. *)
Definition blake3 (b : list Z) : Hash := default [] (Blake3.hash b).

Definition MAGIC : list Z := [0x45; 0x53; 0x54; 0x52; 0x41; 0x54; 0x4F; 0x53].
Definition VERSION : Z := 1.
Definition BLOCK_SIZE : Z := 4096.
Definition SUPER_LEN : nat := 512.
Definition SUPER_A_BLOCK : Z := 0.
Definition SUPER_B_BLOCK : Z := 1.

Inductive FormatError :=
| ShortBuffer | BadMagic | BadVersion | BadChecksum | BadField | Io | SinScratch.
#[export] Instance FormatError_eq_dec : EqDecision FormatError.
Proof. solve_decision. Defined.

(** * objects.rs *)

Definition BLOQUE : nat := 4096.
Definition PTR_LEN : nat := 48.
Definition PTRS_POR_BLOQUE : nat := 85.

Record BlockPtr := mkPtr { lba : Z; off : Z; len : Z; hash : Hash }.
#[export] Instance BlockPtr_eq_dec : EqDecision BlockPtr.
Proof. solve_decision. Defined.

Definition NULO : BlockPtr := mkPtr 0 0 0 NO_HASH.
#[export] Instance BlockPtr_inhabited : Inhabited BlockPtr := populate NULO.

Definition ptr_nuevo (l o : Z) (datos : list Z) : BlockPtr :=
  mkPtr l o (w32 (Z.of_nat (length datos))) (blake3 datos).

Definition es_nulo (p : BlockPtr) : bool := (len p =? 0) && (lba p =? 0).

Definition verifica (p : BlockPtr) (datos : list Z) : bool :=
  (Z.of_nat (length datos) =? len p) && bool_decide (blake3 datos = hash p).

Definition ptr_encode (p : BlockPtr) : list Z :=
  let b := replicate PTR_LEN 0 in
  let b := put 0 (le 8 (lba p)) b in
  let b := put 8 (le 4 (off p)) b in
  let b := put 12 (le 4 (len p)) b in
  put 16 (hash p) b.

Definition ptr_decode (b : list Z) : result BlockPtr FormatError :=
  if (length b <? PTR_LEN)%nat then Err ShortBuffer else
  let o := of_le (slice 8 4 b) in
  let n := of_le (slice 12 4 b) in
  if Z.of_nat BLOQUE <? o + n then Err BadField else
  Ok (mkPtr (of_le (slice 0 8 b)) o n (slice 16 32 b)).

Definition ATTR_LEN : nat := 128.
Definition ATTR_NOMBRE_LEN : nat := 16.
Definition RESIDENTE_MAX : nat := 96.
Definition ATTR_RESIDENTE : Z := Z.shiftl 1 0.
Definition NIVELES_MAX : nat := 4.

(** [":datos"] and [":entradas"]. *)
Definition ATTR_DATOS : list Z := [0x3A; 0x64; 0x61; 0x74; 0x6F; 0x73].
Definition ATTR_ENTRADAS : list Z := [0x3A; 0x65; 0x6E; 0x74; 0x72; 0x61; 0x64; 0x61; 0x73].
Definition ATTR_FIRMA : list Z := [0x3A; 0x66; 0x69; 0x72; 0x6D; 0x61].

Record Attr := mkAttr {
  a_name : list Z; a_nombre_len : nat; a_size : Z; a_levels : Z;
  a_residente : bool; a_cuerpo : list Z; a_raiz : BlockPtr
}.

Definition nombre_a_bytes (name : list Z) : result (list Z * nat) FormatError :=
  match name with
  | [] => Err BadField
  | _ => if (ATTR_NOMBRE_LEN <? length name)%nat then Err BadField
         else Ok (put 0 name (replicate ATTR_NOMBRE_LEN 0), length name)
  end.

Definition attr_residente (name datos : list Z) : result Attr FormatError :=
  if (RESIDENTE_MAX <? length datos)%nat then Err BadField else
  n <-? nombre_a_bytes name ;;
  Ok (mkAttr (fst n) (snd n) (Z.of_nat (length datos)) 0 true
        (put 0 datos (replicate RESIDENTE_MAX 0)) NULO).

Definition en_bloques (name : list Z) (size levels : Z) (raiz : BlockPtr) : result Attr FormatError :=
  n <-? nombre_a_bytes name ;;
  if Z.of_nat NIVELES_MAX <? levels then Err BadField else
  Ok (mkAttr (fst n) (snd n) size levels false (replicate RESIDENTE_MAX 0) raiz).

(** [core::str::from_utf8(b).is_ok()]: the well-formed sequences of the
    Unicode standard. *)
Definition cont (x : Z) : bool := (0x80 <=? x) && (x <=? 0xBF).
Fixpoint utf8 (fuel : nat) (b : list Z) : bool :=
  match fuel with
  | O => match b with [] => true | _ => false end
  | S f =>
      match b with
      | [] => true
      | x :: r =>
          if x <=? 0x7F then utf8 f r
          else match r with
          | y :: r2 =>
              if (0xC2 <=? x) && (x <=? 0xDF) && cont y then utf8 f r2
              else match r2 with
              | z :: r3 =>
                  if ((x =? 0xE0) && (0xA0 <=? y) && (y <=? 0xBF)
                      || (0xE1 <=? x) && (x <=? 0xEC) && cont y
                      || (x =? 0xED) && (0x80 <=? y) && (y <=? 0x9F)
                      || (0xEE <=? x) && (x <=? 0xEF) && cont y) && cont z
                  then utf8 f r3
                  else match r3 with
                  | w :: r4 =>
                      if ((x =? 0xF0) && (0x90 <=? y) && (y <=? 0xBF)
                          || (0xF1 <=? x) && (x <=? 0xF3) && cont y
                          || (x =? 0xF4) && (0x80 <=? y) && (y <=? 0x8F)) && cont z && cont w
                      then utf8 f r4 else false
                  | [] => false
                  end
              | [] => false
              end
          | [] => false
          end
      end
  end.
Definition utf8_or_empty (b : list Z) : list Z := if utf8 (length b) b then b else [].

Definition attr_nombre_str (a : Attr) : list Z := utf8_or_empty (take (a_nombre_len a) (a_name a)).

Definition datos_residentes (a : Attr) : option (list Z) :=
  if a_residente a then Some (take (Z.to_nat (a_size a)) (a_cuerpo a)) else None.
Definition attr_raiz (a : Attr) : option BlockPtr := if a_residente a then None else Some (a_raiz a).

Definition attr_encode (a : Attr) : list Z :=
  let b := replicate ATTR_LEN 0 in
  let b := put 0 (a_name a) b in
  let b := put 16 (le 8 (a_size a)) b in
  let b := put 24 [a_levels a] b in
  let b := put 25 [if a_residente a then ATTR_RESIDENTE else 0] b in
  if a_residente a then put 32 (a_cuerpo a) b else put 32 (ptr_encode (a_raiz a)) b.

(** [iter().position(|&c| c == 0).unwrap_or(n)]. *)
Definition hasta_cero (b : list Z) (n : nat) : nat := default n (position (fun c => c =? 0) b).

Definition attr_decode (b : list Z) : result Attr FormatError :=
  if (length b <? ATTR_LEN)%nat then Err ShortBuffer else
  let name := slice 0 ATTR_NOMBRE_LEN b in
  let nombre_len := hasta_cero name ATTR_NOMBRE_LEN in
  let size := of_le (slice 16 8 b) in
  let levels := b !!! 24%nat in
  if negb (Z.land (b !!! 25%nat) ATTR_RESIDENTE =? 0) then
    if Z.of_nat RESIDENTE_MAX <? size then Err BadField
    else if negb (levels =? 0) then Err BadField
    else Ok (mkAttr name nombre_len size levels true (slice 32 RESIDENTE_MAX b) NULO)
  else
    if Z.of_nat NIVELES_MAX <? levels then Err BadField else
    raiz <-? ptr_decode (slice 32 PTR_LEN b) ;;
    Ok (mkAttr name nombre_len size levels false (replicate RESIDENTE_MAX 0) raiz).

(** [u64::saturating_mul]. *)
Definition saturating_mul (a b : Z) : Z := Z.min (a * b) (2 ^ 64 - 1).

Fixpoint capacity (levels : nat) : Z :=
  match levels with
  | O => Z.of_nat BLOQUE
  | S l => saturating_mul (capacity l) (Z.of_nat PTRS_POR_BLOQUE)
  end.

(** [for l in 0..=NIVELES_MAX]. *)
Fixpoint niveles_desde (l n : nat) (size : Z) : option Z :=
  match n with
  | O => None
  | S n => if size <=? capacity l then Some (Z.of_nat l) else niveles_desde (S l) n size
  end.
Definition niveles_para (size : Z) : option Z := niveles_desde 0 (S NIVELES_MAX) size.

Definition ATTRS_MAX : nat := 4.
Definition NODO_LEN : nat := 560.
Definition NODO_MAGIC : list Z := [0x4E; 0x4F; 0x44; 0x4F].
Definition OFF_N_ATTRS : nat := 16.
Definition OFF_N_SUM : nat := 528.

Inductive Tipo := Archivo | Directorio.
Record Nodo := mkNodo { tipo : Tipo; attrs : list (option Attr) }.

Definition nodo_nuevo (t : Tipo) : Nodo := mkNodo t (replicate ATTRS_MAX None).

Definition flatten {A} (l : list (option A)) : list A := l ≫= option_list.

Definition attr (n : Nodo) (name : list Z) : option Attr :=
  List.find (fun a => bool_decide (attr_nombre_str a = name)) (flatten (attrs n)).

Definition con (n : Nodo) (a : Attr) : result Nodo FormatError :=
  match attr n (attr_nombre_str a) with
  | Some _ => Err BadField
  | None =>
      match position (fun s => match s with None => true | Some _ => false end) (attrs n) with
      | Some i => Ok (mkNodo (tipo n) (<[i := Some a]> (attrs n)))
      | None => Err BadField
      end
  end.

Definition tiene_firma (n : Nodo) : bool :=
  match attr n ATTR_FIRMA with Some _ => true | None => false end.

Fixpoint pon_attrs (o : nat) (l : list Attr) (b : list Z) : list Z :=
  match l with
  | [] => b
  | a :: l => pon_attrs (o + ATTR_LEN) l (put o (attr_encode a) b)
  end.

(** Everything but the sum. *)
Definition nodo_campos (n : Nodo) : list Z :=
  let b := replicate NODO_LEN 0 in
  let b := put 0 NODO_MAGIC b in
  let b := put 4 [match tipo n with Archivo => 0 | Directorio => 1 end] b in
  let b := put 5 [w8 (Z.of_nat (length (flatten (attrs n))))] b in
  pon_attrs OFF_N_ATTRS (flatten (attrs n)) b.

Definition nodo_encode (n : Nodo) : list Z :=
  let b := nodo_campos n in
  put OFF_N_SUM (blake3 (slice 0 OFF_N_SUM b)) b.

(** [for i in 0..n { attrs[i] = Some(decode(..)?) }]. *)
Fixpoint lee_attrs (b : list Z) (i n : nat) : result (list Attr) FormatError :=
  match n with
  | O => Ok []
  | S n => a <-? attr_decode (slice (OFF_N_ATTRS + i * ATTR_LEN) ATTR_LEN b) ;;
           l <-? lee_attrs b (S i) n ;; Ok (a :: l)
  end.

Definition nodo_decode (b : list Z) : result Nodo FormatError :=
  if (length b <? NODO_LEN)%nat then Err ShortBuffer
  else if negb (bool_decide (slice 0 4 b = NODO_MAGIC)) then Err BadMagic
  else if negb (bool_decide (slice OFF_N_SUM 32 b = blake3 (slice 0 OFF_N_SUM b))) then Err BadChecksum
  else
    t <-? (if b !!! 4%nat =? 0 then Ok Archivo
           else if b !!! 4%nat =? 1 then Ok Directorio else Err BadField) ;;
    let n := Z.to_nat (b !!! 5%nat) in
    if (ATTRS_MAX <? n)%nat then Err BadField else
    l <-? lee_attrs b 0 n ;;
    Ok (mkNodo t ((Some <$> l) ++ replicate (ATTRS_MAX - n) None)).

Definition ENTRADA_LEN : nat := 112.
Definition NOMBRE_MAX : nat := 63.

Record Entrada := mkEntrada { e_name : list Z; e_nombre_len : nat; nodo : BlockPtr }.

Definition entrada_nueva (name : list Z) (n : BlockPtr) : result Entrada FormatError :=
  match name with
  | [] => Err BadField
  | _ => if (NOMBRE_MAX <? length name)%nat then Err BadField
         else Ok (mkEntrada (put 0 name (replicate NOMBRE_MAX 0)) (length name) n)
  end.

Definition e_nombre_str (e : Entrada) : list Z := utf8_or_empty (take (e_nombre_len e) (e_name e)).

Definition baja (c : Z) : Z :=
  if (0x41 <=? c) && (c <=? 0x5A) then w8 (c + 32)
  else if (0xC0 <=? c) && (c <=? 0xDE) && negb (c =? 0xD7) then w8 (c + 32)
  else c.

Definition se_llama (e : Entrada) (otro : list Z) : bool :=
  let a := take (e_nombre_len e) (e_name e) in
  if negb (Nat.eqb (length a) (length otro)) then false
  else forallb (fun '(x, y) => baja x =? baja y) (zip a otro).

Definition entrada_encode (e : Entrada) : list Z :=
  let b := replicate ENTRADA_LEN 0 in
  let b := put 0 [w8 (Z.of_nat (e_nombre_len e))] b in
  let b := put 1 (e_name e) b in
  put 64 (ptr_encode (nodo e)) b.

Definition entrada_decode (b : list Z) : result Entrada FormatError :=
  if (length b <? ENTRADA_LEN)%nat then Err ShortBuffer else
  let nombre_len := Z.to_nat (b !!! 0%nat) in
  if Nat.eqb nombre_len 0 || (NOMBRE_MAX <? nombre_len)%nat then Err BadField else
  p <-? ptr_decode (slice 64 PTR_LEN b) ;;
  Ok (mkEntrada (slice 1 NOMBRE_MAX b) nombre_len p).

(** * lib.rs *)

(** [disk_id]: [None] cannot happen, the hasher is fed far less than 2^64. *)
Definition disk_id (model serial : list Z) (blocks : Z) : option Hash :=
  h ← Blake3.update Blake3.new model;
  h ← Blake3.update h [0];
  h ← Blake3.update h serial;
  h ← Blake3.update h [0];
  h ← Blake3.update h (le 8 blocks);
  Some (Blake3.finalize h).

Record Superblock := mkSuper {
  version : Z; block_size : Z; generation : Z; total_blocks : Z; log_head : Z;
  s_disk_id : Hash; estrato : BlockPtr
}.
#[export] Instance Superblock_eq_dec : EqDecision Superblock.
Proof. solve_decision. Defined.

Definition super_new (disk : Hash) (total : Z) : Superblock :=
  mkSuper VERSION BLOCK_SIZE 1 total 2 disk NULO.

Definition OFF_VERSION : nat := 8.
Definition OFF_BLOCK_SIZE : nat := 12.
Definition OFF_GENERATION : nat := 16.
Definition OFF_TOTAL_BLOCKS : nat := 24.
Definition OFF_LOG_HEAD : nat := 32.
Definition OFF_DISK_ID : nat := 40.
Definition OFF_ESTRATO : nat := 72.
Definition OFF_SUPER_SUM : nat := 480.

(** Everything but the sum. *)
Definition super_campos (s : Superblock) : list Z :=
  let b := replicate SUPER_LEN 0 in
  let b := put 0 MAGIC b in
  let b := put OFF_VERSION (le 4 (version s)) b in
  let b := put OFF_BLOCK_SIZE (le 4 (block_size s)) b in
  let b := put OFF_GENERATION (le 8 (generation s)) b in
  let b := put OFF_TOTAL_BLOCKS (le 8 (total_blocks s)) b in
  let b := put OFF_LOG_HEAD (le 8 (log_head s)) b in
  let b := put OFF_DISK_ID (s_disk_id s) b in
  put OFF_ESTRATO (ptr_encode (estrato s)) b.

Definition super_encode (s : Superblock) : list Z :=
  let b := super_campos s in
  put OFF_SUPER_SUM (blake3 (slice 0 OFF_SUPER_SUM b)) b.

Definition super_decode (b : list Z) : result Superblock FormatError :=
  if (length b <? SUPER_LEN)%nat then Err ShortBuffer
  else if negb (bool_decide (slice 0 8 b = MAGIC)) then Err BadMagic
  else
    let v := of_le (slice 8 4 b) in
    if negb (v =? VERSION) then Err BadVersion
    else if negb (bool_decide (slice OFF_SUPER_SUM 32 b = blake3 (slice 0 OFF_SUPER_SUM b)))
    then Err BadChecksum
    else
      let bs := of_le (slice 12 4 b) in
      if negb (bs =? BLOCK_SIZE) then Err BadField else
      let gen := of_le (slice OFF_GENERATION 8 b) in
      let total := of_le (slice OFF_TOTAL_BLOCKS 8 b) in
      let head := of_le (slice OFF_LOG_HEAD 8 b) in
      if (head <? 2) || (negb (total =? 0) && (total <? head)) then Err BadField else
      e <-? ptr_decode (slice OFF_ESTRATO PTR_LEN b) ;;
      Ok (mkSuper v bs gen total head (slice OFF_DISK_ID 32 b) e).

Definition belongs_to (s : Superblock) (disk : Hash) : bool := bool_decide (s_disk_id s = disk).
Definition is_empty (s : Superblock) : bool := es_nulo (estrato s).

Definition pick_superblock (a b : list Z) : result (Superblock * Z) FormatError :=
  match super_decode a, super_decode b with
  | Ok sa, Ok sb =>
      if generation sb <=? generation sa then Ok (sa, SUPER_A_BLOCK) else Ok (sb, SUPER_B_BLOCK)
  | Ok sa, Err _ => Ok (sa, SUPER_A_BLOCK)
  | Err _, Ok sb => Ok (sb, SUPER_B_BLOCK)
  | Err e, Err _ => Err e
  end.

Definition next_super_block (current : Z) : Z :=
  if current =? SUPER_A_BLOCK then SUPER_B_BLOCK else SUPER_A_BLOCK.

Definition ESTRATO_LEN : nat := 224.
Definition OFF_E_PADRE : nat := 48.
Definition OFF_E_TIEMPO : nat := 96.
Definition OFF_E_AUTOR : nat := 104.
Definition OFF_E_PID : nat := 108.
Definition OFF_E_MOTIVO : nat := 112.
Definition MOTIVO_LEN : nat := 64.
Definition OFF_E_SUM : nat := 192.

Inductive Autor := Kernel | Proceso (pid : Z) | Herramienta.

Definition autor_code (a : Autor) : Z := match a with Kernel => 0 | Proceso _ => 1 | Herramienta => 2 end.
Definition autor_pid (a : Autor) : Z := match a with Proceso p => p | _ => 0 end.
Definition autor_from (code pid : Z) : Autor :=
  if code =? 1 then Proceso pid else if code =? 2 then Herramienta else Kernel.

Record Estrato := mkEstrato {
  raiz : BlockPtr; padre : BlockPtr; tiempo : Z; autor : Autor; motivo : list Z
}.

Definition estrato_new (r p : BlockPtr) (t : Z) (a : Autor) (m : list Z) : Estrato :=
  mkEstrato r p t a (put 0 (take (Nat.min (length m) MOTIVO_LEN) m) (replicate MOTIVO_LEN 0)).

Definition motivo_str (e : Estrato) : list Z :=
  utf8_or_empty (take (hasta_cero (motivo e) MOTIVO_LEN) (motivo e)).
Definition con_nombre (e : Estrato) : bool := negb (motivo e !!! 0%nat =? 0).

(** Everything but the sum. *)
Definition estrato_campos (e : Estrato) : list Z :=
  let b := replicate ESTRATO_LEN 0 in
  let b := put 0 (ptr_encode (raiz e)) b in
  let b := put OFF_E_PADRE (ptr_encode (padre e)) b in
  let b := put OFF_E_TIEMPO (le 8 (tiempo e)) b in
  let b := put OFF_E_AUTOR (le 4 (autor_code (autor e))) b in
  let b := put OFF_E_PID (le 4 (autor_pid (autor e))) b in
  put OFF_E_MOTIVO (motivo e) b.

Definition estrato_encode (e : Estrato) : list Z :=
  let b := estrato_campos e in
  put OFF_E_SUM (blake3 (slice 0 OFF_E_SUM b)) b.

Definition estrato_decode (b : list Z) : result Estrato FormatError :=
  if (length b <? ESTRATO_LEN)%nat then Err ShortBuffer
  else if negb (bool_decide (slice OFF_E_SUM 32 b = blake3 (slice 0 OFF_E_SUM b))) then Err BadChecksum
  else
    r <-? ptr_decode (slice 0 PTR_LEN b) ;;
    p <-? ptr_decode (slice OFF_E_PADRE PTR_LEN b) ;;
    Ok (mkEstrato r p (of_le (slice OFF_E_TIEMPO 8 b))
          (autor_from (of_le (slice OFF_E_AUTOR 4 b)) (of_le (slice OFF_E_PID 4 b)))
          (slice OFF_E_MOTIVO MOTIVO_LEN b)).

Definition estrato_id (e : Estrato) : Hash := blake3 (estrato_encode e).

(** * Proofs *)

#[export] Hint Rewrite @length_slice using lia : buflen.

Lemma length_blake3 b : Z.of_nat (length b) < 2 ^ 64 -> length (blake3 b) = 32%nat.
Proof. intros H. unfold blake3. rewrite hash_total by done. apply length_hash_ref. Qed.

#[local] Opaque blake3.

(** ** Pointers *)

Record ptr_ok (p : BlockPtr) : Prop := {
  p_lba : is_u64 (lba p); p_off : 0 <= off p; p_len : 0 <= len p;
  p_fin : off p + len p <= Z.of_nat BLOQUE; p_hash : length (hash p) = 32%nat
}.

Lemma NULO_ok : ptr_ok NULO.
Proof. split; unfold is_u64; cbn; try lia. Qed.

Lemma ptr_nuevo_ok l datos :
  is_u64 l -> (length datos <= BLOQUE)%nat -> ptr_ok (ptr_nuevo l 0 datos).
Proof.
  intros Hl Hd. unfold BLOQUE in Hd. unfold ptr_nuevo.
  split; cbn [lba off len hash]; rewrite ?w32_small by (unfold is_u32; lia); unfold BLOQUE;
    try lia; [done|]. apply length_blake3. lia.
Qed.

Lemma length_ptr_encode p : length (hash p) = 32%nat -> length (ptr_encode p) = PTR_LEN.
Proof. intros Hh. unfold ptr_encode, PTR_LEN. cbv zeta. blen. Qed.

Lemma ptr_roundtrip_app p r : ptr_ok p -> ptr_decode (ptr_encode p ++ r) = Ok p.
Proof.
  intros [Hl Ho Hn Hf Hh]. unfold BLOQUE in Hf.
  pose proof (length_ptr_encode p Hh) as Hlen. unfold ptr_decode.
  rewrite length_app, (proj2 (Nat.ltb_ge _ _)) by lia.
  rewrite !slice_app by (rewrite Hlen; unfold PTR_LEN; lia).
  unfold ptr_encode, PTR_LEN in *. cbv zeta. buf 48%nat.
  rewrite !of_le_le by (unfold is_u64 in *; simpl; lia).
  unfold BLOQUE. case_if; bdestr; [lia|]. by destruct p.
Qed.

Lemma ptr_roundtrip p : ptr_ok p -> ptr_decode (ptr_encode p) = Ok p.
Proof. intros H. rewrite <- (app_nil_r (ptr_encode p)). by apply ptr_roundtrip_app. Qed.

Lemma Forall_slice {A} (P : A -> Prop) o n b : Forall P b -> Forall P (slice o n b).
Proof. intros H. by apply Forall_take, Forall_drop. Qed.

Lemma ptr_decode_ok b p : Forall is_u8 b -> ptr_decode b = Ok p -> ptr_ok p.
Proof.
  intros Hb. unfold ptr_decode. case_if; [done|]. cbv zeta. case_if; [done|]. bdestr.
  intros [= <-]. apply Nat.ltb_ge in Heqb0. unfold PTR_LEN in *.
  assert (H := fun o n => of_le_range _ (Forall_slice is_u8 o n b Hb)).
  split; cbn [lba off len hash].
  - pose proof (H 0%nat 8%nat) as H0. rewrite length_slice in H0 by lia. unfold is_u64. simpl in H0. lia.
  - apply (H 8%nat 4%nat).
  - apply (H 12%nat 4%nat).
  - done.
  - apply length_slice. lia.
Qed.

(** ** The superblock *)

Record super_ok (s : Superblock) : Prop := {
  su_version : version s = VERSION; su_bs : block_size s = BLOCK_SIZE;
  su_gen : is_u64 (generation s); su_total : is_u64 (total_blocks s); su_head : is_u64 (log_head s);
  su_log : 2 <= log_head s /\ (total_blocks s <> 0 -> log_head s <= total_blocks s);
  su_disk : length (s_disk_id s) = 32%nat; su_ptr : ptr_ok (estrato s)
}.

(** A sealed buffer: [put] of the sum of what comes before it. *)
Lemma sellado N o b :
  length b = N -> (o + 32 <= N)%nat -> Z.of_nat N < 2 ^ 64 ->
  let s := put o (blake3 (slice 0 o b)) b in
  length s = N /\ slice o 32 s = blake3 (slice 0 o s) /\
  forall i n, (i + n <= o)%nat -> slice i n s = slice i n b.
Proof.
  intros Hb Ho HN s.
  assert (Hsum : length (blake3 (slice 0 o b)) = 32%nat)
    by (apply length_blake3; rewrite length_slice; lia).
  assert (Hbef : forall i n, (i + n <= o)%nat -> slice i n s = slice i n b)
    by (intros i n Hi; apply (slice_putN_before N); [done|done|lia]).
  split; [apply length_putN; lia|]. split; [|done].
  rewrite (Hbef 0%nat o) by lia. unfold s. by apply (slice_putN_eq N).
Qed.

Ltac campos :=
  cbv delta [OFF_VERSION OFF_BLOCK_SIZE OFF_GENERATION OFF_TOTAL_BLOCKS OFF_LOG_HEAD OFF_DISK_ID
    OFF_ESTRATO OFF_SUPER_SUM SUPER_LEN MAGIC ESTRATO_LEN OFF_E_PADRE OFF_E_TIEMPO OFF_E_AUTOR
    OFF_E_PID OFF_E_MOTIVO MOTIVO_LEN OFF_E_SUM PTR_LEN ATTR_LEN ATTR_NOMBRE_LEN RESIDENTE_MAX
    ENTRADA_LEN NOMBRE_MAX NODO_LEN NODO_MAGIC OFF_N_ATTRS OFF_N_SUM ATTRS_MAX] in *;
  cbv zeta.

Lemma length_super_campos s : super_ok s -> length (super_campos s) = 512%nat.
Proof.
  intros [_ _ _ _ _ _ Hd [_ _ _ _ Hh]]. pose proof (length_ptr_encode _ Hh).
  unfold super_campos. campos. blen.
Qed.

Lemma length_super_encode s : super_ok s -> length (super_encode s) = 512%nat.
Proof.
  intros H. unfold super_encode. campos.
  apply (sellado 512 480 (super_campos s)); [by apply length_super_campos|lia|lia].
Qed.

Lemma super_campos_slices s : super_ok s ->
  let b := super_campos s in
  slice 0 8 b = MAGIC /\ slice 8 4 b = le 4 (version s) /\ slice 12 4 b = le 4 (block_size s) /\
  slice OFF_GENERATION 8 b = le 8 (generation s) /\ slice OFF_TOTAL_BLOCKS 8 b = le 8 (total_blocks s) /\
  slice OFF_LOG_HEAD 8 b = le 8 (log_head s) /\ slice OFF_DISK_ID 32 b = s_disk_id s /\
  slice OFF_ESTRATO PTR_LEN b = ptr_encode (estrato s).
Proof.
  intros [_ _ _ _ _ _ Hd [_ _ _ _ Hh]]. pose proof (length_ptr_encode _ Hh).
  unfold super_campos. campos. split_and!; buf 512%nat; reflexivity.
Qed.

(** A superblock survives the disk: what [encode] writes at the head of a
    block, [decode] reads back. *)
Lemma super_roundtrip_app s r : super_ok s -> super_decode (super_encode s ++ r) = Ok s.
Proof.
  intros Hs. pose proof (length_super_encode s Hs) as Hlen.
  destruct (sellado 512 480 (super_campos s) (length_super_campos s Hs) ltac:(lia) ltac:(lia))
    as (_ & Hsum & Hbef). fold OFF_SUPER_SUM in Hsum, Hbef. cbv zeta in Hsum, Hbef.
  change (put OFF_SUPER_SUM _ _) with (super_encode s) in Hsum, Hbef.
  unfold super_decode.
  rewrite length_app, Hlen, (proj2 (Nat.ltb_ge _ _)) by (campos; lia).
  rewrite !slice_app by (rewrite Hlen; campos; lia).
  rewrite <- Hsum, (bool_decide_eq_true_2 (slice OFF_SUPER_SUM 32 _ = _)) by done.
  rewrite !Hbef by (campos; lia).
  destruct (super_campos_slices s Hs) as (-> & -> & -> & -> & -> & -> & -> & ->).
  destruct Hs as [Hv Hb Hg Ht Hh Hl Hd Hp].
  rewrite !of_le_le by (unfold is_u64 in *; rewrite ?Hv, ?Hb; unfold VERSION, BLOCK_SIZE; simpl; lia).
  rewrite bool_decide_eq_true_2 by done. rewrite Hv, Hb, ptr_roundtrip by done.
  unfold VERSION, BLOCK_SIZE. cbn [negb Z.eqb Pos.eqb].
  destruct ((log_head s <? 2) || _) eqn:E; [exfalso|by destruct s; simpl in *; subst].
  apply orb_true_iff in E as [E|[E1 E2]%andb_true_iff]; bdestr; lia.
Qed.

(** ** A stratum *)

Definition autor_ok (a : Autor) : Prop := match a with Proceso p => is_u32 p | _ => True end.

Record estrato_ok (e : Estrato) : Prop := {
  es_raiz : ptr_ok (raiz e); es_padre : ptr_ok (padre e); es_tiempo : is_u64 (tiempo e);
  es_autor : autor_ok (autor e); es_motivo : length (motivo e) = MOTIVO_LEN
}.

Lemma length_estrato_campos e : estrato_ok e -> length (estrato_campos e) = 224%nat.
Proof.
  intros [[_ _ _ _ Hr] [_ _ _ _ Hp] _ _ Hm].
  pose proof (length_ptr_encode _ Hr). pose proof (length_ptr_encode _ Hp).
  unfold estrato_campos. campos. blen.
Qed.

Lemma estrato_campos_slices e : estrato_ok e ->
  let b := estrato_campos e in
  slice 0 PTR_LEN b = ptr_encode (raiz e) /\ slice OFF_E_PADRE PTR_LEN b = ptr_encode (padre e) /\
  slice OFF_E_TIEMPO 8 b = le 8 (tiempo e) /\ slice OFF_E_AUTOR 4 b = le 4 (autor_code (autor e)) /\
  slice OFF_E_PID 4 b = le 4 (autor_pid (autor e)) /\ slice OFF_E_MOTIVO MOTIVO_LEN b = motivo e.
Proof.
  intros [[_ _ _ _ Hr] [_ _ _ _ Hp] _ _ Hm].
  pose proof (length_ptr_encode _ Hr). pose proof (length_ptr_encode _ Hp).
  unfold estrato_campos. campos. split_and!; buf 224%nat; reflexivity.
Qed.

Lemma length_estrato_encode e : estrato_ok e -> length (estrato_encode e) = 224%nat.
Proof.
  intros H. unfold estrato_encode. campos.
  apply (sellado 224 192 (estrato_campos e)); [by apply length_estrato_campos|lia|lia].
Qed.

Lemma autor_roundtrip a :
  autor_ok a -> autor_from (of_le (le 4 (autor_code a))) (of_le (le 4 (autor_pid a))) = a.
Proof.
  destruct a as [|p|]; [done| |done]. unfold autor_ok, is_u32. intros Hp.
  cbn [autor_code autor_pid]. rewrite !of_le_le by (simpl; lia). done.
Qed.

Lemma estrato_roundtrip_app e r : estrato_ok e -> estrato_decode (estrato_encode e ++ r) = Ok e.
Proof.
  intros He. pose proof (length_estrato_encode e He) as Hlen.
  destruct (sellado 224 192 (estrato_campos e) (length_estrato_campos e He) ltac:(lia) ltac:(lia))
    as (_ & Hsum & Hbef). fold OFF_E_SUM in Hsum, Hbef. cbv zeta in Hsum, Hbef.
  change (put OFF_E_SUM _ _) with (estrato_encode e) in Hsum, Hbef.
  unfold estrato_decode.
  rewrite length_app, Hlen, (proj2 (Nat.ltb_ge _ _)) by (campos; lia).
  rewrite !slice_app by (rewrite Hlen; campos; lia).
  rewrite <- Hsum, (bool_decide_eq_true_2 (slice OFF_E_SUM 32 _ = _)) by done.
  rewrite !Hbef by (campos; lia).
  destruct (estrato_campos_slices e He) as (-> & -> & -> & -> & -> & ->).
  destruct He as [Hr Hp Ht Ha Hm]. rewrite !ptr_roundtrip by done. cbn [negb result_bind].
  rewrite autor_roundtrip by done.
  rewrite of_le_le by (unfold is_u64 in *; simpl; lia). by destruct e.
Qed.

(** ** Attributes *)

(** [n] is where the name's first NUL is, as [nombre_a_bytes] leaves a name
    without one. *)
Record nombre_ok (name : list Z) (n : nat) : Prop := {
  n_len : length name = ATTR_NOMBRE_LEN; n_pos : (n <= ATTR_NOMBRE_LEN)%nat;
  n_cero : hasta_cero name ATTR_NOMBRE_LEN = n
}.

Record attr_ok (a : Attr) : Prop := {
  at_nombre : nombre_ok (a_name a) (a_nombre_len a);
  at_size : is_u64 (a_size a); at_levels : 0 <= a_levels a <= Z.of_nat NIVELES_MAX;
  at_cuerpo : length (a_cuerpo a) = RESIDENTE_MAX; at_raiz : ptr_ok (a_raiz a);
  at_forma : if a_residente a
             then a_size a <= Z.of_nat RESIDENTE_MAX /\ a_levels a = 0 /\ a_raiz a = NULO
             else a_cuerpo a = replicate RESIDENTE_MAX 0
}.

Lemma length_attr_encode a : attr_ok a -> length (attr_encode a) = 128%nat.
Proof.
  intros [[Hn _ _] _ _ Hc [_ _ _ _ Hr] _]. pose proof (length_ptr_encode _ Hr).
  unfold attr_encode. campos. destruct (a_residente a); blen.
Qed.

Lemma lookup_slice1 (b : list Z) i : (i < length b)%nat -> b !!! i = slice i 1 b !!! 0%nat.
Proof.
  intros H. unfold slice. destruct (lookup_lt_is_Some_2 b i H) as [x Hx].
  by rewrite (drop_S _ _ _ Hx), (list_lookup_total_correct _ _ _ Hx).
Qed.

Lemma attr_slices a : attr_ok a ->
  let b := attr_encode a in
  slice 0 ATTR_NOMBRE_LEN b = a_name a /\ slice 16 8 b = le 8 (a_size a) /\
  b !!! 24%nat = a_levels a /\ b !!! 25%nat = (if a_residente a then ATTR_RESIDENTE else 0) /\
  if a_residente a then slice 32 RESIDENTE_MAX b = a_cuerpo a
  else slice 32 PTR_LEN b = ptr_encode (a_raiz a).
Proof.
  intros Ha. pose proof (length_attr_encode a Ha) as Hlen.
  destruct Ha as [[Hn _ _] _ _ Hc [_ _ _ _ Hr] _]. pose proof (length_ptr_encode _ Hr).
  cbv zeta. rewrite !(lookup_slice1 (attr_encode a)) by lia. clear Hlen.
  unfold attr_encode. campos. destruct (a_residente a); split_and!; buf 128%nat; reflexivity.
Qed.

Lemma attr_roundtrip_app a r : attr_ok a -> attr_decode (attr_encode a ++ r) = Ok a.
Proof.
  intros Ha. pose proof (length_attr_encode a Ha) as Hlen.
  destruct (attr_slices a Ha) as (H1 & H2 & H3 & H4 & H5).
  unfold attr_decode. rewrite length_app, Hlen, (proj2 (Nat.ltb_ge _ _)) by (campos; lia).
  rewrite !slice_app by (rewrite Hlen; campos; lia).
  rewrite !lookup_total_app_l by lia. rewrite H1, H2, H3, H4.
  destruct Ha as [[Hnl Hnp Hn] Hs Hl Hc Hr Hf]. rewrite Hn.
  rewrite of_le_le by (unfold is_u64 in *; simpl; lia).
  destruct a as [nm nl sz lv rs cu ra].
  cbn [a_name a_nombre_len a_size a_levels a_residente a_cuerpo a_raiz] in *. destruct rs.
  - destruct Hf as (Hf1 & -> & ->). change (Z.land ATTR_RESIDENTE ATTR_RESIDENTE =? 0) with false.
    cbn [negb]. rewrite (proj2 (Z.ltb_ge _ _)) by exact Hf1. cbn [negb Z.eqb]. by rewrite H5.
  - change (Z.land 0 ATTR_RESIDENTE =? 0) with true. cbn [negb].
    rewrite (proj2 (Z.ltb_ge _ _)) by lia. rewrite H5, ptr_roundtrip by done. by rewrite Hf.
Qed.

(** ** Nodes *)

(** The attributes fill the node from its first slot, as [con] leaves them. *)
Definition nodo_ok (n : Nodo) : Prop :=
  exists l, (length l <= ATTRS_MAX)%nat /\ Forall attr_ok l /\
    attrs n = (Some <$> l) ++ replicate (ATTRS_MAX - length l) None.

Lemma flatten_app {A} (l1 l2 : list (option A)) : flatten (l1 ++ l2) = flatten l1 ++ flatten l2.
Proof. apply bind_app. Qed.

Lemma flatten_Some {A} (l : list A) : flatten (Some <$> l) = l.
Proof. unfold flatten. induction l as [|x l IH]; [done|]. cbn. by rewrite IH. Qed.

Lemma flatten_None {A} n : flatten (replicate n (@None A)) = [].
Proof. induction n; done. Qed.

Lemma flatten_nodo {A} (l : list A) n : flatten ((Some <$> l) ++ replicate n None) = l.
Proof. by rewrite flatten_app, flatten_Some, flatten_None, app_nil_r. Qed.

Lemma length_pon_attrs l : forall o b N,
  length b = N -> Forall attr_ok l -> (o + 128 * length l <= N)%nat -> length (pon_attrs o l b) = N.
Proof.
  induction l as [|a l IH]; intros o b N Hb Hl Ho; [done|]. cbn [pon_attrs length] in *.
  apply Forall_cons in Hl as [Ha Hl]. apply IH; [|done|unfold ATTR_LEN; lia].
  apply length_putN; [done|]. rewrite length_attr_encode by done. lia.
Qed.

Lemma pon_attrs_before l : forall o b N i n,
  length b = N -> Forall attr_ok l -> (o + 128 * length l <= N)%nat -> (i + n <= o)%nat ->
  slice i n (pon_attrs o l b) = slice i n b.
Proof.
  induction l as [|a l IH]; intros o b N i n Hb Hl Ho Hi; [done|]. cbn [pon_attrs length] in *.
  apply Forall_cons in Hl as [Ha Hl]. pose proof (length_attr_encode a Ha) as Hla.
  rewrite (IH _ _ N); [|apply length_putN; lia|done|unfold ATTR_LEN; lia|unfold ATTR_LEN; lia].
  apply (slice_putN_before N); lia.
Qed.

Lemma pon_attrs_slice l : forall o b N k a,
  length b = N -> Forall attr_ok l -> (o + 128 * length l <= N)%nat -> l !! k = Some a ->
  slice (o + k * 128) 128 (pon_attrs o l b) = attr_encode a.
Proof.
  induction l as [|a0 l IH]; intros o b N k a Hb Hl Ho Hk; [done|]. cbn [pon_attrs length] in *.
  apply Forall_cons in Hl as [Ha Hl]. pose proof (length_attr_encode a0 Ha) as Hla.
  assert (Hput : length (put o (attr_encode a0) b) = N) by (apply length_putN; lia).
  destruct k as [|k].
  - injection Hk as <-. rewrite Nat.add_0_r, (pon_attrs_before _ _ _ N);
      [|done|done|unfold ATTR_LEN; lia|unfold ATTR_LEN; lia].
    apply (slice_putN_eq N); lia.
  - replace (o + S k * 128)%nat with (o + ATTR_LEN + k * 128)%nat by (unfold ATTR_LEN; lia).
    apply (IH _ _ N); [done|done|unfold ATTR_LEN; lia|done].
Qed.

Lemma lee_attrs_ok l b : forall i,
  Forall attr_ok l ->
  (forall k a, l !! k = Some a -> slice (OFF_N_ATTRS + (i + k) * ATTR_LEN) ATTR_LEN b = attr_encode a) ->
  lee_attrs b i (length l) = Ok l.
Proof.
  induction l as [|a l IH]; intros i Hl Hs; [done|]. cbn [lee_attrs length].
  apply Forall_cons in Hl as [Ha Hl].
  rewrite <- (Nat.add_0_r i) at 1. rewrite (Hs 0%nat a eq_refl).
  rewrite <- (app_nil_r (attr_encode a)), attr_roundtrip_app by done. cbn [result_bind].
  rewrite IH; [done|done|]. intros k x Hk.
  replace (S i + k)%nat with (i + S k)%nat by lia. by apply Hs.
Qed.

Lemma nodo_campos_spec n l :
  attrs n = (Some <$> l) ++ replicate (ATTRS_MAX - length l) None -> (length l <= ATTRS_MAX)%nat ->
  Forall attr_ok l ->
  let b := nodo_campos n in
  length b = 560%nat /\ slice 0 4 b = NODO_MAGIC /\
  slice 4 1 b = [match tipo n with Archivo => 0 | Directorio => 1 end] /\
  slice 5 1 b = [Z.of_nat (length l)] /\
  forall k a, l !! k = Some a -> slice (OFF_N_ATTRS + k * ATTR_LEN) ATTR_LEN b = attr_encode a.
Proof.
  intros Ha Hlen Hl b. unfold b, nodo_campos. rewrite Ha, flatten_nodo. campos.
  match goal with |- context [pon_attrs 16 l ?b] => set (c := b) end.
  assert (Hc : length c = 560%nat) by (unfold c; blen).
  assert (Hbef : forall i n, (i + n <= 16)%nat -> slice i n (pon_attrs 16 l c) = slice i n c)
    by (intros i m Hi; apply (pon_attrs_before l 16 c 560); [done|done|lia|done]).
  split; [apply length_pon_attrs; [done|done|lia]|]. rewrite !Hbef by lia.
  split; [unfold c; buf 560%nat; done|]. split; [unfold c; buf 560%nat; done|].
  split.
  - unfold c. buf 560%nat. f_equal. unfold w8. apply Z.mod_small. lia.
  - intros k a Hk. apply (pon_attrs_slice l 16 c 560); [done|done|lia|done].
Qed.

Lemma nodo_roundtrip_app n r : nodo_ok n -> nodo_decode (nodo_encode n ++ r) = Ok n.
Proof.
  intros (l & Hlen & Hl & Ha).
  destruct (nodo_campos_spec n l Ha Hlen Hl) as (Hb & H1 & H2 & H3 & H4).
  destruct (sellado 560 528 (nodo_campos n) Hb ltac:(lia) ltac:(lia)) as (Hle & Hsum & Hbef).
  fold OFF_N_SUM in Hle, Hsum, Hbef. cbv zeta in Hle, Hsum, Hbef.
  change (put OFF_N_SUM _ _) with (nodo_encode n) in Hle, Hsum, Hbef.
  unfold nodo_decode. rewrite length_app, Hle, (proj2 (Nat.ltb_ge _ _)) by (campos; lia).
  rewrite !slice_app by (rewrite Hle; campos; lia).
  rewrite <- Hsum, (bool_decide_eq_true_2 (slice OFF_N_SUM 32 _ = _)) by done.
  rewrite Hbef by (campos; lia). rewrite H1, bool_decide_eq_true_2 by done. cbn [negb].
  rewrite !lookup_total_app_l by lia. rewrite !(lookup_slice1 (nodo_encode n)) by lia.
  rewrite !Hbef by (campos; lia). rewrite H2, H3. cbn [lookup_total list_lookup_total].
  rewrite Nat2Z.id, (proj2 (Nat.ltb_ge _ _)) by done.
  rewrite (lee_attrs_ok l); [|done|].
  - destruct n as [t at_]. cbn [tipo attrs] in *. subst. by destruct t.
  - intros k a Hk. rewrite slice_app.
    + rewrite Hbef; [by apply H4|]. apply lookup_lt_Some in Hk. campos. lia.
    + apply lookup_lt_Some in Hk. campos. lia.
Qed.

(** ** Directory entries *)

Record entrada_ok (e : Entrada) : Prop := {
  en_name : length (e_name e) = NOMBRE_MAX; en_len : (1 <= e_nombre_len e <= NOMBRE_MAX)%nat;
  en_nodo : ptr_ok (nodo e)
}.

Lemma entrada_slices e : entrada_ok e ->
  let b := entrada_encode e in
  length b = 112%nat /\ b !!! 0%nat = Z.of_nat (e_nombre_len e) /\
  slice 1 NOMBRE_MAX b = e_name e /\ slice 64 PTR_LEN b = ptr_encode (nodo e).
Proof.
  intros [Hn Hl [_ _ _ _ Hh]]. pose proof (length_ptr_encode _ Hh). cbv zeta.
  assert (Hlen : length (entrada_encode e) = 112%nat) by (unfold entrada_encode; campos; blen).
  split; [done|]. rewrite lookup_slice1 by lia. clear Hlen. unfold entrada_encode. campos.
  split_and!; buf 112%nat; try reflexivity. cbn. unfold w8. apply Z.mod_small. lia.
Qed.

Lemma entrada_roundtrip_app e r : entrada_ok e -> entrada_decode (entrada_encode e ++ r) = Ok e.
Proof.
  intros He. destruct (entrada_slices e He) as (Hlen & H1 & H2 & H3). destruct He as [Hn Hl Hp].
  unfold entrada_decode. rewrite length_app, Hlen, (proj2 (Nat.ltb_ge _ _)) by (campos; lia).
  rewrite lookup_total_app_l, H1, Nat2Z.id by lia.
  rewrite (proj2 (Nat.eqb_neq _ _)), (proj2 (Nat.ltb_ge NOMBRE_MAX _)) by lia. cbn [orb].
  rewrite !slice_app by (rewrite Hlen; campos; lia).
  rewrite H2, H3, ptr_roundtrip by done. by destruct e.
Qed.

(** ** What the decoders accept *)

Lemma hasta_cero_le b n : length b = n -> (hasta_cero b n <= n)%nat.
Proof.
  intros <-. unfold hasta_cero. destruct (position _ b) as [i|] eqn:E; [|done].
  apply position_lt in E. simpl. lia.
Qed.

Lemma byte_lookup b i : Forall is_u8 b -> (i < length b)%nat -> is_u8 (b !!! i).
Proof. intros Hb Hi. by apply Forall_lookup_total_1. Qed.

Lemma of_le_u64 b o : Forall is_u8 b -> is_u64 (of_le (slice o 8 b)).
Proof.
  intros Hb. pose proof (of_le_range _ (Forall_slice is_u8 o 8 b Hb)) as H.
  assert (Hl : Z.of_nat (length (slice o 8 b)) <= 8) by (unfold slice; rewrite length_take; lia).
  unfold is_u64. split; [lia|]. eapply Z.lt_le_trans; [apply H|].
  apply Z.pow_le_mono_r; lia.
Qed.

Lemma attr_decode_ok b a : Forall is_u8 b -> attr_decode b = Ok a -> attr_ok a.
Proof.
  intros Hb. unfold attr_decode. case_if; [done|]. apply Nat.ltb_ge in Heqb0. cbv zeta.
  assert (Hn : nombre_ok (slice 0 ATTR_NOMBRE_LEN b)
                 (hasta_cero (slice 0 ATTR_NOMBRE_LEN b) ATTR_NOMBRE_LEN)).
  { assert (Hl : length (slice 0 ATTR_NOMBRE_LEN b) = ATTR_NOMBRE_LEN)
      by (apply length_slice; campos; lia).
    split; [done|by apply hasta_cero_le|done]. }
  pose proof (of_le_u64 b 16 Hb) as Hs.
  assert (Hlv : is_u8 (b !!! 24%nat)) by (apply byte_lookup; [done|campos; lia]).
  unfold is_u8 in Hlv. case_if.
  - case_if; [done|]. case_if; [done|]. bdestr. intros [= <-].
    split; cbn [a_name a_nombre_len a_size a_levels a_cuerpo a_raiz a_residente]; try done.
    + rewrite Heqb3. done.
    + apply length_slice. campos. lia.
  - case_if; [done|]. destruct (ptr_decode _) as [r|] eqn:Er; [|done]. cbn [result_bind].
    intros [= <-]. bdestr.
    split; cbn [a_name a_nombre_len a_size a_levels a_cuerpo a_raiz a_residente]; try done.
    + lia.
    + apply (ptr_decode_ok _ _ (Forall_slice _ _ _ _ Hb) Er).
Qed.

Lemma lee_attrs_inv b n : forall i l,
  Forall is_u8 b -> lee_attrs b i n = Ok l -> length l = n /\ Forall attr_ok l.
Proof.
  induction n as [|n IH]; intros i l Hb; cbn [lee_attrs]; [by intros [= <-]|].
  destruct (attr_decode _) as [a|] eqn:Ea; [|done]. cbn [result_bind].
  destruct (lee_attrs b (S i) n) as [l'|] eqn:El; [|done]. cbn [result_bind]. intros [= <-].
  destruct (IH _ _ Hb El) as [H1 H2]. split; [simpl; lia|]. constructor; [|done].
  apply (attr_decode_ok _ _ (Forall_slice _ _ _ _ Hb) Ea).
Qed.

Lemma nodo_decode_ok b n : Forall is_u8 b -> nodo_decode b = Ok n -> nodo_ok n.
Proof.
  intros Hb. unfold nodo_decode. do 3 (case_if; [done|]).
  destruct (if b !!! 4%nat =? 0 then _ else _) as [t|]; [|done]. cbn [result_bind]. cbv zeta.
  case_if; [done|]. apply Nat.ltb_ge in Heqb3.
  destruct (lee_attrs b 0 _) as [l|] eqn:El; [|done]. cbn [result_bind]. intros [= <-].
  destruct (lee_attrs_inv _ _ _ _ Hb El) as [H1 H2]. exists l. rewrite H1. by split_and!.
Qed.

Lemma entrada_decode_ok b e : Forall is_u8 b -> entrada_decode b = Ok e -> entrada_ok e.
Proof.
  intros Hb. unfold entrada_decode. case_if; [done|]. apply Nat.ltb_ge in Heqb0. cbv zeta.
  case_if; [done|]. apply orb_false_iff in Heqb1 as [H1 H2].
  apply Nat.eqb_neq in H1. apply Nat.ltb_ge in H2.
  destruct (ptr_decode _) as [p|] eqn:Ep; [|done]. cbn [result_bind]. intros [= <-].
  split; cbn [e_name e_nombre_len nodo]; [apply length_slice; campos; lia|lia|].
  apply (ptr_decode_ok _ _ (Forall_slice _ _ _ _ Hb) Ep).
Qed.

Lemma super_decode_ok b s : Forall is_u8 b -> super_decode b = Ok s -> super_ok s.
Proof.
  intros Hb. unfold super_decode. do 2 (case_if; [done|]). apply Nat.ltb_ge in Heqb0. cbv zeta.
  do 4 (case_if; [done|]). apply orb_false_iff in Heqb5 as [H1 H2]. bdestr.
  destruct (ptr_decode _) as [p|] eqn:Ep; [|done]. cbn [result_bind]. intros [= <-].
  split; cbn [version block_size generation total_blocks log_head s_disk_id estrato]; try done;
    try (by apply of_le_u64).
  - split; [done|]. intros Ht. apply andb_false_iff in H2 as [H2|H2]; bdestr; lia.
  - apply length_slice. campos. lia.
  - apply (ptr_decode_ok _ _ (Forall_slice _ _ _ _ Hb) Ep).
Qed.

Lemma estrato_decode_ok b e : Forall is_u8 b -> estrato_decode b = Ok e -> estrato_ok e.
Proof.
  intros Hb. unfold estrato_decode. do 2 (case_if; [done|]). apply Nat.ltb_ge in Heqb0.
  destruct (ptr_decode (slice 0 _ _)) as [r|] eqn:Er; [|done]. cbn [result_bind].
  destruct (ptr_decode (slice OFF_E_PADRE _ _)) as [p|] eqn:Ep; [|done]. cbn [result_bind]. intros [= <-].
  split; cbn [raiz padre tiempo autor motivo].
  - apply (ptr_decode_ok _ _ (Forall_slice _ _ _ _ Hb) Er).
  - apply (ptr_decode_ok _ _ (Forall_slice _ _ _ _ Hb) Ep).
  - by apply of_le_u64.
  - unfold autor_from, autor_ok. case_if; [|by case_if].
    pose proof (of_le_range _ (Forall_slice is_u8 OFF_E_PID 4 b Hb)) as H.
    rewrite length_slice in H by (campos; lia). exact H.
  - apply length_slice. campos. lia.
Qed.

(** ** What the constructors build *)

Lemma position_app_r {A} (p : A -> bool) l1 l2 :
  Forall (fun x => p x = false) l1 -> position p (l1 ++ l2) = (fun i => length l1 + i)%nat <$> position p l2.
Proof.
  induction 1 as [|x l1 Hx _ IH]; cbn [position app length].
  - by destruct (position p l2).
  - rewrite Hx, IH. by destruct (position p l2).
Qed.

Lemma nombre_a_bytes_ok name p :
  nombre_a_bytes name = Ok p -> Forall (fun c => c <> 0) name -> nombre_ok (fst p) (snd p).
Proof.
  unfold nombre_a_bytes. destruct name as [|c name]; [done|]. set (n := c :: name).
  case_if; [done|]. apply Nat.ltb_ge in Heqb. intros [= <-] Hz. cbn [fst snd].
  unfold put. cbn [take app plus].
  change (nombre_ok (n ++ drop (length n) (replicate ATTR_NOMBRE_LEN 0)) (length n)).
  rewrite drop_replicate.
  split; [rewrite length_app, length_replicate; lia|lia|].
  unfold hasta_cero. rewrite position_app_r.
  - destruct (ATTR_NOMBRE_LEN - length n)%nat as [|k] eqn:E; cbn [replicate position].
    + unfold ATTR_NOMBRE_LEN in *. simpl in *. lia.
    + cbn [Z.eqb fmap option_fmap option_map default]. simpl. lia.
  - eapply Forall_impl; [exact Hz|]. intros x Hx. by apply Z.eqb_neq.
Qed.

Lemma attr_residente_ok name datos a :
  attr_residente name datos = Ok a -> Forall (fun c => c <> 0) name -> attr_ok a.
Proof.
  unfold attr_residente. case_if; [done|]. apply Nat.ltb_ge in Heqb. unfold RESIDENTE_MAX in Heqb.
  destruct (nombre_a_bytes name) as [p|] eqn:Ep; [|done]. cbn [result_bind]. intros [= <-] Hz.
  split; cbn [a_name a_nombre_len a_size a_levels a_cuerpo a_raiz a_residente].
  - by apply (nombre_a_bytes_ok name).
  - unfold is_u64. lia.
  - unfold NIVELES_MAX. lia.
  - campos. apply length_putN; [reflexivity|lia].
  - apply NULO_ok.
  - campos. split_and!; [lia|done|done].
Qed.

Lemma en_bloques_ok name size levels r a :
  en_bloques name size levels r = Ok a -> Forall (fun c => c <> 0) name ->
  is_u64 size -> 0 <= levels -> ptr_ok r -> attr_ok a.
Proof.
  unfold en_bloques. destruct (nombre_a_bytes name) as [p|] eqn:Ep; [|done]. cbn [result_bind].
  case_if; [done|]. bdestr. intros [= <-] Hz Hs Hl Hr.
  split; cbn [a_name a_nombre_len a_size a_levels a_cuerpo a_raiz a_residente]; try done.
  by apply (nombre_a_bytes_ok name).
Qed.

Lemma con_ok n a n' : nodo_ok n -> attr_ok a -> con n a = Ok n' -> nodo_ok n'.
Proof.
  intros (l & Hlen & Hl & Hn) Ha. unfold con. destruct (attr n _); [done|]. rewrite Hn.
  rewrite position_app_r by (by apply Forall_fmap, Forall_true). rewrite length_fmap.
  destruct (ATTRS_MAX - length l)%nat as [|k] eqn:E; cbn [replicate position fmap option_fmap option_map];
    [done|]. intros [= <-]. exists (l ++ [a]). cbn [attrs].
  rewrite length_app. cbn [length]. split; [lia|]. split; [by apply Forall_app; split; [|constructor]|].
  rewrite insert_app_r_alt by (rewrite length_fmap; lia).
  rewrite length_fmap, Nat.add_0_r, Nat.sub_diag, fmap_app, <- app_assoc. cbn [insert list_insert].
  replace (ATTRS_MAX - (length l + 1))%nat with k by lia. reflexivity.
Qed.

Lemma entrada_nueva_ok name p e : entrada_nueva name p = Ok e -> ptr_ok p -> entrada_ok e.
Proof.
  unfold entrada_nueva. destruct name as [|c name]; [done|]. set (n := c :: name).
  case_if; [done|]. apply Nat.ltb_ge in Heqb. unfold NOMBRE_MAX in Heqb. intros [= <-] Hp.
  split; cbn [e_name e_nombre_len nodo]; [|unfold n, NOMBRE_MAX in *; simpl in *; lia|done].
  campos. apply length_putN; [reflexivity|lia].
Qed.

(** ** Properties *)

(** C18: the whole format survives the disk. Whatever follows it in its block,
    a well-formed pointer, attribute, node, directory entry, stratum or
    superblock that was encoded is read back by its decoder exactly as it
    was. *)
Theorem formato_roundtrip r :
  (forall p, ptr_ok p -> ptr_decode (ptr_encode p ++ r) = Ok p) /\
  (forall a, attr_ok a -> attr_decode (attr_encode a ++ r) = Ok a) /\
  (forall n, nodo_ok n -> nodo_decode (nodo_encode n ++ r) = Ok n) /\
  (forall e, entrada_ok e -> entrada_decode (entrada_encode e ++ r) = Ok e) /\
  (forall e, estrato_ok e -> estrato_decode (estrato_encode e ++ r) = Ok e) /\
  (forall s, super_ok s -> super_decode (super_encode s ++ r) = Ok s).
Proof.
  split_and!; intros; [by apply ptr_roundtrip_app|by apply attr_roundtrip_app|
    by apply nodo_roundtrip_app|by apply entrada_roundtrip_app|by apply estrato_roundtrip_app|
    by apply super_roundtrip_app].
Qed.

(** C19: nothing a decoder accepts is malformed, whatever bytes the disk holds:
    pointers stay inside their block, attributes have at most four levels or 96
    resident bytes, nodes at most four attributes packed from the front, entry
    names 1 to 63 bytes, and a superblock has this version, 4096-byte blocks
    and a log head past the two copies and inside the volume. *)
Theorem decoders_accept_only_wellformed b :
  Forall is_u8 b ->
  (forall p, ptr_decode b = Ok p -> ptr_ok p) /\
  (forall a, attr_decode b = Ok a -> attr_ok a) /\
  (forall n, nodo_decode b = Ok n -> nodo_ok n) /\
  (forall e, entrada_decode b = Ok e -> entrada_ok e) /\
  (forall e, estrato_decode b = Ok e -> estrato_ok e) /\
  (forall s, super_decode b = Ok s -> super_ok s).
Proof.
  intros Hb. split_and!; intros x; [by apply ptr_decode_ok|by apply attr_decode_ok|
    by apply nodo_decode_ok|by apply entrada_decode_ok|by apply estrato_decode_ok|
    by apply super_decode_ok].
Qed.

(** A fresh volume of [total] blocks. *)
Lemma super_new_ok disk total :
  length disk = 32%nat -> is_u64 total -> total <> 0 -> 2 <= total -> super_ok (super_new disk total).
Proof. intros. split; cbn; try done; try (unfold is_u64; lia). Qed.

Definition super_demo : Superblock := super_new (replicate 32 7) 1000.
Lemma super_demo_ok : super_ok super_demo.
Proof. apply super_new_ok; [done|unfold is_u64; lia|lia..]. Qed.

Lemma formato_roundtrip_witness :
  super_ok super_demo /\ super_decode (super_encode super_demo ++ replicate 3584 0) = Ok super_demo.
Proof.
  split; [exact super_demo_ok|].
  exact (proj2 (proj2 (proj2 (proj2 (proj2 (formato_roundtrip (replicate 3584 0))))))
    super_demo super_demo_ok).
Defined.

Lemma decoders_accept_witness :
  Forall is_u8 (replicate 48 0) /\ ptr_ok NULO.
Proof.
  assert (H : Forall is_u8 (replicate 48 0)) by (apply Forall_replicate; unfold is_u8; lia).
  split; [exact H|]. exact (proj1 (decoders_accept_only_wellformed _ H) NULO eq_refl).
Defined.
