(* ===== verification/Flujo.v ===== *)
(** Contents of more than one block in ESTRATOS: the plan of a tree of pointers,
    the writer that builds it block by block, and the reader that walks it.
    Source: src/platform/drivers/storage/estratos/src/{flujo,read}.rs.

    The callbacks are functions that carry the state they close over: [poner]
    (write a block), [bloque] (read one), [salida] (consume a piece). *)

From Stdlib Require Import ZifyNat.
From stdpp Require Import gmap.
From S2P Require Import Prelude Formato.

Definition FILAS : nat := S NIVELES_MAX.

Record Plan := mkPlan { niveles : nat; por_nivel : list Z; total : Z }.

(** [u64::div_ceil]. *)
Definition div_ceil (a b : Z) : Z := (a + b - 1) / b.

(** [while n > 1]; it ends by [FILAS], which bounds the fuel. *)
Fixpoint plan_loop (fuel : nat) (por : list Z) (niv : nat) (n : Z) : option (list Z * nat) :=
  match fuel with
  | O => None
  | S fuel =>
      if 1 <? n then
        let n := div_ceil n (Z.of_nat PTRS_POR_BLOQUE) in
        let niv := S niv in
        if (FILAS <=? niv)%nat then None else plan_loop fuel (<[niv := n]> por) niv n
      else Some (por, niv)
  end.

Definition plan_de (size : Z) : option Plan :=
  if size =? 0 then None else
  let datos := div_ceil size (Z.of_nat BLOQUE) in
  let por := <[0%nat := datos]> (replicate FILAS 0) in
  match plan_loop (S FILAS) por 0 datos with
  | Some (por, niv) => Some (mkPlan niv por (foldl (fun t v => w64 (t + v)) 0 por))
  | None => None
  end.

Record Arbol := mkArbol {
  plan : Plan; cursor : list Z; indice : list (list Z); lleno : list nat;
  a_raiz : option BlockPtr; trozos : Z
}.

(** The starts of the levels. *)
Fixpoint cursores (donde : Z) (por : list Z) : list Z :=
  match por with [] => [] | n :: por => donde :: cursores (w64 (donde + n)) por end.

Definition nuevo (p : Plan) (base : Z) (ind : list (list Z)) : result Arbol FormatError :=
  if (length ind <? niveles p)%nat then Err SinScratch
  else Ok (mkArbol p (cursores base (por_nivel p)) ind (replicate FILAS 0%nat) None 0).

Section Escribir.
Context {St : Type}.
Variable poner : St -> Z -> list Z -> St * bool.

Definition cerrar_nivel (a : Arbol) (s : St) (nivel : nat) : Arbol * St * result BlockPtr FormatError :=
  let usados := (lleno a !!! nivel * PTR_LEN)%nat in
  let l := cursor a !!! nivel in
  let datos := take usados (indice a !!! (nivel - 1)%nat) in
  match poner s l datos with
  | (s, false) => (a, s, Err Io)
  | (s, true) =>
      (mkArbol (plan a) (<[nivel := w64 (l + 1)]> (cursor a)) (indice a) (<[nivel := 0%nat]> (lleno a))
         (a_raiz a) (trozos a), s, Ok (ptr_nuevo l 0 datos))
  end.

(** The [loop]; one turn per level, so [FILAS + 1] turns are enough. *)
Fixpoint colgar (fuel : nat) (a : Arbol) (s : St) (nivel : nat) (ptr : BlockPtr)
  : Arbol * St * result unit FormatError :=
  match fuel with
  | O => (a, s, Err BadField)
  | S fuel =>
      if (niveles (plan a) <? nivel)%nat
      then (mkArbol (plan a) (cursor a) (indice a) (lleno a) (Some ptr) (trozos a), s, Ok tt)
      else
        let hueco := (lleno a !!! nivel * PTR_LEN)%nat in
        let a := mkArbol (plan a) (cursor a)
                   (<[(nivel - 1)%nat := put hueco (ptr_encode ptr) (indice a !!! (nivel - 1)%nat)]>
                      (indice a))
                   (<[nivel := S (lleno a !!! nivel)]> (lleno a)) (a_raiz a) (trozos a) in
        if (lleno a !!! nivel <? PTRS_POR_BLOQUE)%nat then (a, s, Ok tt)
        else match cerrar_nivel a s nivel with
        | (a, s, Ok p) => colgar fuel a s (S nivel) p
        | (a, s, Err e) => (a, s, Err e)
        end
  end.

Definition empujar (a : Arbol) (s : St) (datos : list Z) : Arbol * St * result unit FormatError :=
  if Nat.eqb (length datos) 0 || (BLOQUE <? length datos)%nat then (a, s, Err BadField)
  else if por_nivel (plan a) !!! 0%nat <=? trozos a then (a, s, Err BadField)
  else
    let l := cursor a !!! 0%nat in
    match poner s l datos with
    | (s, false) => (a, s, Err Io)
    | (s, true) =>
        let a := mkArbol (plan a) (<[0%nat := w64 (l + 1)]> (cursor a)) (indice a) (lleno a)
                   (a_raiz a) (w64 (trozos a + 1)) in
        colgar (S FILAS) a s 1 (ptr_nuevo l 0 datos)
    end.

(** [while nivel <= niveles]. *)
Fixpoint cerrar_loop (fuel : nat) (a : Arbol) (s : St) (nivel : nat)
  : Arbol * St * result unit FormatError :=
  match fuel with
  | O => (a, s, Ok tt)
  | S fuel =>
      if (nivel <=? niveles (plan a))%nat then
        if (0 <? lleno a !!! nivel)%nat then
          match cerrar_nivel a s nivel with
          | (a, s, Ok p) =>
              match colgar (S FILAS) a s (S nivel) p with
              | (a, s, Ok _) => cerrar_loop fuel a s (S nivel)
              | (a, s, Err e) => (a, s, Err e)
              end
          | (a, s, Err e) => (a, s, Err e)
          end
        else cerrar_loop fuel a s (S nivel)
      else (a, s, Ok tt)
  end.

Definition cerrar (a : Arbol) (s : St) : St * result BlockPtr FormatError :=
  if negb (trozos a =? por_nivel (plan a) !!! 0%nat) then (s, Err BadField)
  else match cerrar_loop (S FILAS) a s 1 with
  | (a, s, Ok _) => (s, ok_or (a_raiz a) BadField)
  | (_, s, Err e) => (s, Err e)
  end.

(** What every caller does: one [empujar] per piece, then [cerrar]. *)
Fixpoint empujar_todo (a : Arbol) (s : St) (ds : list (list Z)) : Arbol * St * result unit FormatError :=
  match ds with
  | [] => (a, s, Ok tt)
  | d :: ds =>
      match empujar a s d with
      | (a, s, Ok _) => empujar_todo a s ds
      | r => r
      end
  end.
Definition escribir (a : Arbol) (s : St) (ds : list (list Z)) : St * result BlockPtr FormatError :=
  match empujar_todo a s ds with
  | (a, s, Ok _) => cerrar a s
  | (_, s, Err e) => (s, Err e)
  end.
End Escribir.

(** * read.rs *)

Section Leer.
Context {F X : Type}.
Variable bloque : F -> Z -> F * option (list Z).
Variable salida : X -> list Z -> X * bool.

(** The reader's state: the source, what the consumer keeps, and [seguir]. *)
Definition lector : Type := F * X * bool.

Section Hijos.
Variable bajar_hijo : lector -> BlockPtr -> lector * result unit FormatError.

(** [for i in 0..total]. *)
Fixpoint hijos (st : lector) (datos : list Z) (i n : nat) : lector * result unit FormatError :=
  match n with
  | O => (st, Ok tt)
  | S n =>
      match ptr_decode (slice (i * PTR_LEN) PTR_LEN datos) with
      | Err e => (st, Err e)
      | Ok hijo =>
          if es_nulo hijo then (st, Ok tt)
          else match bajar_hijo st hijo with
          | (st, Err e) => (st, Err e)
          | (st, Ok _) => if negb (snd st) then (st, Ok tt) else hijos st datos (S i) n
          end
      end
  end.
End Hijos.

(** [scratch] is the number of buffers left; [niveles] is structural. *)
Fixpoint bajar (niv scratch : nat) (st : lector) (p : BlockPtr) {struct niv}
  : lector * result unit FormatError :=
  let '(f, x, seguir) := st in
  if negb seguir then (st, Ok tt) else
  match scratch with
  | O => (st, Err SinScratch)
  | S resto =>
      match bloque f (lba p) with
      | (f, None) => ((f, x, seguir), Err Io)
      | (f, Some mio) =>
          let ini := Z.to_nat (off p) in
          if Z.of_nat BLOQUE <? off p + len p then ((f, x, seguir), Err BadField) else
          let datos := slice ini (Z.to_nat (len p)) mio in
          if negb (verifica p datos) then ((f, x, seguir), Err BadChecksum) else
          match niv with
          | O => let '(x, sigue) := salida x datos in ((f, x, seguir && sigue), Ok tt)
          | S niv => hijos (bajar niv resto) (f, x, seguir) datos 0 (length datos / PTR_LEN)
          end
      end
  end.

Definition descender (f : F) (x : X) (raiz : BlockPtr) (niv scratch : nat)
  : lector * result unit FormatError := bajar niv scratch (f, x, true) raiz.
End Leer.

(** * A store that takes every write

    Blocks land padded with zeros to their 4096 bytes. *)

Definition relleno (d : list Z) : list Z := pad BLOQUE d.
Definition poner_m (s : gmap Z (list Z)) (l : Z) (d : list Z) : gmap Z (list Z) * bool :=
  (<[l := relleno d]> s, true).
Definition bloque_m (s : gmap Z (list Z)) (l : Z) : gmap Z (list Z) * option (list Z) := (s, s !! l).

(** Updating a count. *)
Definition upd (f : nat -> nat) (k v : nat) : nat -> nat := fun i => if decide (i = k) then v else f i.
Lemma upd_eq f k v : upd f k v k = v.
Proof. unfold upd. by rewrite decide_True. Qed.
Lemma upd_ne f k v i : i <> k -> upd f k v i = f i.
Proof. intros H. unfold upd. by rewrite decide_False. Qed.

(** * The tree that is meant *)

Definition techo (n : nat) : nat := ((n + 84) / 85)%nat.

Definition ptrs (b : Z) (cs : list (list Z)) : list BlockPtr :=
  imap (fun j c => ptr_nuevo (b + Z.of_nat j) 0 c) cs.

Definition indice_de (ps : list BlockPtr) (j n : nat) : list Z :=
  concat (ptr_encode <$> slice (85 * j) n ps).

(** The blocks of pointers over [ps]: 85 to a block. *)
Definition grupos (ps : list BlockPtr) : list (list Z) :=
  (fun j => indice_de ps j 85) <$> seq 0 (techo (length ps)).

Section Arbol.
Variables (base : Z) (ds : list (list Z)).

(** Where level [k] starts and what its blocks hold. *)
Fixpoint fila (k : nat) : Z * list (list Z) :=
  match k with
  | O => (base, ds)
  | S k => let '(b, cs) := fila k in (b + Z.of_nat (length cs), grupos (ptrs b cs))
  end.
Definition B (k : nat) : Z := fst (fila k).
Definition cont (k : nat) : list (list Z) := snd (fila k).
Definition P (k : nat) : list BlockPtr := ptrs (B k) (cont k).

Lemma B_S k : B (S k) = B k + Z.of_nat (length (cont k)).
Proof. unfold B, cont. simpl. by destruct (fila k). Qed.
Lemma cont_S k : cont (S k) = grupos (P k).
Proof. unfold P, B, cont. simpl. by destruct (fila k). Qed.

Lemma length_ptrs b cs : length (ptrs b cs) = length cs.
Proof. apply length_imap. Qed.
Lemma length_P k : length (P k) = length (cont k).
Proof. apply length_ptrs. Qed.
Lemma length_cont_S k : length (cont (S k)) = techo (length (cont k)).
Proof. rewrite cont_S. unfold grupos. by rewrite length_fmap, length_seq, length_P. Qed.

Lemma P_lookup k j :
  (j < length (cont k))%nat -> P k !!! j = ptr_nuevo (B k + Z.of_nat j) 0 (cont k !!! j).
Proof.
  intros H. apply list_lookup_total_correct. unfold P, ptrs. rewrite list_lookup_imap.
  destruct (lookup_lt_is_Some_2 _ _ H) as [c Hc]. by rewrite Hc, (list_lookup_total_correct _ _ _ Hc).
Qed.

Lemma cont_lookup k j :
  (j < techo (length (cont k)))%nat -> cont (S k) !!! j = indice_de (P k) j 85.
Proof.
  intros H. apply list_lookup_total_correct. rewrite cont_S. unfold grupos.
  rewrite list_lookup_fmap, length_P, lookup_seq_lt by done. done.
Qed.

Lemma techo_lt n q : (q < techo n)%nat <-> (85 * q < n)%nat.
Proof. unfold techo. lia. Qed.

Lemma B_mono i j : (i <= j)%nat -> B i <= B j.
Proof. induction 1 as [|j _ IH]; [done|]. rewrite B_S. lia. Qed.

(** Everything fits: pieces of 1 to 4096 bytes, addresses of 64 bits. *)
Variable Nv : nat.
Hypothesis Hds : Forall (fun d : list Z => (1 <= length d <= BLOQUE)%nat) ds.
Hypothesis Hbase : 0 <= base.
Hypothesis Hfin : B (S Nv) < 2 ^ 64.
Hypothesis Hcima : length (cont Nv) = 1%nat.
Hypothesis HNv : (Nv < FILAS)%nat.

Lemma length_concat_ptrs l :
  Forall ptr_ok l -> length (concat (ptr_encode <$> l)) = (48 * length l)%nat.
Proof.
  induction 1 as [|p l Hp _ IH]; [done|]. rewrite fmap_cons. cbn [concat length].
  rewrite length_app, IH, (length_ptr_encode _ (p_hash _ Hp)). unfold PTR_LEN. lia.
Qed.

(** Every block fits and every pointer is well formed. *)
Lemma cont_ok k : (k <= Nv)%nat ->
  Forall (fun c : list Z => (1 <= length c <= BLOQUE)%nat) (cont k) /\ Forall ptr_ok (P k).
Proof.
  assert (HP : forall k, (k <= Nv)%nat ->
    Forall (fun c : list Z => (1 <= length c <= BLOQUE)%nat) (cont k) -> Forall ptr_ok (P k)).
  { intros i Hi Hc. apply Forall_lookup. intros j p Hp.
    assert (Hj : (j < length (cont i))%nat) by (rewrite <- length_P; by eapply lookup_lt_Some).
    apply list_lookup_total_correct in Hp as <-. rewrite P_lookup by done.
    pose proof (B_mono 0 i ltac:(lia)) as H0. pose proof (B_mono (S i) (S Nv) ltac:(lia)) as H1.
    rewrite B_S in H1. unfold B at 1 in H0. cbn [fila fst] in H0.
    apply ptr_nuevo_ok; [unfold is_u64; lia|].
    destruct (lookup_lt_is_Some_2 _ _ Hj) as [c Hcj].
    rewrite (list_lookup_total_correct _ _ _ Hcj). by apply (Forall_lookup_1 _ _ _ _ Hc Hcj). }
  induction k as [|k IH]; intros Hk; [split; [exact Hds|by apply HP]|].
  destruct (IH ltac:(lia)) as [_ HPk].
  assert (Hc : Forall (fun c : list Z => (1 <= length c <= BLOQUE)%nat) (cont (S k)));
    [|split; [done|by apply HP]].
  apply Forall_lookup. intros j c Hc.
  assert (Hj : (j < techo (length (cont k)))%nat)
    by (rewrite <- length_cont_S; by eapply lookup_lt_Some).
  apply list_lookup_total_correct in Hc as <-. rewrite cont_lookup by done. unfold indice_de.
  rewrite length_concat_ptrs by (by apply Forall_slice). apply techo_lt in Hj.
  unfold slice. rewrite length_take, length_drop, length_P. unfold BLOQUE. lia.
Qed.

Lemma indice_de_S k j x :
  (85 * j + x < length (cont k))%nat ->
  indice_de (P k) j (S x) = indice_de (P k) j x ++ ptr_encode (P k !!! (85 * j + x)%nat).
Proof.
  intros H. unfold indice_de, slice. rewrite <- length_P in H.
  rewrite (take_S_r _ x (P k !!! (85 * j + x)%nat)).
  - rewrite fmap_app, concat_app. cbn [fmap list_fmap concat]. by rewrite app_nil_r.
  - rewrite lookup_drop. by apply list_lookup_lookup_total_lt.
Qed.

Lemma length_indice_de k j x :
  (k <= Nv)%nat -> (85 * j + x <= length (cont k))%nat -> length (indice_de (P k) j x) = (x * PTR_LEN)%nat.
Proof.
  intros Hk H. unfold indice_de.
  rewrite length_concat_ptrs by (by apply Forall_slice, cont_ok). unfold slice.
  rewrite length_take, length_drop, length_P. unfold PTR_LEN. lia.
Qed.

(** A block is full, or it is the last of its level. *)
Lemma cont_cierra k j x :
  (85 * j < length (cont k))%nat -> x = 85%nat \/ (85 * j + x)%nat = length (cont k) -> (x <= 85)%nat ->
  cont (S k) !!! j = indice_de (P k) j x.
Proof.
  intros Hj Hx H85. rewrite cont_lookup by (by apply techo_lt).
  destruct Hx as [->|Hx]; [done|]. unfold indice_de, slice.
  by rewrite !(take_ge (drop _ _)) by (rewrite length_drop, length_P; lia).
Qed.

(** The addresses of two blocks of the tree differ. *)
Lemma B_inj k i j j' : (j < length (cont k))%nat -> (j' < length (cont i))%nat ->
  B k + Z.of_nat j = B i + Z.of_nat j' -> k = i /\ j = j'.
Proof.
  intros Hj Hj' E. destruct (Nat.lt_trichotomy k i) as [H|[<-|H]]; [|split; [done|lia]|].
  - pose proof (B_mono (S k) i ltac:(lia)). rewrite (B_S k) in *. lia.
  - pose proof (B_mono (S i) k ltac:(lia)). rewrite (B_S i) in *. lia.
Qed.

Lemma B_rango k j : (k <= Nv)%nat -> (j < length (cont k))%nat ->
  base <= B k + Z.of_nat j < B (S Nv).
Proof.
  intros Hk Hj. pose proof (B_mono 0 k ltac:(lia)) as H0.
  pose proof (B_mono (S k) (S Nv) ltac:(lia)). rewrite (B_S k) in *. unfold B in H0 at 1. cbn in H0. lia.
Qed.

(** ** The writer's state

    [e k] blocks of level [k] are written; [h k] pointers have been hung from
    level [k], and the ones that are not in a written block are in the buffer. *)

Variable s0 : gmap Z (list Z).

Record escritos (cur : list Z) (s : gmap Z (list Z)) (e : nat -> nat) : Prop := {
  es_len : length cur = FILAS;
  es_cota k : (k <= Nv)%nat -> (e k <= length (cont k))%nat;
  es_cur k : (k <= Nv)%nat -> cur !!! k = B k + Z.of_nat (e k);
  es_blq k j : (k <= Nv)%nat -> (j < e k)%nat ->
    s !! (B k + Z.of_nat j) = Some (relleno (cont k !!! j));
  es_marco l : l < base \/ B (S Nv) <= l -> s !! l = s0 !! l
}.

Record pendiente (a : Arbol) (e h : nat -> nat) (k : nat) : Prop := {
  pe_cota : (h (S k) <= length (cont k))%nat;
  pe_lleno : lleno a !!! S k = (h (S k) - 85 * e (S k))%nat;
  pe_85 : (h (S k) - 85 * e (S k) <= 85)%nat;
  pe_len : length (indice a !!! k) = BLOQUE;
  pe_ind : take ((h (S k) - 85 * e (S k)) * PTR_LEN) (indice a !!! k) =
    indice_de (P k) (e (S k)) (h (S k) - 85 * e (S k))
}.

Record inv (a : Arbol) (s : gmap Z (list Z)) (e h : nat -> nat) : Prop := {
  in_niv : niveles (plan a) = Nv;
  in_por : por_nivel (plan a) !!! 0%nat = Z.of_nat (length ds);
  in_lleno : length (lleno a) = FILAS;
  in_ind : (Nv <= length (indice a))%nat;
  in_esc : escritos (cursor a) s e;
  in_pend k : (k < Nv)%nat -> pendiente a e h k;
  in_raiz : a_raiz a = if decide (h (S Nv) = 0%nat) then None else Some (P Nv !!! 0%nat);
  in_trozos : trozos a = Z.of_nat (e 0%nat)
}.

Lemma escritos_S cur s e k :
  escritos cur s e -> (k <= Nv)%nat -> (e k < length (cont k))%nat ->
  escritos (<[k := w64 (cur !!! k + 1)]> cur) (<[cur !!! k := relleno (cont k !!! e k)]> s)
    (upd e k (S (e k))).
Proof.
  intros [Hl Hc Hcur Hb Hm] Hk He. pose proof (B_rango k (e k) Hk He) as Hr.
  rewrite (Hcur k Hk). rewrite w64_small by (unfold is_u64; lia). split.
  - by rewrite length_insert.
  - intros i Hi. unfold upd. case_decide; [by subst|by apply Hc].
  - intros i Hi. unfold upd. case_decide; subst.
    + rewrite list_lookup_total_insert_eq by lia. lia.
    + rewrite list_lookup_total_insert_ne by done. by apply Hcur.
  - intros i j Hi Hj. destruct (decide (i = k /\ j = e k)) as [[-> ->]|Hne].
    + by rewrite lookup_insert_eq.
    + assert (Hj' : (j < e i)%nat) by (unfold upd in Hj; case_decide; [subst; lia|done]).
      rewrite lookup_insert_ne; [by apply Hb|]. intros E.
      pose proof (Hc i Hi). assert (Hji : (j < length (cont i))%nat) by (by eapply Nat.lt_le_trans, Hc).
      destruct (B_inj k i (e k) j He Hji E) as [-> <-]. by apply Hne.
  - intros l Hl'. rewrite lookup_insert_ne by lia. by apply Hm.
Qed.

Lemma take_put (q x : nat) (src b : list Z) :
  (x = q + length src)%nat -> (x <= length b)%nat -> take x (put q src b) = take q b ++ src.
Proof.
  intros -> H. unfold put. rewrite app_assoc. apply take_app_length'.
  rewrite length_app, length_take. lia.
Qed.

(** Hanging a pointer where there is room. *)
Definition anotado (a : Arbol) (k : nat) (p : BlockPtr) : Arbol :=
  mkArbol (plan a) (cursor a)
    (<[k := put (lleno a !!! S k * PTR_LEN) (ptr_encode p) (indice a !!! k)]> (indice a))
    (<[S k := S (lleno a !!! S k)]> (lleno a)) (a_raiz a) (trozos a).

Lemma anotado_inv a s e h k :
  inv a s e h -> (k < Nv)%nat -> (85 * e (S k) <= h (S k) < 85 * e (S k) + 85)%nat ->
  (h (S k) < length (cont k))%nat ->
  inv (anotado a k (P k !!! h (S k))) s e (upd h (S k) (S (h (S k)))).
Proof.
  intros [I1 I2 I3 I4 I5 I6 I7 I8] Hk Hx Hh.
  split; try done; cbn [anotado lleno indice plan trozos a_raiz cursor].
  - by rewrite length_insert.
  - by rewrite length_insert.
  - intros i Hi. destruct (decide (i = k)) as [->|Hne].
    + destruct (I6 k Hk) as [J1 J2 J3 J4 J5].
      assert (Hp : length (ptr_encode (P k !!! h (S k))) = PTR_LEN).
      { apply length_ptr_encode, p_hash. eapply (Forall_lookup_1 _ _ _ _ (proj2 (cont_ok k ltac:(lia)))).
        apply list_lookup_lookup_total_lt. by rewrite length_P. }
      unfold PTR_LEN in *. unfold BLOQUE in J4.
      split; rewrite ?upd_eq; cbn [anotado lleno indice plan trozos a_raiz cursor].
      * lia.
      * rewrite list_lookup_total_insert_eq by lia. lia.
      * lia.
      * rewrite list_lookup_total_insert_eq by lia. rewrite J2. rewrite length_put; [done|unfold PTR_LEN; lia].
      * rewrite list_lookup_total_insert_eq by lia. rewrite J2.
        unfold PTR_LEN. rewrite (take_put ((h (S k) - 85 * e (S k)) * 48)) by lia.
        replace (S (h (S k)) - 85 * e (S k))%nat with (S (h (S k) - 85 * e (S k))) by lia.
        rewrite indice_de_S by lia. rewrite J5. do 3 f_equal. lia.
    + destruct (I6 i Hi) as [J1 J2 J3 J4 J5].
      split; rewrite ?(upd_ne h (S k)) by lia; cbn [anotado lleno indice plan trozos a_raiz cursor]; try done.
      * by rewrite list_lookup_total_insert_ne by lia.
      * by rewrite list_lookup_total_insert_ne by lia.
      * by rewrite list_lookup_total_insert_ne by lia.
  - rewrite upd_ne by lia. done.
Qed.

(** Writing a block of pointers that is full, or the last one. *)
Lemma cerrar_nivel_inv a s e h k :
  inv a s e h -> (k < Nv)%nat -> (85 * e (S k) < h (S k))%nat ->
  (h (S k) = 85 * e (S k) + 85 \/ h (S k) = length (cont k))%nat ->
  exists a' s', cerrar_nivel poner_m a s (S k) = (a', s', Ok (P (S k) !!! e (S k))) /\
    inv a' s' (upd e (S k) (S (e (S k)))) h.
Proof.
  intros [I1 I2 I3 I4 I5 I6 I7 I8] Hk Hx Hh. destruct (I6 k Hk) as [J1 J2 J3 J4 J5].
  assert (He : (e (S k) < length (cont (S k)))%nat)
    by (rewrite length_cont_S; apply techo_lt; lia).
  assert (Hd : indice_de (P k) (e (S k)) (h (S k) - 85 * e (S k)) = cont (S k) !!! e (S k))
    by (symmetry; apply cont_cierra; lia).
  unfold cerrar_nivel. replace (S k - 1)%nat with k by lia. rewrite J2, J5, Hd. cbn [poner_m].
  do 2 eexists. split; [rewrite (P_lookup (S k)) by done; by rewrite (es_cur _ _ _ I5) by lia|].
  split; cbn [anotado lleno indice plan trozos a_raiz cursor]; try done.
  - by rewrite length_insert.
  - rewrite <- (es_cur _ _ _ I5 (S k)) by lia. by apply escritos_S.
  - intros i Hi. destruct (I6 i Hi) as [K1 K2 K3 K4 K5]. destruct (decide (i = k)) as [->|Hne].
    + assert (H0 : (h (S k) - 85 * S (e (S k)) = 0)%nat) by lia.
      split; rewrite ?upd_eq, ?H0; cbn [lleno indice]; try done; [|lia].
      by rewrite list_lookup_total_insert_eq by (unfold FILAS, NIVELES_MAX in *; lia).
    + split; rewrite ?(upd_ne e (S k)) by lia; cbn [lleno indice]; try done.
      by rewrite list_lookup_total_insert_ne by lia.
Qed.

(** Above level [k] every full buffer has been written. *)
Definition firme (k : nat) (e h : nat -> nat) : Prop :=
  forall i, (k < i <= Nv)%nat -> (85 * e i <= h i < 85 * e i + 85)%nat /\ h (S i) = e i.

Lemma raiz_inv a s e h :
  inv a s e h -> h (S Nv) = 0%nat ->
  inv (mkArbol (plan a) (cursor a) (indice a) (lleno a) (Some (P Nv !!! 0%nat)) (trozos a)) s e
    (upd h (S Nv) 1).
Proof.
  intros [I1 I2 I3 I4 I5 I6 I7 I8] H0. split; try done.
  - intros i Hi. destruct (I6 i Hi) as [K1 K2 K3 K4 K5].
    split; rewrite ?(upd_ne h (S Nv)) by lia; done.
  - cbn. by rewrite upd_eq.
Qed.

Lemma colgar_spec fuel a s e h k :
  inv a s e h -> (k <= Nv)%nat -> firme k e h -> (h (S k) < length (cont k))%nat -> (Nv - k < fuel)%nat ->
  exists a' s' e' h', colgar poner_m fuel a s (S k) (P k !!! h (S k)) = (a', s', Ok tt) /\
    inv a' s' e' h' /\ firme k e' h' /\ h' (S k) = S (h (S k)) /\
    forall i, (i <= k)%nat -> e' i = e i /\ h' i = h i.
Proof.
  revert a s e h k; induction fuel as [|fuel IH]; intros a s e h k I Hk Hf Hh Hfu; [lia|].
  cbn [colgar]. rewrite (in_niv _ _ _ _ I). destruct (decide (k = Nv)) as [->|Hne].
  { rewrite (proj2 (Nat.ltb_lt _ _)) by lia. rewrite Hcima in Hh.
    assert (H0 : h (S Nv) = 0%nat) by lia. rewrite H0.
    do 2 eexists. exists e, (upd h (S Nv) 1). split_and!; [done|by apply raiz_inv| |by rewrite upd_eq|].
    - intros i Hi. lia.
    - intros i Hi. by rewrite upd_ne by lia. }
  rewrite (proj2 (Nat.ltb_ge _ _)) by lia. replace (S k - 1)%nat with k by lia.
  destruct (Hf (S k) ltac:(lia)) as [Hx Hsig].
  pose proof (anotado_inv a s e h k I ltac:(lia) Hx Hh) as I'.
  change (mkArbol _ _ _ _ _ _) with (anotado a k (P k !!! h (S k))). cbv zeta.
  set (a1 := anotado a k _) in *. set (h1 := upd h (S k) (S (h (S k)))) in *.
  assert (Hh1 : h1 (S k) = S (h (S k))) by apply upd_eq.
  assert (Hh1' : forall i, i <> S k -> h1 i = h i) by (intros; by apply upd_ne).
  destruct (in_pend _ _ _ _ I' k ltac:(lia)) as [_ J2 _ _ _]. rewrite J2, Hh1. clearbody a1 h1.
  case_if; [apply Nat.ltb_lt in Heqb|apply Nat.ltb_ge in Heqb]; unfold PTRS_POR_BLOQUE in Heqb.
  { exists a1, s, e, h1. split_and!; [done..| |done|].
    - intros i Hi. destruct (decide (i = S k)) as [->|]; [rewrite Hh1, Hh1' by lia; lia|].
      rewrite !Hh1' by lia. apply Hf. lia.
    - intros i Hi. by rewrite Hh1' by lia. }
  destruct (cerrar_nivel_inv a1 s e h1 k I') as (a2 & s2 & -> & I2); [lia..|].
  assert (Hlt : (e (S k) < length (cont (S k)))%nat).
  { pose proof (es_cota _ _ _ (in_esc _ _ _ _ I2) (S k) ltac:(lia)) as Hc. rewrite upd_eq in Hc. lia. }
  rewrite <- Hsig, <- (Hh1' (S (S k))) by lia.
  destruct (IH a2 s2 (upd e (S k) (S (e (S k)))) h1 (S k)) as (a3 & s3 & e3 & h3 & E & I3 & F3 & H3 & Hm);
    [done|lia| |rewrite Hh1', Hsig by lia; done|lia|].
  { intros i Hi. rewrite upd_ne, !Hh1' by lia. apply Hf. lia. }
  exists a3, s3, e3, h3. destruct (Hm (S k) ltac:(lia)) as [He3 Hh3]. rewrite upd_eq in He3.
  split_and!; [done..| | |].
  - intros i Hi. destruct (decide (i = S k)) as [->|]; [|apply F3; lia].
    rewrite He3, H3, Hh3, Hh1, (Hh1' (S (S k))) by lia. lia.
  - by rewrite Hh3, Hh1.
  - intros i Hi. destruct (Hm i ltac:(lia)) as [-> ->]. by rewrite upd_ne, Hh1' by lia.
Qed.

Lemma cont_0 : cont 0 = ds.
Proof. done. Qed.
Lemma B_0 : B 0 = base.
Proof. done. Qed.

Lemma trozo_inv a s e h :
  inv a s e h -> (e 0 < length ds)%nat ->
  inv (mkArbol (plan a) (<[0%nat := w64 (cursor a !!! 0%nat + 1)]> (cursor a)) (indice a) (lleno a)
         (a_raiz a) (w64 (trozos a + 1)))
    (<[cursor a !!! 0%nat := relleno (ds !!! e 0%nat)]> s) (upd e 0 (S (e 0%nat))) h.
Proof.
  intros [I1 I2 I3 I4 I5 I6 I7 I8] He.
  split; cbn [plan cursor indice lleno a_raiz trozos]; try done.
  - apply escritos_S; [done|lia|done].
  - intros k Hk. destruct (I6 k Hk) as [K1 K2 K3 K4 K5]. split; rewrite ?upd_ne by lia; done.
  - pose proof (B_mono 1 (S Nv) ltac:(lia)) as Hb. rewrite B_S, cont_0, B_0 in Hb.
    rewrite I8, upd_eq, w64_small by (unfold is_u64; lia). lia.
Qed.

Lemma empujar_spec a s e h :
  inv a s e h -> firme 0 e h -> h 1%nat = e 0%nat -> (e 0 < length ds)%nat ->
  exists a' s' e' h', empujar poner_m a s (ds !!! e 0%nat) = (a', s', Ok tt) /\
    inv a' s' e' h' /\ firme 0 e' h' /\ h' 1%nat = e' 0%nat /\ e' 0%nat = S (e 0%nat).
Proof.
  intros I Hf Hh He. unfold empujar.
  destruct (lookup_lt_is_Some_2 ds (e 0%nat) He) as [d Hd].
  pose proof (Forall_lookup_1 _ _ _ _ Hds Hd) as Hlen. cbv beta in Hlen.
  rewrite (list_lookup_total_correct _ _ _ Hd) in *.
  rewrite (proj2 (Nat.eqb_neq _ _)), (proj2 (Nat.ltb_ge _ _)) by lia. cbn [orb].
  rewrite (in_por _ _ _ _ I), (in_trozos _ _ _ _ I), (proj2 (Z.leb_gt _ _)) by lia. cbn [poner_m].
  pose proof (trozo_inv a s e h I He) as I1. rewrite (in_trozos _ _ _ _ I) in I1.
  rewrite (list_lookup_total_correct _ _ _ Hd) in I1. cbv zeta.
  replace (ptr_nuevo _ 0 d) with (P 0 !!! h 1%nat).
  2: { rewrite P_lookup, Hh, cont_0 by (by rewrite Hh, cont_0).
       rewrite (es_cur _ _ _ (in_esc _ _ _ _ I) 0 (Nat.le_0_l Nv)).
       by rewrite (list_lookup_total_correct _ _ _ Hd). }
  destruct (colgar_spec (S FILAS) _ _ _ _ 0 I1) as (a2 & s2 & e2 & h2 & -> & I2 & F2 & H2 & Hm);
    [lia|by intros i Hi; rewrite upd_ne by lia; apply Hf|by rewrite Hh, cont_0|lia|].
  exists a2, s2, e2, h2. destruct (Hm 0%nat ltac:(lia)) as [H0 _]. rewrite upd_eq in H0.
  split_and!; [done..| |done]. by rewrite H2, H0, Hh.
Qed.

Lemma empujar_todo_spec n a s e h :
  inv a s e h -> firme 0 e h -> h 1%nat = e 0%nat -> (e 0 + n = length ds)%nat ->
  exists a' s' e' h', empujar_todo poner_m a s (drop (e 0%nat) ds) = (a', s', Ok tt) /\
    inv a' s' e' h' /\ firme 0 e' h' /\ h' 1%nat = length ds /\ e' 0%nat = length ds.
Proof.
  revert a s e h; induction n as [|n IH]; intros a s e h I F H He.
  { exists a, s, e, h. rewrite drop_ge by lia. split_and!; [done..|lia|lia]. }
  destruct (lookup_lt_is_Some_2 ds (e 0%nat) ltac:(lia)) as [d Hd].
  rewrite (drop_S _ _ _ Hd). cbn [empujar_todo]. apply list_lookup_total_correct in Hd as <-.
  destruct (empujar_spec a s e h) as (a1 & s1 & e1 & h1 & -> & I1 & F1 & H1 & E1); [done..|lia|].
  rewrite <- E1. apply IH with (h := h1); [done..|lia].
Qed.

Lemma cerrar_loop_spec fuel a s e h k :
  inv a s e h -> (k <= Nv)%nat -> firme k e h -> h (S k) = length (cont k) ->
  (forall i, (i <= k)%nat -> e i = length (cont i)) -> (Nv - k < fuel)%nat ->
  exists a' s' e' h', cerrar_loop poner_m fuel a s (S k) = (a', s', Ok tt) /\
    inv a' s' e' h' /\ h' (S Nv) = 1%nat /\ (forall i, (i <= Nv)%nat -> e' i = length (cont i)).
Proof.
  revert a s e h k; induction fuel as [|fuel IH]; intros a s e h k I Hk Hf Hh He Hfu; [lia|].
  cbn [cerrar_loop]. rewrite (in_niv _ _ _ _ I). destruct (decide (k = Nv)) as [->|Hne].
  { rewrite (proj2 (Nat.leb_gt _ _)) by lia. exists a, s, e, h. by rewrite Hcima in Hh. }
  rewrite (proj2 (Nat.leb_le _ _)) by lia. destruct (Hf (S k) ltac:(lia)) as [Hx Hsig].
  destruct (in_pend _ _ _ _ I k ltac:(lia)) as [_ J2 _ _ _]. rewrite J2.
  pose proof (length_cont_S k) as Ht. unfold techo in Ht. rewrite <- Hh in Ht.
  case_if; [apply Nat.ltb_lt in Heqb|apply Nat.ltb_ge in Heqb].
  2: { apply IH with (e := e) (h := h); [done|lia| |lia| |lia]; [intros i Hi; apply Hf; lia|].
       intros i Hi. destruct (decide (i = S k)) as [->|]; [lia|apply He; lia]. }
  destruct (cerrar_nivel_inv a s e h k I) as (a1 & s1 & -> & I1); [lia|lia|by right|].
  rewrite <- Hsig. destruct (colgar_spec (S FILAS) a1 s1 _ h (S k) I1)
    as (a2 & s2 & e2 & h2 & -> & I2 & F2 & H2 & Hm); [lia| |lia|lia|].
  { intros i Hi. rewrite upd_ne by lia. apply Hf. lia. }
  apply IH with (e := e2) (h := h2); [done|lia|done|lia| |lia].
  intros i Hi. destruct (Hm i Hi) as [-> _].
  destruct (decide (i = S k)) as [->|]; [rewrite upd_eq; lia|rewrite upd_ne by done; apply He; lia].
Qed.

(** The whole tree is in the store, and the root points to its top. *)
Definition guardado (s : gmap Z (list Z)) : Prop :=
  forall k j, (k <= Nv)%nat -> (j < length (cont k))%nat ->
    s !! (B k + Z.of_nat j) = Some (relleno (cont k !!! j)).

Lemma escribir_inv a :
  inv a s0 (fun _ => 0%nat) (fun _ => 0%nat) ->
  exists s', escribir poner_m a s0 ds = (s', Ok (P Nv !!! 0%nat)) /\ guardado s' /\
    (forall l, l < base \/ B (S Nv) <= l -> s' !! l = s0 !! l).
Proof.
  intros I. unfold escribir.
  destruct (empujar_todo_spec (length ds) a s0 _ _ I) as (a1 & s1 & e1 & h1 & E & I1 & F1 & H1 & E1);
    [intros i Hi; lia|done|done|]. rewrite drop_0 in E. rewrite E. unfold cerrar.
  rewrite (in_trozos _ _ _ _ I1), (in_por _ _ _ _ I1), E1, Z.eqb_refl. cbn [negb].
  destruct (cerrar_loop_spec (S FILAS) a1 s1 e1 h1 0 I1)
    as (a2 & s2 & e2 & h2 & -> & I2 & H2 & E2); [lia|done|done| |lia|].
  { intros i Hi. by replace i with 0%nat by lia. }
  exists s2. rewrite (in_raiz _ _ _ _ I2), H2. split_and!; [done| |apply (in_esc _ _ _ _ I2)].
  intros k j Hk Hj. apply (es_blq _ _ _ (in_esc _ _ _ _ I2) k j Hk). by rewrite E2.
Qed.

(** ** Reading the tree back *)

Lemma indice_de_lookup k j i x :
  (k <= Nv)%nat -> (i < x)%nat -> (85 * j + x <= length (cont k))%nat ->
  slice (i * PTR_LEN) PTR_LEN (indice_de (P k) j x) = ptr_encode (P k !!! (85 * j + i)%nat).
Proof.
  intros Hk. induction x as [|x IH]; intros Hi Hx; [lia|]. rewrite indice_de_S by lia.
  pose proof (length_indice_de k j x Hk ltac:(lia)) as Hl. unfold PTR_LEN in *.
  destruct (decide (i = x)) as [->|Hne]; [|rewrite slice_app by lia; apply IH; lia].
  unfold slice. rewrite drop_app_length' by done. apply take_ge.
  rewrite length_ptr_encode; [unfold PTR_LEN; lia|]. apply p_hash.
  eapply (Forall_lookup_1 _ _ _ _ (proj2 (cont_ok k Hk))).
  apply list_lookup_lookup_total_lt. rewrite length_P. lia.
Qed.

(** How many pointers block [j] of level [S k] holds. *)
Definition hijos_de (k j : nat) : nat := Nat.min 85 (length (cont k) - 85 * j).

Lemma cont_hijos k j : (k < Nv)%nat -> (j < length (cont (S k)))%nat ->
  cont (S k) !!! j = indice_de (P k) j (hijos_de k j) /\
  length (cont (S k) !!! j) = (hijos_de k j * PTR_LEN)%nat /\
  (85 * j + hijos_de k j <= length (cont k))%nat.
Proof.
  intros Hk Hj. rewrite length_cont_S in Hj. apply techo_lt in Hj. unfold hijos_de.
  rewrite (cont_cierra k j (Nat.min 85 (length (cont k) - 85 * j))) by lia.
  rewrite length_indice_de by lia. split_and!; [done..|lia].
Qed.

Lemma slice_slice {A} o n m (b : list A) : slice o (n + m) b = slice o n b ++ slice (o + n) m b.
Proof. unfold slice. rewrite <- drop_drop. symmetry. apply take_take_drop. Qed.

Variables (X : Type) (salida : X -> list Z -> X * bool).

(** The consumer sees the pieces one by one until it says no. *)
Fixpoint entrega (r : X * bool) (l : list (list Z)) : X * bool :=
  match l with
  | [] => r
  | d :: l => if snd r then entrega (salida (fst r) d) l else r
  end.

Lemma entrega_parado r l : snd r = false -> entrega r l = r.
Proof. destruct l; simpl; [done|]. by intros ->. Qed.
Lemma entrega_app r l l' : entrega r (l ++ l') = entrega (entrega r l) l'.
Proof.
  revert r; induction l as [|d l IH]; intros r; [done|]. simpl. case_if; [apply IH|].
  by rewrite entrega_parado.
Qed.

(** The pieces below block [j] of level [k]. *)
Definition bajo (k j n : nat) : list (list Z) := slice (j * 85 ^ k) (n * 85 ^ k) ds.

Lemma bajo_S k j n : bajo k j (S n) = bajo k j 1 ++ bajo k (S j) n.
Proof.
  unfold bajo. replace (S n * 85 ^ k)%nat with (1 * 85 ^ k + n * 85 ^ k)%nat by lia.
  rewrite slice_slice. do 2 f_equal. lia.
Qed.

Definition lleva (s : gmap Z (list Z)) (r : X * bool) : lector * result unit FormatError :=
  ((s, fst r, snd r), Ok tt).

Lemma length_ds_le k : (length ds <= length (cont k) * 85 ^ k)%nat.
Proof.
  induction k as [|k IH]; [rewrite cont_0; simpl; lia|]. rewrite length_cont_S, Nat.pow_succ_r by lia.
  unfold techo. etrans; [exact IH|]. rewrite Nat.mul_assoc. apply Nat.mul_le_mono_r. lia.
Qed.

(** A block holds all the pieces below it, also the last one of its level. *)
Lemma bajo_hijos k j : (j < length (cont (S k)))%nat ->
  bajo (S k) j 1 = bajo k (85 * j) (hijos_de k j).
Proof.
  intros Hj. rewrite length_cont_S in Hj. apply techo_lt in Hj. pose proof (length_ds_le k) as Hl.
  unfold bajo, hijos_de, slice. rewrite Nat.pow_succ_r by lia.
  replace (j * (85 * 85 ^ k))%nat with (85 * j * 85 ^ k)%nat by lia.
  destruct (Nat.le_gt_cases 85 (length (cont k) - 85 * j)) as [H|H].
  - rewrite Nat.min_l by done. f_equal. lia.
  - rewrite Nat.min_r, !(take_ge (drop _ _)) by (rewrite ?length_drop; nia). done.
Qed.

Lemma P_campos k j : (k <= Nv)%nat -> (j < length (cont k))%nat ->
  let p := P k !!! j in let c := cont k !!! j in
  lba p = B k + Z.of_nat j /\ off p = 0 /\ len p = Z.of_nat (length c) /\
  (1 <= length c <= BLOQUE)%nat /\ verifica p c = true /\ es_nulo p = false.
Proof.
  intros Hk Hj. cbv zeta. rewrite P_lookup by done.
  destruct (lookup_lt_is_Some_2 _ _ Hj) as [c Hc].
  pose proof (Forall_lookup_1 _ _ _ _ (proj1 (cont_ok k Hk)) Hc) as Hl. cbv beta in Hl.
  rewrite (list_lookup_total_correct _ _ _ Hc).
  assert (Hw : w32 (Z.of_nat (length c)) = Z.of_nat (length c))
    by (apply w32_small; unfold is_u32, BLOQUE in *; lia).
  unfold verifica, es_nulo, ptr_nuevo. cbn [lba off len hash]. rewrite Hw.
  split_and!; [done..|lia|lia| |].
  - rewrite Z.eqb_refl. by rewrite bool_decide_eq_true_2.
  - rewrite (proj2 (Z.eqb_neq _ _)) by lia. done.
Qed.

(** One step of the descent: the block is there, complete and intact. *)
Lemma bajar_paso niv s k j x scratch :
  guardado s -> (k <= Nv)%nat -> (j < length (cont k))%nat ->
  bajar bloque_m salida niv (S scratch) (s, x, true) (P k !!! j) =
  match niv with
  | O => lleva s (salida x (cont k !!! j))
  | S niv => hijos (bajar bloque_m salida niv scratch) (s, x, true) (cont k !!! j) 0
               (length (cont k !!! j) / PTR_LEN)
  end.
Proof.
  intros Hs Hk Hj. destruct (P_campos k j Hk Hj) as (Hl & Ho & Hn & Hc & Hv & _).
  assert (E : forall T (K : list Z -> T), match bloque_m s (lba (P k !!! j)) with
    | (_, None) => K [] | (_, Some m) => K m end = K (relleno (cont k !!! j)))
    by (intros; cbn [bloque_m]; by rewrite Hl, (Hs k j Hk Hj)).
  assert (Hm : slice 0 (length (cont k !!! j)) (relleno (cont k !!! j)) = cont k !!! j)
    by (unfold slice, relleno, pad; rewrite drop_0; apply take_app_length).
  assert (H48 : (Z.of_nat BLOQUE <? 0 + Z.of_nat (length (cont k !!! j))) = false)
    by (apply Z.ltb_ge; lia).
  destruct niv; cbn [bajar negb bloque_m]; rewrite Hl, (Hs k j Hk Hj), Ho, Hn, H48;
    change (Z.to_nat 0) with 0%nat; rewrite Nat2Z.id, Hm, Hv; cbn [negb]; [|done].
  unfold lleva. by destruct (salida x (cont k !!! j)).
Qed.

Lemma bajar_parado niv s x scratch p :
  bajar bloque_m salida niv scratch (s, x, false) p = lleva s (x, false).
Proof. by destruct niv. Qed.

Lemma hijos_spec k s j m scratch :
  guardado s -> (k < Nv)%nat -> (j < length (cont (S k)))%nat ->
  (forall j' r, (j' < length (cont k))%nat ->
    bajar bloque_m salida k scratch (s, fst r, snd r) (P k !!! j') = lleva s (entrega r (bajo k j' 1))) ->
  forall i r, (i + m = hijos_de k j)%nat -> snd r = true ->
  hijos (bajar bloque_m salida k scratch) (s, fst r, snd r) (cont (S k) !!! j) i m =
  lleva s (entrega r (bajo k (85 * j + i) m)).
Proof.
  intros Hs Hk Hj IH. destruct (cont_hijos k j Hk Hj) as (-> & _ & Hc).
  induction m as [|m IHm]; intros i r Hi Hr; [unfold bajo, slice; by rewrite take_0|].
  cbn [hijos]. rewrite indice_de_lookup by lia.
  assert (Hj' : (85 * j + i < length (cont k))%nat) by lia.
  destruct (P_campos k (85 * j + i)) as (_ & _ & _ & _ & _ & Hn); [lia|done|].
  rewrite ptr_roundtrip by (eapply (Forall_lookup_1 _ _ _ _ (proj2 (cont_ok k ltac:(lia)))),
    list_lookup_lookup_total_lt; by rewrite length_P).
  rewrite Hn, IH, (bajo_S k (85 * j + i) m), entrega_app by done. unfold lleva at 1.
  set (r' := entrega r (bajo k (85 * j + i) 1)). cbn [snd]. destruct (snd r') eqn:Er; cbn [negb].
  - replace (S (85 * j + i)) with (85 * j + S i)%nat by lia. rewrite <- Er. apply IHm; [lia|done].
  - rewrite <- Er. by rewrite entrega_parado.
Qed.

Lemma bajar_spec s k : guardado s -> (k <= Nv)%nat -> forall scratch j r,
  (k < scratch)%nat -> (j < length (cont k))%nat ->
  bajar bloque_m salida k scratch (s, fst r, snd r) (P k !!! j) = lleva s (entrega r (bajo k j 1)).
Proof.
  intros Hs. induction k as [|k IH]; intros Hk [|scratch] j r Hsc Hj; try lia;
    (destruct r as [x [|]]; cbn [fst snd]; [|by rewrite bajar_parado, entrega_parado]);
    rewrite bajar_paso by done.
  - rewrite cont_0 in *. unfold bajo, slice. rewrite Nat.pow_0_r, !Nat.mul_1_r.
    destruct (lookup_lt_is_Some_2 ds j Hj) as [d Hd].
    rewrite (drop_S _ _ _ Hd), (list_lookup_total_correct _ _ _ Hd). by cbn.
  - destruct (cont_hijos k j ltac:(lia) Hj) as (_ & Hl & _). rewrite Hl.
    rewrite Nat.div_mul by done. rewrite bajo_hijos by done.
    rewrite (hijos_spec k s j (hijos_de k j) scratch Hs ltac:(lia) Hj) with (r := (x, true));
      [by rewrite Nat.add_0_r|intros; apply IH; lia|lia|done].
Qed.

(** With too few buffers the descent stops before the first piece. *)
Lemma bajar_corto s k : guardado s -> (k <= Nv)%nat -> forall scratch j x,
  (scratch <= k)%nat -> (j < length (cont k))%nat ->
  bajar bloque_m salida k scratch (s, x, true) (P k !!! j) = ((s, x, true), Err SinScratch).
Proof.
  intros Hs. induction k as [|k IH]; intros Hk [|scratch] j x Hsc Hj; try lia; [done|done|].
  rewrite bajar_paso by done. destruct (cont_hijos k j ltac:(lia) Hj) as (Ec & Hl & Hc).
  rewrite Hl, Nat.div_mul by done. rewrite Ec.
  assert (H1 : (1 <= hijos_de k j)%nat)
    by (rewrite length_cont_S in Hj; apply techo_lt in Hj; unfold hijos_de; lia).
  rewrite <- (Nat.succ_pred (hijos_de k j)) at 2 by lia. cbn [hijos].
  rewrite indice_de_lookup by lia. rewrite Nat.add_0_r.
  assert (Hj' : (85 * j < length (cont k))%nat) by lia.
  destruct (P_campos k (85 * j)) as (_ & _ & _ & _ & _ & Hn); [lia|done|].
  rewrite ptr_roundtrip by (eapply (Forall_lookup_1 _ _ _ _ (proj2 (cont_ok k ltac:(lia)))),
    list_lookup_lookup_total_lt; by rewrite length_P).
  by rewrite Hn, IH by (done || lia).
Qed.

Lemma descender_spec s x scratch : guardado s -> (Nv < scratch)%nat ->
  descender bloque_m salida s x (P Nv !!! 0%nat) Nv scratch = lleva s (entrega (x, true) ds).
Proof.
  intros Hs Hsc. unfold descender. assert (H0 : (0 < length (cont Nv))%nat) by (rewrite Hcima; lia).
  pose proof (bajar_spec s Nv Hs (le_n _) scratch 0 (x, true) Hsc H0) as E. cbn [fst snd] in E.
  rewrite E.
  do 2 f_equal. unfold bajo, slice. rewrite drop_0. apply take_ge.
  pose proof (length_ds_le Nv) as H. rewrite Hcima in H. lia.
Qed.
End Arbol.

(** * Any source, any store

    What the reader and the writer do to the state behind their callbacks,
    whatever it answers: [Rel] is any preorder the callbacks respect. *)

Section Relacion.
Context {St : Type} (Rel : St -> St -> Prop).
Hypothesis Rel_refl : forall s, Rel s s.
Hypothesis Rel_trans : forall s1 s2 s3, Rel s1 s2 -> Rel s2 s3 -> Rel s1 s3.

Section Lectura.
Context {X : Type} (bloque : St -> Z -> St * option (list Z)) (salida : X -> list Z -> X * bool).
Hypothesis Hb : forall s l, Rel s (fst (bloque s l)).

Definition fuente (st : St * X * bool) : St := fst (fst st).

Lemma hijos_rel (hijo : lector (F := St) (X := X) -> BlockPtr -> lector (F := St) (X := X) * result unit FormatError)
  datos n : (forall st p, Rel (fuente st) (fuente (fst (hijo st p)))) ->
  forall i st, Rel (fuente st) (fuente (fst (hijos hijo st datos i n))).
Proof.
  intros Hh. induction n as [|n IH]; intros i st; cbn [hijos]; [apply Rel_refl|].
  destruct (ptr_decode _) as [p|]; [|apply Rel_refl]. case_if; [apply Rel_refl|].
  specialize (Hh st p). destruct (hijo st p) as [st' [u|]]; cbn [fst] in Hh; [|exact Hh].
  case_if; [exact Hh|]. eapply Rel_trans; [exact Hh|apply IH].
Qed.

Lemma bajar_rel niv : forall scratch st p, Rel (fuente st) (fuente (fst (bajar bloque salida niv scratch st p))).
Proof.
  induction niv as [|niv IH]; intros [|scratch] [[f x] g] p; cbn [bajar];
    (destruct g; cbn [negb]; [|apply Rel_refl]); try apply Rel_refl;
    specialize (Hb f (lba p)); destruct (bloque f (lba p)) as [f' [mio|]]; cbn [fst] in Hb; try exact Hb;
    cbv zeta; (case_if; [exact Hb|]); (case_if; [exact Hb|]).
  - by destruct (salida x _).
  - eapply Rel_trans; [exact Hb|]. refine (hijos_rel _ _ _ _ 0 (f', x, true)). intros; apply IH.
Qed.
End Lectura.

Section Escritura.
Variable poner : St -> Z -> list Z -> St * bool.
Variables lo hi : Z.
Hypothesis Hp : forall s l d, lo <= l < hi -> Rel s (fst (poner s l d)).
Hypothesis Hhi : 0 <= lo /\ hi < 2 ^ 64.

(** Every cursor has room for [n] more blocks, [n + 1] from level [k] on. *)
Definition holgura (n k : nat) (a : Arbol) : Prop :=
  length (cursor a) = FILAS /\ (niveles (plan a) < FILAS)%nat /\
  forall i, (i < FILAS)%nat -> lo <= cursor a !!! i /\
    cursor a !!! i + Z.of_nat (if decide (i < k)%nat then n else S n) <= hi.

Lemma holgura_mono n n' k k' a : holgura n k a -> (n' <= n)%nat -> (k <= k' \/ n' < n)%nat -> holgura n' k' a.
Proof.
  intros (H1 & H2 & H3) Hn Hk. split_and!; [done..|]. intros i Hi. specialize (H3 i Hi).
  destruct (decide (i < k)%nat), (decide (i < k')%nat); lia.
Qed.

Lemma holgura_avanza n k a : holgura n k a -> (k < FILAS)%nat -> forall a',
  cursor a' = <[k := w64 (cursor a !!! k + 1)]> (cursor a) -> plan a' = plan a ->
  lo <= cursor a !!! k < hi /\ holgura n (S k) a'.
Proof.
  intros (H1 & H2 & H3) Hk a' Hc Hpl. pose proof (H3 k Hk) as Hk'. rewrite decide_False in Hk' by lia.
  split; [lia|]. split_and!; [by rewrite Hc, length_insert|by rewrite Hpl|]. intros i Hi. rewrite Hc.
  destruct (decide (i = k)) as [->|Hne].
  - rewrite list_lookup_total_insert_eq by lia. rewrite w64_small by (unfold is_u64; lia).
    rewrite decide_True by lia. lia.
  - rewrite list_lookup_total_insert_ne by done. specialize (H3 i Hi).
    destruct (decide (i < k)%nat), (decide (i < S k)%nat); lia.
Qed.

Lemma cerrar_nivel_rel n k a s a' s' r : holgura n k a -> (k < FILAS)%nat ->
  cerrar_nivel poner a s k = (a', s', r) ->
  Rel s s' /\ plan a' = plan a /\ trozos a' = trozos a /\ (forall p, r = Ok p -> holgura n (S k) a').
Proof.
  intros H Hk. unfold cerrar_nivel.
  destruct (holgura_avanza n k a H Hk (mkArbol (plan a) (<[k := w64 (cursor a !!! k + 1)]> (cursor a)) (indice a)
    (<[k := 0%nat]> (lleno a)) (a_raiz a) (trozos a)) eq_refl eq_refl) as [Hl Ha].
  pose proof (Hp s (cursor a !!! k) (take (lleno a !!! k * PTR_LEN) (indice a !!! (k - 1)%nat)) Hl) as Hp1.
  destruct (poner _ _ _) as [s1 [|]]; intros [= <- <- <-]; cbn [fst] in Hp1; by split_and!.
Qed.

Lemma colgar_rel fuel : forall n k a s p a' s' r, holgura n k a ->
  colgar poner fuel a s k p = (a', s', r) ->
  Rel s s' /\ plan a' = plan a /\ trozos a' = trozos a /\ (r = Ok tt -> holgura n FILAS a').
Proof.
  induction fuel as [|fuel IH]; intros n k a s p a' s' r H; cbn [colgar].
  { intros [= <- <- <-]. split_and!; [apply Rel_refl|done..]. }
  case_if.
  { intros [= <- <- <-]. split_and!; [apply Rel_refl|done..|]. intros _.
    destruct H as (H1 & H2 & H3). split_and!; [done..|]. intros i Hi. specialize (H3 i Hi). cbn [cursor].
    rewrite decide_True by done. destruct (decide (i < k)%nat); lia. }
  apply Nat.ltb_ge in Heqb. cbv zeta. set (a1 := mkArbol _ _ _ _ _ _).
  assert (H1 : holgura n k a1) by exact H. case_if.
  { intros [= <- <- <-]. split_and!; [apply Rel_refl|done..|]. intros _.
    destruct H as (H2 & H3 & H4). split_and!; [done..|]. intros i Hi. specialize (H4 i Hi). cbn [a1 cursor].
    rewrite decide_True by done. destruct (decide (i < k)%nat); lia. }
  destruct (cerrar_nivel poner a1 s k) as [[a2 s2] r2] eqn:E.
  assert (Hk : (k < FILAS)%nat) by (destruct H as (_ & H & _); lia).
  destruct (cerrar_nivel_rel n k a1 s a2 s2 r2 H1 Hk E) as (R1 & P1 & T1 & G1).
  destruct r2 as [q|]; [|intros [= <- <- <-]; split_and!; [done..|done]].
  intros E'. destruct (IH n (S k) a2 s2 q a' s' r (G1 q eq_refl) E') as (R2 & P2 & T2 & G2).
  split_and!; [by eapply Rel_trans|by rewrite P2, P1|by rewrite T2, T1|done].
Qed.

Lemma empujar_rel n a s d a' s' r : holgura (S n) 0 a -> empujar poner a s d = (a', s', r) ->
  Rel s s' /\ plan a' = plan a /\
  (r = Ok tt -> holgura n 0 a' /\ trozos a' = w64 (trozos a + 1) /\ trozos a < por_nivel (plan a) !!! 0%nat).
Proof.
  intros H. unfold empujar. case_if; [intros [= <- <- <-]; split_and!; [apply Rel_refl|done..]|].
  case_if; [intros [= <- <- <-]; split_and!; [apply Rel_refl|done..]|]. bdestr. cbv zeta.
  destruct (holgura_avanza (S n) 0 a H ltac:(unfold FILAS; lia) (mkArbol (plan a)
    (<[0%nat := w64 (cursor a !!! 0%nat + 1)]> (cursor a)) (indice a) (lleno a) (a_raiz a)
    (w64 (trozos a + 1))) eq_refl eq_refl) as [Hl Ha].
  pose proof (Hp s (cursor a !!! 0%nat) d Hl) as Hp1.
  destruct (poner _ _ _) as [s1 [|]]; cbn [fst] in Hp1; [|intros [= <- <- <-]; by split_and!].
  intros E. apply colgar_rel with (n := S n) in E as (R1 & P1 & T1 & G1); [|done].
  split_and!; [by eapply Rel_trans|done|]. intros ->. specialize (G1 eq_refl).
  split_and!; [|by rewrite T1|done]. eapply holgura_mono; [exact G1|lia|lia].
Qed.

Lemma cerrar_loop_rel fuel : forall n k a s a' s' r, holgura (n + fuel) 0 a ->
  cerrar_loop poner fuel a s k = (a', s', r) -> Rel s s'.
Proof.
  induction fuel as [|fuel IH]; intros n k a s a' s' r H; cbn [cerrar_loop].
  { intros [= <- <- <-]. apply Rel_refl. }
  assert (H' : holgura (n + fuel) 0 a) by (eapply holgura_mono; [exact H|lia|lia]).
  case_if; [|intros [= <- <- <-]; apply Rel_refl]. apply Nat.leb_le in Heqb.
  case_if; [|by apply IH with (n := n)].
  assert (Hk : (k < FILAS)%nat) by (destruct H as (_ & H & _); lia).
  destruct (cerrar_nivel poner a s k) as [[a1 s1] r1] eqn:E.
  destruct (cerrar_nivel_rel (n + S fuel) k a s a1 s1 r1
    ltac:(eapply holgura_mono; [exact H|lia|lia]) Hk E) as (R1 & _ & _ & G1).
  destruct r1 as [p|]; [|intros [= <- <- <-]; done]. specialize (G1 p eq_refl).
  destruct (colgar poner (S FILAS) a1 s1 (S k) p) as [[a2 s2] r2] eqn:E2.
  destruct (colgar_rel (S FILAS) (n + S fuel) (S k) a1 s1 p a2 s2 r2 G1 E2) as (R2 & _ & _ & G2).
  destruct r2 as [[]|]; [|intros [= <- <- <-]; by eapply Rel_trans].
  intros E3. apply IH with (n := n) in E3; [by eapply Rel_trans, Rel_trans|].
  eapply holgura_mono; [exact (G2 eq_refl)|lia|lia].
Qed.

Lemma cerrar_rel a s s' r : holgura (S FILAS) 0 a -> cerrar poner a s = (s', r) -> Rel s s'.
Proof.
  intros H. unfold cerrar. case_if; [intros [= <- <-]; apply Rel_refl|].
  destruct (cerrar_loop poner (S FILAS) a s 1) as [[a1 s1] r1] eqn:E.
  apply (cerrar_loop_rel (S FILAS) 0) in E; [|done]. by destruct r1; intros [= <- <-].
Qed.
End Escritura.
End Relacion.

(** * The plan of a tree *)

(** One turn of the loop is one level of the tree. *)
Lemma plan_loop_spec base ds fuel por k por' nv :
  plan_loop fuel por k (Z.of_nat (length (cont base ds k))) = Some (por', nv) ->
  length por = FILAS -> (k < FILAS)%nat ->
  (forall i, (i <= k)%nat -> por !!! i = Z.of_nat (length (cont base ds i))) ->
  (forall i, (k < i < FILAS)%nat -> por !!! i = 0) ->
  length por' = FILAS /\ (k <= nv < FILAS)%nat /\ (length (cont base ds nv) <= 1)%nat /\
  (forall i, (i <= nv)%nat -> por' !!! i = Z.of_nat (length (cont base ds i))) /\
  (forall i, (nv < i < FILAS)%nat -> por' !!! i = 0).
Proof.
  revert por k; induction fuel as [|fuel IH]; intros por k; cbn [plan_loop]; [done|].
  intros E Hl Hk Hc Hz. case_if_in E.
  2: { injection E as <- <-. bdestr. split_and!; [done..|lia|lia|done|done]. }
  cbv zeta in E. case_if_in E; [done|]. apply Nat.leb_gt in Heqb0.
  replace (div_ceil _ _) with (Z.of_nat (length (cont base ds (S k)))) in E
    by (rewrite length_cont_S; unfold techo, div_ceil, PTRS_POR_BLOQUE; lia).
  destruct (IH _ _ E) as (H1 & H2 & H3 & H4 & H5); [by rewrite length_insert|done| | |].
  - intros i Hi. destruct (decide (i = S k)) as [->|].
    + by rewrite list_lookup_total_insert_eq by lia.
    + rewrite list_lookup_total_insert_ne by done. apply Hc. lia.
  - intros i Hi. rewrite list_lookup_total_insert_ne by lia. apply Hz. lia.
  - split_and!; [done|lia..|done|done|done].
Qed.

Lemma suma_filas base ds n : base + foldr Z.add 0 ((fun i => Z.of_nat (length (cont base ds i))) <$> seq 0 n) = B base ds n.
Proof.
  induction n as [|n IH]; [simpl; unfold B; simpl; lia|].
  rewrite seq_S, fmap_app, foldr_app, B_S, <- IH. simpl.
  rewrite Z.add_0_r. generalize ((fun i => Z.of_nat (length (cont base ds i))) <$> seq 0 n).
  intros l. induction l; simpl; lia.
Qed.

Lemma foldl_w64 l t : is_u64 (t + foldr Z.add 0 l) -> 0 <= t -> Forall (fun x => 0 <= x) l ->
  foldl (fun t v => w64 (t + v)) t l = t + foldr Z.add 0 l.
Proof.
  unfold is_u64. intros Hu Ht H; revert t Hu Ht. induction H as [|x l Hx Hl IH]; intros t Hu Ht; [simpl; lia|].
  cbn [foldl foldr] in *.
  assert (0 <= foldr Z.add 0 l) by (clear -Hl; induction Hl; simpl; lia).
  rewrite w64_small by (unfold is_u64; lia). rewrite IH by lia. lia.
Qed.

Lemma cont_cota base ds k : (1 <= length ds)%nat -> (1 <= length (cont base ds k) <= length ds)%nat.
Proof.
  intros H. induction k as [|k IH]; [rewrite cont_0; lia|]. rewrite length_cont_S. unfold techo. lia.
Qed.

Lemma B_cota base ds k : (1 <= length ds)%nat -> B base ds k <= base + Z.of_nat (k * length ds).
Proof.
  intros H. induction k as [|k IH]; [unfold B; simpl; lia|].
  rewrite B_S. pose proof (cont_cota base ds k H). lia.
Qed.

Lemma foldr_ceros n : foldr Z.add 0 (replicate n 0) = 0.
Proof. induction n; simpl; lia. Qed.

Lemma total_spec base ds por nv :
  length por = FILAS -> (nv < FILAS)%nat -> (1 <= length ds)%nat -> Z.of_nat (length ds) <= 2 ^ 52 ->
  (forall i, (i <= nv)%nat -> por !!! i = Z.of_nat (length (cont base ds i))) ->
  (forall i, (nv < i < FILAS)%nat -> por !!! i = 0) ->
  foldl (fun t v => w64 (t + v)) 0 por = B base ds (S nv) - base.
Proof.
  intros Hl Hn H1 H52 Hc Hz.
  assert (E : por = ((fun i => Z.of_nat (length (cont base ds i))) <$> seq 0 (S nv)) ++
                    replicate (FILAS - S nv) 0).
  { apply (list_eq_same_length _ _ FILAS); [by rewrite length_app, length_fmap, length_seq, length_replicate; lia|done|].
    intros i x y Hi Hx Hy. apply list_lookup_total_correct in Hx, Hy. subst.
    destruct (decide (i <= nv)%nat).
    - rewrite lookup_total_app_l by (rewrite length_fmap, length_seq; lia). rewrite Hc by done.
      symmetry. apply list_lookup_total_correct. by rewrite list_lookup_fmap, lookup_seq_lt by lia.
    - rewrite lookup_total_app_r by (rewrite length_fmap, length_seq; lia).
      rewrite Hz by lia. symmetry. apply lookup_total_replicate_2.
      rewrite length_fmap, length_seq. lia. }
  pose proof (suma_filas base ds (S nv)) as Hs. pose proof (B_cota base ds (S nv) H1) as HB.
  pose proof (B_mono base ds 0 (S nv) ltac:(lia)) as H0. rewrite B_0 in H0.
  assert (Hf : foldr Z.add 0 por = B base ds (S nv) - base).
  { rewrite E, foldr_app, foldr_ceros. lia. }
  rewrite foldl_w64; rewrite ?Hf; [lia| |lia|].
  - unfold is_u64, FILAS, NIVELES_MAX in *. nia.
  - rewrite E. apply Forall_app. split; [|by apply Forall_replicate].
    apply Forall_fmap, Forall_true. intros i. cbn. lia.
Qed.

Definition trozos_de (size : Z) : Z := div_ceil size (Z.of_nat BLOQUE).

Lemma plan_de_filas base ds size p :
  plan_de size = Some p -> is_u64 size -> Z.of_nat (length ds) = trozos_de size ->
  (niveles p < FILAS)%nat /\ length (cont base ds (niveles p)) = 1%nat /\
  length (por_nivel p) = FILAS /\ total p = B base ds (S (niveles p)) - base /\
  (forall i, (i <= niveles p)%nat -> por_nivel p !!! i = Z.of_nat (length (cont base ds i))).
Proof.
  unfold plan_de, is_u64. intros E Hs Hd. case_if_in E; [done|]. bdestr.
  assert (H1 : (1 <= length ds)%nat) by (unfold trozos_de, div_ceil, BLOQUE in Hd; lia).
  assert (H52 : Z.of_nat (length ds) <= 2 ^ 52) by (unfold trozos_de, div_ceil, BLOQUE in Hd; lia).
  fold (trozos_de size) in E.
  replace (trozos_de size) with (Z.of_nat (length (cont base ds 0))) in E by (by rewrite cont_0).
  destruct (plan_loop _ _ _ _) as [[por' nv]|] eqn:El; [|done]. injection E as <-. cbn [niveles por_nivel total].
  destruct (plan_loop_spec base ds _ _ _ _ _ El) as (P1 & P2 & P3 & P4 & P5); [done|unfold FILAS; lia| | |].
  - intros i Hi. by replace i with 0%nat by lia.
  - intros i Hi. rewrite list_lookup_total_insert_ne by lia. apply lookup_total_replicate_2. lia.
  - pose proof (cont_cota base ds nv H1). split_and!; [lia|lia|done| |done].
    by apply total_spec; [..|lia|done|done|done|done].
Qed.

Lemma div_ceil_ltb q a b : 0 < b -> (q <? div_ceil a b) = (q * b <? a).
Proof.
  intros Hb. unfold div_ceil. apply eq_true_iff_eq. rewrite !Z.ltb_lt.
  split; intros H.
  - destruct (Z.lt_ge_cases (q * b) a) as [|Hge]; [done|].
    assert ((a + b - 1) / b < q + 1) by (apply Z.div_lt_upper_bound; nia). lia.
  - assert (q + 1 <= (a + b - 1) / b) by (apply Z.div_le_lower_bound; nia). lia.
Qed.

Lemma capacity_val :
  capacity 0 = 4096 /\ capacity 1 = 348160 /\ capacity 2 = 29593600 /\ capacity 3 = 2515456000 /\
  capacity 4 = 213813760000.
Proof. by vm_compute. Qed.

Lemma plan_niveles size : 0 < size -> niveles_para size = (fun p => Z.of_nat (niveles p)) <$> plan_de size.
Proof.
  intros H. unfold plan_de. rewrite (proj2 (Z.eqb_neq _ _)) by lia. cbv zeta.
  destruct capacity_val as (C0 & C1 & C2 & C3 & C4).
  unfold niveles_para, NIVELES_MAX. cbn [niveles_desde]. rewrite C0, C1, C2, C3, C4, !Z.leb_antisym.
  generalize (<[0%nat := div_ceil size (Z.of_nat BLOQUE)]> (replicate FILAS 0)). intros por.
  change (Z.of_nat BLOQUE) with 4096. change FILAS with 5%nat. cbn [plan_loop].
  change (Z.of_nat PTRS_POR_BLOQUE) with 85. cbn [Nat.leb]. rewrite !div_ceil_ltb by lia.
  change (1 * 4096) with 4096. change (1 * 85 * 4096) with 348160.
  change (1 * 85 * 85 * 4096) with 29593600. change (1 * 85 * 85 * 85 * 4096) with 2515456000.
  change (1 * 85 * 85 * 85 * 85 * 4096) with 213813760000.
  repeat (case_if; cbn [negb]); bdestr; try done; lia.
Qed.

(** No level of an accepted plan is larger than [2^26] blocks. *)
Lemma plan_loop_cota M fuel : forall por k n por' nv,
  plan_loop fuel por k n = Some (por', nv) -> 0 <= n <= M -> Forall (fun x => 0 <= x <= M) por -> (k < FILAS)%nat ->
  length por' = length por /\ Forall (fun x => 0 <= x <= M) por' /\ (nv < FILAS)%nat.
Proof.
  induction fuel as [|fuel IH]; intros por k n por' nv; cbn [plan_loop]; [done|].
  case_if; [|intros [= <- <-]; done]. cbv zeta. case_if; [done|]. intros E Hn Hp Hk.
  apply Nat.leb_gt in Heqb0. bdestr.
  assert (Hd : 0 <= div_ceil n (Z.of_nat PTRS_POR_BLOQUE) <= M)
    by (unfold div_ceil; change (Z.of_nat PTRS_POR_BLOQUE) with 85; lia).
  destruct (IH _ _ _ _ _ E Hd) as (H1 & H2 & H3); [by apply Forall_insert|done|].
  rewrite length_insert in H1. done.
Qed.

Lemma plan_de_cota size p : plan_de size = Some p -> 0 <= size ->
  length (por_nivel p) = FILAS /\ Forall (fun x => 0 <= x <= 2 ^ 26) (por_nivel p) /\ (niveles p < FILAS)%nat /\
  0 <= total p <= 2 ^ 29.
Proof.
  intros E Hs. assert (Hc : size <= 213813760000).
  { destruct (decide (size = 0)) as [->|Hne]; [lia|].
    pose proof (plan_niveles size ltac:(lia)) as Hn. rewrite E in Hn. destruct capacity_val as (C0 & C1 & C2 & C3 & C4).
    unfold niveles_para, NIVELES_MAX in Hn. cbn [niveles_desde fmap option_fmap option_map] in Hn.
    rewrite C0, C1, C2, C3, C4 in Hn. repeat case_if_in Hn; bdestr; try done; lia. }
  unfold plan_de in E. case_if_in E; [done|]. cbv zeta in E.
  destruct (plan_loop _ _ _ _) as [[por nv]|] eqn:El; [|done]. injection E as <-. cbn [por_nivel niveles total].
  assert (Hd : 0 <= div_ceil size (Z.of_nat BLOQUE) <= 2 ^ 26)
    by (unfold div_ceil; change (Z.of_nat BLOQUE) with 4096; lia).
  apply (plan_loop_cota (2 ^ 26)) in El as (H1 & H2 & H3); [|done|apply Forall_insert; [by apply Forall_replicate|done]|unfold FILAS; lia].
  rewrite length_insert, length_replicate in H1. split_and!; [done..| |];
    (assert (Hb : 0 <= foldr Z.add 0 por <= 5 * 2 ^ 26);
     [do 5 (destruct por as [|? por]; [done|]); destruct por; [|done];
      repeat (apply Forall_cons in H2 as [? H2]); cbn [foldr]; lia|]);
    (rewrite foldl_w64; [lia|unfold is_u64; lia|lia|eapply Forall_impl; [exact H2|]; cbn; lia]).
Qed.

Lemma cursores_cota M por : forall base, Forall (fun x => 0 <= x <= M) por -> 0 <= base ->
  base + Z.of_nat (length por) * M < 2 ^ 64 ->
  length (cursores base por) = length por /\
  forall i, (i < length por)%nat -> base <= cursores base por !!! i <= base + Z.of_nat i * M.
Proof.
  induction por as [|x por IH]; intros base H Hb Hm; [by split; [|cbn; lia]|].
  apply Forall_cons in H as [Hx H]. cbn [cursores length] in *.
  rewrite w64_small by (unfold is_u64; nia). destruct (IH (base + x) H ltac:(lia) ltac:(nia)) as [Hl Hi].
  split; [by rewrite Hl|]. intros [|i] Hlt; [cbn; nia|]. rewrite lookup_total_cons_ne_0, Nat.pred_succ by done.
  specialize (Hi i ltac:(lia)). nia.
Qed.

Lemma cursores_lookup base ds nv por k : length por = FILAS -> (nv < FILAS)%nat -> 0 <= base ->
  B base ds (S nv) < 2 ^ 64 ->
  (forall i, (i <= nv)%nat -> por !!! i = Z.of_nat (length (cont base ds i))) ->
  forall j, (j + k <= nv)%nat -> cursores (B base ds j) (drop j por) !!! k = B base ds (j + k).
Proof.
  intros Hl Hn Hb Hf Hc. induction k as [|k IH]; intros j Hj;
    (destruct (lookup_lt_is_Some_2 por j ltac:(lia)) as [n Hd]);
    rewrite (drop_S _ _ _ Hd); cbn [cursores]; [by rewrite Nat.add_0_r|].
  apply list_lookup_total_correct in Hd as <-. rewrite lookup_total_cons_ne_0, Nat.pred_succ by done.
  rewrite Hc, <- B_S by lia. rewrite w64_small.
  - replace (j + S k)%nat with (S j + k)%nat by lia. apply IH. lia.
  - pose proof (B_mono base ds (S j) (S nv) ltac:(lia)). pose proof (B_mono base ds 0 (S j) ltac:(lia)).
    rewrite B_0 in *. unfold is_u64. clear Hc IH. lia.
Qed.

Lemma nuevo_inv base ds p ind a s0 :
  let nv := niveles p in
  nuevo p base ind = Ok a -> Forall (fun b : list Z => length b = BLOQUE) ind -> 0 <= base ->
  B base ds (S nv) < 2 ^ 64 -> (nv < FILAS)%nat -> length (por_nivel p) = FILAS ->
  (forall i, (i <= nv)%nat -> por_nivel p !!! i = Z.of_nat (length (cont base ds i))) ->
  inv base ds nv s0 a s0 (fun _ => 0%nat) (fun _ => 0%nat).
Proof.
  cbv zeta. unfold nuevo. intros E Hi Hb Hf Hn Hl Hc. case_if_in E; [done|]. injection E as <-.
  apply Nat.ltb_ge in Heqb.
  split; cbn [plan cursor indice lleno a_raiz trozos]; try done.
  - by rewrite (Hc 0%nat) by lia.
  - split; try done; [|lia| |lia].
    + assert (Hcl : forall d l, length (cursores d l) = length l)
        by (intros d l; revert d; induction l; intros; simpl; congruence). by rewrite Hcl.
    + intros k Hk. rewrite Z.add_0_r. by apply (cursores_lookup base ds (niveles p) _ k Hl Hn Hb Hf Hc 0).
  - intros k Hk. split; cbn [indice lleno]; try lia.
    + etrans; [exact (lookup_total_replicate_2 FILAS 0%nat (S k) ltac:(lia))|lia].
    + eapply (Forall_lookup_1 _ _ _ _ Hi). apply list_lookup_lookup_total_lt. lia.
    + unfold indice_de, slice. by rewrite !take_0.
Qed.

Lemma B_cubre base ds n l :
  base <= l < B base ds (S n) ->
  exists k j, (k <= n)%nat /\ (j < length (cont base ds k))%nat /\ l = B base ds k + Z.of_nat j.
Proof.
  intros H. assert (Hk : forall k l, B base ds k <= l < B base ds (S k) ->
    (Z.to_nat (l - B base ds k) < length (cont base ds k))%nat /\
    l = B base ds k + Z.of_nat (Z.to_nat (l - B base ds k))) by (intros k m Hm; rewrite B_S in Hm; lia).
  induction n as [|n IH].
  - exists 0%nat, (Z.to_nat (l - B base ds 0)). pose proof (B_0 base ds) as H0.
    destruct (Hk 0%nat l ltac:(lia)). split_and!; [lia|done|done].
  - destruct (Z.lt_ge_cases l (B base ds (S n))) as [Hlt|Hge].
    + destruct (IH ltac:(lia)) as (k & j & ? & ? & ?). exists k, j. split_and!; [lia|done|done].
    + exists (S n), (Z.to_nat (l - B base ds (S n))). destruct (Hk (S n) l ltac:(lia)).
      split_and!; [lia|done|done].
Qed.

(** The writer's half: it succeeds, it fills its reservation and nothing else. *)
Lemma escribir_spec size p base ds ind a s0 :
  plan_de size = Some p -> is_u64 size -> Z.of_nat (length ds) = trozos_de size ->
  Forall (fun d : list Z => (1 <= length d <= BLOQUE)%nat) ds ->
  0 <= base -> base + total p < 2 ^ 64 ->
  nuevo p base ind = Ok a -> Forall (fun b : list Z => length b = BLOQUE) ind ->
  exists s', escribir poner_m a s0 ds = (s', Ok (P base ds (niveles p) !!! 0%nat)) /\
    guardado base ds (niveles p) s' /\
    (forall l, base <= l < base + total p -> is_Some (s' !! l)) /\
    (forall l, ~ base <= l < base + total p -> s' !! l = s0 !! l).
Proof.
  intros Hp Hs Hd Hds Hb Hf Hn Hi.
  destruct (plan_de_filas base ds size p Hp Hs Hd) as (HNv & H1 & Hl & Ht & Hc).
  replace (base + total p) with (B base ds (S (niveles p))) in * by lia.
  pose proof (nuevo_inv base ds p ind a s0 Hn Hi Hb Hf HNv Hl Hc) as I.
  destruct (escribir_inv base ds (niveles p) Hds Hb Hf H1 HNv s0 a I) as (s' & E & Hg & Hm).
  exists s'. split_and!; [done|done| |].
  - intros l Hr. destruct (B_cubre _ _ _ _ Hr) as (k & j & Hk & Hj & ->). by rewrite (Hg k j Hk Hj).
  - intros l Hr. apply Hm. lia.
Qed.

(** ** Any device

    A device keeps the blocks and any other state [T] it likes.  When it says
    that a write succeeded, the block holds what was written and no other block
    changed; when it says that it failed, anything may have happened. *)
Section Dispositivo.
Context {T : Type} (poner : gmap Z (list Z) * T -> Z -> list Z -> gmap Z (list Z) * T * bool).

Definition cumple : Prop := forall s l d, snd (poner s l d) = true ->
  fst (fst (poner s l d)) = <[l := relleno d]> (fst s).

(** A write that succeeded; and a run whose writes succeeded up to the last
    one, which failed. *)
Definition escrita (s s' : gmap Z (list Z) * T) : Prop := exists l d, poner s l d = (s', true).
Definition fallo (s s' : gmap Z (list Z) * T) : Prop :=
  exists s1 l d, rtc escrita s s1 /\ poner s1 l d = (s', false).

(** A run on the device is the run on the store that takes every write, or it
    stopped at the first write that failed. *)
Definition imita {A R} (s : gmap Z (list Z) * T) (r : A * (gmap Z (list Z) * T) * result R FormatError)
    (r0 : A * gmap Z (list Z) * result R FormatError) : Prop :=
  (fst (fst r), fst (snd (fst r)), snd r) = r0 /\ rtc escrita s (snd (fst r)) \/
  snd r = Err Io /\ fallo s (snd (fst r)).

Lemma imita_igual {A R} (a : A) s (r : result R FormatError) : imita s (a, s, r) (a, fst s, r).
Proof. left. split; [done|apply rtc_refl]. Qed.

Lemma fallo_trans s s1 s' : rtc escrita s s1 -> fallo s1 s' -> fallo s s'.
Proof. intros R (s2 & l & d & R2 & E). exists s2, l, d. split; [by etrans|done]. Qed.

Lemma imita_trans {A R} s s1 (r : A * (gmap Z (list Z) * T) * result R FormatError) r0 :
  rtc escrita s s1 -> imita s1 r r0 -> imita s r r0.
Proof.
  intros R1 [[E R2]|[E F]]; [left; split; [done|by etrans]|right; split; [done|by eapply fallo_trans]].
Qed.

Hypothesis Hpon : cumple.

Lemma poner_imita s l d :
  (exists t, poner s l d = ((<[l := relleno d]> (fst s), t), true) /\ rtc escrita s (<[l := relleno d]> (fst s), t)) \/
  (exists s', poner s l d = (s', false) /\ fallo s s').
Proof.
  pose proof (Hpon s l d) as H. destruct (poner s l d) as [[m t] [|]] eqn:E; cbn in H.
  - left. exists t. rewrite H in * by done. split; [done|]. apply rtc_once. by exists l, d.
  - right. eexists. split; [done|]. exists s, l, d. split; [apply rtc_refl|done].
Qed.

Lemma cerrar_nivel_imita a s k : imita s (cerrar_nivel poner a s k) (cerrar_nivel poner_m a (fst s) k).
Proof.
  unfold cerrar_nivel. cbv zeta. cbn [poner_m].
  destruct (poner_imita s (cursor a !!! k) (take (lleno a !!! k * PTR_LEN) (indice a !!! (k - 1)%nat)))
    as [(t & -> & R)|(s' & -> & F)]; [left; by split|right; by split].
Qed.

(** After a step that the device imitates: go on, or stop there. *)
Ltac sigue H :=
  destruct H as [[E R]|[E F]];
  match type of E with (fst (fst ?r), _, _) = _ => destruct r as [[? ?] [?|?]] | snd ?r = _ => destruct r as [[? ?] [?|?]] end;
  cbn [fst snd] in *; rewrite <- ?E;
  [eapply imita_trans; [exact R|]|left; by split|done|injection E as ->; right; by split].

Lemma colgar_imita fuel : forall a s k p, imita s (colgar poner fuel a s k p) (colgar poner_m fuel a (fst s) k p).
Proof.
  induction fuel as [|fuel IH]; intros a s k p; cbn [colgar]; [apply imita_igual|].
  case_if; [apply imita_igual|]. cbv zeta. case_if; [apply imita_igual|]. set (a1 := mkArbol _ _ _ _ _ _).
  sigue (cerrar_nivel_imita a1 s k). apply IH.
Qed.

Lemma empujar_imita a s d : imita s (empujar poner a s d) (empujar poner_m a (fst s) d).
Proof.
  unfold empujar. case_if; [apply imita_igual|]. case_if; [apply imita_igual|]. cbv zeta.
  destruct (poner_imita s (cursor a !!! 0%nat) d) as [(t & -> & R)|(s' & -> & F)]; [|right; by split].
  cbn [poner_m]. eapply imita_trans; [exact R|]. apply (colgar_imita _ _ (_, t)).
Qed.

Lemma cerrar_loop_imita fuel : forall a s k,
  imita s (cerrar_loop poner fuel a s k) (cerrar_loop poner_m fuel a (fst s) k).
Proof.
  induction fuel as [|fuel IH]; intros a s k; cbn [cerrar_loop]; [apply imita_igual|].
  case_if; [|apply imita_igual]. case_if; [|apply IH].
  sigue (cerrar_nivel_imita a s k). clear E R.
  match goal with |- context [colgar poner ?n ?a1 ?s1 ?k1 ?q] => sigue (colgar_imita n a1 s1 k1 q) end. apply IH.
Qed.

Lemma empujar_todo_imita ds : forall a s, imita s (empujar_todo poner a s ds) (empujar_todo poner_m a (fst s) ds).
Proof.
  induction ds as [|d ds IH]; intros a s; cbn [empujar_todo]; [apply imita_igual|].
  sigue (empujar_imita a s d). apply IH.
Qed.

Lemma cerrar_imita a s s' r : cerrar poner a s = (s', r) ->
  cerrar poner_m a (fst s) = (fst s', r) \/ r = Err Io /\ fallo s s'.
Proof.
  unfold cerrar. case_if; [intros [= <- <-]; by left|].
  destruct (cerrar_loop_imita (S FILAS) a s 1) as [[E R]|[E F]];
    destruct (cerrar_loop poner (S FILAS) a s 1) as [[a2 s2] [v|e]]; cbn [fst snd] in *; rewrite <- ?E; try done;
    [intros [= <- <-]; by left..|injection E as ->; intros [= <- <-]; by right].
Qed.

Lemma escribir_imita a s ds s' r : escribir poner a s ds = (s', r) ->
  escribir poner_m a (fst s) ds = (fst s', r) \/ r = Err Io /\ fallo s s'.
Proof.
  unfold escribir. destruct (empujar_todo_imita ds a s) as [[E R]|[E F]];
    destruct (empujar_todo poner a s ds) as [[a1 s1] [u|e]]; cbn [fst snd] in *; rewrite <- ?E; try done;
    [|intros [= <- <-]; by left|injection E as ->; intros [= <- <-]; by right].
  intros [H|[-> H]]%cerrar_imita; [by left|right]. split; [done|by eapply fallo_trans].
Qed.
End Dispositivo.

(** ** Which pieces the writer takes *)

(** As many as the plan has data blocks, none empty, none larger than a block. *)
Definition piezas (size : Z) (ds : list (list Z)) : Prop :=
  Z.of_nat (length ds) = trozos_de size /\ Forall (fun d : list Z => (1 <= length d <= BLOQUE)%nat) ds.

(** A content cut every 4096 bytes. *)
Definition partes (c : list Z) : list (list Z) :=
  (fun i => slice (i * BLOQUE) BLOQUE c) <$> seq 0 (Z.to_nat (trozos_de (Z.of_nat (length c)))).

Lemma concat_slices {A} (c : list A) b n : concat ((fun i => slice (i * b) b c) <$> seq 0 n) = take (n * b) c.
Proof.
  induction n as [|n IH]; [done|]. rewrite seq_S, fmap_app, concat_app, IH. cbn [fmap list_fmap concat].
  rewrite app_nil_r, Nat.add_0_l. unfold slice. rewrite take_take_drop. f_equal. lia.
Qed.

Lemma partes_piezas c : (1 <= length c)%nat ->
  piezas (Z.of_nat (length c)) (partes c) /\ concat (partes c) = c.
Proof.
  intros Hc. unfold piezas, partes. rewrite length_fmap, length_seq, concat_slices.
  unfold trozos_de, div_ceil, BLOQUE. split_and!; [lia| |apply take_ge; lia].
  apply Forall_fmap, Forall_forall. intros i Hi. apply elem_of_seq in Hi. cbn.
  unfold slice. rewrite length_take, length_drop. lia.
Qed.

Lemma colgar_campos {St} (poner : St -> Z -> list Z -> St * bool) fuel : forall a s k p,
  let a' := fst (fst (colgar poner fuel a s k p)) in plan a' = plan a /\ trozos a' = trozos a.
Proof.
  induction fuel as [|fuel IH]; intros a s k p; cbn [colgar]; [done|]. case_if; [done|]. cbv zeta. case_if; [done|].
  unfold cerrar_nivel. cbv zeta. destruct (poner _ _ _) as [s1 [|]]; [|done].
  match goal with |- context [colgar poner fuel ?a1 ?t ?n ?q] => exact (IH a1 t n q) end.
Qed.

(** What was accepted were pieces, and the count is theirs. *)
Lemma empujar_todo_piezas {St} (poner : St -> Z -> list Z -> St * bool) ds : forall a s a' s',
  empujar_todo poner a s ds = (a', s', Ok tt) -> 0 <= trozos a -> por_nivel (plan a) !!! 0%nat < 2 ^ 63 ->
  plan a' = plan a /\ trozos a' = trozos a + Z.of_nat (length ds) /\
  Forall (fun d : list Z => (1 <= length d <= BLOQUE)%nat) ds.
Proof.
  induction ds as [|d ds IH]; intros a s a' s'; cbn [empujar_todo].
  { intros [= <- <-] _ _. split_and!; [done|cbn; lia|done]. }
  intros E Ht Hp. unfold empujar in E. case_if_in E; [done|]. case_if_in E; [done|]. cbv zeta in E.
  apply orb_false_iff in Heqb as [Hd1 Hd2]. apply Nat.eqb_neq in Hd1. apply Nat.ltb_ge in Hd2. bdestr.
  destruct (poner _ _ _) as [s1 [|]]; [|done].
  match type of E with context [colgar poner (S FILAS) ?a1 s1 1 ?q] =>
    destruct (colgar_campos poner (S FILAS) a1 s1 1 q) as [E1 E2];
    destruct (colgar poner (S FILAS) a1 s1 1 q) as [[a2 s2] [u|e]]; cbn [fst] in E1, E2; cbn [plan trozos] in E1, E2; [|done]
  end.
  rewrite w64_small in E2 by (unfold is_u64; lia).
  destruct (IH _ _ _ _ E) as (H1 & H2 & H3); [lia|by rewrite E1|].
  split_and!; [congruence|cbn [length]; lia|constructor; [lia|done]].
Qed.

Lemma escribir_piezas {St} (poner : St -> Z -> list Z -> St * bool) size p base ind a s ds s' r :
  plan_de size = Some p -> is_u64 size -> nuevo p base ind = Ok a ->
  escribir poner a s ds = (s', Ok r) -> piezas size ds.
Proof.
  intros Hp Hs Hn E. assert (H0 : por_nivel p !!! 0%nat = trozos_de size).
  { destruct (partes_piezas [0] ltac:(cbn; lia)) as [_ _].
    assert (Hz : 0 <= trozos_de size) by (unfold trozos_de, div_ceil, BLOQUE, is_u64 in *; lia).
    destruct (plan_de_filas 0 (replicate (Z.to_nat (trozos_de size)) []) size p Hp Hs) as (_ & _ & _ & _ & Hc);
      [rewrite length_replicate; lia|].
    rewrite (Hc 0%nat), cont_0, length_replicate by lia. lia. }
  assert (Hlt : trozos_de size < 2 ^ 63) by (unfold trozos_de, div_ceil, BLOQUE, is_u64 in *; lia).
  unfold nuevo in Hn. case_if_in Hn; [done|]. injection Hn as <-. unfold escribir in E.
  destruct (empujar_todo _ _ _ _) as [[a1 s1] [[]|e]] eqn:E1; [|done].
  apply empujar_todo_piezas in E1 as (P1 & P2 & P3); cbn [plan trozos] in *; [|lia|lia].
  unfold cerrar in E. case_if_in E; [done|]. apply negb_false_iff, Z.eqb_eq in Heqb0.
  split; [|done]. rewrite P1, H0, P2 in Heqb0. lia.
Qed.

(** On the store that takes every write the only error is [BadField]. *)
Definition limpio {A R} (r : A * result R FormatError) : Prop :=
  match snd r with Ok _ => True | Err e => e = BadField end.

Lemma colgar_limpio fuel : forall a s k p, limpio (colgar poner_m fuel a s k p).
Proof.
  induction fuel as [|fuel IH]; intros a s k p; cbn [colgar]; [done|]. case_if; [done|]. cbv zeta. case_if; [done|].
  unfold cerrar_nivel. cbv zeta. cbn [poner_m]. apply IH.
Qed.

Lemma cerrar_loop_limpio fuel : forall a s k, limpio (cerrar_loop poner_m fuel a s k).
Proof.
  induction fuel as [|fuel IH]; intros a s k; cbn [cerrar_loop]; [done|]. case_if; [|done]. case_if; [|apply IH].
  unfold cerrar_nivel. cbv zeta. cbn [poner_m].
  match goal with |- context [colgar poner_m (S FILAS) ?a1 ?s1 ?k1 ?q] =>
    pose proof (colgar_limpio (S FILAS) a1 s1 k1 q) as H;
    destruct (colgar poner_m (S FILAS) a1 s1 k1 q) as [[a2 s2] [u|e]] end; [apply IH|exact H].
Qed.

Lemma empujar_todo_limpio ds : forall a s, limpio (empujar_todo poner_m a s ds).
Proof.
  induction ds as [|d ds IH]; intros a s; cbn [empujar_todo]; [done|].
  assert (H : limpio (empujar poner_m a s d)).
  { unfold empujar. case_if; [done|]. case_if; [done|]. cbv zeta. cbn [poner_m]. apply colgar_limpio. }
  destruct (empujar poner_m a s d) as [[a1 s1] [u|e]]; [apply IH|exact H].
Qed.

Lemma escribir_limpio a s ds : limpio (escribir poner_m a s ds).
Proof.
  unfold escribir. pose proof (empujar_todo_limpio ds a s) as H.
  destruct (empujar_todo poner_m a s ds) as [[a1 s1] [u|e]]; [|exact H].
  unfold cerrar. case_if; [done|]. pose proof (cerrar_loop_limpio (S FILAS) a1 s1 1) as H1.
  destruct (cerrar_loop poner_m (S FILAS) a1 s1 1) as [[a2 s2] [v|e]]; [|exact H1].
  unfold limpio. cbn [snd]. by destruct (a_raiz a2).
Qed.

Lemma escribir_cases size p base ds ind a s0 :
  plan_de size = Some p -> is_u64 size -> 0 <= base -> base + total p < 2 ^ 64 ->
  nuevo p base ind = Ok a -> Forall (fun b : list Z => length b = BLOQUE) ind ->
  (exists s', escribir poner_m a s0 ds = (s', Ok (P base ds (niveles p) !!! 0%nat)) /\ piezas size ds /\
    guardado base ds (niveles p) s' /\
    (forall l, base <= l < base + total p -> is_Some (s' !! l)) /\
    (forall l, ~ base <= l < base + total p -> s' !! l = s0 !! l)) \/
  snd (escribir poner_m a s0 ds) = Err BadField /\ ~ piezas size ds.
Proof.
  intros Hp Hs Hb Hf Hn Hi.
  destruct (decide (Z.of_nat (length ds) = trozos_de size /\
    Forall (fun d : list Z => (1 <= length d <= BLOQUE)%nat) ds)) as [[Hd Hds]|Hno].
  - left. destruct (escribir_spec size p base ds ind a s0) as (s' & E & H); [done..|]. by exists s'.
  - right. split; [|exact Hno]. pose proof (escribir_limpio a s0 ds) as H.
    destruct (escribir poner_m a s0 ds) as [s' [r|e]] eqn:E; [|cbn in H |- *; by rewrite H].
    by apply escribir_piezas with (size := size) (p := p) (base := base) (ind := ind) in E.
Qed.

Lemma entrega_concat ds : forall acc,
  entrega (list Z) (fun acc d => (acc ++ d, true)) (acc, true) ds = (acc ++ concat ds, true).
Proof.
  induction ds as [|d ds IH]; intros acc; cbn [entrega snd fst concat]; [by rewrite app_nil_r|].
  by rewrite IH, app_assoc.
Qed.

(** C20: what the writer builds, the reader gives back, on any device.  For
    every size the plan accepts, a reservation that ends below [2^64], whole
    block buffers and any list of pieces, [empujar] per piece and then [cerrar]
    end in one of three ways.  They succeed: then the pieces were as many as the
    plan has data blocks ([size / 4096] rounded up), each of 1 to 4096 bytes; the
    blocks written are exactly the [total] blocks the plan reserved and nothing
    outside them changed; and [descender] from the root returned, with one
    buffer per level and one more, hands any consumer the pieces in order, as
    long as it keeps accepting, so a consumer that collects gets their
    concatenation.  Or they fail with [Io], and then the last write they made
    failed, after others that succeeded.  Or they fail with [BadField], and then the pieces were not such a
    cut.  A content of [size] bytes cut every 4096, as the callers do, is such a
    cut, so on a device whose writes succeed it is stored and read back. *)
Theorem flujo_roundtrip T (poner : gmap Z (list Z) * T -> Z -> list Z -> gmap Z (list Z) * T * bool)
    size p base ds ind a s0 scratch :
  cumple poner -> plan_de size = Some p -> is_u64 size ->
  0 <= base -> base + total p < 2 ^ 64 ->
  nuevo p base ind = Ok a -> Forall (fun b : list Z => length b = BLOQUE) ind ->
  (niveles p < scratch)%nat ->
  match escribir poner a s0 ds with
  | (s', Ok r) => piezas size ds /\
      (forall l, base <= l < base + total p -> is_Some (fst s' !! l)) /\
      (forall l, ~ base <= l < base + total p -> fst s' !! l = fst s0 !! l) /\
      (forall X (salida : X -> list Z -> X * bool) x,
        descender bloque_m salida (fst s') x r (niveles p) scratch =
        (let '(x', g) := entrega X salida (x, true) ds in ((fst s', x', g), Ok tt))) /\
      descender bloque_m (fun acc d => (acc ++ d, true)) (fst s') [] r (niveles p) scratch =
        ((fst s', concat ds, true), Ok tt)
  | (s', Err e) => e = Io /\ fallo poner s0 s' \/ e = BadField /\ ~ piezas size ds
  end /\
  (forall c, Z.of_nat (length c) = size -> piezas size (partes c) /\ concat (partes c) = c).
Proof.
  intros Hpon Hp Hs Hb Hf Hn Hi Hsc. split.
  2: { intros c <-. apply partes_piezas. unfold plan_de in Hp. case_if_in Hp; [done|]. bdestr. lia. }
  destruct (escribir poner a s0 ds) as [s' r] eqn:E.
  destruct (escribir_imita poner Hpon a s0 ds s' r E) as [E0|[-> H]]; [|by left].
  destruct (escribir_cases size p base ds ind a (fst s0)) as [(m' & E1 & Hd & Hg & H & Hm)|[E1 Hno]]; [done..| |].
  all: rewrite E0 in E1.
  - injection E1 as -> ->. destruct Hd as [Hd Hds].
    destruct (plan_de_filas base ds size p Hp Hs Hd) as (HNv & H1 & _ & Ht & _).
    assert (Hdes : forall X (salida : X -> list Z -> X * bool) x,
      descender bloque_m salida m' x (P base ds (niveles p) !!! 0%nat) (niveles p) scratch =
      (let '(x', g) := entrega X salida (x, true) ds in ((m', x', g), Ok tt))).
    { intros X salida x. rewrite (descender_spec base ds (niveles p) Hds Hb) by (done || lia).
      unfold lleva. by destruct (entrega X salida (x, true) ds). }
    split_and!; [done..|]. by rewrite Hdes, entrega_concat.
  - cbn in E1. subst r. by right.
Qed.

Definition contenido_demo : list Z := replicate (Z.to_nat 5000) 7.
Definition disco_demo (s : gmap Z (list Z) * nat) (l : Z) (d : list Z) : gmap Z (list Z) * nat * bool :=
  ((<[l := relleno d]> (fst s), S (snd s)), true).

Lemma flujo_roundtrip_witness :
  exists p a s' r, plan_de 5000 = Some p /\ nuevo p 100 [replicate BLOQUE 0] = Ok a /\
    escribir disco_demo a (empty, 0%nat) (partes contenido_demo) = (s', Ok r) /\
    descender bloque_m (fun acc d => (acc ++ d, true)) (fst s') [] r 1 2 = ((fst s', contenido_demo, true), Ok tt).
Proof.
  set (a := mkArbol (mkPlan 1 [2; 1; 0; 0; 0] 3) [100; 102; 103; 103; 103] [replicate BLOQUE 0]
    [0; 0; 0; 0; 0]%nat None 0).
  destruct (flujo_roundtrip nat disco_demo 5000 (mkPlan 1 [2; 1; 0; 0; 0] 3) 100 (partes contenido_demo)
    [replicate BLOQUE 0] a (empty, 0%nat) 2) as [H Hc];
    [intros [m n] l d _; reflexivity|reflexivity|unfold is_u64; lia|lia|cbn; lia|reflexivity| |cbn; lia|].
  - apply Forall_singleton, length_replicate.
  - destruct (Hc contenido_demo) as [Hz He]; [unfold contenido_demo; rewrite length_replicate; lia|].
    destruct (escribir disco_demo a _ _) as [s' [r|e]] eqn:E.
    + destruct H as (_ & _ & _ & _ & H). rewrite He in H.
      do 4 eexists. split; [reflexivity|split; [reflexivity|split; [exact E|exact H]]].
    + exfalso. destruct H as [[_ ([m n] & l & d & _ & H)]|[_ H]]; [discriminate H|exact (H Hz)].
Defined.

(** The kernel's buffers: [SCRATCH] has [NIVELES] of them, and the readers of
    contents pass [&mut SCRATCH[1..]]. *)
Definition NIVELES : nat := 5.
Definition scratch_de_flujo : nat := (NIVELES - 1)%nat.

(** The deepest tree the format allows is written and cannot be read.  A
    content that needs [NIVELES_MAX] levels (more than 2 515 456 000 bytes) is
    written without error, and reading it with the buffers the kernel lends
    fails with [SinScratch] before the first piece. *)
Theorem cuatro_niveles_ilegibles size p base ds ind a s0 :
  plan_de size = Some p -> 2515456000 < size < 2 ^ 64 -> Z.of_nat (length ds) = trozos_de size ->
  Forall (fun d : list Z => (1 <= length d <= BLOQUE)%nat) ds ->
  0 <= base -> base + total p < 2 ^ 64 ->
  nuevo p base ind = Ok a -> Forall (fun b : list Z => length b = BLOQUE) ind ->
  exists s' r, escribir poner_m a s0 ds = (s', Ok r) /\
    forall X (salida : X -> list Z -> X * bool) x,
      descender bloque_m salida s' x r (niveles p) scratch_de_flujo = ((s', x, true), Err SinScratch).
Proof.
  intros Hp Hs Hd Hds Hb Hf Hn Hi. assert (Hu : is_u64 size) by (unfold is_u64; lia).
  destruct (plan_de_filas base ds size p Hp Hu Hd) as (HNv & H1 & _ & Ht & _).
  assert (H4 : (4 <= niveles p)%nat).
  { pose proof (plan_niveles size ltac:(lia)) as E. rewrite Hp in E.
    destruct capacity_val as (C0 & C1 & C2 & C3 & C4).
    unfold niveles_para, NIVELES_MAX in E. cbn [niveles_desde fmap option_fmap option_map] in E.
    rewrite C0, C1, C2, C3, !(proj2 (Z.leb_gt size _)) in E by lia. case_if_in E; [|done].
    injection E as E. lia. }
  destruct (escribir_spec size p base ds ind a s0) as (s' & E & Hg & _ & _); [done..|].
  exists s', (P base ds (niveles p) !!! 0%nat). split; [done|]. intros X salida x.
  apply (bajar_corto base ds (niveles p) Hds Hb); rewrite ?H1; try done; lia.
Qed.

Lemma cuatro_niveles_ilegibles_witness :
  exists p a s' r, plan_de 2515456001 = Some p /\
    nuevo p 2 (replicate 4 (replicate BLOQUE 0)) = Ok a /\
    escribir poner_m a empty (replicate (Z.to_nat 614126) [7]) = (s', Ok r) /\
    snd (descender (X := nat) bloque_m (fun x _ => (S x, true)) s' 0%nat r 4 scratch_de_flujo) = Err SinScratch.
Proof.
  set (p := mkPlan 4 [614126; 7226; 86; 2; 1] 621441).
  destruct (cuatro_niveles_ilegibles 2515456001 p 2 (replicate (Z.to_nat 614126) [7])
    (replicate 4 (replicate BLOQUE 0))
    (mkArbol p [2; 614128; 621354; 621440; 621442] (replicate 4 (replicate BLOQUE 0))
       [0; 0; 0; 0; 0]%nat None 0) empty) as (s' & r & E & R).
  - vm_compute. reflexivity.
  - lia.
  - rewrite length_replicate, Z2Nat.id by lia. vm_compute. reflexivity.
  - apply Forall_replicate. cbn [length]. unfold BLOQUE. lia.
  - lia.
  - cbn [p total]. lia.
  - vm_compute. reflexivity.
  - apply Forall_replicate, length_replicate.
  - exists p. do 3 eexists. split; [vm_compute; reflexivity|]. split; [|split; [exact E|]].
    + vm_compute. reflexivity.
    + exact (f_equal snd (R nat _ 0%nat)).
Defined.
