(* ===== verification/Guardar.v ===== *)
(** The pieces of saving in ESTRATOS: the nodes and the blocks of directory
    entries that a change of the tree needs.
    Source: src/platform/drivers/storage/estratos/src/escritura/guardar.rs.

    Every function builds a fresh 4096-byte block and says how many of its bytes
    count; the block of before is an argument and is not touched. *)

From Stdlib Require Import ZifyNat.
From stdpp Require Import gmap.
From S2P Require Import Prelude Formato.

Definition ENTRADAS_POR_BLOQUE : nat := (BLOQUE / ENTRADA_LEN)%nat.

Definition nodo_de_fichero (datos : list Z) : result (list Z) FormatError :=
  if (RESIDENTE_MAX <? length datos)%nat then Err BadField else
  a <-? attr_residente ATTR_DATOS datos ;;
  n <-? con (nodo_nuevo Archivo) a ;; Ok (nodo_encode n).

Definition nodo_de_fichero_grande (size niveles : Z) (raiz : BlockPtr) : result (list Z) FormatError :=
  a <-? en_bloques ATTR_DATOS size niveles raiz ;;
  n <-? con (nodo_nuevo Archivo) a ;; Ok (nodo_encode n).

Definition nodo_de_directorio_vacio : list Z := nodo_encode (nodo_nuevo Directorio).

Definition nodo_de_directorio (entradas : BlockPtr) (bytes : Z) : result (list Z) FormatError :=
  a <-? en_bloques ATTR_ENTRADAS bytes 0 entradas ;;
  n <-? con (nodo_nuevo Directorio) a ;; Ok (nodo_encode n).

(** [&previas[i * ENTRADA_LEN..(i + 1) * ENTRADA_LEN]]. *)
Definition celda (previas : list Z) (i : nat) : list Z := slice (i * ENTRADA_LEN) ENTRADA_LEN previas.

(** The block written, and how many of its bytes count. *)
Definition bloque_nuevo : Type := list Z * nat.

(** The loop of [entradas_con]. *)
Fixpoint sin_igual (previas nombre : list Z) (i n : nat) : result unit FormatError :=
  match n with
  | O => Ok tt
  | S n =>
      e <-? entrada_decode (celda previas i) ;;
      if bool_decide (e_nombre_str e = nombre) then Err BadField else sin_igual previas nombre (S i) n
  end.

Definition entradas_con (previas nombre : list Z) (p : BlockPtr) : result bloque_nuevo FormatError :=
  let cuantas := (length previas / ENTRADA_LEN)%nat in
  if negb (Nat.eqb (length previas mod ENTRADA_LEN) 0) then Err BadField
  else if (ENTRADAS_POR_BLOQUE <? cuantas + 1)%nat then Err BadField
  else
    nueva <-? entrada_nueva nombre p ;;
    _ <-? sin_igual previas nombre 0 cuantas ;;
    let dst := put 0 previas (replicate BLOQUE 0) in
    let fin := (cuantas * ENTRADA_LEN)%nat in
    Ok (put fin (entrada_encode nueva) dst, (fin + ENTRADA_LEN)%nat).

(** The loop with [break] of [entradas_repuntando] and [entradas_sin]. *)
Fixpoint primera (previas nombre : list Z) (i n : nat) : result (option nat) FormatError :=
  match n with
  | O => Ok None
  | S n =>
      e <-? entrada_decode (celda previas i) ;;
      if se_llama e nombre then Ok (Some i) else primera previas nombre (S i) n
  end.

Definition entradas_repuntando (previas nombre : list Z) (p : BlockPtr) : result bloque_nuevo FormatError :=
  let cuantas := (length previas / ENTRADA_LEN)%nat in
  if negb (Nat.eqb (length previas mod ENTRADA_LEN) 0) then Err BadField
  else
    c <-? primera previas nombre 0 cuantas ;;
    cual <-? ok_or c BadField ;;
    nueva <-? entrada_nueva nombre p ;;
    let dst := put 0 previas (replicate BLOQUE 0) in
    Ok (put (cual * ENTRADA_LEN) (entrada_encode nueva) dst, (cuantas * ENTRADA_LEN)%nat).

(** The loop that copies every cell but one. *)
Fixpoint copia_sin (previas : list Z) (quitar i n : nat) (dst : list Z) (fin : nat) : bloque_nuevo :=
  match n with
  | O => (dst, fin)
  | S n =>
      if Nat.eqb i quitar then copia_sin previas quitar (S i) n dst fin
      else copia_sin previas quitar (S i) n (put fin (celda previas i) dst) (fin + ENTRADA_LEN)
  end.

Definition entradas_sin (previas nombre : list Z) : result bloque_nuevo FormatError :=
  let cuantas := (length previas / ENTRADA_LEN)%nat in
  if negb (Nat.eqb (length previas mod ENTRADA_LEN) 0) then Err BadField
  else
    q <-? primera previas nombre 0 cuantas ;;
    quitar <-? ok_or q BadField ;;
    Ok (copia_sin previas quitar 0 cuantas (replicate BLOQUE 0) 0).

(** The loop of [entradas_renombrando]: it has no [break]. *)
Fixpoint ultima (previas viejo nuevo : list Z) (i n : nat) (cual : option (nat * BlockPtr))
  : result (option (nat * BlockPtr)) FormatError :=
  match n with
  | O => Ok cual
  | S n =>
      e <-? entrada_decode (celda previas i) ;;
      if se_llama e nuevo && negb (se_llama e viejo) then Err BadField
      else ultima previas viejo nuevo (S i) n (if se_llama e viejo then Some (i, nodo e) else cual)
  end.

Definition entradas_renombrando (previas viejo nuevo : list Z) : result bloque_nuevo FormatError :=
  let cuantas := (length previas / ENTRADA_LEN)%nat in
  if negb (Nat.eqb (length previas mod ENTRADA_LEN) 0) then Err BadField
  else
    c <-? ultima previas viejo nuevo 0 cuantas None ;;
    cn <-? ok_or c BadField ;;
    renombrada <-? entrada_nueva nuevo (snd cn) ;;
    let dst := put 0 previas (replicate BLOQUE 0) in
    Ok (put (fst cn * ENTRADA_LEN) (entrada_encode renombrada) dst, (cuantas * ENTRADA_LEN)%nat).

(** * The directory that is meant: a list of entries *)

Definition bytes_de (es : list Entrada) : list Z := concat (entrada_encode <$> es).

(** What a block written by these functions stands for. *)
Definition bloque_de (es : list Entrada) : bloque_nuevo :=
  (pad BLOQUE (bytes_de es), (length es * ENTRADA_LEN)%nat).

Definition posicion (nombre : list Z) (es : list Entrada) : option nat :=
  position (fun e => se_llama e nombre) es.

(** How a reader finds a name: the first entry that is called so. *)
Definition buscar (nombre : list Z) (es : list Entrada) : option BlockPtr :=
  nodo <$> List.find (fun e => se_llama e nombre) es.

Definition con_spec (es : list Entrada) (nombre : list Z) (p : BlockPtr) : result (list Entrada) FormatError :=
  if (ENTRADAS_POR_BLOQUE <? length es + 1)%nat then Err BadField
  else
    nueva <-? entrada_nueva nombre p ;;
    if existsb (fun e => bool_decide (e_nombre_str e = nombre)) es then Err BadField
    else Ok (es ++ [nueva]).

Definition repuntando_spec (es : list Entrada) (nombre : list Z) (p : BlockPtr) : result (list Entrada) FormatError :=
  i <-? ok_or (posicion nombre es) BadField ;;
  nueva <-? entrada_nueva nombre p ;; Ok (<[i := nueva]> es).

Definition sin_spec (es : list Entrada) (nombre : list Z) : result (list Entrada) FormatError :=
  i <-? ok_or (posicion nombre es) BadField ;; Ok (delete i es).

Fixpoint last_with {A} (p : A -> bool) (l : list A) : option (nat * A) :=
  match l with
  | [] => None
  | x :: l =>
      match last_with p l with
      | Some (k, y) => Some (S k, y)
      | None => if p x then Some (O, x) else None
      end
  end.

Definition renombrando_spec (es : list Entrada) (viejo nuevo : list Z) : result (list Entrada) FormatError :=
  if existsb (fun e => se_llama e nuevo && negb (se_llama e viejo)) es then Err BadField
  else
    c <-? ok_or (last_with (fun e => se_llama e viejo) es) BadField ;;
    r <-? entrada_nueva nuevo (nodo (snd c)) ;; Ok (<[fst c := r]> es).

Definition lift (r : result (list Entrada) FormatError) : result bloque_nuevo FormatError :=
  es <-? r ;; Ok (bloque_de es).

(** * The functions do what is meant *)

Lemma celdas_ok es : Forall entrada_ok es -> Forall (fun e => length (entrada_encode e) = ENTRADA_LEN) es.
Proof. intros H. eapply Forall_impl; [exact H|]. intros e He. apply (entrada_slices e He). Qed.

Lemma length_bytes_de es : Forall entrada_ok es -> length (bytes_de es) = (length es * ENTRADA_LEN)%nat.
Proof. intros H. by apply length_concat_celdas, celdas_ok. Qed.

Lemma cuantas_bytes es : Forall entrada_ok es ->
  (length (bytes_de es) / ENTRADA_LEN)%nat = length es /\
  Nat.eqb (length (bytes_de es) mod ENTRADA_LEN) 0 = true.
Proof.
  intros H. rewrite length_bytes_de by done. split; [by apply Nat.div_mul|].
  by rewrite Nat.Div0.mod_mul.
Qed.

Lemma celda_lookup es i e : Forall entrada_ok es -> es !! i = Some e ->
  celda (bytes_de es) i = entrada_encode e.
Proof. intros H Hi. apply slice_celda; [by apply celdas_ok|done]. Qed.

Lemma celda_decode es i e : Forall entrada_ok es -> es !! i = Some e ->
  entrada_decode (celda (bytes_de es) i) = Ok e.
Proof.
  intros H Hi. rewrite (celda_lookup _ _ _ H Hi), <- (app_nil_r (entrada_encode e)).
  apply entrada_roundtrip_app. by apply (Forall_lookup_1 _ _ _ _ H Hi).
Qed.

(** The loops, from cell [i] on. *)
Section Bucles.
Variable es : list Entrada.
Hypothesis Hes : Forall entrada_ok es.
#[local] Abbreviation previas := (bytes_de es).

Lemma drop_cons i n : (i + S n = length es)%nat ->
  exists e, es !! i = Some e /\ drop i es = e :: drop (S i) es /\ entrada_decode (celda previas i) = Ok e.
Proof.
  intros H. destruct (lookup_lt_is_Some_2 es i ltac:(lia)) as [e He]. exists e.
  split_and!; [done|by apply drop_S|by apply celda_decode].
Qed.

Lemma sin_igual_spec nombre n : forall i, (i + n = length es)%nat ->
  sin_igual previas nombre i n =
  if existsb (fun e => bool_decide (e_nombre_str e = nombre)) (drop i es) then Err BadField else Ok tt.
Proof.
  induction n as [|n IH]; intros i Hi; [by rewrite drop_ge by lia|].
  destruct (drop_cons i n Hi) as (e & _ & -> & Hd). cbn [sin_igual existsb]. rewrite Hd. cbn [result_bind].
  case_if; [done|]. apply IH. lia.
Qed.

Lemma primera_spec nombre n : forall i, (i + n = length es)%nat ->
  primera previas nombre i n = Ok (Nat.add i <$> posicion nombre (drop i es)).
Proof.
  unfold posicion. induction n as [|n IH]; intros i Hi; [by rewrite drop_ge by lia|].
  destruct (drop_cons i n Hi) as (e & _ & -> & Hd). cbn [primera position]. rewrite Hd. cbn [result_bind].
  case_if; [cbn; do 2 f_equal; lia|]. rewrite IH by lia.
  destruct (position _ _); cbn; do 2 f_equal. lia.
Qed.

Lemma ultima_spec viejo nuevo n : forall i c, (i + n = length es)%nat ->
  ultima previas viejo nuevo i n c =
  if existsb (fun e => se_llama e nuevo && negb (se_llama e viejo)) (drop i es) then Err BadField
  else Ok (match last_with (fun e => se_llama e viejo) (drop i es) with
           | Some (k, e) => Some ((i + k)%nat, nodo e) | None => c end).
Proof.
  induction n as [|n IH]; intros i c Hi; [by rewrite drop_ge by lia|].
  destruct (drop_cons i n Hi) as (e & _ & -> & Hd). cbn [ultima existsb last_with]. rewrite Hd.
  cbn [result_bind]. destruct (se_llama e nuevo && negb (se_llama e viejo)); [done|]. cbn [orb].
  rewrite IH by lia. case_if; [done|]. f_equal.
  destruct (last_with _ _) as [[k e']|]; [do 2 f_equal; lia|]. case_if; [|done]. do 2 f_equal. lia.
Qed.

Lemma copia_sin_despues q n : forall i bs, (i + n = length es)%nat -> (q < i)%nat ->
  (length bs + n * ENTRADA_LEN <= BLOQUE)%nat ->
  copia_sin previas q i n (pad BLOQUE bs) (length bs) =
  (pad BLOQUE (bs ++ bytes_de (drop i es)), (length bs + n * ENTRADA_LEN)%nat).
Proof.
  induction n as [|n IH]; intros i bs Hi Hq Hb.
  { rewrite drop_ge by lia. cbn. by rewrite app_nil_r, Nat.add_0_r. }
  destruct (drop_cons i n Hi) as (e & He & -> & _). cbn [copia_sin].
  rewrite (proj2 (Nat.eqb_neq _ _)) by lia. rewrite (celda_lookup _ _ _ Hes He).
  pose proof (proj1 (entrada_slices e (Forall_lookup_1 _ _ _ _ Hes He))) as Hl. unfold ENTRADA_LEN in *.
  rewrite put_pad by lia. replace (length bs + 112)%nat with (length (bs ++ entrada_encode e))
    by (rewrite length_app; lia).
  rewrite IH by (rewrite ?length_app; lia). unfold bytes_de. rewrite fmap_cons. cbn [concat].
  rewrite <- app_assoc, length_app. f_equal. lia.
Qed.

Lemma copia_sin_spec q n : forall i bs, (i + n = length es)%nat -> (i <= q < length es)%nat ->
  (length bs + n * ENTRADA_LEN <= BLOQUE)%nat ->
  copia_sin previas q i n (pad BLOQUE bs) (length bs) =
  (pad BLOQUE (bs ++ bytes_de (delete (q - i)%nat (drop i es))), (length bs + (n - 1) * ENTRADA_LEN)%nat).
Proof.
  induction n as [|n IH]; intros i bs Hi Hq Hb; [lia|].
  destruct (drop_cons i n Hi) as (e & He & -> & _). cbn [copia_sin].
  destruct (decide (i = q)) as [->|Hne].
  - rewrite Nat.eqb_refl, copia_sin_despues by lia. rewrite Nat.sub_diag. cbn [delete list_delete].
    f_equal. lia.
  - rewrite (proj2 (Nat.eqb_neq _ _)) by lia. rewrite (celda_lookup _ _ _ Hes He).
    pose proof (proj1 (entrada_slices e (Forall_lookup_1 _ _ _ _ Hes He))) as Hl. unfold ENTRADA_LEN in *.
    rewrite put_pad by lia. replace (length bs + 112)%nat with (length (bs ++ entrada_encode e))
      by (rewrite length_app; lia).
    rewrite IH by (rewrite ?length_app; lia).
    replace (q - i)%nat with (S (q - S i)) by lia. cbn [delete list_delete].
    unfold bytes_de. rewrite fmap_cons. cbn [concat]. rewrite <- app_assoc, length_app. f_equal. lia.
Qed.
End Bucles.

(** Writing one cell over a copy of the block. *)
Lemma pon_celda es i e : Forall entrada_ok es -> entrada_ok e -> (i < length es)%nat ->
  (length es <= ENTRADAS_POR_BLOQUE)%nat ->
  (put (i * ENTRADA_LEN) (entrada_encode e) (put 0 (bytes_de es) (replicate BLOQUE 0)),
   (length es * ENTRADA_LEN)%nat) = bloque_de (<[i := e]> es).
Proof.
  intros Hes He Hi Hn. rewrite put_zeros.
  2: { rewrite length_bytes_de by done.
       unfold ENTRADAS_POR_BLOQUE, BLOQUE, ENTRADA_LEN in *. change (4096 / 112)%nat with 36%nat in Hn. lia. }
  assert (Hes' : Forall entrada_ok (<[i := e]> es)) by (by apply Forall_insert).
  unfold bloque_de. rewrite length_insert. f_equal. cbn [app]. unfold pad.
  rewrite !length_bytes_de, length_insert by done.
  apply put_celda; [by apply celdas_ok|apply (entrada_slices e He)|done].
Qed.

Lemma ok_or_None {T} (e : FormatError) : ok_or (@None T) e = Err e.
Proof. done. Qed.

Section Refina.
Variable es : list Entrada.
Hypothesis Hes : Forall entrada_ok es.
Hypothesis Hn : (length es <= ENTRADAS_POR_BLOQUE)%nat.

Ltac entra := destruct (cuantas_bytes es Hes) as [-> ->]; cbn [negb].

Lemma entradas_con_spec nombre p : ptr_ok p ->
  entradas_con (bytes_de es) nombre p = lift (con_spec es nombre p).
Proof.
  intros Hp. unfold entradas_con, con_spec. cbv zeta. entra. case_if; [done|]. apply Nat.ltb_ge in Heqb.
  destruct (entrada_nueva nombre p) as [e|] eqn:En; cbn [result_bind]; [|done].
  rewrite (sin_igual_spec es Hes nombre (length es) 0) by done. rewrite drop_0.
  case_if; [done|]. cbn [result_bind lift]. apply f_equal.
  pose proof (entrada_nueva_ok _ _ _ En Hp) as He.
  pose proof (proj1 (entrada_slices e He)) as Hl.
  unfold ENTRADAS_POR_BLOQUE, ENTRADA_LEN, BLOQUE in *. change (4096 / 112)%nat with 36%nat in *.
  rewrite put_zeros by (rewrite length_bytes_de by done; unfold ENTRADA_LEN; lia).
  replace (length es * 112)%nat with (length (bytes_de es)) by (by rewrite length_bytes_de).
  rewrite put_pad by (rewrite length_bytes_de by done; unfold ENTRADA_LEN; lia).
  unfold bloque_de, bytes_de. rewrite fmap_app, concat_app, length_app. cbn [fmap list_fmap concat].
  rewrite app_nil_r. f_equal. fold (bytes_de es). rewrite (length_bytes_de es Hes).
  unfold ENTRADA_LEN. cbn [length]. lia.
Qed.

Lemma entradas_repuntando_spec nombre p : ptr_ok p ->
  entradas_repuntando (bytes_de es) nombre p = lift (repuntando_spec es nombre p).
Proof.
  intros Hp. unfold entradas_repuntando, repuntando_spec. cbv zeta. entra.
  rewrite (primera_spec es Hes nombre (length es) 0) by done. rewrite drop_0. cbn [result_bind].
  destruct (posicion nombre es) as [i|] eqn:Ei; cbn; [|done].
  destruct (entrada_nueva nombre p) as [e|] eqn:En; cbn [result_bind lift]; [|done].
  apply f_equal, pon_celda; [done|by eapply entrada_nueva_ok|by eapply position_lt|done].
Qed.

Lemma entradas_sin_spec nombre : entradas_sin (bytes_de es) nombre = lift (sin_spec es nombre).
Proof.
  unfold entradas_sin, sin_spec. cbv zeta. entra.
  rewrite (primera_spec es Hes nombre (length es) 0) by done. rewrite drop_0. cbn [result_bind].
  destruct (posicion nombre es) as [i|] eqn:Ei; [|done]. cbn [fmap option_fmap option_map ok_or result_bind lift].
  change (0 + i)%nat with i. apply position_lt in Ei.
  assert (H0 : (length (@nil Z) + length es * ENTRADA_LEN <= BLOQUE)%nat).
  { unfold ENTRADAS_POR_BLOQUE, ENTRADA_LEN, BLOQUE in *. change (4096 / 112)%nat with 36%nat in *.
    cbn [length]. lia. }
  pose proof (copia_sin_spec es Hes i (length es) 0 [] eq_refl (conj (Nat.le_0_l _) Ei) H0) as E.
  change (pad BLOQUE []) with (replicate BLOQUE 0) in E. change (length []) with 0%nat in E.
  rewrite E, Nat.sub_0_r, drop_0. unfold bloque_de.
  rewrite length_delete by (by apply lookup_lt_is_Some_2). cbn [app length].
  do 2 f_equal; lia.
Qed.

Lemma last_with_Some {A} (p : A -> bool) l i x : last_with p l = Some (i, x) -> l !! i = Some x /\ p x = true.
Proof.
  revert i; induction l as [|y l IH]; intros i; cbn; [done|].
  destruct (last_with p l) as [[k z]|]; [intros [= <- <-]; by apply IH|].
  destruct (p y) eqn:E; [|done]. by intros [= <- <-].
Qed.

Lemma entradas_renombrando_spec viejo nuevo :
  entradas_renombrando (bytes_de es) viejo nuevo = lift (renombrando_spec es viejo nuevo).
Proof.
  unfold entradas_renombrando, renombrando_spec. cbv zeta. entra.
  rewrite (ultima_spec es Hes viejo nuevo (length es) 0) by done. rewrite drop_0.
  destruct (existsb _ es); [done|]. cbn [result_bind].
  destruct (last_with _ es) as [[i e]|] eqn:Ei; cbn [ok_or result_bind fst snd]; [|done].
  apply last_with_Some in Ei as [Hi _].
  destruct (entrada_nueva nuevo (nodo e)) as [r|] eqn:En; cbn [result_bind lift]; [|done].
  apply f_equal, pon_celda; [done| |by eapply lookup_lt_Some|done].
  eapply entrada_nueva_ok; [exact En|]. apply (en_nodo _ (Forall_lookup_1 _ _ _ _ Hes Hi)).
Qed.
End Refina.

(** * A directory as a map from folded names to nodes *)

Definition plegar (n : list Z) : list Z := baja <$> n.
Definition clave (e : Entrada) : list Z := plegar (take (e_nombre_len e) (e_name e)).

Definition mapa (es : list Entrada) : gmap (list Z) BlockPtr := list_to_map ((fun e => (clave e, nodo e)) <$> es).

(** No two entries answer to one name. *)
Definition sin_repetidas (es : list Entrada) : Prop := NoDup (clave <$> es).

Lemma se_llama_clave e n : se_llama e n = bool_decide (clave e = plegar n).
Proof.
  unfold se_llama, clave, plegar. generalize (take (e_nombre_len e) (e_name e)). intros a.
  destruct (Nat.eqb_spec (length a) (length n)) as [Hl|Hl]; cbn [negb].
  - revert n Hl. induction a as [|x a IH]; intros [|y n] Hl; try done. simpl in Hl.
    cbn [zip_with forallb]. rewrite IH by lia. rewrite !fmap_cons.
    destruct (Z.eqb_spec (baja x) (baja y)) as [E|E]; cbn [andb].
    + apply bool_decide_ext. rewrite E. split; [by intros ->|by intros [= ?]].
    + symmetry. apply bool_decide_eq_false. by intros [= ?].
  - symmetry. apply bool_decide_eq_false. intros E. apply (f_equal length) in E.
    by rewrite !length_fmap in E.
Qed.

Lemma mapa_cons e es : mapa (e :: es) = <[clave e := nodo e]> (mapa es).
Proof. done. Qed.

Lemma mapa_buscar n es : mapa es !! plegar n = buscar n es.
Proof.
  unfold buscar. induction es as [|e es IH]; [done|]. rewrite mapa_cons. cbn [List.find].
  rewrite se_llama_clave. case_bool_decide as E.
  - by rewrite E, lookup_insert_eq.
  - by rewrite lookup_insert_ne.
Qed.

Lemma mapa_None k es : k ∉ (clave <$> es) -> mapa es !! k = None.
Proof.
  intros H. apply not_elem_of_list_to_map_1. rewrite <- list_fmap_compose. exact H.
Qed.

Lemma posicion_None n es : posicion n es = None <-> plegar n ∉ (clave <$> es).
Proof.
  unfold posicion. rewrite position_None, list_elem_of_fmap. setoid_rewrite se_llama_clave.
  setoid_rewrite list_elem_of_lookup. split.
  - intros H (e & E & i & Hi). apply (H i e) in Hi. by apply bool_decide_eq_false in Hi.
  - intros H i e Hi. apply bool_decide_eq_false. intros E. apply H. eauto.
Qed.

(** The entry found splits the directory, and the ones before it are called otherwise. *)
Lemma posicion_split n es i : posicion n es = Some i ->
  exists l1 e l2, es = l1 ++ e :: l2 /\ length l1 = i /\ clave e = plegar n /\ plegar n ∉ (clave <$> l1).
Proof.
  intros (e & Hi & He & Hlt)%position_Some.
  destruct (list_elem_of_split_length _ _ _ Hi) as (l1 & l2 & -> & ->). exists l1, e, l2.
  rewrite se_llama_clave in He. apply bool_decide_eq_true in He. split_and!; [done..|].
  apply posicion_None. apply position_None. intros j y Hj. apply (Hlt j y); [by eapply lookup_lt_Some|].
  by apply lookup_app_l_Some.
Qed.

Lemma mapa_app l1 l2 : mapa (l1 ++ l2) = mapa l1 ∪ mapa l2.
Proof. unfold mapa. by rewrite fmap_app, list_to_map_app. Qed.

Lemma mapa_insert_mid l1 e l2 : clave e ∉ (clave <$> l1) ->
  mapa (l1 ++ e :: l2) = <[clave e := nodo e]> (mapa (l1 ++ l2)).
Proof.
  intros H. rewrite !mapa_app, mapa_cons. apply mapa_None in H. by rewrite insert_union_r.
Qed.

Lemma nueva_take n p e : entrada_nueva n p = Ok e -> take (e_nombre_len e) (e_name e) = n /\ nodo e = p.
Proof.
  unfold entrada_nueva. destruct n as [|c n]; [done|]. set (m := c :: n). case_if; [done|].
  apply Nat.ltb_ge in Heqb. intros E.
  apply (f_equal (fun r => match r with Ok x => x | Err _ => e end)) in E. cbv beta iota in E. subst e.
  cbn [e_nombre_len e_name nodo]. split; [|done]. rewrite put_zeros by done. unfold pad. apply take_app_length.
Qed.

Lemma clave_nueva n p e : entrada_nueva n p = Ok e -> clave e = plegar n /\ nodo e = p.
Proof. intros [H ?]%nueva_take. unfold clave. by rewrite H. Qed.

Lemma entrada_nueva_nombre n p e : entrada_nueva n p = Ok e -> utf8 (length n) n = true -> e_nombre_str e = n.
Proof. intros [H _]%nueva_take H8. unfold e_nombre_str, utf8_or_empty. by rewrite H, H8. Qed.

Lemma insert_mid {A} (l1 : list A) x y l2 : <[length l1 := y]> (l1 ++ x :: l2) = l1 ++ y :: l2.
Proof. rewrite insert_app_r_alt by lia. by rewrite Nat.sub_diag. Qed.
Lemma delete_mid {A} (l1 : list A) x l2 : delete (length l1) (l1 ++ x :: l2) = l1 ++ l2.
Proof. induction l1; cbn; [done|]. f_equal. exact IHl1. Qed.

Lemma claves_mid l1 e l2 : clave <$> (l1 ++ e :: l2) = (clave <$> l1) ++ clave e :: (clave <$> l2).
Proof. by rewrite fmap_app, fmap_cons. Qed.

Lemma sin_repetidas_mid l1 e e' l2 : sin_repetidas (l1 ++ e :: l2) ->
  clave e' ∉ (clave <$> (l1 ++ l2)) -> sin_repetidas (l1 ++ e' :: l2).
Proof.
  unfold sin_repetidas. rewrite !claves_mid, fmap_app, !NoDup_app, !NoDup_cons. set_solver.
Qed.

Lemma sin_repetidas_fuera l1 e l2 : sin_repetidas (l1 ++ e :: l2) ->
  (clave e ∉ clave <$> (l1 ++ l2)) /\ sin_repetidas (l1 ++ l2).
Proof.
  unfold sin_repetidas. rewrite claves_mid, fmap_app, !NoDup_app, !NoDup_cons. set_solver.
Qed.

Section Mapa.
Variable es : list Entrada.
Hypothesis Hu : sin_repetidas es.

Lemma con_mapa n p es' : con_spec es n p = Ok es' -> posicion n es = None ->
  mapa es' = <[plegar n := p]> (mapa es) /\ sin_repetidas es'.
Proof.
  unfold con_spec. case_if; [done|]. destruct (entrada_nueva n p) as [e|] eqn:En; cbn [result_bind]; [|done].
  case_if; [done|]. intros [= <-] Hp%posicion_None. destruct (clave_nueva _ _ _ En) as [Hc <-]. split.
  - rewrite (mapa_insert_mid es e []), app_nil_r, Hc; [done|]. by rewrite Hc.
  - unfold sin_repetidas. rewrite fmap_app, NoDup_app. cbn [fmap list_fmap]. rewrite Hc.
    split_and!; [done|set_solver|apply NoDup_singleton].
Qed.

Lemma repuntando_mapa n p es' : repuntando_spec es n p = Ok es' ->
  mapa es' = <[plegar n := p]> (mapa es) /\ sin_repetidas es' /\ is_Some (mapa es !! plegar n).
Proof.
  unfold repuntando_spec. destruct (posicion n es) as [i|] eqn:Ei; [|done]. cbn [ok_or result_bind].
  destruct (entrada_nueva n p) as [e'|] eqn:En; cbn [result_bind]; [|done]. intros [= <-].
  destruct (posicion_split _ _ _ Ei) as (l1 & e & l2 & -> & <- & He & Hl1).
  destruct (clave_nueva _ _ _ En) as [Hc <-]. rewrite insert_mid.
  destruct (sin_repetidas_fuera _ _ _ Hu) as [Hf _].
  rewrite !mapa_insert_mid by (by rewrite ?He, ?Hc). rewrite He, Hc, insert_insert_eq.
  split_and!; [done| |by rewrite lookup_insert_eq].
  apply (sin_repetidas_mid l1 e e' l2 Hu). by rewrite Hc, <- He.
Qed.

Lemma sin_mapa n es' : sin_spec es n = Ok es' ->
  mapa es' = delete (plegar n) (mapa es) /\ sin_repetidas es' /\ is_Some (mapa es !! plegar n).
Proof.
  unfold sin_spec. destruct (posicion n es) as [i|] eqn:Ei; [|done]. cbn [ok_or result_bind]. intros [= <-].
  destruct (posicion_split _ _ _ Ei) as (l1 & e & l2 & -> & <- & He & Hl1). rewrite delete_mid.
  destruct (sin_repetidas_fuera _ _ _ Hu) as [Hf Hs].
  rewrite mapa_insert_mid by (by rewrite He). rewrite He in *.
  rewrite delete_insert_eq, delete_id by (by apply mapa_None).
  split_and!; [done|done|by rewrite lookup_insert_eq].
Qed.

Lemma renombrando_mapa viejo nuevo es' : renombrando_spec es viejo nuevo = Ok es' ->
  exists p, mapa es !! plegar viejo = Some p /\
    mapa es' = <[plegar nuevo := p]> (delete (plegar viejo) (mapa es)) /\ sin_repetidas es'.
Proof.
  unfold renombrando_spec. destruct (existsb _ es) eqn:Ex; [done|].
  destruct (last_with _ es) as [[i e]|] eqn:Ei; [|done]. cbn [ok_or result_bind fst snd].
  apply last_with_Some in Ei as [Hi He]. rewrite se_llama_clave in He. apply bool_decide_eq_true in He.
  destruct (entrada_nueva nuevo (nodo e)) as [r|] eqn:En; cbn [result_bind]; [|done]. intros [= <-].
  destruct (list_elem_of_split_length _ _ _ Hi) as (l1 & l2 & -> & ->). rewrite insert_mid.
  destruct (clave_nueva _ _ _ En) as [Hc Hr]. destruct (sin_repetidas_fuera _ _ _ Hu) as [Hf Hs].
  assert (Hn : clave r ∉ (clave <$> (l1 ++ l2))).
  { rewrite Hc. intros Hin. destruct (decide (plegar nuevo = plegar viejo)) as [E|E].
    - apply Hf. by rewrite He, <- E.
    - apply list_elem_of_fmap in Hin as (x & Ex1 & Hx).
      assert (Hx' : x ∈ l1 ++ e :: l2) by set_solver.
      assert (Ht : existsb (fun e => se_llama e nuevo && negb (se_llama e viejo)) (l1 ++ e :: l2) = true).
      { apply existsb_exists. exists x. split; [by apply list_elem_of_In|].
        rewrite !se_llama_clave, <- Ex1, bool_decide_eq_true_2, bool_decide_eq_false_2 by congruence. done. }
      congruence. }
  exists (nodo e). rewrite !mapa_insert_mid by (intros H; (apply Hf || apply Hn); rewrite fmap_app; set_solver).
  rewrite He, Hc, Hr, lookup_insert_eq, delete_insert_eq, delete_id by (apply mapa_None; by rewrite <- He).
  split_and!; [done|done|]. by apply (sin_repetidas_mid l1 e r l2).
Qed.
End Mapa.

(** * Nodes *)

Lemma attr_datos_ceros : Forall (fun c : Z => c <> 0) ATTR_DATOS /\ Forall (fun c : Z => c <> 0) ATTR_ENTRADAS.
Proof. split; repeat constructor; done. Qed.

(** A fresh node with one attribute, written and read. *)
Lemma nodo_uno t a : attr_ok a -> attr_nombre_str a <> [] ->
  exists n, con (nodo_nuevo t) a = Ok n /\ tipo n = t /\ attr n (attr_nombre_str a) = Some a /\
    nodo_decode (nodo_encode n) = Ok n.
Proof.
  intros Ha Hn. exists (mkNodo t [Some a; None; None; None]).
  assert (Hc : con (nodo_nuevo t) a = Ok (mkNodo t [Some a; None; None; None])) by reflexivity.
  split_and!; [done|done| |].
  - unfold attr. cbn. by rewrite bool_decide_eq_true_2.
  - rewrite <- (app_nil_r (nodo_encode _)). apply nodo_roundtrip_app.
    apply (con_ok (nodo_nuevo t) a); [|done..]. exists []. cbn. split_and!; [unfold ATTRS_MAX; lia|constructor|done].
Qed.

Lemma nodo_de_fichero_spec datos :
  (length datos <= RESIDENTE_MAX)%nat ->
  exists b n a, nodo_de_fichero datos = Ok b /\ nodo_decode b = Ok n /\ tipo n = Archivo /\
    attr n ATTR_DATOS = Some a /\ datos_residentes a = Some datos.
Proof.
  intros Hl. unfold nodo_de_fichero. rewrite (proj2 (Nat.ltb_ge _ _)) by done.
  destruct (attr_residente ATTR_DATOS datos) as [a|] eqn:Ea.
  2: { unfold attr_residente in Ea. rewrite (proj2 (Nat.ltb_ge _ _)) in Ea by done. discriminate. }
  pose proof (attr_residente_ok _ _ _ Ea (proj1 attr_datos_ceros)) as Ha.
  unfold attr_residente in Ea. rewrite (proj2 (Nat.ltb_ge _ _)) in Ea by done.
  apply (f_equal (fun r => match r with Ok x => x | Err _ => a end)) in Ea.
  unfold nombre_a_bytes in Ea. cbn [ATTR_DATOS length Nat.ltb Nat.leb ATTR_NOMBRE_LEN result_bind fst snd] in Ea.
  assert (Hn : attr_nombre_str a = ATTR_DATOS) by (by rewrite <- Ea).
  destruct (nodo_uno Archivo a Ha) as (n & Hc & Ht & Hat & Hd); [by rewrite Hn|].
  cbn [result_bind]. rewrite Hc. cbn [result_bind]. exists (nodo_encode n), n, a. rewrite <- Hn.
  split_and!; [done..|]. rewrite <- Ea. unfold datos_residentes. cbn [a_residente a_size a_cuerpo].
  rewrite Nat2Z.id, put_zeros by done. unfold pad. by rewrite take_app_length.
Qed.

Lemma nodo_en_bloques_spec t nombre size niv p :
  t = Archivo /\ nombre = ATTR_DATOS \/ t = Directorio /\ nombre = ATTR_ENTRADAS ->
  is_u64 size -> 0 <= niv <= Z.of_nat NIVELES_MAX -> ptr_ok p ->
  exists a n, en_bloques nombre size niv p = Ok a /\ con (nodo_nuevo t) a = Ok n /\
    nodo_decode (nodo_encode n) = Ok n /\ tipo n = t /\ attr n nombre = Some a /\
    attr_raiz a = Some p /\ a_size a = size /\ a_levels a = niv.
Proof.
  intros Ht Hs Hv Hp.
  assert (Hz : Forall (fun c : Z => c <> 0) nombre /\ (exists b, nombre_a_bytes nombre = Ok (b, length nombre) /\
    utf8_or_empty (take (length nombre) b) = nombre) /\ nombre <> []).
  { destruct attr_datos_ceros.
    destruct Ht as [[-> ->]|[-> ->]]; (split; [done|]); (split; [|done]); by eexists. }
  destruct Hz as (Hz & (b & Hb & Hn) & Hne).
  assert (Ea : en_bloques nombre size niv p =
    Ok (mkAttr b (length nombre) size niv false (replicate RESIDENTE_MAX 0) p)).
  { unfold en_bloques. rewrite Hb. cbn [result_bind]. by rewrite (proj2 (Z.ltb_ge _ _)) by lia. }
  pose proof (en_bloques_ok _ _ _ _ _ Ea Hz Hs (proj1 Hv) Hp) as Ha.
  destruct (nodo_uno t _ Ha) as (n & Hc & Hti & Hat & Hd); [unfold attr_nombre_str; cbn [a_nombre_len a_name]; by rewrite Hn|].
  unfold attr_nombre_str in Hat. cbn [a_nombre_len a_name] in Hat. rewrite Hn in Hat.
  do 2 eexists. split_and!; [exact Ea|exact Hc|done..].
Qed.

(** * Properties *)

(** A directory: well-formed entries that fit a block, no name twice. *)
Definition carpeta (es : list Entrada) : Prop :=
  Forall entrada_ok es /\ (length es <= ENTRADAS_POR_BLOQUE)%nat /\ sin_repetidas es.

Lemma lift_Ok r blk : lift r = Ok blk -> exists es', r = Ok es' /\ blk = bloque_de es'.
Proof. destruct r as [es'|]; [|done]. intros H. exists es'. split; [done|]. by injection H. Qed.

Section Carpeta.
Variables (es : list Entrada) (n : list Z).
Hypothesis Hc : carpeta es.

Lemma posicion_mapa : is_Some (posicion n es) <-> is_Some (mapa es !! plegar n).
Proof.
  rewrite <- !not_eq_None_Some. apply not_iff_compat. rewrite posicion_None. split; [apply mapa_None|].
  rewrite mapa_buscar. unfold buscar. intros Hf (x & Ex & Hx)%list_elem_of_fmap.
  destruct (List.find _ es) eqn:Ef; [done|]. eapply find_none in Ef; [|by apply list_elem_of_In].
  rewrite se_llama_clave in Ef. by apply bool_decide_eq_false in Ef.
Qed.

Lemma posicion_ausente : mapa es !! plegar n = None -> posicion n es = None.
Proof.
  intros H. destruct (posicion n es) eqn:Ep; [|done].
  destruct (proj1 posicion_mapa) as [? ?]; [by rewrite Ep|congruence].
Qed.

Lemma con_carpeta p blk : ptr_ok p -> mapa es !! plegar n = None -> entradas_con (bytes_de es) n p = Ok blk ->
  exists e, clave e = plegar n /\ blk = bloque_de (es ++ [e]) /\ carpeta (es ++ [e]) /\
    mapa (es ++ [e]) = <[plegar n := p]> (mapa es).
Proof.
  destruct Hc as (Ho & Hn & Hu). intros Hp Hm. rewrite entradas_con_spec by done.
  intros (es' & E & ->)%lift_Ok.
  pose proof (posicion_ausente Hm) as Hpos.
  destruct (con_mapa es Hu n p es' E Hpos) as [Hma Hu'].
  unfold con_spec in E. case_if_in E; [done|]. apply Nat.ltb_ge in Heqb.
  destruct (entrada_nueva n p) as [e|] eqn:En; cbn [result_bind] in E; [|done]. case_if_in E; [done|].
  injection E as <-. destruct (clave_nueva _ _ _ En) as [Hce _].
  exists e. split_and!; [done..| |done]. split_and!; [|by rewrite length_app|done].
  apply Forall_app. split; [done|]. constructor; [by eapply entrada_nueva_ok|constructor].
Qed.

Lemma carpeta_insert i e : entrada_ok e -> sin_repetidas (<[i := e]> es) -> carpeta (<[i := e]> es).
Proof.
  destruct Hc as (Ho & Hn & Hu). intros He Hu'.
  split_and!; [by apply Forall_insert|by rewrite length_insert|done].
Qed.

Lemma repuntando_carpeta p blk : ptr_ok p -> entradas_repuntando (bytes_de es) n p = Ok blk ->
  exists i e, posicion n es = Some i /\ blk = bloque_de (<[i := e]> es) /\ carpeta (<[i := e]> es) /\
    mapa (<[i := e]> es) = <[plegar n := p]> (mapa es).
Proof.
  destruct Hc as (Ho & Hn & Hu). intros Hp. rewrite entradas_repuntando_spec by done.
  intros (es' & E & ->)%lift_Ok. destruct (repuntando_mapa es Hu n p es' E) as (Hma & Hu' & _).
  unfold repuntando_spec in E. destruct (posicion n es) as [i|]; [|done]. cbn [ok_or result_bind] in E.
  destruct (entrada_nueva n p) as [e|] eqn:En; cbn [result_bind] in E; [|done]. injection E as <-.
  exists i, e. split_and!; [done..| |done]. apply carpeta_insert; [by eapply entrada_nueva_ok|done].
Qed.

Lemma sin_carpeta blk : entradas_sin (bytes_de es) n = Ok blk ->
  exists i, posicion n es = Some i /\ blk = bloque_de (delete i es) /\ carpeta (delete i es) /\
    mapa (delete i es) = delete (plegar n) (mapa es).
Proof.
  destruct Hc as (Ho & Hn & Hu). rewrite entradas_sin_spec by done.
  intros (es' & E & ->)%lift_Ok. destruct (sin_mapa es Hu n es' E) as (Hma & Hu' & _).
  unfold sin_spec in E. destruct (posicion n es) as [i|] eqn:Ei; [|done]. cbn [ok_or result_bind] in E.
  injection E as <-. exists i. split_and!; [done..| |done].
  split_and!; [by apply Forall_delete| |done]. apply position_lt in Ei.
  rewrite length_delete by (by apply lookup_lt_is_Some_2). lia.
Qed.

Lemma renombrando_carpeta m blk : entradas_renombrando (bytes_de es) n m = Ok blk ->
  exists i e p, blk = bloque_de (<[i := e]> es) /\ carpeta (<[i := e]> es) /\ mapa es !! plegar n = Some p /\
    mapa (<[i := e]> es) = <[plegar m := p]> (delete (plegar n) (mapa es)).
Proof.
  destruct Hc as (Ho & Hn & Hu). rewrite entradas_renombrando_spec by done.
  intros (es' & E & ->)%lift_Ok. destruct (renombrando_mapa es Hu n m es' E) as (p & Hp & Hma & Hu').
  unfold renombrando_spec in E. destruct (existsb _ es); [done|].
  destruct (last_with _ es) as [[i e]|] eqn:Ei; [|done]. cbn [ok_or result_bind fst snd] in E.
  apply last_with_Some in Ei as [Hi _].
  destruct (entrada_nueva m (nodo e)) as [r|] eqn:En; cbn [result_bind] in E; [|done]. injection E as <-.
  exists i, r, p. split_and!; [done| |done..]. apply carpeta_insert; [|done].
  eapply entrada_nueva_ok; [exact En|]. apply (en_nodo _ (Forall_lookup_1 _ _ _ _ Ho Hi)).
Qed.

Lemma last_with_None {A} (q : A -> bool) l : position q l = None -> last_with q l = None.
Proof. induction l as [|x l IH]; cbn; [done|]. case_if; [done|]. destruct (position q l); [done|]. by intros _; rewrite IH. Qed.

Lemma ausente_carpeta : mapa es !! plegar n = None ->
  (forall p, entradas_repuntando (bytes_de es) n p = Err BadField) /\
  entradas_sin (bytes_de es) n = Err BadField /\
  forall m, entradas_renombrando (bytes_de es) n m = Err BadField.
Proof.
  destruct Hc as (Ho & Hn & Hu). intros Hm.
  pose proof (posicion_ausente Hm) as Hpos.
  split_and!.
  - intros p. unfold entradas_repuntando. cbv zeta. destruct (cuantas_bytes es Ho) as [-> ->]. cbn [negb].
    rewrite (primera_spec es Ho n (length es) 0) by done. rewrite drop_0, Hpos. done.
  - rewrite entradas_sin_spec by done. unfold sin_spec. by rewrite Hpos.
  - intros m. rewrite entradas_renombrando_spec by done. unfold renombrando_spec.
    rewrite (last_with_None _ _ Hpos). by case_if.
Qed.

Lemma sin_presente : is_Some (mapa es !! plegar n) -> exists blk, entradas_sin (bytes_de es) n = Ok blk.
Proof.
  destruct Hc as (Ho & Hn & Hu). intros [i Hi]%posicion_mapa. rewrite entradas_sin_spec by done.
  unfold sin_spec. rewrite Hi. by eexists.
Qed.

Lemma renombrando_ocupado m : plegar m <> plegar n -> is_Some (mapa es !! plegar m) ->
  entradas_renombrando (bytes_de es) n m = Err BadField.
Proof.
  destruct Hc as (Ho & Hn & Hu). intros Hne [p Hp]. rewrite entradas_renombrando_spec by done.
  unfold renombrando_spec. rewrite mapa_buscar in Hp. unfold buscar in Hp.
  destruct (List.find _ es) as [e|] eqn:Ef; [|done]. apply find_some in Ef as [Hin He].
  replace (existsb _ es) with true; [done|]. symmetry. apply existsb_exists. exists e. split; [done|].
  rewrite He, !se_llama_clave in *. apply bool_decide_eq_true in He.
  by rewrite bool_decide_eq_false_2 by congruence.
Qed.
End Carpeta.

(** A second entry with the same folded name hides behind the first. *)
Lemma mapa_tapada es e : is_Some (mapa es !! clave e) -> mapa (es ++ [e]) = mapa es /\ ~ sin_repetidas (es ++ [e]).
Proof.
  intros [q Hq]. split.
  - rewrite mapa_app. apply map_eq. intros k. rewrite lookup_union.
    destruct (decide (k = clave e)) as [->|Hk]; [by rewrite Hq; destruct (mapa [e] !! clave e)|].
    unfold mapa at 2. cbn. rewrite lookup_insert_ne, lookup_empty by congruence.
    by destruct (mapa es !! k).
  - unfold sin_repetidas. rewrite fmap_app, NoDup_app. cbn [fmap list_fmap].
    intros (_ & Hd & _). apply (Hd (clave e)); [|set_solver].
    destruct (decide (clave e ∈ clave <$> es)) as [|Hx]; [done|]. apply mapa_None in Hx. congruence.
Qed.

(** ** When each editor succeeds *)

Definition nombre_ok (n : list Z) : Prop := (1 <= length n <= NOMBRE_MAX)%nat.

(** [entradas_con] takes a name that fits, when there is room and no entry is
    spelled exactly like it. *)
Definition admite (es : list Entrada) (n : list Z) : Prop :=
  (length es < ENTRADAS_POR_BLOQUE)%nat /\ nombre_ok n /\ Forall (fun e => e_nombre_str e <> n) es.

(** [entradas_renombrando] asks for the old name, a new one that fits, and no
    other entry that answers to it. *)
Definition renombrable (es : list Entrada) (n m : list Z) : Prop :=
  is_Some (mapa es !! plegar n) /\ nombre_ok m /\ (plegar m = plegar n \/ mapa es !! plegar m = None).

Lemma entrada_nueva_casos n p : (nombre_ok n /\ exists e, entrada_nueva n p = Ok e) \/
  (~ nombre_ok n /\ entrada_nueva n p = Err BadField).
Proof.
  unfold entrada_nueva, nombre_ok. destruct n as [|c n]; [right; split; [cbn; lia|done]|].
  case_if; [right; split; [apply Nat.ltb_lt in Heqb; lia|done]|].
  left. apply Nat.ltb_ge in Heqb. split; [cbn [length] in *; lia|by eexists].
Qed.

Lemma presente_nombre_ok es n : Forall entrada_ok es -> is_Some (mapa es !! plegar n) -> nombre_ok n.
Proof.
  intros Ho [q Hq]. rewrite mapa_buscar in Hq. unfold buscar in Hq.
  destruct (List.find _ es) as [e|] eqn:Ef; [|done]. apply find_some in Ef as [Hin He].
  apply list_elem_of_In in Hin. destruct (Forall_forall (fun e => entrada_ok e) es) as [Hf _].
  destruct (Hf Ho e Hin) as [Hl Hk _]. rewrite se_llama_clave in He. apply bool_decide_eq_true in He.
  apply (f_equal length) in He. unfold clave, plegar in He. rewrite !length_fmap, length_take in He.
  unfold nombre_ok. lia.
Qed.

Section Casos.
Variables (es : list Entrada) (n : list Z).
Hypothesis Hc : carpeta es.

Lemma con_casos p : ptr_ok p ->
  match entradas_con (bytes_de es) n p with
  | Ok blk => admite es n /\ exists e, clave e = plegar n /\ nodo e = p /\ blk = bloque_de (es ++ [e]) /\
      (mapa es !! plegar n = None -> carpeta (es ++ [e]) /\ mapa (es ++ [e]) = <[plegar n := p]> (mapa es)) /\
      (is_Some (mapa es !! plegar n) -> mapa (es ++ [e]) = mapa es /\ ~ sin_repetidas (es ++ [e]))
  | Err err => err = BadField /\ ~ admite es n
  end.
Proof.
  destruct Hc as (Ho & Hn & Hu). intros Hp.
  pose proof (con_carpeta es n Hc p) as Hcar.
  rewrite entradas_con_spec in * by done. unfold con_spec in *. unfold admite.
  case_if; [apply Nat.ltb_lt in Heqb; split; [done|lia]|]. apply Nat.ltb_ge in Heqb.
  destruct (entrada_nueva_casos n p) as [[Hno [e En]]|[Hno En]]; rewrite En in *; cbn [result_bind lift] in *;
    [|split; [done|tauto]].
  destruct (existsb _ es) eqn:Ex; cbn [result_bind lift] in *.
  - split; [done|]. intros (_ & _ & Hf). apply existsb_exists in Ex as (x & Hx & Ex).
    apply bool_decide_eq_true in Ex. rewrite Forall_forall in Hf. by apply (Hf x); [apply list_elem_of_In|].
  - destruct (clave_nueva _ _ _ En) as [Hce Hnd]. split.
    { split_and!; [lia|done|]. apply Forall_forall. intros x Hx E.
      assert (Ht : existsb (fun e => bool_decide (e_nombre_str e = n)) es = true); [|congruence].
      apply existsb_exists. exists x. split; [by apply list_elem_of_In|by apply bool_decide_eq_true_2]. }
    exists e. split_and!; [done..| |rewrite <- Hce; apply mapa_tapada].
    intros Hm. destruct (con_mapa es Hu n p (es ++ [e])) as [Hma Hu'].
    { unfold con_spec. by rewrite (proj2 (Nat.ltb_ge _ _)), En, Ex. }
    { by apply posicion_ausente. }
    split; [|done]. split_and!; [|rewrite length_app; cbn [length]; lia|done].
    apply Forall_app. split; [done|]. constructor; [by eapply entrada_nueva_ok|constructor].
Qed.

Lemma repuntando_casos p : ptr_ok p ->
  match entradas_repuntando (bytes_de es) n p with
  | Ok blk => is_Some (mapa es !! plegar n) /\ exists i e, posicion n es = Some i /\
      blk = bloque_de (<[i := e]> es) /\ carpeta (<[i := e]> es) /\
      mapa (<[i := e]> es) = <[plegar n := p]> (mapa es)
  | Err err => err = BadField /\ mapa es !! plegar n = None
  end.
Proof.
  intros Hp. pose proof (repuntando_carpeta es n Hc p) as H. pose proof (posicion_mapa es n) as Hpm.
  destruct Hc as (Ho & Hn & Hu). destruct (entradas_repuntando _ _ _) as [blk|err] eqn:E.
  - destruct (H blk Hp eq_refl) as (i & e & Hi & H'). split; [apply Hpm; by rewrite Hi|by exists i, e].
  - rewrite entradas_repuntando_spec in E by done. unfold repuntando_spec in E.
    destruct (posicion n es) as [i|] eqn:Ei; cbn [ok_or result_bind lift] in E.
    + exfalso. pose proof (presente_nombre_ok es n Ho (proj1 Hpm ltac:(done))) as Hno.
      destruct (entrada_nueva_casos n p) as [[_ [e En]]|[Hno' _]]; [|done]. by rewrite En in E.
    + injection E as <-. split; [done|]. apply eq_None_not_Some. intros Hs. apply Hpm in Hs as [? ?]. done.
Qed.

Lemma sin_casos :
  match entradas_sin (bytes_de es) n with
  | Ok blk => is_Some (mapa es !! plegar n) /\ exists i, posicion n es = Some i /\ blk = bloque_de (delete i es) /\
      carpeta (delete i es) /\ mapa (delete i es) = delete (plegar n) (mapa es)
  | Err err => err = BadField /\ mapa es !! plegar n = None
  end.
Proof.
  pose proof (sin_carpeta es n Hc) as H. pose proof (posicion_mapa es n) as Hpm.
  destruct Hc as (Ho & Hn & Hu). destruct (entradas_sin _ _) as [blk|err] eqn:E.
  - destruct (H blk eq_refl) as (i & Hi & H'). split; [apply Hpm; by rewrite Hi|by exists i].
  - rewrite entradas_sin_spec in E by done. unfold sin_spec in E.
    destruct (posicion n es) as [i|] eqn:Ei; cbn [ok_or result_bind lift] in E; [done|].
    injection E as <-. split; [done|]. apply eq_None_not_Some. intros Hs. apply Hpm in Hs as [? ?]. done.
Qed.

Lemma last_with_presente {A} (q : A -> bool) l : is_Some (position q l) -> is_Some (last_with q l).
Proof.
  induction l as [|x l IH]; cbn; [by intros [? ?]|]. destruct (last_with q l) as [[k y]|] eqn:El; [done|].
  destruct (q x); [done|]. destruct (position q l) as [i|]; [|by intros [? ?]].
  intros _. by destruct IH as [? ?].
Qed.

Lemma renombrando_casos m :
  match entradas_renombrando (bytes_de es) n m with
  | Ok blk => renombrable es n m /\ exists i e p, blk = bloque_de (<[i := e]> es) /\ carpeta (<[i := e]> es) /\
      mapa es !! plegar n = Some p /\
      mapa (<[i := e]> es) = <[plegar m := p]> (delete (plegar n) (mapa es))
  | Err err => err = BadField /\ ~ renombrable es n m
  end.
Proof.
  pose proof (renombrando_carpeta es n Hc m) as H. pose proof (posicion_mapa es n) as Hpm.
  pose proof (posicion_mapa es m) as Hpm'. pose proof (renombrando_ocupado es n Hc m) as Hoc.
  destruct Hc as (Ho & Hn & Hu). destruct (entradas_renombrando _ _ _) as [blk|err] eqn:E.
  - destruct (H blk eq_refl) as (i & e & p & H1 & H2 & Hp & H3). split; [|by exists i, e, p].
    assert (Hno : nombre_ok m).
    { rewrite entradas_renombrando_spec in E by done. unfold renombrando_spec in E. case_if_in E; [done|].
      destruct (last_with _ es) as [[j x]|]; cbn [ok_or result_bind lift] in E; [|done].
      destruct (entrada_nueva_casos m (nodo x)) as [[? _]|[_ En]]; [done|]. cbn [snd] in E. by rewrite En in E. }
    split_and!; [by eexists|done|]. destruct (decide (plegar m = plegar n)) as [|Hne]; [by left|right].
    apply eq_None_not_Some. intros Hs. specialize (Hoc Hne Hs). discriminate.
  - rewrite entradas_renombrando_spec in E by done. unfold renombrando_spec in E. unfold renombrable.
    destruct (existsb _ es) eqn:Ex; cbn [result_bind lift] in E.
    { injection E as <-. split; [done|]. intros (_ & _ & Hm). apply existsb_exists in Ex as (x & Hx & Ex).
      apply andb_true_iff in Ex as [Ex1 Ex2]. apply negb_true_iff in Ex2.
      rewrite se_llama_clave in Ex1, Ex2. apply bool_decide_eq_true in Ex1. apply bool_decide_eq_false in Ex2.
      destruct Hm as [Hm|Hm]; [congruence|]. assert (Hpo : posicion m es = None).
      { destruct (posicion m es) eqn:Ep; [|done]. destruct (proj1 Hpm') as [? ?]; [done|congruence]. }
      apply posicion_None in Hpo. apply Hpo. rewrite <- Ex1. apply list_elem_of_fmap.
      exists x. split; [done|by apply list_elem_of_In]. }
    destruct (last_with _ es) as [[i x]|] eqn:El; cbn [ok_or result_bind lift snd] in E.
    + destruct (entrada_nueva_casos m (nodo x)) as [[_ [e En]]|[Hno En]]; rewrite En in E; cbn [result_bind lift] in E;
        [done|]. injection E as <-. split; [done|tauto].
    + injection E as <-. split; [done|]. intros (Hs & _). apply Hpm, last_with_presente in Hs as [? Hs]. congruence.
Qed.
End Casos.

(** C21: editing a directory block is editing a map, and it keeps the order.  On
    a block of well-formed entries with distinct names (case ignored), each
    editor succeeds exactly in the cases said here and otherwise fails with
    [BadField].  Repointing and removing succeed iff the name is there: one cell
    is replaced in place, or removed; as a map from folded names to nodes that is
    replace and delete.  Renaming succeeds iff the old name is there, the new one
    has 1 to [NOMBRE_MAX] bytes and no other entry answers to it: one cell is
    replaced in place, and the node moves to the new name.  These three keep the
    names distinct.  Inserting succeeds iff there is room, the name has 1 to
    [NOMBRE_MAX] bytes and no entry is spelled exactly like it: an entry is
    appended.  If no entry answers to the name, that is insertion in the map and
    the names stay distinct; if one does, under another spelling, the map does
    not change and the names are no longer distinct. *)
Theorem carpeta_refina_mapa es n :
  carpeta es ->
  (forall p, ptr_ok p -> match entradas_con (bytes_de es) n p with
    | Ok blk => admite es n /\ exists e, clave e = plegar n /\ nodo e = p /\ blk = bloque_de (es ++ [e]) /\
        (mapa es !! plegar n = None -> carpeta (es ++ [e]) /\ mapa (es ++ [e]) = <[plegar n := p]> (mapa es)) /\
        (is_Some (mapa es !! plegar n) -> mapa (es ++ [e]) = mapa es /\ ~ sin_repetidas (es ++ [e]))
    | Err err => err = BadField /\ ~ admite es n
    end) /\
  (forall p, ptr_ok p -> match entradas_repuntando (bytes_de es) n p with
    | Ok blk => is_Some (mapa es !! plegar n) /\ exists i e, posicion n es = Some i /\
        blk = bloque_de (<[i := e]> es) /\ carpeta (<[i := e]> es) /\
        mapa (<[i := e]> es) = <[plegar n := p]> (mapa es)
    | Err err => err = BadField /\ mapa es !! plegar n = None
    end) /\
  match entradas_sin (bytes_de es) n with
  | Ok blk => is_Some (mapa es !! plegar n) /\ exists i, posicion n es = Some i /\ blk = bloque_de (delete i es) /\
      carpeta (delete i es) /\ mapa (delete i es) = delete (plegar n) (mapa es)
  | Err err => err = BadField /\ mapa es !! plegar n = None
  end /\
  (forall m, match entradas_renombrando (bytes_de es) n m with
    | Ok blk => renombrable es n m /\ exists i e p, blk = bloque_de (<[i := e]> es) /\ carpeta (<[i := e]> es) /\
        mapa es !! plegar n = Some p /\
        mapa (<[i := e]> es) = <[plegar m := p]> (delete (plegar n) (mapa es))
    | Err err => err = BadField /\ ~ renombrable es n m
    end).
Proof.
  intros Hc. split_and!.
  - intros p. by apply con_casos.
  - intros p. by apply repuntando_casos.
  - by apply sin_casos.
  - intros m. by apply renombrando_casos.
Qed.

Definition entrada_demo (n : list Z) : Entrada :=
  mkEntrada (put 0 n (replicate NOMBRE_MAX 0)) (length n) NULO.
Definition carpeta_demo : list Entrada := [entrada_demo [97]; entrada_demo [98; 99]].

Lemma carpeta_refina_mapa_witness :
  carpeta carpeta_demo /\
  (exists i, entradas_sin (bytes_de carpeta_demo) [66; 67] = Ok (bloque_de (delete i carpeta_demo)) /\
    posicion [66; 67] carpeta_demo = Some i) /\
  (exists e, entradas_con (bytes_de carpeta_demo) [68] NULO = Ok (bloque_de (carpeta_demo ++ [e])) /\
    carpeta (carpeta_demo ++ [e])).
Proof.
  assert (Hc : carpeta carpeta_demo).
  { split_and!; [|unfold ENTRADAS_POR_BLOQUE; cbn; lia|apply (bool_decide_eq_true_1 _); by vm_compute].
    repeat constructor; try apply NULO_ok; cbn; lia. }
  split; [done|]. split.
  - destruct (carpeta_refina_mapa carpeta_demo [66; 67] Hc) as (_ & _ & H & _).
    destruct (entradas_sin _ _) as [blk|err].
    + destruct H as (_ & i & Hi & -> & _). by exists i.
    + destruct H as [_ H]. vm_compute in H. discriminate H.
  - destruct (carpeta_refina_mapa carpeta_demo [68] Hc) as (H & _). specialize (H NULO NULO_ok).
    destruct (entradas_con _ _ _) as [blk|err].
    + destruct H as (_ & e & _ & _ & -> & H & _). exists e. split; [reflexivity|]. apply H. by vm_compute.
    + exfalso. destruct H as [_ H]. apply H. split_and!; [unfold ENTRADAS_POR_BLOQUE; cbn; lia|unfold nombre_ok, NOMBRE_MAX; cbn; lia|].
      apply (bool_decide_eq_true_1 _). by vm_compute.
Defined.

(** A name that differs from an old one in case only is accepted and can
    never be reached.  [entradas_con] compares names byte by byte while every
    reader compares them folded: the entry goes in behind one that answers to
    the same name, and the directory as a map does not change. *)
Theorem con_tapada es n p blk :
  Forall entrada_ok es -> (length es <= ENTRADAS_POR_BLOQUE)%nat -> ptr_ok p ->
  is_Some (mapa es !! plegar n) -> entradas_con (bytes_de es) n p = Ok blk ->
  exists e, clave e = plegar n /\ nodo e = p /\ blk = bloque_de (es ++ [e]) /\
    mapa (es ++ [e]) = mapa es /\ ~ sin_repetidas (es ++ [e]).
Proof.
  intros Ho Hn Hp [q Hq]. rewrite entradas_con_spec by done. intros (es' & E & ->)%lift_Ok.
  unfold con_spec in E. case_if_in E; [done|].
  destruct (entrada_nueva n p) as [e|] eqn:En; cbn [result_bind] in E; [|done]. case_if_in E; [done|].
  injection E as <-. destruct (clave_nueva _ _ _ En) as [Hc Hnd]. exists e.
  destruct (mapa_tapada es e) as [H1 H2]; [by rewrite Hc, Hq|]. done.
Qed.

(** ["a"] is there; ["A"] is accepted. *)
Lemma con_tapada_witness :
  exists blk e, entradas_con (bytes_de carpeta_demo) [65] NULO = Ok blk /\
    blk = bloque_de (carpeta_demo ++ [e]) /\ ~ sin_repetidas (carpeta_demo ++ [e]).
Proof.
  assert (Ho : Forall entrada_ok carpeta_demo) by (repeat constructor; try apply NULO_ok; cbn; lia).
  destruct (entradas_con (bytes_de carpeta_demo) [65] NULO) as [blk|] eqn:E; [|vm_compute in E; discriminate].
  destruct (con_tapada carpeta_demo [65] NULO blk Ho) as (e & _ & _ & Hb & _ & Hr);
    [unfold ENTRADAS_POR_BLOQUE; cbn; lia|apply NULO_ok|vm_compute; eauto|exact E|].
  exists blk, e. done.
Defined.

(** Repointing an entry writes it with the caller's spelling.  The documentation
    says the name is kept and the node changes: the entry found by folded name is
    replaced by one spelled as the path was typed. *)
Theorem repuntando_cambia_la_grafia es n p blk i e :
  Forall entrada_ok es -> (length es <= ENTRADAS_POR_BLOQUE)%nat -> ptr_ok p ->
  utf8 (length n) n = true ->
  posicion n es = Some i -> es !! i = Some e -> e_nombre_str e <> n ->
  entradas_repuntando (bytes_de es) n p = Ok blk ->
  exists e', blk = bloque_de (<[i := e']> es) /\ e_nombre_str e' = n /\ e_nombre_str e' <> e_nombre_str e.
Proof.
  intros Ho Hn Hp H8 Hi He Hne. rewrite entradas_repuntando_spec by done. intros (es' & E & ->)%lift_Ok.
  unfold repuntando_spec in E. rewrite Hi in E. cbn [ok_or result_bind] in E.
  destruct (entrada_nueva n p) as [e'|] eqn:En; cbn [result_bind] in E; [|done]. injection E as <-.
  assert (Hs : e_nombre_str e' = n) by (by apply (entrada_nueva_nombre n p)).
  exists e'. split_and!; [done..|congruence].
Qed.

(** Publishing below ["A"] where the directory is called ["a"]. *)
Lemma repuntando_cambia_la_grafia_witness :
  exists blk e', entradas_repuntando (bytes_de carpeta_demo) [65] NULO = Ok blk /\
    blk = bloque_de (<[0%nat := e']> carpeta_demo) /\ e_nombre_str (entrada_demo [97]) = [97] /\ e_nombre_str e' = [65].
Proof.
  assert (Ho : Forall entrada_ok carpeta_demo) by (repeat constructor; try apply NULO_ok; cbn; lia).
  destruct (entradas_repuntando (bytes_de carpeta_demo) [65] NULO) as [blk|] eqn:E; [|vm_compute in E; discriminate].
  destruct (repuntando_cambia_la_grafia carpeta_demo [65] NULO blk 0 (entrada_demo [97]) Ho) as (e' & Hb & Hn & _);
    [unfold ENTRADAS_POR_BLOQUE; cbn; lia|apply NULO_ok|reflexivity|vm_compute; reflexivity|reflexivity|done|exact E|].
  exists blk, e'. done.
Defined.
