(* ===== verification/Transaccion.v ===== *)
(** When ESTRATOS may write: how full the volume is, and the transaction that
    lets a commit happen only after the barrier.
    Sources: src/platform/drivers/storage/estratos/src/espacio.rs,
    src/platform/drivers/storage/estratos/src/escritura/mod.rs. *)

From S2P Require Import Prelude Formato.

(** * espacio.rs *)

Inductive Nivel := Holgado | Ambar | Rojo | SoloLectura.
#[export] Instance Nivel_eq_dec : EqDecision Nivel.
Proof. solve_decision. Defined.

Definition admite_escritura (n : Nivel) : bool := match n with SoloLectura => false | _ => true end.

Definition AMBAR : Z := 700.
Definition ROJO : Z := 850.
Definition SOLO_LECTURA : Z := 950.

Record Ocupacion := mkOcupacion { usados : Z; totales : Z; o_bloque : Z }.

Definition ocupacion_de (log_head total_blocks bloque : Z) : Ocupacion :=
  mkOcupacion (Z.min log_head total_blocks) total_blocks bloque.

Definition libres (o : Ocupacion) : Z := w64 (totales o - usados o).

Definition por_mil (o : Ocupacion) : Z :=
  if totales o =? 0 then 0 else w32 (saturating_mul (usados o) 1000 / totales o).

Definition por_ciento (o : Ocupacion) : Z := por_mil o / 10.
Definition bytes_usados (o : Ocupacion) : Z := saturating_mul (usados o) (o_bloque o).
Definition bytes_libres (o : Ocupacion) : Z := saturating_mul (libres o) (o_bloque o).

Definition nivel (o : Ocupacion) : Nivel :=
  let p := por_mil o in
  if SOLO_LECTURA <=? p then SoloLectura
  else if ROJO <=? p then Rojo
  else if AMBAR <=? p then Ambar
  else Holgado.

(** [u64::div_ceil] inside; the block size of a mounted volume is 4096. *)
Definition caben_de (o : Ocupacion) (bytes : Z) : Z :=
  if bytes =? 0 then 2 ^ 64 - 1
  else libres o / Z.max ((bytes + o_bloque o - 1) / o_bloque o) 1.

(** * escritura/mod.rs *)

Inductive Rechazo := SinSitio | NoCabe | OtroDisco | FueraDeOrden.
Inductive Fase := Datos | Barrera | Commit | Cerrada.
#[export] Instance Fase_eq_dec : EqDecision Fase.
Proof. solve_decision. Defined.

Record Transaccion := mkTransaccion {
  t_log_head : Z; log_head_inicial : Z; t_total : Z; generacion : Z;
  origen : Superblock; t_copia_en_uso : Z; fase : Fase
}.

Definition con_fase (t : Transaccion) (f : Fase) : Transaccion :=
  mkTransaccion (t_log_head t) (log_head_inicial t) (t_total t) (generacion t) (origen t) (t_copia_en_uso t) f.

Definition open (sb : Superblock) (copia_en_uso : Z) (identidad_ok : bool) : result Transaccion Rechazo :=
  if negb identidad_ok then Err OtroDisco
  else
    let oc := ocupacion_de (log_head sb) (total_blocks sb) (block_size sb) in
    if negb (admite_escritura (nivel oc)) then Err SinSitio
    else Ok (mkTransaccion (log_head sb) (log_head sb) (total_blocks sb) (generation sb) sb copia_en_uso Datos).

Definition reservados (t : Transaccion) : Z := w64 (t_log_head t - log_head_inicial t).

Definition reserve (t : Transaccion) (cuantos : Z) : Transaccion * result Z Rechazo :=
  if negb (bool_decide (fase t = Datos)) then (t, Err FueraDeOrden)
  else if cuantos =? 0 then (t, Ok (t_log_head t))
  else match checked_add (t_log_head t) cuantos with
  | None => (t, Err NoCabe)
  | Some fin =>
      if t_total t <? fin then (t, Err NoCabe)
      else (mkTransaccion fin (log_head_inicial t) (t_total t) (generacion t) (origen t)
              (t_copia_en_uso t) (fase t), Ok (t_log_head t))
  end.

Definition cerrar_datos (t : Transaccion) : Transaccion * result unit Rechazo :=
  if negb (bool_decide (fase t = Datos)) then (t, Err FueraDeOrden) else (con_fase t Barrera, Ok tt).

Definition barrera_hecha (t : Transaccion) : Transaccion * result unit Rechazo :=
  if negb (bool_decide (fase t = Barrera)) then (t, Err FueraDeOrden) else (con_fase t Commit, Ok tt).

Definition commit (t : Transaccion) (e : BlockPtr) : Transaccion * result (Z * Superblock) Rechazo :=
  if negb (bool_decide (fase t = Commit)) then (t, Err FueraDeOrden)
  else
    let destino := if t_copia_en_uso t =? SUPER_A_BLOCK then SUPER_B_BLOCK else SUPER_A_BLOCK in
    let o := origen t in
    let sb := mkSuper (version o) (block_size o) (w64 (generacion t + 1)) (total_blocks o) (t_log_head t)
                (s_disk_id o) e in
    (con_fase t Cerrada, Ok (destino, sb)).

Definition abandonar (t : Transaccion) : Transaccion :=
  mkTransaccion (log_head_inicial t) (log_head_inicial t) (t_total t) (generacion t) (origen t)
    (t_copia_en_uso t) Cerrada.

(** * Any sequence of calls *)

Inductive Op := OReserve (n : Z) | OCerrar | OBarrera | OCommit (e : BlockPtr) | OAbandonar.

(** One call: the transaction after it, and whether it said yes. *)
Definition paso (t : Transaccion) (o : Op) : Transaccion * bool :=
  match o with
  | OReserve n => match reserve t n with (t, Ok _) => (t, true) | (t, Err _) => (t, false) end
  | OCerrar => match cerrar_datos t with (t, Ok _) => (t, true) | (t, Err _) => (t, false) end
  | OBarrera => match barrera_hecha t with (t, Ok _) => (t, true) | (t, Err _) => (t, false) end
  | OCommit e => match commit t e with (t, Ok _) => (t, true) | (t, Err _) => (t, false) end
  | OAbandonar => (abandonar t, true)
  end.

(** The calls that said yes, in order. *)
Fixpoint exitos (t : Transaccion) (ops : list Op) : Transaccion * list Op :=
  match ops with
  | [] => (t, [])
  | o :: ops =>
      let '(t, si) := paso t o in
      let '(t, l) := exitos t ops in (t, if si then o :: l else l)
  end.

(** The only order in which the calls are accepted: from each phase, what may
    still come. *)
Inductive orden : Fase -> list Op -> Prop :=
| orden_nada f : orden f []
| orden_reserva n l : orden Datos l -> orden Datos (OReserve n :: l)
| orden_cerrar l : orden Barrera l -> orden Datos (OCerrar :: l)
| orden_barrera l : orden Commit l -> orden Barrera (OBarrera :: l)
| orden_commit e l : orden Cerrada l -> orden Commit (OCommit e :: l)
| orden_abandonar f l : orden Cerrada l -> orden f (OAbandonar :: l).

Lemma orden_exitos ops : forall t, orden (fase t) (snd (exitos t ops)).
Proof.
  induction ops as [|o ops IH]; intros t; [constructor|]. cbn [exitos].
  destruct (paso t o) as [t' si] eqn:E. specialize (IH t').
  destruct (exitos t' ops) as [t'' l]. cbn [snd] in *.
  destruct o; cbn [paso] in E;
    unfold reserve, cerrar_datos, barrera_hecha, commit, abandonar in E; cbv zeta in E;
    repeat (case_if_in E || destruct (checked_add _ _) in E); simplify_eq;
    repeat match goal with H : negb _ = false |- _ => apply negb_false_iff, bool_decide_eq_true in H end;
    cbn [fase con_fase] in IH; try done;
    try match goal with H : fase _ = _ |- _ => rewrite H in * end; by constructor.
Qed.

(** What does not change, and where the log head can be. *)
Record en_rango (t0 t : Transaccion) : Prop := {
  ra_inicial : log_head_inicial t = log_head_inicial t0; ra_total : t_total t = t_total t0;
  ra_gen : generacion t = generacion t0; ra_origen : origen t = origen t0;
  ra_copia : t_copia_en_uso t = t_copia_en_uso t0;
  ra_log : log_head_inicial t0 <= t_log_head t <= Z.max (log_head_inicial t0) (t_total t0)
}.

Lemma en_rango_paso t0 t o : en_rango t0 t -> (forall n, o = OReserve n -> 0 <= n) -> en_rango t0 (fst (paso t o)).
Proof.
  intros [H1 H2 H3 H4 H5 H6] Hn. destruct o; cbn [paso].
  - unfold reserve. repeat case_if; try (by split). unfold checked_add. destruct (decide (_ < _)); [|by split].
    cbv iota beta. case_if; [by split|]. bdestr. specialize (Hn n eq_refl). split; cbn; try done. lia.
  - unfold cerrar_datos. case_if; by split.
  - unfold barrera_hecha. case_if; by split.
  - unfold commit. case_if; by split.
  - split; cbn; try done. lia.
Qed.

Lemma en_rango_exitos ops : forall t0 t, en_rango t0 t -> Forall (fun o => forall n, o = OReserve n -> 0 <= n) ops ->
  en_rango t0 (fst (exitos t ops)).
Proof.
  induction ops as [|o ops IH]; intros t0 t H Hf; [done|]. apply Forall_cons in Hf as [Ho Hf].
  cbn [exitos]. pose proof (en_rango_paso t0 t o H Ho) as Hp. destruct (paso t o) as [t' si].
  specialize (IH t0 t' Hp Hf). by destruct (exitos t' ops).
Qed.

Lemma open_spec sb c i t : open sb c i = Ok t ->
  i = true /\ t = mkTransaccion (log_head sb) (log_head sb) (total_blocks sb) (generation sb) sb c Datos.
Proof. unfold open. case_if; [done|]. cbv zeta. case_if; [done|]. intros [= <-]. by destruct i. Qed.

(** * Properties *)

(** C22: the commit comes after the barrier, whatever the caller does.  From an
    opened transaction and any sequence of calls, the ones accepted are
    reservations, then closing the data, then the barrier, then one commit, and
    nothing after it (giving up ends it from anywhere); the log head stays
    between where it was and the end of the volume; and the superblock a commit
    hands out goes to the copy that is not in use, one generation on, with the
    reserved log head. *)
Theorem transaccion_ordenada sb c i t ops :
  open sb c i = Ok t -> Forall (fun o => forall n, o = OReserve n -> 0 <= n) ops ->
  let '(t', l) := exitos t ops in
  orden Datos l /\
  log_head sb <= t_log_head t' <= Z.max (log_head sb) (total_blocks sb) /\
  forall e t'' d sb', commit t' e = (t'', Ok (d, sb')) ->
    fase t' = Commit /\ fase t'' = Cerrada /\
    (c = SUPER_A_BLOCK \/ c = SUPER_B_BLOCK -> d <> c) /\ (d = SUPER_A_BLOCK \/ d = SUPER_B_BLOCK) /\
    sb' = mkSuper (version sb) (block_size sb) (w64 (generation sb + 1)) (total_blocks sb) (t_log_head t')
            (s_disk_id sb) e.
Proof.
  intros (_ & Et)%open_spec Hn. pose proof (orden_exitos ops t) as Ho.
  assert (Hr : en_rango t t) by (split; subst t; cbn; try done; lia).
  pose proof (en_rango_exitos ops t t Hr Hn) as [H1 H2 H3 H4 H5 H6].
  destruct (exitos t ops) as [t' l]. cbn [fst snd] in *. rewrite Et in *. cbn in *.
  split; [done|split; [done|]]. intros e t'' d sb'. unfold commit. case_if; [done|]. bdestr.
  intros [= <- <- <-]. rewrite H3, H4, H5. split_and!; [done|done| |by case_if; auto|done].
  unfold SUPER_A_BLOCK, SUPER_B_BLOCK in *. intros Hc. case_if; bdestr; lia.
Qed.

(** The thresholds are exact.  On a volume of less than 2^64 / 1000 blocks
    the level is read-only from 95 percent up, red from 85, amber from 70, and
    the per-mille figure never leaves 0..1000. *)
Theorem nivel_umbral h total bloque :
  0 <= h -> 0 < total -> total * 1000 < 2 ^ 64 ->
  let o := ocupacion_de h total bloque in
  0 <= por_mil o <= 1000 /\
  nivel o = if 950 * total <=? 1000 * Z.min h total then SoloLectura
            else if 850 * total <=? 1000 * Z.min h total then Rojo
            else if 700 * total <=? 1000 * Z.min h total then Ambar else Holgado.
Proof.
  intros Hh Ht Hb o. set (u := Z.min h total). assert (Hu : 0 <= u <= total) by (unfold u; lia).
  assert (Hq : 0 <= u * 1000 / total <= 1000).
  { split; [apply Z.div_pos; lia|]. apply Z.div_le_upper_bound; lia. }
  assert (Hp : por_mil o = u * 1000 / total).
  { unfold por_mil, o, ocupacion_de. cbn [totales usados]. rewrite (proj2 (Z.eqb_neq _ _)) by lia. fold u.
    unfold saturating_mul. rewrite Z.min_l by lia. apply w32_small. unfold is_u32. lia. }
  split; [lia|]. unfold nivel, SOLO_LECTURA, ROJO, AMBAR. rewrite Hp.
  assert (Hle : forall k, (k <=? u * 1000 / total) = (k * total <=? 1000 * u)).
  { intros k. apply eq_true_iff_eq. rewrite !Z.leb_le. split; intros H.
    - pose proof (Z.mul_div_le (u * 1000) total Ht). nia.
    - apply Z.div_le_lower_bound; lia. }
  by rewrite !Hle.
Qed.

Definition super_medio : Superblock := mkSuper VERSION BLOCK_SIZE 7 1000 40 NO_HASH NULO.

Lemma transaccion_ordenada_witness :
  exists t t' l, open super_medio SUPER_A_BLOCK true = Ok t /\
    exitos t [OBarrera; OReserve 4; OCommit NULO; OCerrar; OReserve 1; OBarrera] = (t', l) /\ orden Datos l.
Proof.
  destruct (open super_medio SUPER_A_BLOCK true) as [t|] eqn:E; [|vm_compute in E; discriminate].
  pose proof (transaccion_ordenada super_medio SUPER_A_BLOCK true t
    [OBarrera; OReserve 4; OCommit NULO; OCerrar; OReserve 1; OBarrera] E) as H.
  destruct (exitos t _) as [t' l] eqn:Ee. exists t, t', l. split; [done|split; [done|]]. apply H.
  repeat constructor; intros n [= <-]; lia.
Defined.

Lemma nivel_umbral_witness : nivel (ocupacion_de 949 1000 4096) = Rojo.
Proof. rewrite (proj2 (nivel_umbral 949 1000 4096 ltac:(lia) ltac:(lia) ltac:(lia))). reflexivity. Defined.
