(* ===== verification/Disco.v ===== *)
(** The disk under the file systems: the block contract (bmo-block), the GPT
    reader (bmo-particiones), and the kernel's disk module with its identity gate
    and its write windows.
    Sources: src/platform/drivers/storage/block/src/lib.rs,
    src/platform/drivers/storage/particiones/src/lib.rs,
    src/Ultra_kernel_x86-64/kernel/src/ring0/dev/disk/{mod,gate,ventana}.rs.

    The AHCI commands are the device: [plato] is what a power cut leaves for
    certain, [vuelo] are the sectors accepted since the last FLUSH CACHE, of which
    a cut may leave any part.  [suerte] is what the device answers to each
    command; [traza] remembers every state a cut could have found. *)

From stdpp Require Import strings.
From S2P Require Import Prelude.

Definition SECTOR : nat := 512.

(** * bmo-block *)

Inductive BlockError := NotReady | OutOfRange | ReadOnly | BShortBuffer | Device | Timeout | Unsupported.

Record DeviceId := mkDeviceId {
  model : list Z; model_len : nat; serial : list Z; serial_len : nat; blocks : Z; id_block_size : Z
}.
Definition DEVICE_ID_EMPTY : DeviceId :=
  mkDeviceId (replicate 40 0) 0 (replicate 20 0) 0 0 (Z.of_nat SECTOR).

Definition is_known (d : DeviceId) : bool :=
  (0 <? model_len d)%nat && (0 <? serial_len d)%nat && (0 <? blocks d).

Definition same_device (d o : DeviceId) : bool :=
  is_known d && is_known o
  && Nat.eqb (model_len d) (model_len o)
  && Nat.eqb (serial_len d) (serial_len o)
  && (blocks d =? blocks o)
  && bool_decide (take (model_len d) (model d) = take (model_len o) (model o))
  && bool_decide (take (serial_len d) (serial d) = take (serial_len o) (serial o)).

Definition decidir_rango (listo armada : bool) (datos estratos : option (Z * Z)) (lba sectores : Z)
  : result unit string :=
  if negb listo then Err "sin disco"%string
  else if negb armada then Err "la escritura no esta armada (gate de identidad)"%string
  else if sectores =? 0 then Err "cero sectores"%string
  else match checked_add lba sectores with
  | None => Err "el rango de LBA desborda"%string
  | Some fin =>
      if existsb (fun w => (fst w <=? lba) && (fin <=? w64 (snd w + 1)))
           (option_list datos ++ option_list estratos)
      then Ok tt else Err "fuera de las ventanas de escritura (datos / ESTRATOS)"%string
  end.

Definition decidir (listo armada : bool) (datos estratos : option (Z * Z)) (lba count : Z)
  : result unit string := decidir_rango listo armada datos estratos lba count.

(** * bmo-particiones *)

Definition MAX_PARTS : nat := 8.

Record Partition := mkPartition {
  index : Z; first_lba : Z; last_lba : Z; type_lo : Z; p_name : list Z; p_name_len : nat
}.
Definition PARTITION_VACIA : Partition := mkPartition 0 0 0 0 (replicate 36 0) 0.

Definition sectors (p : Partition) : Z := w64 (saturating_sub (last_lba p) (first_lba p) + 1).
Definition is_esp (p : Partition) : bool := type_lo p =? 0xC12A7328.
Definition is_basic_data (p : Partition) : bool := type_lo p =? 0xEBD0A0A2.

Inductive GptError := SinFirma | SectorCorto | TamanoDeEntradaAbsurdo (n : Z).

Record Gpt := mkGpt { g_last_lba : Z; entries_lba : Z; entry_count : Z; entry_size : Z }.

Definition por_sector (g : Gpt) : nat := (SECTOR / Z.to_nat (entry_size g))%nat.

Definition le32 (b : list Z) (o : nat) : Z := of_le (slice o 4 b).

(** [for i in (0..8).rev() { v = (v << 8) | b[o + i] }]. *)
Definition le64 (b : list Z) (o : nat) : Z :=
  foldl (fun v i => Z.lor (Z.shiftl v 8) (b !!! (o + i)%nat)) 0 (reverse (seq 0 8)).

(** [b"EFI PART"]. *)
Definition EFI_PART : list Z := [0x45; 0x46; 0x49; 0x20; 0x50; 0x41; 0x52; 0x54].

Definition cabecera (sec : list Z) : result Gpt GptError :=
  if (length sec <? SECTOR)%nat then Err SectorCorto
  else if negb (bool_decide (slice 0 8 sec = EFI_PART)) then Err SinFirma
  else
    let es := le32 sec 84 in
    if (es <? 128) || (Z.of_nat SECTOR <? es) then Err (TamanoDeEntradaAbsurdo es)
    else Ok (mkGpt (le64 sec 48) (le64 sec 72) (le32 sec 80) es).

(** [for k in 0..36]: the printable half of the UTF-16 name. *)
Fixpoint nombre_gpt (sec : list Z) (o n : nat) (acc : list Z) : list Z :=
  match n with
  | O => acc
  | S n =>
      let lo := sec !!! o in
      let hi := sec !!! S o in
      if (lo =? 0) && (hi =? 0) then acc
      else nombre_gpt sec (o + 2) n
             (if (hi =? 0) && (0x20 <=? lo) && (lo <? 0x7F) then acc ++ [lo] else acc)
  end.

Definition entrada (sec : list Z) (off : nat) (indice : Z) : option Partition :=
  if (length sec <? off + 128)%nat then None
  else
    let t := le32 sec off in
    if (t =? 0) && (le32 sec (off + 4) =? 0) && (le32 sec (off + 8) =? 0) && (le32 sec (off + 12) =? 0)
    then None
    else
      let n := nombre_gpt sec (off + 56) 36 [] in
      Some (mkPartition indice (le64 sec (off + 32)) (le64 sec (off + 40)) t
              (put 0 n (replicate 36 0)) (length n)).

(** * The device and the disk module *)

(** What the device does with a command: all of it; [n] sectors and no error;
    an error after [n] sectors. *)
Inductive Suerte := Va | Corta (n : nat) | Rota (n : nat).

Record Disco := mkDisco {
  plato : Z -> list Z; vuelo : list (Z * list Z); suerte : list Suerte;
  traza : list ((Z -> list Z) * list (Z * list Z));
  registrado : bool; listo : bool; armada : bool; dma_phys : Z; total_sectores : Z;
  identidad : DeviceId; parts : list Partition; disco_last_lba : Z;
  part_datos : option Partition; ventana_es : option (Z * Z)
}.

Definition con_medio (d : Disco) (p : Z -> list Z) (v : list (Z * list Z)) : Disco :=
  mkDisco p v (suerte d) ((p, v) :: traza d) (registrado d) (listo d) (armada d) (dma_phys d)
    (total_sectores d) (identidad d) (parts d) (disco_last_lba d) (part_datos d) (ventana_es d).
Definition con_suerte (d : Disco) (s : list Suerte) : Disco :=
  mkDisco (plato d) (vuelo d) s (traza d) (registrado d) (listo d) (armada d) (dma_phys d)
    (total_sectores d) (identidad d) (parts d) (disco_last_lba d) (part_datos d) (ventana_es d).
Definition con_ventana (d : Disco) (w : option (Z * Z)) : Disco :=
  mkDisco (plato d) (vuelo d) (suerte d) (traza d) (registrado d) (listo d) (armada d) (dma_phys d)
    (total_sectores d) (identidad d) (parts d) (disco_last_lba d) (part_datos d) w.
Definition con_armada (d : Disco) (b : bool) : Disco :=
  mkDisco (plato d) (vuelo d) (suerte d) (traza d) (registrado d) (listo d) b (dma_phys d)
    (total_sectores d) (identidad d) (parts d) (disco_last_lba d) (part_datos d) (ventana_es d).
Definition con_parts (d : Disco) (l : list Partition) (last : Z) : Disco :=
  mkDisco (plato d) (vuelo d) (suerte d) (traza d) (registrado d) (listo d) (armada d) (dma_phys d)
    (total_sectores d) (identidad d) l last (part_datos d) (ventana_es d).

Definition siguiente (d : Disco) : Disco * Suerte :=
  match suerte d with [] => (d, Va) | s :: l => (con_suerte d l, s) end.

(** What a read finds: the newest pending write, or the plate. *)
Fixpoint visible (p : Z -> list Z) (v : list (Z * list Z)) (l : Z) : list Z :=
  match v with [] => p l | (k, x) :: v => if k =? l then x else visible p v l end.

Definition sectores_vistos (d : Disco) (lba : Z) (n : nat) : list Z :=
  concat ((fun i => visible (plato d) (vuelo d) (lba + Z.of_nat i)) <$> seq 0 n).

(** [n] sectors of [data] accepted by the device, the first ones first. *)
Fixpoint aceptar (v : list (Z * list Z)) (lba : Z) (data : list Z) (n : nat) : list (Z * list Z) :=
  match n with
  | O => v
  | S n => aceptar ((lba, take SECTOR data) :: v) (lba + 1) (drop SECTOR data) n
  end.

(** [bmo_ahci::write_sectors_phys]. *)
Definition ahci_write (d : Disco) (lba : Z) (batch : nat) (data : list Z) : Disco * option nat :=
  let '(d, s) := siguiente d in
  let n := match s with Va => batch | Corta n | Rota n => Nat.min n batch end in
  (con_medio d (plato d) (aceptar (vuelo d) lba data n),
   match s with Rota _ => None | _ => Some n end).

(** [bmo_ahci::flush_cache]. *)
Definition ahci_flush (d : Disco) : Disco * bool :=
  let '(d, s) := siguiente d in
  match s with
  | Va => (con_medio d (visible (plato d) (vuelo d)) [], true)
  | _ => (d, false)
  end.

(** [transfer::read]: how many sectors came, and their bytes. *)
Definition transfer_read (d : Disco) (lba : Z) (count : nat) : Disco * (nat * list Z) :=
  if negb (listo d) || Nat.eqb count 0 || (dma_phys d =? 0) then (d, (0%nat, []))
  else
    let '(d, s) := siguiente d in
    let n := match s with Va => count | Corta n | Rota n => Nat.min n count end in
    (d, (n, sectores_vistos d lba n)).

(** ** mod.rs *)

Definition write_window (d : Disco) (lba count : Z) : result unit string :=
  decidir (listo d) (armada d) ((fun p => (first_lba p, last_lba p)) <$> part_datos d) (ventana_es d) lba count.

(** [while done < count]; the batches are of eight sectors. *)
Fixpoint write_loop (fuel : nat) (d : Disco) (lba : Z) (count done_ : nat) (data : list Z) : Disco * nat :=
  match fuel with
  | O => (d, done_)
  | S fuel =>
      if (done_ <? count)%nat then
        let batch := Nat.min (count - done_) 8 in
        match ahci_write d (w64 (lba + Z.of_nat done_)) batch (drop (done_ * SECTOR) data) with
        | (d, None) => (d, done_)
        | (d, Some put) =>
            if Nat.eqb put 0 then (d, done_)
            else if (put <? batch)%nat then (d, (done_ + put)%nat)
            else write_loop fuel d lba count (done_ + put) data
        end
      else (d, done_)
  end.

Definition write (d : Disco) (lba : Z) (count : nat) (data : list Z) : Disco * nat :=
  match write_window d lba (Z.of_nat count) with
  | Err _ => (d, 0%nat)
  | Ok _ =>
      if (length data <? count * SECTOR)%nat then (d, 0%nat)
      else if dma_phys d =? 0 then (d, 0%nat)
      else write_loop (S count) d lba count 0 data
  end.

Definition flush (d : Disco) : Disco * bool :=
  if negb (listo d) || negb (armada d) then (d, false) else ahci_flush d.

(** [AhciDisk], the block device the kernel registers. *)
Definition dev_read (d : Disco) (lba : Z) (count : nat) (buf : nat) : Disco * result (nat * list Z) BlockError :=
  if negb (listo d) then (d, Err NotReady)
  else if Nat.eqb count 0 then (d, Ok (0%nat, []))
  else if (buf <? count * SECTOR)%nat then (d, Err BShortBuffer)
  else match checked_add lba (Z.of_nat count) with
  | None => (d, Err OutOfRange)
  | Some fin =>
      if negb (total_sectores d =? 0) && (total_sectores d <? fin) then (d, Err OutOfRange)
      else match transfer_read d lba count with
      | (d, (O, _)) => (d, Err Device)
      | (d, r) => (d, Ok r)
      end
  end.

Definition dev_write (d : Disco) (lba : Z) (count : nat) (data : list Z) : Disco * result nat BlockError :=
  if negb (listo d) then (d, Err NotReady)
  else if negb (armada d) then (d, Err ReadOnly)
  else if Nat.eqb count 0 then (d, Ok 0%nat)
  else if (length data <? count * SECTOR)%nat then (d, Err BShortBuffer)
  else match checked_add lba (Z.of_nat count) with
  | None => (d, Err OutOfRange)
  | Some fin =>
      if negb (total_sectores d =? 0) && (total_sectores d <? fin) then (d, Err OutOfRange)
      else match write_window d lba (Z.of_nat count) with
      | Err _ => (d, Err ReadOnly)
      | Ok _ =>
          match write d lba count data with
          | (d, O) => (d, Err Device)
          | (d, n) => (d, Ok n)
          end
      end
  end.

Definition dev_flush (d : Disco) : Disco * result unit BlockError :=
  if negb (listo d) then (d, Err NotReady)
  else match flush d with (d, true) => (d, Ok tt) | (d, false) => (d, Err Device) end.

(** The inner loop of [scan_partitions]: the slots of one sector. *)
Fixpoint ranuras (fuel : nat) (sec : list Z) (g : Gpt) (slot : nat) (i : Z) (acc : list Partition)
  : Z * list Partition :=
  match fuel with
  | O => (i, acc)
  | S fuel =>
      if (slot <? por_sector g)%nat && (i <? entry_count g) && (length acc <? MAX_PARTS)%nat then
        let acc := match entrada sec (slot * Z.to_nat (entry_size g)) (w32 (i + 1)) with
                   | Some p => acc ++ [p] | None => acc end in
        ranuras fuel sec g (S slot) (w32 (i + 1)) acc
      else (i, acc)
  end.

(** The outer loop: a sector per turn, at least one entry each. *)
Fixpoint tabla (fuel : nat) (d : Disco) (g : Gpt) (i : Z) (acc : list Partition) : Disco * list Partition :=
  match fuel with
  | O => (d, acc)
  | S fuel =>
      if (i <? entry_count g) && (length acc <? MAX_PARTS)%nat then
        let sector_index := i / Z.of_nat (por_sector g) in
        match transfer_read d (w64 (entries_lba g + sector_index)) 1 with
        | (d, (O, _)) => (d, acc)
        | (d, (_, sec)) =>
            let '(i, acc) := ranuras (por_sector g) sec g (Z.to_nat (i mod Z.of_nat (por_sector g))) i acc in
            tabla fuel d g i acc
        end
      else (d, acc)
  end.

Definition scan_partitions (d : Disco) : Disco * bool :=
  if negb (listo d) then (d, false)
  else match transfer_read d 1 1 with
  | (d, (O, _)) => (d, false)
  | (d, (_, sec)) =>
      match cabecera sec with
      | Err _ => (d, false)
      | Ok g =>
          let d := con_parts d (parts d) (g_last_lba g) in
          let '(d, l) := tabla (Z.to_nat (entry_count g)) d g 0 [] in
          (con_parts d l (g_last_lba g), (0 <? length l)%nat)
      end
  end.

(** ** gate.rs *)

Definition verify_identity (d : Disco) : Disco * bool :=
  let d := con_armada d false in
  if negb (listo d) then (d, false)
  else if Nat.eqb (model_len (identidad d)) 0 || Nat.eqb (serial_len (identidad d)) 0 then (d, false)
  else if total_sectores d =? 0 then (d, false)
  else if Nat.eqb (length (parts d)) 0 || (disco_last_lba d =? 0) then (d, false)
  else if total_sectores d <=? disco_last_lba d then (d, false)
  else if 128 <? total_sectores d - disco_last_lba d then (d, false)
  else if negb (existsb is_esp (parts d)) then (d, false)
  else if negb (existsb (fun p => negb (is_esp p)) (parts d)) then (d, false)
  else (con_armada d true, true).

(** * What a power cut can leave *)

Definition corte (p : Z -> list Z) (v : list (Z * list Z)) (img : Z -> list Z) : Prop :=
  forall l, img l = p l \/ In (l, img l) v.

(** * The windows hold *)

Definition ventanas (d : Disco) : list (Z * Z) :=
  option_list ((fun p => (first_lba p, last_lba p)) <$> part_datos d) ++ option_list (ventana_es d).
Definition en_ventana (d : Disco) (l : Z) : Prop := Exists (fun w => fst w <= l <= snd w) (ventanas d).

(** The statics of the module that a transfer does not touch. *)
Definition misma (d d' : Disco) : Prop :=
  registrado d' = registrado d /\ listo d' = listo d /\ armada d' = armada d /\ dma_phys d' = dma_phys d /\
  total_sectores d' = total_sectores d /\ identidad d' = identidad d /\ parts d' = parts d /\
  part_datos d' = part_datos d /\ ventana_es d' = ventana_es d.

Lemma misma_refl d : misma d d.
Proof. by split_and!. Qed.
Lemma misma_trans d1 d2 d3 : misma d1 d2 -> misma d2 d3 -> misma d1 d3.
Proof. unfold misma. intuition congruence. Qed.
#[export] Hint Resolve misma_refl : bmo.

Lemma misma_ventana d d' l : misma d d' -> en_ventana d' l <-> en_ventana d l.
Proof. intros (_&_&_&_&_&_&_&H1&H2). unfold en_ventana, ventanas. by rewrite H1, H2. Qed.

Lemma aceptar_in v lba data n l x : In (l, x) (aceptar v lba data n) -> In (l, x) v \/ lba <= l < lba + Z.of_nat n.
Proof.
  revert v lba data; induction n as [|n IH]; intros v lba data; cbn [aceptar]; [by left|].
  intros [[[= <- <-]|H]|H]%IH; [right; lia|by left|right; lia].
Qed.

Lemma aceptar_visible p n : forall v lba data l, ~ lba <= l < lba + Z.of_nat n ->
  visible p (aceptar v lba data n) l = visible p v l.
Proof.
  induction n as [|n IH]; intros v lba data l H; cbn [aceptar]; [done|].
  rewrite IH by lia. cbn [visible]. by rewrite (proj2 (Z.eqb_neq _ _)) by lia.
Qed.

(** What a write can do to the medium: nothing on the plate, and new pending
    sectors only inside the range it was given. *)
Record escrito_en (lba n : Z) (d d' : Disco) : Prop := {
  ee_misma : misma d d'; ee_plato : plato d' = plato d;
  ee_vuelo l x : In (l, x) (vuelo d') -> In (l, x) (vuelo d) \/ lba <= l < lba + n;
  ee_vista l : ~ lba <= l < lba + n -> visible (plato d') (vuelo d') l = visible (plato d) (vuelo d) l;
  ee_traza t : In t (traza d') -> In t (traza d) \/
    fst t = plato d /\ forall l x, In (l, x) (snd t) -> In (l, x) (vuelo d) \/ lba <= l < lba + n
}.

Lemma escrito_en_refl lba n d : escrito_en lba n d d.
Proof. split; eauto with bmo. Qed.

Lemma escrito_en_trans lba n d1 d2 d3 : escrito_en lba n d1 d2 -> escrito_en lba n d2 d3 -> escrito_en lba n d1 d3.
Proof.
  intros [A1 A2 A3 A5 A4] [B1 B2 B3 B5 B4]. split.
  - by eapply misma_trans.
  - congruence.
  - intros l x [H|H]%B3; eauto.
  - intros l H. by rewrite B5, A5.
  - intros t [H|[H1 H2]]%B4; [eauto|]. right. split; [congruence|]. intros l x [H|H]%H2; eauto.
Qed.

Lemma escrito_en_mono lba n lba' n' d d' : escrito_en lba n d d' -> lba' <= lba -> lba + n <= lba' + n' ->
  escrito_en lba' n' d d'.
Proof.
  intros [A1 A2 A3 A5 A4] H1 H2. split; [done..| | |].
  - intros l x [H|H]%A3; [by left|right; lia].
  - intros l H. apply A5. lia.
  - intros t [H|[Ht H]]%A4; [by left|right]. split; [done|]. intros l x [Hx|Hx]%H; [by left|right; lia].
Qed.

Lemma siguiente_spec d d' s : siguiente d = (d', s) ->
  misma d d' /\ plato d' = plato d /\ vuelo d' = vuelo d /\ traza d' = traza d.
Proof. unfold siguiente. destruct (suerte d); intros [= <- <-]; by split_and!. Qed.

Lemma ahci_write_spec d lba batch data d' r : ahci_write d lba batch data = (d', r) ->
  escrito_en lba (Z.of_nat batch) d d'.
Proof.
  unfold ahci_write. destruct (siguiente d) as [d1 s] eqn:E.
  destruct (siguiente_spec _ _ _ E) as (Hm & Hp & Hv & Ht).
  set (n := match s with Va => batch | Corta n | Rota n => Nat.min n batch end).
  assert (Hn : (n <= batch)%nat) by (unfold n; destruct s; lia). intros [= <- _].
  assert (Hin : forall l x, In (l, x) (aceptar (vuelo d1) lba data n) ->
    In (l, x) (vuelo d) \/ lba <= l < lba + Z.of_nat batch)
    by (intros l x [H|H]%aceptar_in; [left; congruence|right; lia]).
  split; [exact Hm|exact Hp|exact Hin| |].
  - intros l Hl. cbn [con_medio plato vuelo]. rewrite aceptar_visible by lia. congruence.
  - intros t [<-|H]; [right|left; by rewrite <- Ht]. by split.
Qed.

Lemma write_loop_spec fuel : forall d lba count k data d' n,
  0 <= lba -> lba + Z.of_nat count < 2 ^ 64 -> write_loop fuel d lba count k data = (d', n) ->
  escrito_en lba (Z.of_nat count) d d'.
Proof.
  induction fuel as [|fuel IH]; intros d lba count k data d' n Hl Hc; cbn [write_loop].
  { intros [= <- _]. apply escrito_en_refl. }
  case_if; [|intros [= <- _]; apply escrito_en_refl]. apply Nat.ltb_lt in Heqb. cbv zeta.
  destruct (ahci_write d _ _ _) as [d1 r] eqn:E. apply ahci_write_spec in E.
  rewrite w64_small in E by (unfold is_u64; lia).
  apply (escrito_en_mono _ _ lba (Z.of_nat count)) in E; [|lia..].
  destruct r as [[|p]|]; cbn [Nat.eqb]; [by intros [= <- _]| |by intros [= <- _]].
  case_if; [by intros [= <- _]|]. intros H%IH; [|done..]. by eapply escrito_en_trans.
Qed.

Lemma decidir_ok li ar da es lba n : decidir li ar da es lba n = Ok tt ->
  li = true /\ ar = true /\ lba + n < 2 ^ 64 /\
  Exists (fun w => fst w <= lba /\ lba + n <= w64 (snd w + 1)) (option_list da ++ option_list es).
Proof.
  unfold decidir, decidir_rango. destruct li, ar; cbn [negb]; try done. case_if; [done|].
  unfold checked_add. case_decide; [|done]. case_if; [|done]. intros _. split_and!; [done..|].
  apply existsb_exists in Heqb0 as (w & Hin & Hw). bdestr.
  apply Exists_exists. exists w. split; [by apply list_elem_of_In|lia].
Qed.

Lemma write_spec d lba count data d' n : is_u64 lba -> write d lba count data = (d', n) ->
  escrito_en lba (Z.of_nat count) d d' /\ (d' = d \/ write_window d lba (Z.of_nat count) = Ok tt).
Proof.
  unfold is_u64, write. intros Hl. destruct (write_window d lba (Z.of_nat count)) as [[]|e] eqn:E.
  2: { intros [= <- _]. split; [apply escrito_en_refl|by left]. }
  case_if; [intros [= <- _]; split; [apply escrito_en_refl|by left]|].
  case_if; [intros [= <- _]; split; [apply escrito_en_refl|by left]|].
  apply decidir_ok in E as (_ & _ & Hc & _). intros H%write_loop_spec; [|lia..]. split; [done|by right].
Qed.

(** ** Reading the partition table *)

Lemma le64_spec b o : (o + 8 <= length b)%nat -> Forall is_u8 b -> le64 b o = of_le (slice o 8 b).
Proof.
  intros Hl Hb. unfold le64.
  assert (H8 : exists a0 a1 a2 a3 a4 a5 a6 a7, slice o 8 b = [a0; a1; a2; a3; a4; a5; a6; a7]).
  { pose proof (length_slice o 8 b Hl) as H. destruct (slice o 8 b) as [|a0 [|a1 [|a2 [|a3 [|a4 [|a5 [|a6 [|a7 [|]]]]]]]]]; try done.
    by do 8 eexists. }
  destruct H8 as (a0 & a1 & a2 & a3 & a4 & a5 & a6 & a7 & E).
  assert (Hn : forall i, (i < 8)%nat -> b !!! (o + i)%nat = slice o 8 b !!! i).
  { intros i Hi. unfold slice. rewrite lookup_total_take_lt by done. by rewrite lookup_total_drop. }
  assert (Hu : Forall is_u8 (slice o 8 b)) by (by apply Forall_take, Forall_drop). rewrite E in *.
  change (reverse (seq 0 8)) with [7; 6; 5; 4; 3; 2; 1; 0]%nat. cbn [foldl].
  rewrite !Hn by lia. repeat (apply Forall_cons in Hu as [? Hu]). unfold is_u8 in *.
  cbn [lookup_total list_lookup_total of_le]. rewrite Z.shiftl_0_l, Z.lor_0_l.
  rewrite !lor_shiftl_add by lia. lia.
Qed.

Section Tabla.
Variables (d : Disco) (g : Gpt).
Hypothesis Hs : suerte d = [].
Hypothesis Hr : listo d = true /\ dma_phys d <> 0.
Hypothesis Hg : 128 <= entry_size g <= 512 /\ 0 <= entry_count g < 2 ^ 32.
Hypothesis He : 0 <= entries_lba g /\ entries_lba g + entry_count g < 2 ^ 64.

Definition sector_de (l : Z) : list Z := visible (plato d) (vuelo d) l.

(** Entry [i] of the table: its sector, its place in it. *)
Definition entrada_de (i : nat) : option Partition :=
  let per := por_sector g in
  entrada (sector_de (entries_lba g + Z.of_nat (i / per)))
    ((i mod per) * Z.to_nat (entry_size g)) (Z.of_nat i + 1).
Definition lista (n : nat) : list Partition := omap entrada_de (seq 0 n).

Lemma lista_S n : lista (S n) = lista n ++ option_list (entrada_de n).
Proof. unfold lista. rewrite seq_S, omap_app. cbn. by destruct (entrada_de n). Qed.

Lemma lista_prefix n m : (n <= m)%nat -> exists r, lista m = lista n ++ r.
Proof.
  induction 1 as [|m _ [r IH]]; [exists []; by rewrite app_nil_r|].
  exists (r ++ option_list (entrada_de m)). by rewrite lista_S, IH, app_assoc.
Qed.

Lemma per_range : (1 <= por_sector g <= 4)%nat.
Proof.
  unfold por_sector, SECTOR. assert (128 <= Z.to_nat (entry_size g) <= 512)%nat by lia.
  split; [apply Nat.div_str_pos; lia|]. change 4%nat with (512 / 128)%nat. apply Nat.div_le_compat_l. lia.
Qed.

Lemma transfer_read_1 l : transfer_read d l 1 = (d, (1%nat, sector_de l)).
Proof.
  unfold transfer_read. destruct Hr as [-> Hd]. rewrite (proj2 (Z.eqb_neq _ _) Hd). cbn [negb orb Nat.eqb].
  unfold siguiente. rewrite Hs. unfold sectores_vistos, sector_de. cbn. by rewrite Z.add_0_r, app_nil_r.
Qed.

Lemma ranuras_spec fuel : forall q slot acc,
  let i := (por_sector g * q + slot)%nat in
  (slot + fuel = por_sector g)%nat -> acc = lista i -> (length acc <= MAX_PARTS)%nat ->
  Z.of_nat i <= entry_count g ->
  exists i', ranuras fuel (sector_de (entries_lba g + Z.of_nat q)) g slot (Z.of_nat i) acc = (Z.of_nat i', lista i') /\
    (i <= i')%nat /\ Z.of_nat i' <= entry_count g /\ (length (lista i') <= MAX_PARTS)%nat /\
    (i' = (por_sector g * S q)%nat \/ ~ (Z.of_nat i' < entry_count g /\ (length (lista i') < MAX_PARTS)%nat)).
Proof.
  pose proof per_range as Hp.
  induction fuel as [|fuel IH]; intros q slot acc i Hf Ha Hl Hi; cbn [ranuras].
  { exists i. subst acc. split_and!; [done..|]. left. unfold i. lia. }
  rewrite (proj2 (Nat.ltb_lt _ _)) by lia. cbn [andb]. case_if.
  2: { exists i. subst acc. split_and!; [done..|]. right. intros [H1 H2].
       apply andb_false_iff in Heqb as [H|H]; bdestr; [lia|apply Nat.ltb_ge in H; lia]. }
  bdestr. match goal with H : (_ <? _)%nat = true |- _ => apply Nat.ltb_lt in H end.
  assert (Ed : (i / por_sector g)%nat = q) by (symmetry; apply (Nat.div_unique i _ q slot); lia).
  assert (Em : (i mod por_sector g)%nat = slot) by (symmetry; apply (Nat.mod_unique i _ q slot); lia).
  rewrite w32_small by (unfold is_u32; lia).
  assert (Ee : entrada (sector_de (entries_lba g + Z.of_nat q)) (slot * Z.to_nat (entry_size g)) (Z.of_nat i + 1) =
    entrada_de i) by (unfold entrada_de; by rewrite Ed, Em). rewrite Ee.
  assert (Ea : match entrada_de i with Some p => acc ++ [p] | None => acc end = lista (S i))
    by (rewrite lista_S, Ha; destruct (entrada_de i); cbn; by rewrite ?app_nil_r).
  rewrite Ea. replace (Z.of_nat i + 1) with (Z.of_nat (por_sector g * q + S slot)) by lia.
  replace (S i) with (por_sector g * q + S slot)%nat by lia.
  destruct (IH q (S slot) (lista (por_sector g * q + S slot))) as (i' & E & H1 & H2 & H3 & H4); [lia|done| |lia|].
  { replace (por_sector g * q + S slot)%nat with (S i) by lia. rewrite <- Ea. destruct (entrada_de i); [|lia].
    rewrite length_app. cbn [length]. lia. }
  exists i'. split_and!; [done|lia|done|done|done].
Qed.

Lemma tabla_spec fuel : forall i, Z.of_nat i <= entry_count g -> (length (lista i) <= MAX_PARTS)%nat ->
  (i mod por_sector g)%nat = 0%nat \/ ~ (Z.of_nat i < entry_count g /\ (length (lista i) < MAX_PARTS)%nat) ->
  entry_count g <= Z.of_nat (i + fuel) ->
  tabla fuel d g (Z.of_nat i) (lista i) = (d, take MAX_PARTS (lista (Z.to_nat (entry_count g)))).
Proof.
  pose proof per_range as Hp. destruct Hg as [_ Hc].
  assert (Hfin : forall i, Z.of_nat i <= entry_count g -> (length (lista i) <= MAX_PARTS)%nat ->
    ~ (Z.of_nat i < entry_count g /\ (length (lista i) < MAX_PARTS)%nat) ->
    lista i = take MAX_PARTS (lista (Z.to_nat (entry_count g)))).
  { intros i Hi Hl Hn. destruct (decide (Z.of_nat i = entry_count g)) as [E|E].
    - rewrite <- E, Nat2Z.id. by rewrite take_ge.
    - destruct (lista_prefix i (Z.to_nat (entry_count g)) ltac:(lia)) as [r ->].
      rewrite take_app_length'; [done|lia]. }
  induction fuel as [|fuel IH]; intros i Hi Hl Hm Hf; cbn [tabla]; [by rewrite <- (Hfin i) by lia|].
  case_if.
  2: { rewrite <- (Hfin i); [done|done|done|]. intros [H1 H2].
       apply andb_false_iff in Heqb as [H|H]; bdestr; [lia|apply Nat.ltb_ge in H; lia]. }
  bdestr. match goal with H : (_ <? _)%nat = true |- _ => apply Nat.ltb_lt in H end.
  destruct Hm as [Hm|Hm]; [|exfalso; apply Hm; lia]. cbv zeta.
  set (q := (i / por_sector g)%nat). assert (Hq : i = (por_sector g * q + 0)%nat)
    by (unfold q; pose proof (Nat.div_mod_eq i (por_sector g)); lia).
  rewrite <- Nat2Z.inj_div, <- Nat2Z.inj_mod, Nat2Z.id, Hm. fold q.
  assert (Hqi : (q <= i)%nat) by (rewrite Hq; nia).
  rewrite w64_small by (unfold is_u64; lia). rewrite transfer_read_1.
  destruct (ranuras_spec (por_sector g) q 0 (lista i)) as (i' & E & H1 & H2 & H3 & H4); [lia|by rewrite <- Hq|done|lia|].
  rewrite <- Hq in E, H1. rewrite E.
  assert (Hlt : (i < i')%nat) by (destruct H4 as [->|H4]; [lia|]; destruct (decide (i' = i)) as [->|]; [tauto|lia]).
  apply IH; [done|done| |lia]. destruct H4 as [->|H4]; [left|by right].
  rewrite Nat.mul_comm. apply Nat.Div0.mod_mul.
Qed.
End Tabla.

(** * Properties *)

(** C23: nothing is written outside the windows.  Whatever range and data a
    caller passes to [write], and whatever the device answers, a sector outside
    the data window and the ESTRATOS window keeps its contents: what a reader
    sees, what the plate holds, and what a power cut could leave at any moment
    are among what they were before; with the gate not armed nothing at all
    changes. *)
Theorem write_confined d lba count data d' n :
  is_u64 lba -> Forall (fun w => is_u64 (snd w)) (ventanas d) -> write d lba count data = (d', n) ->
  (armada d = false -> d' = d) /\
  (forall l, ~ en_ventana d l ->
    visible (plato d') (vuelo d') l = visible (plato d) (vuelo d) l /\
    forall t img, In t ((plato d', vuelo d') :: traza d') -> In t (traza d) \/
      (corte (fst t) (snd t) img -> img l = plato d l \/ In (l, img l) (vuelo d))).
Proof.
  intros Hl Hu H. destruct (write_spec _ _ _ _ _ _ Hl H) as [[A1 A2 A3 A5 A4] Hw]. split.
  { intros Ha. destruct Hw as [|Hw]; [done|]. apply decidir_ok in Hw as (_ & Hw & _). congruence. }
  intros l Hv. destruct Hw as [->|Hw].
  { split; [done|]. intros t img [<-|Ht]; [right; by intros Hc; apply Hc|by left]. }
  assert (Hout : ~ lba <= l < lba + Z.of_nat count).
  { intros Hin. apply Hv. apply decidir_ok in Hw as (_ & _ & Hc & Hw). unfold en_ventana.
    change (Exists (fun w => fst w <= lba /\ lba + Z.of_nat count <= w64 (snd w + 1)) (ventanas d)) in Hw.
    apply Exists_exists in Hw as (w & Hw & H1 & H2). apply Exists_exists. exists w. split; [done|].
    assert (H3 : is_u64 (snd w)) by (by apply (proj1 (Forall_forall _ _) Hu)).
    unfold is_u64, w64 in *. pose proof (Z.mod_le (snd w + 1) (2 ^ 64)). lia. }
  split; [by apply A5|]. intros t img [<-|Ht].
  - right. intros Hc. destruct (Hc l) as [E|E]; cbn [fst snd] in E; [left; congruence|].
    apply A3 in E as [E|E]; [by right|done].
  - apply A4 in Ht as [Ht|[E1 E2]]; [by left|right]. intros Hc.
    destruct (Hc l) as [E|E]; [left; congruence|]. apply E2 in E as [E|E]; [by right|done].
Qed.

Definition disco_demo : Disco :=
  mkDisco (fun l => replicate SECTOR (l mod 256)) [] [Corta 1] [] true true true 0x1000 10000 DEVICE_ID_EMPTY
    [] 0 None (Some (100, 200)).

Lemma write_confined_witness :
  let d' := fst (write disco_demo 198 3 (replicate 1536 7)) in
  vuelo d' = [(198, replicate SECTOR 7)] /\ ~ en_ventana disco_demo 201 /\
  visible (plato d') (vuelo d') 201 = visible (plato disco_demo) (vuelo disco_demo) 201.
Proof.
  cbv zeta. split; [vm_compute; reflexivity|].
  assert (Hv : ~ en_ventana disco_demo 201).
  { unfold en_ventana, ventanas. cbn. intros [[? ?]|H]%Exists_cons; [cbn in *; lia|by apply Exists_nil in H]. }
  split; [exact Hv|].
  destruct (write disco_demo 198 3 (replicate 1536 7)) as [d' n] eqn:E.
  refine (proj1 (proj2 (write_confined disco_demo 198 3 (replicate 1536 7) d' n _ _ E) 201 Hv)).
  - unfold is_u64. lia.
  - repeat constructor; cbn; lia.
Defined.

(** The partition table is read in order.  From a device that answers, with
    a header whose entries are 128 to 512 bytes, [scan_partitions] finds exactly
    the first eight used entries of the table, in table order, each read from
    its own sector and place; and it says whether there was any. *)
Theorem scan_partitions_spec d g :
  suerte d = [] -> listo d = true -> dma_phys d <> 0 ->
  cabecera (sector_de d 1) = Ok g -> Forall is_u8 (sector_de d 1) ->
  0 <= entries_lba g -> entries_lba g + entry_count g < 2 ^ 64 ->
  exists l, l = take MAX_PARTS (lista d g (Z.to_nat (entry_count g))) /\
    scan_partitions d = (con_parts d l (g_last_lba g), (0 <? length l)%nat).
Proof.
  intros Hs Hli Hd Hc Hb He1 He2. eexists. split; [reflexivity|].
  assert (Hg : 128 <= entry_size g <= 512 /\ 0 <= entry_count g < 2 ^ 32).
  { unfold cabecera in Hc. case_if_in Hc; [done|]. apply Nat.ltb_ge in Heqb. case_if_in Hc; [done|].
    cbv zeta in Hc. case_if_in Hc; [done|]. bdestr. injection Hc as <-. cbn [entry_size entry_count].
    unfold SECTOR in *. split; [lia|]. unfold le32.
    pose proof (of_le_range (slice 80 4 (sector_de d 1)) (Forall_take _ _ _ (Forall_drop _ _ _ Hb))) as Hr.
    rewrite length_slice in Hr by lia. simpl in Hr. lia. }
  unfold scan_partitions. rewrite Hli. cbn [negb].
  rewrite (transfer_read_1 d Hs (conj Hli Hd)), Hc.
  set (d1 := con_parts d (parts d) (g_last_lba g)).
  change (lista d g) with (lista d1 g).
  pose proof (tabla_spec d1 g Hs (conj Hli Hd) Hg (conj He1 He2) (Z.to_nat (entry_count g)) 0) as E.
  change (Z.of_nat 0) with 0 in E. change (lista d1 g 0) with (@nil Partition) in E. rewrite E; [done|lia|unfold MAX_PARTS; cbn; lia|left|lia].
  apply Nat.Div0.mod_0_l.
Qed.

Lemma bytes_Forall l : forallb (fun x => (0 <=? x) && (x <? 256)) l = true -> Forall is_u8 l.
Proof.
  intros H. apply Forall_forall. intros x Hx%list_elem_of_In.
  apply (proj1 (forallb_forall _ _) H) in Hx. bdestr. unfold is_u8. lia.
Qed.

(** A header and a sector of entries with two partitions, the second slot free. *)
Definition gpt_demo (l : Z) : list Z :=
  if l =? 1 then
    put 0 EFI_PART (put 48 (le 8 9999) (put 72 (le 8 2) (put 80 (le 4 4) (put 84 (le 4 128) (replicate 512 0)))))
  else if l =? 2 then
    put 0 (le 4 0xC12A7328) (put 32 (le 8 34) (put 40 (le 8 99)
      (put 256 (le 4 0xEBD0A0A2) (put 288 (le 8 100) (put 296 (le 8 200) (replicate 512 0))))))
  else replicate 512 0.

Lemma scan_partitions_spec_witness :
  exists d l, scan_partitions d = (con_parts d l 9999, true) /\ map first_lba l = [34; 100].
Proof.
  exists (mkDisco gpt_demo [] [] [] true true false 0x1000 10000 DEVICE_ID_EMPTY [] 0 None None).
  destruct (scan_partitions_spec
    (mkDisco gpt_demo [] [] [] true true false 0x1000 10000 DEVICE_ID_EMPTY [] 0 None None)
    (mkGpt 9999 2 4 128)) as (l & El & E);
    [reflexivity|reflexivity|done|vm_compute; reflexivity| |cbn; lia|cbn; lia|].
  - apply bytes_Forall. vm_compute. reflexivity.
  - vm_compute in El. exists l. rewrite E, El. split; [reflexivity|reflexivity].
Defined.
