(* ===== verification/Volumen.v ===== *)
(** The ESTRATOS volume in the kernel: mounting, reading the tree, and the
    gestures that publish a new version of it.
    Sources: src/Ultra_kernel_x86-64/kernel/src/ring0/fsys/estratos/
    {mod,walk,dir,escribir,copiar,historia}.rs and [buscar_en], [open], [read],
    [firma] of cursor.rs.

    The statics of the module are the record [Vol].  An operation is a function
    from a state to a state and a result; an error returns early.  The clock, the
    caller's pid and what FAT32 answers to a copy are inputs. *)

From stdpp Require Import gmap.
From S2P Require Import Prelude Formato Flujo Guardar Transaccion Disco.

(** * State *)

Record Vol := mkVol {
  disco : Disco; montado : bool; base_lba : Z; particion : Z; super : option Superblock;
  identidad_ok : bool; estrato_fecha : Z; ahora : Z; pid : Z
}.

Definition con_disco (v : Vol) (d : Disco) : Vol :=
  mkVol d (montado v) (base_lba v) (particion v) (super v) (identidad_ok v) (estrato_fecha v) (ahora v) (pid v).
Definition fijar_superbloque (v : Vol) (s : Superblock) : Vol :=
  mkVol (disco v) (montado v) (base_lba v) (particion v) (Some s) (identidad_ok v) (estrato_fecha v) (ahora v) (pid v).
Definition con_fecha (v : Vol) (f : Z) : Vol :=
  mkVol (disco v) (montado v) (base_lba v) (particion v) (super v) (identidad_ok v) f (ahora v) (pid v).

Inductive WriteError :=
| SinVolumen | Rechazada (r : Rechazo) | NoEscribio | SinBarrera | WNoCabe | NoSeLeeLaRaiz
| RutaNoEsta | CarpetaLlena | CarpetaNoCabeEntera | NombreNoVale | MuyHondo.

Definition codigo (e : WriteError) : Z :=
  match e with
  | SinVolumen => 1 | Rechazada _ => 2 | NoEscribio => 3 | SinBarrera => 4 | WNoCabe => 5
  | NoSeLeeLaRaiz => 6 | RutaNoEsta => 7 | MuyHondo => 8 | CarpetaLlena => 9
  | CarpetaNoCabeEntera => 10 | NombreNoVale => 11
  end.

(** Operations that can fail, and readings that can find nothing. *)
Definition M (A : Type) : Type := Vol -> Vol * result A WriteError.
Definition R (A : Type) : Type := Vol -> Vol * option A.

Definition ret {A} (x : A) : M A := fun v => (v, Ok x).
Definition falla {A} (e : WriteError) : M A := fun v => (v, Err e).
Definition bind {A B} (m : M A) (k : A -> M B) : M B :=
  fun v => match m v with (v, Ok x) => k x v | (v, Err e) => (v, Err e) end.
Definition hay {A} (x : A) : R A := fun v => (v, Some x).
Definition nada {A} : R A := fun v => (v, None).
Definition rbind {A B} (m : R A) (k : A -> R B) : R B :=
  fun v => match m v with (v, Some x) => k x v | (v, None) => (v, None) end.
(** [.ok_or(e)?]. *)
Definition exige {A} (m : R A) (e : WriteError) : M A :=
  fun v => match m v with (v, Some x) => (v, Ok x) | (v, None) => (v, Err e) end.
(** [.map_err(f)?] on a pure result. *)
Definition puro {A E} (r : result A E) (f : E -> WriteError) : M A :=
  match r with Ok x => ret x | Err e => falla (f e) end.

Notation "x <~ m ;; k" := (bind m (fun x => k)) (at level 100, m at next level, right associativity) : bmo_scope.
Notation "x <?~ m ;; k" := (rbind m (fun x => k)) (at level 100, m at next level, right associativity) : bmo_scope.

(** [let x = ..?] on a pure option. *)
Definition quiza {A} (o : option A) : R A := match o with Some x => hay x | None => nada end.

(** * mod.rs *)

Definition SECTORES_POR_BLOQUE : nat := (BLOQUE / 512)%nat.

Definition superbloque (v : Vol) : option Superblock := super v.

Definition ocupacion (v : Vol) : option Ocupacion :=
  (fun sb => ocupacion_de (log_head sb) (total_blocks sb) (block_size sb)) <$> super v.

Definition checked_mul (a b : Z) : option Z := if decide (a * b < 2 ^ 64) then Some (a * b) else None.

Definition cola_libre (v : Vol) : option (Z * Z) :=
  sb ← super v;
  if negb (montado v) then None
  else
    if total_blocks sb <? log_head sb then None
    else
      let n := total_blocks sb - log_head sb in
      if n =? 0 then None
      else
        off ← checked_mul (log_head sb) (Z.of_nat SECTORES_POR_BLOQUE);
        lba ← checked_add (base_lba v) off;
        sectores ← checked_mul n (Z.of_nat SECTORES_POR_BLOQUE);
        Some (lba, sectores).

Definition lba_de (base bloque : Z) : Z := w64 (base + w64 (bloque * Z.of_nat SECTORES_POR_BLOQUE)).

Definition read_block_from (base bloque : Z) : R (list Z) := fun v =>
  if negb (registrado (disco v)) then (v, None)
  else match dev_read (disco v) (lba_de base bloque) SECTORES_POR_BLOQUE BLOQUE with
  | (d, Ok (n, b)) => (con_disco v d, if Nat.eqb n SECTORES_POR_BLOQUE then Some b else None)
  | (d, Err _) => (con_disco v d, None)
  end.

Definition read_block (bloque : Z) : R (list Z) := fun v => read_block_from (base_lba v) bloque v.

Definition write_block (bloque : Z) (src : list Z) : Vol -> Vol * bool := fun v =>
  let '(d, n) := write (disco v) (lba_de (base_lba v) bloque) SECTORES_POR_BLOQUE src in
  (con_disco v d, Nat.eqb n SECTORES_POR_BLOQUE).

Definition write_superblock (bloque : Z) (sb : list Z) : Vol -> Vol * bool := fun v =>
  let '(d, n) := write (disco v) (lba_de (base_lba v) bloque) 1 sb in (con_disco v d, Nat.eqb n 1).

Definition flush_disco : Vol -> Vol * bool := fun v =>
  let '(d, ok) := flush (disco v) in (con_disco v d, ok).

Definition copia_en_uso (v : Vol) : Vol * Z :=
  match read_block_from (base_lba v) SUPER_A_BLOCK v with
  | (v, None) => (v, SUPER_A_BLOCK)
  | (v, Some a) =>
      match read_block_from (base_lba v) SUPER_B_BLOCK v with
      | (v, None) => (v, SUPER_A_BLOCK)
      | (v, Some b) =>
          (v, match pick_superblock (take SUPER_LEN a) (take SUPER_LEN b) with
              | Ok (_, copia) => copia | Err _ => SUPER_A_BLOCK end)
      end
  end.

(** * walk.rs *)

Definition seguir (p : BlockPtr) (niv : nat) : R (list Z) :=
  if (NIVELES <=? niv)%nat then nada
  else
    buf <?~ read_block (lba p) ;;
    if Z.of_nat BLOQUE <? off p + len p then nada
    else
      let datos := slice (Z.to_nat (off p)) (Z.to_nat (len p)) buf in
      if negb (verifica p datos) then nada else hay datos.

Definition ok_opt {A E} (r : result A E) : option A := match r with Ok x => Some x | Err _ => None end.

Definition nodo_en (p : BlockPtr) : R Nodo := d <?~ seguir p 0 ;; quiza (ok_opt (nodo_decode d)).

(** [DelDisco]: the source the tree reader walks. *)
Definition del_disco (v : Vol) (l : Z) : Vol * option (list Z) := read_block l v.

(** The consumer of [flujo]: what fits in [cabe] bytes. *)
Definition copia_trozo (cabe : nat) (x trozo : list Z) : list Z * bool :=
  let n := Nat.min (length trozo) (cabe - length x) in
  let x := x ++ take n trozo in (x, (length x <? cabe)%nat).

(** [dst[..n]] after [flujo(a, dst) = Some(n)], with [dst] of [cabe] bytes. *)
Definition flujo (a : Attr) (cabe : nat) : R (list Z) :=
  match datos_residentes a with
  | Some d => if (cabe <? length d)%nat then nada else hay d
  | None => fun v =>
      match attr_raiz a with
      | None => (v, None)
      | Some raiz =>
          match descender del_disco (copia_trozo cabe) v [] raiz (Z.to_nat (a_levels a)) scratch_de_flujo with
          | ((v, x, _), Ok _) => (v, Some (take (Nat.min (Z.to_nat (a_size a)) (length x)) x))
          | ((v, _, _), Err _) => (v, None)
          end
      end
  end.

Inductive Firma := Cuadra | NoCuadra | Ausente.

(** The signature stored in a node: 32 resident bytes. *)
Definition firma_guardada (n : Nodo) : option (list Z) :=
  a ← attr n ATTR_FIRMA; d ← datos_residentes a;
  if Nat.eqb (length d) 32 then Some d else None.

(** The hasher, the bytes seen and the bytes copied. *)
Definition firmando (tam cabe : nat) (x : option Blake3.Hasher * nat * list Z) (trozo : list Z)
  : (option Blake3.Hasher * nat * list Z) * bool :=
  let '(h, vistos, copiados) := x in
  let util := Nat.min (length trozo) (tam - vistos) in
  if Nat.eqb util 0 then (x, false)
  else
    let h := h ← h; Blake3.update h (take util trozo) in
    let vistos := (vistos + util)%nat in
    let n := Nat.min util (cabe - length copiados) in
    ((h, vistos, copiados ++ take n trozo), (vistos <? tam)%nat).

Definition veredicto (g : option (list Z)) (h : option Blake3.Hasher) : Firma :=
  match g with
  | None => Ausente
  | Some g => if bool_decide (Blake3.finalize <$> h = Some g) then Cuadra else NoCuadra
  end.

Definition read_and_sign (n : Nodo) (cabe : nat) : R (list Z * nat * Firma) :=
  match tipo n with
  | Directorio => nada
  | Archivo =>
      match attr n ATTR_DATOS with
      | None => nada
      | Some a =>
          let guardada := firma_guardada n in
          match datos_residentes a with
          | Some d =>
              hay (take (Nat.min (length d) cabe) d, length d, veredicto guardada (Blake3.update Blake3.new d))
          | None => fun v =>
              match attr_raiz a with
              | None => (v, None)
              | Some raiz =>
                  match descender del_disco (firmando (Z.to_nat (a_size a)) cabe) v (Some Blake3.new, 0%nat, [])
                          raiz (Z.to_nat (a_levels a)) scratch_de_flujo with
                  | ((v, (h, vistos, copiados), _), Ok _) => (v, Some (copiados, vistos, veredicto guardada h))
                  | ((v, _, _), Err _) => (v, None)
                  end
              end
          end
      end
  end.

(** * dir.rs, and the lookups of cursor.rs *)

Definition MAX_ENTRIES : nat := 64.

Definition leer_estrato (p : BlockPtr) : R Estrato := d <?~ seguir p 0 ;; quiza (ok_opt (estrato_decode d)).

Definition raiz_dir : R (BlockPtr * Nodo) := fun v =>
  match superbloque v with
  | None => (v, None)
  | Some sb =>
      if es_nulo (estrato sb) then (v, None)
      else (e <?~ leer_estrato (estrato sb) ;; n <?~ nodo_en (raiz e) ;; hay (raiz e, n)) v
  end.

Definition estrato_actual : R Estrato := fun v =>
  match superbloque v with
  | None => (v, None)
  | Some sb => if es_nulo (estrato sb) then (v, None) else leer_estrato (estrato sb) v
  end.

(** The listing: the bytes read, how many entries, and whether some were left out. *)
Definition listar_en (dir : Nodo) (cabe : nat) : R (list Z * nat * bool) :=
  a <?~ quiza (attr dir ATTR_ENTRADAS) ;;
  b <?~ flujo a cabe ;;
  hay (b, (length b / ENTRADA_LEN)%nat, negb (Z.to_nat (a_size a) <=? cabe)%nat).

Definition entries (dir : Nodo) : R (list Z * nat * bool) := listar_en dir (MAX_ENTRIES * ENTRADA_LEN).

Definition entrada_i (dir_buf : list Z) (i : nat) : option Entrada :=
  if (MAX_ENTRIES <=? i)%nat then None else ok_opt (entrada_decode (celda dir_buf i)).

Fixpoint busca (dir_buf name : list Z) (i n : nat) : option BlockPtr :=
  match n with
  | O => None
  | S n =>
      e ← entrada_i dir_buf i;
      if se_llama e name then Some (nodo e) else busca dir_buf name (S i) n
  end.

Definition buscar_en (dir : Nodo) (name : list Z) : R BlockPtr :=
  l <?~ entries dir ;; let '(b, n, _) := l in quiza (busca b name 0 n).

Definition es_barra (c : Z) : bool := (c =? 0x2F) || (c =? 0x5C).

(** [str::split(['/', '\\'])]. *)
Fixpoint split_ruta (r tramo : list Z) : list (list Z) :=
  match r with
  | [] => [tramo]
  | c :: r => if es_barra c then tramo :: split_ruta r [] else split_ruta r (tramo ++ [c])
  end.

Fixpoint trim_barra (r : list Z) : list Z :=
  match r with c :: r' => if c =? 0x2F then trim_barra r' else r | [] => [] end.

(** The [loop] of [open]: one directory per turn. *)
Fixpoint open_loop (fuel : nat) (actual : Nodo) (resto : list Z) : R Nodo :=
  match fuel with
  | O => nada
  | S fuel =>
      match position es_barra resto with
      | Some i =>
          ptr <?~ buscar_en actual (take i resto) ;;
          n <?~ nodo_en ptr ;;
          match tipo n with
          | Archivo => nada
          | Directorio => open_loop fuel n (drop (S i) resto)
          end
      | None => ptr <?~ buscar_en actual resto ;; nodo_en ptr
      end
  end.

Definition open_ruta (ruta : list Z) : R Nodo :=
  r <?~ raiz_dir ;; open_loop (S (length ruta)) (snd r) (trim_barra ruta).

Definition read (n : Nodo) (cabe : nat) : R (list Z) :=
  match tipo n with Directorio => nada | Archivo => a <?~ quiza (attr n ATTR_DATOS) ;; flujo a cabe end.

Definition firma (n : Nodo) (datos : list Z) : Firma :=
  match firma_guardada n with
  | None => Ausente
  | Some g => if bool_decide (blake3 datos = g) then Cuadra else NoCuadra
  end.

(** * mount *)

Definition disk_id_of (id : DeviceId) : option Hash :=
  disk_id (take (model_len id) (model id)) (take (serial_len id) (serial id)) (blocks id).

(** The [for] over the partitions; [estrato] is read once the volume is chosen. *)
Fixpoint mount_loop (l : list Partition) (v : Vol) : Vol :=
  match l with
  | [] => v
  | p :: l =>
      if is_esp p then mount_loop l v
      else match read_block_from (first_lba p) SUPER_A_BLOCK v with
      | (v, None) => mount_loop l v
      | (v, Some a) =>
          match read_block_from (first_lba p) SUPER_B_BLOCK v with
          | (v, None) => mount_loop l v
          | (v, Some b) =>
              match pick_superblock (take SUPER_LEN a) (take SUPER_LEN b) with
              | Err _ => mount_loop l v
              | Ok (sb, _) =>
                  let v := mkVol (disco v) true (first_lba p) (index p) (Some sb) (identidad_ok v)
                             (estrato_fecha v) (ahora v) (pid v) in
                  let '(v, e) := estrato_actual v in
                  let v := con_fecha v (from_option tiempo 0 e) in
                  let id := if registrado (disco v)
                            then default NO_HASH (disk_id_of (identidad (disco v))) else NO_HASH in
                  let ok := belongs_to sb id in
                  let v := mkVol (disco v) (montado v) (base_lba v) (particion v) (super v) ok
                             (estrato_fecha v) (ahora v) (pid v) in
                  if ok then con_disco v (con_ventana (disco v) (Some (first_lba p, last_lba p))) else v
              end
          end
      end
  end.

Definition mount (v : Vol) : Vol :=
  let v := mkVol (con_ventana (disco v) None) false (base_lba v) (particion v) None false
             (estrato_fecha v) (ahora v) (pid v) in
  if negb (registrado (disco v)) then v else mount_loop (parts (disco v)) v.

(** * escribir.rs *)

Definition HONDO_MAX : nat := 8.

Definition leer_entradas (a : Attr) : M (list Z) :=
  if Z.of_nat BLOQUE <? a_size a then falla CarpetaNoCabeEntera
  else exige (flujo a BLOQUE) NoSeLeeLaRaiz.

Definition poner (bloque : Z) (datos : list Z) : M unit := fun v =>
  if (BLOQUE <? length datos)%nat then (v, Err WNoCabe)
  else
    let buf := put 0 datos (replicate BLOQUE 0) in
    match write_block bloque buf v with
    | (v, true) => (v, Ok tt)
    | (v, false) => (v, Err NoEscribio)
    end.

(** The nodes from the root down ([NODOS]) and the names that were followed
    ([NOMBRES], cut at 64 bytes). *)
Fixpoint bajar_ruta (tramos : list (list Z)) (nodos : list Nodo) (padre : Nodo) (nombres : list (list Z))
  : M (list Nodo * list (list Z)) :=
  match tramos with
  | [] => ret (nodos, nombres)
  | t :: tramos =>
      if Nat.eqb (length t) 0 then bajar_ruta tramos nodos padre nombres
      else if (HONDO_MAX <? length nombres + 1)%nat then falla MuyHondo
      else
        ptr <~ exige (buscar_en padre t) RutaNoEsta ;;
        n <~ exige (nodo_en ptr) RutaNoEsta ;;
        match tipo n with
        | Archivo => falla RutaNoEsta
        | Directorio => bajar_ruta tramos (nodos ++ [n]) n (nombres ++ [take 64 t])
        end
  end.

Definition resolver (ruta : list Z) : M (list Nodo * list (list Z)) :=
  r <~ exige raiz_dir NoSeLeeLaRaiz ;; bajar_ruta (split_ruta ruta []) [snd r] (snd r) [].

(** ** copiar.rs *)

(** Where contents come from: a FAT32 file, as its size and what each ranged
    read gives (at an offset, at most so many bytes), or memory. *)
Inductive Origen :=
| Fat32 (tamano : option nat) (leer_rango : option (nat -> nat -> list Z))
| Ram (bytes : list Z).

Definition coste_origen (o : Origen) : M (Z * Plan * Z) :=
  size <~ match o with
          | Fat32 t _ => exige (quiza (Z.of_nat <$> t)) RutaNoEsta
          | Ram b => ret (Z.of_nat (length b))
          end ;;
  if size =? 0 then falla WNoCabe
  else p <~ exige (quiza (plan_de size)) WNoCabe ;; ret (total p, p, size).

Definition poner_bool (v : Vol) (l : Z) (datos : list Z) : Vol * bool :=
  match poner l datos v with (v, Ok _) => (v, true) | (v, Err _) => (v, false) end.

(** [while leidos < size]; every turn reads at least a byte. *)
Fixpoint traer_loop (fuel : nat) (lee : nat -> nat -> list Z) (size leidos : nat) (a : Arbol) : M Arbol :=
  match fuel with
  | O => ret a
  | S fuel =>
      if (leidos <? size)%nat then
        let piden := Nat.min (size - leidos) BLOQUE in
        let cacho := take piden (lee leidos piden) in
        if Nat.eqb (length cacho) 0 then falla NoSeLeeLaRaiz
        else fun v =>
          match empujar poner_bool a v cacho with
          | (a, v, Ok _) => traer_loop fuel lee size (leidos + length cacho) a v
          | (_, v, Err _) => (v, Err NoEscribio)
          end
      else ret a
  end.

Definition traer (o : Origen) (p : Plan) (size base : Z) : M (list Z) :=
  lee <~ match o with
         | Fat32 _ l => exige (quiza l) RutaNoEsta
         | Ram b => ret (fun i n => slice i n b)
         end ;;
  a <~ puro (nuevo p base (replicate (niveles p) (replicate BLOQUE 0))) (fun _ => WNoCabe) ;;
  a <~ traer_loop (S (Z.to_nat size)) lee (Z.to_nat size) 0 a ;;
  r <~ (fun v => match cerrar poner_bool a v with (v, Ok r) => (v, Ok r) | (v, Err _) => (v, Err NoEscribio) end) ;;
  puro (nodo_de_fichero_grande size (Z.of_nat (niveles p)) r) (fun _ => WNoCabe).

(** ** The gestures *)

Inductive Gesto :=
| Fichero (nombre datos : list Z)
| Carpeta (nombre : list Z)
| Quitar (nombre : list Z)
| Renombrar (viejo nuevo : list Z)
| Copia (nombre : list Z) (o : Origen)
| Guardar (nombre : list Z) (o : Origen).

Definition bloques_de_objeto (g : Gesto) : Z :=
  match g with Fichero _ _ | Carpeta _ | Copia _ _ | Guardar _ _ => 1 | Quitar _ | Renombrar _ _ => 0 end.

Definition origen_de (g : Gesto) : option Origen :=
  match g with Copia _ o | Guardar _ o => Some o | _ => None end.

(** From [cerrar_datos] to the new superblock in memory: the same lines close
    every gesture.  [p] is the stratum to publish. *)
Definition cierre (t : Transaccion) (p : BlockPtr) : M Superblock :=
  match cerrar_datos t with
  | (_, Err e) => falla (Rechazada e)
  | (t, Ok _) => fun v =>
      match flush_disco v with
      | (v, false) => (v, Err SinBarrera)
      | (v, true) =>
          match barrera_hecha t with
          | (_, Err e) => (v, Err (Rechazada e))
          | (t, Ok _) =>
              match commit t p with
              | (_, Err e) => (v, Err (Rechazada e))
              | (_, Ok (destino, nuevo)) =>
                  match write_superblock destino (super_encode nuevo) v with
                  | (v, false) => (v, Err NoEscribio)
                  | (v, true) =>
                      match flush_disco v with
                      | (v, false) => (v, Err SinBarrera)
                      | (v, true) => (fijar_superbloque v nuevo, Ok nuevo)
                      end
                  end
              end
          end
      end
  end.

Definition el_superbloque : M Superblock := fun v =>
  match superbloque v with Some s => (v, Ok s) | None => (v, Err SinVolumen) end.

Definition abrir (sb : Superblock) : M Transaccion := fun v =>
  let '(v, copia) := copia_en_uso v in
  match open sb copia (identidad_ok v) with Ok t => (v, Ok t) | Err e => (v, Err (Rechazada e)) end.

Definition reservar (t : Transaccion) (n : Z) : M (Transaccion * Z) :=
  match reserve t n with (t, Ok b) => ret (t, b) | (_, Err e) => falla (Rechazada e) end.

(** The new entries of the directory the gesture touches. *)
Definition aplicar_a (g : Gesto) (previas : list Z) (p_objeto : option BlockPtr) : result bloque_nuevo WriteError :=
  let con_error (r : result bloque_nuevo FormatError) : result bloque_nuevo WriteError :=
    match r with
    | Ok b => Ok b
    | Err _ => Err (if (ENTRADAS_POR_BLOQUE <=? length previas / ENTRADA_LEN)%nat then CarpetaLlena else NombreNoVale)
    end in
  match g with
  | Fichero n _ | Carpeta n | Copia n _ =>
      match p_objeto with None => Err WNoCabe | Some p => con_error (entradas_con previas n p) end
  | Guardar n _ =>
      match p_objeto with
      | None => Err WNoCabe
      | Some p => con_error (match entradas_repuntando previas n p with
                             | Ok b => Ok b | Err _ => entradas_con previas n p end)
      end
  | Quitar n => con_error (entradas_sin previas n)
  | Renombrar v n => con_error (entradas_renombrando previas v n)
  end.

(** One level of the branch: its entries and its node are written anew.
    [ent] builds the entries; the cursor moves two blocks. *)
Definition republicar (este : Nodo) (ent : list Z -> result bloque_nuevo WriteError) (cursor : Z)
  : M (BlockPtr * Z) :=
  previas <~ match attr este ATTR_ENTRADAS with None => ret [] | Some a => leer_entradas a end ;;
  bn <~ puro (ent previas) (fun e => e) ;;
  let '(blk, n_ent) := bn in
  let e := take n_ent blk in
  _ <~ poner cursor e ;;
  let p_ent := ptr_nuevo cursor 0 e in
  let cursor := w64 (cursor + 1) in
  nodo_d <~ (if Nat.eqb n_ent 0 then ret nodo_de_directorio_vacio
             else puro (nodo_de_directorio p_ent (Z.of_nat n_ent)) (fun _ => WNoCabe)) ;;
  _ <~ poner cursor nodo_d ;;
  ret (ptr_nuevo cursor 0 nodo_d, w64 (cursor + 1)).

(** The levels above the one that was touched, upwards: each repoints the name
    that was followed. *)
Fixpoint subir_rama (rama : list (Nodo * list Z)) (hijo : BlockPtr) (cursor : Z) : M (BlockPtr * Z) :=
  match rama with
  | [] => ret (hijo, cursor)
  | (este, nombre) :: rama =>
      if negb (utf8 (length nombre) nombre) then
        _ <~ match attr este ATTR_ENTRADAS with None => ret [] | Some a => leer_entradas a end ;;
        falla RutaNoEsta
      else
        r <~ republicar este (fun previas =>
               match entradas_repuntando previas nombre hijo with Ok b => Ok b | Err _ => Err RutaNoEsta end)
               cursor ;;
        subir_rama rama (fst r) (snd r)
  end.

Definition publicar (ruta : list Z) (g : Gesto) : M Z :=
  sb <~ el_superbloque ;;
  r <~ resolver ruta ;;
  let '(nodos, nombres) := r in
  let hondo := length nombres in
  obj <~ match g with
         | Fichero _ d => o <~ puro (nodo_de_fichero d) (fun _ => WNoCabe) ;; ret (Some o)
         | Carpeta _ => ret (Some nodo_de_directorio_vacio)
         | Copia _ _ | Guardar _ _ => ret (Some (replicate NODO_LEN 0))
         | _ => ret None
         end ;;
  fl <~ match origen_de g with Some o => c <~ coste_origen o ;; ret (Some c) | None => ret None end ;;
  let cuesta := w64 (bloques_de_objeto g + from_option (fun c => fst (fst c)) 0 fl + 2 * Z.of_nat (S hondo) + 1) in
  t <~ abrir sb ;;
  tb <~ reservar t cuesta ;;
  let '(t, cursor) := tb in
  oc <~ match origen_de g, fl with
        | Some o, Some (bloques, plan, size) =>
            n <~ traer o plan size cursor ;; ret (Some n, w64 (cursor + bloques))
        | _, _ => ret (obj, cursor)
        end ;;
  let '(obj, cursor) := oc in
  pc <~ match obj with
        | Some o => _ <~ poner cursor o ;; ret (Some (ptr_nuevo cursor 0 o), w64 (cursor + 1))
        | None => ret (None, cursor)
        end ;;
  let '(p_objeto, cursor) := pc in
  hoja <~ exige (quiza (last nodos)) NoSeLeeLaRaiz ;;
  h <~ republicar hoja (fun previas => aplicar_a g previas p_objeto) cursor ;;
  let rama := reverse (zip nodos nombres) in
  rc <~ subir_rama rama (fst h) (snd h) ;;
  let '(p_raiz, cursor) := rc in
  fun v =>
    let cuando := ahora v in
    let e_bytes := estrato_encode (estrato_new p_raiz (estrato sb) cuando (Proceso (pid v)) []) in
    (_ <~ poner cursor e_bytes ;;
     nuevo <~ cierre t (ptr_nuevo cursor 0 e_bytes) ;;
     fun v => (con_fecha v cuando, Ok (generation nuevo))) v.

Definition aplicar (ruta : list Z) (g : Gesto) : M Z := publicar ruta g.

(** A version with only a stratum: [raiz] under today's head. *)
Definition publicar_estrato (sb : Superblock) (raiz : BlockPtr) (motivo : list Z) : M Z :=
  t <~ abrir sb ;;
  tb <~ reservar t 1 ;;
  let '(t, base) := tb in
  fun v =>
    let cuando := ahora v in
    let bytes := estrato_encode (estrato_new raiz (estrato sb) cuando (Proceso (pid v)) motivo) in
    (_ <~ poner base bytes ;;
     nuevo <~ cierre t (ptr_nuevo base 0 bytes) ;;
     fun v => (con_fecha v cuando, Ok (generation nuevo))) v.

Definition marcar (nombre : list Z) : M Z :=
  sb <~ el_superbloque ;;
  if Nat.eqb (length nombre) 0 then falla WNoCabe
  else
    actual <~ exige estrato_actual NoSeLeeLaRaiz ;;
    publicar_estrato sb (raiz actual) nombre.

(** [while k <= n], up the parents. *)
Fixpoint remontar (k : nat) (donde : BlockPtr) : M BlockPtr :=
  if es_nulo donde then falla RutaNoEsta
  else
    e <~ exige (leer_estrato donde) NoSeLeeLaRaiz ;;
    match k with O => ret (raiz e) | S k => remontar k (padre e) end.

Definition volver (n : nat) : M Z :=
  sb <~ el_superbloque ;;
  match n with
  | O => falla WNoCabe
  | S _ => r <~ remontar n (estrato sb) ;; publicar_estrato sb r []
  end.

Definition seal : M Z :=
  sb <~ el_superbloque ;;
  t <~ abrir sb ;;
  nuevo <~ cierre t (estrato sb) ;;
  ret (generation nuevo).

(** * historia.rs *)

Record Version := mkVersion { cuando : Z; quien : Z; nombre : list Z }.
Definition HISTORIA_MAX : nat := 32.
Definition HISTORIA_NOMBRE_MAX : nat := 64.

(** [while n < MAX]: the versions, and whether there were more. *)
Fixpoint historia_loop (fuel : nat) (donde : BlockPtr) : R (list Version * bool) :=
  match fuel with
  | O => hay ([], negb (es_nulo donde))
  | S fuel =>
      if es_nulo donde then hay ([], false)
      else fun v =>
        match leer_estrato donde v with
        | (v, None) => (v, Some ([], false))
        | (v, Some e) =>
            let ver := mkVersion (tiempo e) (match autor e with Proceso p => p | _ => 0 end)
                         (take HISTORIA_NOMBRE_MAX (motivo_str e)) in
            match historia_loop fuel (padre e) v with
            | (v, Some (l, r)) => (v, Some (ver :: l, r))
            | (v, None) => (v, None)
            end
        end
  end.

Definition releer : R (list Version * bool) := fun v =>
  match superbloque v with
  | None => (v, Some ([], false))
  | Some sb => historia_loop HISTORIA_MAX (estrato sb) v
  end.

(** * What a power cut finds

    [elige] is what mounting decides from the first sectors of blocks 0 and 1. *)

Definition elige (b : Z) (img : Z -> list Z) : result (Superblock * Z) FormatError :=
  pick_superblock (img b) (img (b + 8)).

(** The sectors of the blocks a version with log head [h] may use. *)
Definition datos_de (b h l : Z) : Prop := b + 16 <= l < b + 8 * h.
Definition protegido (b h l : Z) : Prop := l = b \/ l = b + 8 \/ datos_de b h l.

(** The statics an operation reads and does not write before it publishes. *)
Definition misma_v (v v' : Vol) : Prop :=
  misma (disco v) (disco v') /\ montado v' = montado v /\ base_lba v' = base_lba v /\
  particion v' = particion v /\ super v' = super v /\ identidad_ok v' = identidad_ok v /\
  ahora v' = ahora v /\ pid v' = pid v.

Lemma misma_v_refl v : misma_v v v.
Proof. split; [apply misma_refl|by split_and!]. Qed.
Lemma misma_v_trans v1 v2 v3 : misma_v v1 v2 -> misma_v v2 v3 -> misma_v v1 v3.
Proof.
  intros (A0&A1&A2&A3&A4&A5&A6&A7) (B0&B1&B2&B3&B4&B5&B6&B7).
  split; [by eapply misma_trans|split_and!; congruence].
Qed.

Section Protegido.
(** [S] is a set of sectors, [ref] what they hold. *)
Variables (S : Z -> Prop) (ref : Z -> list Z).

Definition intacto (p : Z -> list Z) (w : list (Z * list Z)) : Prop :=
  forall l, S l -> p l = ref l /\ forall x, ~ In (l, x) w.

(** A state from which every cut leaves [S] as it was. *)
Lemma intacto_corte p w img : intacto p w -> corte p w img -> forall l, S l -> img l = ref l.
Proof. intros H Hc l Hl. destruct (H l Hl) as [<- Hn]. destruct (Hc l) as [|Hin]; [done|by apply Hn in Hin]. Qed.

Definition bueno (t : (Z -> list Z) * list (Z * list Z)) : Prop := intacto (fst t) (snd t).

(** From [v] to [v'] the protected sectors were not touched, at any moment. *)
Record sigue (v v' : Vol) : Prop := {
  si_misma : misma_v v v';
  si_intacto : intacto (plato (disco v)) (vuelo (disco v)) -> intacto (plato (disco v')) (vuelo (disco v'));
  si_traza t : intacto (plato (disco v)) (vuelo (disco v)) ->
    In t (traza (disco v')) -> In t (traza (disco v)) \/ bueno t
}.

Lemma sigue_refl v : sigue v v.
Proof. split; [apply misma_v_refl|done|by left]. Qed.

Lemma sigue_trans v1 v2 v3 : sigue v1 v2 -> sigue v2 v3 -> sigue v1 v3.
Proof.
  intros [A1 A2 A3] [B1 B2 B3]. split; [by eapply misma_v_trans|by intros H; apply B2, A2|].
  intros t H Ht. destruct (B3 t (A2 H) Ht) as [Ht'|]; [by apply A3|by right].
Qed.

(** A change of the disk alone. *)
Lemma sigue_disco v d : misma (disco v) d ->
  (intacto (plato (disco v)) (vuelo (disco v)) -> intacto (plato d) (vuelo d)) ->
  (forall t, intacto (plato (disco v)) (vuelo (disco v)) -> In t (traza d) -> In t (traza (disco v)) \/ bueno t) ->
  sigue v (con_disco v d).
Proof. intros H1 H2 H3. split; [|exact H2|exact H3]. split; [exact H1|by split_and!]. Qed.

Lemma dev_read_sigue v lba n buf : sigue v (con_disco v (fst (dev_read (disco v) lba n buf))).
Proof.
  assert (Hd : forall d' r, dev_read (disco v) lba n buf = (d', r) ->
    misma (disco v) d' /\ plato d' = plato (disco v) /\ vuelo d' = vuelo (disco v) /\ traza d' = traza (disco v)).
  { intros d' r. unfold dev_read, transfer_read. cbv zeta.
    repeat (case_if; [intros [= <- _]; by split_and!|]). destruct (checked_add _ _); [|intros [= <- _]; by split_and!].
    case_if; [intros [= <- _]; by split_and!|]. case_if; [intros [= <- _]; by split_and!|].
    destruct (siguiente (disco v)) as [d1 s] eqn:E. apply siguiente_spec in E as (E1 & E2 & E3 & E4).
    destruct (match s with Va => n | Corta n0 | Rota n0 => Nat.min n0 n end); intros [= <- _]; by split_and!. }
  destruct (dev_read (disco v) lba n buf) as [d' r]. destruct (Hd d' r eq_refl) as (H1 & H2 & H3 & H4). cbn [fst].
  apply sigue_disco; [done|by rewrite H2, H3|]. intros t _ Ht. left. by rewrite <- H4.
Qed.

Lemma write_sigue v lba n data d' k : is_u64 lba -> (forall l, lba <= l < lba + Z.of_nat n -> ~ S l) ->
  write (disco v) lba n data = (d', k) -> sigue v (con_disco v d').
Proof.
  intros Hl Hs H. destruct (write_spec _ _ _ _ _ _ Hl H) as [[A1 A2 A3 A5 A4] _].
  assert (Hi : forall p w, intacto (plato (disco v)) (vuelo (disco v)) -> p = plato (disco v) ->
    (forall l x, In (l, x) w -> In (l, x) (vuelo (disco v)) \/ lba <= l < lba + Z.of_nat n) -> intacto p w).
  { intros p w Hi -> Hw l Hsl. destruct (Hi l Hsl) as [E Hn]. split; [done|].
    intros x [Hx|Hx]%Hw; [by apply (Hn x)|by apply (Hs l)]. }
  apply sigue_disco; [done| |].
  - intros Hin. by apply Hi.
  - intros t Hin Ht. apply A4 in Ht as [Ht|[E1 E2]]; [by left|right]. by apply Hi.
Qed.

Lemma flush_sigue v d' r : flush (disco v) = (d', r) -> sigue v (con_disco v d').
Proof.
  unfold flush. case_if; [intros [= <- _]; destruct v; apply sigue_refl|]. unfold ahci_flush.
  destruct (siguiente (disco v)) as [d1 s] eqn:E. apply siguiente_spec in E as (E1 & E2 & E3 & E4).
  assert (Hv : intacto (plato (disco v)) (vuelo (disco v)) ->
    intacto (visible (plato (disco v)) (vuelo (disco v))) []).
  { intros Hin l Hl. destruct (Hin l Hl) as [<- Hn]. split; [|by intros x []].
    clear -Hn. induction (vuelo (disco v)) as [|[k x] w IH]; [done|]. cbn [visible].
    destruct (Z.eqb_spec k l) as [->|]; [exfalso; apply (Hn x); by left|].
    apply IH. intros y Hy. apply (Hn y). by right. }
  destruct s; intros [= <- _]; (apply sigue_disco; [exact E1| |]).
  - intros Hin. cbn. rewrite E2, E3. by apply Hv.
  - intros t Hin [<-|Ht]; [right|left; by rewrite <- E4]. unfold bueno. cbn. rewrite E2, E3. by apply Hv.
  - by rewrite E2, E3.
  - intros t _ Ht. left. by rewrite <- E4.
  - by rewrite E2, E3.
  - intros t _ Ht. left. by rewrite <- E4.
Qed.

(** ** Triples *)

(** Whatever the result, [m] respects the protected sectors; if it succeeds its
    value satisfies [Q].  It starts at the volume whose first sector is [b]. *)
Variable b : Z.
Definition hoare {A} (m : M A) (Q : A -> Prop) : Prop :=
  forall v v' r, base_lba v = b -> m v = (v', r) -> sigue v v' /\ match r with Ok x => Q x | Err _ => True end.
Definition hoare_r {A} (m : R A) : Prop := forall v v' r, base_lba v = b -> m v = (v', r) -> sigue v v'.

Lemma base_sigue v v' : base_lba v = b -> sigue v v' -> base_lba v' = b.
Proof. intros H [(_&_&E&_) _ _]. congruence. Qed.

Lemma hoare_ret {A} (x : A) (Q : A -> Prop) : Q x -> hoare (ret x) Q.
Proof. intros H v v' r _ [= <- <-]. split; [apply sigue_refl|done]. Qed.
Lemma hoare_falla {A} e (Q : A -> Prop) : hoare (falla e) Q.
Proof. intros v v' r _ [= <- <-]. split; [apply sigue_refl|done]. Qed.
Lemma hoare_bind {A B} (m : M A) (k : A -> M B) P Q :
  hoare m P -> (forall x, P x -> hoare (k x) Q) -> hoare (bind m k) Q.
Proof.
  intros Hm Hk v v' r Hv. unfold bind. destruct (m v) as [v1 [x|e]] eqn:E.
  - destruct (Hm v v1 _ Hv E) as [H1 Hx]. intros H. apply (Hk x Hx) in H as [H2 HQ]; [|by eapply base_sigue].
    split; [by eapply sigue_trans|done].
  - intros [= <- <-]. destruct (Hm v v1 _ Hv E) as [H1 _]. done.
Qed.
Lemma hoare_exige {A} (m : R A) e (Q : A -> Prop) : hoare_r m -> (forall x, Q x) -> hoare (exige m e) Q.
Proof.
  intros Hm HQ v v' r Hv. unfold exige. destruct (m v) as [v1 [x|]] eqn:E; intros [= <- <-];
    (split; [by eapply Hm|done]).
Qed.
Lemma hoare_puro {A E} (x : result A E) f (Q : A -> Prop) : (forall y, x = Ok y -> Q y) -> hoare (puro x f) Q.
Proof. intros H. destruct x; cbn; [by apply hoare_ret, H|apply hoare_falla]. Qed.
Lemma hoare_weaken {A} (m : M A) (P Q : A -> Prop) : hoare m P -> (forall x, P x -> Q x) -> hoare m Q.
Proof. intros H HPQ v v' r Hv E. destruct (H v v' r Hv E). split; [done|]. destruct r; auto. Qed.

Lemma hoare_r_hay {A} (x : A) : hoare_r (hay x).
Proof. intros v v' r _ [= <- _]. apply sigue_refl. Qed.
Lemma hoare_r_nada {A} : hoare_r (@nada A).
Proof. intros v v' r _ [= <- _]. apply sigue_refl. Qed.
Lemma hoare_r_bind {A B} (m : R A) (k : A -> R B) :
  hoare_r m -> (forall x, hoare_r (k x)) -> hoare_r (rbind m k).
Proof.
  intros Hm Hk v v' r Hv. unfold rbind. destruct (m v) as [v1 [x|]] eqn:E.
  - pose proof (Hm v v1 _ Hv E) as H1. intros H. apply (Hk x) in H; [|by eapply base_sigue].
    by eapply sigue_trans.
  - intros [= <- _]. by eapply Hm.
Qed.
Lemma hoare_r_quiza {A} (o : option A) : hoare_r (quiza o).
Proof. destruct o; [apply hoare_r_hay|apply hoare_r_nada]. Qed.
End Protegido.

Create HintDb lee.
#[export] Hint Resolve hoare_r_hay hoare_r_nada hoare_r_quiza : lee.
Ltac lee := repeat first [ apply hoare_r_bind; [|intros ?] | solve [auto with lee] ].

(** ** Reading changes nothing *)

Section Lecturas.
Variables (S : Z -> Prop) (ref : Z -> list Z) (b : Z).
Notation lectura := (hoare_r S ref b).

Lemma read_block_from_sigue base l v : sigue S ref v (fst (read_block_from base l v)).
Proof.
  unfold read_block_from. case_if; [apply sigue_refl|].
  pose proof (dev_read_sigue S ref v (lba_de base l) SECTORES_POR_BLOQUE BLOQUE) as H.
  by destruct (dev_read _ _ _ _) as [d [[n x]|e]].
Qed.

Lemma read_block_lee l : lectura (read_block l).
Proof. intros v v' r _ H. pose proof (read_block_from_sigue (base_lba v) l v) as Hs. unfold read_block in H. by rewrite H in Hs. Qed.

Lemma seguir_lee p n : lectura (seguir p n).
Proof.
  unfold seguir. case_if; [apply hoare_r_nada|]. apply hoare_r_bind; [apply read_block_lee|]. intros x.
  cbv zeta. repeat (case_if; auto with lee).
Qed.

Lemma nodo_en_lee p : lectura (nodo_en p).
Proof. apply hoare_r_bind; [apply seguir_lee|auto with lee]. Qed.
Lemma leer_estrato_lee p : lectura (leer_estrato p).
Proof. apply hoare_r_bind; [apply seguir_lee|auto with lee]. Qed.

Lemma descender_sigue {X} (salida : X -> list Z -> X * bool) v x p n k :
  sigue S ref v (fst (fst (fst (descender del_disco salida v x p n k)))).
Proof.
  refine (bajar_rel (sigue S ref) (sigue_refl S ref) (sigue_trans S ref) del_disco salida _ n k (v, x, true) p).
  intros w l. apply (read_block_from_sigue (base_lba w)).
Qed.

Lemma flujo_lee a n : lectura (flujo a n).
Proof.
  unfold flujo. destruct (datos_residentes a); [case_if; auto with lee|].
  intros v v' r _. destruct (attr_raiz a) as [p|]; [|intros [= <- _]; apply sigue_refl].
  pose proof (descender_sigue (copia_trozo n) v [] p (Z.to_nat (a_levels a)) scratch_de_flujo) as H.
  destruct (descender _ _ _ _ _ _ _) as [[[w x] g] [u|e]]; intros [= <- _]; exact H.
Qed.

Lemma entries_lee d : lectura (entries d).
Proof.
  unfold entries, listar_en. apply hoare_r_bind; [auto with lee|]. intros a.
  apply hoare_r_bind; [apply flujo_lee|auto with lee].
Qed.

Lemma buscar_en_lee d n : lectura (buscar_en d n).
Proof. apply hoare_r_bind; [apply entries_lee|]. intros [[l k] t]. auto with lee. Qed.

Lemma raiz_dir_lee : lectura raiz_dir.
Proof.
  intros v v' r Hv. unfold raiz_dir. destruct (superbloque v) as [s|]; [|intros [= <- _]; apply sigue_refl].
  case_if; [intros [= <- _]; apply sigue_refl|]. intros H. revert H. revert v v' r Hv.
  change (lectura (e <?~ leer_estrato (estrato s) ;; n <?~ nodo_en (raiz e) ;; hay (raiz e, n))).
  apply hoare_r_bind; [apply leer_estrato_lee|]. intros e.
  apply hoare_r_bind; [apply nodo_en_lee|auto with lee].
Qed.

Lemma estrato_actual_lee : lectura estrato_actual.
Proof.
  intros v v' r Hv. unfold estrato_actual. destruct (superbloque v) as [s|]; [|intros [= <- _]; apply sigue_refl].
  case_if; [intros [= <- _]; apply sigue_refl|]. by apply leer_estrato_lee.
Qed.

Lemma copia_en_uso_sigue v : sigue S ref v (fst (copia_en_uso v)).
Proof.
  unfold copia_en_uso. pose proof (read_block_from_sigue (base_lba v) SUPER_A_BLOCK v) as H1.
  destruct (read_block_from _ _ v) as [v1 [x|]]; [|exact H1].
  pose proof (read_block_from_sigue (base_lba v1) SUPER_B_BLOCK v1) as H2.
  destruct (read_block_from (base_lba v1) SUPER_B_BLOCK v1) as [v2 [y|]];
    (eapply sigue_trans; [exact H1|exact H2]).
Qed.

Lemma copia_en_uso_copia v : let c := snd (copia_en_uso v) in c = SUPER_A_BLOCK \/ c = SUPER_B_BLOCK.
Proof.
  unfold copia_en_uso. destruct (read_block_from _ _ v) as [v1 [x|]]; [|by left].
  destruct (read_block_from _ _ v1) as [v2 [y|]]; [|by left]. cbn [snd].
  unfold pick_superblock. destruct (super_decode _), (super_decode _); try case_if; auto.
Qed.
End Lecturas.

(** ** Before the barrier only free blocks are written *)

Section Previo.
Variables (b : Z) (sb : Superblock) (ref : Z -> list Z).
Notation S := (protegido b (log_head sb)).
Notation triple := (hoare S ref b).

(** Block numbers whose sectors are free: from the log head on, far from the
    end of the 48-bit address space. *)
Definition libre (l : Z) : Prop := log_head sb <= l < 2 ^ 46.
Hypothesis Hgeo : 0 <= b < 2 ^ 48 /\ 2 <= log_head sb.

Lemma lba_libre l : libre l -> lba_de b l = b + 8 * l /\ is_u64 (lba_de b l) /\
  (forall k, lba_de b l <= k < lba_de b l + 8 -> ~ S k).
Proof.
  unfold libre. intros Hl. assert (E : lba_de b l = b + 8 * l).
  { unfold lba_de. change (Z.of_nat SECTORES_POR_BLOQUE) with 8.
    rewrite (w64_small (l * 8)) by (unfold is_u64; lia). rewrite w64_small by (unfold is_u64; lia). lia. }
  rewrite E. split; [done|]. split; [unfold is_u64; lia|]. intros k Hk. unfold protegido, datos_de. lia.
Qed.

Lemma poner_libre l datos : libre l -> triple (poner l datos) (fun _ => True).
Proof.
  intros Hl v v' r Hv. unfold poner. case_if; [intros [= <- <-]; split; [apply sigue_refl|done]|].
  cbv zeta. unfold write_block. rewrite Hv. destruct (write _ _ _ _) as [d n] eqn:E.
  destruct (lba_libre l Hl) as (_ & Hu & Hs).
  apply (write_sigue S ref) in E; [|done|exact Hs].
  destruct (Nat.eqb n SECTORES_POR_BLOQUE); intros [= <- <-]; (split; [exact E|done]).
Qed.

(** A state reached from a volume at [b] without touching the protected sectors. *)
Definition llega (v v' : Vol) : Prop := base_lba v = b -> sigue S ref v v'.
Lemma llega_refl v : llega v v.
Proof. intros _. apply sigue_refl. Qed.
Lemma llega_trans v1 v2 v3 : llega v1 v2 -> llega v2 v3 -> llega v1 v3.
Proof. intros H1 H2 Hb. eapply sigue_trans; [by apply H1|]. apply H2. by eapply base_sigue, H1. Qed.

Lemma poner_bool_llega v l d : libre l -> llega v (fst (poner_bool v l d)).
Proof.
  intros Hl Hb. unfold poner_bool. destruct (poner l d v) as [v' r] eqn:E.
  destruct (poner_libre l d Hl v v' r Hb E) as [H _]. by destruct r.
Qed.

(** ** copiar.rs *)

Local Abbreviation holg := (holgura (log_head sb) (2 ^ 46)).

Lemma traer_loop_triple lee size fuel : forall leidos a n,
  holg (n + 6) 0 a -> 0 <= trozos a -> por_nivel (plan a) !!! 0%nat <= trozos a + Z.of_nat n ->
  por_nivel (plan a) !!! 0%nat < 2 ^ 63 ->
  triple (traer_loop fuel lee size leidos a) (fun a' => holg 6 0 a').
Proof.
  induction fuel as [|fuel IH]; intros leidos a n H Ht Hn Hp; cbn [traer_loop].
  { apply hoare_ret. eapply holgura_mono; [exact H|lia|lia]. }
  case_if; [|apply hoare_ret; eapply holgura_mono; [exact H|lia|lia]]. cbv zeta.
  case_if; [apply hoare_falla|]. intros v v' r Hv.
  destruct (empujar poner_bool a v _) as [[a1 v1] r1] eqn:E.
  assert (E' : llega v v1 /\ plan a1 = plan a /\ (r1 = Ok tt -> n <> 0%nat /\ holg (n - 1 + 6) 0 a1 /\ trozos a1 = trozos a + 1)).
  { destruct n as [|n].
    - unfold empujar in E. rewrite (proj2 (Z.leb_le _ _)) in E by lia.
      case_if_in E; injection E as <- <- <-; by split_and!; [apply llega_refl|..].
    - destruct (empujar_rel llega llega_refl llega_trans poner_bool (log_head sb) (2 ^ 46) poner_bool_llega
        ltac:(lia) (n + 6) a v _ a1 v1 r1 H E) as (H1 & H2 & H3). split_and!; [done..|].
      intros Hr. destruct (H3 Hr) as (H4 & H5 & H6). split_and!; [done| |].
      + by replace (Datatypes.S n - 1 + 6)%nat with (n + 6)%nat by lia.
      + rewrite H5. apply w64_small. unfold is_u64. lia. }
  destruct E' as (Hl & Hpl & Hok). destruct r1 as [[]|e]; [|intros [= <- <-]; split; [by apply Hl|done]].
  destruct (Hok eq_refl) as (Hn0 & Hg & Htr). intros H'.
  destruct (IH _ a1 (n - 1)%nat Hg ltac:(lia) ltac:(rewrite Hpl; lia) ltac:(rewrite Hpl; lia) v1 v' r
    (base_sigue _ _ _ _ _ Hv (Hl Hv)) H') as [H1 H2].
  split; [by eapply sigue_trans; [apply Hl|]|done].
Qed.

(** A cursor with room for [n] blocks before the end. *)
Definition cabe (n c : Z) : Prop := log_head sb <= c /\ c + n <= 2 ^ 46.

Lemma cabe_libre n c : cabe n c -> 0 < n -> libre c.
Proof. unfold cabe, libre. lia. Qed.
Lemma cabe_mas n k c : cabe (n + k) c -> 0 <= n -> 0 <= k -> cabe n (w64 (c + k)).
Proof. unfold cabe. intros H Hn Hk. rewrite w64_small by (unfold is_u64; lia). lia. Qed.
Lemma cabe_ok n c d : cabe n c -> 0 <= n -> (length d <= BLOQUE)%nat -> ptr_ok (ptr_nuevo c 0 d).
Proof. unfold cabe. intros H Hn Hd. apply ptr_nuevo_ok; [unfold is_u64; lia|done]. Qed.

Lemma poner_cabe n c datos : cabe n c -> 0 < n ->
  triple (poner c datos) (fun _ => (length datos <= BLOQUE)%nat).
Proof.
  intros Hc Hn v v' r Hv E. destruct (poner_libre c datos (cabe_libre n c Hc Hn) v v' r Hv E) as [H _].
  split; [done|]. destruct r; [|done]. unfold poner in E. case_if_in E; [done|]. by apply Nat.ltb_ge in Heqb0.
Qed.

Lemma coste_origen_triple o : triple (coste_origen o) (fun c => plan_de (snd c) = Some (snd (fst c)) /\
  0 <= snd c /\ fst (fst c) = total (snd (fst c))).
Proof.
  apply hoare_bind with (P := fun size => 0 <= size).
  { destruct o as [t l|m]; [|by apply hoare_ret; lia]. destruct t as [t|]; cbn.
    - intros v v' r _ [= <- <-]. split; [apply sigue_refl|lia].
    - intros v v' r _ [= <- <-]. by split; [apply sigue_refl|]. }
  intros size H0. case_if; [apply hoare_falla|]. destruct (plan_de size) as [p|] eqn:E.
  - intros v v' r _ [= <- <-]. by split; [apply sigue_refl|].
  - intros v v' r _ [= <- <-]. by split; [apply sigue_refl|].
Qed.

Lemma traer_triple o p size c : plan_de size = Some p -> 0 <= size -> cabe (2 ^ 30) c ->
  triple (traer o p size c) (fun _ => True).
Proof.
  intros Hp Hs [Hc1 Hc2]. destruct (plan_de_cota size p Hp Hs) as (Hl & Hf & Hn & _).
  apply hoare_bind with (P := fun _ => True).
  { destruct o as [t l|m]; [by apply hoare_exige; [apply hoare_r_quiza|]|by apply hoare_ret]. }
  intros lee _. apply hoare_bind with (P := fun a => plan a = p /\ trozos a = 0 /\
    holgura (log_head sb) (2 ^ 46) (Z.to_nat (por_nivel p !!! 0%nat) + 6) 0 a).
  { apply hoare_puro. intros a. unfold nuevo. case_if; [done|]. intros [= <-]. cbn [plan trozos].
    destruct (cursores_cota (2 ^ 26) (por_nivel p) c Hf ltac:(lia)) as [Hcl Hci]; [rewrite Hl; unfold FILAS, NIVELES_MAX; lia|].
    assert (H0 : 0 <= por_nivel p !!! 0%nat <= 2 ^ 26)
      by (apply (Forall_lookup_total_1 _ _ _ Hf); rewrite Hl; unfold FILAS; lia).
    split_and!; [done..|]. split_and!; [cbn; by rewrite Hcl|done|]. intros i Hi. cbn [cursor].
    rewrite decide_False by lia. rewrite <- Hl in Hi. specialize (Hci i Hi).
    rewrite Hl in Hi. unfold FILAS, NIVELES_MAX in Hi. lia. }
  intros a (Hpa & Ht & Hh).
  assert (H0 : 0 <= por_nivel p !!! 0%nat <= 2 ^ 26)
    by (apply (Forall_lookup_total_1 _ _ _ Hf); rewrite Hl; unfold FILAS; lia).
  eapply hoare_bind; [eapply (traer_loop_triple lee _ _ _ a); [exact Hh|lia|rewrite Hpa; lia|rewrite Hpa; lia]|].
  intros a' Ha'. apply hoare_bind with (P := fun _ => True); [|intros; by apply hoare_puro].
  intros v v' r Hv. destruct (cerrar poner_bool a' v) as [v1 r1] eqn:E.
  eapply (cerrar_rel llega llega_refl llega_trans poner_bool (log_head sb) (2 ^ 46) poner_bool_llega) in E;
    [|lia|exact Ha'].
  destruct r1; intros [= <- <-]; (split; [by apply E|done]).
Qed.

Lemma leer_entradas_triple a : triple (leer_entradas a) (fun _ => True).
Proof. unfold leer_entradas. case_if; [apply hoare_falla|]. by apply hoare_exige; [apply flujo_lee|]. Qed.

Lemma bajar_ruta_triple ts : forall nodos padre ns, (length ns <= HONDO_MAX)%nat ->
  triple (bajar_ruta ts nodos padre ns) (fun r => (length (snd r) <= HONDO_MAX)%nat).
Proof.
  induction ts as [|t ts IH]; intros nodos padre ns Hn; cbn [bajar_ruta]; [by apply hoare_ret|].
  case_if; [by apply IH|]. case_if; [apply hoare_falla|]. apply Nat.ltb_ge in Heqb1.
  eapply hoare_bind; [apply hoare_exige with (Q := fun _ => True); [apply buscar_en_lee|done]|]. intros p _.
  eapply hoare_bind; [apply hoare_exige with (Q := fun _ => True); [apply nodo_en_lee|done]|]. intros n _.
  destruct (tipo n); [apply hoare_falla|]. apply IH. rewrite length_app. cbn [length]. lia.
Qed.

Lemma resolver_triple ruta : triple (resolver ruta) (fun r => (length (snd r) <= HONDO_MAX)%nat).
Proof.
  eapply hoare_bind; [apply hoare_exige with (Q := fun _ => True); [apply raiz_dir_lee|done]|].
  intros r _. apply bajar_ruta_triple. cbn. lia.
Qed.

Lemma abrir_triple : triple (abrir sb) (fun t => exists c, (c = SUPER_A_BLOCK \/ c = SUPER_B_BLOCK) /\
  t = mkTransaccion (log_head sb) (log_head sb) (total_blocks sb) (generation sb) sb c Datos).
Proof.
  intros v v' r _. unfold abrir. pose proof (copia_en_uso_sigue S ref v) as H.
  pose proof (copia_en_uso_copia v) as Hc. destruct (copia_en_uso v) as [v1 c]. cbn [fst snd] in *.
  destruct (open sb c (identidad_ok v1)) as [t|e] eqn:E; intros [= <- <-]; (split; [done|]); [|done].
  apply open_spec in E as [_ ->]. by exists c.
Qed.

(** A transaction in its first phase, with [n] blocks reserved from the old log head. *)
Definition en_datos (t : Transaccion) : Prop :=
  exists c, (c = SUPER_A_BLOCK \/ c = SUPER_B_BLOCK) /\ log_head sb <= t_log_head t <= Z.max (log_head sb) (total_blocks sb) /\
  t = mkTransaccion (t_log_head t) (log_head sb) (total_blocks sb) (generation sb) sb c Datos.

Hypothesis Htot : total_blocks sb <= 2 ^ 45 /\ log_head sb <= 2 ^ 45.

Lemma reservar_triple t n : 0 <= n ->
  (exists c, (c = SUPER_A_BLOCK \/ c = SUPER_B_BLOCK) /\
    t = mkTransaccion (log_head sb) (log_head sb) (total_blocks sb) (generation sb) sb c Datos) ->
  triple (reservar t n) (fun r => en_datos (fst r) /\ cabe (2 ^ 45) (snd r)).
Proof.
  intros Hn (c & Hc & ->). unfold reservar, reserve. cbn [fase t_log_head t_total].
  rewrite bool_decide_eq_true_2 by done. cbn [negb].
  assert (H45 : cabe (2 ^ 45) (log_head sb)) by (unfold cabe; lia).
  case_if; [apply hoare_ret; split; [|done]; exists c; split_and!; [done|cbn; lia..|done]|].
  unfold checked_add. destruct (decide (_ < _)); [|apply hoare_falla]. case_if; [apply hoare_falla|]. bdestr.
  apply hoare_ret. split; [|done]. exists c. cbn. split_and!; [done|lia..|done].
Qed.

Lemma republicar_triple este ent n c : cabe (n + 2) c -> 0 <= n ->
  triple (republicar este ent c) (fun r => ptr_ok (fst r) /\ cabe n (snd r)).
Proof.
  intros Hc Hn. unfold republicar. apply hoare_bind with (P := fun _ => True).
  { destruct (attr este ATTR_ENTRADAS); [apply leer_entradas_triple|by apply hoare_ret]. }
  intros previas _. apply hoare_bind with (P := fun _ => True); [by apply hoare_puro|].
  intros [blk k] _. eapply hoare_bind; [apply (poner_cabe (n + 2)); [done|lia]|]. intros [] _. cbv zeta.
  assert (Hc1 : cabe (n + 1) (w64 (c + 1))) by (apply cabe_mas; [by replace (n + 1 + 1) with (n + 2) by lia|lia..]).
  apply hoare_bind with (P := fun _ => True).
  { case_if; [by apply hoare_ret|by apply hoare_puro]. }
  intros nd _. eapply hoare_bind; [apply (poner_cabe (n + 1)); [done|lia]|]. intros [] Hl.
  apply hoare_ret. split; [by apply (cabe_ok (n + 1)); [|lia|]|]. by apply cabe_mas; [|lia..].
Qed.

Lemma subir_rama_triple rama : forall hijo n c, cabe (n + 2 * Z.of_nat (length rama)) c -> 0 <= n -> ptr_ok hijo ->
  triple (subir_rama rama hijo c) (fun r => ptr_ok (fst r) /\ cabe n (snd r)).
Proof.
  induction rama as [|[este nombre] rama IH]; intros hijo n c Hc Hn Hp; cbn [subir_rama].
  { apply hoare_ret. cbn [fst snd length] in *. by replace n with (n + 2 * Z.of_nat 0) by lia. }
  case_if.
  - apply hoare_bind with (P := fun _ => True); [|intros; apply hoare_falla].
    destruct (attr este ATTR_ENTRADAS); [apply leer_entradas_triple|by apply hoare_ret].
  - eapply hoare_bind; [apply (republicar_triple _ _ (n + 2 * Z.of_nat (length rama))); [|lia]|].
    + unfold cabe in *. cbn [length] in Hc. lia.
    + intros [h c'] [H1 H2]. by apply IH.
Qed.
End Previo.

(** ** The commit: one sector, and a cut in the middle of it *)

Lemma pick_nuevo a b s c n s' :
  pick_superblock a b = Ok (s, c) -> super_decode n = Ok s' -> generation s < generation s' ->
  pick_superblock n b = Ok (s', SUPER_A_BLOCK) /\ pick_superblock a n = Ok (s', SUPER_B_BLOCK).
Proof.
  unfold pick_superblock. intros H -> Hg. destruct (super_decode a) as [sa|], (super_decode b) as [sb|]; try done.
  - case_if_in H; injection H as <- <-; bdestr;
      rewrite (proj2 (Z.leb_le _ _)), (proj2 (Z.leb_gt _ _)) by lia; done.
  - injection H as <- <-. rewrite (proj2 (Z.leb_gt _ _)) by lia. done.
  - injection H as <- <-. rewrite (proj2 (Z.leb_le _ _)) by lia. done.
Qed.

(** Sector [n] may have landed on [dst]; everything else is [P]. *)
Definition dudoso (n : list Z) (P : Z -> list Z) (dst : Z) (t : (Z -> list Z) * list (Z * list Z)) : Prop :=
  (forall l, l <> dst -> fst t l = P l /\ forall x, ~ In (l, x) (snd t)) /\
  (fst t dst = P dst \/ fst t dst = n) /\ (forall x, In (dst, x) (snd t) -> x = n).

Lemma dudoso_corte n P dst t img : dudoso n P dst t -> corte (fst t) (snd t) img ->
  (forall l, l <> dst -> img l = P l) /\ (img dst = P dst \/ img dst = n).
Proof.
  intros (H1 & H2 & H3) Hc. split.
  - intros l Hl. destruct (H1 l Hl) as [<- Hn]. destruct (Hc l) as [|Hin]; [done|by apply Hn in Hin].
  - destruct (Hc dst) as [->|Hin%H3]; [done|by right].
Qed.

Lemma elige_dudoso b x n P dst img s c :
  dst = b \/ dst = b + 8 -> elige b P = Ok (s, c) -> super_decode x = Ok n ->
  generation s < generation n ->
  (forall l, l <> dst -> img l = P l) -> img dst = P dst \/ img dst = x ->
  elige b img = Ok (s, c) \/ exists c', elige b img = Ok (n, c').
Proof.
  unfold elige. intros Hd He Hn Hg Ho Hx. destruct Hd as [-> | ->].
  - rewrite (Ho (b + 8)) by lia. destruct Hx as [-> | ->]; [by left|right].
    exists SUPER_A_BLOCK. by apply (pick_nuevo _ _ _ _ _ _ He).
  - rewrite (Ho b) by lia. destruct Hx as [-> | ->]; [by left|right].
    exists SUPER_B_BLOCK. by apply (pick_nuevo _ _ _ _ _ _ He).
Qed.

(** The write of the superblock: at most its one sector is pending. *)
Lemma write_super_dudoso d lba n d' k :
  is_u64 lba -> vuelo d = [] -> length n = 512%nat ->
  write d lba 1 (n) = (d', k) ->
  misma d d' /\ plato d' = plato d /\ dudoso n (plato d) lba (plato d', vuelo d') /\
  (forall t, In t (traza d') -> In t (traza d) \/ dudoso n (plato d) lba t) /\
  (k = 1%nat -> vuelo d' = [(lba, n)]).
Proof.
  intros Hl Hv Hlen. unfold write.
  assert (H0 : forall w, w = [] \/ w = [(lba, n)] -> dudoso n (plato d) lba (plato d, w)).
  { intros w Hw. split_and!; cbn [fst snd].
    - intros l Hne. split; [done|]. intros x Hx. destruct Hw as [-> | ->]; [done|]. destruct Hx as [[= ? ?]|[]]. lia.
    - by left.
    - intros x Hx. destruct Hw as [-> | ->]; [done|]. by destruct Hx as [[= ?]|[]]. }
  assert (Hq : d' = d /\ k = 0%nat -> misma d d' /\ plato d' = plato d /\ dudoso n (plato d) lba (plato d', vuelo d') /\
    (forall t, In t (traza d') -> In t (traza d) \/ dudoso n (plato d) lba t) /\
    (k = 1%nat -> vuelo d' = [(lba, n)])).
  { intros [-> ->]. split_and!; [apply misma_refl|done|apply H0; by left|by left|done]. }
  destruct (write_window d lba _); [|intros [= <- <-]; by apply Hq].
  case_if; [intros [= <- <-]; by apply Hq|]. case_if; [intros [= <- <-]; by apply Hq|].
  cbn [write_loop]. change (0 <? 1)%nat with true. cbv iota zeta. change (1 - 0)%nat with 1%nat.
  change (Nat.min 1 8) with 1%nat. unfold ahci_write. rewrite Z.add_0_r, w64_small by done.
  change (0 * SECTOR)%nat with 0%nat. rewrite drop_0.
  destruct (siguiente d) as [d1 s] eqn:E. apply siguiente_spec in E as (E1 & E2 & E3 & E4).
  assert (Ha : forall m, (m <= 1)%nat -> aceptar (vuelo d1) lba (n) m =
    if decide (m = 0%nat) then [] else [(lba, n)]).
  { intros [|[|]] Hm; [by rewrite E3, Hv| |lia]. cbn [aceptar]. rewrite E3, Hv. rewrite take_ge by (by rewrite Hlen).
    done. }
  set (m := match s with Va => 1%nat | Corta n0 | Rota n0 => Nat.min n0 1 end).
  assert (Hm : (m <= 1)%nat) by (unfold m; destruct s; lia).
  set (d2 := con_medio d1 (plato d1) (aceptar (vuelo d1) lba (n) m)).
  assert (Hw : aceptar (vuelo d1) lba (n) m = [] \/ aceptar (vuelo d1) lba (n) m = [(lba, n)])
    by (rewrite Ha by done; case_decide; auto).
  assert (Hd2 : misma d d2 /\ plato d2 = plato d /\ dudoso n (plato d) lba (plato d2, vuelo d2) /\
    (forall t, In t (traza d2) -> In t (traza d) \/ dudoso n (plato d) lba t)).
  { split_and!; [exact E1|exact E2| |].
    - cbn [d2 con_medio plato vuelo]. rewrite E2. by apply H0.
    - intros t [<-|Ht]; [right|left; by rewrite <- E4]. rewrite E2. by apply H0. }
  assert (Hm1 : m <> 0%nat -> vuelo d2 = [(lba, n)])
    by (intros Hx; cbn [d2 con_medio plato vuelo]; rewrite Ha by done; by rewrite decide_False).
  destruct Hd2 as (G1 & G2 & G3 & G4). clearbody d2.
  assert (Hfin : forall k', (k' = 1%nat -> m <> 0%nat) -> (d2, k') = (d', k) -> misma d d' /\ plato d' = plato d /\
    dudoso n (plato d) lba (plato d', vuelo d') /\
    (forall t, In t (traza d') -> In t (traza d) \/ dudoso n (plato d) lba t) /\
    (k = 1%nat -> vuelo d' = [(lba, n)])) by (intros k' Hk [= <- <-]; split_and!; auto).
  destruct s; cbn [Nat.eqb Nat.ltb Nat.leb]; subst m.
  - intros H. by apply (Hfin 1%nat).
  - destruct n0 as [|n0]; [by apply Hfin|]. cbn [Nat.min Nat.eqb Nat.ltb Nat.leb].
    rewrite Nat.min_0_r. cbn. by apply Hfin.
  - by apply Hfin.
Qed.

(** ** A healthy volume *)

(** The two sectors of the superblocks are whole. *)
Definition largos (b : Z) (P : Z -> list Z) : Prop := length (P b) = SUPER_LEN /\ length (P (b + 8)) = SUPER_LEN.

(** What is mounted is what the disk would mount; no pending write touches the
    superblocks or a block that a version already uses. *)
Record sano (v : Vol) (sb : Superblock) : Prop := {
  sa_super : super v = Some sb; sa_ok : super_ok sb;
  sa_geo : 0 <= base_lba v < 2 ^ 48 /\ total_blocks sb <= 2 ^ 45 /\ log_head sb <= 2 ^ 45;
  sa_elige : exists c, elige (base_lba v) (plato (disco v)) = Ok (sb, c);
  sa_largo : largos (base_lba v) (plato (disco v));
  sa_vuelo l x : In (l, x) (vuelo (disco v)) -> ~ protegido (base_lba v) (log_head sb) l
}.

Lemma sano_intacto v sb : sano v sb ->
  intacto (protegido (base_lba v) (log_head sb)) (plato (disco v)) (plato (disco v)) (vuelo (disco v)).
Proof. intros H l Hl. split; [done|]. intros x Hx. by apply (sa_vuelo _ _ H l x). Qed.

(** What the plate [P] guarantees a cut image: the old version with its blocks,
    or the next one with its blocks; the old blocks in both cases. *)
Definition recupera (b : Z) (sb : Superblock) (ref P : Z -> list Z) (img : Z -> list Z) : Prop :=
  largos b img /\ (forall l, datos_de b (log_head sb) l -> img l = ref l) /\
  ((exists c, elige b img = Ok (sb, c)) \/
   exists sb' c, elige b img = Ok (sb', c) /\ generation sb' = generation sb + 1 /\
     log_head sb <= log_head sb' /\ forall l, datos_de b (log_head sb') l -> img l = P l).

Section Cierre.
Variables (b : Z) (sb : Superblock) (ref : Z -> list Z) (c0 : Z).
Notation S := (protegido b (log_head sb)).
Hypothesis Hgeo : 0 <= b < 2 ^ 48 /\ 2 <= log_head sb.
Hypothesis Htot : total_blocks sb <= 2 ^ 45 /\ log_head sb <= 2 ^ 45.
Hypothesis Hok : super_ok sb.
Hypothesis Hgen : generation sb + 1 < 2 ^ 64.
Hypothesis Helige : elige b ref = Ok (sb, c0).
Hypothesis Hlargos : largos b ref.

Lemma elige_igual P : (forall l, S l -> P l = ref l) -> elige b P = Ok (sb, c0).
Proof. intros H. unfold elige. rewrite !H by (unfold protegido; auto). exact Helige. Qed.

Lemma largos_igual P : (forall l, S l -> P l = ref l) -> largos b P.
Proof. intros H. unfold largos. rewrite !H by (unfold protegido; auto). exact Hlargos. Qed.

Lemma bueno_recupera P t img : bueno S ref t -> corte (fst t) (snd t) img -> recupera b sb ref P img.
Proof.
  intros Ht Hc. pose proof (intacto_corte S ref _ _ _ Ht Hc) as Hi. split; [by apply largos_igual|split].
  - intros l Hl. apply Hi. by right; right.
  - left. exists c0. by apply elige_igual.
Qed.

Definition nuevo_de (t : Transaccion) (p : BlockPtr) : Superblock :=
  mkSuper (version sb) (block_size sb) (generation sb + 1) (total_blocks sb) (t_log_head t) (s_disk_id sb) p.

Lemma nuevo_de_ok t p : en_datos sb t -> ptr_ok p -> super_ok (nuevo_de t p).
Proof.
  destruct Hok as [K1 K2 K3 K4 K5 K6 K7 K8]. intros (c & _ & Hl & _) Hp.
  split; cbn [nuevo_de version block_size generation total_blocks log_head s_disk_id estrato]; try done;
    unfold is_u64 in *; lia.
Qed.

Lemma dudoso_recupera t p P dst tau img :
  en_datos sb t -> ptr_ok p -> dst = b \/ dst = b + 8 -> (forall l, S l -> P l = ref l) ->
  dudoso (super_encode (nuevo_de t p)) P dst tau -> corte (fst tau) (snd tau) img -> recupera b sb ref P img.
Proof.
  intros Ht Hp Hd HP Hdu Hc. destruct (dudoso_corte _ _ _ _ _ Hdu Hc) as [Ho Hx].
  assert (Hdat : forall h l, datos_de b h l -> l <> dst) by (unfold datos_de; lia).
  assert (Hlen : length (super_encode (nuevo_de t p)) = SUPER_LEN) by (by apply length_super_encode, nuevo_de_ok).
  pose proof (largos_igual P HP) as HL. split; [|split].
  { destruct HL as [L1 L2]. unfold largos. destruct Hd as [-> | ->]; [rewrite (Ho (b + 8)) by lia|rewrite (Ho b) by lia];
      destruct Hx as [-> | ->]; by split. }
  - intros l Hl. rewrite Ho by (by eapply Hdat). apply HP. by right; right.
  - destruct (elige_dudoso b (super_encode (nuevo_de t p)) (nuevo_de t p) P dst img sb c0 Hd (elige_igual P HP))
      as [E|[c' E]]; [|cbn; lia|exact Ho|exact Hx| |].
    + rewrite <- (app_nil_r (super_encode _)). by apply super_roundtrip_app, nuevo_de_ok.
    + left. by exists c0.
    + right. exists (nuevo_de t p), c'. split; [exact E|]. split; [done|].
      destruct Ht as (c & _ & Hl & _). split; [cbn; lia|]. intros l Hl'. apply Ho. by eapply Hdat.
Qed.

Lemma flush_disco_spec v v' ok : flush_disco v = (v', ok) ->
  misma_v v v' /\
  (forall t, In t (traza (disco v')) -> In t (traza (disco v)) \/ t = (plato (disco v'), vuelo (disco v'))) /\
  (if ok then plato (disco v') = visible (plato (disco v)) (vuelo (disco v)) /\ vuelo (disco v') = []
   else plato (disco v') = plato (disco v) /\ vuelo (disco v') = vuelo (disco v)).
Proof.
  assert (H : forall d d' ok, flush d = (d', ok) -> misma d d' /\
    (forall t, In t (traza d') -> In t (traza d) \/ t = (plato d', vuelo d')) /\
    (if ok then plato d' = visible (plato d) (vuelo d) /\ vuelo d' = [] else plato d' = plato d /\ vuelo d' = vuelo d)).
  { intros d d' o. unfold flush. case_if; [intros [= <- <-]; by split_and!; [apply misma_refl|left|..]|].
    unfold ahci_flush. destruct (siguiente d) as [d1 s] eqn:E. apply siguiente_spec in E as (E1 & E2 & E3 & E4).
    destruct s; intros [= <- <-].
    - split_and!; [exact E1| |cbn; by rewrite E2, E3|done].
      intros t [<-|Ht]; [by right|left; by rewrite <- E4].
    - split_and!; [exact E1| |exact E2|exact E3]. intros t Ht. left. by rewrite <- E4.
    - split_and!; [exact E1| |exact E2|exact E3]. intros t Ht. left. by rewrite <- E4. }
  unfold flush_disco. destruct (flush (disco v)) as [d o] eqn:E. intros [= <- <-].
  destruct (H _ _ _ E) as (H1 & H2 & H3). split_and!; [split; [exact H1|by split_and!]|exact H2|exact H3].
Qed.

Lemma recupera_P P P' img : (forall h l, datos_de b h l -> P l = P' l) ->
  recupera b sb ref P img -> recupera b sb ref P' img.
Proof.
  intros H (H0 & H1 & [H2|(s & c & H2 & H3 & H4 & H5)]); (split; [exact H0|split; [exact H1|]]); [by left|right].
  exists s, c. split_and!; [done..|]. intros l Hl. rewrite <- (H _ l Hl). by apply H5.
Qed.

(** A moment is safe when every cut of it recovers. *)
Definition a_salvo (P : Z -> list Z) (tau : (Z -> list Z) * list (Z * list Z)) : Prop :=
  forall img, corte (fst tau) (snd tau) img -> recupera b sb ref P img.

(** The new superblock's write and the last barrier. *)
Lemma publica_super t p dst v v' r :
  en_datos sb t -> ptr_ok p -> dst = SUPER_A_BLOCK \/ dst = SUPER_B_BLOCK -> base_lba v = b -> vuelo (disco v) = [] ->
  (forall l, S l -> plato (disco v) l = ref l) ->
  (let n := nuevo_de t p in
   match write_superblock dst (super_encode n) v with
   | (v, false) => (v, Err NoEscribio)
   | (v, true) => match flush_disco v with
                  | (v, false) => (v, Err SinBarrera)
                  | (v, true) => (fijar_superbloque v n, Ok n)
                  end
   end) = (v', r) ->
  exists s', misma_v v s' /\ disco v' = disco s' /\ v' = match r with Ok n => fijar_superbloque s' n | Err _ => s' end /\
  (forall l, datos_de b (t_log_head t) l -> plato (disco v') l = plato (disco v) l) /\
  (forall tau, In tau ((plato (disco v'), vuelo (disco v')) :: traza (disco v')) ->
     In tau (traza (disco v)) \/ a_salvo (plato (disco v')) tau) /\
  match r with
  | Ok n => n = nuevo_de t p /\ vuelo (disco v') = [] /\ largos b (plato (disco v')) /\
            exists c, elige b (plato (disco v')) = Ok (n, c)
  | Err e => e = SinBarrera \/ e = NoEscribio
  end.
Proof.
  intros Ht Hp Hd Hb Hv HP. cbv zeta. unfold write_superblock. rewrite Hb.
  set (lba := lba_de b dst). assert (El : lba = b \/ lba = b + 8).
  { unfold lba, lba_de. change (Z.of_nat SECTORES_POR_BLOQUE) with 8.
    destruct Hd as [-> | ->]; unfold SUPER_A_BLOCK, SUPER_B_BLOCK; rewrite (w64_small (_ * 8)) by (unfold is_u64; lia);
      rewrite w64_small by (unfold is_u64; lia); lia. }
  set (P := plato (disco v)) in *. set (enc := super_encode (nuevo_de t p)).
  assert (Hlen : length enc = 512%nat) by (by apply length_super_encode, nuevo_de_ok).
  assert (Hdud : forall P' tau, (forall l, l <> lba -> P' l = P l) -> dudoso enc P lba tau -> a_salvo P' tau).
  { intros P' tau HP' Hdu img Hc. apply (recupera_P P).
    - intros h l Hl. symmetry. apply HP'. unfold datos_de in Hl. lia.
    - by apply (dudoso_recupera t p P lba tau). }
  destruct (write (disco v) lba 1 enc) as [d k] eqn:E.
  destruct (write_super_dudoso (disco v) lba enc d k) as (A1 & A2 & A3 & A4 & A5); [unfold is_u64; lia|done..|].
  fold P in A2, A3, A4.
  assert (Hm : misma_v v (con_disco v d)) by (split; [exact A1|by split_and!]).
  assert (Hq : Nat.eqb k 1 = false \/ Nat.eqb k 1 = true) by (destruct (Nat.eqb k 1); auto).
  destruct Hq as [Hk|Hk]; rewrite Hk.
  - intros [= <- <-]. exists (con_disco v d). split_and!; [done..| | |by right].
    + intros l _. cbn [disco con_disco]. by rewrite A2.
    + cbn [disco con_disco]. intros tau [<-|[Ht'|Ht']%A4]; [right|by left|right].
      * apply Hdud; [by intros; rewrite A2|exact A3].
      * apply Hdud; [by intros; rewrite A2|exact Ht'].
  - apply Nat.eqb_eq in Hk. specialize (A5 Hk). destruct (flush_disco (con_disco v d)) as [v1 o] eqn:Ef.
    apply flush_disco_spec in Ef as (B1 & B2 & B3). cbn [disco con_disco] in B2, B3.
    assert (B1' := misma_v_trans _ _ _ Hm B1).
    assert (Hcur : (forall l, l <> lba -> plato (disco v1) l = P l) /\ dudoso enc P lba (plato (disco v1), vuelo (disco v1))).
    { destruct o; destruct B3 as [-> ->]; rewrite ?A5, A2; [|split; [done|rewrite A5, A2 in A3; exact A3]].
      cbn [visible]. split; [intros l Hl; by rewrite (proj2 (Z.eqb_neq _ _)) by lia|].
      split_and!; cbn [fst snd]; [|right; by rewrite Z.eqb_refl|done].
      intros l Hl. rewrite (proj2 (Z.eqb_neq _ _)) by lia. split; [done|by intros ? []]. }
    destruct Hcur as [Hout Hcur].
    assert (Hst : forall tau, In tau ((plato (disco v1), vuelo (disco v1)) :: traza (disco v1)) ->
      In tau (traza (disco v)) \/ a_salvo (plato (disco v1)) tau).
    { intros tau [<-|[Ht'| ->]%B2]; [right; by apply Hdud| |right; by apply Hdud].
      apply A4 in Ht' as [|Ht']; [by left|right; by apply Hdud]. }
    assert (Hdat : forall l, datos_de b (t_log_head t) l -> plato (disco v1) l = P l)
      by (intros l Hl; apply Hout; unfold datos_de in Hl; lia).
    destruct o; intros [= <- <-]; exists v1;
      (split; [exact B1'|split; [done|split; [done|split; [exact Hdat|split; [exact Hst|]]]]]); [|by left].
    split; [done|]. destruct B3 as [B3 B4]. split; [done|].
    cbn [fijar_superbloque disco]. rewrite B3, A5, A2. split.
    { destruct (largos_igual P HP) as [L1 L2]. unfold largos. cbn [visible].
      destruct El as [-> | ->]; rewrite Z.eqb_refl, (proj2 (Z.eqb_neq _ _)) by lia; by split. }
    unfold elige. cbn [visible]. pose proof (elige_igual P HP) as E0. unfold elige in E0.
    assert (En : super_decode enc = Ok (nuevo_de t p))
      by (rewrite <- (app_nil_r enc); by apply super_roundtrip_app, nuevo_de_ok).
    destruct (pick_nuevo _ _ _ _ _ _ E0 En ltac:(cbn; lia)) as [Ha' Hb'].
    destruct El as [-> | ->]; rewrite Z.eqb_refl.
    + rewrite (proj2 (Z.eqb_neq _ _)) by lia. by exists SUPER_A_BLOCK.
    + rewrite (proj2 (Z.eqb_neq _ _)) by lia. by exists SUPER_B_BLOCK.
Qed.
Definition momento (v : Vol) : (Z -> list Z) * list (Z * list Z) := (plato (disco v), vuelo (disco v)).

(** The result of an operation that publishes, and every moment on the way. *)
Definition resulta (v v' : Vol) (r : result Z WriteError) : Prop :=
  base_lba v' = b /\
  (forall tau, In tau (momento v' :: traza (disco v')) ->
     In tau (traza (disco v)) \/ a_salvo (plato (disco v')) tau) /\
  match r with
  | Ok g => exists n, sano v' n /\ g = generation n /\ generation n = generation sb + 1 /\ log_head sb <= log_head n
  | Err e => super v' = Some sb /\ (e = SinBarrera \/ e = NoEscribio \/ bueno S ref (momento v'))
  end.

Definition compromete (m : M Z) : Prop := forall v v' r,
  base_lba v = b -> super v = Some sb -> bueno S ref (momento v) -> m v = (v', r) -> resulta v v' r.

(** What only touches free blocks. *)
Lemma resulta_sigue v1 v2 v' r : sigue S ref v1 v2 -> bueno S ref (momento v1) -> resulta v2 v' r -> resulta v1 v' r.
Proof.
  intros [H1 H2 H3] Hb (A1 & A2 & A3). split; [done|split; [|done]].
  intros tau [Ht|Ht]%A2; [|by right]. destruct (H3 tau Hb Ht) as [|Hbu]; [by left|right].
  intros img. by apply bueno_recupera.
Qed.

Lemma resulta_error v v' e : base_lba v = b -> super v = Some sb -> bueno S ref (momento v) -> sigue S ref v v' ->
  resulta v v' (Err e).
Proof.
  intros Hb Hs Hbu Hv. apply (resulta_sigue v v'); [done..|]. pose proof Hv as [(_&_&E&_&E2&_) H2 _].
  split; [congruence|split; [|split; [congruence|right; right; by apply H2]]].
  intros tau [<-|Ht]; [right|by left]. intros img. apply bueno_recupera. by apply H2.
Qed.

Lemma compromete_falla e : compromete (falla e).
Proof. intros v v' r Hb Hs Hbu [= <- <-]. apply resulta_error; [done..|apply sigue_refl]. Qed.

Lemma compromete_bind {A} (m : M A) (k : A -> M Z) P :
  hoare S ref b m P -> (forall x, P x -> compromete (k x)) -> compromete (bind m k).
Proof.
  intros Hm Hk v v' r Hb Hs Hbu. unfold bind. destruct (m v) as [v1 [x|e]] eqn:E.
  - destruct (Hm v v1 _ Hb E) as [H1 Hx]. intros H. apply (resulta_sigue v v1); [done..|].
    pose proof H1 as [(_&_&E1&_&E2&_) H2 _]. apply (Hk x Hx) in H; [done|congruence|congruence|by apply H2].
  - intros [= <- <-]. destruct (Hm v v1 _ Hb E) as [H1 _]. by apply resulta_error.
Qed.

Lemma compromete_super (k : Superblock -> M Z) : compromete (k sb) -> compromete (bind el_superbloque k).
Proof. intros H v v' r Hb Hs Hbu. unfold bind, el_superbloque, superbloque. rewrite Hs. by apply H. Qed.

Lemma compromete_lee (m : Vol -> M Z) : (forall w, compromete (m w)) -> compromete (fun v => m v v).
Proof. intros H v v' r. apply H. Qed.

(** [publica_super]'s lines. *)
Definition publicacion (dst : Z) (n : Superblock) (v : Vol) : Vol * result Superblock WriteError :=
  match write_superblock dst (super_encode n) v with
  | (v, false) => (v, Err NoEscribio)
  | (v, true) => match flush_disco v with
                 | (v, false) => (v, Err SinBarrera)
                 | (v, true) => (fijar_superbloque v n, Ok n)
                 end
  end.

Lemma cierre_eq t p : en_datos sb t -> exists dst, (dst = SUPER_A_BLOCK \/ dst = SUPER_B_BLOCK) /\
  forall v, cierre t p v = match flush_disco v with
                           | (v, false) => (v, Err SinBarrera)
                           | (v, true) => publicacion dst (nuevo_de t p) v
                           end.
Proof.
  intros (c & Hc & Hl & Et). exists (if c =? SUPER_A_BLOCK then SUPER_B_BLOCK else SUPER_A_BLOCK).
  split; [case_if; auto|]. intros v. unfold cierre, nuevo_de. set (h := t_log_head t) in *. rewrite Et.
  unfold cerrar_datos, barrera_hecha, commit. cbn [fase con_fase t_log_head]. cbv zeta.
  rewrite bool_decide_eq_true_2 by done. cbn [negb]. destruct (flush_disco v) as [v1 [|]]; [|done].
  rewrite !bool_decide_eq_true_2 by done. cbn [negb generacion origen t_copia_en_uso con_fase t_log_head].
  rewrite (w64_small (generation sb + 1)) by (destruct Hok; unfold is_u64 in *; lia). done.
Qed.

Lemma compromete_cierre t p (k : Superblock -> M Z) :
  en_datos sb t -> ptr_ok p ->
  (forall n v, exists f, k n v = (con_fecha v f, Ok (generation n))) -> compromete (bind (cierre t p) k).
Proof.
  intros Ht Hp Hk v v' r Hb Hs Hbu. unfold bind. destruct (cierre_eq t p Ht) as (dst & Hd & ->).
  destruct (flush_disco v) as [v1 o] eqn:E. pose proof E as (_ & _ & B3)%flush_disco_spec.
  assert (Hsi : sigue S ref v v1).
  { unfold flush_disco in E. destruct (flush (disco v)) as [d o'] eqn:Ef. injection E as <- _. by eapply flush_sigue. }
  destruct o; [|intros [= <- <-]; by apply resulta_error]. destruct B3 as [_ B3].
  pose proof Hsi as [(_&_&E1&_&E2&_) H2 _]. specialize (H2 Hbu).
  destruct (publicacion dst (nuevo_de t p) v1) as [v2 r2] eqn:Ep.
  apply (publica_super t p dst v1 v2 r2 Ht Hp Hd ltac:(congruence) B3) in Ep as (s' & C1 & C2 & C3 & C4 & C5 & C6);
    [|intros l Hl; by apply H2]. destruct C1 as (_&_&F1&_&F2&_).
  intros Hr. apply (resulta_sigue v v1); [done..|]. destruct r2 as [n|e].
  - destruct C6 as (-> & C6 & C8 & C7). destruct (Hk (nuevo_de t p) v2) as [f Hf]. rewrite Hf in Hr. injection Hr as <- <-.
    subst v2. assert (Hbase : base_lba s' = b) by congruence.
    split; [exact Hbase|split; [exact C5|]]. exists (nuevo_de t p). pose proof Ht as (c & _ & Hl & _).
    split; [|split; [done|split; [done|cbn; lia]]].
    split; [done|by apply nuevo_de_ok| | | |].
    + cbn [con_fecha fijar_superbloque base_lba nuevo_de total_blocks log_head]. rewrite Hbase. lia.
    + cbn [con_fecha fijar_superbloque base_lba disco]. rewrite Hbase. exact C7.
    + cbn [con_fecha fijar_superbloque base_lba disco]. rewrite Hbase. exact C8.
    + cbn [con_fecha fijar_superbloque disco] in C6 |- *. by rewrite C6.
  - injection Hr as <- <-. subst v2. split; [congruence|split; [exact C5|]]. split; [congruence|tauto].
Qed.

(** ** The gestures *)

Lemma compromete_abrir (k : Transaccion -> M Z) :
  (forall t, (exists c, (c = SUPER_A_BLOCK \/ c = SUPER_B_BLOCK) /\
    t = mkTransaccion (log_head sb) (log_head sb) (total_blocks sb) (generation sb) sb c Datos) -> compromete (k t)) ->
  compromete (bind (abrir sb) k).
Proof. intros H. eapply compromete_bind; [apply abrir_triple|exact H]. Qed.

(** Writing a stratum and publishing it. *)
Lemma compromete_estrato t cursor raiz motivo : en_datos sb t -> cabe sb 1 cursor ->
  compromete (fun v =>
    let cuando := ahora v in
    let bytes := estrato_encode (estrato_new raiz (estrato sb) cuando (Proceso (pid v)) motivo) in
    (_ <~ poner cursor bytes ;;
     nuevo <~ cierre t (ptr_nuevo cursor 0 bytes) ;;
     fun v => (con_fecha v cuando, Ok (generation nuevo))) v).
Proof.
  intros Ht Hc.
  apply (compromete_lee (fun w => let cuando := ahora w in
    let bytes := estrato_encode (estrato_new raiz (estrato sb) cuando (Proceso (pid w)) motivo) in
    _ <~ poner cursor bytes ;;
    nuevo <~ cierre t (ptr_nuevo cursor 0 bytes) ;; fun v => (con_fecha v cuando, Ok (generation nuevo)))).
  intros w. cbv zeta. eapply compromete_bind; [by apply (poner_cabe b sb ref Hgeo 1); [|lia]|]. intros [] Hl.
  apply compromete_cierre; [done|by apply (cabe_ok b sb ref Hgeo 1 cursor); [exact Hc|lia|exact Hl]|]. intros n v. by exists (ahora w).
Qed.

Lemma compromete_publicar_estrato raiz motivo : compromete (publicar_estrato sb raiz motivo).
Proof.
  apply compromete_abrir. intros t Ht. eapply compromete_bind; [by apply (reservar_triple b sb ref Htot); [lia|]|].
  intros [t' c] [H1 H2]. apply compromete_estrato; [done|]. unfold cabe in *. cbn [snd] in *. lia.
Qed.

Lemma compromete_seal : compromete seal.
Proof.
  apply compromete_super, compromete_abrir. intros t (c & Hc & Et). apply compromete_cierre.
  - exists c. subst t. cbn. split_and!; [done|lia|lia|done].
  - by destruct Hok.
  - intros n v. exists (estrato_fecha v). by destruct v.
Qed.

Lemma compromete_marcar n : compromete (marcar n).
Proof.
  apply compromete_super. case_if; [apply compromete_falla|].
  eapply compromete_bind; [apply hoare_exige with (Q := fun _ => True); [apply estrato_actual_lee|done]|].
  intros e _. apply compromete_publicar_estrato.
Qed.

Lemma remontar_triple k : forall p, hoare S ref b (remontar k p) (fun _ => True).
Proof.
  induction k as [|k IH]; intros p; cbn [remontar]; (case_if; [apply hoare_falla|]);
    (eapply hoare_bind; [apply hoare_exige with (Q := fun _ => True); [apply leer_estrato_lee|done]|]); intros e _;
    [by apply hoare_ret|apply IH].
Qed.

Lemma compromete_volver n : compromete (volver n).
Proof.
  apply compromete_super. destruct n; [apply compromete_falla|].
  eapply compromete_bind; [apply remontar_triple|]. intros r _. apply compromete_publicar_estrato.
Qed.
(** The object of a copy, its blocks first. *)
Lemma objeto_triple g fl obj c : cabe sb (2 ^ 45) c ->
  match fl with Some f => plan_de (snd f) = Some (snd (fst f)) /\ 0 <= snd f /\ fst (fst f) = total (snd (fst f))
              | None => True end ->
  hoare S ref b
    (match origen_de g, fl with
     | Some o, Some (bloques, plan, size) => n <~ traer o plan size c ;; ret (Some n, w64 (c + bloques))
     | _, _ => ret (obj, c)
     end) (fun oc => cabe sb (2 ^ 44) (snd oc)).
Proof.
  intros Hc Hfl. assert (H0 : cabe sb (2 ^ 44) c) by (unfold cabe in *; lia).
  destruct (origen_de g) as [o|]; [|by apply hoare_ret]. destruct fl as [[[bl p] size]|]; [|by apply hoare_ret].
  cbn [fst snd] in Hfl. destruct Hfl as (Hp & Hs & ->). destruct (plan_de_cota size p Hp Hs) as (_ & _ & _ & Htt).
  eapply hoare_bind; [apply (traer_triple b sb ref Hgeo); [exact Hp|exact Hs|unfold cabe in *; lia]|].
  intros n _. apply hoare_ret. cbn [snd]. apply (cabe_mas b sb ref Hgeo); [unfold cabe in *; lia|lia|lia].
Qed.

Lemma nodo_objeto_triple obj c : cabe sb (2 ^ 44) c ->
  hoare S ref b
    (match obj with
     | Some o => _ <~ poner c o ;; ret (Some (ptr_nuevo c 0 o), w64 (c + 1))
     | None => ret (None, c)
     end) (fun pc => cabe sb (2 ^ 43) (snd pc)).
Proof.
  intros Hc. destruct obj as [o|]; [|apply hoare_ret; unfold cabe in *; cbn [snd]; lia].
  eapply hoare_bind; [apply (poner_cabe b sb ref Hgeo _ _ _ Hc); lia|]. intros [] _. apply hoare_ret. cbn [snd].
  apply (cabe_mas b sb ref Hgeo); [unfold cabe in *; lia|lia|lia].
Qed.

Lemma compromete_publicar ruta g : compromete (publicar ruta g).
Proof.
  apply compromete_super. eapply compromete_bind; [apply resolver_triple|]. intros [nodos nombres] Hh. cbn [snd] in Hh.
  cbv zeta. apply compromete_bind with (P := fun _ => True).
  { destruct g; try (by apply hoare_ret). eapply hoare_bind; [apply hoare_puro with (Q := fun _ => True); done|].
    intros o _. by apply hoare_ret. }
  intros obj _. apply compromete_bind with (P := fun fl =>
    match fl with Some f => plan_de (snd f) = Some (snd (fst f)) /\ 0 <= snd f /\ fst (fst f) = total (snd (fst f))
                | None => True end).
  { destruct (origen_de g); [|by apply hoare_ret].
    eapply hoare_bind; [apply (coste_origen_triple b sb ref)|]. intros c Hc. by apply hoare_ret. }
  intros fl Hfl. apply compromete_abrir. intros t Ht.
  eapply compromete_bind; [apply (reservar_triple b sb ref Htot); [|exact Ht]; apply Z.mod_pos_bound; lia|].
  intros [t' c] [Ht' Hc]. cbn [fst snd] in Ht', Hc. cbv beta iota.
  eapply compromete_bind; [by apply objeto_triple|]. intros [obj' c1] Hc1. cbn [snd] in Hc1. cbv beta iota.
  eapply compromete_bind; [by apply nodo_objeto_triple|]. intros [po c2] Hc2. cbn [snd] in Hc2. cbv beta iota.
  eapply compromete_bind; [apply hoare_exige with (Q := fun _ => True); [apply hoare_r_quiza|done]|]. intros hoja _.
  eapply compromete_bind.
  { apply (republicar_triple b sb ref Hgeo _ _ (2 ^ 42)); [unfold cabe in *; lia|lia]. }
  intros [p c3] [Hp Hc3]. cbn [fst snd] in Hp, Hc3 |- *.
  assert (Hz : (length (reverse (zip nodos nombres)) <= 8)%nat).
  { rewrite length_reverse, length_zip_with. unfold HONDO_MAX in Hh. lia. }
  eapply compromete_bind.
  { apply (subir_rama_triple b sb ref Hgeo _ _ 1); [unfold cabe in *; lia|lia|exact Hp]. }
  intros [pr c4] [Hpr Hc4]. cbn [fst snd] in Hpr, Hc4. by apply compromete_estrato.
Qed.
End Cierre.

(** ** Booting after the cut *)

(** The machine comes back with the plate the cut left and a device that answers. *)
Definition encendido (d : Disco) (img : Z -> list Z) : Disco :=
  mkDisco img [] [] [] (registrado d) (listo d) (armada d) (dma_phys d) (total_sectores d) (identidad d)
    (parts d) (disco_last_lba d) (part_datos d) (ventana_es d).
Definition reinicio (v : Vol) (img : Z -> list Z) : Vol := mount (con_disco v (encendido (disco v) img)).

(** The disk has the partition of the volume, behind at most some ESPs. *)
Record arranca (v : Vol) : Prop := {
  ar_reg : registrado (disco v) = true; ar_listo : listo (disco v) = true; ar_dma : dma_phys (disco v) <> 0;
  ar_tam : total_sectores (disco v) = 0 \/ base_lba v + 16 <= total_sectores (disco v);
  ar_parts : exists l1 p l2, parts (disco v) = l1 ++ p :: l2 /\ Forall (fun q => is_esp q = true) l1 /\
    is_esp p = false /\ first_lba p = base_lba v
}.

Lemma read_block_ok v l : registrado (disco v) = true -> listo (disco v) = true -> dma_phys (disco v) <> 0 ->
  suerte (disco v) = [] -> 0 <= base_lba v < 2 ^ 48 -> 0 <= l <= 1 ->
  total_sectores (disco v) = 0 \/ base_lba v + 16 <= total_sectores (disco v) ->
  forall w, disco w = disco v ->
  read_block_from (base_lba v) l w = (w, Some (sectores_vistos (disco v) (base_lba v + 8 * l) SECTORES_POR_BLOQUE)).
Proof.
  intros H1 H2 H3 H4 H5 H6 H7 w Hw. unfold read_block_from. rewrite Hw, H1. cbn [negb].
  assert (E : lba_de (base_lba v) l = base_lba v + 8 * l).
  { unfold lba_de. change (Z.of_nat SECTORES_POR_BLOQUE) with 8.
    rewrite (w64_small (l * 8)) by (unfold is_u64; lia). rewrite w64_small by (unfold is_u64; lia). lia. }
  rewrite E. unfold dev_read. rewrite H2. cbn [negb]. change (Nat.eqb SECTORES_POR_BLOQUE 0) with false.
  change (BLOQUE <? SECTORES_POR_BLOQUE * SECTOR)%nat with false. cbv iota.
  unfold checked_add. rewrite decide_True by (change (Z.of_nat SECTORES_POR_BLOQUE) with 8; lia).
  replace (negb (total_sectores (disco v) =? 0) && _) with false.
  2:{ symmetry. apply andb_false_iff. destruct H7 as [-> |H7]; [by left|right].
      apply Z.ltb_ge. change (Z.of_nat SECTORES_POR_BLOQUE) with 8. lia. }
  unfold transfer_read. rewrite H2, (proj2 (Z.eqb_neq _ _)) by done. cbn [negb orb].
  change (Nat.eqb SECTORES_POR_BLOQUE 0) with false. cbv iota. unfold siguiente. rewrite H4.
  rewrite <- Hw. change SECTORES_POR_BLOQUE with 8%nat. by destruct w.
Qed.

Lemma take_vistos d l : vuelo d = [] -> length (plato d l) = SUPER_LEN ->
  take SUPER_LEN (sectores_vistos d l SECTORES_POR_BLOQUE) = plato d l.
Proof.
  intros H1 H2. unfold sectores_vistos. rewrite H1. change SECTORES_POR_BLOQUE with 8%nat.
  cbn [seq fmap list_fmap concat visible]. change (Z.of_nat 0) with 0. rewrite Z.add_0_r.
  rewrite take_app_length' by done. done.
Qed.

(** The rest of [mount] does not change which superblock was chosen. *)
Lemma mount_loop_elige l1 : forall p l2 v s c,
  Forall (fun q => is_esp q = true) l1 -> is_esp p = false -> 0 <= first_lba p < 2 ^ 48 ->
  registrado (disco v) = true -> listo (disco v) = true -> dma_phys (disco v) <> 0 ->
  suerte (disco v) = [] -> vuelo (disco v) = [] -> largos (first_lba p) (plato (disco v)) ->
  total_sectores (disco v) = 0 \/ first_lba p + 16 <= total_sectores (disco v) ->
  elige (first_lba p) (plato (disco v)) = Ok (s, c) ->
  let w := mount_loop (l1 ++ p :: l2) v in
  super w = Some s /\ montado w = true /\ base_lba w = first_lba p.
Proof.
  induction l1 as [|q l1 IH]; intros p l2 v s c Hl Hp Hb H1 H2 H3 H4 H5 [L1 L2] H7 He.
  2:{ apply Forall_cons in Hl as [Hq Hl]. cbn [app mount_loop]. rewrite Hq. by eapply IH. }
  cbn [app mount_loop]. rewrite Hp.
  set (v0 := mkVol (disco v) (montado v) (first_lba p) (particion v) (super v) (identidad_ok v)
    (estrato_fecha v) (ahora v) (pid v)).
  assert (Hr : forall l, 0 <= l <= 1 -> read_block_from (first_lba p) l v =
    (v, Some (sectores_vistos (disco v) (first_lba p + 8 * l) SECTORES_POR_BLOQUE)))
    by (intros l Hl'; by apply (read_block_ok v0)).
  rewrite Hr by (unfold SUPER_A_BLOCK; lia). cbv iota. rewrite Hr by (unfold SUPER_B_BLOCK; lia).
  unfold SUPER_A_BLOCK, SUPER_B_BLOCK. change (8 * 0) with 0. change (8 * 1) with 8. rewrite Z.add_0_r.
  rewrite !take_vistos by done. unfold elige in He. rewrite He. cbv zeta.
  set (v1 := mkVol _ true _ _ _ _ _ _ _). destruct (estrato_actual v1) as [v2 e] eqn:Ee.
  apply (estrato_actual_lee (fun _ => False) (fun _ => []) (first_lba p)) in Ee; [|done].
  destruct Ee as [(_ & E1 & E2 & _ & E3 & _) _ _].
  match goal with |- context [if ?c then _ else _] => generalize c; intros [] end;
    cbn [con_disco con_fecha super montado base_lba]; by rewrite E1, E2, E3.
Qed.

Lemma reinicio_elige v img s c : arranca v -> 0 <= base_lba v < 2 ^ 48 -> largos (base_lba v) img ->
  elige (base_lba v) img = Ok (s, c) ->
  super (reinicio v img) = Some s /\ montado (reinicio v img) = true /\ base_lba (reinicio v img) = base_lba v.
Proof.
  intros [A1 A2 A3 A4 (l1 & p & l2 & A5 & A6 & A7 & A8)] Hb Hl He. unfold reinicio, mount.
  cbn [disco con_disco encendido con_ventana registrado]. rewrite A1. cbn [negb]. cbv zeta.
  match goal with |- context [mount_loop (parts ?d)] => change (parts d) with (parts (disco v)) end. rewrite A5, <- A8.
  apply mount_loop_elige with (c := c); rewrite ?A8; done.
Qed.

(** * Properties *)

(** The operations that publish a version. *)
Inductive Orden :=
| OPublicar (ruta : list Z) (g : Gesto) | OMarcar (nombre : list Z) | OVolver (n : nat) | OSellar.
Definition ejecutar (o : Orden) : M Z :=
  match o with
  | OPublicar r g => aplicar r g | OMarcar n => marcar n | OVolver n => volver n | OSellar => seal
  end.

Lemma ejecutar_resulta o v sb v' r : sano v sb -> generation sb + 1 < 2 ^ 64 -> ejecutar o v = (v', r) ->
  resulta (base_lba v) sb (plato (disco v)) v v' r.
Proof.
  intros Hs Hg. pose proof Hs as [S1 S2 (S3 & S4 & S5) [c S6] S7 S8]. pose proof (sano_intacto v sb Hs) as Hi.
  pose proof S2 as [_ _ _ _ _ [S9 _] _ _].
  assert (H : compromete (base_lba v) sb (plato (disco v)) (ejecutar o)).
  { destruct o; cbn [ejecutar]; [eapply compromete_publicar|eapply compromete_marcar|eapply compromete_volver|
      eapply compromete_seal]; done. }
  intros E. by apply H.
Qed.

Lemma sano_igual v v' sb : sano v sb -> base_lba v' = base_lba v -> super v' = Some sb ->
  bueno (protegido (base_lba v) (log_head sb)) (plato (disco v)) (momento v') -> sano v' sb.
Proof.
  intros [S1 S2 S3 [c S6] S7 S8] Hb Hs Hbu. assert (Hp : forall l, protegido (base_lba v) (log_head sb) l ->
    plato (disco v') l = plato (disco v) l) by (intros l Hl; by apply Hbu).
  split; rewrite ?Hb; try done.
  - exists c. unfold elige in *. by rewrite !Hp by (unfold protegido; auto).
  - unfold largos in *. by rewrite !Hp by (unfold protegido; auto).
  - intros l x Hin Hl. destruct (Hbu l Hl) as [_ H]. by apply (H x).
Qed.

(** C4: a power cut never loses the volume.  Publish anything (a gesture on a
    path, a mark, going back, a seal) on a healthy volume of a disk that is ready
    and whose first partition that is not an ESP holds it, with a generation
    below [2^64 - 1], let the device answer
    anything at all to each command, and cut the power at any moment of it,
    leaving any part of the writes that were not flushed.  Booting mounts either
    the version there was, or the next one, whose superblock was already being
    written; the sectors of the old version are as they were, and those of the
    next one are the ones of the disk when the operation ended.  If the operation
    says it published, every later cut mounts exactly that version and the volume
    is healthy again.  If it fails, the old version stays mounted, and the volume
    is healthy with it unless the error is [SinBarrera] or [NoEscribio]: after
    those two, which the device causes, what is known is what every cut mounts. *)
Theorem corte_seguro o v sb v' r :
  sano v sb -> arranca v -> generation sb + 1 < 2 ^ 64 -> ejecutar o v = (v', r) ->
  (forall tau img, In tau (momento v' :: traza (disco v')) -> ~ In tau (traza (disco v)) ->
     corte (fst tau) (snd tau) img ->
     let w := reinicio v img in
     montado w = true /\ base_lba w = base_lba v /\
     (forall l, datos_de (base_lba v) (log_head sb) l -> img l = plato (disco v) l) /\
     (super w = Some sb \/
      exists s, super w = Some s /\ generation s = generation sb + 1 /\ log_head sb <= log_head s /\
        forall l, datos_de (base_lba v) (log_head s) l -> img l = plato (disco v') l)) /\
  match r with
  | Ok g => exists s, g = generation s /\ generation s = generation sb + 1 /\ log_head sb <= log_head s /\ sano v' s /\
      forall img, corte (plato (disco v')) (vuelo (disco v')) img -> super (reinicio v img) = Some s
  | Err e => super v' = Some sb /\ (e = SinBarrera \/ e = NoEscribio \/ sano v' sb)
  end.
Proof.
  intros Hs Ha Hg E. destruct (ejecutar_resulta o v sb v' r Hs Hg E) as (Hb & Ht & Hr).
  pose proof (sa_geo _ _ Hs) as (Hb48 & _). split.
  - intros tau img [Hin|Hin]%Ht Hnin Hc w; [done|]. destruct (Hin img Hc) as (HL & Hd & He).
    assert (Hsig : forall s c, elige (base_lba v) img = Ok (s, c) ->
      super w = Some s /\ montado w = true /\ base_lba w = base_lba v) by (intros s c; by apply reinicio_elige).
    destruct He as [[c He]|(s & c & He & H1 & H2 & H3)]; destruct (Hsig _ _ He) as (W1 & W2 & W3);
      (split; [done|split; [done|split; [done|]]]); [by left|right]. by exists s.
  - destruct r as [g|e].
    + destruct Hr as (s & Hs' & Hg' & Hge & Hh). exists s. do 4 (split; [done|]). intros img Hc.
      pose proof (intacto_corte _ _ _ _ _ (sano_intacto _ _ Hs') Hc) as Hp. pose proof Hs' as [_ _ _ [c He] HL _].
      rewrite Hb in *. apply (reinicio_elige v img s c Ha Hb48).
      * unfold largos in *. by rewrite !Hp by (unfold protegido; auto).
      * unfold elige in *. by rewrite !Hp by (unfold protegido; auto).
    + destruct Hr as [H1 H2]. split; [done|]. destruct H2 as [|[|]]; [by left|by right; left|right; right].
      by eapply sano_igual.
Qed.

(** A small volume at sector 2048: an empty root directory in block 2, its
    stratum in block 3. *)
Definition sector_de (bloque : list Z) : list Z := bloque ++ replicate (512 - length bloque) 0.
Definition demo_dir : list Z := nodo_de_directorio_vacio.
Definition demo_estrato : list Z :=
  estrato_encode (estrato_new (ptr_nuevo 2 0 demo_dir) NULO 5 Kernel []).
Definition demo_sb : Superblock :=
  mkSuper VERSION BLOCK_SIZE 7 1000 4 (replicate 32 1) (ptr_nuevo 3 0 demo_estrato).
Definition demo_plato : Z -> list Z :=
  visible (fun _ => replicate 512 0)
    [(2048, super_encode demo_sb); (2064, sector_de demo_dir); (2072, sector_de demo_estrato)].
Definition demo_part : Partition := mkPartition 1 2048 10239 0xEBD0A0A2 (replicate 36 0) 0.
Definition demo_disco (s : list Suerte) : Disco :=
  mkDisco demo_plato [] s [] true true true 4096 0 DEVICE_ID_EMPTY [demo_part] 10239 None (Some (2048, 10239)).
Definition demo_vol (s : list Suerte) : Vol := mkVol (demo_disco s) true 2048 1 (Some demo_sb) true 5 60 9.

Lemma demo_ptr_ok : ptr_ok (estrato demo_sb).
Proof. apply ptr_nuevo_ok; [unfold is_u64; lia|]. apply Nat.leb_le. vm_compute. reflexivity. Qed.

Lemma demo_sano s : sano (demo_vol s) demo_sb.
Proof.
  split; [done| | |exists SUPER_A_BLOCK| |by intros l x []].
  - split; [done..| | | |cbn; lia|done|exact demo_ptr_ok]; unfold is_u64; cbn; lia.
  - cbn. lia.
  - vm_compute. reflexivity.
  - split; vm_compute; reflexivity.
Qed.

Lemma demo_arranca s : arranca (demo_vol s).
Proof. split; [done..|by left|]. by exists [], demo_part, []. Qed.

Definition hola : list Z := [0x68; 0x6F; 0x6C; 0x61].

Lemma corte_seguro_witness :
  snd (ejecutar (OMarcar hola) (demo_vol [])) = Ok 8 /\
  exists v' s, ejecutar (OMarcar hola) (demo_vol []) = (v', Ok 8) /\ sano v' s /\ 8 = generation s.
Proof.
  assert (H : snd (ejecutar (OMarcar hola) (demo_vol [])) = Ok 8) by (vm_compute; reflexivity).
  split; [exact H|]. destruct (ejecutar (OMarcar hola) (demo_vol [])) as [v' r] eqn:E.
  pose proof (corte_seguro (OMarcar hola) (demo_vol []) demo_sb v' r (demo_sano []) (demo_arranca [])
    eq_refl E) as [_ Hr].
  cbn [snd] in H. subst r. destruct Hr as (s & H1 & _ & _ & H2 & _). exists v', s.
  split; [reflexivity|split; [exact H2|exact H1]].
Defined.

Definition is_algo {A} (o : option A) : bool := match o with Some _ => true | None => false end.

(** A commit in doubt is not abandoned.  When the last FLUSH of a mark fails
    the caller gets an error and the superblock in memory stays the old one, but
    the new one may be in the cache of the disk.  The next mark reserves the same
    block, its first barrier makes that old superblock durable, and until its own
    is written a power cut boots a version whose stratum no longer checks: the
    tree cannot be read, although it could before both marks. *)
Theorem duda_pierde_el_arbol :
  let v0 := demo_vol (replicate 6 Va ++ [Rota 0]) in
  let (v1, r1) := marcar hola v0 in
  let (v2, r2) := marcar [0x61] v1 in
  r1 = Err SinBarrera /\ super v1 = super v0 /\ (exists e, snd (estrato_actual v0) = Some e) /\
  exists tau, In tau (traza (disco v2)) /\
    let w := reinicio v2 (fst tau) in
    snd tau = [] /\ montado w = true /\ option_map generation (super w) = Some 8 /\ snd (estrato_actual w) = None.
Proof.
  cbv zeta. set (v0 := demo_vol (replicate 6 Va ++ [Rota 0])).
  assert (H : let (v1, r1) := marcar hola v0 in let (v2, _) := marcar [0x61] v1 in
    let tau := nth 2 (traza (disco v2)) (demo_plato, []) in let w := reinicio v2 (fst tau) in
    (r1, super v1, is_algo (snd (estrato_actual v0)), (2 <? length (traza (disco v2)))%nat,
     snd tau, montado w, option_map generation (super w), snd (estrato_actual w)) =
    (Err SinBarrera, super v0, true, true, [], true, Some 8, None)) by (vm_compute; reflexivity).
  destruct (marcar hola v0) as [v1 r1]. destruct (marcar [0x61] v1) as [v2 r2]. cbv zeta in H.
  rewrite !pair_eq in H. destruct H as (((((((H1 & H2) & H3) & H4) & H5) & H6) & H7) & H8). split; [exact H1|split; [exact H2|split]].
  - destruct (snd (estrato_actual v0)) as [e|]; [by exists e|discriminate H3].
  - exists (nth 2 (traza (disco v2)) (demo_plato, [])). split; [apply nth_In; by apply Nat.ltb_lt|].
    split; [exact H5|split; [exact H6|split; [exact H7|exact H8]]].
Qed.
