(* ===== verification/Bex.v ===== *)
(** The executable gate and what the loader reads of a .bex: the admission
    decision (bmo-bex-gate), the mapping plan of the kernel, the relocation
    records, and the signature table with the closing of each section by hash.
    Sources: src/platform/abi/bmo-bex-gate/src/lib.rs,
    src/Ultra_kernel_x86-64/kernel/src/ring0/task/{bex,landing}.rs.

    The bytes of the file are a list; an offset of the file is a number that
    somebody else wrote, so every reader is bounded and answers an option. *)

From S2P Require Import Prelude Blake3.

(** * bmo-bex-gate: the contract *)

(** ["BEF1"]. *)
Definition MAGIC : Z := of_le [0x42; 0x45; 0x46; 0x31].
Definition CABECERA : Z := 48.
Definition ENTRADA : Z := 48.
Definition VERSION_MAYOR : Z := 1.
Definition ABI_MAYOR : Z := 2.
Definition ABI_MENOR : Z := 0.

Definition admisible_con (mayor menor mayor_max menor_max : Z) : bool :=
  (mayor =? mayor_max) && (menor <=? menor_max).
Definition abi_admisible (mayor menor : Z) : bool := admisible_con mayor menor ABI_MAYOR ABI_MENOR.

Definition ARCH_X86_64 : Z := 0x01.
Definition ENDIAN_LE : Z := 0x00.
Definition MAX_SECCIONES : Z := 16.
Definition CODE : Z := 0x01.
Definition RODATA : Z := 0x02.
Definition DATA : Z := 0x03.
Definition BSS : Z := 0x04.
Definition RELOCS : Z := 0x07.
Definition SIGNATURE : Z := 0x0F.
Definition REQUISITOS : Z := 0x15.

Definition se_carga (kind : Z) : bool :=
  (kind =? CODE) || (kind =? RODATA) || (kind =? DATA) || (kind =? BSS).
Definition PIDEN_ENLAZADO_DINAMICO : list Z := [0x05; 0x06; 0x0C].
Definition se_lee (kind : Z) : bool :=
  se_carga kind || ((kind =? RELOCS) || (kind =? SIGNATURE) || (kind =? REQUISITOS)).

Definition FLAG_EJECUTABLE : Z := Z.shiftl 1 0.
Definition FLAG_OBJETO : Z := Z.shiftl 1 11.
Definition FLAG_COMPRIMIDO : Z := Z.shiftl 1 4.
Definition FLAG_FIRMADO : Z := Z.shiftl 1 5.
Definition FLAG_RECARGABLE : Z := Z.shiftl 1 7.
Definition FLAG_TLS : Z := Z.shiftl 1 6.
Definition FLAG_SHADERS : Z := Z.shiftl 1 3.
Definition FLAGS_NO_IMPLEMENTADAS : Z :=
  Z.lor (Z.lor (Z.lor FLAG_COMPRIMIDO FLAG_RECARGABLE) FLAG_TLS) FLAG_SHADERS.
Definition SECCION_FLAG_EXEC : Z := Z.shiftl 1 2.

Inductive Falta :=
| NoLlegaNiALaCabecera | CabeceraInvalida | OtraArquitectura | OtroOrdenDeBytes
| ExtensionDeCpuQueNoSePreserva | OtraVersionDelAbi | NoEsEjecutable | EsUnObjetoSinEnlazar
| PideAlgoQueNadieImplementa | EnlazadoDinamico | CabeceraQueSeDesmiente | DemasiadasSecciones
| TablaFueraDeLoLeido | TablaFueraDelFichero | SeccionInvalida | SeccionesSeSolapan
| SeccionFueraDelFichero | SinCodigo | LaCodigoNoEsEjecutable | EntryFueraDelCodigo | ImagenIncompleta.
#[export] Instance Falta_eq_dec : EqDecision Falta.
Proof. solve_decision. Defined.

(** [b.get(o)] and the bounded little-endian readers. *)
Definition u8_en (b : list Z) (o : Z) : option Z := b !! Z.to_nat o.
Definition campo (n : nat) (b : list Z) (o : Z) : option Z :=
  if o + Z.of_nat n <=? Z.of_nat (length b) then Some (of_le (slice (Z.to_nat o) n b)) else None.
Definition u16_en : list Z -> Z -> option Z := campo 2.
Definition u32_en : list Z -> Z -> option Z := campo 4.
Definition u64_en : list Z -> Z -> option Z := campo 8.

Record Seccion := mkSeccion {
  indice : nat; kind : Z; s_flags : Z; file_offset : Z; file_size : Z; mem_size : Z; alignment : Z
}.

(** [cuantas] is already at most [MAX_SECCIONES]. *)
Record Revisada := mkRevisada { prologo : list Z; tabla : Z; cuantas : nat; entry_offset : Z }.

Definition seccion (r : Revisada) (i : nat) : option Seccion :=
  if (cuantas r <=? i)%nat then None
  else
    let e := tabla r + Z.of_nat i * ENTRADA in
    k ← u8_en (prologo r) e;
    f ← u32_en (prologo r) (e + 4);
    o ← u64_en (prologo r) (e + 8);
    n ← u64_en (prologo r) (e + 16);
    m ← u64_en (prologo r) (e + 24);
    a ← u16_en (prologo r) (e + 40);
    Some (mkSeccion i k f o n m (if a =? 0 then 8 else a)).

Definition secciones (r : Revisada) : list Seccion := omap (seccion r) (seq 0 (cuantas r)).
Definition buscar (r : Revisada) (k : Z) : option Seccion :=
  snd <$> list_find (fun s => kind s = k) (secciones r).

Definition saturating_add (a b : Z) : Z := Z.min (a + b) (2 ^ 64 - 1).

(** The body of the [for] of [hasta_donde_hace_falta]. *)
Definition alarga (hasta : Z) (s : Seccion) : Z :=
  if (kind s =? BSS) || negb (se_lee (kind s)) then hasta
  else
    let fin := saturating_add (file_offset s) (file_size s) in
    if hasta <? fin then fin else hasta.
Definition hasta_donde_hace_falta (r : Revisada) : Z :=
  foldl alarga (tabla r + Z.of_nat (cuantas r) * ENTRADA) (secciones r).

(** [u16::is_power_of_two]. *)
Definition is_power_of_two (a : Z) : bool := (0 <? a) && (Z.land a (a - 1) =? 0).

(** One section on its own; [(hay_codigo, tam_codigo, hay_firma)] go along. *)
Definition revisa_una (tam_fichero : Z) (acc : bool * Z * bool) (s : Seccion) : result (bool * Z * bool) Falta :=
  let '(hay_codigo, tam_codigo, hay_firma) := acc in
  if existsb (Z.eqb (kind s)) PIDEN_ENLAZADO_DINAMICO then Err EnlazadoDinamico
  else if (kind s =? 0) || (mem_size s <? file_size s) then Err SeccionInvalida
  else if negb (kind s =? BSS) && (file_size s =? 0) then Err SeccionInvalida
  else if negb (is_power_of_two (alignment s)) then Err SeccionInvalida
  else
    _ <-? (if kind s =? BSS then Ok tt
           else match checked_add (file_offset s) (file_size s) with
                | None => Err SeccionInvalida
                | Some fin => if tam_fichero <? fin then Err SeccionFueraDelFichero else Ok tt
                end) ;;
    let hay_firma := hay_firma || (kind s =? SIGNATURE) in
    if kind s =? CODE then
      if Z.land (s_flags s) SECCION_FLAG_EXEC =? 0 then Err LaCodigoNoEsEjecutable
      else Ok (true, mem_size s, hay_firma)
    else Ok (hay_codigo, tam_codigo, hay_firma).

Fixpoint revisa_todas (tam_fichero : Z) (acc : bool * Z * bool) (l : list Seccion)
  : result (bool * Z * bool) Falta :=
  match l with
  | [] => Ok acc
  | s :: l => acc <-? revisa_una tam_fichero acc s ;; revisa_todas tam_fichero acc l
  end.

Definition ocupa_fichero (s : Seccion) : bool := negb ((kind s =? BSS) || (file_size s =? 0)).
Definition se_pisan (a b : Seccion) : bool :=
  (file_offset a <? saturating_add (file_offset b) (file_size b))
  && (file_offset b <? saturating_add (file_offset a) (file_size a)).

(** The two nested [for]. *)
Definition hay_solape (l : list Seccion) : bool :=
  existsb (fun a => ocupa_fichero a &&
    existsb (fun b => ocupa_fichero b && se_pisan a b) (drop (S (indice a)) l)) l.

(** [usize::checked_mul] of the bounded count never fails; [checked_add] can. *)
Definition revisar (b : list Z) (tam_fichero : Z) : result Revisada Falta :=
  if Z.of_nat (length b) <? CABECERA then Err NoLlegaNiALaCabecera
  else
    let pide {A} (o : option A) : result A Falta := ok_or o NoLlegaNiALaCabecera in
    magic <-? pide (u32_en b 0) ;;
    version_mayor <-? pide (u16_en b 4) ;;
    flags <-? pide (u32_en b 8) ;;
    arch <-? pide (u8_en b 12) ;;
    endian <-? pide (u8_en b 13) ;;
    cpu <-? pide (u16_en b 14) ;;
    abi_mayor <-? pide (u8_en b 16) ;;
    abi_menor <-? pide (u8_en b 17) ;;
    entry <-? pide (u64_en b 24) ;;
    tab <-? pide (u64_en b 32) ;;
    n <-? pide (u32_en b 40) ;;
    total_size <-? pide (u32_en b 44) ;;
    if negb (magic =? MAGIC) || negb (version_mayor =? VERSION_MAYOR) || (n =? 0) then Err CabeceraInvalida
    else if negb (total_size =? 0) && (tam_fichero <? total_size) then Err ImagenIncompleta
    else if negb (arch =? ARCH_X86_64) then Err OtraArquitectura
    else if negb (endian =? ENDIAN_LE) then Err OtroOrdenDeBytes
    else if negb (cpu =? 0) then Err ExtensionDeCpuQueNoSePreserva
    else if negb (abi_admisible abi_mayor abi_menor) then Err OtraVersionDelAbi
    else if negb (Z.land flags FLAG_OBJETO =? 0) then Err EsUnObjetoSinEnlazar
    else if Z.land flags FLAG_EJECUTABLE =? 0 then Err NoEsEjecutable
    else if negb (Z.land flags FLAGS_NO_IMPLEMENTADAS =? 0) then Err PideAlgoQueNadieImplementa
    else if MAX_SECCIONES <? n then Err DemasiadasSecciones
    else
      fin_tabla <-? ok_or (checked_add tab (n * ENTRADA)) TablaFueraDelFichero ;;
      if tam_fichero <? fin_tabla then Err TablaFueraDelFichero
      else if Z.of_nat (length b) <? fin_tabla then Err TablaFueraDeLoLeido
      else
        let rev := mkRevisada b tab (Z.to_nat n) entry in
        acc <-? revisa_todas tam_fichero (false, 0, false) (secciones rev) ;;
        let '(hay_codigo, tam_codigo, hay_firma) := acc in
        if hay_solape (secciones rev) then Err SeccionesSeSolapan
        else if negb hay_codigo then Err SinCodigo
        else if tam_codigo <=? entry then Err EntryFueraDelCodigo
        else if negb (Z.land flags FLAG_FIRMADO =? 0) && negb hay_firma then Err CabeceraQueSeDesmiente
        else Ok rev.

Definition RELOC_SIZE : Z := 24.

Definition reloc_cabe (offset parche fichero mem : Z) : bool :=
  let tope := if fichero <? mem then mem else fichero in
  match checked_add offset parche with None => false | Some fin => fin <=? tope end.

(** * task/bex.rs: the plan *)

Definition MAX_BEX_SECTIONS : nat := 16.

Record BexLoadPlan := mkPlan {
  p_entry_offset : Z; sections : list Seccion; skipped_sections : nat;
  relocs_file_offset : Z; relocs_file_size : Z; relocs_indice : option nat;
  requisitos_file_offset : Z; requisitos_file_size : Z;
  firma_file_offset : Z; firma_file_size : Z; firma_indice : option nat
}.

Inductive BexError := Formato (f : Falta) | HashNoCuadra | PrologoCorto.

Definition necesita (b : list Z) : result Z BexError :=
  match revisar b (2 ^ 64 - 1) with
  | Ok rev => Ok (hasta_donde_hace_falta rev)
  | Err TablaFueraDeLoLeido => Err PrologoCorto
  | Err f => Err (Formato f)
  end.

(** One turn of the [for] of [inspect]: [sections] is the used part of the
    fixed array, [usize::MAX] of an index is [None]. *)
Definition apunta (p : BexLoadPlan) (s : Seccion) : BexLoadPlan :=
  if kind s =? RELOCS then
    mkPlan (p_entry_offset p) (sections p) (skipped_sections p)
      (file_offset s) (file_size s) (Some (indice s))
      (requisitos_file_offset p) (requisitos_file_size p) (firma_file_offset p) (firma_file_size p) (firma_indice p)
  else if kind s =? SIGNATURE then
    mkPlan (p_entry_offset p) (sections p) (skipped_sections p)
      (relocs_file_offset p) (relocs_file_size p) (relocs_indice p)
      (requisitos_file_offset p) (requisitos_file_size p) (file_offset s) (file_size s) (Some (indice s))
  else if kind s =? REQUISITOS then
    mkPlan (p_entry_offset p) (sections p) (S (skipped_sections p))
      (relocs_file_offset p) (relocs_file_size p) (relocs_indice p)
      (file_offset s) (file_size s) (firma_file_offset p) (firma_file_size p) (firma_indice p)
  else if negb (se_carga (kind s)) then
    mkPlan (p_entry_offset p) (sections p) (S (skipped_sections p))
      (relocs_file_offset p) (relocs_file_size p) (relocs_indice p)
      (requisitos_file_offset p) (requisitos_file_size p) (firma_file_offset p) (firma_file_size p) (firma_indice p)
  else
    mkPlan (p_entry_offset p) (sections p ++ [s]) (skipped_sections p)
      (relocs_file_offset p) (relocs_file_size p) (relocs_indice p)
      (requisitos_file_offset p) (requisitos_file_size p) (firma_file_offset p) (firma_file_size p) (firma_indice p).

Definition inspect (b : list Z) (tam_fichero : Z) : result BexLoadPlan BexError :=
  match revisar b tam_fichero with
  | Err f => Err (Formato f)
  | Ok rev => Ok (foldl apunta (mkPlan (entry_offset rev) [] 0 0 0 None 0 0 0 0 None) (secciones rev))
  end.

Definition RELOC_SECCION_ABS64 : Z := 0x04.
Record BexReloc := mkReloc { donde_sec : Z; donde_off : Z; destino_sec : Z; destino_off : Z; r_kind : Z }.

(** [u64 as i64]. *)
Definition i64_de (z : Z) : Z := if z <? 2 ^ 63 then z else z - 2 ^ 64.

Definition leer_reloc (b : list Z) (tabla_off tabla_size n : Z) : option BexReloc :=
  if tabla_size <? n * RELOC_SIZE + RELOC_SIZE then None
  else
    base ← checked_add tabla_off (n * RELOC_SIZE);
    off ← u64_en b base;
    sym ← u32_en b (base + 8);
    k ← u8_en b (base + 12);
    sec ← u8_en b (base + 13);
    add ← u64_en b (base + 16);
    Some (mkReloc sec off (w8 sym) (i64_de add) k).

Definition cuantas_relocs (tabla_size : Z) : Z := tabla_size / RELOC_SIZE.

(** * task/landing.rs *)

Inductive Cierre := Cuadra | SinFirma.
Record Aterrizaje := mkAterrizaje { at_kind : Z; hasher : option Hasher; esperado : option (list Z); vistos : Z }.

Definition at_abrir (k : Z) (esp : option (list Z)) : Aterrizaje := mkAterrizaje k (Some Blake3.new) esp 0.
Definition trozo (a : Aterrizaje) (d : list Z) : Aterrizaje :=
  if Nat.eqb (length d) 0 then a
  else mkAterrizaje (at_kind a) (h ← hasher a; update h d) (esperado a) (vistos a + Z.of_nat (length d)).
(** [None]: the hasher panicked. *)
Definition cerrar (a : Aterrizaje) : option (result Cierre BexError) :=
  match esperado a with
  | None => Some (Ok SinFirma)
  | Some e =>
      h ← hasher a;
      Some (if bool_decide (finalize h = e) then Ok Cuadra else Err HashNoCuadra)
  end.

Definition FIRMAS_CAB : Z := 8.
Definition FIRMAS_ENTRADA : Z := 40.
Definition DIGEST : nat := 32.
Record Firmas := mkFirmas { firma : list Z; f_cuantos : Z; propio : option nat }.

Definition firmas_abrir (f : list Z) (indice_propio : option nat) : option Firmas :=
  if Z.of_nat (length f) <? FIRMAS_CAB then None
  else
    n ← u32_en f 0;
    if Z.of_nat (length f) <? FIRMAS_CAB + n * FIRMAS_ENTRADA then None
    else Some (mkFirmas f n indice_propio).

(** [firma.get(e + 8..e + 8 + DIGEST)]. *)
Definition digest_en (f : list Z) (e : Z) : option (list Z) :=
  if e + 8 + Z.of_nat DIGEST <=? Z.of_nat (length f) then Some (slice (Z.to_nat (e + 8)) DIGEST f) else None.

Fixpoint digest_loop (f : list Z) (idx : Z) (k : Z) (n : nat) : option (list Z) :=
  match n with
  | O => None
  | S n =>
      let e := FIRMAS_CAB + k * FIRMAS_ENTRADA in
      quien ← u16_en f e;
      if quien =? idx then digest_en f e else digest_loop f idx (k + 1) n
  end.
Definition digest_de (f : Firmas) (idx : nat) : option (list Z) :=
  if bool_decide (propio f = Some idx) then None
  else digest_loop (firma f) (Z.of_nat idx) 0 (Z.to_nat (f_cuantos f)).

Fixpoint cadena_loop (f : list Z) (h : Hasher) (k : Z) (n : nat) : option Hasher :=
  match n with
  | O => Some h
  | S n => d ← digest_en f (FIRMAS_CAB + k * FIRMAS_ENTRADA); h ← update h d; cadena_loop f h (k + 1) n
  end.
Definition cadena (f : Firmas) : option (list Z) :=
  h ← cadena_loop (firma f) Blake3.new 0 (Z.to_nat (f_cuantos f)); Some (finalize h).

(** * What the gate promises *)

(** The header, field by field. *)
Record cabecera_ok (b : list Z) (tam entry tab n flags : Z) : Prop := {
  ca_largo : CABECERA <= Z.of_nat (length b);
  ca_magic : of_le (slice 0 4 b) = MAGIC; ca_version : of_le (slice 4 2 b) = VERSION_MAYOR;
  ca_flags : of_le (slice 8 4 b) = flags;
  ca_arch : b !! 12%nat = Some ARCH_X86_64; ca_endian : b !! 13%nat = Some ENDIAN_LE;
  ca_cpu : of_le (slice 14 2 b) = 0;
  ca_abi : exists ma mi, b !! 16%nat = Some ma /\ b !! 17%nat = Some mi /\ abi_admisible ma mi = true;
  ca_entry : of_le (slice 24 8 b) = entry; ca_tabla : of_le (slice 32 8 b) = tab;
  ca_n : of_le (slice 40 4 b) = n /\ 0 < n <= MAX_SECCIONES;
  ca_total : of_le (slice 44 4 b) = 0 \/ of_le (slice 44 4 b) <= tam;
  ca_ejecutable : Z.testbit flags 0 = true; ca_objeto : Z.testbit flags 11 = false;
  ca_implementado : Z.testbit flags 3 = false /\ Z.testbit flags 4 = false /\
    Z.testbit flags 6 = false /\ Z.testbit flags 7 = false;
  ca_cabe : tab + n * ENTRADA <= tam /\ tab + n * ENTRADA <= Z.of_nat (length b)
}.

Record seccion_ok (tam : Z) (s : Seccion) : Prop := {
  so_estatica : kind s ∉ PIDEN_ENLAZADO_DINAMICO; so_tipo : kind s <> 0;
  so_memoria : file_size s <= mem_size s;
  so_fichero : kind s <> BSS -> file_size s <> 0 /\ file_offset s + file_size s <= tam;
  so_alineada : exists k, 0 <= k /\ alignment s = 2 ^ k;
  so_exec : kind s = CODE -> Z.testbit (s_flags s) 2 = true
}.

(** No two sections claim the same byte of the file. *)
Definition disjuntas (l : list Seccion) : Prop :=
  forall i j a b, (i < j)%nat -> l !! i = Some a -> l !! j = Some b ->
    kind a <> BSS -> kind b <> BSS -> file_size a <> 0 -> file_size b <> 0 ->
    file_offset a + file_size a <= file_offset b \/ file_offset b + file_size b <= file_offset a.

(** The last section of code, the one whose size bounds the entry point. *)
Definition ultima_code (l : list Seccion) (c : Seccion) : Prop :=
  exists l1 l2, l = l1 ++ c :: l2 /\ kind c = CODE /\ Forall (fun s => kind s <> CODE) l2.

(** ** Readers *)

Lemma campo_Some n b o : Forall is_u8 b -> 0 <= o -> o + Z.of_nat n <= Z.of_nat (length b) ->
  campo n b o = Some (of_le (slice (Z.to_nat o) n b)) /\
  0 <= of_le (slice (Z.to_nat o) n b) < 2 ^ (8 * Z.of_nat n).
Proof.
  intros Hb Ho H. unfold campo. rewrite (proj2 (Z.leb_le _ _)) by done. split; [done|].
  rewrite <- (length_slice (Z.to_nat o) n b) at 3 by lia. apply of_le_range.
  by apply Forall_take, Forall_drop.
Qed.

Lemma u8_en_Some b o : 0 <= o < Z.of_nat (length b) -> exists x, u8_en b o = Some x.
Proof. intros H. unfold u8_en. apply lookup_lt_is_Some_2. lia. Qed.

(** A table that fits gives every section. *)
Lemma seccion_Some r i : Forall is_u8 (prologo r) -> 0 <= tabla r ->
  tabla r + Z.of_nat (cuantas r) * ENTRADA <= Z.of_nat (length (prologo r)) -> (i < cuantas r)%nat ->
  exists s, seccion r i = Some s /\ indice s = i /\ is_u64 (file_offset s) /\ is_u64 (file_size s) /\
    is_u64 (mem_size s) /\ 0 < alignment s < 2 ^ 16.
Proof.
  intros Hb Ht Hf Hi. unfold ENTRADA in Hf. unfold seccion. rewrite (proj2 (Nat.leb_gt _ _)) by done.
  set (e := tabla r + Z.of_nat i * ENTRADA).
  assert (He : 0 <= e /\ e + 48 <= Z.of_nat (length (prologo r))) by (unfold e, ENTRADA; nia).
  clearbody e. destruct (u8_en_Some (prologo r) e) as [k ->]; [lia|]. cbn [mbind option_bind].
  unfold u16_en, u32_en, u64_en.
  destruct (campo_Some 4 (prologo r) (e + 4)) as [-> _]; [done|lia..|]. cbn [mbind option_bind].
  destruct (campo_Some 8 (prologo r) (e + 8)) as [-> H1]; [done|lia..|]. cbn [mbind option_bind].
  destruct (campo_Some 8 (prologo r) (e + 16)) as [-> H2]; [done|lia..|]. cbn [mbind option_bind].
  destruct (campo_Some 8 (prologo r) (e + 24)) as [-> H3]; [done|lia..|]. cbn [mbind option_bind].
  destruct (campo_Some 2 (prologo r) (e + 40)) as [-> H4]; [done|lia..|]. cbn [mbind option_bind].
  eexists. split; [done|]. cbn [indice file_offset file_size mem_size alignment].
  unfold is_u64. split_and!; try done; try lia; case_if; bdestr; lia.
Qed.

Lemma secciones_lookup r : Forall is_u8 (prologo r) -> 0 <= tabla r ->
  tabla r + Z.of_nat (cuantas r) * ENTRADA <= Z.of_nat (length (prologo r)) ->
  length (secciones r) = cuantas r /\
  forall i s, secciones r !! i = Some s <-> seccion r i = Some s.
Proof.
  intros Hb Ht Hf. unfold secciones.
  assert (H : forall k n, (k + n <= cuantas r)%nat -> length (omap (seccion r) (seq k n)) = n /\
    forall i s, (i < n)%nat -> omap (seccion r) (seq k n) !! i = Some s <-> seccion r (k + i) = Some s).
  { intros k n. revert k. induction n as [|n IH]; intros k Hk; [split; [done|lia]|]. cbn [seq omap list_omap].
    destruct (seccion_Some r k) as (s0 & E & _); [done..|lia|]. rewrite E.
    destruct (IH (S k)) as [IH1 IH2]; [lia|]. split; [cbn; by rewrite IH1|].
    intros [|i] s Hi; cbn; [by rewrite Nat.add_0_r, E|]. rewrite IH2 by lia. by replace (S k + i)%nat with (k + S i)%nat by lia. }
  destruct (H 0%nat (cuantas r)) as [H1 H2]; [lia|]. split; [done|]. intros i s. destruct (decide (i < cuantas r)%nat) as [Hi|Hi].
  - by apply H2.
  - rewrite (lookup_ge_None_2 _ i) by lia. split; [done|]. unfold seccion.
    by rewrite (proj2 (Nat.leb_le _ _)) by lia.
Qed.

(** ** The sections one by one *)

Definition siguiente_acc (acc : bool * Z * bool) (s : Seccion) : bool * Z * bool :=
  let '(h, t, f) := acc in
  (h || (kind s =? CODE), if kind s =? CODE then mem_size s else t, f || (kind s =? SIGNATURE)).

(** A section as the table gives it. *)
Definition legible (s : Seccion) : Prop :=
  is_u64 (file_offset s) /\ is_u64 (file_size s) /\ is_u64 (mem_size s) /\ 0 < alignment s < 2 ^ 16.

Lemma existsb_eqb k l : existsb (Z.eqb k) l = true <-> k ∈ l.
Proof.
  rewrite existsb_exists.
  split; [intros (x & Hx & E%Z.eqb_eq); subst; by apply list_elem_of_In|].
  intros H. exists k. split; [by apply list_elem_of_In|apply Z.eqb_refl].
Qed.

Lemma testbit_land f i : 0 <= i -> (Z.land f (Z.shiftl 1 i) =? 0) = negb (Z.testbit f i).
Proof. apply land_bit_zero. Qed.

Lemma power_of_two_iff a : 0 < a -> is_power_of_two a = true <-> exists k, 0 <= k /\ a = 2 ^ k.
Proof.
  intros Ha. unfold is_power_of_two. rewrite (proj2 (Z.ltb_lt _ _)) by done. cbn [andb].
  rewrite Z.eqb_eq. by apply land_pred_zero.
Qed.

Lemma revisa_una_iff tam acc s acc' : legible s -> tam < 2 ^ 64 ->
  revisa_una tam acc s = Ok acc' <-> seccion_ok tam s /\ acc' = siguiente_acc acc s.
Proof.
  intros (L1 & L2 & L3 & L4) Ht. unfold is_u64 in *. destruct acc as [[h t] f]. unfold revisa_una, siguiente_acc.
  destruct (existsb _ _) eqn:E1; [split; [done|intros [[] _]]; by apply existsb_eqb in E1|].
  case_if; [split; [done|intros [[] _]]; apply orb_true_iff in Heqb as [|]; bdestr; lia|].
  case_if; [split; [done|intros [[_ _ _ Hf _ _] _]]; bdestr; lia|].
  destruct (is_power_of_two (alignment s)) eqn:E2; cbn [negb];
    [|split; [done|intros [[] _]]; rewrite (proj2 (power_of_two_iff (alignment s) ltac:(lia))) in E2; done].
  assert (Hk : kind s ∉ PIDEN_ENLAZADO_DINAMICO) by (rewrite <- existsb_eqb; congruence).
  apply power_of_two_iff in E2; [|lia]. bdestr.
  assert (Hfin : (kind s <> BSS -> file_offset s + file_size s <= tam) <->
    (if kind s =? BSS then Ok tt
     else match checked_add (file_offset s) (file_size s) with
          | None => Err SeccionInvalida
          | Some fin => if tam <? fin then Err SeccionFueraDelFichero else Ok tt end) = Ok tt).
  { case_if; bdestr; [split; [done|lia]|]. unfold checked_add. case_decide.
    - case_if; bdestr; (split; [|done]); intros Hx; [|done]. specialize (Hx ltac:(done)). lia.
    - split; [|done]. intros Hx. specialize (Hx ltac:(done)). lia. }
  match type of Hfin with _ <-> ?x = _ => destruct x as [[]|] eqn:Er end; cbn [result_bind].
  2:{ split; [done|]. intros [[_ _ _ Hf _ _] _]. destruct Hfin as [Hfin _]. assert (Err e = Ok tt); [|done].
      apply Hfin. intros Hn. by apply Hf. }
  destruct Hfin as [_ Hfin]. specialize (Hfin eq_refl).
  assert (Hs : (kind s = CODE -> Z.testbit (s_flags s) 2 = true) -> seccion_ok tam s).
  { intros Hx. split; [exact Hk|done|lia| |exact E2|exact Hx]. intros Hn. split; [|by apply Hfin].
    intros E0. rewrite (proj2 (Z.eqb_neq _ _)), (proj2 (Z.eqb_eq _ _)) in Heqb0 by done. done. }
  destruct (Z.eqb_spec (kind s) CODE) as [Hc|Hc].
  - unfold SECCION_FLAG_EXEC. rewrite testbit_land by done. destruct (Z.testbit (s_flags s) 2) eqn:Eb; cbn [negb].
    + rewrite orb_true_r. split; [intros [= <-]; split; [by apply Hs|done]|by intros [_ ->]].
    + split; [done|]. intros [[_ _ _ _ _ Hx] _]. by rewrite Hx in Eb.
  - rewrite orb_false_r. split; [intros [= <-]; split; [by apply Hs|done]|by intros [_ ->]].
Qed.

Lemma revisa_todas_iff tam l : forall acc acc', Forall legible l -> tam < 2 ^ 64 ->
  revisa_todas tam acc l = Ok acc' <-> Forall (seccion_ok tam) l /\ acc' = foldl siguiente_acc acc l.
Proof.
  induction l as [|s l IH]; intros acc acc' Hl Ht; cbn [revisa_todas foldl].
  { split; [by intros [= <-]|by intros [_ ->]]. }
  apply Forall_cons in Hl as [Hs Hl]. pose proof (revisa_una_iff tam acc s) as Hu.
  destruct (revisa_una tam acc s) as [a|e]; cbn [result_bind].
  - destruct (proj1 (Hu a Hs Ht) eq_refl) as [H1 ->]. rewrite IH by done. rewrite Forall_cons. tauto.
  - split; [done|]. intros [[H1 _]%Forall_cons _]. assert (Err e = Ok (siguiente_acc acc s)); [|done]. by apply Hu.
Qed.

Lemma foldl_acc l : forall h t f, let '(h', t', f') := foldl siguiente_acc (h, t, f) l in
  (f' = true <-> f = true \/ Exists (fun s => kind s = SIGNATURE) l) /\
  ((h' = h /\ t' = t /\ Forall (fun s => kind s <> CODE) l) \/
   (h' = true /\ exists c, ultima_code l c /\ t' = mem_size c)).
Proof.
  induction l as [|s l IH]; intros h t f; cbn [foldl].
  { split; [rewrite Exists_nil; tauto|by left]. }
  specialize (IH (h || (kind s =? CODE)) (if kind s =? CODE then mem_size s else t) (f || (kind s =? SIGNATURE))).
  change (siguiente_acc (h, t, f) s) with (h || (kind s =? CODE), if kind s =? CODE then mem_size s else t,
    f || (kind s =? SIGNATURE)).
  destruct (foldl _ _ l) as [[h' t'] f']. destruct IH as [IH1 IH2]. split.
  - rewrite IH1, Exists_cons, orb_true_iff, Z.eqb_eq. tauto.
  - destruct IH2 as [(-> & -> & Hn)|(-> & c & (l1 & l2 & -> & Hc) & ->)].
    + destruct (Z.eqb_spec (kind s) CODE) as [E|E].
      * right. rewrite orb_true_r. split; [done|]. exists s. split; [by exists [], l|done].
      * left. rewrite orb_false_r. split; [done|split; [done|by constructor]].
    + right. split; [done|]. exists c. split; [by exists (s :: l1), l2|done].
Qed.

Lemma se_pisan_iff tam a b : tam < 2 ^ 64 -> file_offset a + file_size a <= tam -> file_offset b + file_size b <= tam ->
  se_pisan a b = false <-> file_offset a + file_size a <= file_offset b \/ file_offset b + file_size b <= file_offset a.
Proof.
  intros Ht Ha Hb. unfold se_pisan, saturating_add. rewrite !Z.min_l by lia.
  rewrite andb_false_iff, !Z.ltb_ge. lia.
Qed.

Lemma existsb_false {A} (f : A -> bool) l : existsb f l = false <-> forall x, x ∈ l -> f x = false.
Proof.
  rewrite <- not_true_iff_false, existsb_exists. split.
  - intros H x Hx. apply not_true_iff_false. intros Hf. apply H. exists x. split; [by apply list_elem_of_In|done].
  - intros H (x & Hx & Hf). rewrite H in Hf by (by apply list_elem_of_In). done.
Qed.

Lemma ocupa_fichero_iff s : ocupa_fichero s = true <-> kind s <> BSS /\ file_size s <> 0.
Proof. unfold ocupa_fichero. rewrite negb_true_iff, orb_false_iff, !Z.eqb_neq. done. Qed.

Lemma hay_solape_iff tam l : tam < 2 ^ 64 -> Forall (seccion_ok tam) l -> (forall i s, l !! i = Some s -> indice s = i) ->
  hay_solape l = false <-> disjuntas l.
Proof.
  intros Ht Hok Hi. unfold hay_solape. rewrite existsb_false.
  assert (Hcab : forall i s, l !! i = Some s -> kind s <> BSS -> file_offset s + file_size s <= tam).
  { intros i s Hs Hb. by apply (so_fichero tam s); [apply (Forall_lookup_1 _ _ _ _ Hok Hs)|]. }
  split.
  - intros H i j a b Hij Ha Hb Ka Kb Sa Sb. rewrite <- (se_pisan_iff tam) by eauto.
    specialize (H a (list_elem_of_lookup_2 _ _ _ Ha)). rewrite (Hi i a Ha) in H.
    rewrite (proj2 (ocupa_fichero_iff a)), andb_true_l, existsb_false in H by done.
    specialize (H b). rewrite (proj2 (ocupa_fichero_iff b)), andb_true_l in H by done. apply H.
    apply list_elem_of_lookup. exists (j - S i)%nat. rewrite lookup_drop. by replace (S i + (j - S i))%nat with j by lia.
  - intros H a Ha. apply list_elem_of_lookup in Ha as [i Ha]. rewrite (Hi i a Ha).
    destruct (ocupa_fichero a) eqn:Ea; [|done]. apply ocupa_fichero_iff in Ea as [Ka Sa].
    cbn [andb]. apply existsb_false. intros b Hb. apply list_elem_of_lookup in Hb as [j Hb].
    rewrite lookup_drop in Hb. destruct (ocupa_fichero b) eqn:Eb; [|done]. apply ocupa_fichero_iff in Eb as [Kb Sb].
    cbn [andb]. apply (se_pisan_iff tam); [done|eauto|eauto|]. apply (H i (S i + j)%nat a b); try done. lia.
Qed.

Definition bien_formada (b : list Z) (tam : Z) (r : Revisada) (flags : Z) : Prop :=
  prologo r = b /\ cabecera_ok b tam (entry_offset r) (tabla r) (Z.of_nat (cuantas r)) flags /\
  Forall (seccion_ok tam) (secciones r) /\ disjuntas (secciones r) /\
  (exists c, ultima_code (secciones r) c /\ entry_offset r < mem_size c) /\
  (Z.testbit flags 5 = true -> Exists (fun s => kind s = SIGNATURE) (secciones r)).

Lemma testbit_lor4 f a b c d : 0 <= a -> 0 <= b -> 0 <= c -> 0 <= d ->
  Z.land f (Z.lor (Z.lor (Z.lor (Z.shiftl 1 a) (Z.shiftl 1 b)) (Z.shiftl 1 c)) (Z.shiftl 1 d)) = 0 <->
  Z.testbit f a = false /\ Z.testbit f b = false /\ Z.testbit f c = false /\ Z.testbit f d = false.
Proof.
  intros Ha Hb Hc Hd. rewrite !Z.land_lor_distr_r, !Z.lor_eq_0_iff.
  assert (H : forall i, 0 <= i -> Z.land f (Z.shiftl 1 i) = 0 <-> Z.testbit f i = false).
  { intros i Hi. rewrite <- Z.eqb_eq, testbit_land by done. apply negb_true_iff. }
  rewrite !H by done. tauto.
Qed.

(** The tail of [revisar], from the table on. *)
Lemma revisar_secciones b tam entry tab n flags r :
  Forall is_u8 b -> tam < 2 ^ 64 -> 0 <= tab -> 0 < n <= MAX_SECCIONES -> tab + n * ENTRADA <= Z.of_nat (length b) ->
  let rev := mkRevisada b tab (Z.to_nat n) entry in
  (acc <-? revisa_todas tam (false, 0, false) (secciones rev) ;;
   let '(hay_codigo, tam_codigo, hay_firma) := acc in
   if hay_solape (secciones rev) then Err SeccionesSeSolapan
   else if negb hay_codigo then Err SinCodigo
   else if tam_codigo <=? entry then Err EntryFueraDelCodigo
   else if negb (Z.land flags FLAG_FIRMADO =? 0) && negb hay_firma then Err CabeceraQueSeDesmiente
   else Ok rev) = Ok r <->
  r = rev /\ Forall (seccion_ok tam) (secciones rev) /\ disjuntas (secciones rev) /\
  (exists c, ultima_code (secciones rev) c /\ entry < mem_size c) /\
  (Z.testbit flags 5 = true -> Exists (fun s => kind s = SIGNATURE) (secciones rev)).
Proof.
  intros Hb Ht H0 Hn Hf rev. destruct (secciones_lookup rev) as [Hlen Hlk]; [done..|cbn; lia|].
  assert (Hleg : Forall legible (secciones rev) /\ forall i s, secciones rev !! i = Some s -> indice s = i).
  { assert (Hx : forall i s, secciones rev !! i = Some s -> legible s /\ indice s = i).
    { intros i s Hs. pose proof (lookup_lt_Some _ _ _ Hs) as Hl. apply Hlk in Hs.
      destruct (seccion_Some rev i) as (s' & E & E1 & E2); [done..|cbn; lia|lia|]. rewrite Hs in E.
      injection E as <-. by split. }
    split; [apply Forall_lookup; intros i s Hs; by apply (Hx i)|intros i s Hs; by apply (Hx i)]. }
  destruct Hleg as [Hleg Hind]. pose proof (revisa_todas_iff tam (secciones rev) (false, 0, false)) as Hr.
  destruct (revisa_todas _ _ _) as [[[h t] f]|e]; cbn [result_bind].
  2:{ split; [done|]. intros (_ & Hok & _). assert (Err e = Ok (foldl siguiente_acc (false, 0, false) (secciones rev)));
      [|done]. by apply Hr. }
  destruct (proj1 (Hr (h, t, f) Hleg Ht) eq_refl) as [Hok Hacc].
  pose proof (foldl_acc (secciones rev) false 0 false) as Hfold. rewrite <- Hacc in Hfold. destruct Hfold as [Hf' Hc].
  pose proof (hay_solape_iff tam (secciones rev) Ht Hok Hind) as Hsol.
  destruct (hay_solape _); [split; [done|]; intros (_ & _ & Hd & _); by apply Hsol in Hd|].
  destruct Hc as [(-> & -> & Hno)|(-> & c & Hc & ->)]; cbn [negb].
  { split; [done|]. intros (_ & _ & _ & (c & (l1 & l2 & E & Hk & _) & _) & _). rewrite E in Hno.
    apply Forall_app in Hno as [_ Hno]. by apply Forall_cons in Hno as [? _]. }
  assert (Huniq : forall c', ultima_code (secciones rev) c' -> c' = c).
  { intros c' (l1' & l2' & E' & K' & N'). destruct Hc as (l1 & l2 & E & K & N). rewrite E in E'.
    apply app_eq_inv in E' as [(k & E1 & E2)|(k & E1 & E2)]; (destruct k as [|x k]; [by injection E2|]);
      injection E2 as -> ->.
    - apply Forall_app in N' as [_ N']. by apply Forall_cons in N' as [? _].
    - apply Forall_app in N as [_ N]. by apply Forall_cons in N as [? _]. }
  destruct (Z.leb_spec (mem_size c) entry) as [He|He].
  { split; [done|]. intros (_ & _ & _ & (c' & Hc' & Hlt) & _). apply Huniq in Hc' as ->. lia. }
  unfold FLAG_FIRMADO. rewrite testbit_land, negb_involutive by done.
  destruct (Z.testbit flags 5) eqn:E5, f eqn:Ef; cbn [negb andb].
  2:{ split; [done|]. intros (_ & _ & _ & _ & Hx). specialize (Hx eq_refl). by assert (false = true); [apply Hf'; right|]. }
  all: split; [intros [= <-]; split_and!; [done|done|by apply Hsol|by exists c|]|by intros (-> & _)].
  all: intros Hx; try discriminate Hx. by destruct (proj1 Hf' eq_refl).
Qed.

Lemma revisar_iff b tam r : Forall is_u8 b -> 0 <= tam < 2 ^ 64 ->
  revisar b tam = Ok r <-> exists flags, bien_formada b tam r flags.
Proof.
  intros Hb Ht. unfold revisar.
  destruct (Z.ltb_spec (Z.of_nat (length b)) CABECERA) as [Hl|Hl].
  { split; [done|]. intros (flags & _ & [] & _). lia. }
  unfold u8_en, u16_en, u32_en, u64_en, CABECERA in *.
  assert (Hc : forall n o, (o + n <= 48)%nat -> campo n b (Z.of_nat o) = Some (of_le (slice o n b)) /\
    0 <= of_le (slice o n b) < 2 ^ (8 * Z.of_nat n)).
  { intros n o H. destruct (campo_Some n b (Z.of_nat o)) as [H1 H2]; [done|lia|lia|]. by rewrite Nat2Z.id in H1, H2. }
  destruct (Hc 4%nat 0%nat) as [E0 _]; [lia|]. destruct (Hc 2%nat 4%nat) as [E4 _]; [lia|].
  destruct (Hc 4%nat 8%nat) as [E8 _]; [lia|]. destruct (Hc 2%nat 14%nat) as [E14 _]; [lia|].
  destruct (Hc 8%nat 24%nat) as [E24 R24]; [lia|]. destruct (Hc 8%nat 32%nat) as [E32 R32]; [lia|].
  destruct (Hc 4%nat 40%nat) as [E40 R40]; [lia|]. destruct (Hc 4%nat 44%nat) as [E44 _]; [lia|].
  change (Z.of_nat 0) with 0 in E0. change (Z.of_nat 4) with 4 in E4, R40. change (Z.of_nat 8) with 8 in *.
  change (Z.of_nat 14) with 14 in E14. change (Z.of_nat 24) with 24 in E24. change (Z.of_nat 32) with 32 in E32.
  change (Z.of_nat 40) with 40 in E40. change (Z.of_nat 44) with 44 in E44.
  rewrite E0, E4, E8, E14, E24, E32, E40, E44. cbn [ok_or result_bind].
  change (Z.to_nat 12) with 12%nat. change (Z.to_nat 13) with 13%nat. change (Z.to_nat 16) with 16%nat.
  change (Z.to_nat 17) with 17%nat.
  destruct (lookup_lt_is_Some_2 b 12) as [ar Har]; [lia|]. destruct (lookup_lt_is_Some_2 b 13) as [en Hen]; [lia|].
  destruct (lookup_lt_is_Some_2 b 16) as [ma Hma]; [lia|]. destruct (lookup_lt_is_Some_2 b 17) as [mi Hmi]; [lia|].
  rewrite Har, Hen, Hma, Hmi. cbn [ok_or result_bind].
  set (flags := of_le (slice 8 4 b)). set (n := of_le (slice 40 4 b)) in *. set (tab := of_le (slice 32 8 b)) in *.
  set (entry := of_le (slice 24 8 b)) in *. change (8 * 8) with 64 in *. change (8 * 4) with 32 in *.
  assert (Hcab : forall f, bien_formada b tam r f -> cabecera_ok b tam entry tab n flags /\ f = flags).
  { intros f (_ & H & _). pose proof (ca_entry _ _ _ _ _ _ H) as X1. pose proof (ca_tabla _ _ _ _ _ _ H) as X2.
    pose proof (proj1 (ca_n _ _ _ _ _ _ H)) as X3. pose proof (ca_flags _ _ _ _ _ _ H) as X4.
    rewrite <- X1, <- X2, <- X3, <- X4 in H. by split. }
  destruct (negb _ || _ || _) eqn:C1.
  { split; [done|]. intros [f [H _]%Hcab]. destruct H as [_ H1 H2 _ _ _ _ _ _ _ [_ H3] _ _ _ _ _].
    rewrite H1, H2, !Z.eqb_refl in C1. cbn [negb orb] in C1. bdestr. lia. }
  apply orb_false_iff in C1 as [[C1 C2]%orb_false_iff C3]. bdestr.
  destruct (negb _ && _) eqn:C4.
  { split; [done|]. intros [f [H _]%Hcab]. destruct (ca_total _ _ _ _ _ _ H); bdestr; lia. }
  destruct (Z.eqb_spec ar ARCH_X86_64) as [Ear|Ear]; cbn [negb];
    [|split; [done|]; intros [f [H _]%Hcab]; pose proof (ca_arch _ _ _ _ _ _ H); congruence].
  destruct (Z.eqb_spec en ENDIAN_LE) as [Een|Een]; cbn [negb];
    [|split; [done|]; intros [f [H _]%Hcab]; pose proof (ca_endian _ _ _ _ _ _ H); congruence].
  destruct (Z.eqb_spec (of_le (slice 14 2 b)) 0) as [Ecpu|Ecpu]; cbn [negb];
    [|split; [done|]; intros [f [H _]%Hcab]; by destruct Ecpu, H].
  destruct (abi_admisible ma mi) eqn:Eabi; cbn [negb].
  2:{ split; [done|]. intros [f [H _]%Hcab]. destruct (ca_abi _ _ _ _ _ _ H) as (x & y & Hx & Hy & Hz). congruence. }
  unfold FLAG_OBJETO, FLAG_EJECUTABLE. rewrite !testbit_land by done.
  destruct (Z.testbit flags 11) eqn:F11; cbn [negb];
    [split; [done|]; intros [f [H _]%Hcab]; pose proof (ca_objeto _ _ _ _ _ _ H); congruence|].
  destruct (Z.testbit flags 0) eqn:F0; cbn [negb];
    [|split; [done|]; intros [f [H _]%Hcab]; pose proof (ca_ejecutable _ _ _ _ _ _ H); congruence].
  pose proof (testbit_lor4 flags 4 7 6 3 ltac:(done) ltac:(done) ltac:(done) ltac:(done)) as H4.
  change (Z.lor _ _) with FLAGS_NO_IMPLEMENTADAS in H4.
  destruct (Z.eqb_spec (Z.land flags FLAGS_NO_IMPLEMENTADAS) 0) as [Eni|Eni]; cbn [negb].
  2:{ split; [done|]. intros [f [H _]%Hcab]. destruct Eni, (ca_implementado _ _ _ _ _ _ H). apply H4. tauto. }
  apply H4 in Eni. destruct (Z.ltb_spec MAX_SECCIONES n) as [En|En].
  { split; [done|]. intros [f [H _]%Hcab]. pose proof (ca_n _ _ _ _ _ _ H). lia. }
  unfold checked_add. destruct (decide (tab + n * ENTRADA < 2 ^ 64)) as [Et|Et]; cbn [ok_or result_bind].
  2:{ split; [done|]. intros [f [H _]%Hcab]. pose proof (ca_cabe _ _ _ _ _ _ H). lia. }
  destruct (Z.ltb_spec tam (tab + n * ENTRADA)) as [Et1|Et1].
  { split; [done|]. intros [f [H _]%Hcab]. pose proof (ca_cabe _ _ _ _ _ _ H). lia. }
  destruct (Z.ltb_spec (Z.of_nat (length b)) (tab + n * ENTRADA)) as [Et2|Et2].
  { split; [done|]. intros [f [H _]%Hcab]. pose proof (ca_cabe _ _ _ _ _ _ H). lia. }
  rewrite (revisar_secciones b tam entry tab n flags r) by (done || lia).
  assert (Hcok : cabecera_ok b tam entry tab n flags).
  { split; try done; try congruence; [by exists ma, mi|split; [done|lia]| |tauto].
    destruct (Z.eqb_spec (of_le (slice 44 4 b)) 0); [by left|right]. cbn [negb andb] in C4. bdestr. lia. }
  split.
  - intros (-> & H). exists flags. split; [done|]. cbn [entry_offset tabla cuantas].
    rewrite Z2Nat.id by lia. by split.
  - intros [f Hf]. destruct (Hcab f Hf) as [_ ->]. destruct Hf as (H1 & H2 & H3). destruct r as [pr tb cu eo].
    cbn [prologo entry_offset tabla cuantas] in *. subst pr.
    assert (Er : mkRevisada b tab (Z.to_nat n) entry = mkRevisada b tb cu eo).
    { pose proof (ca_entry _ _ _ _ _ _ H2). pose proof (ca_tabla _ _ _ _ _ _ H2).
      pose proof (proj1 (ca_n _ _ _ _ _ _ H2)) as Hn'. f_equal; [done| |done]. unfold n. rewrite Hn'. apply Nat2Z.id. }
    rewrite Er. split; [done|]. pose proof (ca_entry _ _ _ _ _ _ H2) as He. fold entry in He. by rewrite He.
Qed.

(** ** More bytes, a bigger file *)

Lemma campo_app n b c o : 0 <= o -> o + Z.of_nat n <= Z.of_nat (length b) -> campo n (b ++ c) o = campo n b o.
Proof.
  intros H0 H. unfold campo. rewrite length_app, !(proj2 (Z.leb_le _ _)) by lia. by rewrite slice_app by lia.
Qed.

Definition con_prologo (r : Revisada) (b : list Z) : Revisada := mkRevisada b (tabla r) (cuantas r) (entry_offset r).

Lemma secciones_app r c : 0 <= tabla r ->
  tabla r + Z.of_nat (cuantas r) * ENTRADA <= Z.of_nat (length (prologo r)) ->
  secciones (con_prologo r (prologo r ++ c)) = secciones r.
Proof.
  intros H0 H. unfold secciones. cbn [cuantas con_prologo]. unfold ENTRADA in *.
  assert (Hs : forall i, (i < cuantas r)%nat -> seccion (con_prologo r (prologo r ++ c)) i = seccion r i).
  { intros i Hi. unfold seccion, u16_en, u32_en, u64_en, u8_en, ENTRADA. cbn [cuantas con_prologo prologo tabla].
    rewrite !campo_app, lookup_app_l by lia. done. }
  assert (Hall : Forall (fun i => i < cuantas r)%nat (seq 0 (cuantas r))) by (apply Forall_seq; lia).
  induction Hall as [|i l Hi _ IH]; [done|]. cbn [omap list_omap]. rewrite Hs by done.
  destruct (seccion r i); [f_equal|]; exact IH.
Qed.

Lemma tabla_pos b tam r f : Forall is_u8 b -> bien_formada b tam r f -> 0 <= tabla r.
Proof.
  intros Hb (_ & Hc & _). rewrite <- (ca_tabla _ _ _ _ _ _ Hc). pose proof (ca_largo _ _ _ _ _ _ Hc) as Hl.
  destruct (campo_Some 8 b 32) as [_ X]; [done|lia|unfold CABECERA in Hl; lia|].
  change (Z.to_nat 32) with 32%nat in X. lia.
Qed.

(** A verdict of yes does not depend on what follows the table, and holds for
    any bigger file. *)
Lemma revisar_mas b c tam tam' r : Forall is_u8 (b ++ c) -> 0 <= tam <= tam' -> tam' < 2 ^ 64 ->
  revisar b tam = Ok r ->
  revisar (b ++ c) tam' = Ok (con_prologo r (b ++ c)) /\ secciones (con_prologo r (b ++ c)) = secciones r.
Proof.
  intros Hb Ht Ht' H. pose proof (proj1 (Forall_app _ _ _) Hb) as [Hb1 _].
  apply revisar_iff in H as (f & Hp & Hc & Hs & Hd & He & Hf); [|done|lia].
  pose proof (ca_cabe _ _ _ _ _ _ Hc) as [_ Hcabe]. rewrite <- Hp in Hcabe.
  assert (Htab : 0 <= tabla r) by (by apply (tabla_pos b tam r f)).
  assert (Hsec : secciones (con_prologo r (b ++ c)) = secciones r) by (rewrite <- Hp; by apply secciones_app).
  split; [|done]. apply revisar_iff; [done|lia|]. exists f.
  split; [done|]. rewrite Hsec. cbn [con_prologo entry_offset tabla cuantas]. split; [|split; [|by split_and!]].
  - destruct Hc as [K1 K2 K3 K4 K5 K6 K7 K8 K9 K10 K11 K12 K13 K14 K15 K16]. unfold CABECERA in K1.
    destruct K8 as (ma & mi & A1 & A2 & A3).
    split; rewrite ?slice_app, ?lookup_app_l, ?length_app by lia; try done; unfold CABECERA; try lia.
    by exists ma, mi.
  - eapply Forall_impl; [exact Hs|]. intros s [G1 G2 G3 G4 G5 G6]. split; try done.
    intros Hk. destruct (G4 Hk). split; [done|lia].
Qed.

(** ** The plan *)

Definition es (k : Z) (s : Seccion) : Prop := kind s = k.
#[global] Instance es_dec k s : Decision (es k s) := decide (kind s = k).
Definition cargable (s : Seccion) : Prop := se_carga (kind s) = true.
#[global] Instance cargable_dec s : Decision (cargable s) := decide (se_carga (kind s) = true).
(** Neither mapped nor noted, or noted as the requirements. *)
Definition saltada (s : Seccion) : Prop :=
  se_carga (kind s) = false /\ kind s <> RELOCS /\ kind s <> SIGNATURE.
#[global] Instance saltada_dec s : Decision (saltada s).
Proof. unfold saltada. apply _. Defined.

(** Where the last section of a type is. *)
Definition rango_de (k : Z) (l : list Seccion) : Z * Z * option nat :=
  from_option (fun s => (file_offset s, file_size s, Some (indice s))) (0, 0, None) (last (filter (es k) l)).

Definition plan_ok (p : BexLoadPlan) (entry : Z) (l : list Seccion) : Prop :=
  p_entry_offset p = entry /\ sections p = filter cargable l /\
  skipped_sections p = length (filter saltada l) /\
  (relocs_file_offset p, relocs_file_size p, relocs_indice p) = rango_de RELOCS l /\
  (firma_file_offset p, firma_file_size p, firma_indice p) = rango_de SIGNATURE l /\
  (requisitos_file_offset p, requisitos_file_size p) = fst (rango_de REQUISITOS l).

Lemma filter_snoc {A} (P : A -> Prop) `{forall x, Decision (P x)} l x :
  filter P (l ++ [x]) = filter P l ++ (if decide (P x) then [x] else []).
Proof. rewrite filter_app. cbn [filter list_filter]. by destruct (decide (P x)). Qed.

Lemma rango_de_snoc k l s : rango_de k (l ++ [s]) =
  if decide (kind s = k) then (file_offset s, file_size s, Some (indice s)) else rango_de k l.
Proof.
  unfold rango_de. rewrite filter_snoc. unfold es. destruct (decide (kind s = k)); [by rewrite last_snoc|by rewrite app_nil_r].
Qed.

Lemma se_carga_iff k : se_carga k = true <-> 1 <= k <= 4.
Proof. unfold se_carga, CODE, RODATA, DATA, BSS. rewrite !orb_true_iff, !Z.eqb_eq. lia. Qed.

Lemma apunta_ok p entry l s : plan_ok p entry l -> plan_ok (apunta p s) entry (l ++ [s]).
Proof.
  intros (P1 & P2 & P3 & P4 & P5 & P6). unfold plan_ok. rewrite !rango_de_snoc, !filter_snoc.
  assert (Hc : cargable s <-> 1 <= kind s <= 4) by apply se_carga_iff.
  assert (Hs : saltada s <-> ~ (1 <= kind s <= 4) /\ kind s <> 7 /\ kind s <> 15).
  { unfold saltada, RELOCS, SIGNATURE. rewrite <- not_true_iff_false, se_carga_iff. done. }
  unfold apunta. destruct (se_carga (kind s)) eqn:K4; [apply se_carga_iff in K4|
    rewrite <- not_true_iff_false, se_carga_iff in K4]; cbn [negb];
  repeat case_decide; rewrite ?Hc, ?Hs in *; try lia; unfold RELOCS, SIGNATURE, REQUISITOS in *;
  repeat (case_if; bdestr; try lia); rewrite ?app_nil_r, ?length_app, ?Nat.add_1_r;
  refine (conj _ (conj _ (conj _ (conj _ (conj _ _))))); cbn; congruence.
Qed.

Lemma plan_ok_inj p q entry l : plan_ok p entry l -> plan_ok q entry l -> p = q.
Proof.
  intros (P1 & P2 & P3 & P4 & P5 & P6) (Q1 & Q2 & Q3 & Q4 & Q5 & Q6). destruct p, q.
  cbn in *. rewrite <- Q4 in P4. rewrite <- Q5 in P5. rewrite <- Q6 in P6. congruence.
Qed.

Lemma filter_pos {A} (P : A -> Prop) `{forall x, Decision (P x)} (x : A) l : x ∈ l -> P x -> (0 < length (filter P l))%nat.
Proof.
  intros Hx Hp. destruct (filter P l) eqn:E; [|cbn; lia].
  assert (Hn : x ∈ filter P l) by (by apply list_elem_of_filter). rewrite E in Hn. by apply elem_of_nil in Hn.
Qed.

Lemma length_omap_le {A B} (f : A -> option B) l : (length (omap f l) <= length l)%nat.
Proof. induction l as [|x l IH]; cbn; [lia|]. destruct (f x); cbn; lia. Qed.

Lemma foldl_apunta_ok entry l2 : forall p l1, plan_ok p entry l1 -> plan_ok (foldl apunta p l2) entry (l1 ++ l2).
Proof.
  induction l2 as [|s l2 IH]; intros p l1 H; cbn [foldl]; [by rewrite app_nil_r|].
  rewrite cons_middle, app_assoc. by apply IH, apunta_ok.
Qed.

(** [inspect] is the verdict of the gate and the plan of its sections. *)
Lemma inspect_ok b tam p : inspect b tam = Ok p <->
  exists r, revisar b tam = Ok r /\ p = foldl apunta (mkPlan (entry_offset r) [] 0 0 0 None 0 0 0 0 None) (secciones r) /\
    plan_ok p (entry_offset r) (secciones r).
Proof.
  unfold inspect. destruct (revisar b tam) as [r|f].
  - split; [intros [= <-]; exists r; split; [done|split; [done|]]; by apply (foldl_apunta_ok _ _ _ [])|].
    by intros (r' & [= <-] & -> & _).
  - split; [done|]. by intros (r & ? & _).
Qed.

Lemma foldl_alarga_le l : forall h, h <= foldl alarga h l /\
  Forall (fun s => se_lee (kind s) = true -> kind s <> BSS ->
    saturating_add (file_offset s) (file_size s) <= foldl alarga h l) l /\
  (foldl alarga h l = h \/ exists s, s ∈ l /\ se_lee (kind s) = true /\ kind s <> BSS /\
    foldl alarga h l = saturating_add (file_offset s) (file_size s)).
Proof.
  induction l as [|s l IH]; intros h; cbn [foldl]; [split; [done|split; [done|by left]]|].
  destruct (IH (alarga h s)) as (H1 & H2 & H3).
  assert (Ha : h <= alarga h s /\ (se_lee (kind s) = true -> kind s <> BSS ->
     saturating_add (file_offset s) (file_size s) <= alarga h s) /\
     (alarga h s = h \/ se_lee (kind s) = true /\ kind s <> BSS /\ alarga h s = saturating_add (file_offset s) (file_size s))).
  { unfold alarga. destruct (Z.eqb_spec (kind s) BSS), (se_lee (kind s)); cbn [orb negb];
      try (split; [lia|split; [done|by left]]).
    case_if; bdestr; (split; [lia|split; [lia|]]); [by right|by left]. }
  destruct Ha as (A1 & A2 & A3). split; [lia|]. split.
  - constructor; [|done]. intros X Y. specialize (A2 X Y). lia.
  - destruct H3 as [->|(s' & M & H3)]; [|right; exists s'; split; [by right|done]].
    destruct A3 as [->|A3]; [by left|right]. exists s. split; [by left|done].
Qed.

(** ** The signature table *)

(** The [n] entries of a table, cut every 40 bytes. *)
Fixpoint entradas (n : nat) (f : list Z) : list (Z * list Z) :=
  match n with
  | O => []
  | S n => (of_le (take 2 f), slice 8 DIGEST f) :: entradas n (drop 40 f)
  end.
Definition declarado (f : Firmas) (idx : nat) : option (list Z) :=
  (fun p => snd (snd p)) <$>
    list_find (fun e => fst e = Z.of_nat idx) (entradas (Z.to_nat (f_cuantos f)) (drop 8 (firma f))).

Lemma firmas_abrir_ok b ip f : firmas_abrir b ip = Some f ->
  firma f = b /\ propio f = ip /\ (8 + 40 * Z.to_nat (f_cuantos f) <= length b)%nat.
Proof.
  unfold firmas_abrir, u32_en, campo, FIRMAS_CAB, FIRMAS_ENTRADA. repeat (case_if; [try done|]); bdestr; try lia.
  all: cbn [mbind option_bind]; case_if; [done|]; intros [= <-]; cbn [firma propio f_cuantos]; bdestr; split_and!; try done; lia.
Qed.

Lemma digest_en_Some f k : (8 + 40 * S k <= length f)%nat ->
  digest_en f (FIRMAS_CAB + Z.of_nat k * FIRMAS_ENTRADA) = Some (slice 8 DIGEST (drop (8 + 40 * k) f)).
Proof.
  intros H. unfold digest_en, FIRMAS_CAB, FIRMAS_ENTRADA. change (Z.of_nat DIGEST) with 32.
  rewrite (proj2 (Z.leb_le _ _)) by lia. unfold slice. rewrite drop_drop. do 3 f_equal. lia.
Qed.

Lemma digest_loop_spec f idx n : forall k, (8 + 40 * (k + n) <= length f)%nat ->
  digest_loop f idx (Z.of_nat k) n =
    (fun p => snd (snd p)) <$> list_find (fun e => fst e = idx) (entradas n (drop (8 + 40 * k) f)).
Proof.
  induction n as [|n IH]; intros k Hl; [done|]. cbn [digest_loop entradas list_find].
  assert (E : u16_en f (FIRMAS_CAB + Z.of_nat k * FIRMAS_ENTRADA) = Some (of_le (take 2 (drop (8 + 40 * k) f)))).
  { unfold u16_en, campo, FIRMAS_CAB, FIRMAS_ENTRADA. rewrite (proj2 (Z.leb_le _ _)) by lia. unfold slice. do 4 f_equal. lia. }
  rewrite E. cbn [mbind option_bind fst]. destruct (Z.eqb_spec (of_le (take 2 (drop (8 + 40 * k) f))) idx) as [Q|Q].
  - rewrite decide_True by done. cbn [fmap option_fmap option_map snd]. apply digest_en_Some. lia.
  - rewrite decide_False by done. replace (Z.of_nat k + 1) with (Z.of_nat (S k)) by lia. rewrite IH by lia.
    rewrite drop_drop. replace (8 + 40 * k + 40)%nat with (8 + 40 * S k)%nat by lia.
    destruct (list_find _ _) as [[??]|]; done.
Qed.

Lemma cadena_loop_spec f n : forall k h bytes, (8 + 40 * (k + n) <= length f)%nat -> hrep bytes h ->
  Z.of_nat (length bytes + 32 * n) < 2 ^ 64 ->
  exists h', cadena_loop f h (Z.of_nat k) n = Some h' /\
    hrep (bytes ++ concat (snd <$> entradas n (drop (8 + 40 * k) f))) h'.
Proof.
  induction n as [|n IH]; intros k h bytes Hl Hh Hb; cbn [cadena_loop entradas].
  { exists h. split; [done|]. cbn. by rewrite app_nil_r. }
  rewrite digest_en_Some by lia. cbn [mbind option_bind]. set (d := slice 8 DIGEST _).
  assert (Hd : length d = 32%nat) by (apply length_slice; rewrite length_drop; unfold DIGEST; lia).
  destruct (update_rep bytes d h Hh) as (h1 & -> & Hh1); [rewrite length_app; lia|]. cbn [mbind option_bind].
  replace (Z.of_nat k + 1) with (Z.of_nat (S k)) by lia.
  destruct (IH (S k) h1 (bytes ++ d)) as (h' & -> & Hh'); [lia|done|rewrite length_app; lia|].
  exists h'. split; [done|]. rewrite fmap_cons. cbn [concat snd]. rewrite drop_drop, app_assoc.
  by replace (8 + 40 * k + 40)%nat with (8 + 40 * S k)%nat by lia.
Qed.

Lemma trozos_rep ps : forall a bytes h, hasher a = Some h -> hrep bytes h ->
  Z.of_nat (length (bytes ++ concat ps)) < 2 ^ 64 ->
  exists h', hasher (foldl trozo a ps) = Some h' /\ hrep (bytes ++ concat ps) h' /\
    esperado (foldl trozo a ps) = esperado a /\
    vistos (foldl trozo a ps) = vistos a + Z.of_nat (length (concat ps)).
Proof.
  induction ps as [|d ps IH]; intros a bytes h Ha Hh Hb; cbn [foldl concat] in *.
  { exists h. rewrite app_nil_r. cbn. split_and!; try done; lia. }
  unfold trozo at 2 4 6. destruct (Nat.eqb_spec (length d) 0) as [E|E].
  { destruct d; [|done]. by apply (IH a bytes h). }
  rewrite app_assoc in Hb.
  destruct (update_rep bytes d h Hh) as (h1 & E1 & Hh1); [rewrite !length_app in *; lia|].
  destruct (IH (mkAterrizaje (at_kind a) (h ← hasher a; update h d) (esperado a) (vistos a + Z.of_nat (length d)))
    (bytes ++ d) h1) as (h' & Q1 & Q2 & Q3 & Q4); [cbn [hasher]; by rewrite Ha|done..|].
  exists h'. rewrite app_assoc, Q3, Q4, length_app. cbn [esperado vistos]. split_and!; try done. lia.
Qed.

(** A program of one section of code and one of zeros, and a signature of one
    section. *)
Definition demo_seccion (k fl off size mem al : Z) : list Z :=
  [k; 0; 0; 0] ++ le 4 fl ++ le 8 off ++ le 8 size ++ le 8 mem ++ le 8 0 ++ le 2 al ++ le 6 0.
Definition demo : list Z :=
  le 4 MAGIC ++ le 2 1 ++ le 2 0 ++ le 4 1 ++ [1; 0] ++ le 2 0 ++ [2; 0] ++ le 6 0 ++ le 8 2 ++ le 8 48 ++
  le 4 2 ++ le 4 148 ++ demo_seccion CODE 4 144 4 8 16 ++ demo_seccion BSS 0 0 0 64 8.
Definition demo_plan : BexLoadPlan :=
  mkPlan 2 [mkSeccion 0 CODE 4 144 4 8 16; mkSeccion 1 BSS 0 0 0 64 8] 0 0 0 None 0 0 0 0 None.
Definition demo_firma : list Z := le 4 1 ++ le 4 0 ++ le 2 0 ++ le 6 0 ++ hash_ref [1; 2; 3].

Lemma bytes_decide l : forallb (fun x => (0 <=? x) && (x <? 256)) l = true -> Forall is_u8 l.
Proof.
  rewrite forallb_forall. intros H. apply Forall_forall. intros x Hx. apply list_elem_of_In, H in Hx.
  unfold is_u8. apply andb_true_iff in Hx as [? ?]. lia.
Qed.

(** * The properties *)

(** C24: the gate. A file is admitted exactly when its header carries the magic,
    the version, the machine, an admissible ABI and only implemented flags, its
    table is inside the file and inside what was read, each section is
    well-formed and inside the file (the sum is taken without overflow), no two
    sections share a byte of the file, and the entry point is inside the last
    code section; and then the plan of the loader is the loadable sections in the
    order of the table, at most the sixteen its array has, the place of the
    relocations, of the signature and of the requirements, and how many were
    skipped. *)
Theorem inspect_spec b tam p (Hb : Forall is_u8 b) (Ht : 0 <= tam < 2 ^ 64) :
  (inspect b tam = Ok p <->
   exists r flags, bien_formada b tam r flags /\ plan_ok p (entry_offset r) (secciones r)) /\
  (inspect b tam = Ok p -> (0 < length (sections p) <= MAX_BEX_SECTIONS)%nat).
Proof.
  assert (H : inspect b tam = Ok p <->
    exists r flags, bien_formada b tam r flags /\ plan_ok p (entry_offset r) (secciones r)).
  { rewrite inspect_ok. split.
    - intros (r & Hr & _ & Hp). apply revisar_iff in Hr as [flags Hr]; [|done..]. by exists r, flags.
    - intros (r & flags & Hr & Hp). exists r. split; [by apply revisar_iff; [..|exists flags]|].
      split; [|done]. pose proof (foldl_apunta_ok (entry_offset r) (secciones r)
        (mkPlan (entry_offset r) [] 0 0 0 None 0 0 0 0 None) [] ltac:(done)) as Hq.
      by apply (plan_ok_inj _ _ _ _ Hp). }
  split; [done|]. rewrite H. intros (r & flags & (Hp & Hc & _ & _ & (c & (l1 & l2 & E & K & _) & _) & _) & Hplan).
  destruct Hplan as (_ & -> & _). split.
  - apply (filter_pos cargable c); [rewrite E; set_solver|]. apply se_carga_iff. rewrite K. done.
  - etrans; [apply length_filter|]. pose proof (ca_n _ _ _ _ _ _ Hc) as [_ Hn].
    etrans; [apply length_omap_le|]. rewrite length_seq. unfold MAX_SECCIONES, MAX_BEX_SECTIONS in *. lia.
Qed.

Lemma inspect_spec_witness : inspect demo 148 = Ok demo_plan /\
  (exists r flags, bien_formada demo 148 r flags /\ plan_ok demo_plan (entry_offset r) (secciones r)).
Proof.
  assert (E : inspect demo 148 = Ok demo_plan) by (vm_compute; reflexivity).
  split; [exact E|]. apply (inspect_spec demo 148 demo_plan); [apply bytes_decide; vm_compute; reflexivity|lia|exact E].
Defined.

(** C25: the prologue is enough, and no longer than that. When the gate admits a
    file of [tam] bytes from the first [length b] of them, [necesita] answers how
    many bytes to bring: never more than the file has, never less than the end of
    the table nor than where any section that the plan uses ends (loaded,
    relocations, signature, requirements), and exactly the end of the table or of
    one of the sections of the table that are read, [Bss] aside. Reading any
    further bytes [c] changes neither the plan nor the number. *)
Theorem necesita_suficiente b c tam p (Hb : Forall is_u8 (b ++ c)) (Ht : 0 <= tam < 2 ^ 64) :
  inspect b tam = Ok p ->
  exists h r, necesita b = Ok h /\ 0 <= h <= tam /\
    (forall s, s ∈ sections p -> kind s <> BSS -> file_offset s + file_size s <= h) /\
    relocs_file_offset p + relocs_file_size p <= h /\
    firma_file_offset p + firma_file_size p <= h /\
    requisitos_file_offset p + requisitos_file_size p <= h /\
    (revisar b tam = Ok r /\ tabla r + Z.of_nat (cuantas r) * ENTRADA <= h /\
     (h = tabla r + Z.of_nat (cuantas r) * ENTRADA \/
      exists s, s ∈ secciones r /\ se_lee (kind s) = true /\ kind s <> BSS /\
        h = file_offset s + file_size s)) /\
    inspect (b ++ c) tam = Ok p /\ necesita (b ++ c) = Ok h.
Proof.
  intros (r & Hr & -> & Hplan)%inspect_ok. pose proof (proj1 (Forall_app _ _ _) Hb) as [Hb1 _].
  destruct (revisar_mas b [] tam (2 ^ 64 - 1) r) as [E1 S1]; [by rewrite app_nil_r|lia|lia|done|].
  destruct (revisar_mas b c tam (2 ^ 64 - 1) r) as [E2 S2]; [done|lia|lia|done|].
  destruct (revisar_mas b c tam tam r) as [E3 _]; [done|lia|lia|done|].
  rewrite app_nil_r in *. set (h := hasta_donde_hace_falta r).
  assert (Hh : forall r', secciones r' = secciones r -> tabla r' = tabla r -> cuantas r' = cuantas r ->
    hasta_donde_hace_falta r' = h) by (intros r' Q1 Q2 Q3; unfold h, hasta_donde_hace_falta; by rewrite Q1, Q2, Q3).
  exists h, r. unfold necesita. rewrite E1, E2, !Hh by done. pose proof Hr as Hr0.
  apply revisar_iff in Hr as (f & Hp & Hc & Hs & Hrest); [|done..].
  destruct (foldl_alarga_le (secciones r) (tabla r + Z.of_nat (cuantas r) * ENTRADA)) as (A1 & A2 & A3).
  change (foldl alarga _ _) with h in A1, A2, A3.
  assert (Htab : 0 <= tabla r) by (by apply (tabla_pos b tam r f)).
  pose proof (ca_cabe _ _ _ _ _ _ Hc) as [Hcabe _]. unfold ENTRADA in *.
  assert (Hfin : forall s, s ∈ secciones r -> kind s <> BSS -> se_lee (kind s) = true ->
    file_offset s + file_size s <= h).
  { intros s Hin Hk Hlee. rewrite Forall_forall in A2, Hs. specialize (A2 s Hin Hlee Hk).
    pose proof (so_fichero _ _ (Hs s Hin) Hk) as [_ X]. unfold saturating_add in A2. lia. }
  assert (Hran : forall k, se_lee k = true -> k <> BSS -> fst (fst (rango_de k (secciones r))) + snd (fst (rango_de k (secciones r))) <= h).
  { intros k Hk Hb'. unfold rango_de. destruct (last (filter (es k) (secciones r))) as [s|] eqn:El; cbn; [|lia].
    apply last_Some_elem_of, list_elem_of_filter in El as [Hk' Hin]. unfold es in Hk'. subst k. by apply Hfin. }
  destruct Hplan as (P1 & P2 & P3 & P4 & P5 & P6).
  set (q := foldl apunta _ (secciones r)) in *.
  pose proof (Hran RELOCS eq_refl ltac:(done)) as R1. rewrite <- P4 in R1.
  pose proof (Hran SIGNATURE eq_refl ltac:(done)) as R2. rewrite <- P5 in R2.
  pose proof (Hran REQUISITOS eq_refl ltac:(done)) as R3. rewrite <- P6 in R3. cbn [fst snd] in R1, R2, R3.
  assert (Hex : h = tabla r + Z.of_nat (cuantas r) * 48 \/
    exists s, s ∈ secciones r /\ se_lee (kind s) = true /\ kind s <> BSS /\
      h = file_offset s + file_size s).
  { destruct A3 as [->|(s & Hin & Hlee & Hk & ->)]; [by left|right].
    exists s. do 3 (split; [done|]). rewrite Forall_forall in Hs.
    pose proof (so_fichero _ _ (Hs s Hin) Hk) as [_ X]. unfold saturating_add. lia. }
  split; [done|]. split; [|split; [|split; [done|split; [done|split; [done|split; [|split; [|done]]]]]]].
  - split; [lia|]. destruct Hex as [->|(s & Hin & _ & Hk & ->)]; [done|].
    rewrite Forall_forall in Hs. by destruct (so_fichero _ _ (Hs s Hin) Hk) as [_ X].
  - intros s Hin Hk. rewrite P2 in Hin. apply list_elem_of_filter in Hin as [Hca Hin]. apply Hfin; [done..|].
    unfold se_lee. unfold cargable in Hca. by rewrite Hca.
  - split; [exact Hr0|]. split; [exact A1|exact Hex].
  - unfold inspect. rewrite E3. unfold q. f_equal. cbn [con_prologo entry_offset]. by f_equal.
Qed.

Lemma necesita_suficiente_witness : exists h, necesita (demo ++ [0x90]) = Ok h /\ 0 <= h <= 148 /\ h = 148.
Proof.
  destruct (necesita_suficiente demo [0x90] 148 demo_plan) as (h & r & H1 & H2 & _ & _ & _ & _ & _ & _ & H3);
    [apply bytes_decide; vm_compute; reflexivity|lia|vm_compute; reflexivity|].
  exists h. split; [exact H3|split; [exact H2|]].
  assert (E : necesita demo = Ok 148) by (vm_compute; reflexivity). rewrite E in H1. by injection H1.
Defined.

Lemma cierre_es firma_b ip F idx k ps :
  Forall is_u8 firma_b -> firmas_abrir firma_b ip = Some F ->
  Z.of_nat (length (concat ps)) < 2 ^ 64 -> Z.of_nat (length firma_b) < 2 ^ 64 ->
  let a := foldl trozo (at_abrir k (digest_de F idx)) ps in
  cerrar a = Some (match declarado F idx with
                   | Some e => if bool_decide (ip = Some idx) then Ok SinFirma
                               else if bool_decide (hash_ref (concat ps) = e) then Ok Cuadra else Err HashNoCuadra
                   | None => Ok SinFirma
                   end) /\
  vistos a = Z.of_nat (length (concat ps)) /\
  cadena F = Some (hash_ref (concat (snd <$> entradas (Z.to_nat (f_cuantos F)) (drop 8 firma_b)))).
Proof.
  intros Hf Ha Hps Hl a. destruct (firmas_abrir_ok _ _ _ Ha) as (F1 & F2 & F3).
  set (n := Z.to_nat (f_cuantos F)) in *.
  assert (Hd : digest_de F idx = if bool_decide (ip = Some idx) then None else declarado F idx).
  { unfold digest_de. rewrite F1, F2. case_bool_decide; [done|]. unfold declarado. fold n. rewrite F1.
    by apply (digest_loop_spec firma_b (Z.of_nat idx) n 0). }
  destruct (trozos_rep ps (at_abrir k (digest_de F idx)) [] Blake3.new eq_refl hrep_new Hps) as (h & Q1 & Q2 & Q3 & Q4).
  change (foldl trozo _ ps) with a in Q1, Q3, Q4. split; [|split].
  - unfold cerrar. rewrite Q3, Q1. cbn [at_abrir esperado mbind option_bind]. rewrite Hd, (finalize_rep _ _ Q2). cbn [app].
    destruct (declarado F idx), (bool_decide (ip = Some idx)); done.
  - rewrite Q4. cbn [at_abrir vistos]. lia.
  - unfold cadena. fold n. rewrite F1.
    destruct (cadena_loop_spec firma_b n 0 Blake3.new []) as (h' & E & Hh'); [lia|apply hrep_new|cbn; lia|].
    change (Z.of_nat 0) with 0 in E. rewrite E. cbn [mbind option_bind]. by rewrite (finalize_rep _ _ Hh').
Qed.

(** Closing a section by its hash. The pieces of a section fed in the order of
    the file close as "it matches" exactly when the BLAKE3 of their concatenation
    is the digest that the signature table declares first for that section, as a
    rejection when it is another, and as "not signed" when the table declares
    none or it is the signature's own index; the hasher never panics, and the
    count of bytes seen is theirs. The chain that is signed is the BLAKE3 of all
    the digests, by position. *)
Theorem cierre_de_seccion firma_b ip F idx k ps :
  Forall is_u8 firma_b -> firmas_abrir firma_b ip = Some F ->
  Z.of_nat (length (concat ps)) < 2 ^ 64 -> Z.of_nat (length firma_b) < 2 ^ 64 ->
  let a := foldl trozo (at_abrir k (digest_de F idx)) ps in
  cerrar a = Some (match declarado F idx with
                   | Some e => if bool_decide (ip = Some idx) then Ok SinFirma
                               else if bool_decide (hash_ref (concat ps) = e) then Ok Cuadra else Err HashNoCuadra
                   | None => Ok SinFirma
                   end) /\
  vistos a = Z.of_nat (length (concat ps)) /\
  cadena F = Some (hash_ref (concat (snd <$> entradas (Z.to_nat (f_cuantos F)) (drop 8 firma_b)))).
Proof. exact (cierre_es firma_b ip F idx k ps). Qed.

Lemma cierre_de_seccion_witness :
  cerrar (foldl trozo (at_abrir CODE (digest_de (mkFirmas demo_firma 1 (Some 1%nat)) 0)) [[1; 2]; []; [3]]) = Some (Ok Cuadra).
Proof.
  destruct (cierre_de_seccion demo_firma (Some 1%nat) (mkFirmas demo_firma 1 (Some 1%nat)) 0 CODE [[1; 2]; []; [3]])
    as [E _]; [apply bytes_decide; vm_compute; reflexivity|vm_compute; reflexivity|cbn; lia|vm_compute; reflexivity|].
  rewrite E. vm_compute. reflexivity.
Defined.
