(* ===== verification/Vmm.v ===== *)
(** Virtual memory: the four-level page tables of every address space, walked
    and written through the mirror of physical memory.
    Source: src/Ultra_kernel_x86-64/kernel/src/ring0/mm/vmm/{roja,amarilla,verde}.rs.

    Physical memory is the byte function of [Phys.zero_frame]; a table is the
    512 little-endian words of its frame, exactly as [table] makes it by a
    cast. Touching a table outside the mirror is a fault of the kernel: every
    operation answers an option, and [None] is the machine stopping there. The
    allocator is [Phys]. What the code takes from the machine ([EFER.NXE], the
    ticks) is a field or an argument; CABINA lines, the stations of the
    dismantling and the emergency flag that only announces are left out. *)

From stdpp Require Import gmap.
From S2P Require Import Prelude Titular Phys.

Definition PTE_PRESENT : Z := Z.shiftl 1 0.
Definition PTE_WRITABLE : Z := Z.shiftl 1 1.
Definition PTE_USER : Z := Z.shiftl 1 2.
Definition PTE_HUGE : Z := Z.shiftl 1 7.
Definition PTE_NUESTRA : Z := Z.shiftl 1 9.
Definition PTE_PAT_4K : Z := Z.shiftl 1 7.
Definition PTE_NX : Z := Z.shiftl 1 63.
Definition ADDR_MASK : Z := 0x000FFFFFFFFFF000.

Definition USER_IMAGE_BASE : Z := 0x40000000.
Definition USER_STACK_TOP : Z := 0x80000000.
Definition USER_STACK_SIZE : Z := 0x10000.
Definition USER_STACK_BOTTOM : Z := USER_STACK_TOP - USER_STACK_SIZE.
Definition CHANNEL_VA_BASE : Z := 0xC0000000.
Definition FRAMEBUFFER_VA_BASE : Z := 0xD0000000.
Definition MEMORIA_VA_BASE : Z := 0xE0000000.

(** [cr3] is the register; [invlpg] the addresses whose translation was dropped,
    the latest first. *)
Record vmm_st := mkVmm {
  ph : phys_st; mem : Z -> Z; KERNEL_PML4 : Z; KERNEL_HALF_HOLES : Z;
  cr3 : Z; nx_disponible : bool; invlpg : list Z
}.
Definition with_ph (s : vmm_st) (p : phys_st) : vmm_st :=
  mkVmm p (mem s) (KERNEL_PML4 s) (KERNEL_HALF_HOLES s) (cr3 s) (nx_disponible s) (invlpg s).
Definition with_mem (s : vmm_st) (m : Z -> Z) : vmm_st :=
  mkVmm (ph s) m (KERNEL_PML4 s) (KERNEL_HALF_HOLES s) (cr3 s) (nx_disponible s) (invlpg s).
Definition olvida (s : vmm_st) (va : Z) : vmm_st :=
  mkVmm (ph s) (mem s) (KERNEL_PML4 s) (KERNEL_HALF_HOLES s) (cr3 s) (nx_disponible s) (va :: invlpg s).
Definition switch_to (s : vmm_st) (pml4 : Z) : vmm_st :=
  mkVmm (ph s) (mem s) (KERNEL_PML4 s) (KERNEL_HALF_HOLES s) pml4 (nx_disponible s) (invlpg s).
Definition read_cr3 (s : vmm_st) : Z := Z.land (cr3 s) ADDR_MASK.

(** One word of a table, and the write of it. *)
Definition palabra (m : Z -> Z) (t i : Z) : Z := of_le (m <$> seqZ (t + 8 * i) 8).
Definition escribe (m : Z -> Z) (t i e : Z) : Z -> Z :=
  fun a => if (t + 8 * i <=? a) && (a <? t + 8 * i + 8)
           then default 0 (le 8 e !! Z.to_nat (a - (t + 8 * i))) else m a.

(** [table(phys)[i]] and the assignment to it. *)
Definition casilla (s : vmm_st) (t i : Z) : option Z :=
  if t <? PHYSMAP_SIZE then Some (palabra (mem s) t i) else None.
Definition pon_casilla (s : vmm_st) (t i e : Z) : option vmm_st :=
  if t <? PHYSMAP_SIZE then Some (with_mem s (escribe (mem s) t i e)) else None.

Definition tiene (e bit : Z) : bool := negb (Z.land e bit =? 0).

(** [for i in a..b] over a state that can stop the machine. *)
Fixpoint mfor {S} (f : S -> Z -> option S) (l : list Z) (s : S) : option S :=
  match l with [] => Some s | i :: l => s' ← f s i; mfor f l s' end.

(** ** roja.rs *)

(** One turn of the loop of [init]. *)
Definition puebla (s : vmm_st) (i : Z) : option vmm_st :=
  e ← casilla s (KERNEL_PML4 s) i;
  if tiene e PTE_PRESENT then Some s
  else match alloc_frame_de (ph s) Tabla with
       | (p, Some f) =>
           let s := with_mem (with_ph s p) (zero_frame (mem s) f) in
           pon_casilla s (KERNEL_PML4 s) i (Z.lor (Z.lor (Z.land f ADDR_MASK) PTE_PRESENT) PTE_WRITABLE)
       | (p, None) =>
           let s := with_ph s p in
           Some (mkVmm (ph s) (mem s) (KERNEL_PML4 s) (KERNEL_HALF_HOLES s + 1) (cr3 s) (nx_disponible s) (invlpg s))
       end.
Definition init (s : vmm_st) : option vmm_st :=
  let s := mkVmm (ph s) (mem s) (read_cr3 s) (KERNEL_HALF_HOLES s) (cr3 s) (nx_disponible s) (invlpg s) in
  s ← mfor puebla (seqZ 256 256) s; Some (switch_to s (KERNEL_PML4 s)).

Definition copia_casilla (origen destino : Z) (s : vmm_st) (i : Z) : option vmm_st :=
  e ← casilla s origen i; pon_casilla s destino i e.

Definition new_address_space (s : vmm_st) (ticks : Z) : option (vmm_st * option Z) :=
  match alloc_frame_de (ph s) Tabla with
  | (p, None) => Some (with_ph s p, None)
  | (p, Some pml4) =>
      match alloc_frame_de p Tabla with
      | (p, None) => Some (with_ph s (fst (free_frame_de p pml4 ticks Tabla)), None)
      | (p, Some pdpt) =>
          let s := with_mem (with_ph s p) (zero_frame (zero_frame (mem s) pml4) pdpt) in
          let k := KERNEL_PML4 s in
          s ← mfor (copia_casilla k pml4) (seqZ 256 256) s;
          s ← pon_casilla s pml4 0 (Z.lor (Z.lor (Z.lor pdpt PTE_PRESENT) PTE_WRITABLE) PTE_USER);
          k0 ← casilla s k 0;
          s ← copia_casilla (Z.land k0 ADDR_MASK) pdpt s 0;
          Some (s, Some pml4)
      end
  end.

Definition get_or_create (s : vmm_st) (t idx flags : Z) : option (vmm_st * result Z unit) :=
  e ← casilla s t idx;
  if tiene e PTE_PRESENT then
    if tiene e PTE_HUGE then Some (s, Err tt) else Some (s, Ok (Z.land e ADDR_MASK))
  else match alloc_frame_de (ph s) Tabla with
       | (p, None) => Some (with_ph s p, Err tt)
       | (p, Some f) =>
           let s := with_mem (with_ph s p) (zero_frame (mem s) f) in
           s ← pon_casilla s t idx (Z.lor (Z.land f ADDR_MASK) flags);
           Some (s, Ok f)
       end.

(** ** amarilla.rs *)

Definition i4_de (va : Z) : Z := Z.land (Z.shiftr va 39) 0x1FF.
Definition i3_de (va : Z) : Z := Z.land (Z.shiftr va 30) 0x1FF.
Definition i2_de (va : Z) : Z := Z.land (Z.shiftr va 21) 0x1FF.
Definition i1_de (va : Z) : Z := Z.land (Z.shiftr va 12) 0x1FF.

Definition o_bit (c : bool) (bit e : Z) : Z := if c then Z.lor e bit else e.

Definition hoja_de (s : vmm_st) (pa : Z) (user writable ejecutable combinar nuestra : bool) : Z :=
  let e := Z.lor (Z.land pa ADDR_MASK) PTE_PRESENT in
  let e := o_bit writable PTE_WRITABLE e in
  let e := o_bit user PTE_USER e in
  let e := o_bit combinar PTE_PAT_4K e in
  let e := o_bit nuestra PTE_NUESTRA e in
  o_bit (negb ejecutable && nx_disponible s) PTE_NX e.

(** [c?] on a result inside the option. *)
Definition rbind {A B} (c : option (vmm_st * result A unit)) (k : vmm_st -> A -> option (vmm_st * result B unit))
  : option (vmm_st * result B unit) :=
  match c with None => None | Some (s, Err e) => Some (s, Err e) | Some (s, Ok a) => k s a end.

Definition map_page_tipo (s : vmm_st) (pml4 va pa : Z) (user writable ejecutable combinar nuestra : bool)
  : option (vmm_st * result unit unit) :=
  if negb (va mod PAGE =? 0) || negb (pa mod PAGE =? 0) then Some (s, Err tt)
  else
    let mid := Z.lor (Z.lor PTE_PRESENT PTE_WRITABLE) (if user then PTE_USER else 0) in
    rbind (get_or_create s pml4 (i4_de va) mid) (fun s pdpt =>
    rbind (get_or_create s pdpt (i3_de va) mid) (fun s pd =>
    rbind (get_or_create s pd (i2_de va) mid) (fun s pt =>
      let entry := hoja_de s pa user writable ejecutable combinar nuestra in
      old ← casilla s pt (i1_de va);
      s ← pon_casilla s pt (i1_de va) entry;
      Some (if tiene old PTE_PRESENT then olvida s va else s, Ok tt)))).

Inductive PermisoImagen := Codigo | Constantes | Datos.

Definition map_page_imagen (s : vmm_st) (pml4 va pa : Z) (permiso : PermisoImagen) :=
  let '(escribible, ejecutable) :=
    match permiso with Codigo => (false, true) | Constantes => (false, false) | Datos => (true, false) end in
  map_page_tipo s pml4 va pa true escribible ejecutable false true.
Definition map_page (s : vmm_st) (pml4 va pa : Z) (user writable : bool) :=
  map_page_tipo s pml4 va pa user writable (negb writable) false false.
Definition map_page_propia (s : vmm_st) (pml4 va pa : Z) (user writable : bool) :=
  map_page_tipo s pml4 va pa user writable (negb writable) false true.
Definition map_page_wc (s : vmm_st) (pml4 va pa : Z) (user writable : bool) :=
  map_page_tipo s pml4 va pa user writable (negb writable) true false.

Definition unmap_page (s : vmm_st) (pml4 va : Z) : option (vmm_st * option Z) :=
  e ← casilla s pml4 (i4_de va);
  if negb (tiene e PTE_PRESENT) || tiene e PTE_HUGE then Some (s, None) else
  let pdpt := Z.land e ADDR_MASK in
  e ← casilla s pdpt (i3_de va);
  if negb (tiene e PTE_PRESENT) || tiene e PTE_HUGE then Some (s, None) else
  let pd := Z.land e ADDR_MASK in
  e ← casilla s pd (i2_de va);
  if negb (tiene e PTE_PRESENT) || tiene e PTE_HUGE then Some (s, None) else
  let pt := Z.land e ADDR_MASK in
  e ← casilla s pt (i1_de va);
  if negb (tiene e PTE_PRESENT) then Some (s, None) else
  s ← pon_casilla s pt (i1_de va) 0;
  Some (olvida s va, Some (Z.land e ADDR_MASK)).

Definition caminable (fisica : Z) : bool :=
  match se_puede_caminar fisica PHYSMAP_SIZE with Si => true | _ => false end.

(** ** verde.rs *)

(** The walk that [translate] and [fisica_exacta] write twice; [fin] is what
    each does with a page of 4 KiB. *)
Definition camina (s : vmm_st) (pml4 va : Z) (fin : Z -> Z) : option (option Z) :=
  e ← casilla s pml4 (i4_de va);
  if negb (tiene e PTE_PRESENT) then Some None else
  e ← casilla s (Z.land e ADDR_MASK) (i3_de va);
  if negb (tiene e PTE_PRESENT) then Some None else
  if tiene e PTE_HUGE then Some (Some (w64 (Z.land e 0x000FFFFFC0000000 + Z.land va 0x3FFFFFFF))) else
  e ← casilla s (Z.land e ADDR_MASK) (i2_de va);
  if negb (tiene e PTE_PRESENT) then Some None else
  if tiene e PTE_HUGE then Some (Some (w64 (Z.land e 0x000FFFFFFFE00000 + Z.land va 0x1FFFFF))) else
  e ← casilla s (Z.land e ADDR_MASK) (i1_de va);
  if negb (tiene e PTE_PRESENT) then Some None else Some (Some (fin e)).
Definition translate (s : vmm_st) (pml4 va : Z) : option (option Z) :=
  camina s pml4 va (fun e => Z.land e ADDR_MASK).
Definition fisica_exacta (s : vmm_st) (pml4 va : Z) : option (option Z) :=
  camina s pml4 va (fun e => w64 (Z.land e ADDR_MASK + Z.land va (PAGE - 1))).

(** ** roja.rs: dismantling *)

Definition es_tabla (s : vmm_st) (fisica : Z) : bool :=
  let q := titular_de (tit (ph s)) fisica in bool_decide (q = Tabla) || bool_decide (q = Anonimo).

(** [(hojas, tablas, ya_libres)] go with the state. *)
Record cuenta := mkCuenta { hojas : Z; tablas : Z; ya_libres : Z }.

Definition libre (s : vmm_st) (fisica : Z) : bool := bool_decide (esta_libre (ph s) fisica = Some true).

(** [continue] unless this is a table to go down to. *)
Definition se_baja (s : vmm_st) (e : Z) : bool :=
  tiene e PTE_PRESENT && negb (tiene e PTE_HUGE) && caminable (Z.land e ADDR_MASK)
  && negb (libre s (Z.land e ADDR_MASK)) && es_tabla s (Z.land e ADDR_MASK).

Definition suelta_tabla (ticks : Z) (x : vmm_st * cuenta) (t : Z) : vmm_st * cuenta :=
  let '(s, c) := x in
  (with_ph s (fst (free_frame_de (ph s) t ticks Tabla)), mkCuenta (hojas c) (tablas c + 1) (ya_libres c)).

Definition suelta_hoja (ticks pt : Z) (x : vmm_st * cuenta) (i1 : Z) : option (vmm_st * cuenta) :=
  let '(s, c) := x in
  hoja ← casilla s pt i1;
  if negb (tiene hoja PTE_PRESENT) || negb (tiene hoja PTE_NUESTRA) then Some (s, c) else
  let marco := Z.land hoja ADDR_MASK in
  if negb (caminable marco) then Some (s, c)
  else if libre s marco then Some (s, mkCuenta (hojas c) (tablas c) (ya_libres c + 1))
  else
    let s := with_mem s (zero_frame (mem s) marco) in
    Some (with_ph s (free_frame (ph s) marco ticks), mkCuenta (hojas c + 1) (tablas c) (ya_libres c)).

Definition suelta_pt (ticks pd : Z) (x : vmm_st * cuenta) (i2 : Z) : option (vmm_st * cuenta) :=
  e2 ← casilla (fst x) pd i2;
  if negb (se_baja (fst x) e2) then Some x else
  let pt := Z.land e2 ADDR_MASK in
  x ← mfor (suelta_hoja ticks pt) (seqZ 0 512) x; Some (suelta_tabla ticks x pt).

Definition suelta_pd (ticks pdpt : Z) (x : vmm_st * cuenta) (i3 : Z) : option (vmm_st * cuenta) :=
  e ← casilla (fst x) pdpt i3;
  if negb (se_baja (fst x) e) then Some x else
  let pd := Z.land e ADDR_MASK in
  x ← mfor (suelta_pt ticks pd) (seqZ 0 512) x; Some (suelta_tabla ticks x pd).

Definition destroy_address_space (s : vmm_st) (pml4 ticks : Z) : option (vmm_st * cuenta) :=
  let x := (s, mkCuenta 0 0 0) in
  if libre s pml4 || negb (caminable pml4) then Some x else
  e0 ← casilla s pml4 0;
  if tiene e0 PTE_PRESENT then
    let pdpt := Z.land e0 ADDR_MASK in
    if negb (caminable pdpt) || libre s pdpt || negb (es_tabla s pdpt) then Some x else
    x ← mfor (suelta_pd ticks pdpt) (seqZ 1 511) x;
    Some (suelta_tabla ticks (suelta_tabla ticks x pdpt) pml4)
  else Some (suelta_tabla ticks x pml4).

(** [self_test]: the bool and the frames that did not come back; the word written
    and read through the mirror is the frame's own. *)
Definition self_test (s : vmm_st) (ticks : Z) : option (vmm_st * (bool * Z)) :=
  let libres_antes := snd (stats (ph s)) in
  match alloc_frame (ph s) with
  | (p, None) => Some (with_ph s p, (false, 0))
  | (p, Some frame) =>
      a ← new_address_space (with_ph s p) ticks;
      match a with
      | (s, None) => Some (with_ph s (free_frame (ph s) frame ticks), (false, 0))
      | (s, Some aspace) =>
          m ← map_page_propia s aspace USER_IMAGE_BASE frame true true;
          let '(s, r) := m in
          let ok := match r with Ok _ => true | Err _ => false end in
          ok ← (if ok then t ← translate s aspace USER_IMAGE_BASE; Some (bool_decide (t = Some frame)) else Some false);
          sok ← (if (ok : bool) then
                   s ← pon_casilla s frame 0 0xB400000000000001;
                   v ← casilla s frame 0; Some (s, v =? 0xB400000000000001)
                 else Some (s, false));
          let '(s, ok) := (sok : vmm_st * bool) in
          u ← unmap_page s aspace USER_IMAGE_BASE;
          let '(s, r) := u in
          let ok := ok && bool_decide (r = Some frame) in
          ok ← (if ok then t ← translate s aspace USER_IMAGE_BASE; Some (bool_decide (t = None)) else Some false);
          d ← destroy_address_space s aspace ticks;
          let s := fst d in
          let s := with_ph s (free_frame (ph s) frame ticks) in
          Some (s, (ok, saturating_sub libres_antes (snd (stats (ph s)))))
      end
  end.

(** * The words of a table *)

(** Every byte is a byte. *)
Definition mem_ok (m : Z -> Z) : Prop := forall a, is_u8 (m a).

Lemma palabra_range m t i : mem_ok m -> is_u64 (palabra m t i).
Proof.
  intros H. unfold palabra, is_u64. replace (2 ^ 64) with (2 ^ (8 * Z.of_nat (length (m <$> seqZ (t + 8 * i) 8)))).
  - apply of_le_range. apply Forall_fmap, Forall_forall. intros a _. apply H.
  - by rewrite length_fmap, length_seqZ.
Qed.

Lemma palabra_ext m m' t i : (forall a, t + 8 * i <= a < t + 8 * i + 8 -> m' a = m a) -> palabra m' t i = palabra m t i.
Proof.
  intros H. unfold palabra. f_equal. apply list_fmap_ext. intros k a Ha. apply H.
  apply lookup_seqZ in Ha. lia.
Qed.

Lemma palabra_escribe m t i e : is_u64 e -> palabra (escribe m t i e) t i = e.
Proof.
  intros He. unfold palabra. replace (_ <$> _) with (le 8 e); [by apply of_le_le|].
  apply list_eq. intros k. rewrite list_lookup_fmap. destruct (decide (k < 8)%nat).
  - rewrite (proj2 (lookup_seqZ _ _ k (t + 8 * i + Z.of_nat k))) by lia. cbn [fmap option_fmap option_map].
    unfold escribe. rewrite (proj2 (Z.leb_le _ _)), (proj2 (Z.ltb_lt _ _)) by lia. cbn [andb].
    replace (Z.to_nat _) with k by lia.
    destruct (lookup_lt_is_Some_2 (le 8 e) k) as [x ->]; [by rewrite length_le|done].
  - rewrite !lookup_ge_None_2; [done|by rewrite length_seqZ; lia|by rewrite length_le; lia].
Qed.

(** A frame of the mirror, and a slot of a table. *)
Definition marco (p : Z) : Prop := p mod PAGE = 0 /\ 0 < p < PHYSMAP_SIZE.
Definition ranura (i : Z) : Prop := 0 <= i < 512.

Lemma escribe_fuera m t i e a : ~ (t + 8 * i <= a < t + 8 * i + 8) -> escribe m t i e a = m a.
Proof. intros H. unfold escribe. case_if; [|done]. bdestr. lia. Qed.

Lemma palabra_escribe_ne m t i e t' i' : marco t -> marco t' -> ranura i -> ranura i' ->
  (t, i) <> (t', i') -> palabra (escribe m t i e) t' i' = palabra m t' i'.
Proof.
  intros [H1 _] [H2 _] Hi Hi' Hne. apply palabra_ext. intros a Ha. apply escribe_fuera. unfold ranura, PAGE in *.
  intros Hb. apply Hne. assert (t = t') as -> by lia. f_equal. lia.
Qed.

Lemma escribe_ok m t i e : mem_ok m -> is_u64 e -> mem_ok (escribe m t i e).
Proof.
  intros Hm He a. unfold escribe. case_if; [|apply Hm]. bdestr.
  destruct (le 8 e !! Z.to_nat (a - (t + 8 * i))) as [x|] eqn:E; [|done]. cbn.
  pose proof (le_bytes 8 e ltac:(unfold is_u64 in He; lia)) as Hb. by apply (Forall_lookup_1 _ _ _ _ Hb E).
Qed.

Lemma zero_frame_eq m p a : marco p -> zero_frame m p a = if (p <=? a) && (a <? p + PAGE) then 0 else m a.
Proof.
  intros [H1 H2]. unfold zero_frame, se_puede_caminar. rewrite H1, (proj2 (Z.eqb_neq p 0)), (proj2 (Z.leb_gt _ _)) by lia.
  done.
Qed.

Lemma zero_frame_ok m p : mem_ok m -> mem_ok (zero_frame m p).
Proof. intros Hm a. unfold zero_frame. case_if; [apply Hm|]. case_if; [done|apply Hm]. Qed.

Lemma palabra_zero m p i : marco p -> ranura i -> palabra (zero_frame m p) p i = 0.
Proof.
  intros Hp Hi. unfold palabra. replace (_ <$> _) with (replicate 8 0); [done|].
  apply list_eq. intros k. rewrite list_lookup_fmap. destruct (decide (k < 8)%nat).
  - rewrite (proj2 (lookup_seqZ _ _ k (p + 8 * i + Z.of_nat k))) by lia. cbn [fmap option_fmap option_map].
    rewrite zero_frame_eq by done. rewrite lookup_replicate_2 by lia. unfold ranura, PAGE in *.
    by rewrite (proj2 (Z.leb_le _ _)), (proj2 (Z.ltb_lt _ _)) by lia.
  - rewrite !lookup_ge_None_2; [done|by rewrite length_seqZ; lia|by rewrite length_replicate; lia].
Qed.

Lemma zero_frame_otro m p q a : marco p -> marco q -> p <> q -> q <= a < q + PAGE -> zero_frame m p a = m a.
Proof. intros Hp [Hq _] Hne Ha. rewrite zero_frame_eq by done. case_if; [|done]. destruct Hp. bdestr. unfold PAGE in *. lia. Qed.

Lemma palabra_zero_otro m p q i : marco p -> marco q -> p <> q -> ranura i -> palabra (zero_frame m p) q i = palabra m q i.
Proof.
  intros Hp Hq Hne Hi. apply palabra_ext. intros a Ha. apply (zero_frame_otro m p q); [done..|].
  unfold ranura, PAGE in *. lia.
Qed.

(** ** Bits of an entry *)

Lemma mask_bit k : 0 <= k -> Z.testbit ADDR_MASK k = (12 <=? k) && (k <? 52).
Proof.
  intros Hk. change ADDR_MASK with (Z.shiftl (Z.ones 40) 12).
  destruct (decide (k < 12)).
  - rewrite Z.shiftl_spec_low by done. by rewrite (proj2 (Z.leb_gt 12 k)).
  - rewrite Z.shiftl_spec, Z.testbit_ones by lia. rewrite (proj2 (Z.leb_le 12 k)), (proj2 (Z.leb_le 0 (k - 12))) by lia.
    cbn [andb]. destruct (Z.ltb_spec k 52); [apply Z.ltb_lt|apply Z.ltb_ge]; lia.
Qed.

Lemma tiene_bit e b : 0 <= b -> tiene e (Z.shiftl 1 b) = Z.testbit e b.
Proof. intros Hb. unfold tiene. rewrite land_bit_zero by done. apply negb_involutive. Qed.

Lemma marco_bits p k : marco p -> Z.testbit p k = true -> 12 <= k < 34.
Proof.
  intros [H1 H2] Hk. assert (0 <= k) by (destruct (decide (0 <= k)); [done|by rewrite Z.testbit_neg_r in Hk by lia]).
  split.
  - destruct (decide (12 <= k)); [done|]. exfalso. change PAGE with (2 ^ 12) in H1.
    rewrite <- (Z.mod_pow2_bits_low p 12 k), H1, Z.bits_0 in Hk by lia. done.
  - destruct (decide (k < 34)); [done|]. exfalso. rewrite (testbit_above p 34 k) in Hk; [done| |lia].
    unfold PHYSMAP_SIZE in H2. lia.
Qed.

(** The address that an entry made from a frame gives back. *)
Lemma mask_or p fl : marco p -> Z.land fl ADDR_MASK = 0 -> Z.land (Z.lor (Z.land p ADDR_MASK) fl) ADDR_MASK = p.
Proof.
  intros Hp Hf. rewrite Z.land_lor_distr_l, Hf, Z.lor_0_r. apply Z.bits_inj'. intros k Hk.
  rewrite !Z.land_spec, mask_bit by done. destruct (Z.testbit p k) eqn:E; [|done]. apply marco_bits in E; [|done].
  rewrite (proj2 (Z.leb_le _ _)), (proj2 (Z.ltb_lt _ _)) by lia. done.
Qed.

Lemma tiene_or p fl b : marco p -> 0 <= b < 12 -> tiene (Z.lor (Z.land p ADDR_MASK) fl) (Z.shiftl 1 b) = Z.testbit fl b.
Proof.
  intros Hp Hb. rewrite tiene_bit, Z.lor_spec, Z.land_spec by lia.
  destruct (Z.testbit p b) eqn:E; [|done]. apply marco_bits in E; [lia|done].
Qed.

Lemma land_le_r a b : 0 <= b -> 0 <= Z.land a b <= b.
Proof.
  intros Hb. split; [apply Z.land_nonneg; by right|].
  assert (H : Z.ldiff (Z.land a b) b = 0).
  { apply Z.bits_inj'. intros k Hk. rewrite Z.ldiff_spec, Z.land_spec, Z.bits_0. by destruct (Z.testbit a k), (Z.testbit b k). }
  apply Z.sub_nocarry_ldiff in H. assert (0 <= Z.ldiff b (Z.land a b)) by (apply Z.ldiff_nonneg; by left). lia.
Qed.

Lemma mask_alineada e : Z.land e ADDR_MASK mod PAGE = 0.
Proof.
  change PAGE with (2 ^ 12). apply Z.bits_inj'. intros k Hk. rewrite Z.bits_0.
  destruct (decide (k < 12)).
  - rewrite Z.mod_pow2_bits_low, Z.land_spec, mask_bit by lia. rewrite (proj2 (Z.leb_gt 12 k)) by lia. apply andb_false_r.
  - by rewrite Z.mod_pow2_bits_high by lia.
Qed.

(** * What the processor reads *)

(** The index of an address at a level, 4 to 1, and what is above it. *)
Definition idx (l va : Z) : Z := (va / 2 ^ (3 + 9 * l)) mod 512.
Definition pref (l va : Z) : Z := (va / 2 ^ (12 + 9 * l)) mod 2 ^ (9 * (4 - l)).

(** The walk of the processor from a table of level [l]: the entries it goes
    through, the last one that of the page. The size bit counts at levels 3 and 2. *)
Fixpoint mmu (l : nat) (m : Z -> Z) (t va : Z) : option (list Z) :=
  match l with
  | O => None
  | S l' =>
      let e := palabra m t (idx (Z.of_nat l) va) in
      if negb (tiene e PTE_PRESENT) then None
      else if Nat.eqb l' 0 || ((l <=? 3)%nat && tiene e PTE_HUGE) then Some [e]
      else cons e <$> mmu l' m (Z.land e ADDR_MASK) va
  end.

(** The address, and the rights of the page: every level counts. *)
Definition fisica (p : list Z) (va : Z) : Z :=
  match p with
  | [_; e] => Z.land e 0x000FFFFFC0000000 + va mod 2 ^ 30
  | [_; _; e] => Z.land e 0x000FFFFFFFE00000 + va mod 2 ^ 21
  | [_; _; _; e] => Z.land e ADDR_MASK + va mod 2 ^ 12
  | _ => 0
  end.
Definition de_usuario (p : list Z) : bool := forallb (fun e => tiene e PTE_USER) p.
Definition escribible (p : list Z) : bool := forallb (fun e => tiene e PTE_WRITABLE) p.
Definition ejecutable (p : list Z) : bool := forallb (fun e => negb (tiene e PTE_NX)) p.

Lemma idx_range l va : ranura (idx l va).
Proof. unfold ranura, idx. apply Z.mod_pos_bound. done. Qed.

Lemma pref_idx l va : 0 <= l <= 4 -> pref (l - 1) va = pref l va * 512 + idx l va.
Proof.
  intros Hl. unfold pref, idx. replace (12 + 9 * (l - 1)) with (3 + 9 * l) by lia.
  replace (9 * (4 - (l - 1))) with (9 + 9 * (4 - l)) by lia. rewrite (Z.pow_add_r 2 9) by lia. change (2 ^ 9) with 512.
  rewrite Z.rem_mul_r, Z.div_div by lia.
  replace (2 ^ (3 + 9 * l) * 512) with (2 ^ (12 + 9 * l)); [lia|].
  change 512 with (2 ^ 9). rewrite <- Z.pow_add_r by lia. f_equal. lia.
Qed.

Lemma pref_4 va : pref 4 va = 0.
Proof. unfold pref. apply Z.mod_1_r. Qed.

Lemma i_de_idx va : i4_de va = idx 4 va /\ i3_de va = idx 3 va /\ i2_de va = idx 2 va /\ i1_de va = idx 1 va.
Proof.
  unfold i4_de, i3_de, i2_de, i1_de, idx. change 0x1FF with (2 ^ 9 - 1).
  rewrite !land_ones_mod, !Z.shiftr_div_pow2 by lia. done.
Qed.

(** ** The tables in use *)

(** Slots whose subtree belongs to the kernel whatever the space: the upper half
    of a root, and the identity entry of the first PDPT. *)
Definition comparte (l pre i : Z) : bool := ((l =? 4) && (256 <=? i)) || ((l =? 3) && (pre =? 0) && (i =? 0)).

(** The label of a table: the root it belongs to, its level and what the addresses
    that go through it have above. *)
Notation etiqueta := (Z * Z * Z)%type.
Definition hija (K : Z) (x : etiqueta) (i : Z) : etiqueta :=
  let '(r, l, pre) := x in (if comparte l pre i then K else r, l - 1, pre * 512 + i).

Definition espacio (own : gmap Z etiqueta) (r : Z) : Prop := own !! r = Some (r, 4, 0).

Record wf (s : vmm_st) (own : gmap Z etiqueta) : Prop := {
  wf_phys : phys_ok (ph s); wf_mem : mem_ok (mem s);
  wf_cero : used (bitmap (ph s)) 0 = true;
  wf_nucleo : espacio own (KERNEL_PML4 s);
  wf_marco : forall p x, own !! p = Some x -> marco p /\ used (bitmap (ph s)) (p / PAGE) = true;
  wf_nivel : forall p r l pre, own !! p = Some (r, l, pre) -> 1 <= l <= 4 /\ espacio own r /\ (l = 4 -> r = p /\ pre = 0);
  wf_iny : forall p q x, own !! p = Some x -> own !! q = Some x -> p = q;
  wf_hija : forall p r l pre i, own !! p = Some (r, l, pre) -> 1 < l -> ranura i ->
    tiene (palabra (mem s) p i) PTE_PRESENT = true ->
    (l = 4 -> tiene (palabra (mem s) p i) PTE_HUGE = false) /\
    (tiene (palabra (mem s) p i) PTE_HUGE = false ->
      own !! Z.land (palabra (mem s) p i) ADDR_MASK = Some (hija (KERNEL_PML4 s) (r, l, pre) i));
  wf_titular : forall p r l pre, own !! p = Some (r, l, pre) -> r <> KERNEL_PML4 s -> titular_de (tit (ph s)) p = Tabla;
  wf_enlazada : forall q r l pre, own !! q = Some (r, l, pre) -> l < 4 ->
    exists p, own !! p = Some (r, l + 1, pre / 512) /\
      tiene (palabra (mem s) p (pre mod 512)) PTE_PRESENT = true /\
      tiene (palabra (mem s) p (pre mod 512)) PTE_HUGE = false /\
      Z.land (palabra (mem s) p (pre mod 512)) ADDR_MASK = q;
  (** every space has the kernel half and the identity entry of the kernel *)
  wf_mitad : forall r i, espacio own r -> 256 <= i < 512 ->
    palabra (mem s) r i = palabra (mem s) (KERNEL_PML4 s) i /\ tiene (palabra (mem s) r i) PTE_PRESENT = true;
  wf_identidad : forall r, espacio own r -> tiene (palabra (mem s) r 0) PTE_PRESENT = true /\
    let k0 := Z.land (palabra (mem s) (KERNEL_PML4 s) 0) ADDR_MASK in
    palabra (mem s) (Z.land (palabra (mem s) r 0) ADDR_MASK) 0 = palabra (mem s) k0 0 /\
    tiene (palabra (mem s) k0 0) PTE_PRESENT = true
}.

(** Whose tables an address goes through at a level, from a root. *)
Definition dueno (K r l va : Z) : Z :=
  if ((l <? 4) && comparte 4 0 (idx 4 va)) || ((l <? 3) && comparte 3 (idx 4 va) (idx 3 va)) then K else r.
Definition compartida (va : Z) : bool := comparte 4 0 (idx 4 va) || comparte 3 (idx 4 va) (idx 3 va).

Lemma pref_3 va : pref 3 va = idx 4 va.
Proof. change 3 with (4 - 1). rewrite pref_idx, pref_4 by lia. done. Qed.

Lemma hija_dueno K r l va : 1 < l <= 4 ->
  hija K (dueno K r l va, l, pref l va) (idx l va) = (dueno K r (l - 1) va, l - 1, pref (l - 1) va).
Proof.
  intros Hl. unfold hija. rewrite pref_idx by lia. f_equal. f_equal. unfold dueno.
  assert (l = 4 \/ l = 3 \/ l = 2) as [->|[->| ->]] by lia.
  - rewrite pref_4. cbn -[comparte idx]. by rewrite orb_false_r.
  - rewrite pref_3. cbn -[comparte idx]. rewrite orb_false_r. by destruct (comparte 4 _ _), (comparte 3 _ _).
  - replace (comparte 2 _ _) with false by done. done.
Qed.

Section Arbol.
Context (s : vmm_st) (own : gmap Z etiqueta) (W : wf s own).

Lemma hija_own q l va t : own !! t = Some (dueno (KERNEL_PML4 s) q l va, l, pref l va) -> 1 < l <= 4 ->
  tiene (palabra (mem s) t (idx l va)) PTE_PRESENT = true -> (l <= 3 -> tiene (palabra (mem s) t (idx l va)) PTE_HUGE = false) ->
  own !! Z.land (palabra (mem s) t (idx l va)) ADDR_MASK = Some (dueno (KERNEL_PML4 s) q (l - 1) va, l - 1, pref (l - 1) va).
Proof.
  intros Ht Hl Hp Hh. destruct (wf_hija _ _ W _ _ _ _ (idx l va) Ht) as [H1 H2]; [lia|apply idx_range|done|].
  rewrite <- hija_dueno by lia. apply H2. destruct (decide (l = 4)); [by apply H1|apply Hh; lia].
Qed.

Lemma casilla_own t x i : own !! t = Some x -> casilla s t i = Some (palabra (mem s) t i).
Proof.
  intros Ht. apply (wf_marco _ _ W) in Ht as [[_ H] _]. unfold casilla. by rewrite (proj2 (Z.ltb_lt _ _)) by lia.
Qed.

Lemma pon_own t x i e : own !! t = Some x -> pon_casilla s t i e = Some (with_mem s (escribe (mem s) t i e)).
Proof.
  intros Ht. apply (wf_marco _ _ W) in Ht as [[_ H] _]. unfold pon_casilla. by rewrite (proj2 (Z.ltb_lt _ _)) by lia.
Qed.

(** A walk only depends on the words it goes through. *)
Lemma mmu_ext m' q va : (forall t l, 1 <= l <= 4 -> own !! t = Some (dueno (KERNEL_PML4 s) q l va, l, pref l va) ->
    palabra m' t (idx l va) = palabra (mem s) t (idx l va)) ->
  forall l t, (Z.of_nat l <= 4) -> own !! t = Some (dueno (KERNEL_PML4 s) q (Z.of_nat l) va, Z.of_nat l, pref (Z.of_nat l) va) ->
    mmu l m' t va = mmu l (mem s) t va.
Proof.
  intros Hm. induction l as [|l IH]; intros t Hl Ht; [done|]. cbn [mmu]. rewrite (Hm t (Z.of_nat (S l))) by (done || lia).
  destruct (tiene _ PTE_PRESENT) eqn:Ep; [|done]. cbn [negb].
  destruct (Nat.eqb l 0 || _) eqn:Ee; [done|]. f_equal. apply orb_false_iff in Ee as [E1%Nat.eqb_neq E2].
  apply IH; [lia|]. pose proof (hija_own q (Z.of_nat (S l)) va t Ht ltac:(lia) Ep) as Hh.
  replace (Z.of_nat (S l) - 1) with (Z.of_nat l) in Hh by lia. apply Hh. intros H3.
  rewrite (proj2 (Nat.leb_le _ _)) in E2 by lia. done.
Qed.

Lemma raiz_etiqueta r va : espacio own r -> own !! r = Some (dueno (KERNEL_PML4 s) r 4 va, 4, pref 4 va).
Proof. intros H. rewrite pref_4. unfold dueno. cbn [Z.ltb Z.compare Pos.compare Pos.compare_cont]. exact H. Qed.

Lemma mmu_igual m' q va : espacio own q ->
  (forall p x i, own !! p = Some x -> ranura i -> palabra m' p i = palabra (mem s) p i) -> mmu 4 m' q va = mmu 4 (mem s) q va.
Proof.
  intros Hq Hm. apply (mmu_ext m' q va); [|lia|by apply raiz_etiqueta].
  intros t l _ Ht. eapply Hm; [exact Ht|apply idx_range].
Qed.

(** Writing one slot only changes the walks that go through it. *)
Lemma mmu_local m' q va p0 r0 l0 pre0 i0 : espacio own q -> own !! p0 = Some (r0, l0, pre0) ->
  (forall p x i, own !! p = Some x -> ranura i -> (p, i) <> (p0, i0) -> palabra m' p i = palabra (mem s) p i) ->
  (r0, l0, pre0, i0) <> (dueno (KERNEL_PML4 s) q l0 va, l0, pref l0 va, idx l0 va) ->
  mmu 4 m' q va = mmu 4 (mem s) q va.
Proof.
  intros Hq Hp0 Hm Hne. apply (mmu_ext m' q va); [|lia|by apply raiz_etiqueta].
  intros t l _ Ht. eapply Hm; [exact Ht|apply idx_range|]. intros [= -> E]. rewrite Ht in Hp0. apply Hne. congruence.
Qed.

(** A shared address is the kernel's in every space. *)
Lemma mmu_compartida r va : espacio own r -> compartida va = true ->
  mmu 3 (mem s) (Z.land (palabra (mem s) r (idx 4 va)) ADDR_MASK) va =
  mmu 3 (mem s) (Z.land (palabra (mem s) (KERNEL_PML4 s) (idx 4 va)) ADDR_MASK) va /\
  tiene (palabra (mem s) r (idx 4 va)) PTE_PRESENT = true.
Proof.
  intros Hr Hc. unfold compartida in Hc. apply orb_true_iff in Hc as [Hc|Hc]; unfold comparte in Hc.
  - rewrite orb_false_r in Hc. apply andb_true_iff in Hc as [_ Hc]. bdestr. pose proof (idx_range 4 va) as Hi. unfold ranura in Hi.
    destruct (wf_mitad _ _ W r (idx 4 va) Hr) as [-> Hp]; [lia|]. by split.
  - cbn [Z.eqb Pos.eqb andb orb] in Hc. apply andb_true_iff in Hc as [H4 H3]. bdestr. rewrite H4.
    destruct (wf_identidad _ _ W r Hr) as (Hp & He & Hk). split; [|done]. cbn [mmu]. change (Z.of_nat 3) with 3.
    rewrite H3, He. done.
Qed.

(** The walks of the code are the processor's. *)
Lemma camina_mmu q va fin : 0 <= va -> espacio own q ->
  camina s q va fin = Some (match mmu 4 (mem s) q va with
                            | None => None
                            | Some [e4; e3; e2; e] => Some (fin e)
                            | Some p => Some (fisica p va)
                            end).
Proof.
  intros Hva Hq. pose proof (raiz_etiqueta q va Hq) as L4. destruct (i_de_idx va) as (I4 & I3 & I2 & I1).
  unfold camina. rewrite I4, I3, I2, I1. cbn [mmu]. change (Z.of_nat 4) with 4. change (Z.of_nat 3) with 3.
  change (Z.of_nat 2) with 2. change (Z.of_nat 1) with 1. cbn [Nat.eqb Nat.leb orb andb].
  rewrite (casilla_own _ _ _ L4). cbn [mbind option_bind].
  destruct (tiene _ PTE_PRESENT) eqn:P4; [|done]. cbn [negb].
  pose proof (hija_own q 4 va q L4 ltac:(lia) P4 ltac:(lia)) as L3. change (4 - 1) with 3 in L3.
  set (t3 := Z.land (palabra _ q _) _) in *. rewrite (casilla_own _ _ _ L3). cbn [mbind option_bind].
  destruct (tiene (palabra (mem s) t3 _) PTE_PRESENT) eqn:P3; [|done]. cbn [negb].
  assert (Hw : forall e c k, 0 <= k -> 0 <= c -> c + 2 ^ k <= 2 ^ 64 -> w64 (Z.land e c + va mod 2 ^ k) = Z.land e c + va mod 2 ^ k).
  { intros e c k Hk Hc Hs. apply w64_small. unfold is_u64. pose proof (Z.mod_pos_bound va (2 ^ k) ltac:(lia)).
    pose proof (land_le_r e c Hc). lia. }
  destruct (tiene (palabra (mem s) t3 _) PTE_HUGE) eqn:H3.
  { cbn [fmap option_fmap option_map fisica]. do 2 f_equal. change 0x3FFFFFFF with (2 ^ 30 - 1). rewrite land_ones_mod by lia. by apply (Hw _ _ 30). }
  pose proof (hija_own q 3 va t3 L3 ltac:(lia) P3 ltac:(done)) as L2. change (3 - 1) with 2 in L2.
  set (t2 := Z.land (palabra _ t3 _) _) in *. rewrite (casilla_own _ _ _ L2). cbn [mbind option_bind].
  destruct (tiene (palabra (mem s) t2 _) PTE_PRESENT) eqn:P2; [|done]. cbn [negb].
  destruct (tiene (palabra (mem s) t2 _) PTE_HUGE) eqn:H2.
  { cbn [fmap option_fmap option_map fisica]. do 2 f_equal. change 0x1FFFFF with (2 ^ 21 - 1). rewrite land_ones_mod by lia. by apply (Hw _ _ 21). }
  pose proof (hija_own q 2 va t2 L2 ltac:(lia) P2 ltac:(done)) as L1. change (2 - 1) with 1 in L1.
  set (t1 := Z.land (palabra _ t2 _) _) in *. rewrite (casilla_own _ _ _ L1). cbn [mbind option_bind].
  destruct (tiene (palabra (mem s) t1 _) PTE_PRESENT); done.
Qed.
End Arbol.

(** ** Growing the tree *)

(** Nothing of the machine changes but memory and the allocator. *)
Definition igual_resto (s s' : vmm_st) : Prop :=
  KERNEL_PML4 s' = KERNEL_PML4 s /\ cr3 s' = cr3 s /\ nx_disponible s' = nx_disponible s /\
  KERNEL_HALF_HOLES s' = KERNEL_HALF_HOLES s.

(** What [alloc_frame_de] gives. *)
Lemma alloc_tabla p p' f : phys_ok p -> used (bitmap p) 0 = true -> alloc_frame_de p Tabla = (p', Some f) ->
  marco f /\ used (bitmap p) (f / PAGE) = false /\ phys_ok p' /\ titular_de (tit p') f = Tabla /\
  (forall g, used (bitmap p') g = (f / PAGE =? g) || used (bitmap p) g) /\ free_frames p' = free_frames p - 1 /\
  (forall g, marco g -> g <> f -> titular_de (tit p') g = titular_de (tit p) g).
Proof.
  intros Hp H0 E. unfold alloc_frame_de in E. destruct (alloc_frame p) as [p1 [f1|]] eqn:E1; [|done].
  injection E as <- ->. apply alloc_frame_inv in E1 as (k & Hk & -> & Hu & Hb & Ht & Hfr & Hok); [|done].
  assert (k <> 0) by (intros ->; congruence). rewrite Z.div_mul by done.
  assert (Hm : marco (k * PAGE)).
  { split; [by apply Z.mod_mul|]. rewrite MARCOS_eq in Hk. unfold PAGE, PHYSMAP_SIZE. lia. }
  assert (Htit : titular_ok (marcar (tit p1) (k * PAGE) Tabla)).
  { apply marcar_ok; [apply Hok|]. unfold PAGE. lia. }
  split; [done|]. split; [done|]. split; [destruct Hok; by split|]. cbn [tit with_tit bitmap free_frames]. split.
  { rewrite titular_de_marcar by (exact Hk || apply Hok). by rewrite decide_True. }
  split; [|split; [done|]].
  { intros g. rewrite Hb, used_set_bit. done. }
  intros g [Hg1 Hg2] Hne. assert (exists j, g = j * PAGE /\ 0 <= j < MARCOS) as (j & -> & Hj).
  { exists (g / PAGE). rewrite MARCOS_eq. unfold PAGE, PHYSMAP_SIZE in *. lia. }
  rewrite titular_de_marcar by (exact Hk || exact Hj || apply Hok). rewrite decide_False by congruence.
  rewrite Ht, titular_de_marcar by (exact Hk || exact Hj || apply Hp). by rewrite decide_False by congruence.
Qed.

Lemma alloc_tabla_None p p' : phys_ok p -> alloc_frame_de p Tabla = (p', None) ->
  p' = p /\ forall f, 0 <= f < MARCOS -> used (bitmap p) f = true.
Proof.
  intros Hp E. unfold alloc_frame_de in E. destruct (alloc_frame p) as [p1 [f1|]] eqn:E1; [done|].
  injection E as <-. by apply alloc_None.
Qed.

(** Entries that make a link: present, not a page, and the flags in the low bits. *)
Definition enlace (fl : Z) : Prop :=
  Z.testbit fl 0 = true /\ Z.testbit fl 7 = false /\ Z.land fl ADDR_MASK = 0 /\ 0 <= fl < 2 ^ 12.

(** What growing the tree leaves as it was; [fl] are the flags of the new links. *)
Record conserva (fl : Z) (s : vmm_st) (own : gmap Z etiqueta) (s' : vmm_st) (own' : gmap Z etiqueta) : Prop := {
  co_wf : wf s' own'; co_own : own ⊆ own'; co_espacio : forall r, espacio own' r <-> espacio own r;
  co_resto : igual_resto s s'; co_invlpg : invlpg s' = invlpg s;
  co_mmu : forall q va, espacio own q -> mmu 4 (mem s') q va = mmu 4 (mem s) q va;
  co_presente : forall p x i, own !! p = Some x -> ranura i -> tiene (palabra (mem s) p i) PTE_PRESENT = true ->
    palabra (mem s') p i = palabra (mem s) p i;
  co_nueva : forall p x i, own' !! p = Some x -> ranura i -> tiene (palabra (mem s') p i) PTE_PRESENT = true ->
    (own !! p = Some x /\ palabra (mem s') p i = palabra (mem s) p i) \/
    (exists c, marco c /\ palabra (mem s') p i = Z.lor (Z.land c ADDR_MASK) fl);
  co_hojas : forall p r pre i, own' !! p = Some (r, 1, pre) -> ranura i ->
    palabra (mem s') p i = if bool_decide (own !! p = None) then 0 else palabra (mem s) p i;
  co_used : forall g, used (bitmap (ph s')) g = true <-> used (bitmap (ph s)) g = true \/ own' !! (g * PAGE) <> None;
  co_fresca : forall g, own' !! g <> None -> own !! g = None -> used (bitmap (ph s)) (g / PAGE) = false;
  co_free : free_frames (ph s') + Z.of_nat (size own') = free_frames (ph s) + Z.of_nat (size own);
  co_titular : forall g, marco g -> own' !! g = None -> titular_de (tit (ph s')) g = titular_de (tit (ph s)) g;
  co_bytes : forall g a, marco g -> own' !! g = None -> g <= a < g + PAGE -> mem s' a = mem s a
}.

Lemma marco_page p : marco p -> p / PAGE * PAGE = p.
Proof. intros [H _]. pose proof (Z.div_mod p PAGE ltac:(done)). lia. Qed.

Lemma own_used s own g : wf s own -> own !! (g * PAGE) <> None -> used (bitmap (ph s)) g = true.
Proof.
  intros W H. destruct (own !! (g * PAGE)) as [x|] eqn:E; [|done]. apply (wf_marco _ _ W) in E as [_ E].
  by rewrite Z.div_mul in E.
Qed.

Lemma conserva_refl fl s own : wf s own -> conserva fl s own s own.
Proof.
  intros W. split; try done.
  - intros p x i Hp _ _. by left.
  - intros p r pre i Hp _. by rewrite bool_decide_eq_false_2 by congruence.
  - intros g. split; [by left|]. intros [?|H]; [done|]. by apply (own_used s own).
Qed.

Lemma conserva_trans fl s1 o1 s2 o2 s3 o3 :
  conserva fl s1 o1 s2 o2 -> conserva fl s2 o2 s3 o3 -> conserva fl s1 o1 s3 o3.
Proof.
  intros A B. destruct (co_resto _ _ _ _ _ A) as (R1 & R2 & R3 & R4). destruct (co_resto _ _ _ _ _ B) as (Q1 & Q2 & Q3 & Q4).
  split.
  - apply B.
  - etrans; [apply A|apply B].
  - intros r. by rewrite (co_espacio _ _ _ _ _ B), (co_espacio _ _ _ _ _ A).
  - unfold igual_resto. by rewrite Q1, Q2, Q3, Q4.
  - by rewrite (co_invlpg _ _ _ _ _ B), (co_invlpg _ _ _ _ _ A).
  - intros q va Hq. rewrite (co_mmu _ _ _ _ _ B), (co_mmu _ _ _ _ _ A); [done..|by apply A].
  - intros p x i Hp Hi Hx. rewrite (co_presente _ _ _ _ _ B p x i), (co_presente _ _ _ _ _ A p x i); try done.
    + by eapply lookup_weaken, A.
    + by rewrite (co_presente _ _ _ _ _ A p x i).
  - intros p x i Hp Hi Hx. destruct (co_nueva _ _ _ _ _ B p x i Hp Hi Hx) as [[Q Q']|?]; [|by right].
    rewrite Q' in Hx |- *. by apply (co_nueva _ _ _ _ _ A).
  - intros p r pre i Hp Hi. rewrite (co_hojas _ _ _ _ _ B _ _ _ _ Hp Hi). repeat case_bool_decide; try done.
    + exfalso. destruct (o1 !! p) as [x|] eqn:E; [|done]. rewrite (lookup_weaken _ _ _ _ E (co_own _ _ _ _ _ A)) in H. done.
    + destruct (o2 !! p) as [x|] eqn:E; [|done]. rewrite (lookup_weaken _ _ _ _ E (co_own _ _ _ _ _ B)) in Hp. injection Hp as ->.
      rewrite (co_hojas _ _ _ _ _ A _ _ _ _ E Hi). by rewrite bool_decide_eq_true_2.
    + destruct (o2 !! p) as [x|] eqn:E; [|done]. rewrite (lookup_weaken _ _ _ _ E (co_own _ _ _ _ _ B)) in Hp. injection Hp as ->.
      rewrite (co_hojas _ _ _ _ _ A _ _ _ _ E Hi). by rewrite bool_decide_eq_false_2.
  - intros g. rewrite (co_used _ _ _ _ _ B), (co_used _ _ _ _ _ A). split; [|tauto]. intros [[?|H]|?]; [by left|right|by right].
    destruct (o2 !! (g * PAGE)) as [x|] eqn:E; [|done]. by rewrite (lookup_weaken _ _ _ _ E (co_own _ _ _ _ _ B)).
  - intros g Hg Hn. destruct (o2 !! g) as [x|] eqn:E.
    + apply (co_fresca _ _ _ _ _ A g); [congruence|done].
    + pose proof (co_fresca _ _ _ _ _ B g Hg E) as Hf. destruct (used (bitmap (ph s1)) (g / PAGE)) eqn:Eu; [|done].
      rewrite (proj2 (co_used _ _ _ _ _ A (g / PAGE))) in Hf by (by left). done.
  - pose proof (co_free _ _ _ _ _ A). pose proof (co_free _ _ _ _ _ B). lia.
  - intros g Hg Hn. assert (o2 !! g = None) by (eapply lookup_weaken_None; [exact Hn|apply B]).
    by rewrite (co_titular _ _ _ _ _ B), (co_titular _ _ _ _ _ A).
  - intros g a Hg Hn Ha. assert (o2 !! g = None) by (eapply lookup_weaken_None; [exact Hn|apply B]).
    by rewrite (co_bytes _ _ _ _ _ B g a), (co_bytes _ _ _ _ _ A g a).
Qed.

(** A slot that leads to a table. *)
Definition lleva (m : Z -> Z) (t i c : Z) : Prop :=
  tiene (palabra m t i) PTE_PRESENT = true /\ tiene (palabra m t i) PTE_HUGE = false /\ Z.land (palabra m t i) ADDR_MASK = c.

Lemma enlace_u64 f fl : marco f -> enlace fl -> is_u64 (Z.lor (Z.land f ADDR_MASK) fl).
Proof.
  intros Hf (_ & _ & _ & Hfl). apply u64_bits.
  - apply Z.lor_nonneg. split; [apply Z.land_nonneg; by right|lia].
  - intros k Hk. rewrite Z.lor_spec, Z.land_spec, mask_bit, (testbit_above fl 12 k) by lia.
    rewrite (proj2 (Z.ltb_ge k 52)) by lia. by rewrite andb_false_r, andb_false_r.
Qed.

(** One link written over an absent entry towards a new, empty table. *)
Section Crecer.
Context (s : vmm_st) (own : gmap Z etiqueta) (W : wf s own).
Context (t r l pre i : Z) (Ht : own !! t = Some (r, l, pre)) (Hl : 1 < l) (Hi : ranura i).
Context (Hausente : tiene (palabra (mem s) t i) PTE_PRESENT = false).
Context (p' : phys_st) (f fl : Z) (Ea : alloc_frame_de (ph s) Tabla = (p', Some f)) (Hfl : enlace fl).
Let e := Z.lor (Z.land f ADDR_MASK) fl.
Let m' := escribe (zero_frame (mem s) f) t i e.
Let s' := with_mem (with_ph s p') m'.
Let own' := <[f := hija (KERNEL_PML4 s) (r, l, pre) i]> own.

Lemma nueva_marco : marco f /\ used (bitmap (ph s)) (f / PAGE) = false /\ phys_ok p' /\
  forall g, used (bitmap p') g = (f / PAGE =? g) || used (bitmap (ph s)) g.
Proof. destruct (alloc_tabla _ _ _ (wf_phys _ _ W) (wf_cero _ _ W) Ea) as (H1 & H2 & H3 & _ & H4 & _). done. Qed.

Lemma nueva_fuera : own !! f = None.
Proof.
  destruct nueva_marco as (_ & H & _). destruct (own !! f) as [x|] eqn:E; [|done].
  apply (wf_marco _ _ W) in E as [_ E]. congruence.
Qed.

Lemma crece_palabra q x j : own !! q = Some x -> ranura j -> (q, j) <> (t, i) -> palabra m' q j = palabra (mem s) q j.
Proof.
  intros Hq Hj Hne. destruct nueva_marco as (Hf & _). pose proof (proj1 (wf_marco _ _ W _ _ Hq)) as Hqm.
  pose proof (proj1 (wf_marco _ _ W _ _ Ht)) as Htm. unfold m'.
  rewrite palabra_escribe_ne by (done || congruence). pose proof nueva_fuera. apply palabra_zero_otro; [done..| |done]. congruence.
Qed.

Lemma crece_enlace : palabra m' t i = e /\ tiene e PTE_PRESENT = true /\ tiene e PTE_HUGE = false /\ Z.land e ADDR_MASK = f.
Proof.
  destruct nueva_marco as (Hf & _). destruct Hfl as (F1 & F2 & F3 & F4). unfold e, m', PTE_PRESENT, PTE_HUGE.
  rewrite !tiene_or, mask_or by (done || lia). rewrite palabra_escribe by (by apply enlace_u64). done.
Qed.

Lemma crece_vacia j : ranura j -> palabra m' f j = 0.
Proof.
  intros Hj. destruct nueva_marco as (Hf & _). pose proof (proj1 (wf_marco _ _ W _ _ Ht)) as Htm. unfold m'.
  pose proof nueva_fuera. rewrite palabra_escribe_ne; [by apply palabra_zero|done..|].
  congruence.
Qed.

(** An absent slot is not one that is shared with the kernel. *)
Lemma crece_raiz : hija (KERNEL_PML4 s) (r, l, pre) i = (r, l - 1, pre * 512 + i).
Proof.
  unfold hija. destruct (comparte l pre i) eqn:C; [|done]. exfalso.
  destruct (wf_nivel _ _ W _ _ _ _ Ht) as (Hlr & Hr & H4). unfold comparte in C.
  apply orb_true_iff in C as [C|C].
  - apply andb_true_iff in C as [C1 C2]. bdestr. destruct (H4 ltac:(done)) as [<- _]. unfold ranura in Hi.
    destruct (wf_mitad _ _ W r i Hr) as [_ C]; [lia|]. congruence.
  - apply andb_true_iff in C as [[C1 C2]%andb_true_iff C3]. bdestr.
    destruct (wf_identidad _ _ W r Hr) as (C & E & K). rewrite <- E in K.
    destruct (wf_hija _ _ W r r 4 0 0 Hr ltac:(lia) ltac:(done) C) as [N1 N2]. specialize (N2 (N1 eq_refl)).
    unfold hija in N2. cbn in N2.
    assert (Hx : own !! t = Some (r, 4 - 1, 0 * 512 + 0)) by (by rewrite Ht, C1, C2).
    rewrite (wf_iny _ _ W _ _ _ N2 Hx) in K. congruence.
Qed.

Lemma crece_wf : wf s' own'.
Proof.
  destruct nueva_marco as (Hf & Hu & Hp & Hus). pose proof nueva_fuera as Hfu. destruct crece_enlace as (E1 & E2 & E3 & E4).
  pose proof crece_raiz as Hra. destruct (wf_nivel _ _ W _ _ _ _ Ht) as (Hlr & Hr & _).
  assert (Hesp : forall q, espacio own' q <-> espacio own q).
  { intros q. unfold espacio, own'. rewrite Hra. destruct (decide (q = f)) as [->|].
    - rewrite lookup_insert_eq, Hfu. split; [|done]. intros [= _ ? _]. lia.
    - by rewrite lookup_insert_ne. }
  assert (Hno : forall q, own !! q = Some (r, l - 1, pre * 512 + i) -> False).
  { intros q Hq. destruct (wf_enlazada _ _ W _ _ _ _ Hq ltac:(lia)) as (p & Hp1 & Hp2 & _). unfold ranura in Hi.
    replace (l - 1 + 1) with l in Hp1 by lia. replace ((pre * 512 + i) / 512) with pre in Hp1 by lia.
    rewrite (wf_iny _ _ W _ _ _ Hp1 Ht) in Hp2. replace ((pre * 512 + i) mod 512) with i in Hp2 by lia. congruence. }
  assert (Hraiz : forall q j, espacio own q -> ranura j -> tiene (palabra (mem s) q j) PTE_PRESENT = true ->
    palabra m' q j = palabra (mem s) q j).
  { intros q j Hq Hj Hpr. eapply crece_palabra; [exact Hq|done|]. intros [= -> ->]. congruence. }
  split; cbn [s' with_mem with_ph ph mem KERNEL_PML4].
  - done.
  - apply escribe_ok; [by apply zero_frame_ok, W|by apply enlace_u64].
  - rewrite Hus, (wf_cero _ _ W). apply orb_true_r.
  - apply Hesp, W.
  - intros q x. unfold own'. rewrite lookup_insert_Some, Hus. intros [[<- _]|[_ Hq]].
    + split; [done|]. by rewrite Z.eqb_refl.
    + destruct (wf_marco _ _ W _ _ Hq) as [? ->]. split; [done|apply orb_true_r].
  - intros q r0 l0 pre0. unfold own' at 1. rewrite lookup_insert_Some, Hra. intros [[<- [= <- <- <-]]|[_ Hq]].
    + split; [lia|]. split; [by apply Hesp|lia].
    + destruct (wf_nivel _ _ W _ _ _ _ Hq) as (? & ? & ?). split; [done|]. split; [by apply Hesp|done].
  - intros q1 q2 x. unfold own'. rewrite !lookup_insert_Some, Hra.
    intros [[<- <-]|[N1 Q1]] [[<- Q2]|[N2 Q2]]; [done|by destruct (Hno q2)|subst x; by destruct (Hno q1)|].
    by apply (wf_iny _ _ W _ _ x).
  - intros q r0 l0 pre0 j. unfold own' at 1. rewrite lookup_insert_Some. intros [[<- _]|[Nq Hq]] Hl0 Hj Hpr.
    { rewrite crece_vacia in Hpr by done. done. }
    destruct (decide ((q, j) = (t, i))) as [[= -> ->]|Hne].
    + rewrite E1 in *. split; [done|]. intros _. rewrite E4. unfold own'. rewrite lookup_insert_eq. congruence.
    + rewrite (crece_palabra q _ j Hq Hj Hne) in *. destruct (wf_hija _ _ W _ _ _ _ j Hq Hl0 Hj Hpr) as [H1 H2].
      split; [done|]. intros Hh. unfold own'. rewrite lookup_insert_ne; [by apply H2|].
      intros E. rewrite E, H2 in Hfu by done. done.
  - intros q r0 l0 pre0. unfold own'. rewrite lookup_insert_Some.
    destruct (alloc_tabla _ _ _ (wf_phys _ _ W) (wf_cero _ _ W) Ea) as (_ & _ & _ & T1 & _ & _ & T2).
    intros [[<- _]|[Nq Hq]] Hk; [done|]. rewrite T2 by (done || by apply (wf_marco _ _ W q _ Hq)).
    by apply (wf_titular _ _ W q r0 l0 pre0).
  - intros q r0 l0 pre0. unfold own' at 1. rewrite lookup_insert_Some, Hra. unfold ranura in Hi. intros [[<- [= <- <- <-]]|[Nq Hq]] Hl0.
    + exists t. replace ((pre * 512 + i) / 512) with pre by lia. replace ((pre * 512 + i) mod 512) with i by lia.
      replace (l - 1 + 1) with l by lia. unfold own'. rewrite lookup_insert_ne by (intros ->; congruence). by rewrite E1.
    + destruct (wf_enlazada _ _ W _ _ _ _ Hq Hl0) as (p & Hp1 & Hp2 & Hp3 & Hp4). exists p.
      assert (Hmod : ranura (pre0 mod 512)) by (apply Z.mod_pos_bound; done).
      unfold own'. rewrite lookup_insert_ne by (intros ->; congruence). split; [done|].
      rewrite (crece_palabra p _ _ Hp1 Hmod) by (intros [= -> ?]; congruence). done.
  - intros q j Hq Hj. apply Hesp in Hq. destruct (wf_mitad _ _ W q j Hq Hj) as [M1 M2].
    destruct (wf_mitad _ _ W _ j (wf_nucleo _ _ W) Hj) as [_ M3].
    rewrite !Hraiz by (done || apply W || unfold ranura; lia). done.
  - intros q Hq. apply Hesp in Hq. destruct (wf_identidad _ _ W q Hq) as (I1 & I2 & I3).
    destruct (wf_identidad _ _ W _ (wf_nucleo _ _ W)) as (J1 & J2 & J3).
    cbv zeta. rewrite (Hraiz q 0), (Hraiz (KERNEL_PML4 s) 0) by (done || apply W). split; [done|].
    destruct (wf_hija _ _ W q q 4 0 0 Hq ltac:(lia) ltac:(done) I1) as [N1 N2]. specialize (N2 (N1 eq_refl)).
    destruct (wf_hija _ _ W _ _ 4 0 0 (wf_nucleo _ _ W) ltac:(lia) ltac:(done) J1) as [O1 O2]. specialize (O2 (O1 eq_refl)).
    rewrite (crece_palabra _ _ 0 N2), (crece_palabra _ _ 0 O2); [done|done| |done|]; intros [= <- <-]; congruence.
Qed.

(** No translation changes. *)
Lemma crece_mmu q va : espacio own q -> mmu 4 m' q va = mmu 4 (mem s) q va.
Proof.
  intros Hq. enough (H : forall n u, Z.of_nat n <= 4 ->
    own !! u = Some (dueno (KERNEL_PML4 s) q (Z.of_nat n) va, Z.of_nat n, pref (Z.of_nat n) va) ->
    mmu n m' u va = mmu n (mem s) u va) by (apply H; [done|by apply (raiz_etiqueta s own)]).
  induction n as [|n IH]; intros u Hn Hu; [done|]. cbn [mmu].
  destruct (decide ((u, idx (Z.of_nat (S n)) va) = (t, i))) as [[= -> Ei]|Hne].
  - rewrite Ei, Hausente. destruct crece_enlace as (-> & -> & -> & ->). cbn [negb]. rewrite andb_false_r, orb_false_r.
    rewrite Ht in Hu. destruct n as [|n]; [exfalso; assert (l = Z.of_nat 1) by congruence; lia|]. cbn [Nat.eqb mmu].
    rewrite crece_vacia by apply idx_range. done.
  - rewrite (crece_palabra u _ _ Hu (idx_range _ _) Hne). destruct (tiene (palabra (mem s) u _) PTE_PRESENT) eqn:Ep; [|done]. cbn [negb].
    destruct (Nat.eqb n 0 || _) eqn:Ee; [done|]. f_equal. apply orb_false_iff in Ee as [E1%Nat.eqb_neq E2].
    apply IH; [lia|]. pose proof (hija_own s own W q (Z.of_nat (S n)) va u Hu ltac:(lia) Ep) as Hh.
    replace (Z.of_nat (S n) - 1) with (Z.of_nat n) in Hh by lia. apply Hh. intros H3.
    rewrite (proj2 (Nat.leb_le _ _)) in E2 by lia. done.
Qed.
Lemma crece_conserva : conserva fl s own s' own'.
Proof.
  destruct nueva_marco as (Hf & Hfu & Hp' & Hus). pose proof nueva_fuera as Hno. pose proof crece_raiz as Hra.
  destruct (alloc_tabla _ _ _ (wf_phys _ _ W) (wf_cero _ _ W) Ea) as (_ & _ & _ & _ & _ & _ & Htit).
  destruct (wf_nivel _ _ W _ _ _ _ Ht) as (Hlr & _). destruct (proj1 (wf_marco _ _ W _ _ Ht)) as [Htt Htm].
  split; cbn [s' with_mem with_ph ph mem invlpg].
  - apply crece_wf.
  - by apply insert_subseteq.
  - intros q. unfold espacio, own'. destruct (decide (q = f)) as [->|]; [|by rewrite lookup_insert_ne].
    rewrite lookup_insert_eq, Hno, Hra. split; [|done]. intros [= _ ? _]. lia.
  - done.
  - done.
  - intros q va Hq. by apply crece_mmu.
  - intros q x j Hq Hj Hx. apply (crece_palabra q x j); [done..|]. intros [= -> ->]. congruence.
  - intros q x j. unfold own'. rewrite lookup_insert_Some. intros [[<- _]|[Nq Hq]] Hj.
    { rewrite crece_vacia by done. done. }
    destruct (decide ((q, j) = (t, i))) as [[= -> ->]|Hne].
    + intros _. right. exists f. split; [done|]. apply crece_enlace.
    + intros _. left. split; [done|]. by apply (crece_palabra q x j).
  - intros q r0 pre0 j. unfold own'. rewrite lookup_insert_Some, Hra. intros [[<- [= <- Hl1 <-]]|[Nq Hq]] Hj.
    + rewrite bool_decide_eq_true_2 by done. by apply crece_vacia.
    + rewrite bool_decide_eq_false_2 by congruence. apply (crece_palabra q _ j Hq Hj).
      intros [= -> ->]. rewrite Ht in Hq. injection Hq as _ E _. lia.
  - intros g. rewrite Hus, orb_true_iff, Z.eqb_eq. unfold own'. split.
    + intros [<-|?]; [right|by left]. rewrite marco_page by done. by rewrite lookup_insert_eq.
    + intros [?|H]; [by right|]. destruct (decide (g * PAGE = f)) as [E|].
      * left. rewrite <- E. by apply Z.div_mul.
      * rewrite lookup_insert_ne in H by done. right. by apply (own_used s own).
  - intros g Hg Hn. unfold own' in Hg. destruct (decide (g = f)) as [->|]; [done|]. by rewrite lookup_insert_ne in Hg.
  - unfold own'. rewrite map_size_insert_None by done.
    destruct (alloc_tabla _ _ _ (wf_phys _ _ W) (wf_cero _ _ W) Ea) as (_ & _ & _ & _ & _ & Hfr & _). lia.
  - intros g Hg. unfold own'. destruct (decide (g = f)) as [->|]; [by rewrite lookup_insert_eq|]. intros _. by apply Htit.
  - intros g a Hg. unfold own'. destruct (decide (g = f)) as [->|Hne]; [by rewrite lookup_insert_eq|].
    rewrite lookup_insert_ne by done. intros Hng Ha. unfold m'. rewrite escribe_fuera.
    + apply (zero_frame_otro _ f g); [done..|congruence|done].
    + intros Hb. assert (t = g); [|congruence]. destruct Hg as [Hg _]. unfold ranura, PAGE in *. lia.
Qed.

Lemma crece_todo : exists s1, pon_casilla (with_mem (with_ph s p') (zero_frame (mem s) f)) t i e = Some s1 /\
  conserva fl s own s1 own' /\ own' !! f = Some (hija (KERNEL_PML4 s) (r, l, pre) i) /\ lleva (mem s1) t i f /\
  palabra (mem s1) t i = e.
Proof.
  destruct (proj1 (wf_marco _ _ W _ _ Ht)) as [_ Htm]. destruct crece_enlace as (E1 & E2 & E3 & E4). exists s'. split.
  { unfold pon_casilla. by rewrite (proj2 (Z.ltb_lt _ _)) by lia. }
  split; [apply crece_conserva|]. split; [apply lookup_insert_eq|]. unfold lleva.
  change (mem s') with m'. rewrite E1. done.
Qed.
End Crecer.

(** [get_or_create]: a table below the slot, or the reason there is none; no
    translation changes either way. *)
Lemma get_or_create_spec s own t r l pre i fl : wf s own -> own !! t = Some (r, l, pre) -> 1 < l -> ranura i -> enlace fl ->
  exists s' res own', get_or_create s t i fl = Some (s', res) /\ conserva fl s own s' own' /\
    (size own' <= S (size own))%nat /\ (forall p, own' !! p <> None -> own !! p <> None \/ res = Ok p) /\
    match res with
    | Ok c => own' !! c = Some (hija (KERNEL_PML4 s) (r, l, pre) i) /\ lleva (mem s') t i c /\
        (tiene (palabra (mem s) t i) PTE_PRESENT = false -> palabra (mem s') t i = Z.lor (Z.land c ADDR_MASK) fl)
    | Err _ => own' = own /\ s' = s /\ (l <= 3 /\ tiene (palabra (mem s) t i) PTE_PRESENT = true /\ tiene (palabra (mem s) t i) PTE_HUGE = true \/
        forall f, 0 <= f < MARCOS -> used (bitmap (ph s)) f = true)
    end.
Proof.
  intros W Ht Hl Hi Hfl. unfold get_or_create. rewrite (casilla_own s own W t _ i Ht). cbn [mbind option_bind].
  destruct (tiene (palabra (mem s) t i) PTE_PRESENT) eqn:Ep.
  { destruct (tiene (palabra (mem s) t i) PTE_HUGE) eqn:Eh.
    - exists s, (Err tt), own. split; [done|]. split; [by apply conserva_refl|]. split; [lia|]. split; [by left|].
      split; [done|split; [done|]]. left.
      destruct (wf_hija _ _ W _ _ _ _ i Ht Hl Hi Ep) as [H4 _]. destruct (wf_nivel _ _ W _ _ _ _ Ht) as (? & _).
      split; [|done]. destruct (decide (l = 4)) as [->|]; [|lia]. rewrite H4 in Eh; done.
    - exists s, (Ok (Z.land (palabra (mem s) t i) ADDR_MASK)), own. split; [done|]. split; [by apply conserva_refl|].
      split; [lia|]. split; [by left|]. split; [|by split]. destruct (wf_hija _ _ W _ _ _ _ i Ht Hl Hi Ep) as [_ H]. by apply H. }
  destruct (alloc_frame_de (ph s) Tabla) as [p' [f|]] eqn:Ea.
  2:{ destruct (alloc_tabla_None _ _ (wf_phys _ _ W) Ea) as [-> Hall]. exists s, (Err tt), own.
      split; [by destruct s|]. split; [by apply conserva_refl|]. split; [lia|]. split; [by left|].
      split; [done|split; [done|by right]]. }
  destruct (crece_todo s own W t r l pre i Ht Hl Hi Ep p' f fl Ea Hfl) as (s1 & E & Hco & Hf & Hll & He).
  exists s1, (Ok f), (<[f:=hija (KERNEL_PML4 s) (r, l, pre) i]> own). rewrite E. split; [done|]. split; [done|]. split; [|split; [|done]].
  - rewrite map_size_insert. case_match; cbn; lia.
  - intros p. destruct (decide (p = f)) as [->|]; [by right|]. rewrite lookup_insert_ne by done. by left.
Qed.

(** ** Pages *)

(** The page of an address, and where a space takes it. *)
Definition pagina (va : Z) : Z := (va / PAGE) mod 2 ^ 36.
Definition destino (m : Z -> Z) (q va : Z) : option Z := (fun p => fisica p va) <$> mmu 4 m q va.

Lemma pagina_niveles va va' : pagina va = pagina va' <-> pref 1 va = pref 1 va' /\ idx 1 va = idx 1 va'.
Proof.
  assert (E : forall x, pagina x = pref 1 x * 512 + idx 1 x) by (intros x; rewrite <- pref_idx by lia; done).
  rewrite !E. pose proof (idx_range 1 va). pose proof (idx_range 1 va'). unfold ranura in *. lia.
Qed.

Lemma pagina_idx va va' : pagina va = pagina va' -> pref 1 va = pref 1 va' /\
  idx 4 va = idx 4 va' /\ idx 3 va = idx 3 va' /\ idx 2 va = idx 2 va' /\ idx 1 va = idx 1 va'.
Proof.
  intros [E1 E2]%pagina_niveles. pose proof (fun l x => idx_range l x) as R. unfold ranura in R.
  pose proof (R 2 va); pose proof (R 2 va'); pose proof (R 3 va); pose proof (R 3 va').
  pose proof E1 as E0. change 1 with (2 - 1) in E0. rewrite !pref_idx in E0 by lia.
  assert (P2 : pref 2 va = pref 2 va') by lia. change 2 with (3 - 1) in P2. rewrite !pref_idx, !pref_3 in P2 by lia.
  split_and!; done || lia.
Qed.

Lemma compartida_pagina va va' : pagina va = pagina va' -> compartida va = compartida va'.
Proof. intros (_ & E4 & E3 & _)%pagina_idx. unfold compartida. by rewrite E4, E3. Qed.

Lemma dueno_1 K q va : dueno K q 1 va = if compartida va then K else q.
Proof. done. Qed.

(** Walking down a chain of links. *)
Lemma camino m q va t3 t2 t1 : lleva m q (idx 4 va) t3 -> lleva m t3 (idx 3 va) t2 -> lleva m t2 (idx 2 va) t1 ->
  mmu 4 m q va = if tiene (palabra m t1 (idx 1 va)) PTE_PRESENT
    then Some [palabra m q (idx 4 va); palabra m t3 (idx 3 va); palabra m t2 (idx 2 va); palabra m t1 (idx 1 va)] else None.
Proof.
  intros (P4 & H4 & <-) (P3 & H3 & <-) (P2 & H2 & <-). cbn [mmu]. change (Z.of_nat 4) with 4.
  change (Z.of_nat 3) with 3. change (Z.of_nat 2) with 2. change (Z.of_nat 1) with 1.
  rewrite P4, P3, P2, H4, H3, H2. cbn [negb Nat.eqb Nat.leb orb andb].
  by destruct (tiene (palabra m _ (idx 1 va)) PTE_PRESENT).
Qed.

(** A shared address has one destination. *)
Lemma destino_compartida s own q va : wf s own -> espacio own q -> compartida va = true ->
  destino (mem s) q va = destino (mem s) (KERNEL_PML4 s) va.
Proof.
  intros W Hq Hc. destruct (mmu_compartida s own W q va Hq Hc) as [E1 P1].
  destruct (mmu_compartida s own W _ va (wf_nucleo _ _ W) Hc) as [_ P2].
  assert (E : forall r, tiene (palabra (mem s) r (idx 4 va)) PTE_PRESENT = true ->
    mmu 4 (mem s) r va = cons (palabra (mem s) r (idx 4 va)) <$> mmu 3 (mem s) (Z.land (palabra (mem s) r (idx 4 va)) ADDR_MASK) va).
  { intros r Hr. cbn [mmu]. change (Z.of_nat 4) with 4. rewrite Hr. done. }
  unfold destino. rewrite !E by done. rewrite E1. clear E E1. destruct (mmu 3 _ _ va) as [p|]; [|reflexivity].
  cbn [fmap option_fmap option_map]. destruct p as [|a [|b [|c [|d p]]]]; done.
Qed.

Section Hoja.
Context (s : vmm_st) (own : gmap Z etiqueta) (W : wf s own).
Context (pt r pre i : Z) (Hpt : own !! pt = Some (r, 1, pre)) (Hi : ranura i) (e : Z) (He : is_u64 e).
Let m' := escribe (mem s) pt i e.
Let s' := with_mem s m'.

Lemma hoja_palabra q x j : own !! q = Some x -> ranura j -> (q, j) <> (pt, i) -> palabra m' q j = palabra (mem s) q j.
Proof.
  intros Hq Hj Hne. pose proof (proj1 (wf_marco _ _ W _ _ Hpt)). pose proof (proj1 (wf_marco _ _ W _ _ Hq)).
  apply palabra_escribe_ne; done || congruence.
Qed.

Lemma hoja_alta q r0 l0 pre0 j : own !! q = Some (r0, l0, pre0) -> 1 < l0 -> ranura j -> palabra m' q j = palabra (mem s) q j.
Proof. intros Hq Hl Hj. apply (hoja_palabra q _ j Hq Hj). intros [= -> ->]. rewrite Hpt in Hq. injection Hq as _ E _. lia. Qed.

Lemma pd_identidad q : espacio own q -> own !! Z.land (palabra (mem s) q 0) ADDR_MASK = Some (q, 3, 0).
Proof.
  intros Hq. destruct (wf_identidad _ _ W q Hq) as (P & _). destruct (wf_hija _ _ W q q 4 0 0 Hq ltac:(lia) ltac:(done) P) as [N1 N2].
  exact (N2 (N1 eq_refl)).
Qed.

Lemma hoja_wf : wf s' own.
Proof.
  split; cbn [s' with_mem ph mem KERNEL_PML4]; try apply W.
  - apply escribe_ok; [apply W|done].
  - intros q r0 l0 pre0 j Hq Hl0 Hj. rewrite (hoja_alta q r0 l0 pre0 j) by done. by apply W.
  - intros q r0 l0 pre0 Hq Hl0. destruct (wf_enlazada _ _ W _ _ _ _ Hq Hl0) as (p & Hp & Hp').
    destruct (wf_nivel _ _ W _ _ _ _ Hq) as (? & _).
    exists p. rewrite (hoja_alta p r0 (l0 + 1) (pre0 / 512)); [done|done|lia|]. by apply Z.mod_pos_bound.
  - intros q j Hq Hj. rewrite !(hoja_alta _ _ 4 0 j) by (apply Hq || apply W || unfold ranura; lia). by apply W.
  - intros q Hq. cbv zeta. rewrite (hoja_alta q q 4 0 0), (hoja_alta (KERNEL_PML4 s) (KERNEL_PML4 s) 4 0 0) by (done || apply W).
    rewrite (hoja_alta _ _ 3 0 0 (pd_identidad q Hq)), (hoja_alta _ _ 3 0 0 (pd_identidad _ (wf_nucleo _ _ W))) by done.
    by apply W.
Qed.

Lemma hoja_mmu q va : espacio own q -> (r, pre, i) <> (dueno (KERNEL_PML4 s) q 1 va, pref 1 va, idx 1 va) ->
  mmu 4 m' q va = mmu 4 (mem s) q va.
Proof.
  intros Hq Hne. apply (mmu_local s own W m' q va pt r 1 pre i Hq Hpt); [|congruence].
  intros p x j Hp Hj Hn. by apply (hoja_palabra p x j).
Qed.

(** The destination of every address in every space after the write. *)
Lemma hoja_destino q va va0 d : espacio own q -> r = dueno (KERNEL_PML4 s) q 1 va -> pre = pref 1 va -> i = idx 1 va ->
  (forall va', pagina va' = pagina va -> destino m' q va' = d va') ->
  forall q', espacio own q' ->
    destino m' q' va0 = if bool_decide (pagina va0 = pagina va) && (bool_decide (q' = q) || compartida va)
                        then d va0 else destino (mem s) q' va0.
Proof.
  intros Hq Er Ep Ei Hd q' Hq'. case_bool_decide as Hpag; cbn [andb].
  - pose proof (compartida_pagina _ _ Hpag) as Hcp. destruct (compartida va) eqn:Ec.
    + rewrite orb_true_r. change (destino m' q' va0) with (destino (mem s') q' va0).
      rewrite (destino_compartida s' own q' va0 hoja_wf Hq' Hcp).
      rewrite <- (destino_compartida s' own q va0 hoja_wf Hq Hcp). by apply Hd.
    + rewrite orb_false_r. case_bool_decide as Eq; [rewrite Eq; by apply Hd|]. unfold destino. rewrite hoja_mmu; [done..|].
      rewrite dueno_1, Hcp. rewrite dueno_1, Ec in Er. congruence.
  - unfold destino. rewrite hoja_mmu; [done..|]. intros [= _ E1 E2]. apply Hpag, pagina_niveles. split; congruence.
Qed.
End Hoja.

(** ** The word of a page *)

Lemma o_bit_spec c b e k : 0 <= b -> 0 <= k -> Z.testbit (o_bit c (Z.shiftl 1 b) e) k = Z.testbit e k || (c && (b =? k)).
Proof.
  intros Hb Hk. unfold o_bit. destruct c; [|by rewrite orb_false_r].
  rewrite Z.lor_spec, Z.shiftl_1_l, Z.pow2_bits_eqb by lia. by destruct (Z.testbit e k).
Qed.

Lemma hoja_bit s pa u w x c n k : 0 <= k -> Z.testbit (hoja_de s pa u w x c n) k =
  (Z.testbit pa k && ((12 <=? k) && (k <? 52))) || (0 =? k) || (w && (1 =? k)) || (u && (2 =? k)) || (c && (7 =? k)) ||
  (n && (9 =? k)) || (negb x && nx_disponible s && (63 =? k)).
Proof.
  intros Hk. unfold hoja_de, PTE_NX, PTE_NUESTRA, PTE_PAT_4K, PTE_USER, PTE_WRITABLE, PTE_PRESENT.
  rewrite !o_bit_spec, Z.lor_spec, Z.land_spec, mask_bit, Z.shiftl_1_l, Z.pow2_bits_eqb by lia. done.
Qed.

Lemma hoja_u64 s pa u w x c n : 0 <= pa -> is_u64 (hoja_de s pa u w x c n).
Proof.
  intros Hpa. apply u64_bits.
  - unfold hoja_de, o_bit. repeat case_match; rewrite ?Z.lor_nonneg; split_and?; try done; apply Z.land_nonneg; by left.
  - intros k Hk. rewrite hoja_bit by lia. rewrite (proj2 (Z.ltb_ge k 52)) by lia.
    rewrite !(proj2 (Z.eqb_neq _ k)) by lia. rewrite !andb_false_r. done.
Qed.

Lemma hoja_campos s pa u w x c n : pa mod PAGE = 0 -> let e := hoja_de s pa u w x c n in
  tiene e PTE_PRESENT = true /\ tiene e PTE_WRITABLE = w /\ tiene e PTE_USER = u /\ tiene e PTE_NUESTRA = n /\
  tiene e PTE_NX = negb x && nx_disponible s /\ Z.land e ADDR_MASK = Z.land pa ADDR_MASK.
Proof.
  intros Hpa e. unfold PTE_NX, PTE_NUESTRA, PTE_USER, PTE_WRITABLE, PTE_PRESENT.
  assert (Hno : forall k, 0 <= k < 12 -> Z.testbit pa k = false).
  { intros k Hk. change PAGE with (2 ^ 12) in Hpa. by rewrite <- (Z.mod_pow2_bits_low pa 12 k), Hpa, Z.bits_0 by lia. }
  rewrite !tiene_bit by done. unfold e. rewrite !hoja_bit by done. rewrite !Hno by done.
  cbn [Z.leb Z.ltb Z.eqb Z.compare Pos.eqb Pos.compare Pos.compare_cont andb orb].
  rewrite !andb_false_r, ?andb_true_r, ?orb_false_r. split_and!; try done. apply Z.bits_inj'. intros k Hk.
  rewrite !Z.land_spec, mask_bit, hoja_bit by done.
  destruct (Z.leb_spec 12 k), (Z.ltb_spec k 52); rewrite ?andb_false_r; try done.
  rewrite !(proj2 (Z.eqb_neq _ k)) by lia. rewrite !andb_false_r, !orb_false_r. by destruct (Z.testbit pa k).
Qed.

Lemma mask_marco p : marco p -> Z.land p ADDR_MASK = p.
Proof. intros Hp. pose proof (mask_or p 0 Hp eq_refl) as H. by rewrite Z.lor_0_r, <- Z.land_assoc, Z.land_diag in H. Qed.

Definition mid_de (user : bool) : Z := Z.lor (Z.lor PTE_PRESENT PTE_WRITABLE) (if user then PTE_USER else 0).
Lemma mid_enlace user : enlace (mid_de user).
Proof. destruct user; unfold enlace; vm_compute; intuition done. Qed.

(** The three tables above a page, made where they were missing. *)
Lemma bajada_spec s own q va user : wf s own -> espacio own q ->
  (exists s' own' t3 t2 t1,
    rbind (get_or_create s q (i4_de va) (mid_de user)) (fun s pdpt =>
    rbind (get_or_create s pdpt (i3_de va) (mid_de user)) (fun s pd =>
    get_or_create s pd (i2_de va) (mid_de user))) = Some (s', Ok t1) /\
    conserva (mid_de user) s own s' own' /\ lleva (mem s') q (idx 4 va) t3 /\ lleva (mem s') t3 (idx 3 va) t2 /\
    lleva (mem s') t2 (idx 2 va) t1 /\ own' !! t1 = Some (dueno (KERNEL_PML4 s) q 1 va, 1, pref 1 va) /\
    own' !! t3 = Some (dueno (KERNEL_PML4 s) q 3 va, 3, pref 3 va) /\
    own' !! t2 = Some (dueno (KERNEL_PML4 s) q 2 va, 2, pref 2 va) /\
    (forall p, own' !! p <> None -> own !! p <> None \/ p = t3 \/ p = t2 \/ p = t1)) \/
  (exists s' own',
    rbind (get_or_create s q (i4_de va) (mid_de user)) (fun s pdpt =>
    rbind (get_or_create s pdpt (i3_de va) (mid_de user)) (fun s pd =>
    get_or_create s pd (i2_de va) (mid_de user))) = Some (s', Err tt) /\
    conserva (mid_de user) s own s' own' /\ (size own' <= size own + 2)%nat /\
    ((exists p, mmu 4 (mem s) q va = Some p /\ (length p < 4)%nat) \/
     forall f, 0 <= f < MARCOS -> used (bitmap (ph s')) f = true)).
Proof.
  intros W Hq. destruct (i_de_idx va) as (I4 & I3 & I2 & I1). rewrite I4, I3, I2. set (fl := mid_de user).
  pose proof (mid_enlace user) as Hfl. fold fl in Hfl. pose proof (raiz_etiqueta s own q va Hq) as L4.
  destruct (get_or_create_spec s own q _ _ _ (idx 4 va) fl W L4 ltac:(lia) (idx_range _ _) Hfl) as (s1 & r1 & o1 & E1 & C1 & Z1 & X1 & R1).
  rewrite E1. cbn [rbind]. destruct r1 as [t3|[]].
  2:{ right. exists s1, o1. split; [done|]. split; [done|]. split; [lia|]. destruct R1 as (-> & -> & [(Hx & _)|Hx]); [lia|by right]. }
  destruct R1 as (L3 & K3 & _). rewrite hija_dueno in L3 by lia. change (4 - 1) with 3 in L3.
  pose proof (co_wf _ _ _ _ _ C1) as W1. destruct (co_resto _ _ _ _ _ C1) as (Ek1 & _).
  destruct (get_or_create_spec s1 o1 t3 _ _ _ (idx 3 va) fl W1 L3 ltac:(lia) (idx_range _ _) Hfl) as (s2 & r2 & o2 & E2 & C2 & Z2 & X2 & R2).
  rewrite E2. cbn [rbind]. pose proof (conserva_trans _ _ _ _ _ _ _ C1 C2) as C12. destruct r2 as [t2|[]].
  2:{ right. exists s2, o2. split; [done|]. split; [done|]. split; [lia|]. destruct R2 as (-> & -> & [(_ & P & H)|Hx]); [left|by right].
      rewrite <- (co_mmu _ _ _ _ _ C1) by done. destruct K3 as (K1 & K2 & K3). cbn [mmu]. change (Z.of_nat 4) with 4.
      change (Z.of_nat 3) with 3. rewrite K1, K2, K3, P, H. cbn. eexists. split; [done|]. cbn. lia. }
  destruct R2 as (L2 & K2 & _). rewrite Ek1, hija_dueno in L2 by lia. change (3 - 1) with 2 in L2.
  pose proof (co_wf _ _ _ _ _ C2) as W2. destruct (co_resto _ _ _ _ _ C12) as (Ek2 & _).
  assert (K3' : lleva (mem s2) q (idx 4 va) t3).
  { destruct K3 as (A1 & A2 & A3). unfold lleva. rewrite (co_presente _ _ _ _ _ C2 q (q, 4, 0) (idx 4 va)); [done|by apply (co_espacio _ _ _ _ _ C1)|apply idx_range|done]. }
  destruct (get_or_create_spec s2 o2 t2 _ _ _ (idx 2 va) fl W2 L2 ltac:(lia) (idx_range _ _) Hfl) as (s3 & r3 & o3 & E3 & C3 & Z3 & X3 & R3).
  rewrite E3. pose proof (conserva_trans _ _ _ _ _ _ _ C12 C3) as C. destruct r3 as [t1|[]].
  2:{ right. exists s3, o3. split; [done|]. split; [done|]. split; [destruct R3 as (-> & _); lia|]. destruct R3 as (-> & -> & [(_ & P & H)|Hx]); [left|by right].
      rewrite <- (co_mmu _ _ _ _ _ C12) by done. destruct K3' as (A1 & A2 & A3), K2 as (B1 & B2 & B3). cbn [mmu].
      change (Z.of_nat 4) with 4. change (Z.of_nat 3) with 3. change (Z.of_nat 2) with 2.
      rewrite A1, A2, A3, B1, B2, B3, P, H. cbn. eexists. split; [done|]. cbn. lia. }
  destruct R3 as (L1 & K1 & _). rewrite Ek2, hija_dueno in L1 by lia. change (2 - 1) with 1 in L1.
  left. exists s3, o3, t3, t2, t1. split; [done|]. split; [done|].
  assert (Hsig : forall p x i c, o2 !! p = Some x -> ranura i -> lleva (mem s2) p i c -> lleva (mem s3) p i c).
  { intros p x i c Hp Hi (A1 & A2 & A3). unfold lleva. by rewrite (co_presente _ _ _ _ _ C3 p x i). }
  split; [|split; [|split; [done|split; [done|]]]].
  - eapply Hsig; [by apply (co_espacio _ _ _ _ _ C12)|apply idx_range|done].
  - eapply Hsig; [by eapply lookup_weaken, C2|apply idx_range|done].
  - split; [|split; [by apply (lookup_weaken _ _ _ _ L2), C3|]].
    + apply (lookup_weaken _ _ _ _ L3). etrans; [apply C2|apply C3].
    + intros p Hp. destruct (X3 p Hp) as [Hp2|[= ->]]; [|tauto]. destruct (X2 p Hp2) as [Hp1|[= ->]]; [|tauto].
      destruct (X1 p Hp1) as [?|[= ->]]; tauto.
Qed.

Lemma rbind_assoc {A B C} (c : option (vmm_st * result A unit)) (f : vmm_st -> A -> option (vmm_st * result B unit))
  (g : vmm_st -> B -> option (vmm_st * result C unit)) : rbind (rbind c f) g = rbind c (fun s a => rbind (f s a) g).
Proof. by destruct c as [[s [a|[]]]|]. Qed.

Definition con_olvido (b : bool) (va : Z) (s : vmm_st) : vmm_st := if b then olvida s va else s.

Lemma con_olvido_wf b va s own : wf s own -> wf (con_olvido b va s) own.
Proof. intros W. destruct b; [|done]. destruct W. by split. Qed.

(** Mapping is growing the tree and writing one word at its bottom. *)
Lemma map_forma s own q va pa u w x c n : wf s own -> espacio own q -> va mod PAGE = 0 -> pa mod PAGE = 0 ->
  (exists s1 own1 t3 t2 t1,
    map_page_tipo s q va pa u w x c n =
      Some (con_olvido (tiene (palabra (mem s1) t1 (idx 1 va)) PTE_PRESENT) va
              (with_mem s1 (escribe (mem s1) t1 (idx 1 va) (hoja_de s pa u w x c n))), Ok tt) /\
    conserva (mid_de u) s own s1 own1 /\ lleva (mem s1) q (idx 4 va) t3 /\ lleva (mem s1) t3 (idx 3 va) t2 /\
    lleva (mem s1) t2 (idx 2 va) t1 /\ own1 !! t1 = Some (dueno (KERNEL_PML4 s) q 1 va, 1, pref 1 va) /\
    own1 !! t3 = Some (dueno (KERNEL_PML4 s) q 3 va, 3, pref 3 va) /\
    own1 !! t2 = Some (dueno (KERNEL_PML4 s) q 2 va, 2, pref 2 va) /\
    (forall p, own1 !! p <> None -> own !! p <> None \/ p = t3 \/ p = t2 \/ p = t1)) \/
  (exists s1 own1, map_page_tipo s q va pa u w x c n = Some (s1, Err tt) /\ conserva (mid_de u) s own s1 own1 /\
    (size own1 <= size own + 2)%nat /\
    ((exists p, mmu 4 (mem s) q va = Some p /\ (length p < 4)%nat) \/
     forall f, 0 <= f < MARCOS -> used (bitmap (ph s1)) f = true)).
Proof.
  intros W Hq Hva Hpa. unfold map_page_tipo. rewrite Hva, Hpa. cbn [Z.eqb negb orb]. fold (mid_de u).
  pose proof (bajada_spec s own q va u W Hq) as H. destruct (i_de_idx va) as (_ & _ & _ & I1).
  set (fin := fun (s : vmm_st) (pt : Z) =>
      old ← casilla s pt (i1_de va);
      s' ← pon_casilla s pt (i1_de va) (hoja_de s pa u w x c n);
      Some (if tiene old PTE_PRESENT then olvida s' va else s', Ok tt) : option (vmm_st * result unit unit)).
  match goal with |- context [rbind ?a ?f] => set (todo := rbind a f) end.
  assert (E : todo = rbind (rbind (get_or_create s q (i4_de va) (mid_de u)) (fun s pdpt =>
    rbind (get_or_create s pdpt (i3_de va) (mid_de u)) (fun s pd => get_or_create s pd (i2_de va) (mid_de u)))) fin).
  { unfold todo. rewrite rbind_assoc. destruct (get_or_create s q _ _) as [[s0 [t0|[]]]|]; [|done..].
    cbn [rbind]. by rewrite rbind_assoc. }
  rewrite E. destruct H as [(s1 & o1 & t3 & t2 & t1 & -> & C & K3 & K2 & K1 & L & N)|(s1 & o1 & -> & C & Hsz & R)].
  - left. exists s1, o1, t3, t2, t1. split; [|done]. cbn [rbind]. unfold fin. rewrite I1.
    pose proof (co_wf _ _ _ _ _ C) as W1. rewrite (casilla_own s1 o1 W1 t1 _ _ L), (pon_own s1 o1 W1 t1 _ _ _ L).
    cbn [mbind option_bind]. destruct (co_resto _ _ _ _ _ C) as (_ & _ & Hnx & _). unfold hoja_de. rewrite Hnx.
    by destruct (tiene _ PTE_PRESENT).
  - right. exists s1, o1. split; [done|]. by split.
Qed.

Lemma destino_hoja m q va e4 e3 e2 e : mmu 4 m q va = Some [e4; e3; e2; e] ->
  destino m q va = Some (Z.land e ADDR_MASK + va mod PAGE).
Proof. intros E. unfold destino. by rewrite E. Qed.

(** The walk to a written leaf, for every address of its page. *)
Lemma camino_hoja m q va va' t3 t2 t1 e : is_u64 e -> tiene e PTE_PRESENT = true ->
  lleva m q (idx 4 va) t3 -> lleva m t3 (idx 3 va) t2 -> lleva m t2 (idx 2 va) t1 ->
  marco q -> marco t3 -> marco t2 -> marco t1 -> t1 <> q -> t1 <> t3 -> t1 <> t2 -> pagina va' = pagina va ->
  mmu 4 (escribe m t1 (idx 1 va) e) q va' = Some [palabra m q (idx 4 va); palabra m t3 (idx 3 va); palabra m t2 (idx 2 va); e].
Proof.
  intros He Hp K3 K2 K1 Mq M3 M2 M1 N1 N2 N3 (_ & E4 & E3 & E2 & E1)%pagina_idx.
  assert (Hpal : forall t i, marco t -> t1 <> t -> ranura i -> palabra (escribe m t1 (idx 1 va) e) t i = palabra m t i).
  { intros t i Mt Nt Hi. apply palabra_escribe_ne; try done; [apply idx_range|congruence]. }
  pose proof (idx_range 4 va). pose proof (idx_range 3 va). pose proof (idx_range 2 va).
  rewrite (camino _ q va' t3 t2 t1); rewrite ?E4, ?E3, ?E2, ?E1; unfold lleva; rewrite ?(Hpal q), ?(Hpal t3), ?(Hpal t2) by done; try done.
  rewrite palabra_escribe by done. by rewrite Hp.
Qed.

Lemma map_spec s own q va pa u w x c n : wf s own -> espacio own q -> 0 <= pa ->
  exists s' r own', map_page_tipo s q va pa u w x c n = Some (s', r) /\ wf s' own' /\ own ⊆ own' /\
    (forall q', espacio own' q' <-> espacio own q') /\ igual_resto s s' /\
    match r with
    | Ok _ => va mod PAGE = 0 /\ pa mod PAGE = 0 /\
        (forall q' va', espacio own q' -> destino (mem s') q' va' =
          if bool_decide (pagina va' = pagina va) && (bool_decide (q' = q) || compartida va)
          then Some (Z.land pa ADDR_MASK + va' mod PAGE) else destino (mem s) q' va') /\
        (exists e4 e3 e2, mmu 4 (mem s') q va = Some [e4; e3; e2; hoja_de s pa u w x c n]) /\
        (mmu 4 (mem s) q va <> None -> invlpg s' = va :: invlpg s)
    | Err _ => (forall q' va', espacio own q' -> mmu 4 (mem s') q' va' = mmu 4 (mem s) q' va') /\ invlpg s' = invlpg s /\
        (va mod PAGE <> 0 \/ pa mod PAGE <> 0 \/ (exists p, mmu 4 (mem s) q va = Some p /\ (length p < 4)%nat) \/
         forall f, 0 <= f < MARCOS -> used (bitmap (ph s')) f = true)
    end.
Proof.
  intros W Hq H0. destruct (decide (va mod PAGE = 0 /\ pa mod PAGE = 0)) as [[Hva Hpa]|Hal].
  2:{ exists s, (Err tt), own. split; [|split; [done|split; [done|split; [done|split; [done|split; [done|split; [done|]]]]]]].
      - unfold map_page_tipo. destruct (Z.eqb_spec (va mod PAGE) 0); cbn [negb orb]; [|done].
        destruct (Z.eqb_spec (pa mod PAGE) 0); [tauto|done].
      - destruct (decide (va mod PAGE = 0)); [right; left; tauto|by left]. }
  destruct (map_forma s own q va pa u w x c n W Hq Hva Hpa) as
    [(s1 & o1 & t3 & t2 & t1 & E & C & K3 & K2 & K1 & L & L3 & L2 & _)|(s1 & o1 & E & C & _ & R)]; rewrite E.
  2:{ exists s1, (Err tt), o1. split; [done|]. split; [apply C|]. split; [apply C|]. split; [apply C|]. split; [apply C|].
      split; [apply C|]. split; [apply C|]. tauto. }
  set (e := hoja_de s pa u w x c n) in *. pose proof (co_wf _ _ _ _ _ C) as W1.
  assert (He : is_u64 e) by (by apply hoja_u64). destruct (hoja_campos s pa u w x c n Hpa) as (Hpr & _ & _ & _ & _ & Hmk).
  fold e in Hpr, Hmk. destruct (co_resto _ _ _ _ _ C) as (Ek & Hres).
  assert (Mq : o1 !! q = Some (q, 4, 0)) by (by apply (co_espacio _ _ _ _ _ C)).
  assert (Hl : forall va', pagina va' = pagina va -> mmu 4 (escribe (mem s1) t1 (idx 1 va) e) q va' =
    Some [palabra (mem s1) q (idx 4 va); palabra (mem s1) t3 (idx 3 va); palabra (mem s1) t2 (idx 2 va); e]).
  { intros va' Hp. apply camino_hoja; try done.
    - by apply (wf_marco _ _ W1 _ _ Mq).
    - by apply (wf_marco _ _ W1 _ _ L3).
    - by apply (wf_marco _ _ W1 _ _ L2).
    - by apply (wf_marco _ _ W1 _ _ L).
    - intros ->. rewrite L in Mq. discriminate Mq.
    - pose proof (hija_own s1 o1 W1 q 4 va q (raiz_etiqueta s1 o1 q va Mq) ltac:(lia) (proj1 K3) ltac:(lia)) as X.
      rewrite (proj2 (proj2 K3)) in X. intros ->. rewrite L in X. discriminate X.
    - pose proof (hija_own s1 o1 W1 q 4 va q (raiz_etiqueta s1 o1 q va Mq) ltac:(lia) (proj1 K3) ltac:(lia)) as X.
      rewrite (proj2 (proj2 K3)) in X. change (4 - 1) with 3 in X.
      pose proof (hija_own s1 o1 W1 q 3 va t3 X ltac:(lia) (proj1 K2) (fun _ => proj1 (proj2 K2))) as Y.
      rewrite (proj2 (proj2 K2)) in Y. intros ->. rewrite L in Y. discriminate Y. }
  set (s2 := with_mem s1 _). set (b := tiene _ _).
  assert (Hmem : mem (con_olvido b va s2) = escribe (mem s1) t1 (idx 1 va) e) by (by destruct b).
  exists (con_olvido b va s2), (Ok tt), o1. split; [done|]. split; [|split; [apply C|split; [apply C|]]].
  { apply con_olvido_wf. apply (hoja_wf s1 o1 W1 t1 _ _ (idx 1 va) L); [apply idx_range|done]. }
  split; [by destruct b|]. rewrite Hmem. split; [done|]. split; [done|]. split; [|split].
  - intros q' va' Hq'. pose proof (proj2 (co_espacio _ _ _ _ _ C q') Hq') as Hq1.
    rewrite (hoja_destino s1 o1 W1 t1 _ _ (idx 1 va) L (idx_range _ _) e He q va va'
      (fun va' => Some (Z.land pa ADDR_MASK + va' mod PAGE)) Mq); try done.
    + destruct (_ && _); [done|]. unfold destino. by rewrite (co_mmu _ _ _ _ _ C).
    + by rewrite Ek.
    + intros v Hv. rewrite (destino_hoja _ _ _ _ _ _ _ (Hl v Hv)). by rewrite Hmk.
  - eexists _, _, _. by apply Hl.
  - intros Hm. assert (Hb : b = true); [|rewrite Hb; cbn; f_equal; apply C].
    rewrite <- (co_mmu _ _ _ _ _ C) in Hm by done. rewrite (camino _ _ _ _ _ _ K3 K2 K1) in Hm. fold b in Hm. by destruct b.
Qed.

(** Removing a page writes a zero at the bottom of its walk. *)
Lemma unmap_forma s own q va : wf s own -> espacio own q ->
  (exists t3 t2 t1, lleva (mem s) q (idx 4 va) t3 /\ lleva (mem s) t3 (idx 3 va) t2 /\ lleva (mem s) t2 (idx 2 va) t1 /\
    own !! t3 = Some (dueno (KERNEL_PML4 s) q 3 va, 3, pref 3 va) /\
    own !! t2 = Some (dueno (KERNEL_PML4 s) q 2 va, 2, pref 2 va) /\
    own !! t1 = Some (dueno (KERNEL_PML4 s) q 1 va, 1, pref 1 va) /\
    let e := palabra (mem s) t1 (idx 1 va) in
    unmap_page s q va = if tiene e PTE_PRESENT
      then Some (olvida (with_mem s (escribe (mem s) t1 (idx 1 va) 0)) va, Some (Z.land e ADDR_MASK))
      else Some (s, None)) \/
  (unmap_page s q va = Some (s, None) /\ forall e4 e3 e2 e, mmu 4 (mem s) q va <> Some [e4; e3; e2; e]).
Proof.
  intros W Hq. pose proof (raiz_etiqueta s own q va Hq) as L4. destruct (i_de_idx va) as (I4 & I3 & I2 & I1).
  unfold unmap_page. rewrite I4, I3, I2, I1. cbn [mmu]. change (Z.of_nat 4) with 4. change (Z.of_nat 3) with 3.
  change (Z.of_nat 2) with 2. change (Z.of_nat 1) with 1. cbn [Nat.eqb Nat.leb orb andb].
  rewrite (casilla_own _ _ W _ _ _ L4). cbn [mbind option_bind].
  destruct (tiene _ PTE_PRESENT) eqn:P4; cbn [negb orb]; [|by right].
  assert (H4 : tiene (palabra (mem s) q (idx 4 va)) PTE_HUGE = false).
  { destruct (wf_hija _ _ W _ _ _ _ (idx 4 va) L4) as [N _]; [lia|apply idx_range|done|]. by apply N. }
  rewrite H4. pose proof (hija_own s own W q 4 va q L4 ltac:(lia) P4 ltac:(lia)) as L3. change (4 - 1) with 3 in L3.
  set (t3 := Z.land (palabra _ q _) _) in *. rewrite (casilla_own _ _ W _ _ _ L3). cbn [mbind option_bind].
  destruct (tiene (palabra (mem s) t3 _) PTE_PRESENT) eqn:P3; cbn [negb orb]; [|by right].
  destruct (tiene (palabra (mem s) t3 _) PTE_HUGE) eqn:H3; [by right|].
  pose proof (hija_own s own W q 3 va t3 L3 ltac:(lia) P3 ltac:(done)) as L2. change (3 - 1) with 2 in L2.
  set (t2 := Z.land (palabra _ t3 _) _) in *. rewrite (casilla_own _ _ W _ _ _ L2). cbn [mbind option_bind].
  destruct (tiene (palabra (mem s) t2 _) PTE_PRESENT) eqn:P2; cbn [negb orb]; [|by right].
  destruct (tiene (palabra (mem s) t2 _) PTE_HUGE) eqn:H2; [by right|].
  pose proof (hija_own s own W q 2 va t2 L2 ltac:(lia) P2 ltac:(done)) as L1. change (2 - 1) with 1 in L1.
  set (t1 := Z.land (palabra _ t2 _) _) in *. rewrite (casilla_own _ _ W _ _ _ L1). cbn [mbind option_bind].
  left. exists t3, t2, t1. do 6 (split; [done|]). cbv zeta. rewrite (pon_own s own W t1 _ _ _ L1).
  by destruct (tiene (palabra (mem s) t1 _) PTE_PRESENT).
Qed.

Lemma unmap_spec s own q va : wf s own -> espacio own q ->
  exists s' o, unmap_page s q va = Some (s', o) /\ wf s' own /\ igual_resto s s' /\ ph s' = ph s /\
    o = (match mmu 4 (mem s) q va with Some [_; _; _; e] => Some (Z.land e ADDR_MASK) | _ => None end) /\
    invlpg s' = (if o then [va] else []) ++ invlpg s /\
    (forall q' va', espacio own q' -> destino (mem s') q' va' =
      if bool_decide (o <> None) && (bool_decide (pagina va' = pagina va) && (bool_decide (q' = q) || compartida va))
      then None else destino (mem s) q' va').
Proof.
  intros W Hq. destruct (unmap_forma s own q va W Hq) as [(t3 & t2 & t1 & K3 & K2 & K1 & L3 & L2 & L1 & E)|[E Hno]]; rewrite E.
  2:{ exists s, None. repeat (split; [done|]). split; [|by split]. destruct (mmu 4 (mem s) q va) as [p|] eqn:Em; [|done].
      destruct p as [|a [|b [|c [|d [|? p]]]]]; try done. by destruct (Hno a b c d). }
  rewrite (camino _ _ _ _ _ _ K3 K2 K1). set (e := palabra (mem s) t1 (idx 1 va)) in *.
  destruct (tiene e PTE_PRESENT) eqn:Ep; [|exists s, None; by repeat (split; [done|])].
  eexists _, _. split; [done|]. cbn [olvida with_mem mem ph invlpg].
  assert (H0 : is_u64 0) by done. split; [|split; [done|split; [done|split; [done|split; [done|]]]]].
  { apply (con_olvido_wf true). by apply (hoja_wf s own W t1 _ _ (idx 1 va) L1 (idx_range _ _) 0). }
  rewrite bool_decide_eq_true_2 by done. cbn [andb]. intros q' va' Hq'.
  apply (hoja_destino s own W t1 _ _ (idx 1 va) L1 (idx_range _ _) 0 H0 q va va' (fun _ => None) Hq); try done.
  intros v Hv. destruct (pagina_idx _ _ Hv) as (_ & E4 & E3 & E2 & E1). unfold destino.
  assert (Hpal : forall t x i, own !! t = Some x -> t1 <> t -> ranura i -> palabra (escribe (mem s) t1 (idx 1 va) 0) t i = palabra (mem s) t i).
  { intros t x i Ht Nt Hi. apply (hoja_palabra s own W t1 _ _ (idx 1 va) L1 (idx_range _ _) 0 t x); [done..|congruence]. }
  assert (Nq : t1 <> q) by (intros X; unfold espacio in Hq; rewrite X, Hq in L1; discriminate L1).
  assert (N3 : t1 <> t3) by (intros X; rewrite X, L3 in L1; discriminate L1).
  assert (N2 : t1 <> t2) by (intros X; rewrite X, L2 in L1; discriminate L1).
  pose proof (idx_range 4 va). pose proof (idx_range 3 va). pose proof (idx_range 2 va).
  rewrite (camino _ q v t3 t2 t1); rewrite ?E4, ?E3, ?E2, ?E1; unfold lleva; rewrite ?(Hpal q _ _ Hq), ?(Hpal t3 _ _ L3), ?(Hpal t2 _ _ L2) by done; try done.
  by rewrite palabra_escribe.
Qed.

(** ** A new space *)

Lemma copia_eq k p s i : marco k -> marco p ->
  copia_casilla k p s i = Some (with_mem s (escribe (mem s) p i (palabra (mem s) k i))).
Proof.
  intros [_ K] [_ P]. unfold copia_casilla, casilla, pon_casilla. by rewrite !(proj2 (Z.ltb_lt _ _)) by lia.
Qed.

Lemma copia_spec k p n : forall a s, marco k -> marco p -> k <> p -> mem_ok (mem s) -> 0 <= a -> a + Z.of_nat n <= 512 ->
  exists m, mfor (copia_casilla k p) (seqZ a (Z.of_nat n)) s = Some (with_mem s m) /\ mem_ok m /\
    forall t i, marco t -> ranura i -> palabra m t i =
      if bool_decide (t = p /\ a <= i < a + Z.of_nat n) then palabra (mem s) k i else palabra (mem s) t i.
Proof.
  induction n as [|n IH]; intros a s Hk Hp Hne Hm Ha Hn.
  { exists (mem s). split; [by destruct s|]. split; [done|]. intros t i _ _. rewrite bool_decide_eq_false_2; [done|lia]. }
  rewrite seqZ_cons by lia. replace (Z.pred (Z.of_nat (S n))) with (Z.of_nat n) by lia. cbn [mfor].
  rewrite copia_eq by done. cbn [mbind option_bind].
  set (e := palabra (mem s) k a). assert (He : is_u64 e) by (by apply palabra_range).
  destruct (IH (Z.succ a) (with_mem s (escribe (mem s) p a e))) as (m & E & Hmo & Hpal); [done|done|done|by apply escribe_ok|lia|lia|].
  exists m. rewrite E. split; [by destruct s|]. split; [done|]. intros t i Ht Hi. rewrite Hpal by done. cbn [mem with_mem].
  assert (Ra : ranura a) by (unfold ranura; lia).
  rewrite (palabra_escribe_ne (mem s) p a e k i) by (done || congruence).
  destruct (decide (t = p /\ i = a)) as [[-> ->]|Hno].
  - rewrite bool_decide_eq_false_2, bool_decide_eq_true_2 by lia. by rewrite palabra_escribe.
  - rewrite palabra_escribe_ne; [|done..|intros [= -> ->]; tauto]. f_equal. repeat case_bool_decide; (done || lia).
Qed.

Section Nuevo.
Context (s : vmm_st) (own : gmap Z etiqueta) (W : wf s own).
Context (q d : Z) (Hq : marco q) (Hd : marco d) (Hqd : q <> d) (Nq : own !! q = None) (Nd : own !! d = None).
Context (s' : vmm_st) (Hk : KERNEL_PML4 s' = KERNEL_PML4 s) (Hm : mem_ok (mem s')) (Hp : phys_ok (ph s')).
Context (Hu : forall g, used (bitmap (ph s')) g = (q / PAGE =? g) || (d / PAGE =? g) || used (bitmap (ph s)) g).
Context (Hti : forall g, marco g -> titular_de (tit (ph s')) g =
  if bool_decide (g = q \/ g = d) then Tabla else titular_de (tit (ph s)) g).
Context (e0 : Z) (He0 : tiene e0 PTE_PRESENT = true) (Hh0 : tiene e0 PTE_HUGE = false) (Ha0 : Z.land e0 ADDR_MASK = d).
Let K := KERNEL_PML4 s.
Let k0 := Z.land (palabra (mem s) K 0) ADDR_MASK.
Context (Pviejo : forall p x i, own !! p = Some x -> ranura i -> palabra (mem s') p i = palabra (mem s) p i).
Context (Pq : forall i, ranura i -> palabra (mem s') q i =
  if i =? 0 then e0 else if 256 <=? i then palabra (mem s) K i else 0).
Context (Pd : forall i, ranura i -> palabra (mem s') d i = if i =? 0 then palabra (mem s) k0 0 else 0).
Let own' := <[q := (q, 4, 0)]> (<[d := (q, 3, 0)]> own).

Lemma nuevo_own p x : own' !! p = Some x <-> p = q /\ x = (q, 4, 0) \/ p = d /\ x = (q, 3, 0) \/ own !! p = Some x.
Proof.
  unfold own'. rewrite !lookup_insert_Some. split.
  - intros [[-> ->]|[? [[-> ->]|[? ?]]]]; tauto.
  - intros [[-> ->]|[[-> ->]|H]]; [tauto|tauto|]. right. split; [congruence|]. right. split; [congruence|done].
Qed.

Lemma nuevo_viejo p x : own !! p = Some x -> own' !! p = Some x.
Proof. intros H. apply nuevo_own. tauto. Qed.

Lemma nuevo_raiz r l pre : own !! r = Some (q, l, pre) -> False.
Proof. intros H. apply (wf_nivel _ _ W) in H as (_ & H & _). unfold espacio in H. congruence. Qed.

Lemma nuevo_espacio r : espacio own' r <-> r = q \/ espacio own r.
Proof.
  unfold espacio. rewrite nuevo_own. split; [|by intros [->|]; tauto].
  intros [[-> _]|[[-> [=]]|]]; tauto.
Qed.

Lemma nuevo_wf : wf s' own'.
Proof.
  pose proof (wf_nucleo _ _ W) as WK. fold K in WK.
  assert (R0 : ranura 0) by done.
  assert (Hkid : own !! k0 = Some (K, 3, 0)) by (apply (pd_identidad s own W), WK).
  assert (Hk0 : tiene (palabra (mem s) k0 0) PTE_PRESENT = true) by (apply (wf_identidad _ _ W K WK)).
  split; rewrite ?Hk; fold K.
  - done.
  - done.
  - rewrite Hu, (wf_cero _ _ W). by rewrite orb_true_r.
  - apply nuevo_espacio. by right.
  - intros p x. rewrite nuevo_own, Hu. intros [[-> _]|[[-> _]|H]].
    + split; [done|]. by rewrite Z.eqb_refl.
    + split; [done|]. rewrite Z.eqb_refl. by rewrite orb_true_r.
    + destruct (wf_marco _ _ W _ _ H) as [? ->]. split; [done|apply orb_true_r].
  - intros p r l pre. rewrite nuevo_own, nuevo_espacio. intros [[-> [= -> -> ->]]|[[-> [= -> -> ->]]|H]].
    + split; [lia|]. split; [by left|done].
    + split; [lia|]. split; [by left|lia].
    + destruct (wf_nivel _ _ W _ _ _ _ H) as (? & ? & ?). split; [done|]. split; [by right|done].
  - intros p1 p2 x. rewrite !nuevo_own. intros H1 H2.
    destruct H1 as [[-> ->]|[[-> ->]|H1]], H2 as [[-> E]|[[-> E]|H2]]; try done; try (rewrite E in H1; by apply nuevo_raiz in H1);
      try (by apply nuevo_raiz in H2). by apply (wf_iny _ _ W _ _ x).
  - intros p r l pre i. rewrite nuevo_own. intros [[-> [= -> -> ->]]|[[-> [= -> -> ->]]|H]] Hl Hi.
    + rewrite Pq by done. destruct (Z.eqb_spec i 0) as [->|N0].
      { intros _. split; [done|]. intros _. rewrite Ha0. apply nuevo_own. right. left. done. }
      destruct (Z.leb_spec 256 i) as [Li|]; [|done]. intros Hpr. destruct (wf_hija _ _ W K K 4 0 i WK ltac:(lia) Hi Hpr) as [N1 N2].
      split; [done|]. intros Hh. apply nuevo_viejo. rewrite N2 by done. unfold hija, comparte.
      rewrite (proj2 (Z.leb_le _ _)) by done. done.
    + rewrite Pd by done. destruct (Z.eqb_spec i 0) as [->|N0]; [|done]. intros Hpr.
      destruct (wf_hija _ _ W k0 K 3 0 0 Hkid ltac:(lia) R0 Hpr) as [N1 N2]. split; [done|]. intros Hh. by apply nuevo_viejo, N2.
    + rewrite (Pviejo p _ i H Hi). intros Hpr. destruct (wf_hija _ _ W p r l pre i H Hl Hi Hpr) as [N1 N2]. split; [done|].
      intros Hh. by apply nuevo_viejo, N2.
  - intros p r l pre. rewrite nuevo_own. intros [[-> _]|[[-> _]|H]] Hr.
    + rewrite Hti by done. rewrite bool_decide_eq_true_2 by tauto. done.
    + rewrite Hti by done. rewrite bool_decide_eq_true_2 by tauto. done.
    + rewrite Hti by apply (wf_marco _ _ W _ _ H). rewrite bool_decide_eq_false_2 by (intros [-> | ->]; congruence).
      by apply (wf_titular _ _ W _ _ _ _ H).
  - intros p r l pre. rewrite nuevo_own. intros [[-> [= -> -> ->]]|[[-> [= -> -> ->]]|H]] Hl; [lia| |].
    + exists q. rewrite Pq by done. split; [apply nuevo_own; by left|]. done.
    + destruct (wf_enlazada _ _ W _ _ _ _ H Hl) as (t & Ht & Ht'). exists t. split; [by apply nuevo_viejo|].
      rewrite (Pviejo t _ _ Ht); [done|]. by apply Z.mod_pos_bound.
  - intros r i Hr Hi. assert (Ri : ranura i) by (unfold ranura; lia). rewrite (Pviejo K _ i WK Ri). apply nuevo_espacio in Hr as [->|Hr].
    + rewrite Pq by done. rewrite (proj2 (Z.eqb_neq _ _)), (proj2 (Z.leb_le _ _)) by lia.
      destruct (wf_mitad _ _ W K i WK Hi). done.
    + rewrite (Pviejo r _ i Hr Ri). by apply W.
  - intros r Hr. cbv zeta. rewrite (Pviejo K _ 0 WK R0). fold k0. rewrite (Pviejo k0 _ 0 Hkid R0).
    apply nuevo_espacio in Hr as [->|Hr].
    + rewrite Pq by done. cbn [Z.eqb]. rewrite Ha0. rewrite Pd by done. done.
    + rewrite (Pviejo r _ 0 Hr R0). destruct (wf_identidad _ _ W r Hr) as (I1 & I2 & I3). split; [done|].
      pose proof (pd_identidad s own W r Hr) as Hrd. rewrite (Pviejo _ _ 0 Hrd R0). done.
Qed.

Lemma nuevo_destino va : destino (mem s') q va = if compartida va then destino (mem s) K va else None.
Proof.
  pose proof (wf_nucleo _ _ W) as WK. fold K in WK.
  assert (EK : destino (mem s') K va = destino (mem s) K va).
  { unfold destino. f_equal. apply (mmu_igual s own W); [done|]. intros p x i Hx Hi. by apply (Pviejo p x). }
  destruct (compartida va) eqn:Ec.
  - rewrite (destino_compartida s' own' q va nuevo_wf); [|apply nuevo_espacio; by left|done]. by rewrite Hk.
  - unfold compartida, comparte in Ec. apply orb_false_iff in Ec as [Ec4 Ec3]. cbn [Z.eqb Pos.eqb andb orb] in Ec4, Ec3.
    rewrite orb_false_r in Ec4. unfold destino. cbn [mmu]. change (Z.of_nat 4) with 4. change (Z.of_nat 3) with 3.
    rewrite Pq by apply idx_range. destruct (Z.eqb_spec (idx 4 va) 0) as [E4|N4]; [|by rewrite Ec4].
    rewrite He0, Ha0. cbn [negb Nat.eqb Nat.leb orb andb]. rewrite Pd by apply idx_range.
    cbn [andb] in Ec3. by rewrite Ec3.
Qed.
End Nuevo.

(** Taking a frame that is not for a table leaves the tables as they are. *)
Lemma wf_alloc s own p' f : wf s own -> alloc_frame (ph s) = (p', Some f) -> wf (with_ph s p') own /\ marco f /\
  used (bitmap (ph s)) (f / PAGE) = false /\ own !! f = None /\ (forall g, used (bitmap p') g = (f / PAGE =? g) || used (bitmap (ph s)) g) /\
  free_frames p' = free_frames (ph s) - 1.
Proof.
  intros W E. pose proof (wf_phys _ _ W) as Hp. apply alloc_frame_inv in E as (k & Hk & -> & Hu & Hb & Ht & Hfr & Hok); [|done].
  assert (Hk0 : k <> 0) by (intros ->; rewrite (wf_cero _ _ W) in Hu; done).
  assert (Hm : marco (k * PAGE)).
  { split; [by apply Z.mod_mul|]. rewrite MARCOS_eq in Hk. unfold PAGE, PHYSMAP_SIZE. lia. }
  assert (Hus : forall g, used (bitmap p') g = (k =? g) || used (bitmap (ph s)) g) by (intros g; by rewrite Hb, used_set_bit).
  assert (Hno : own !! (k * PAGE) = None).
  { destruct (own !! (k * PAGE)) as [x|] eqn:E; [|done]. apply (wf_marco _ _ W) in E as [_ E]. rewrite Z.div_mul in E by done. congruence. }
  rewrite Z.div_mul by done. split; [|done].
  split; cbn [with_ph ph mem KERNEL_PML4]; try apply W.
  - done.
  - rewrite Hus, (wf_cero _ _ W). apply orb_true_r.
  - intros p x Hx. destruct (wf_marco _ _ W _ _ Hx) as [? Hxu]. split; [done|]. rewrite Hus, Hxu. apply orb_true_r.
  - intros p r l pre Hx Hr. rewrite Ht. destruct (wf_marco _ _ W _ _ Hx) as [Hpm _].
    assert (exists j, p = j * PAGE /\ 0 <= j < MARCOS) as (j & -> & Hj).
    { destruct Hpm. exists (p / PAGE). rewrite MARCOS_eq. unfold PAGE, PHYSMAP_SIZE in *. lia. }
    rewrite titular_de_marcar by (exact Hk || exact Hj || apply Hp). rewrite decide_False by congruence.
    by apply (wf_titular _ _ W _ _ _ _ Hx).
Qed.

(** Giving back a frame that was not a table. *)
Lemma free_data s own f ticks : wf s own -> marco f -> own !! f = None -> used (bitmap (ph s)) (f / PAGE) = true ->
  wf (with_ph s (free_frame (ph s) f ticks)) own /\
  (forall g, used (bitmap (free_frame (ph s) f ticks)) g = negb (f / PAGE =? g) && used (bitmap (ph s)) g) /\
  free_frames (free_frame (ph s) f ticks) = free_frames (ph s) + 1 /\
  (forall g, marco g -> g <> f -> titular_de (tit (free_frame (ph s) f ticks)) g = titular_de (tit (ph s)) g).
Proof.
  intros W Hf Hno Hu. pose proof (wf_phys _ _ W) as Hp. pose proof (marco_page f Hf) as Ef.
  assert (Hr : 0 <= f / PAGE < MARCOS) by (destruct Hf; rewrite MARCOS_eq; unfold PAGE, PHYSMAP_SIZE in *; lia).
  assert (Ht : forall g, marco g -> g <> f -> titular_de (tit (free_frame (ph s) f ticks)) g = titular_de (tit (ph s)) g).
  { intros g Hg Hne. rewrite <- Ef, free_frame_used by done. cbn [tit].
    assert (Hr' : 0 <= g / PAGE < MARCOS) by (destruct Hg; rewrite MARCOS_eq; unfold PAGE, PHYSMAP_SIZE in *; lia).
    rewrite <- (marco_page g Hg). rewrite titular_de_marcar by (exact Hr || exact Hr' || apply Hp).
    rewrite decide_False; [done|]. intros E. apply Hne. rewrite <- (marco_page g Hg), <- Ef. congruence. }
  assert (Hus : forall g, used (bitmap (free_frame (ph s) f ticks)) g = negb (f / PAGE =? g) && used (bitmap (ph s)) g).
  { intros g. rewrite <- Ef at 1. rewrite free_frame_used by done. cbn [bitmap]. apply used_clear_bit. }
  split; [|split; [done|split; [|done]]].
  2:{ rewrite <- Ef at 1. rewrite free_frame_used by done. done. }
  split; cbn [with_ph ph mem KERNEL_PML4]; try apply W.
  - rewrite <- Ef. by apply free_frame_ok.
  - rewrite Hus, (wf_cero _ _ W), (proj2 (Z.eqb_neq _ _)); [done|]. destruct Hf. unfold PAGE in *. lia.
  - intros p x Hx. destruct (wf_marco _ _ W _ _ Hx) as [Hpm Hxu]. split; [done|]. rewrite Hus, Hxu, (proj2 (Z.eqb_neq _ _)); [done|].
    intros E. assert (p = f) as ->; [|congruence]. by rewrite <- (marco_page p Hpm), <- Ef, E.
  - intros p r l pre Hx Hr'. rewrite Ht; [by apply (wf_titular _ _ W _ _ _ _ Hx)|by apply (wf_marco _ _ W _ _ Hx)|].
    intros ->. congruence.
Qed.

Lemma tabla_libre p f ticks : titular_de (tit p) f = Tabla -> free_frame_de p f ticks Tabla = (free_frame p f ticks, true).
Proof. intros H. unfold free_frame_de, puede_soltar. by rewrite H. Qed.

Lemma new_address_space_spec s own ticks : wf s own ->
  exists s' r, new_address_space s ticks = Some (s', r) /\ igual_resto s s' /\ invlpg s' = invlpg s /\
    match r with
    | None => wf s' own /\ free_frames (ph s) <= 1 /\ (forall g, used (bitmap (ph s')) g = used (bitmap (ph s)) g) /\
        forall p i, own !! p <> None -> ranura i -> palabra (mem s') p i = palabra (mem s) p i
    | Some q => exists d, wf s' (<[q := (q, 4, 0)]> (<[d := (q, 3, 0)]> own)) /\ own !! q = None /\ own !! d = None /\ q <> d /\
        marco q /\ marco d /\ used (bitmap (ph s)) (q / PAGE) = false /\ used (bitmap (ph s)) (d / PAGE) = false /\
        (forall g, used (bitmap (ph s')) g = (q / PAGE =? g) || (d / PAGE =? g) || used (bitmap (ph s)) g) /\
        free_frames (ph s') = free_frames (ph s) - 2 /\
        (forall p x i, own !! p = Some x -> ranura i -> palabra (mem s') p i = palabra (mem s) p i) /\
        (forall va, destino (mem s') q va = if compartida va then destino (mem s) (KERNEL_PML4 s) va else None) /\
        lleva (mem s') q 0 d /\ palabra (mem s') q 0 = Z.lor (Z.land d ADDR_MASK) (mid_de true) /\
        (forall i, 1 <= i < 512 -> palabra (mem s') d i = 0) /\ (forall i, 1 <= i < 256 -> palabra (mem s') q i = 0)
    end.
Proof.
  intros W. pose proof (wf_phys _ _ W) as Hp. unfold new_address_space.
  destruct (alloc_frame_de (ph s) Tabla) as [p1 [q|]] eqn:E1.
  2:{ destruct (alloc_tabla_None _ _ Hp E1) as [-> Hall]. exists (with_ph s (ph s)), None.
      split; [done|split; [done|split; [done|]]]. split; [by destruct s|]. split; [|done].
      destruct Hp as [H1 H2 H3]. rewrite H2, contar_todo by done. lia. }
  destruct (alloc_tabla _ _ _ Hp (wf_cero _ _ W) E1) as (Mq & Uq & Hp1 & Tq & U1 & F1 & O1).
  assert (Nq : own !! q = None).
  { destruct (own !! q) as [x|] eqn:E; [|done]. apply (wf_marco _ _ W) in E as [_ E]. congruence. }
  assert (H0 : used (bitmap p1) 0 = true) by (rewrite U1, (wf_cero _ _ W); apply orb_true_r).
  destruct (alloc_frame_de p1 Tabla) as [p2 [d|]] eqn:E2.
  2:{ destruct (alloc_tabla_None _ _ Hp1 E2) as [-> Hall]. rewrite tabla_libre by done. cbn [fst].
      exists (with_ph s (free_frame p1 q ticks)), None. split; [done|split; [done|split; [done|]]].
      pose proof (marco_page q Mq) as Eq.
      assert (Rq : 0 <= q / PAGE < MARCOS) by (destruct Mq; rewrite MARCOS_eq; unfold PAGE, PHYSMAP_SIZE in *; lia).
      assert (Us : forall g, used (bitmap (free_frame p1 q ticks)) g = used (bitmap (ph s)) g).
      { intros g. rewrite <- Eq at 1. rewrite free_frame_used by (done || by rewrite U1, Z.eqb_refl). cbn [bitmap].
        rewrite used_clear_bit, U1. destruct (Z.eqb_spec (q / PAGE) g) as [<-|]; [by rewrite Uq|done]. }
      split; [|split; [|done]].
      - split; cbn [with_ph ph mem KERNEL_PML4]; try apply W.
        + rewrite <- Eq. apply free_frame_ok; [done|done|by rewrite U1, Z.eqb_refl].
        + rewrite Us. apply W.
        + intros p x Hx. rewrite Us. by apply (wf_marco _ _ W p x).
        + intros p r l pre Hx Hr. destruct (wf_marco _ _ W _ _ Hx) as [Hpm _].
          assert (Hr' : 0 <= p / PAGE < MARCOS) by (destruct Hpm; rewrite MARCOS_eq; unfold PAGE, PHYSMAP_SIZE in *; lia).
          rewrite <- Eq, free_frame_used by (done || by rewrite U1, Z.eqb_refl). cbn [tit].
          rewrite <- (marco_page p Hpm). rewrite titular_de_marcar by (exact Rq || exact Hr' || apply Hp1).
          rewrite decide_False; [rewrite marco_page by done|].
          * rewrite O1 by (done || congruence). by apply (wf_titular _ _ W _ _ _ _ Hx).
          * intros E. rewrite <- (marco_page p Hpm), <- E, Eq in Hx. congruence.
      - cut (free_frames p1 = 0); [lia|]. rewrite (ok_free _ Hp1). apply contar_todo; [apply Hp1|done]. }
  destruct (alloc_tabla _ _ _ Hp1 H0 E2) as (Md & Ud & Hp2 & Td & U2 & F2 & O2).
  assert (Hne : q <> d) by (intros ->; by rewrite U1, Z.eqb_refl in Ud).
  assert (Ud' : used (bitmap (ph s)) (d / PAGE) = false) by (rewrite U1 in Ud; by apply orb_false_iff in Ud as [_ ?]).
  assert (Nd : own !! d = None).
  { destruct (own !! d) as [x|] eqn:E; [|done]. apply (wf_marco _ _ W) in E as [_ E]. congruence. }
  set (m0 := zero_frame (zero_frame (mem s) q) d). set (s0 := with_mem (with_ph s p2) m0).
  pose proof (wf_nucleo _ _ W) as WK. set (K := KERNEL_PML4 s) in *. change (KERNEL_PML4 s0) with K.
  assert (MK : marco K) by apply (wf_marco _ _ W _ _ WK).
  assert (NK : K <> q /\ K <> d) by (unfold espacio in WK; split; congruence). destruct NK as [NKq NKd].
  assert (Hm0 : mem_ok m0) by (apply zero_frame_ok, zero_frame_ok, W).
  destruct (copia_spec K q 256 256 s0 MK Mq NKq Hm0) as (m1 & Ec & Hm1 & P1); [done|done|].
  change (Z.of_nat 256) with 256 in Ec, P1. change (mem s0) with m0 in P1. rewrite Ec. cbn [mbind option_bind].
  assert (P0 : forall p i, marco p -> p <> q -> p <> d -> ranura i -> palabra m0 p i = palabra (mem s) p i).
  { intros p i Hpm Hpq Hpd Hi. unfold m0. by rewrite !palabra_zero_otro by congruence. }
  assert (P0q : forall i, ranura i -> palabra m0 q i = 0).
  { intros i Hi. unfold m0. rewrite palabra_zero_otro by congruence. by apply palabra_zero. }
  assert (P0d : forall i, ranura i -> palabra m0 d i = 0) by (intros i Hi; by apply palabra_zero).
  pose proof (proj2 Mq) as Mq2. unfold pon_casilla at 1. rewrite (proj2 (Z.ltb_lt q _)) by lia. cbn [mbind option_bind].
  set (e0 := Z.lor (Z.lor (Z.lor d PTE_PRESENT) PTE_WRITABLE) PTE_USER).
  set (m2 := escribe _ q 0 e0).
  assert (Ee0 : e0 = Z.lor (Z.land d ADDR_MASK) (mid_de true)).
  { unfold e0, mid_de. rewrite mask_marco by done. by rewrite !Z.lor_assoc. }
  destruct (mid_enlace true) as (F1a & F1b & F1c & F1d).
  assert (He0 : is_u64 e0) by (rewrite Ee0; apply enlace_u64; [done|apply mid_enlace]).
  assert (Pr0 : tiene e0 PTE_PRESENT = true) by (rewrite Ee0; unfold PTE_PRESENT; by rewrite tiene_or).
  assert (Hg0 : tiene e0 PTE_HUGE = false) by (rewrite Ee0; unfold PTE_HUGE; by rewrite tiene_or).
  assert (Ad0 : Z.land e0 ADDR_MASK = d) by (rewrite Ee0; by apply mask_or).
  assert (R0 : ranura 0) by done.
  unfold casilla at 1. rewrite (proj2 (Z.ltb_lt K _)) by (destruct MK; lia). cbn [mbind option_bind].
  assert (EK0 : palabra m2 K 0 = palabra (mem s) K 0).
  { unfold m2. cbn [mem with_mem]. rewrite palabra_escribe_ne by (done || congruence). rewrite P1 by done.
    rewrite bool_decide_eq_false_2 by lia. by apply P0. }
  change (mem (with_mem (with_mem s0 m1) m2)) with m2. rewrite EK0. set (k0 := Z.land _ ADDR_MASK).
  assert (Hkid : own !! k0 = Some (K, 3, 0)) by (by apply (pd_identidad s own W)).
  assert (Mk0 : marco k0) by apply (wf_marco _ _ W _ _ Hkid). rewrite copia_eq by done. cbn [mbind option_bind].
  change (mem (with_mem _ m2)) with m2. set (ed := palabra m2 k0 0).
  assert (Nk0 : k0 <> q /\ k0 <> d) by (split; congruence). destruct Nk0 as [Nkq Nkd].
  assert (Eed : ed = palabra (mem s) k0 0).
  { unfold ed, m2. rewrite palabra_escribe_ne by (done || congruence). cbn [mem with_mem]. rewrite P1 by done.
    rewrite bool_decide_eq_false_2 by tauto. by apply P0. }
  assert (Hed : is_u64 ed) by (rewrite Eed; apply palabra_range, W).
  set (m3 := escribe m2 d 0 ed). set (s3 := with_mem _ m3).
  assert (Hm2 : mem_ok m2) by (by apply escribe_ok).
  assert (Q : forall i, ranura i -> palabra m3 q i = if i =? 0 then e0 else if 256 <=? i then palabra (mem s) K i else 0).
  { intros i Hi. unfold m3. rewrite palabra_escribe_ne by (done || congruence). unfold m2.
    destruct (Z.eqb_spec i 0) as [->|Ni]; [by rewrite palabra_escribe|]. rewrite palabra_escribe_ne by (done || congruence).
    cbn [mem with_mem]. rewrite P1 by done. destruct (Z.leb_spec 256 i).
    - rewrite bool_decide_eq_true_2 by (unfold ranura in Hi; lia). by apply P0.
    - rewrite bool_decide_eq_false_2 by lia. by apply P0q. }
  assert (D : forall i, ranura i -> palabra m3 d i = if i =? 0 then palabra (mem s) k0 0 else 0).
  { intros i Hi. unfold m3. destruct (Z.eqb_spec i 0) as [->|Ni]; [by rewrite palabra_escribe|].
    rewrite palabra_escribe_ne by (done || congruence). unfold m2. rewrite palabra_escribe_ne by (done || congruence).
    cbn [mem with_mem]. rewrite P1 by done. rewrite bool_decide_eq_false_2 by (intros [? _]; congruence). by apply P0d. }
  assert (V : forall p x i, own !! p = Some x -> ranura i -> palabra m3 p i = palabra (mem s) p i).
  { intros p x i Hx Hi. assert (Mp : marco p) by apply (wf_marco _ _ W _ _ Hx). assert (p <> q /\ p <> d) as [? ?] by (split; congruence).
    unfold m3, m2. rewrite !palabra_escribe_ne by (done || congruence). cbn [mem with_mem]. rewrite P1 by done.
    rewrite bool_decide_eq_false_2 by tauto. by apply P0. }
  assert (Us : forall g, used (bitmap p2) g = (q / PAGE =? g) || (d / PAGE =? g) || used (bitmap (ph s)) g).
  { intros g. rewrite U2, U1. by destruct (d / PAGE =? g), (q / PAGE =? g). }
  assert (Ti : forall g, marco g -> titular_de (tit p2) g = if bool_decide (g = q \/ g = d) then Tabla else titular_de (tit (ph s)) g).
  { intros g Hg. case_bool_decide as B.
    - destruct (decide (g = d)) as [->|]; [done|]. destruct B as [->|]; [|done]. by rewrite O2.
    - rewrite O2, O1 by tauto. done. }
  exists s3, (Some q). split; [done|split; [done|split; [done|]]]. exists d.
  change (palabra (mem s) k0 0) with (palabra (mem s) (Z.land (palabra (mem s) (KERNEL_PML4 s) 0) ADDR_MASK) 0) in D.
  split; [|do 4 (split; [done|])].
  { apply (nuevo_wf s own W q d Mq Md Hne Nq Nd s3 eq_refl (escribe_ok _ _ _ _ Hm2 Hed) Hp2 Us Ti e0 Pr0 Hg0 Ad0 V Q D). }
  split; [done|]. do 2 (split; [done|]). split; [exact Us|]. split; [cbn; lia|]. split; [exact V|].
  split; [|split; [|split; [|split]]].
  - intros va. apply (nuevo_destino s own W q d Mq Md Hne Nq Nd s3 eq_refl (escribe_ok _ _ _ _ Hm2 Hed) Hp2 Us Ti e0 Pr0 Hg0 Ad0 V Q D).
  - unfold lleva. change (mem s3) with m3. rewrite Q by done. done.
  - change (mem s3) with m3. by rewrite Q.
  - intros i Hi. change (mem s3) with m3. rewrite D by (unfold ranura; lia). by rewrite (proj2 (Z.eqb_neq _ _)) by lia.
  - intros i Hi. change (mem s3) with m3. rewrite Q by (unfold ranura; lia). by rewrite (proj2 (Z.eqb_neq _ _)), (proj2 (Z.leb_gt _ _)) by lia.
Qed.
