(* ===== verification/Derribo.v ===== *)
(** The dismantling of an address space: which frames [destroy_address_space]
    gives back, that no other space notices, and the properties of the tables of
    [Vmm].
    Source: src/Ultra_kernel_x86-64/kernel/src/ring0/mm/vmm/roja.rs. *)

From stdpp Require Import gmap.
From S2P Require Import Prelude Titular Phys Vmm.

(** * What a space gives back *)

(** What the slot of a last-level table gives back: a page of its own; and what
    the slot of another table does, its link. *)
Definition de_hoja (e : Z) : list Z :=
  if negb (tiene e PTE_PRESENT) then [] else if tiene e PTE_NUESTRA then [Z.land e ADDR_MASK] else [].
Definition de_enlace (f : Z -> list Z) (e : Z) : list Z :=
  if negb (tiene e PTE_PRESENT) || tiene e PTE_HUGE then [] else f (Z.land e ADDR_MASK).

(** The frames that a table of level [l] gives back, in order, looking at [n] slots
    from [a]; then the table itself. *)
Fixpoint derriba (l : nat) (m : Z -> Z) (t a n : Z) : list Z :=
  match l with
  | O => []
  | S l' => concat ((fun i => if Nat.eqb l' 0 then de_hoja (palabra m t i)
                              else de_enlace (fun c => derriba l' m c 0 512) (palabra m t i)) <$> seqZ a n) ++ [t]
  end.
Definition derribo (m : Z -> Z) (u : Z) : list Z := derriba 3 m (Z.land (palabra m u 0) ADDR_MASK) 1 511 ++ [u].

Lemma derriba_tabla l m t a n : (1 <= l)%nat -> t ∈ derriba l m t a n.
Proof. intros Hl. destruct l; [lia|]. cbn [derriba]. apply elem_of_app. right. by apply list_elem_of_singleton. Qed.

(** A page of its own: where its word is and the frame. *)
Definition hoja_propia (s : vmm_st) (own : gmap Z etiqueta) (r pre p i f : Z) : Prop :=
  own !! p = Some (r, 1, pre) /\ ranura i /\ tiene (palabra (mem s) p i) PTE_PRESENT = true /\
  tiene (palabra (mem s) p i) PTE_NUESTRA = true /\ f = Z.land (palabra (mem s) p i) ADDR_MASK.

(** Each page of its own is a frame in use that is no table, and is nowhere twice. *)
Record hojas_ok (s : vmm_st) (own : gmap Z etiqueta) : Prop := {
  ho_marco : forall r pre p i f, hoja_propia s own r pre p i f ->
    marco f /\ used (bitmap (ph s)) (f / PAGE) = true /\ own !! f = None;
  ho_una : forall r1 pre1 p1 i1 r2 pre2 p2 i2 f, hoja_propia s own r1 pre1 p1 i1 f ->
    hoja_propia s own r2 pre2 p2 i2 f -> p1 = p2 /\ i1 = i2
}.

(** What [x] gave back, as a list: [L] from the state [s0]. *)
Record lib (s0 : vmm_st) (own : gmap Z etiqueta) (L : list Z) (x : vmm_st * cuenta) : Prop := {
  li_resto : igual_resto s0 (fst x) /\ invlpg (fst x) = invlpg s0;
  li_phys : phys_ok (ph (fst x)); li_mem : mem_ok (mem (fst x));
  li_used : forall g, used (bitmap (ph (fst x))) g = used (bitmap (ph s0)) g && negb (bool_decide (g * PAGE ∈ L));
  li_tit : forall p, marco p -> p ∉ L -> titular_de (tit (ph (fst x))) p = titular_de (tit (ph s0)) p;
  li_free : free_frames (ph (fst x)) = free_frames (ph s0) + Z.of_nat (length L);
  li_hojas : hojas (snd x) = Z.of_nat (length (filter (fun f => own !! f = None) L));
  li_tablas : tablas (snd x) = Z.of_nat (length (filter (fun f => own !! f <> None) L));
  li_libres : ya_libres (snd x) = 0;
  li_cero : forall f a, f ∈ L -> own !! f = None -> f <= a < f + PAGE -> mem (fst x) a = 0;
  li_bytes : forall f a, marco f -> (f ∉ L \/ own !! f <> None) -> f <= a < f + PAGE -> mem (fst x) a = mem s0 a
}.

Section Derribo.
Context (s0 : vmm_st) (own : gmap Z etiqueta) (W : wf s0 own) (H : hojas_ok s0 own) (ticks : Z).

Lemma lib_nada : lib s0 own [] (s0, mkCuenta 0 0 0).
Proof.
  split; try done; try apply W.
  - intros g. rewrite bool_decide_eq_false_2 by apply not_elem_of_nil. by rewrite andb_true_r.
  - cbn. lia.
  - intros f a Hf. by apply elem_of_nil in Hf.
Qed.

Lemma lib_palabra L x p y i : lib s0 own L x -> own !! p = Some y -> ranura i -> palabra (mem (fst x)) p i = palabra (mem s0) p i.
Proof.
  intros HL Hp Hi. pose proof (proj1 (wf_marco _ _ W _ _ Hp)) as Mp. apply palabra_ext. intros a Ha.
  apply (li_bytes _ _ _ _ HL p); [done|right; congruence|]. unfold ranura, PAGE in *. lia.
Qed.

Lemma lib_casilla L x p y i : lib s0 own L x -> own !! p = Some y -> ranura i -> casilla (fst x) p i = Some (palabra (mem s0) p i).
Proof.
  intros HL Hp Hi. pose proof (proj1 (wf_marco _ _ W _ _ Hp)) as [_ Mp]. unfold casilla.
  rewrite (proj2 (Z.ltb_lt _ _)) by lia. by rewrite (lib_palabra L x p y i).
Qed.

Lemma elem_marco (L : list Z) f : marco f -> (f / PAGE * PAGE ∈ L) <-> f ∈ L.
Proof. intros Hf. by rewrite marco_page. Qed.

(** Giving back one more frame, in use and not in the list. *)
Lemma lib_suelta L x f : lib s0 own L x -> marco f -> used (bitmap (ph s0)) (f / PAGE) = true -> f ∉ L ->
  let p' := free_frame (ph (fst x)) f ticks in
  phys_ok p' /\ (forall g, used (bitmap p') g = used (bitmap (ph s0)) g && negb (bool_decide (g * PAGE ∈ L ++ [f]))) /\
  (forall p, marco p -> p ∉ L ++ [f] -> titular_de (tit p') p = titular_de (tit (ph s0)) p) /\
  free_frames p' = free_frames (ph s0) + Z.of_nat (length (L ++ [f])).
Proof.
  intros HL Hf Hu Hn p'. pose proof (marco_page f Hf) as Ef.
  assert (Hr : 0 <= f / PAGE < MARCOS) by (destruct Hf; rewrite MARCOS_eq; unfold PAGE, PHYSMAP_SIZE in *; lia).
  assert (Hu' : used (bitmap (ph (fst x))) (f / PAGE) = true).
  { rewrite (li_used _ _ _ _ HL), Hu, Ef. by rewrite bool_decide_eq_false_2. }
  assert (Ep : p' = free_frame (ph (fst x)) (f / PAGE * PAGE) ticks) by (by rewrite Ef). pose proof (li_phys _ _ _ _ HL) as Hp.
  split; [rewrite Ep; by apply free_frame_ok|]. rewrite Ep, free_frame_used by done. cbn [bitmap tit free_frames]. split; [|split].
  - intros g. rewrite used_clear_bit, (li_used _ _ _ _ HL). destruct (Z.eqb_spec (f / PAGE) g) as [<-|Hne]; cbn [negb andb].
    + rewrite Ef, bool_decide_eq_true_2 by set_solver. by rewrite andb_false_r.
    + f_equal. f_equal. apply bool_decide_ext. rewrite elem_of_app, list_elem_of_singleton. split; [tauto|]. intros [?|E]; [done|].
      exfalso. apply Hne. rewrite <- E. by apply Z.div_mul.
  - intros p Hpm Hpn. rewrite elem_of_app, list_elem_of_singleton in Hpn.
    assert (Hr' : 0 <= p / PAGE < MARCOS) by (destruct Hpm; rewrite MARCOS_eq; unfold PAGE, PHYSMAP_SIZE in *; lia).
    rewrite <- (marco_page p Hpm). rewrite titular_de_marcar by (exact Hr || exact Hr' || apply Hp).
    rewrite decide_False; [rewrite marco_page by done; apply HL; tauto|]. intros E.
    apply Hpn. right. by rewrite <- (marco_page p Hpm), <- E.
  - rewrite (li_free _ _ _ _ HL), length_app. cbn. lia.
Qed.

Lemma filter_fin {A} (P : A -> Prop) `{forall x, Decision (P x)} (L : list A) f :
  length (filter P (L ++ [f])) = (length (filter P L) + if decide (P f) then 1 else 0)%nat.
Proof. rewrite filter_app, length_app. f_equal. cbn [filter list_filter]. by destruct (decide (P f)). Qed.

Lemma filter_reparte {A} (P : A -> Prop) `{forall x, Decision (P x)} (L : list A) :
  (length (filter P L) + length (filter (fun x => ~ P x) L) = length L)%nat.
Proof. induction L as [|x L IH]; [done|]. rewrite !filter_cons. repeat case_decide; cbn [length]; tauto || lia. Qed.

Lemma lib_tabla L x t y : lib s0 own L x -> own !! t = Some y -> titular_de (tit (ph s0)) t = Tabla -> t ∉ L ->
  lib s0 own (L ++ [t]) (suelta_tabla ticks x t).
Proof.
  intros HL Ht Htt Hn. destruct (wf_marco _ _ W _ _ Ht) as [Mt Ut].
  destruct (lib_suelta L x t HL Mt Ut Hn) as (P1 & P2 & P3 & P4). destruct x as [s c]. cbn [fst] in *. unfold suelta_tabla.
  pose proof (li_hojas _ _ _ _ HL) as Q1. pose proof (li_tablas _ _ _ _ HL) as Q2. cbn [snd] in Q1, Q2.
  rewrite tabla_libre by (rewrite <- Htt; by apply HL). cbn [fst].
  split; cbn [fst snd with_ph ph mem hojas tablas ya_libres]; try done; try apply HL.
  - rewrite Q1, filter_fin, decide_False by congruence. lia.
  - rewrite Q2, filter_fin, decide_True by congruence. lia.
  - intros f a Hf Hno Ha. apply elem_of_app in Hf as [Hf|Hf%list_elem_of_singleton]; [|congruence].
    by apply (li_cero _ _ _ _ HL f a).
  - intros f a Hf Hx Ha. apply (li_bytes _ _ _ _ HL f a Hf); [|done]. rewrite elem_of_app in Hx. tauto.
Qed.

Lemma caminable_marco f : marco f -> caminable f = true.
Proof.
  intros [_ Hf]. unfold caminable, se_puede_caminar. by rewrite (proj2 (Z.eqb_neq _ _)), (proj2 (Z.leb_gt _ _)) by lia.
Qed.

Lemma libre_usada x f : marco f -> libre x f = negb (used (bitmap (ph x)) (f / PAGE)).
Proof.
  intros [_ Hf]. unfold libre, esta_libre. rewrite (proj2 (Z.leb_gt _ _)) by (unfold MAX_PHYS; lia).
  destruct (used _ _); cbn [negb]; [by rewrite bool_decide_eq_false_2|by rewrite bool_decide_eq_true_2].
Qed.

Lemma lib_no_libre L x f : lib s0 own L x -> marco f -> used (bitmap (ph s0)) (f / PAGE) = true -> f ∉ L -> libre (fst x) f = false.
Proof.
  intros HL Hf Hu Hn. rewrite libre_usada, (li_used _ _ _ _ HL), Hu by done. rewrite bool_decide_eq_false_2; [done|].
  by rewrite marco_page.
Qed.

Lemma lib_hoja L x pt r pre i : lib s0 own L x -> own !! pt = Some (r, 1, pre) -> ranura i ->
  NoDup (L ++ de_hoja (palabra (mem s0) pt i)) ->
  exists x', suelta_hoja ticks pt x i = Some x' /\ lib s0 own (L ++ de_hoja (palabra (mem s0) pt i)) x'.
Proof.
  intros HL Hpt Hi Hnd. unfold suelta_hoja, de_hoja in *. destruct x as [s c].
  pose proof (lib_casilla L (s, c) pt _ i HL Hpt Hi) as Hca. cbn [fst] in Hca. rewrite Hca. cbn [mbind option_bind].
  set (e := palabra (mem s0) pt i) in *.
  destruct (tiene e PTE_PRESENT) eqn:Ep; cbn [negb orb] in *; [|exists (s, c); by rewrite app_nil_r].
  destruct (tiene e PTE_NUESTRA) eqn:En; cbn [negb] in *; [|exists (s, c); by rewrite app_nil_r].
  set (f := Z.land e ADDR_MASK) in *. assert (Hh : hoja_propia s0 own r pre pt i f) by done.
  destruct (ho_marco _ _ H _ _ _ _ _ Hh) as (Mf & Uf & Nf). rewrite (caminable_marco f Mf). cbn [negb].
  assert (Hn : f ∉ L) by (apply NoDup_app in Hnd as (_ & Hx & _); intros Hin; apply (Hx f Hin); set_solver).
  pose proof (lib_no_libre L (s, c) f HL Mf Uf Hn) as Hlib. cbn [fst] in Hlib. rewrite Hlib. eexists. split; [done|].
  pose proof (li_hojas _ _ _ _ HL) as Q1. pose proof (li_tablas _ _ _ _ HL) as Q2. cbn [snd] in Q1, Q2.
  destruct (lib_suelta L (s, c) f HL Mf Uf Hn) as (P1 & P2 & P3 & P4). cbn [fst] in *.
  split; cbn [fst snd with_ph with_mem ph mem hojas tablas ya_libres]; try done; try apply HL.
  - apply zero_frame_ok, HL.
  - rewrite Q1, filter_fin, decide_True by done. lia.
  - rewrite Q2, filter_fin, decide_False by (intros X; by apply X). lia.
  - intros g a Hg Hno Ha. rewrite zero_frame_eq by done. case_if; [done|].
    apply elem_of_app in Hg as [Hg|Hg]; [by apply (li_cero _ _ _ _ HL g a)|].
    apply list_elem_of_singleton in Hg. subst g. bdestr. lia.
  - intros g a Hg Hx Ha. rewrite elem_of_app, list_elem_of_singleton in Hx.
    rewrite (zero_frame_otro (mem s) f g a); [|done|done| |done].
    + apply (li_bytes _ _ _ _ HL g a Hg); [tauto|done].
    + intros ->. destruct Hx; [tauto|congruence].
Qed.

Lemma mfor_lib (F : vmm_st * cuenta -> Z -> option (vmm_st * cuenta)) (g : Z -> list Z) (l : list Z) :
  (forall L x i, i ∈ l -> lib s0 own L x -> NoDup (L ++ g i) -> exists x', F x i = Some x' /\ lib s0 own (L ++ g i) x') ->
  forall L x, lib s0 own L x -> NoDup (L ++ concat (g <$> l)) ->
    exists x', mfor F l x = Some x' /\ lib s0 own (L ++ concat (g <$> l)) x'.
Proof.
  induction l as [|i l IH]; intros HF L x HL Hnd; cbn [mfor fmap list_fmap concat] in *.
  { exists x. by rewrite app_nil_r. }
  rewrite app_assoc in *. destruct (HF L x i) as (x1 & E1 & HL1); [set_solver|done|by apply NoDup_app in Hnd as [? _]|].
  rewrite E1. cbn [mbind option_bind]. apply IH; [|done..]. intros L' x' j Hj. apply HF. set_solver.
Qed.

Context (u : Z) (Hu : espacio own u) (HuK : u <> KERNEL_PML4 s0).

(** A table of the space not yet given back is a table to go down to. *)
Lemma se_baja_ok L x c l pre e : lib s0 own L x -> own !! c = Some (u, l, pre) -> c ∉ L ->
  c = Z.land e ADDR_MASK -> se_baja (fst x) e = tiene e PTE_PRESENT && negb (tiene e PTE_HUGE).
Proof.
  intros HL Hc Hn Ec. destruct (wf_marco _ _ W _ _ Hc) as [Mc Uc]. unfold se_baja, es_tabla. rewrite <- Ec.
  rewrite caminable_marco, (lib_no_libre L x c) by done. rewrite (li_tit _ _ _ _ HL c Mc Hn), (wf_titular _ _ W _ _ _ _ Hc HuK).
  by rewrite bool_decide_eq_true_2, !andb_true_r.
Qed.

(** The child of a link that is not shared. *)
Lemma hija_propia t l pre i : own !! t = Some (u, l, pre) -> 1 < l -> comparte l pre i = false -> ranura i ->
  tiene (palabra (mem s0) t i) PTE_PRESENT = true -> tiene (palabra (mem s0) t i) PTE_HUGE = false ->
  own !! Z.land (palabra (mem s0) t i) ADDR_MASK = Some (u, l - 1, pre * 512 + i).
Proof.
  intros Ht Hl Hc Hi Hp Hh. destruct (wf_hija _ _ W _ _ _ _ i Ht Hl Hi Hp) as [_ N]. rewrite N by done. unfold hija. by rewrite Hc.
Qed.

Lemma nivel_1 pt pre : own !! pt = Some (u, 1, pre) -> forall L x, lib s0 own L x ->
  NoDup (L ++ derriba 1 (mem s0) pt 0 512) ->
  exists x', (x1 ← mfor (suelta_hoja ticks pt) (seqZ 0 512) x; Some (suelta_tabla ticks x1 pt)) = Some x' /\
    lib s0 own (L ++ derriba 1 (mem s0) pt 0 512) x'.
Proof.
  intros Hpt L x HL Hnd. cbn [derriba Nat.eqb] in *. rewrite app_assoc in *.
  destruct (mfor_lib (suelta_hoja ticks pt) (fun i => de_hoja (palabra (mem s0) pt i)) (seqZ 0 512)) with (L := L) (x := x)
    as (x1 & -> & HL1); [|done|by apply NoDup_app in Hnd as [? _]|].
  - intros L' x' i Hi HL' Hn'. apply elem_of_seqZ in Hi. by apply (lib_hoja L' x' pt u pre i).
  - cbn [mbind option_bind]. eexists. split; [done|]. eapply lib_tabla; [done|exact Hpt|by apply (wf_titular _ _ W _ _ _ _ Hpt)|].
    apply NoDup_app in Hnd as (_ & Hx & _). intros Hin. by apply (Hx pt Hin), list_elem_of_singleton.
Qed.

(** One level above: the links from [a] on. *)
Lemma nivel_S (l : nat) (F : Z -> vmm_st * cuenta -> Z -> option (vmm_st * cuenta)) t pre a n :
  own !! t = Some (u, Z.of_nat l + 1, pre) -> (1 <= l)%nat -> 0 <= a -> a + n <= 512 -> 0 <= n ->
  (forall i, a <= i < a + n -> comparte (Z.of_nat l + 1) pre i = false) ->
  (forall c pre', own !! c = Some (u, Z.of_nat l, pre') -> forall L x, lib s0 own L x ->
    NoDup (L ++ derriba l (mem s0) c 0 512) ->
    exists x', (x1 ← mfor (F c) (seqZ 0 512) x; Some (suelta_tabla ticks x1 c)) = Some x' /\
      lib s0 own (L ++ derriba l (mem s0) c 0 512) x') ->
  let paso := fun x i =>
    e ← casilla (fst x) t i;
    if negb (se_baja (fst x) e) then Some x else
    x ← mfor (F (Z.land e ADDR_MASK)) (seqZ 0 512) x; Some (suelta_tabla ticks x (Z.land e ADDR_MASK)) in
  forall L x, lib s0 own L x -> NoDup (L ++ derriba (S l) (mem s0) t a n) ->
  exists x', (x1 ← mfor paso (seqZ a n) x; Some (suelta_tabla ticks x1 t)) = Some x' /\
    lib s0 own (L ++ derriba (S l) (mem s0) t a n) x'.
Proof.
  intros Ht Hl Ha Hn H0 Hc HF paso L x HL Hnd. cbn [derriba] in *. rewrite (proj2 (Nat.eqb_neq l 0)) in * by lia.
  rewrite app_assoc in *.
  destruct (mfor_lib paso (fun i => de_enlace (fun c => derriba l (mem s0) c 0 512) (palabra (mem s0) t i)) (seqZ a n))
    with (L := L) (x := x) as (x1 & -> & HL1); [|done|by apply NoDup_app in Hnd as [? _]|].
  - intros L' x' i Hi HL' Hnd'. apply elem_of_seqZ in Hi. unfold paso.
    assert (Ri : ranura i) by (unfold ranura; lia). rewrite (lib_casilla L' x' t _ i HL' Ht Ri). cbn [mbind option_bind].
    unfold de_enlace in *. set (e := palabra (mem s0) t i) in *. set (c := Z.land e ADDR_MASK) in *.
    destruct (tiene e PTE_PRESENT) eqn:Ep; cbn [negb orb] in *;
      [|unfold se_baja; rewrite Ep; cbn [negb andb]; exists x'; by rewrite app_nil_r].
    destruct (tiene e PTE_HUGE) eqn:Eh; [unfold se_baja; rewrite Ep, Eh; cbn [negb andb]; exists x'; by rewrite app_nil_r|].
    pose proof (hija_propia t _ pre i Ht ltac:(lia) (Hc i Hi) Ri Ep Eh) as Hk. fold e c in Hk.
    replace (Z.of_nat l + 1 - 1) with (Z.of_nat l) in Hk by lia.
    assert (Hcn : c ∉ L').
    { apply NoDup_app in Hnd' as (_ & Hx & _). intros Hin. by apply (Hx c Hin), derriba_tabla. }
    rewrite (se_baja_ok L' x' c _ _ e HL' Hk Hcn eq_refl), Ep, Eh. cbn [andb negb]. by apply (HF c _ Hk).
  - cbn [mbind option_bind]. eexists. split; [done|]. eapply lib_tabla; [done|exact Ht|by apply (wf_titular _ _ W _ _ _ _ Ht)|].
    apply NoDup_app in Hnd as (_ & Hx & _). intros Hin. by apply (Hx t Hin), list_elem_of_singleton.
Qed.

(** The whole dismantling is the list, given back in order. *)
Lemma destroy_lib : NoDup (derribo (mem s0) u) ->
  exists x', destroy_address_space s0 u ticks = Some x' /\ lib s0 own (derribo (mem s0) u) x'.
Proof.
  intros Hnd. destruct (wf_identidad _ _ W u Hu) as (P0 & _). pose proof (pd_identidad s0 own W u Hu) as Hd.
  destruct (wf_marco _ _ W _ _ Hu) as [Mu Uu]. destruct (wf_marco _ _ W _ _ Hd) as [Md Ud].
  unfold destroy_address_space. rewrite libre_usada, Uu, caminable_marco by done. cbn [negb orb].
  rewrite (casilla_own s0 own W u _ _ Hu). cbn [mbind option_bind]. rewrite P0. unfold derribo in *.
  set (d := Z.land _ ADDR_MASK) in *. rewrite caminable_marco, libre_usada, Ud by done. cbn [negb orb].
  unfold es_tabla. rewrite (wf_titular _ _ W _ _ _ _ Hd HuK), bool_decide_eq_true_2 by done. cbn [orb negb].
  destruct (nivel_S 2 (suelta_pt ticks) d 0 1 511) with (L := [] : list Z) (x := (s0, mkCuenta 0 0 0)) as (x1 & E & HL1);
    [exact Hd|lia|lia|lia|lia| | |apply lib_nada|exact (proj1 (proj1 (NoDup_app _ _) Hnd))|].
  - intros i Hi. unfold comparte. rewrite (proj2 (Z.eqb_neq i 0)) by lia. by rewrite !andb_false_r.
  - intros c pre Hc L x HL Hn. apply (nivel_S 1 (suelta_hoja ticks) c pre 0 512); [done|lia|lia|lia|lia|done| |done|done].
    intros c' pre' Hc'. by apply (nivel_1 c' pre').
  - change (fun x i => e ← casilla (fst x) d i; _) with (suelta_pd ticks d) in E.
    destruct (mfor (suelta_pd ticks d) (seqZ 1 511) (s0, mkCuenta 0 0 0)) as [x2|]; [|done]. cbn [mbind option_bind] in E |- *.
    injection E as <-. eexists. split; [done|]. eapply lib_tabla; [exact HL1|exact Hu|by apply (wf_titular _ _ W _ _ _ _ Hu)|].
    apply NoDup_app in Hnd as (_ & Hx & _). intros Hin. by apply (Hx u Hin), list_elem_of_singleton.
Qed.
End Derribo.

(** ** Which frames, and each once *)

Lemma elem_of_concat {A} (ls : list (list A)) x : x ∈ concat ls <-> exists l, x ∈ l /\ l ∈ ls.
Proof.
  rewrite list_elem_of_In, in_concat. split; intros (l & H1 & H2); exists l; rewrite !list_elem_of_In in *; done.
Qed.

Lemma NoDup_concat {A} (g : Z -> list A) (l : list Z) : NoDup l -> (forall i, i ∈ l -> NoDup (g i)) ->
  (forall i j x, i ∈ l -> j ∈ l -> x ∈ g i -> x ∈ g j -> i = j) -> NoDup (concat (g <$> l)).
Proof.
  induction 1 as [|i l Hi Hl IH]; intros Hn Hd; cbn [fmap list_fmap concat]; [constructor|].
  apply NoDup_app. split; [apply Hn; set_solver|]. split.
  - intros x Hx Hc. apply elem_of_concat in Hc as (gj & Hxj & Hgj). apply list_elem_of_fmap in Hgj as (j & -> & Hj).
    apply Hi. rewrite (Hd i j x); [done|set_solver|set_solver|done|done].
  - apply IH; [intros j Hj; apply Hn; set_solver|]. intros j k x Hj Hk. apply Hd; set_solver.
Qed.

Lemma elem_concat {A} (g : Z -> list A) a n x : x ∈ concat (g <$> seqZ a n) <-> exists i, a <= i < a + n /\ x ∈ g i.
Proof.
  rewrite elem_of_concat. split.
  - intros (gi & Hx & Hg). apply list_elem_of_fmap in Hg as (i & -> & Hi). apply elem_of_seqZ in Hi. by exists i.
  - intros (i & Hi & Hx). exists (g i). split; [done|]. apply list_elem_of_fmap. exists i. split; [done|]. by apply elem_of_seqZ.
Qed.

Section Conjunto.
Context (s : vmm_st) (own : gmap Z etiqueta) (W : wf s own) (H : hojas_ok s own).
Context (u : Z) (Hu : espacio own u).

(** Hanging from the position [pre] of level [l], with [k] levels counted up. *)
Definition cuelga (l : nat) (pre x : Z) : Prop :=
  (exists l' pre', own !! x = Some (u, Z.of_nat l', pre') /\ (1 <= l' <= l)%nat /\ pre' / 512 ^ Z.of_nat (l - l') = pre) \/
  (exists p i pre', hoja_propia s own u pre' p i x /\ (1 <= l)%nat /\ pre' / 512 ^ Z.of_nat (l - 1) = pre).

Lemma sube_div a k : 0 <= k -> a / 512 ^ (k + 1) = a / 512 ^ k / 512.
Proof. intros Hk. rewrite Z.pow_add_r, Z.pow_1_r by lia. symmetry. apply Z.div_div; [|lia]. pose proof (Z.pow_pos_nonneg 512 k); lia. Qed.

Lemma cuelga_sube l pre i x : 0 <= i < 512 -> cuelga l (pre * 512 + i) x -> cuelga (S l) pre x.
Proof.
  intros Hi [(l' & pre' & Ho & Hl & Hd)|(p & j & pre' & Hh & Hl & Hd)]; [left|right].
  - exists l', pre'. split; [done|]. split; [lia|]. replace (Z.of_nat (S l - l')) with (Z.of_nat (l - l') + 1) by lia.
    rewrite sube_div, Hd by lia. lia.
  - exists p, j, pre'. split; [done|]. split; [lia|]. replace (Z.of_nat (S l - 1)) with (Z.of_nat (l - 1) + 1) by lia.
    rewrite sube_div, Hd by lia. lia.
Qed.

Lemma cuelga_unico l pre1 pre2 x : cuelga l pre1 x -> cuelga l pre2 x -> pre1 = pre2.
Proof.
  intros [(l1 & q1 & O1 & L1 & D1)|(p1 & i1 & q1 & H1 & L1 & D1)] [(l2 & q2 & O2 & L2 & D2)|(p2 & i2 & q2 & H2 & L2 & D2)].
  - rewrite O1 in O2. injection O2 as E1 E2. assert (l1 = l2) as -> by lia. congruence.
  - destruct (ho_marco _ _ H _ _ _ _ _ H2) as (_ & _ & N). congruence.
  - destruct (ho_marco _ _ H _ _ _ _ _ H1) as (_ & _ & N). congruence.
  - destruct (ho_una _ _ H _ _ _ _ _ _ _ _ _ H1 H2) as [-> ->]. destruct H1 as [H1 _], H2 as [H2 _]. congruence.
Qed.

Lemma elem_de_hoja p pre i x : own !! p = Some (u, 1, pre) -> ranura i ->
  x ∈ de_hoja (palabra (mem s) p i) <-> hoja_propia s own u pre p i x.
Proof.
  intros Hp Hi. unfold de_hoja, hoja_propia. destruct (tiene _ PTE_PRESENT); cbn [negb];
    [destruct (tiene _ PTE_NUESTRA)|]; rewrite ?list_elem_of_singleton, ?elem_of_nil; intuition done.
Qed.

Lemma derriba_cuelga l : forall t pre a n x, own !! t = Some (u, Z.of_nat l, pre) -> (1 <= l <= 3)%nat -> 0 <= a -> a + n <= 512 ->
  (forall i, a <= i < a + n -> comparte (Z.of_nat l) pre i = false) -> x ∈ derriba l (mem s) t a n ->
  x = t \/ exists i, a <= i < a + n /\
    ((l = 1%nat /\ hoja_propia s own u pre t i x) \/ ((2 <= l)%nat /\ cuelga (l - 1) (pre * 512 + i) x)).
Proof.
  induction l as [|l IH]; intros t pre a n x Ht Hl Ha Hn Hc Hx; [lia|]. cbn [derriba] in Hx.
  apply elem_of_app in Hx as [Hx|Hx%list_elem_of_singleton]; [right|by left].
  apply elem_concat in Hx as (i & Hi & Hx). exists i. split; [done|]. assert (Ri : ranura i) by (unfold ranura; lia).
  destruct (Nat.eqb_spec l 0) as [->|Hl0]; [left; split; [done|]; by apply elem_de_hoja|right; split; [lia|]].
  replace (S l - 1)%nat with l by lia. unfold de_enlace in Hx.
  destruct (tiene _ PTE_PRESENT) eqn:Ep; cbn [negb orb] in Hx; [|by apply elem_of_nil in Hx].
  destruct (tiene _ PTE_HUGE) eqn:Eh; [by apply elem_of_nil in Hx|].
  assert (Hk : own !! Z.land (palabra (mem s) t i) ADDR_MASK = Some (u, Z.of_nat l, pre * 512 + i)).
  { pose proof (hija_propia s own W u t _ pre i Ht ltac:(lia) (Hc i Hi) Ri Ep Eh) as Hk. rewrite Hk. do 3 f_equal. lia. }
  destruct (IH _ _ 0 512 x Hk) as [->|(j & Hj & [[-> Hh]|[Hl2 Hcu]])]; [lia|lia|lia| |done| | |].
  - intros j _. unfold comparte. by rewrite (proj2 (Z.eqb_neq (Z.of_nat l) 4)), (proj2 (Z.eqb_neq (Z.of_nat l) 3)) by lia.
  - left. exists l, (pre * 512 + i). split; [done|]. split; [lia|]. replace (l - l)%nat with 0%nat by lia. by rewrite Z.div_1_r.
  - right. exists (Z.land (palabra (mem s) t i) ADDR_MASK), j, (pre * 512 + i). split; [done|]. split; [lia|]. by rewrite Z.div_1_r.
  - apply (cuelga_sube (l - 1) _ j) in Hcu; [|lia]. by replace (S (l - 1)) with l in Hcu by lia.
Qed.

(** The children of a table on the way down. *)
Lemma enlace_propio l t pre i : own !! t = Some (u, Z.of_nat (S l), pre) -> (1 <= l <= 2)%nat -> ranura i ->
  comparte (Z.of_nat (S l)) pre i = false ->
  tiene (palabra (mem s) t i) PTE_PRESENT = true -> tiene (palabra (mem s) t i) PTE_HUGE = false ->
  own !! Z.land (palabra (mem s) t i) ADDR_MASK = Some (u, Z.of_nat l, pre * 512 + i).
Proof.
  intros Ht Hl Ri Hc Ep Eh. rewrite (hija_propia s own W u t _ pre i Ht ltac:(lia) Hc Ri Ep Eh). do 3 f_equal. lia.
Qed.

Lemma comparte_bajo l pre i : (1 <= l <= 2)%nat -> comparte (Z.of_nat l) pre i = false.
Proof. intros Hl. unfold comparte. by rewrite (proj2 (Z.eqb_neq (Z.of_nat l) 4)), (proj2 (Z.eqb_neq (Z.of_nat l) 3)) by lia. Qed.

Lemma derriba_NoDup l : forall t pre a n, own !! t = Some (u, Z.of_nat l, pre) -> (1 <= l <= 3)%nat -> 0 <= a -> a + n <= 512 ->
  (forall i, a <= i < a + n -> comparte (Z.of_nat l) pre i = false) -> NoDup (derriba l (mem s) t a n).
Proof.
  induction l as [|l IH]; intros t pre a n Ht Hl Ha Hn Hc; [lia|]. cbn [derriba].
  set (g := fun i => if Nat.eqb l 0 then _ else _).
  assert (Hg : forall i x, a <= i < a + n -> x ∈ g i ->
    (l = 0%nat /\ hoja_propia s own u pre t i x) \/ ((1 <= l)%nat /\ cuelga l (pre * 512 + i) x)).
  { intros i x Hi Hx. assert (Ri : ranura i) by (unfold ranura; lia). unfold g in Hx.
    destruct (Nat.eqb_spec l 0) as [->|Hl0]; [left; split; [done|]; by apply elem_de_hoja|right; split; [lia|]].
    unfold de_enlace in Hx. destruct (tiene _ PTE_PRESENT) eqn:Ep; cbn [negb orb] in Hx; [|by apply elem_of_nil in Hx].
    destruct (tiene _ PTE_HUGE) eqn:Eh; [by apply elem_of_nil in Hx|].
    pose proof (enlace_propio l t pre i Ht ltac:(lia) Ri (Hc i Hi) Ep Eh) as Hk.
    destruct (derriba_cuelga l _ _ 0 512 x Hk) as [->|(j & Hj & [[-> Hh]|[Hl2 Hcu]])]; [lia|lia|lia| |done| | |].
    - intros j _. apply comparte_bajo. lia.
    - left. exists l, (pre * 512 + i). split; [done|]. split; [lia|]. replace (l - l)%nat with 0%nat by lia. by rewrite Z.div_1_r.
    - right. exists (Z.land (palabra (mem s) t i) ADDR_MASK), j, (pre * 512 + i). split; [done|]. split; [lia|]. by rewrite Z.div_1_r.
    - apply (cuelga_sube (l - 1) _ j) in Hcu; [|lia]. by replace (S (l - 1)) with l in Hcu by lia. }
  apply NoDup_app. split; [|split; [|apply NoDup_singleton]].
  - apply NoDup_concat; [apply NoDup_seqZ| |].
    + intros i Hi. apply elem_of_seqZ in Hi. assert (Ri : ranura i) by (unfold ranura; lia). unfold g.
      destruct (Nat.eqb_spec l 0) as [->|Hl0].
      { unfold de_hoja. destruct (negb _); [constructor|]. destruct (tiene _ _); [apply NoDup_singleton|constructor]. }
      unfold de_enlace. destruct (tiene _ PTE_PRESENT) eqn:Ep; cbn [negb orb]; [|constructor].
      destruct (tiene _ PTE_HUGE) eqn:Eh; [constructor|].
      pose proof (enlace_propio l t pre i Ht ltac:(lia) Ri (Hc i Hi) Ep Eh) as Hk.
      apply (IH _ _ 0 512 Hk); [lia|lia|lia|]. intros j _. apply comparte_bajo. lia.
    + intros i j x Hi Hj Hxi Hxj. apply elem_of_seqZ in Hi, Hj.
      destruct (Hg i x Hi Hxi) as [[L1 H1]|[L1 H1]], (Hg j x Hj Hxj) as [[L2 H2]|[L2 H2]]; try lia.
      * by destruct (ho_una _ _ H _ _ _ _ _ _ _ _ _ H1 H2).
      * pose proof (cuelga_unico _ _ _ _ H1 H2). lia.
  - intros x Hx Ht'. apply list_elem_of_singleton in Ht'. subst x. apply elem_concat in Hx as (i & Hi & Hx).
    destruct (Hg i t Hi Hx) as [[_ H1]|[_ [(l' & pre' & Ho & Hl' & _)|(p & j & pre' & H1 & _)]]].
    + destruct (ho_marco _ _ H _ _ _ _ _ H1) as (_ & _ & N). congruence.
    + rewrite Ht in Ho. injection Ho as E _. lia.
    + destruct (ho_marco _ _ H _ _ _ _ _ H1) as (_ & _ & N). congruence.
Qed.

(** The ancestor of a table at a higher level. *)
Lemma antepasado k : forall x l' pre', own !! x = Some (u, Z.of_nat l', pre') -> (l' + k <= 4)%nat ->
  exists c, own !! c = Some (u, Z.of_nat (l' + k), pre' / 512 ^ Z.of_nat k).
Proof.
  induction k as [|k IH]; intros x l' pre' Hx Hl.
  { exists x. replace (l' + 0)%nat with l' by lia. by rewrite Z.div_1_r. }
  destruct (IH x l' pre' Hx) as (c & Hc); [lia|]. destruct (wf_enlazada _ _ W _ _ _ _ Hc) as (p & Hp & _); [lia|].
  exists p. rewrite Hp. replace (Z.of_nat (S k)) with (Z.of_nat k + 1) by lia. rewrite sube_div by lia. do 3 f_equal. lia.
Qed.

(** What hangs is in the list. *)
Lemma cuelga_derriba l : forall t pre x, own !! t = Some (u, Z.of_nat l, pre) -> (1 <= l <= 3)%nat -> cuelga l pre x ->
  forall a n, 0 <= a -> a + n <= 512 ->
  (forall i, a <= i < a + n -> comparte (Z.of_nat l) pre i = false) ->
  (forall i, ranura i -> ((2 <= l)%nat -> cuelga (l - 1) (pre * 512 + i) x) -> (l = 1%nat -> hoja_propia s own u pre t i x) ->
     x <> t -> a <= i < a + n) -> x ∈ derriba l (mem s) t a n.
Proof.
  induction l as [|l IH]; intros t pre x Ht Hl Hcu a n Ha Hn Hc Hin; [lia|]. cbn [derriba].
  destruct (decide (x = t)) as [->|Hne]; [apply elem_of_app; right; by apply list_elem_of_singleton|].
  apply elem_of_app. left. apply elem_concat. replace (S l - 1)%nat with l in Hin by lia.
  destruct (Nat.eqb_spec l 0) as [->|Hl0].
  { destruct Hcu as [(l' & pre' & Ho & Hl' & Hd)|(p & i & pre' & Hh & _ & Hd)].
    - exfalso. assert (l' = 1%nat) as -> by lia. rewrite Z.div_1_r in Hd. subst pre'. apply Hne. by apply (wf_iny _ _ W _ _ _ Ho Ht).
    - rewrite Z.div_1_r in Hd. subst pre'. assert (p = t) as -> by (by apply (wf_iny _ _ W _ _ _ (proj1 Hh) Ht)).
      exists i. assert (Ri : ranura i) by apply Hh. split; [apply (Hin i Ri); [lia|done|done]|].
      by apply (elem_de_hoja t pre). }
  (* the child whose subtree holds [x] *)
  assert (Hch : exists i, ranura i /\ cuelga l (pre * 512 + i) x /\ exists c, own !! c = Some (u, Z.of_nat l, pre * 512 + i)).
  { assert (Hq : forall q, q / 512 = pre -> exists i, ranura i /\ q = pre * 512 + i).
    { intros q Hq. exists (q mod 512). split; [apply Z.mod_pos_bound; done|]. pose proof (Z.div_mod q 512 ltac:(done)). lia. }
    destruct Hcu as [(l' & pre' & Ho & Hl' & Hd)|(p & i & pre' & Hh & _ & Hd)].
    - assert (l' <> S l). { intros ->. replace (S l - S l)%nat with 0%nat in Hd by lia. rewrite Z.div_1_r in Hd. subst pre'.
        apply Hne. by apply (wf_iny _ _ W _ _ _ Ho Ht). }
      replace (Z.of_nat (S l - l')) with (Z.of_nat (l - l') + 1) in Hd by lia. rewrite sube_div in Hd by lia.
      destruct (Hq _ Hd) as (i & Ri & Ei). exists i. split; [done|]. rewrite <- Ei. split; [left; exists l', pre'; split; [done|split; [lia|done]]|].
      destruct (antepasado (l - l') x l' pre' Ho) as (c & Hc'); [lia|]. exists c. rewrite Hc'. by replace (l' + (l - l'))%nat with l by lia.
    - replace (Z.of_nat (S l - 1)) with (Z.of_nat (l - 1) + 1) in Hd by lia. rewrite sube_div in Hd by lia.
      destruct (Hq _ Hd) as (j & Rj & Ej). exists j. split; [done|]. rewrite <- Ej. split; [right; exists p, i, pre'; split; [done|split; [lia|done]]|].
      destruct (antepasado (l - 1) p 1 pre' (proj1 Hh)) as (c & Hc'); [lia|]. exists c. rewrite Hc'. by replace (1 + (l - 1))%nat with l by lia. }
  destruct Hch as (i & Ri & Hci & c & Hoc). assert (Hi : a <= i < a + n) by (apply (Hin i Ri); [done|lia|done]).
  exists i. split; [done|]. destruct (wf_enlazada _ _ W _ _ _ _ Hoc) as (t' & Ht' & Hp & Hh & Hm); [lia|]. unfold ranura in Ri.
  replace ((pre * 512 + i) / 512) with pre in Ht' by lia. replace ((pre * 512 + i) mod 512) with i in * by lia.
  replace (Z.of_nat l + 1) with (Z.of_nat (S l)) in Ht' by lia. rewrite (wf_iny _ _ W _ _ _ Ht' Ht) in *.
  unfold de_enlace. rewrite Hp, Hh. cbn [negb orb]. rewrite Hm. apply (IH c (pre * 512 + i) x Hoc ltac:(lia) Hci 0 512); [lia|lia| |].
  - intros j _. apply comparte_bajo. lia.
  - intros j Rj _ _ _. exact Rj.
Qed.

(** The part of a space that is dismantled: from 1 GiB to 512 GiB. *)
Definition bajo (l pre : Z) : Prop :=
  l = 4 \/ (l = 3 /\ pre = 0) \/ (l = 2 /\ 0 < pre < 512) \/ (l = 1 /\ 512 <= pre < 512 * 512).

(** The frames that go back: the tables of that part and its pages of its own. *)
Definition se_devuelve (x : Z) : Prop :=
  (exists l pre, own !! x = Some (u, l, pre) /\ bajo l pre) \/
  (exists p i pre, hoja_propia s own u pre p i x /\ bajo 1 pre).

Let d := Z.land (palabra (mem s) u 0) ADDR_MASK.

Lemma raiz_d : own !! d = Some (u, Z.of_nat 3, 0).
Proof. exact (pd_identidad s own W u Hu). Qed.

Lemma comparte_d i : 1 <= i < 1 + 511 -> comparte (Z.of_nat 3) 0 i = false.
Proof. intros Hi. unfold comparte. rewrite (proj2 (Z.eqb_neq i 0)) by lia. by rewrite !andb_false_r. Qed.

Lemma nivel_nat l pre x : own !! x = Some (u, l, pre) -> exists l', l = Z.of_nat l' /\ (1 <= l' <= 4)%nat.
Proof. intros Hx. destruct (wf_nivel _ _ W _ _ _ _ Hx) as (Hl & _). exists (Z.to_nat l). lia. Qed.

Lemma bajo_cuelga x : se_devuelve x -> x = u \/ x = d \/ exists i, 1 <= i < 512 /\ cuelga 2 i x.
Proof.
  intros [(l & pre & Hx & Hb)|(p & i & pre & Hh & Hb)].
  - destruct (nivel_nat _ _ _ Hx) as (l' & -> & Hl'). destruct Hb as [Hb|[[Hb ->]|[[Hb Hr]|[Hb Hr]]]].
    + left. destruct (wf_nivel _ _ W _ _ _ _ Hx) as (_ & _ & Hx4). by destruct (Hx4 Hb).
    + right. left. rewrite Hb in Hx. exact (wf_iny _ _ W _ _ _ Hx raiz_d).
    + right. right. exists pre. split; [lia|]. left. exists l', pre. split; [done|]. split; [lia|].
      assert (l' = 2%nat) as -> by lia. by rewrite Z.div_1_r.
    + right. right. exists (pre / 512). split; [lia|]. left. exists l', pre. split; [done|]. split; [lia|].
      by assert (l' = 1%nat) as -> by lia.
  - right. right. exists (pre / 512). destruct Hb as [Hb|[[Hb _]|[[Hb _]|[_ Hr]]]]; [lia..|]. split; [lia|]. right.
    exists p, i, pre. split; [done|]. by split; [lia|].
Qed.

Lemma elem_derribo x : x ∈ derribo (mem s) u <-> se_devuelve x.
Proof.
  unfold derribo. fold d. rewrite elem_of_app, list_elem_of_singleton. split.
  - intros [Hx| ->]; [|left; exists 4, 0; split; [done|by left]].
    destruct (derriba_cuelga 3 d 0 1 511 x raiz_d) as [->|(i & Hi & [[? _]|[_ Hcu]])]; [lia|lia|lia|apply comparte_d|done| |lia|].
    { left. exists 3, 0. split; [exact raiz_d|]. unfold bajo. tauto. }
    change (3 - 1)%nat with 2%nat in Hcu. rewrite Z.mul_0_l, Z.add_0_l in Hcu.
    destruct Hcu as [(l' & pre' & Ho & Hl & Hd)|(p & j & pre' & Hh & _ & Hd)].
    + left. exists (Z.of_nat l'), pre'. split; [done|]. unfold bajo. destruct (decide (l' = 1%nat)) as [->|].
      * change (512 ^ Z.of_nat (2 - 1)) with 512 in Hd. right. right. right. lia.
      * assert (l' = 2%nat) as -> by lia. rewrite Z.div_1_r in Hd. right. right. left. lia.
    + right. exists p, j, pre'. split; [done|]. unfold bajo. change (512 ^ Z.of_nat (2 - 1)) with 512 in Hd. right. right. right. lia.
  - intros [->|[->|(i & Hi & Hcu)]]%bajo_cuelga; [by right|left; by apply derriba_tabla; lia|left].
    apply (cuelga_derriba 3 d 0 x raiz_d); [lia| |lia|lia|apply comparte_d|].
    + apply (cuelga_sube 2 0 i); [lia|]. by rewrite Z.mul_0_l, Z.add_0_l.
    + intros j _ Hj _ _. specialize (Hj ltac:(lia)). change (3 - 1)%nat with 2%nat in Hj. rewrite Z.mul_0_l, Z.add_0_l in Hj.
      pose proof (cuelga_unico _ _ _ _ Hcu Hj). lia.
Qed.

Lemma derribo_NoDup : NoDup (derribo (mem s) u).
Proof.
  unfold derribo. fold d. apply NoDup_app. split; [|split; [|apply NoDup_singleton]].
  - apply (derriba_NoDup 3 d 0); [apply raiz_d|lia|lia|lia|apply comparte_d].
  - intros x Hx Hxu. apply list_elem_of_singleton in Hxu. subst x.
    destruct (derriba_cuelga 3 d 0 1 511 u raiz_d) as [E|(i & Hi & [[? _]|[_ Hcu]])]; [lia|lia|lia|apply comparte_d|done| |lia|].
    + pose proof raiz_d as Hd. rewrite <- E, Hu in Hd. discriminate Hd.
    + destruct Hcu as [(l' & pre' & Ho & Hl & _)|(p & j & pre' & Hh & _)].
      * unfold espacio in Hu. rewrite Hu in Ho. injection Ho as E _. lia.
      * destruct (ho_marco _ _ H _ _ _ _ _ Hh) as (_ & _ & N). unfold espacio in Hu. congruence.
Qed.
End Conjunto.

(** The tables that are left. *)
Definition sin (u : Z) (own : gmap Z etiqueta) : gmap Z etiqueta := filter (fun px => px.2.1.1 <> u) own.

Lemma sin_lookup u own p r l pre : sin u own !! p = Some (r, l, pre) <-> own !! p = Some (r, l, pre) /\ r <> u.
Proof. unfold sin. rewrite map_lookup_filter_Some. done. Qed.

Lemma sin_espacio u own q : espacio (sin u own) q <-> espacio own q /\ q <> u.
Proof. unfold espacio. apply sin_lookup. Qed.

(** What dismantling does, from the list. *)
Lemma destroy_todo s own u ticks : wf s own -> hojas_ok s own -> espacio own u -> u <> KERNEL_PML4 s ->
  exists s' c L, destroy_address_space s u ticks = Some (s', c) /\ lib s own L (s', c) /\ NoDup L /\
    (forall x, x ∈ L <-> se_devuelve s own u x) /\ wf s' (sin u own) /\ hojas_ok s' (sin u own) /\
    (forall q va, espacio own q -> q <> u -> mmu 4 (mem s') q va = mmu 4 (mem s) q va).
Proof.
  intros W H Hu HuK. pose proof (derribo_NoDup s own W H u Hu) as Hnd.
  destruct (destroy_lib s own W H ticks u Hu HuK Hnd) as ([s' c] & E & HL). exists s', c, (derribo (mem s) u).
  split; [done|]. split; [done|]. split; [done|].
  pose proof (elem_derribo s own W H u Hu) as Hin. split; [done|].
  assert (Hpal : forall p x i, own !! p = Some x -> ranura i -> palabra (mem s') p i = palabra (mem s) p i).
  { intros p x i Hp Hi. exact (lib_palabra s own W _ (s', c) p x i HL Hp Hi). }
  assert (Hfu : forall p r l pre, own !! p = Some (r, l, pre) -> r <> u -> ~ se_devuelve s own u p).
  { intros p r l pre Hp Hr [(l' & pre' & Hx & _)|(q & i & pre' & Hh & _)]; [congruence|].
    destruct (ho_marco _ _ H _ _ _ _ _ Hh) as (_ & _ & N). congruence. }
  assert (HK : KERNEL_PML4 s' = KERNEL_PML4 s) by apply (li_resto _ _ _ _ HL).
  assert (Huso : forall x, marco x -> used (bitmap (ph s)) (x / PAGE) = true -> ~ se_devuelve s own u x ->
    used (bitmap (ph s')) (x / PAGE) = true).
  { intros x Mx Ux Nx. pose proof (li_used _ _ _ _ HL (x / PAGE)) as Q. cbn [fst] in Q. rewrite Q, Ux.
    rewrite bool_decide_eq_false_2; [done|]. rewrite marco_page by done. by rewrite Hin. }
  assert (W' : wf s' (sin u own)).
  { split.
    - apply (li_phys _ _ _ _ HL).
    - apply (li_mem _ _ _ _ HL).
    - pose proof (li_used _ _ _ _ HL 0) as Q. cbn [fst] in Q. rewrite Q, (wf_cero _ _ W), bool_decide_eq_false_2; [done|].
      rewrite Hin. intros [(l & pre & Hx & _)|(q & i & pre & Hh & _)].
      + apply (wf_marco _ _ W) in Hx as [[_ Hx] _]. lia.
      + destruct (ho_marco _ _ H _ _ _ _ _ Hh) as ([_ Hx] & _). lia.
    - rewrite HK. apply sin_espacio. split; [apply W|done].
    - intros p [[r l] pre] [Hp Hr]%sin_lookup. destruct (wf_marco _ _ W _ _ Hp) as [Mp Up]. split; [done|].
      apply Huso; [done..|]. by apply (Hfu p r l pre).
    - intros p r l pre [Hp Hr]%sin_lookup. destruct (wf_nivel _ _ W _ _ _ _ Hp) as (H1 & H2 & H3). split; [done|]. split; [|done].
      by apply sin_espacio.
    - intros p q [[r l] pre] [Hp _]%sin_lookup [Hq _]%sin_lookup. by apply (wf_iny _ _ W _ _ _ Hp).
    - intros p r l pre i [Hp Hr]%sin_lookup Hl Hi. rewrite (Hpal p _ i Hp Hi), HK. intros Hpr.
      destruct (wf_hija _ _ W _ _ _ _ i Hp Hl Hi Hpr) as [N1 N2]. split; [done|]. intros Hh. specialize (N2 Hh).
      unfold hija in *. apply sin_lookup. split; [done|]. by destruct (comparte l pre i).
    - intros p r l pre [Hp Hr]%sin_lookup Hk. rewrite HK in Hk. pose proof (proj1 (wf_marco _ _ W _ _ Hp)) as Mp.
      pose proof (li_tit _ _ _ _ HL p Mp) as Q. cbn [fst] in Q. rewrite Q; [by apply (wf_titular _ _ W _ _ _ _ Hp)|].
      rewrite Hin. by apply (Hfu p r l pre).
    - intros p r l pre [Hp Hr]%sin_lookup Hl. destruct (wf_enlazada _ _ W _ _ _ _ Hp Hl) as (t & Ht & Ht').
      exists t. split; [by apply sin_lookup|]. rewrite (Hpal t _ _ Ht); [done|]. by apply Z.mod_pos_bound.
    - intros r i [Hr _]%sin_espacio Hi. rewrite HK. assert (Ri : ranura i) by (unfold ranura; lia).
      rewrite (Hpal r _ i Hr Ri), (Hpal _ _ i (wf_nucleo _ _ W) Ri). by apply W.
    - intros r [Hr _]%sin_espacio. rewrite HK. cbv zeta. assert (R0 : ranura 0) by done.
      rewrite (Hpal r _ 0 Hr R0), (Hpal _ _ 0 (wf_nucleo _ _ W) R0).
      rewrite (Hpal _ _ 0 (pd_identidad s own W r Hr) R0), (Hpal _ _ 0 (pd_identidad s own W _ (wf_nucleo _ _ W)) R0). by apply W. }
  assert (Hho : forall r pre p i f, hoja_propia s' (sin u own) r pre p i f -> hoja_propia s own r pre p i f /\ r <> u).
  { intros r pre p i f (H1 & H2 & H3 & H4 & H5). apply sin_lookup in H1 as [H1 Hr].
    rewrite (Hpal p _ i H1 H2) in H3, H4, H5. by split. }
  split; [done|]. split.
  - split.
    + intros r pre p i f [Hh Hr]%Hho. destruct (ho_marco _ _ H _ _ _ _ _ Hh) as (Mf & Uf & Nf). split; [done|]. split.
      * apply Huso; [done..|]. intros [(l & pre' & Hx & _)|(p' & i' & pre' & Hh' & _)]; [congruence|].
        destruct (ho_una _ _ H _ _ _ _ _ _ _ _ _ Hh Hh') as [-> _]. destruct Hh as [Hh _], Hh' as [Hh' _]. congruence.
      * unfold sin. apply map_lookup_filter_None. by left.
    + intros r1 pre1 p1 i1 r2 pre2 p2 i2 f [H1 _]%Hho [H2 _]%Hho. by apply (ho_una _ _ H _ _ _ _ _ _ _ _ _ H1 H2).
  - intros q va Hq _. apply (mmu_igual s own W); [done|]. intros p x i Hp Hi. by apply (Hpal p x i).
Qed.
