(* ===== verification/Espacios.v ===== *)
(** The life of the address spaces: creating them, mapping pages of their own and
    of others, unmapping, giving frames back, destroying them; what every
    reachable state of the tables satisfies, and the properties of [Vmm].
    Source: src/Ultra_kernel_x86-64/kernel/src/ring0/mm/vmm/. *)

From stdpp Require Import gmap.
From S2P Require Import Prelude Titular Phys Vmm Derribo.

(** * The steps *)

(** The spaces alive and the frames somebody holds without having mapped them as
    a page of its own. *)
Record vida := mkVida { st : vmm_st; vivos : gset Z; sueltos : gset Z }.

(** The pages of its own that a space can ask for. *)
Inductive propia := Imagen (permiso : PermisoImagen) | Propia (writable : bool).
Definition mapea_propia (s : vmm_st) (q va f : Z) (k : propia) : option (vmm_st * result unit unit) :=
  match k with Imagen p => map_page_imagen s q va f p | Propia w => map_page_propia s q va f true w end.
Definition mapea_ajena (s : vmm_st) (q va pa : Z) (wc w : bool) : option (vmm_st * result unit unit) :=
  if wc then map_page_wc s q va pa true w else map_page s q va pa true w.

(** The leaf that a walk of four levels ends at is of its own. *)
Definition es_propia (m : Z -> Z) (q va : Z) : bool :=
  match mmu 4 m q va with Some [_; _; _; e] => tiene e PTE_NUESTRA | _ => false end.

(** What the kernel does with the tables: a page of its own is mapped from a frame
    that is held; an unmapped page of its own is held again. [None] of the machine is no step: it is what must
    be shown not to happen. *)
Inductive paso (ticks : Z) : vida -> vida -> Prop :=
| PToma v p f : alloc_frame (ph (st v)) = (p, Some f) ->
    paso ticks v (mkVida (with_ph (st v) p) (vivos v) ({[f]} ∪ sueltos v))
| PSuelta v f : f ∈ sueltos v ->
    paso ticks v (mkVida (with_ph (st v) (free_frame (ph (st v)) f ticks)) (vivos v) (sueltos v ∖ {[f]}))
| PNuevo v s q : new_address_space (st v) ticks = Some (s, Some q) -> paso ticks v (mkVida s ({[q]} ∪ vivos v) (sueltos v))
| PSinSitio v s : new_address_space (st v) ticks = Some (s, None) -> paso ticks v (mkVida s (vivos v) (sueltos v))
| PPropia v q va f k s r : q ∈ vivos v -> f ∈ sueltos v -> compartida va = false ->
    mapea_propia (st v) q va f k = Some (s, r) ->
    paso ticks v (mkVida s (vivos v) (match r with Ok _ => sueltos v ∖ {[f]} | Err _ => sueltos v end))
| PAjena v q va pa wc w s r : q ∈ vivos v -> 0 <= pa -> compartida va = false ->
    mapea_ajena (st v) q va pa wc w = Some (s, r) -> paso ticks v (mkVida s (vivos v) (sueltos v))
| PQuita v q va s o : q ∈ vivos v -> compartida va = false -> unmap_page (st v) q va = Some (s, o) ->
    paso ticks v (mkVida s (vivos v) (match o with
      | Some f => if es_propia (mem (st v)) q va then {[f]} ∪ sueltos v else sueltos v | None => sueltos v end))
| PDestruye v q s c : q ∈ vivos v -> destroy_address_space (st v) q ticks = Some (s, c) ->
    paso ticks v (mkVida s (vivos v ∖ {[q]}) (sueltos v)).

(** * What always holds *)

(** The links of the tables of a user space let the leaf decide. *)
Definition medios (s : vmm_st) (own : gmap Z etiqueta) : Prop :=
  forall p r l pre i, own !! p = Some (r, l, pre) -> r <> KERNEL_PML4 s -> 1 < l -> comparte l pre i = false -> ranura i ->
    tiene (palabra (mem s) p i) PTE_PRESENT = true ->
    tiene (palabra (mem s) p i) PTE_HUGE = false /\ tiene (palabra (mem s) p i) PTE_WRITABLE = true /\
    tiene (palabra (mem s) p i) PTE_USER = true /\ tiene (palabra (mem s) p i) PTE_NX = false.

(** No page of a user space is writable and executable. *)
Definition wx (s : vmm_st) (own : gmap Z etiqueta) : Prop :=
  forall p r pre i, own !! p = Some (r, 1, pre) -> r <> KERNEL_PML4 s -> ranura i ->
    tiene (palabra (mem s) p i) PTE_PRESENT = true -> tiene (palabra (mem s) p i) PTE_WRITABLE = true ->
    tiene (palabra (mem s) p i) PTE_NX = true.

(** The entries that are shared are the supervisor's. *)
Definition cerrado (s : vmm_st) : Prop :=
  let K := KERNEL_PML4 s in
  (forall i, 256 <= i < 512 -> tiene (palabra (mem s) K i) PTE_USER = false) /\
  tiene (palabra (mem s) (Z.land (palabra (mem s) K 0) ADDR_MASK) 0) PTE_USER = false.

Record vale (v : vida) (own : gmap Z etiqueta) : Prop := {
  va_wf : wf (st v) own; va_hojas : hojas_ok (st v) own; va_medios : medios (st v) own;
  va_wx : nx_disponible (st v) = true -> wx (st v) own; va_cerrado : cerrado (st v);
  va_vivos : forall q, q ∈ vivos v -> espacio own q /\ q <> KERNEL_PML4 (st v);
  va_sueltos : forall f, f ∈ sueltos v -> marco f /\ used (bitmap (ph (st v))) (f / PAGE) = true /\ own !! f = None /\
    forall r pre p i, ~ hoja_propia (st v) own r pre p i f
}.

(** ** Growing the tree *)

Section Crece.
Context (s : vmm_st) (own : gmap Z etiqueta) (s1 : vmm_st) (own1 : gmap Z etiqueta) (W : wf s own)
  (C : conserva (mid_de true) s own s1 own1).

Lemma crece_nivel_1 p r pre i : own1 !! p = Some (r, 1, pre) -> ranura i -> tiene (palabra (mem s1) p i) PTE_PRESENT = true ->
  own !! p = Some (r, 1, pre) /\ palabra (mem s1) p i = palabra (mem s) p i.
Proof.
  intros Hp Hi. rewrite (co_hojas _ _ _ _ _ C p r pre i Hp Hi). case_bool_decide as Hn; [done|]. intros _.
  destruct (own !! p) as [x|] eqn:E; [|done]. rewrite (lookup_weaken _ _ _ _ E (co_own _ _ _ _ _ C)) in Hp. by split.
Qed.

Lemma crece_hoja r pre p i f : hoja_propia s1 own1 r pre p i f -> hoja_propia s own r pre p i f.
Proof.
  intros (H1 & H2 & H3 & H4 & H5). destruct (crece_nivel_1 p r pre i H1 H2 H3) as [Ho E]. rewrite E in H3, H4, H5. done.
Qed.

Lemma crece_fuera f : marco f -> used (bitmap (ph s)) (f / PAGE) = true -> own !! f = None ->
  used (bitmap (ph s1)) (f / PAGE) = true /\ own1 !! f = None.
Proof.
  intros Mf Uf Nf. split; [apply (co_used _ _ _ _ _ C); by left|].
  destruct (own1 !! f) as [x|] eqn:E; [|done]. rewrite (co_fresca _ _ _ _ _ C f) in Uf; [done|congruence|done].
Qed.

Lemma crece_hojas_ok : hojas_ok s own -> hojas_ok s1 own1.
Proof.
  intros H. split.
  - intros r pre p i f Hh%crece_hoja. destruct (ho_marco _ _ H _ _ _ _ _ Hh) as (Mf & Uf & Nf). split; [done|]. by apply crece_fuera.
  - intros r1 pre1 p1 i1 r2 pre2 p2 i2 f H1%crece_hoja H2%crece_hoja. by apply (ho_una _ _ H _ _ _ _ _ _ _ _ _ H1 H2).
Qed.

Lemma crece_medios : medios s own -> medios s1 own1.
Proof.
  intros M p r l pre i Hp Hr Hl Hc Hi Hx. destruct (co_resto _ _ _ _ _ C) as (EK & _). rewrite EK in Hr.
  destruct (co_nueva _ _ _ _ _ C p _ i Hp Hi Hx) as [[Ho E]|(c & Mc & E)].
  - rewrite E in *. by apply (M p r l pre i).
  - rewrite E. unfold PTE_HUGE, PTE_WRITABLE, PTE_USER. rewrite !tiene_or by (done || lia). repeat (split; [done|]).
    unfold PTE_NX. rewrite tiene_bit, Z.lor_spec, Z.land_spec, mask_bit by done. by rewrite andb_false_r.
Qed.

Lemma crece_wx : wx s own -> wx s1 own1.
Proof.
  intros X p r pre i Hp Hr Hi Hx. destruct (co_resto _ _ _ _ _ C) as (EK & _). rewrite EK in Hr.
  destruct (crece_nivel_1 p r pre i Hp Hi Hx) as [Ho E]. rewrite E in *. by apply (X p r pre i).
Qed.

Lemma crece_cerrado : cerrado s -> cerrado s1.
Proof.
  intros [C1 C2]. destruct (co_resto _ _ _ _ _ C) as (EK & _). pose proof (wf_nucleo _ _ W) as WK.
  destruct (wf_identidad _ _ W _ WK) as (P0 & _ & P1). unfold cerrado. rewrite EK. split.
  - intros i Hi. rewrite (co_presente _ _ _ _ _ C _ _ i WK); [by apply C1|unfold ranura; lia|].
    by apply (wf_mitad _ _ W _ i WK).
  - rewrite (co_presente _ _ _ _ _ C _ _ 0 WK) by done.
    by rewrite (co_presente _ _ _ _ _ C _ _ 0 (pd_identidad s own W _ WK)).
Qed.
End Crece.

(** ** Writing a page *)

Section Escribe.
Context (s : vmm_st) (own : gmap Z etiqueta) (W : wf s own).
Context (pt r pre i0 : Z) (Hpt : own !! pt = Some (r, 1, pre)) (Hi0 : ranura i0) (e : Z) (He : is_u64 e).
Context (b : bool) (va : Z).
Let s' := con_olvido b va (with_mem s (escribe (mem s) pt i0 e)).

Lemma esc_mem : mem s' = escribe (mem s) pt i0 e.
Proof. unfold s'. by destruct b. Qed.
Lemma esc_ph : ph s' = ph s.
Proof. unfold s'. by destruct b. Qed.
Lemma esc_K : KERNEL_PML4 s' = KERNEL_PML4 s.
Proof. unfold s'. by destruct b. Qed.
Lemma esc_wf : wf s' own.
Proof. apply con_olvido_wf. by apply (hoja_wf s own W pt r pre i0 Hpt Hi0 e He). Qed.

Lemma esc_palabra p x i : own !! p = Some x -> ranura i ->
  palabra (mem s') p i = if bool_decide ((p, i) = (pt, i0)) then e else palabra (mem s) p i.
Proof.
  intros Hp Hi. rewrite esc_mem. case_bool_decide as E.
  - injection E as -> ->. by apply palabra_escribe.
  - by apply (hoja_palabra s own W pt r pre i0 Hpt Hi0 e p x i).
Qed.

Lemma esc_alta p r0 l0 pre0 i : own !! p = Some (r0, l0, pre0) -> 1 < l0 -> ranura i -> palabra (mem s') p i = palabra (mem s) p i.
Proof.
  intros Hp Hl Hi. rewrite (esc_palabra p _ i Hp Hi). case_bool_decide as E; [|done]. injection E as -> ->.
  rewrite Hpt in Hp. injection Hp as _ E _. lia.
Qed.

Lemma esc_hoja r1 pre1 p i f : hoja_propia s' own r1 pre1 p i f ->
  (p = pt /\ i = i0 /\ tiene e PTE_PRESENT = true /\ tiene e PTE_NUESTRA = true /\ f = Z.land e ADDR_MASK) \/
  ((p, i) <> (pt, i0) /\ hoja_propia s own r1 pre1 p i f).
Proof.
  intros (H1 & H2 & H3 & H4 & H5). rewrite (esc_palabra p _ i H1 H2) in H3, H4, H5. case_bool_decide as E.
  - left. injection E as -> ->. done.
  - right. done.
Qed.

(** The frame of a new page of its own is nobody else's page. *)
Definition hoja_nueva : Prop := tiene e PTE_PRESENT = true -> tiene e PTE_NUESTRA = true ->
  let f := Z.land e ADDR_MASK in marco f /\ used (bitmap (ph s)) (f / PAGE) = true /\ own !! f = None /\
  forall r1 pre1 p i, ~ hoja_propia s own r1 pre1 p i f.

Lemma esc_hojas_ok : hojas_ok s own -> hoja_nueva -> hojas_ok s' own.
Proof.
  intros H N. split.
  - intros r1 pre1 p i f [(_ & _ & P1 & P2 & ->)|[_ Hh]]%esc_hoja; rewrite esc_ph.
    + destruct (N P1 P2) as (? & ? & ? & _). done.
    + by apply (ho_marco _ _ H _ _ _ _ _ Hh).
  - intros r1 pre1 p1 i1 r2 pre2 p2 i2 f H1%esc_hoja H2%esc_hoja.
    destruct H1 as [(-> & -> & P1 & P2 & ->)|[N1 H1]], H2 as [(-> & -> & Q1 & Q2 & E)|[N2 H2]]; [done| | |].
    + destruct (N P1 P2) as (_ & _ & _ & X). by destruct (X _ _ _ _ H2).
    + subst f. destruct (N Q1 Q2) as (_ & _ & _ & X). by destruct (X _ _ _ _ H1).
    + by apply (ho_una _ _ H _ _ _ _ _ _ _ _ _ H1 H2).
Qed.

Lemma esc_medios : medios s own -> medios s' own.
Proof.
  intros M p r0 l pre0 i Hp Hr Hl Hc Hi. rewrite esc_K in Hr. rewrite (esc_alta p r0 l pre0 i) by done. by apply (M p r0 l pre0 i).
Qed.

Lemma esc_wx : wx s own -> (r <> KERNEL_PML4 s -> tiene e PTE_PRESENT = true -> tiene e PTE_WRITABLE = true -> tiene e PTE_NX = true) -> wx s' own.
Proof.
  intros X Hx p r0 pre0 i Hp Hr Hi. rewrite esc_K in Hr. rewrite (esc_palabra p _ i Hp Hi). case_bool_decide as E.
  - injection E as -> ->. rewrite Hpt in Hp. injection Hp as -> _. by apply Hx.
  - by apply (X p r0 pre0 i).
Qed.

Lemma esc_cerrado : cerrado s -> cerrado s'.
Proof.
  intros [C1 C2]. pose proof (wf_nucleo _ _ W) as WK. unfold cerrado. rewrite esc_K. split.
  - intros i Hi. rewrite (esc_alta _ _ 4 0 i WK); [by apply C1|lia|unfold ranura; lia].
  - rewrite (esc_alta _ _ 4 0 0 WK) by (done || lia).
    by rewrite (esc_alta _ _ 3 0 0 (pd_identidad s own W _ WK)).
Qed.
End Escribe.

(** ** Each step *)

Lemma vale_map v own q va pa w x c n s r : vale v own -> q ∈ vivos v -> compartida va = false -> 0 <= pa ->
  (w = true -> x = false) -> (n = true -> pa ∈ sueltos v) -> map_page_tipo (st v) q va pa true w x c n = Some (s, r) ->
  exists own', vale (mkVida s (vivos v) (match r with Ok _ => if n then sueltos v ∖ {[pa]} else sueltos v | Err _ => sueltos v end)) own'.
Proof.
  intros V Hq Hc H0 Hwx Hn E. destruct V as [W H M X Ce Vi Su]. destruct (Vi q Hq) as [Hesp HqK].
  destruct (decide (va mod PAGE = 0 /\ pa mod PAGE = 0)) as [[Hva Hpa]|Hal].
  2:{ assert (Er : map_page_tipo (st v) q va pa true w x c n = Some (st v, Err tt)).
      { unfold map_page_tipo. destruct (Z.eqb_spec (va mod PAGE) 0), (Z.eqb_spec (pa mod PAGE) 0); cbn [negb orb]; tauto. }
      rewrite Er in E. injection E as <- <-. exists own. by split. }
  destruct (map_forma (st v) own q va pa true w x c n W Hesp Hva Hpa) as
    [(s1 & o1 & t3 & t2 & t1 & E1 & C & _ & _ & _ & L & _)|(s1 & o1 & E1 & C & _)]; rewrite E1 in E; injection E as <- <-;
    pose proof (co_wf _ _ _ _ _ C) as W1; destruct (co_resto _ _ _ _ _ C) as (EK & _ & Enx & _).
  - rewrite dueno_1, Hc in L. set (e := hoja_de (st v) pa true w x c n). set (b := tiene _ _).
    assert (He : is_u64 e) by (by apply hoja_u64). destruct (hoja_campos (st v) pa true w x c n Hpa) as (_ & Fw & _ & Fn & Fx & Fm).
    fold e in Fw, Fn, Fx, Fm. pose proof (idx_range 1 va) as Ri.
    assert (Hnew : n = true -> Z.land e ADDR_MASK = pa /\ marco pa /\ used (bitmap (ph s1)) (pa / PAGE) = true /\ o1 !! pa = None /\
      forall r1 pre1 p i, ~ hoja_propia s1 o1 r1 pre1 p i pa).
    { intros En. destruct (Su pa (Hn En)) as (Mf & Uf & Nf & Hno). rewrite Fm, mask_marco by done.
      destruct (crece_fuera _ _ _ _ C pa Mf Uf Nf) as [U1 N1]. split; [done|]. split; [done|]. split; [done|]. split; [done|].
      intros r1 pre1 p i Hh. by apply (Hno r1 pre1 p i), (crece_hoja _ _ _ _ C). }
    exists o1. split; cbn [st vivos sueltos].
    + by apply (esc_wf s1 o1 W1 t1 _ _ (idx 1 va) L Ri e He).
    + apply (esc_hojas_ok s1 o1 W1 t1 _ _ (idx 1 va) L Ri e He); [by apply (crece_hojas_ok _ _ _ _ C)|].
      intros _ Hnu. rewrite Fn in Hnu. destruct (Hnew Hnu) as (-> & ? & ? & ? & ?). done.
    + apply (esc_medios s1 o1 W1 t1 _ _ (idx 1 va) L Ri e He). by apply (crece_medios _ _ _ _ C).
    + assert (Enx2 : nx_disponible (con_olvido b va (with_mem s1 (escribe (mem s1) t1 (idx 1 va) e))) = nx_disponible (st v)).
      { rewrite <- Enx. by destruct b. }
      rewrite Enx2. intros Hnx. apply (esc_wx s1 o1 W1 t1 _ _ (idx 1 va) L Ri e He); [apply (crece_wx _ _ _ _ C); by apply X|].
      intros _ _ Hw. rewrite Fw in Hw. rewrite Fx, Hnx, (Hwx Hw). done.
    + apply (esc_cerrado s1 o1 W1 t1 _ _ (idx 1 va) L Ri e He). by apply (crece_cerrado _ _ _ _ W C).
    + intros q' Hq'. rewrite esc_K, EK. destruct (Vi q' Hq') as [? ?]. split; [by apply (co_espacio _ _ _ _ _ C)|done].
    + intros f Hf. rewrite esc_ph. assert (Hf' : f ∈ sueltos v) by (destruct n; set_solver).
      destruct (Su f Hf') as (Mf & Uf & Nf & Hno). destruct (crece_fuera _ _ _ _ C f Mf Uf Nf) as [U1 N1]. repeat (split; [done|]).
      intros r1 pre1 p i Hh. destruct (esc_hoja s1 o1 W1 t1 _ _ (idx 1 va) L Ri e He b va _ _ _ _ _ Hh) as [(_ & _ & _ & Hnu & Ef)|[_ Ho]].
      * rewrite Fn in Hnu. rewrite Hnu in Hf. destruct (Hnew Hnu) as (Em & _). rewrite Em in Ef. set_solver.
      * by apply (Hno r1 pre1 p i), (crece_hoja _ _ _ _ C).
  - exists o1. split; cbn [st vivos sueltos].
    + done.
    + by apply (crece_hojas_ok _ _ _ _ C).
    + by apply (crece_medios _ _ _ _ C).
    + rewrite Enx. intros Hnx. apply (crece_wx _ _ _ _ C). by apply X.
    + by apply (crece_cerrado _ _ _ _ W C).
    + intros q' Hq'. rewrite EK. destruct (Vi q' Hq') as [? ?]. split; [by apply (co_espacio _ _ _ _ _ C)|done].
    + intros f Hf. destruct (Su f Hf) as (Mf & Uf & Nf & Hno). destruct (crece_fuera _ _ _ _ C f Mf Uf Nf) as [U1 N1].
      repeat (split; [done|]). intros r1 pre1 p i Hh. by apply (Hno r1 pre1 p i), (crece_hoja _ _ _ _ C).
Qed.

Lemma vale_unmap v own q va s o : vale v own -> q ∈ vivos v -> compartida va = false -> unmap_page (st v) q va = Some (s, o) ->
  vale (mkVida s (vivos v) (match o with Some f => if es_propia (mem (st v)) q va then {[f]} ∪ sueltos v else sueltos v | None => sueltos v end)) own.
Proof.
  intros V Hq Hc E. pose proof V as V0. destruct V as [W H M X Ce Vi Su]. destruct (Vi q Hq) as [Hesp HqK].
  destruct (unmap_forma (st v) own q va W Hesp) as [(t3 & t2 & t1 & K3 & K2 & K1 & L3 & L2 & L1 & E1)|[E1 _]]; cbv zeta in E1; rewrite E1 in E;
    [|injection E as <- <-; by destruct v].
  rewrite dueno_1, Hc in L1. set (e := palabra (mem (st v)) t1 (idx 1 va)) in *. pose proof (idx_range 1 va) as Ri.
  destruct (tiene e PTE_PRESENT) eqn:Ep; injection E as <- <-; [|by destruct v]. assert (H0 : is_u64 0) by done.
  change (olvida (with_mem (st v) (escribe (mem (st v)) t1 (idx 1 va) 0)) va) with
    (con_olvido true va (with_mem (st v) (escribe (mem (st v)) t1 (idx 1 va) 0))).
  assert (Epr : es_propia (mem (st v)) q va = tiene e PTE_NUESTRA).
  { unfold es_propia. rewrite (camino _ _ _ _ _ _ K3 K2 K1). fold e. by rewrite Ep. }
  rewrite Epr. split; cbn [st vivos sueltos].
  - by apply (esc_wf (st v) own W t1 _ _ (idx 1 va) L1 Ri 0 H0).
  - apply (esc_hojas_ok (st v) own W t1 _ _ (idx 1 va) L1 Ri 0 H0); [done|]. by intros Hx.
  - by apply (esc_medios (st v) own W t1 _ _ (idx 1 va) L1 Ri 0 H0).
  - intros Hnx. apply (esc_wx (st v) own W t1 _ _ (idx 1 va) L1 Ri 0 H0); [by apply X|done].
  - by apply (esc_cerrado (st v) own W t1 _ _ (idx 1 va) L1 Ri 0 H0).
  - intros q' Hq'. rewrite esc_K. by apply Vi.
  - intros f Hf. rewrite esc_ph.
    assert (Hcase : f ∈ sueltos v \/ (tiene e PTE_NUESTRA = true /\ f = Z.land e ADDR_MASK)).
    { destruct (tiene e PTE_NUESTRA); [|by left]. apply elem_of_union in Hf as [Hf|Hf]; [right|by left]. set_solver. }
    destruct Hcase as [Hf'|[En ->]].
    + destruct (Su f Hf') as (Mf & Uf & Nf & Hno). repeat (split; [done|]). intros r1 pre1 p i Hh.
      destruct (esc_hoja (st v) own W t1 _ _ (idx 1 va) L1 Ri 0 H0 true va _ _ _ _ _ Hh) as [(_ & _ & Hx & _)|[_ Ho]]; [done|].
      by apply (Hno r1 pre1 p i).
    + assert (Hh0 : hoja_propia (st v) own q (pref 1 va) t1 (idx 1 va) (Z.land e ADDR_MASK)) by done.
      destruct (ho_marco _ _ H _ _ _ _ _ Hh0) as (? & ? & ?). repeat (split; [done|]). intros r1 pre1 p i Hh.
      destruct (esc_hoja (st v) own W t1 _ _ (idx 1 va) L1 Ri 0 H0 true va _ _ _ _ _ Hh) as [(_ & _ & Hx & _)|[Hne Ho]]; [done|].
      destruct (ho_una _ _ H _ _ _ _ _ _ _ _ _ Hh0 Ho) as [<- <-]. done.
Qed.

Lemma vale_destruye v own q s c ticks : vale v own -> q ∈ vivos v -> destroy_address_space (st v) q ticks = Some (s, c) ->
  vale (mkVida s (vivos v ∖ {[q]}) (sueltos v)) (sin q own).
Proof.
  intros [W H M X Ce Vi Su] Hq E. destruct (Vi q Hq) as [Hesp HqK].
  destruct (destroy_todo (st v) own q ticks W H Hesp HqK) as (s' & c' & L & E' & HL & _ & Hin & W' & H' & _).
  rewrite E' in E. injection E as -> ->. destruct (li_resto _ _ _ _ HL) as ((EK & _ & Enx & _) & _). cbn [fst] in EK, Enx.
  assert (Hpal : forall p x i, own !! p = Some x -> ranura i -> palabra (mem s) p i = palabra (mem (st v)) p i).
  { intros p x i Hp Hi. exact (lib_palabra (st v) own W _ (s, c) p x i HL Hp Hi). }
  split; cbn [st vivos sueltos].
  - done.
  - done.
  - intros p r l pre i [Hp Hr]%sin_lookup HrK Hl Hc Hi. rewrite EK in HrK. rewrite (Hpal p _ i Hp Hi). by apply (M p r l pre i).
  - rewrite Enx. intros Hnx p r pre i [Hp Hr]%sin_lookup HrK Hi. rewrite EK in HrK. rewrite (Hpal p _ i Hp Hi). by apply (X Hnx p r pre i).
  - destruct Ce as [C1 C2]. pose proof (wf_nucleo _ _ W) as WK. unfold cerrado. rewrite EK. split.
    + intros i Hi. rewrite (Hpal _ _ i WK); [by apply C1|unfold ranura; lia].
    + rewrite (Hpal _ _ 0 WK) by done. by rewrite (Hpal _ _ 0 (pd_identidad _ own W _ WK)).
  - intros q' Hq'. rewrite EK. destruct (Vi q') as [? ?]; [set_solver|]. split; [|done]. apply sin_espacio. split; [done|set_solver].
  - intros f Hf. destruct (Su f Hf) as (Mf & Uf & Nf & Hno).
    assert (Hn : ~ se_devuelve (st v) own q f) by (intros [(l & pre & Hx & _)|(p & i & pre & Hh & _)]; [congruence|by apply (Hno _ _ _ _ Hh)]).
    split; [done|]. split; [|split].
    + pose proof (li_used _ _ _ _ HL (f / PAGE)) as Q. cbn [fst] in Q. rewrite Q, Uf, bool_decide_eq_false_2; [done|].
      by rewrite marco_page, Hin.
    + unfold sin. apply map_lookup_filter_None. by left.
    + intros r pre p i (H1 & H2 & H3 & H4 & H5). apply sin_lookup in H1 as [H1 _]. rewrite (Hpal p _ i H1 H2) in H3, H4, H5.
      by apply (Hno r pre p i).
Qed.

Lemma vale_nuevo v own s r ticks : vale v own -> new_address_space (st v) ticks = Some (s, r) ->
  exists own', vale (mkVida s (match r with Some q => {[q]} ∪ vivos v | None => vivos v end) (sueltos v)) own'.
Proof.
  intros [W H M X Ce Vi Su] E.
  destruct (new_address_space_spec (st v) own ticks W) as (s' & r' & E' & (EK & _ & Enx & _) & _ & R). rewrite E' in E. injection E as -> ->.
  pose proof (wf_nucleo _ _ W) as WK. destruct Ce as [C1 C2].
  destruct r as [q|].
  - destruct R as (d & W' & Nq & Nd & Hqd & Mq & Md & Uq & Ud & Us & _ & Hpal & _ & (P0 & H0 & A0) & U0 & Zd & Zq).
    set (own' := <[q:=(q, 4, 0)]> (<[d:=(q, 3, 0)]> own)) in *.
    assert (Hown : forall p x, own' !! p = Some x <-> p = q /\ x = (q, 4, 0) \/ p = d /\ x = (q, 3, 0) \/ own !! p = Some x)
      by (intros p x; unfold own'; rewrite !lookup_insert_Some; split; [intros [[-> ->]|[? [[-> ->]|[? ?]]]]; tauto|];
          intros [[-> ->]|[[-> ->]|Hx]]; [tauto|tauto|right; split; [congruence|right; split; [congruence|done]]]).
    assert (Hq0 : forall p i r pre f, hoja_propia s own' r pre p i f -> hoja_propia (st v) own r pre p i f).
    { intros p i r pre f (G1 & G2 & G3 & G4 & G5). apply Hown in G1 as [[_ G1]|[[_ G1]|G1]]; [discriminate G1|discriminate G1|].
      rewrite (Hpal p _ i G1 G2) in G3, G4, G5. done. }
    assert (Hfu : forall f, marco f -> used (bitmap (ph (st v))) (f / PAGE) = true -> own !! f = None ->
      used (bitmap (ph s)) (f / PAGE) = true /\ own' !! f = None).
    { intros f Mf Uf Nf. split; [rewrite Us, Uf; apply orb_true_r|]. unfold own'. rewrite !lookup_insert_ne; [done| |]; intros ->; congruence. }
    assert (Hbits : tiene (palabra (mem s) q 0) PTE_WRITABLE = true /\ tiene (palabra (mem s) q 0) PTE_USER = true /\
      tiene (palabra (mem s) q 0) PTE_NX = false).
    { rewrite U0. unfold PTE_WRITABLE, PTE_USER, PTE_NX. rewrite !tiene_or by (done || lia). split; [done|split; [done|]].
      rewrite tiene_bit, Z.lor_spec, Z.land_spec, mask_bit by done. by rewrite andb_false_r. }
    assert (HKq : q <> KERNEL_PML4 (st v)) by (unfold espacio in WK; congruence).
    exists own'. split; cbn [st vivos sueltos].
    + done.
    + split.
      * intros r pre p i f Hh%Hq0. destruct (ho_marco _ _ H _ _ _ _ _ Hh) as (Mf & Uf & Nf). split; [done|]. by apply Hfu.
      * intros r1 pre1 p1 i1 r2 pre2 p2 i2 f H1%Hq0 H2%Hq0. by apply (ho_una _ _ H _ _ _ _ _ _ _ _ _ H1 H2).
    + intros p r l pre i Hp Hr Hl Hc Hi Hx. rewrite EK in Hr. apply Hown in Hp as [[-> [= -> -> ->]]|[[-> [= -> -> ->]]|Hp]].
      * destruct (decide (i = 0)) as [->|]; [done|].
        unfold comparte in Hc. cbn in Hc. rewrite orb_false_r in Hc. apply Z.leb_gt in Hc. unfold ranura in Hi.
        rewrite Zq in Hx by lia. done.
      * destruct (decide (i = 0)) as [->|]; [done|]. unfold ranura in Hi. rewrite Zd in Hx by lia. done.
      * rewrite (Hpal p _ i Hp Hi) in *. by apply (M p r l pre i).
    + rewrite Enx. intros Hnx p r pre i Hp Hr Hi. rewrite EK in Hr. apply Hown in Hp as [[_ Hp]|[[_ Hp]|Hp]]; [discriminate Hp|discriminate Hp|].
      rewrite (Hpal p _ i Hp Hi). by apply (X Hnx p r pre i).
    + unfold cerrado. rewrite EK. split.
      * intros i Hi. rewrite (Hpal _ _ i WK); [by apply C1|unfold ranura; lia].
      * rewrite (Hpal _ _ 0 WK) by done. by rewrite (Hpal _ _ 0 (pd_identidad _ own W _ WK)).
    + intros q' Hq'. rewrite EK. apply elem_of_union in Hq' as [->%elem_of_singleton|Hq'].
      * split; [apply Hown; by left|done].
      * destruct (Vi q' Hq') as [? ?]. split; [apply Hown; right; by right|done].
    + intros f Hf. destruct (Su f Hf) as (Mf & Uf & Nf & Hno). split; [done|]. destruct (Hfu f Mf Uf Nf) as [? ?].
      split; [done|]. split; [done|]. intros r pre p i Hh%Hq0. by apply (Hno r pre p i).
  - destruct R as (W' & _ & Us & Hpal0). exists own.
    assert (Hpal : forall p x i, own !! p = Some x -> ranura i -> palabra (mem s) p i = palabra (mem (st v)) p i).
    { intros p x i Hp Hi. apply Hpal0; [congruence|done]. }
    assert (Hq0 : forall p i r pre f, hoja_propia s own r pre p i f -> hoja_propia (st v) own r pre p i f).
    { intros p i r pre f (G1 & G2 & G3 & G4 & G5). rewrite (Hpal p _ i G1 G2) in G3, G4, G5. done. }
    split; cbn [st vivos sueltos]; rewrite ?EK, ?Enx.
    + done.
    + split.
      * intros r pre p i f Hh%Hq0. rewrite Us. by apply (ho_marco _ _ H _ _ _ _ _ Hh).
      * intros r1 pre1 p1 i1 r2 pre2 p2 i2 f H1%Hq0 H2%Hq0. by apply (ho_una _ _ H _ _ _ _ _ _ _ _ _ H1 H2).
    + intros p r l pre i Hp Hr Hl Hc Hi. rewrite EK in Hr. rewrite (Hpal p _ i Hp Hi). by apply (M p r l pre i).
    + intros Hnx p r pre i Hp Hr Hi. rewrite EK in Hr. rewrite (Hpal p _ i Hp Hi). by apply (X Hnx p r pre i).
    + unfold cerrado. rewrite EK. split.
      * intros i Hi. rewrite (Hpal _ _ i WK); [by apply C1|unfold ranura; lia].
      * rewrite (Hpal _ _ 0 WK) by done. by rewrite (Hpal _ _ 0 (pd_identidad _ own W _ WK)).
    + done.
    + intros f Hf. rewrite Us. destruct (Su f Hf) as (Mf & Uf & Nf & Hno). repeat (split; [done|]).
      intros r pre p i Hh%Hq0. by apply (Hno r pre p i).
Qed.

Lemma paso_vale ticks v v' own : vale v own -> paso ticks v v' -> exists own', vale v' own'.
Proof.
  intros V P. destruct P as [v p f E|v f Hf|v s q E|v s E|v q va f k s r Hq Hf Hc E|v q va pa wc w s r Hq H0 Hc E|v q va s o Hq Hc E|v q s c Hq E].
  - destruct V as [W H M X Ce Vi Su]. destruct (wf_alloc _ own p f W E) as (W' & Mf & Uf & Nf & Us & _). exists own.
    split; cbn [st vivos sueltos with_ph mem ph KERNEL_PML4]; try done.
    + split; [|apply H]. intros r pre pt i g Hh. cbn [with_ph ph]. rewrite Us. destruct (ho_marco _ _ H _ _ _ _ _ Hh) as (? & -> & ?).
      split; [done|]. split; [apply orb_true_r|done].
    + intros g Hg. rewrite Us. apply elem_of_union in Hg as [->%elem_of_singleton|Hg].
      * rewrite Z.eqb_refl. repeat (split; [done|]). intros r pre pt i Hh. destruct (ho_marco _ _ H _ _ _ _ _ Hh) as (_ & ? & _). congruence.
      * destruct (Su g Hg) as (? & -> & ? & Hno). split; [done|]. split; [apply orb_true_r|]. by split.
  - destruct V as [W H M X Ce Vi Su]. destruct (Su f Hf) as (Mf & Uf & Nf & Hno).
    destruct (free_data _ own f ticks W Mf Nf Uf) as (W' & Us & _). exists own.
    assert (Hne : forall g, marco g -> g <> f -> (f / PAGE =? g / PAGE) = false).
    { intros g Mg Hne. apply Z.eqb_neq. intros E. apply Hne. by rewrite <- (marco_page g Mg), <- E, marco_page. }
    split; cbn [st vivos sueltos with_ph mem ph KERNEL_PML4]; try done.
    + split; [|apply H]. intros r pre pt i g Hh. cbn [with_ph ph]. rewrite Us. destruct (ho_marco _ _ H _ _ _ _ _ Hh) as (Mg & -> & ?).
      rewrite Hne; [done|done|]. intros ->. by apply (Hno r pre pt i).
    + intros g Hg. rewrite Us. assert (g <> f /\ g ∈ sueltos v) as [Hgf Hgs] by set_solver. destruct (Su g Hgs) as (? & -> & ? & ?).
      by rewrite Hne.
  - exact (vale_nuevo v own s (Some q) ticks V E).
  - exact (vale_nuevo v own s None ticks V E).
  - destruct (va_sueltos _ _ V f Hf) as (Mf & _). destruct Mf as [Mf1 Mf2].
    destruct k as [pe|w]; unfold mapea_propia, map_page_imagen, map_page_propia in E.
    + destruct pe; refine (vale_map v own q va f _ _ _ _ s r V Hq Hc _ _ _ E); try done; lia.
    + refine (vale_map v own q va f _ _ _ _ s r V Hq Hc _ _ _ E); [lia|by intros ->|done].
  - assert (Em : map_page_tipo (st v) q va pa true w (negb w) wc false = Some (s, r)) by (destruct wc; exact E).
    destruct (vale_map v own q va pa w (negb w) wc false s r V Hq Hc H0) as (own' & V'); [by intros ->|done|done|].
    exists own'. by destruct r.
  - exists own. by apply vale_unmap.
  - eexists. by eapply vale_destruye.
Qed.

(** * What the rights are *)

Lemma compartida_false va : compartida va = false -> comparte 4 0 (idx 4 va) = false /\ comparte 3 (idx 4 va) (idx 3 va) = false.
Proof. unfold compartida. intros H. by apply orb_false_iff in H. Qed.

(** An address of the user part goes through four levels, and the last word alone
    says what may be done with the page. *)
Lemma derechos s own q va p : wf s own -> medios s own -> espacio own q -> q <> KERNEL_PML4 s -> compartida va = false ->
  mmu 4 (mem s) q va = Some p ->
  exists e4 e3 e2 e t1, p = [e4; e3; e2; e] /\ tiene e PTE_PRESENT = true /\
    own !! t1 = Some (q, 1, pref 1 va) /\ e = palabra (mem s) t1 (idx 1 va) /\
    de_usuario p = tiene e PTE_USER /\ escribible p = tiene e PTE_WRITABLE /\ ejecutable p = negb (tiene e PTE_NX).
Proof.
  intros W M Hq HqK Hc. destruct (compartida_false va Hc) as [C4 C3]. pose proof (fun l => idx_range l va) as R.
  pose proof (raiz_etiqueta s own q va Hq) as L4. cbn [mmu]. change (Z.of_nat 4) with 4. change (Z.of_nat 3) with 3.
  change (Z.of_nat 2) with 2. change (Z.of_nat 1) with 1. cbn [Nat.eqb Nat.leb orb andb].
  destruct (tiene (palabra (mem s) q _) PTE_PRESENT) eqn:P4; [|done]. cbn [negb].
  destruct (M q q 4 0 (idx 4 va) Hq HqK ltac:(lia) C4 (R 4) P4) as (H4 & W4 & U4 & N4).
  pose proof (hija_own s own W q 4 va q L4 ltac:(lia) P4 ltac:(lia)) as L3. change (4 - 1) with 3 in L3.
  set (t3 := Z.land (palabra _ q _) _) in *.
  assert (D3 : dueno (KERNEL_PML4 s) q 3 va = q) by (unfold dueno; cbn -[comparte]; by rewrite C4). rewrite D3, pref_3 in L3.
  destruct (tiene (palabra (mem s) t3 _) PTE_PRESENT) eqn:P3; [|done]. cbn [negb].
  destruct (M t3 q 3 (idx 4 va) (idx 3 va) L3 HqK ltac:(lia) C3 (R 3) P3) as (H3 & W3 & U3 & N3). rewrite H3.
  assert (L3' : own !! t3 = Some (dueno (KERNEL_PML4 s) q 3 va, 3, pref 3 va)) by (by rewrite D3, pref_3).
  pose proof (hija_own s own W q 3 va t3 L3' ltac:(lia) P3 ltac:(done)) as L2. change (3 - 1) with 2 in L2.
  set (t2 := Z.land (palabra _ t3 _) _) in *.
  assert (D2 : dueno (KERNEL_PML4 s) q 2 va = q) by (unfold dueno; cbn -[comparte]; by rewrite C4, C3).
  destruct (tiene (palabra (mem s) t2 _) PTE_PRESENT) eqn:P2; [|done]. cbn [negb].
  assert (L2q : own !! t2 = Some (q, 2, pref 2 va)) by (by rewrite <- D2 at 1).
  destruct (M t2 q 2 (pref 2 va) (idx 2 va) L2q HqK ltac:(lia) eq_refl (R 2) P2) as (H2 & W2 & U2 & N2). rewrite H2.
  pose proof (hija_own s own W q 2 va t2 L2 ltac:(lia) P2 ltac:(done)) as L1. change (2 - 1) with 1 in L1.
  rewrite dueno_1, Hc in L1. set (t1 := Z.land (palabra _ t2 _) _) in *.
  destruct (tiene (palabra (mem s) t1 _) PTE_PRESENT) eqn:P1; [|done]. cbn [negb fmap option_fmap option_map]. intros [= <-].
  eexists _, _, _, _, t1. split; [done|]. split; [done|]. split; [done|]. split; [done|].
  unfold de_usuario, escribible, ejecutable. cbn [forallb]. rewrite U4, U3, U2, W4, W3, W2, N4, N3, N2. cbn [negb andb].
  by rewrite !andb_true_r.
Qed.

Lemma mmu_cabeza l m t va p : mmu (S l) m t va = Some p -> exists p', p = palabra m t (idx (Z.of_nat (S l)) va) :: p'.
Proof.
  cbn [mmu]. destruct (negb _); [done|]. destruct (_ || _); [intros [= <-]; by eexists|].
  destruct (mmu l m _ va); [|done]. intros [= <-]. by eexists.
Qed.

Lemma mmu_4_3 m t va p : mmu 4 m t va = Some p ->
  exists p', p = palabra m t (idx 4 va) :: p' /\ mmu 3 m (Z.land (palabra m t (idx 4 va)) ADDR_MASK) va = Some p'.
Proof.
  change (mmu 4 m t va) with (let e := palabra m t (idx 4 va) in if negb (tiene e PTE_PRESENT) then None
    else cons e <$> mmu 3 m (Z.land e ADDR_MASK) va). cbv zeta.
  destruct (negb _); [done|]. destruct (mmu 3 _ _ va) as [p'|]; [|done]. intros [= <-]. by exists p'.
Qed.

(** A shared address is the supervisor's. *)
Lemma supervisor s own q va p : wf s own -> cerrado s -> espacio own q -> compartida va = true -> mmu 4 (mem s) q va = Some p ->
  de_usuario p = false.
Proof.
  intros W [C1 C2] Hq Hc Hp. apply mmu_4_3 in Hp as (p' & -> & Hp'). unfold de_usuario. cbn [forallb].
  pose proof (idx_range 4 va) as R4. unfold compartida in Hc. apply orb_true_iff in Hc as [Hc|Hc]; unfold comparte in Hc.
  - rewrite orb_false_r in Hc. apply andb_true_iff in Hc as [_ Hc%Z.leb_le]. unfold ranura in R4.
    destruct (wf_mitad _ _ W q (idx 4 va) Hq) as [-> _]; [lia|]. by rewrite C1 by lia.
  - cbn [Z.eqb Pos.eqb andb orb] in Hc. apply andb_true_iff in Hc as [H4%Z.eqb_eq H3%Z.eqb_eq].
    apply mmu_cabeza in Hp' as (p'' & ->). change (Z.of_nat 3) with 3. rewrite H4, H3. cbn [forallb].
    destruct (wf_identidad _ _ W q Hq) as (_ & -> & _). rewrite C2. by rewrite andb_false_r.
Qed.

Lemma es_propia_hoja s own q va : wf s own -> medios s own -> espacio own q -> q <> KERNEL_PML4 s -> compartida va = false ->
  es_propia (mem s) q va = true -> exists t1, own !! t1 = Some (q, 1, pref 1 va) /\
    hoja_propia s own q (pref 1 va) t1 (idx 1 va) (Z.land (palabra (mem s) t1 (idx 1 va)) ADDR_MASK) /\
    destino (mem s) q va = Some (Z.land (palabra (mem s) t1 (idx 1 va)) ADDR_MASK + va mod PAGE).
Proof.
  intros W M Hq HqK Hc. unfold es_propia. destruct (mmu 4 (mem s) q va) as [p|] eqn:E; [|done].
  destruct (derechos s own q va p W M Hq HqK Hc E) as (e4 & e3 & e2 & e & t1 & -> & Hp & Ht & -> & _). intros Hn.
  exists t1. split; [done|]. split; [|by eapply destino_hoja]. split; [done|]. split; [apply idx_range|]. done.
Qed.

(** * The properties *)

Lemma pasos_vale ticks v0 own0 v : vale v0 own0 -> rtc (paso ticks) v0 v -> exists own, vale v own.
Proof.
  intros V R. revert own0 V. induction R as [|v0 v1 v P _ IH]; intros own0 V; [by exists own0|].
  destruct (paso_vale ticks v0 v1 own0 V P) as (own1 & V1). by apply (IH own1).
Qed.

Lemma map_medios s own q va pa w x c n s' r : wf s own -> medios s own -> espacio own q -> compartida va = false -> 0 <= pa ->
  map_page_tipo s q va pa true w x c n = Some (s', r) -> exists own', wf s' own' /\ medios s' own' /\ espacio own' q /\ KERNEL_PML4 s' = KERNEL_PML4 s.
Proof.
  intros W M Hq Hc H0 E. destruct (decide (va mod PAGE = 0 /\ pa mod PAGE = 0)) as [[Hva Hpa]|Hal].
  2:{ exists own. assert (Er : map_page_tipo s q va pa true w x c n = Some (s, Err tt)).
      { unfold map_page_tipo. destruct (Z.eqb_spec (va mod PAGE) 0), (Z.eqb_spec (pa mod PAGE) 0); cbn [negb orb]; tauto. }
      rewrite Er in E. by injection E as <- <-. }
  destruct (map_forma s own q va pa true w x c n W Hq Hva Hpa) as
    [(s1 & o1 & t3 & t2 & t1 & E1 & C & _ & _ & _ & L & _)|(s1 & o1 & E1 & C & _)]; rewrite E1 in E; injection E as <- <-;
    pose proof (co_wf _ _ _ _ _ C) as W1; destruct (co_resto _ _ _ _ _ C) as (EK & _); exists o1;
    pose proof (crece_medios _ _ _ _ C M) as M1.
  - rewrite dueno_1, Hc in L. assert (He : is_u64 (hoja_de s pa true w x c n)) by (by apply hoja_u64).
    split; [by apply (esc_wf s1 o1 W1 t1 _ _ (idx 1 va) L (idx_range _ _))|].
    split; [by apply (esc_medios s1 o1 W1 t1 _ _ (idx 1 va) L (idx_range _ _) _ He)|].
    split; [by apply (co_espacio _ _ _ _ _ C)|]. by rewrite esc_K.
  - split; [done|split; [done|split; [by apply (co_espacio _ _ _ _ _ C)|done]]].
Qed.

(** C3: address spaces are isolated.  Let the kernel start from well-formed
    tables and go through any sequence of taking and giving frames, creating
    spaces, mapping and unmapping pages and destroying spaces -- where a page of
    its own is mapped from a frame that is held, and no page is mapped or unmapped
    at an address that every space shares (the first GiB and the half of the
    kernel), which the functions themselves do not check: their callers must.
    Then in every space alive: the shared addresses are never a user's; if the
    processor has the no-execute bit on, no address of the user is writable and
    executable at once (without it, every page is executable); a frame that is a
    page of its own of a space is nobody else's and at no other address, and it is
    neither free nor among the frames that somebody holds. *)
Theorem espacios_aislados ticks v0 own0 v : vale v0 own0 -> rtc (paso ticks) v0 v ->
  (forall q va p, q ∈ vivos v -> mmu 4 (mem (st v)) q va = Some p ->
    if compartida va then de_usuario p = false
    else nx_disponible (st v) = true -> escribible p = true -> ejecutable p = false) /\
  (forall q va d, q ∈ vivos v -> compartida va = false -> es_propia (mem (st v)) q va = true -> destino (mem (st v)) q va = Some d ->
    used (bitmap (ph (st v))) (d / PAGE) = true /\ d / PAGE * PAGE ∉ sueltos v /\
    forall q' va' d', q' ∈ vivos v -> compartida va' = false -> es_propia (mem (st v)) q' va' = true ->
      destino (mem (st v)) q' va' = Some d' -> d' / PAGE = d / PAGE -> q' = q /\ pagina va' = pagina va).
Proof.
  intros V0 R. destruct (pasos_vale ticks v0 own0 v V0 R) as (own & V). destruct V as [W H M X Ce Vi Su]. split.
  - intros q va p Hq Hp. destruct (Vi q Hq) as [He Hk]. destruct (compartida va) eqn:Hc; [by apply (supervisor (st v) own q va)|].
    intros Hnx. destruct (derechos (st v) own q va p W M He Hk Hc Hp) as (e4 & e3 & e2 & e & t1 & -> & Pe & L & E & _ & -> & ->).
    intros Hw. assert (tiene e PTE_NX = true) as ->; [|done]. rewrite E.
    apply (X Hnx t1 q (pref 1 va) (idx 1 va) L Hk (idx_range _ _)); by rewrite <- E.
  - assert (G : forall q va d, q ∈ vivos v -> compartida va = false -> es_propia (mem (st v)) q va = true -> destino (mem (st v)) q va = Some d ->
      exists t, own !! t = Some (q, 1, pref 1 va) /\ hoja_propia (st v) own q (pref 1 va) t (idx 1 va) (d / PAGE * PAGE)).
    { intros q va d Hq Hc Hp Hd. destruct (Vi q Hq) as [He Hk].
      destruct (es_propia_hoja (st v) own q va W M He Hk Hc Hp) as (t & L & Hh & Hd'). exists t. split; [done|].
      rewrite Hd in Hd'. injection Hd' as ->. destruct (ho_marco _ _ H _ _ _ _ _ Hh) as ([Ha _] & _).
      replace ((_ + va mod PAGE) / PAGE * PAGE) with (Z.land (palabra (mem (st v)) t (idx 1 va)) ADDR_MASK); [done|].
      pose proof (Z.mod_pos_bound va PAGE ltac:(done)). unfold PAGE in *. lia. }
    intros q va d Hq Hc Hp Hd. destruct (G q va d Hq Hc Hp Hd) as (t & L & Hh). destruct (ho_marco _ _ H _ _ _ _ _ Hh) as (_ & Uf & _).
    rewrite Z.div_mul in Uf by done. split; [done|]. split.
    + intros Hs. destruct (Su _ Hs) as (_ & _ & _ & Hno). by apply (Hno _ _ _ _ Hh).
    + intros q' va' d' Hq' Hc' Hp' Hd' Ed. destruct (G q' va' d' Hq' Hc' Hp' Hd') as (t' & L' & Hh'). rewrite Ed in Hh'.
      destruct (ho_una _ _ H _ _ _ _ _ _ _ _ _ Hh Hh') as [<- Ei]. rewrite L in L'. injection L' as -> Epre.
      split; [done|]. by apply pagina_niveles.
Qed.

(** C26: mapping a page of an image.  Over well-formed tables, for a frame of the
    mirror: the page goes where it was asked -- in that space only, or, at an
    address that every space shares (the first GiB and the half of the kernel,
    which the code does not refuse), in all of them --, every other address of
    every space stays where it was, and a translation that was there is dropped.
    The entry has the rights of its section: the user's, writable only for data,
    not executable but for code if the processor has the no-execute bit on
    (without it, executable always); and in a space of a user, at an address that
    is not shared, those are the rights of the whole walk. When it is refused no
    walk changes, and the address was not of a page, a big page was in the way, or
    there is no frame left. *)
Theorem map_page_imagen_spec s own q va pa permiso : wf s own -> medios s own -> espacio own q -> marco pa ->
  exists s' r, map_page_imagen s q va pa permiso = Some (s', r) /\
    match r with
    | Ok _ =>
        let w := match permiso with Datos => true | _ => false end in
        let x := match permiso with Codigo => true | _ => negb (nx_disponible s) end in
        (forall q' va', espacio own q' -> destino (mem s') q' va' =
          if (bool_decide (q' = q) || compartida va) && bool_decide (pagina va' = pagina va)
          then Some (pa + va' mod PAGE) else destino (mem s) q' va') /\
        (exists e4 e3 e2 e, mmu 4 (mem s') q va = Some [e4; e3; e2; e] /\
          Z.land e ADDR_MASK = pa /\ tiene e PTE_USER = true /\ tiene e PTE_NUESTRA = true /\
          tiene e PTE_WRITABLE = w /\ tiene e PTE_NX = negb x /\
          (compartida va = false -> q <> KERNEL_PML4 s ->
             de_usuario [e4; e3; e2; e] = true /\ escribible [e4; e3; e2; e] = w /\ ejecutable [e4; e3; e2; e] = x)) /\
        (mmu 4 (mem s) q va <> None -> invlpg s' = va :: invlpg s)
    | Err _ => (forall q' va', espacio own q' -> mmu 4 (mem s') q' va' = mmu 4 (mem s) q' va') /\ invlpg s' = invlpg s /\
        (va mod PAGE <> 0 \/ (exists p, mmu 4 (mem s) q va = Some p /\ (length p < 4)%nat) \/
         forall f, 0 <= f < MARCOS -> used (bitmap (ph s')) f = true)
    end.
Proof.
  intros W M Hq Mp. pose proof Mp as [Hpa Hp0]. unfold map_page_imagen.
  set (we := match permiso with Codigo => (false, true) | Constantes => (false, false) | Datos => (true, false) end).
  destruct we as [w x] eqn:Ew. destruct (map_spec s own q va pa true w x false true W Hq ltac:(lia)) as (s' & r & own' & E & _ & _ & _ & _ & Hr).
  exists s', r. split; [done|]. destruct r as [[]|[]].
  2:{ destruct Hr as (H1 & H2 & Hr). split; [done|]. split; [done|]. tauto. }
  destruct Hr as (_ & _ & Hd & (e4 & e3 & e2 & Em) & Hi). rewrite mask_marco in Hd by done. cbv zeta. split; [|split; [|done]].
  { intros q' va' Hq'. rewrite Hd by done. by rewrite andb_comm. }
  destruct (hoja_campos s pa true w x false true Hpa) as (_ & Fw & Fu & Fn & Fx & Fa).
  set (e := hoja_de s pa true w x false true) in *. exists e4, e3, e2, e.
  split; [exact Em|]. split; [by rewrite Fa, mask_marco|]. split; [exact Fu|]. split; [exact Fn|]. rewrite Fw, Fx.
  assert (Hw : w = match permiso with Datos => true | _ => false end /\
    negb (negb x && nx_disponible s) = match permiso with Codigo => true | _ => negb (nx_disponible s) end)
    by (unfold we in Ew; destruct permiso; injection Ew as <- <-; done).
  destruct Hw as [<- Hx]. rewrite <- Hx. split; [done|]. split; [by rewrite negb_involutive|]. intros Hc Hk.
  destruct (map_medios s own q va pa w x false true s' (Ok tt) W M Hq Hc ltac:(lia) E) as (o' & W' & M' & Hq' & EK).
  destruct (derechos s' o' q va _ W' M' Hq' ltac:(congruence) Hc Em) as (f4 & f3 & f2 & f & t1 & Ee & _ & _ & _ & D1 & D2 & D3).
  injection Ee as _ _ _ <-. by rewrite D1, D2, D3, Fw, Fu, Fx.
Qed.

(** What the code resolves by hand is what the processor resolves:
    [fisica_exacta] the address, for every size of page; [translate] the base
    of a page of 4 KiB and the address itself for a bigger one; neither ever
    leaves the mirror. *)
Theorem fisica_exacta_mmu s own q va : wf s own -> espacio own q -> 0 <= va ->
  fisica_exacta s q va = Some (destino (mem s) q va) /\
  translate s q va = Some ((fun p => fisica p va - (if (length p =? 4)%nat then va mod PAGE else 0)) <$> mmu 4 (mem s) q va).
Proof.
  intros W Hq Hva. unfold fisica_exacta, translate. rewrite !(camina_mmu s own W) by done. unfold destino.
  destruct (mmu 4 (mem s) q va) as [p|] eqn:E; [|done]. pose proof (mmu_4_3 _ _ _ _ E) as (p' & -> & E3).
  assert (Hl : (length p' <= 3)%nat).
  { clear -E3. revert p' E3. generalize (Z.land (palabra (mem s) q (idx 4 va)) ADDR_MASK) as t. generalize 3%nat as l.
    induction l as [|l IH]; intros t p'; [done|]. cbn [mmu]. destruct (negb _); [done|].
    destruct (_ || _); [intros [= <-]; cbn; lia|]. destruct (mmu l _ _ va) as [p|] eqn:E; [|done]. intros [= <-].
    apply IH in E. cbn. lia. }
  destruct p' as [|e3 [|e2 [|e1 [|]]]]; cbn in Hl; try lia; cbn [length Nat.eqb fmap option_fmap option_map]; rewrite ?Z.sub_0_r; try done.
  cbn [fisica]. replace (Z.land va (PAGE - 1)) with (va mod 2 ^ 12) by (rewrite <- Z.land_ones by lia; done).
  assert (0 <= Z.land e1 ADDR_MASK <= ADDR_MASK) by (by apply land_le_r). pose proof (Z.mod_pos_bound va (2 ^ 12) ltac:(done)).
  rewrite w64_small by (unfold is_u64, ADDR_MASK in *; lia). split; [done|]. do 2 f_equal. unfold PAGE. lia.
Qed.

(** C27: destroying a space gives back exactly its tables of the user part and its
    pages of its own, each once: the two counts say how many, each page that
    goes back is zeroed, every other frame of the machine stays as it was,
    and no other space is touched. *)
Theorem destroy_exacto s own q ticks : wf s own -> hojas_ok s own -> espacio own q -> q <> KERNEL_PML4 s ->
  exists s' c L, destroy_address_space s q ticks = Some (s', c) /\ NoDup L /\ (forall x, x ∈ L <-> se_devuelve s own q x) /\
    hojas c = Z.of_nat (length (filter (fun x => own !! x = None) L)) /\ hojas c + tablas c = Z.of_nat (length L) /\ ya_libres c = 0 /\
    (forall g, used (bitmap (ph s')) g = used (bitmap (ph s)) g && negb (bool_decide (g * PAGE ∈ L))) /\
    free_frames (ph s') = free_frames (ph s) + Z.of_nat (length L) /\
    (forall f a, f ∈ L -> own !! f = None -> f <= a < f + PAGE -> mem s' a = 0) /\
    (forall f a, marco f -> f ∉ L -> f <= a < f + PAGE -> mem s' a = mem s a) /\
    (forall q' va, espacio own q' -> q' <> q -> mmu 4 (mem s') q' va = mmu 4 (mem s) q' va).
Proof.
  intros W H Hq Hk. destruct (destroy_todo s own q ticks W H Hq Hk) as (s' & c & L & E & HL & Hnd & Hin & _ & _ & Hm).
  exists s', c, L. destruct HL as [_ _ _ Hu _ Hf Hh Ht Hl Hz Hb]. cbn [fst snd] in *.
  split; [done|]. split; [done|]. split; [done|]. split; [done|]. split; [|split; [done|split; [done|split; [done|split; [done|split; [|done]]]]]].
  - rewrite Hh, Ht, <- Nat2Z.inj_add. by rewrite (filter_reparte (fun f => own !! f = None) L).
  - intros f a Mf Hn. apply Hb; [done|by left].
Qed.

(** ** A machine *)

(** 16 GiB with the first 512 frames taken: the kernel's root in frame 1, the
    table of its identity entry in frame 2, one empty table for each entry of
    its half. *)
Definition palabra_demo (t i : Z) : Z :=
  if t =? 1 then (if i =? 0 then 0x2003 else if 256 <=? i then i * PAGE + 3 else 0)
  else if (t =? 2) && (i =? 0) then 0x83 else 0.
Definition mem_demo (a : Z) : Z := (palabra_demo (a / PAGE) (a mod PAGE / 8) / 256 ^ (a mod 8)) mod 256.
Definition vmm_demo : vmm_st := mkVmm (reserve_range phys_demo 0 (512 * PAGE)) mem_demo 0x1000 0 0x1000 true [].
Definition mitad_demo : list (Z * etiqueta) := (fun i => (i * PAGE, (0x1000, 3, i))) <$> seqZ 256 256.
Definition own_demo : gmap Z etiqueta := <[0x1000 := (0x1000, 4, 0)]> (<[0x2000 := (0x1000, 3, 0)]> (list_to_map mitad_demo)).

Lemma palabra_demo_eq t i : 0 <= t -> ranura i -> palabra mem_demo (t * PAGE) i = palabra_demo t i.
Proof.
  intros Ht Hi. assert (Hb : forall k, 0 <= k < 8 -> mem_demo (t * PAGE + 8 * i + k) = (palabra_demo t i / 256 ^ k) mod 256).
  { intros k Hk. unfold mem_demo. unfold ranura, PAGE in *. replace ((t * 4096 + 8 * i + k) / 4096) with t by lia.
    replace ((t * 4096 + 8 * i + k) mod 4096 / 8) with i by lia. by replace ((t * 4096 + 8 * i + k) mod 8) with k by lia. }
  assert (Hw : is_u64 (palabra_demo t i)).
  { unfold palabra_demo, is_u64, ranura, PAGE in *. repeat case_match; lia. }
  unfold palabra. rewrite <- (of_le_le 8 (palabra_demo t i)) by done. f_equal. apply list_eq. intros k.
  rewrite list_lookup_fmap. destruct (decide (k < 8)%nat) as [Hk|Hk].
  - rewrite (proj2 (lookup_seqZ _ _ k (t * PAGE + 8 * i + Z.of_nat k))) by lia. cbn [fmap option_fmap option_map]. rewrite Hb by lia.
    generalize (palabra_demo t i). intros z. by rewrite le_lookup by done.
  - rewrite !lookup_ge_None_2; [done|by rewrite length_le; lia|by rewrite length_seqZ; lia].
Qed.

Lemma own_demo_lookup p x : own_demo !! p = Some x <->
  (p = 0x1000 /\ x = (0x1000, 4, 0)) \/ (p = 0x2000 /\ x = (0x1000, 3, 0)) \/ exists i, 256 <= i < 512 /\ p = i * PAGE /\ x = (0x1000, 3, i).
Proof.
  assert (Hm : (list_to_map mitad_demo : gmap Z etiqueta) !! p = Some x <-> exists i, 256 <= i < 512 /\ p = i * PAGE /\ x = (0x1000, 3, i)).
  { rewrite <- elem_of_list_to_map.
    - unfold mitad_demo. rewrite list_elem_of_fmap. split.
      + intros (i & E & Hi%elem_of_seqZ). injection E as -> ->. exists i. split; [lia|done].
      + intros (i & Hi & -> & ->). exists i. split; [done|]. apply elem_of_seqZ. lia.
    - unfold mitad_demo. rewrite <- list_fmap_compose. apply NoDup_fmap_2; [|apply NoDup_seqZ].
      intros i j E. cbn in E. unfold PAGE in E. lia. }
  unfold own_demo. rewrite !lookup_insert_Some, Hm. unfold PAGE in *. split.
  - intros [[-> ->]|[N [[-> ->]|[N' H]]]]; tauto.
  - intros [[-> ->]|[[-> ->]|(i & Hi & -> & ->)]]; [by left|by right; split; [|left]|].
    right. split; [lia|]. right. split; [lia|]. by exists i.
Qed.

Lemma own_demo_palabra p x i : own_demo !! p = Some x -> ranura i -> palabra mem_demo p i = palabra_demo (p / PAGE) i.
Proof.
  intros Hp Hi. assert (exists t, 0 <= t /\ p = t * PAGE) as (t & Ht & ->).
  { apply own_demo_lookup in Hp as [[-> _]|[[-> _]|(j & Hj & -> & _)]]; [by exists 1|by exists 2|exists j; split; [lia|done]]. }
  rewrite palabra_demo_eq by done. by rewrite Z.div_mul.
Qed.

#[local] Opaque reserve_range.

Lemma phys_demo_reserva : phys_ok (ph vmm_demo) /\ forall g, 0 <= g < 512 -> used (bitmap (ph vmm_demo)) g = true.
Proof.
  destruct (reserve_range_spec phys_demo 0 (512 * PAGE)) as (H1 & H2 & H3).
  { destruct phys_demo_ok. by split. }
  { unfold entra, PAGE. lia. }
  unfold vmm_demo. cbn [ph]. destruct H1 as [W1 F1]. split.
  - split; [exact W1|exact F1|]. rewrite H2. apply titular_init_ok.
  - intros g Hg. clear - Hg H3. rewrite H3 by (clear - Hg; rewrite MARCOS_eq; lia). clear - Hg. unfold toca, PAGE.
    by rewrite !(proj2 (Z.ltb_lt _ _)) by lia.
Qed.

Ltac own_demo_casos H := apply own_demo_lookup in H as [[-> H]|[[-> H]|(? & ? & -> & H)]]; injection H as -> -> ->.

Lemma own_demo_K : own_demo !! 0x1000 = Some (0x1000, 4, 0).
Proof. apply own_demo_lookup. by left. Qed.
Lemma own_demo_pdpt : own_demo !! 0x2000 = Some (0x1000, 3, 0).
Proof. apply own_demo_lookup. right. by left. Qed.

Lemma own_demo_mitad i : 256 <= i < 512 -> own_demo !! (i * PAGE) = Some (0x1000, 3, i).
Proof. intros Hi. apply own_demo_lookup. right; right. exists i. by split. Qed.
Lemma own_demo_nivel p r l pre : own_demo !! p = Some (r, l, pre) -> r = 0x1000 /\ 3 <= l.
Proof. intros [[_ E]|[[_ E]|(j & _ & _ & E)]]%own_demo_lookup; injection E as -> -> _; lia. Qed.
#[local] Opaque own_demo.

Lemma entrada_demo i : 256 <= i < 512 -> palabra_demo 1 i = Z.lor (Z.land (i * PAGE) ADDR_MASK) 3 /\ marco (i * PAGE).
Proof.
  intros Hi. assert (M : marco (i * PAGE)) by (unfold marco, PHYSMAP_SIZE, PAGE; lia). split; [|done].
  unfold palabra_demo. cbn [Z.eqb Pos.eqb]. destruct (Z.eqb_spec i 0); [lia|]. destruct (Z.leb_spec 256 i); [|lia].
  rewrite mask_marco by done. unfold PAGE. change 4096 with (2 ^ 12).
  assert (E : Z.land (i * 2 ^ 12) 3 = 0).
  { apply Z.bits_inj'. intros k Hk. rewrite <- Z.shiftl_mul_pow2, Z.land_spec, Z.shiftl_spec, Z.bits_0 by lia.
    destruct (decide (k < 12)); [by rewrite (Z.testbit_neg_r i) by lia|].
    change 3 with (Z.ones 2). rewrite Z.ones_spec_high by lia. apply andb_false_r. }
  by rewrite <- (Z.lxor_lor _ 3 E), <- Z.add_nocarry_lxor.
Qed.

Lemma presentes_demo i : ranura i -> tiene (palabra_demo 1 i) PTE_PRESENT = bool_decide (i = 0 \/ 256 <= i).
Proof.
  intros Hi. destruct (decide (256 <= i)) as [H|H].
  - unfold ranura in Hi. destruct (entrada_demo i) as [-> M]; [lia|]. unfold PTE_PRESENT. rewrite tiene_or by done.
    by rewrite bool_decide_eq_true_2 by tauto.
  - unfold palabra_demo. cbn [Z.eqb Pos.eqb]. destruct (Z.eqb_spec i 0) as [->|N]; [done|]. destruct (Z.leb_spec 256 i); [done|].
    rewrite bool_decide_eq_false_2 by tauto. done.
Qed.

Lemma vmm_demo_wf : wf vmm_demo own_demo.
Proof.
  assert (PK : forall i, ranura i -> palabra mem_demo 0x1000 i = palabra_demo 1 i) by (intros i Hi; exact (own_demo_palabra _ _ i own_demo_K Hi)).
  split; change (KERNEL_PML4 vmm_demo) with 0x1000; change (mem vmm_demo) with mem_demo.
  - exact (proj1 phys_demo_reserva).
  - intros a. unfold mem_demo. apply Z.mod_pos_bound. lia.
  - exact (proj2 phys_demo_reserva 0 ltac:(lia)).
  - exact own_demo_K.
  - intros p [[r l] pre] H. unfold marco, PHYSMAP_SIZE. own_demo_casos H; (split; [unfold PAGE in *; lia|]); apply (proj2 phys_demo_reserva); unfold PAGE in *; lia.
  - intros p r l pre H. own_demo_casos H; (split; [lia|split; [exact own_demo_K|lia]]).
  - intros p q [[r l] pre] H1 H2. own_demo_casos H1; apply own_demo_lookup in H2 as [[-> H2]|[[-> H2]|(j & Hj & -> & H2)]];
      first [reflexivity|discriminate H2|injection H2; intros; lia|injection H2 as ->; reflexivity].
  - intros p r l pre i H Hl Hi. rewrite (own_demo_palabra p _ i H Hi). own_demo_casos H.
    + change (0x1000 / PAGE) with 1. rewrite presentes_demo by done. intros [->|Hi2]%bool_decide_eq_true; [done|].
      unfold ranura in Hi. destruct (entrada_demo i) as [-> M]; [lia|]. unfold PTE_HUGE. rewrite tiene_or by done. split; [done|].
      intros _. rewrite mask_or by done. rewrite own_demo_mitad by lia. unfold hija. destruct (comparte 4 0 i); reflexivity.
    + change (0x2000 / PAGE) with 2. unfold palabra_demo. cbn [Z.eqb Pos.eqb andb]. by destruct (Z.eqb_spec i 0) as [->|].
    + rewrite Z.div_mul by done. unfold palabra_demo. rewrite !(proj2 (Z.eqb_neq _ _)) by lia. done.
  - intros p r l pre [H _]%own_demo_nivel Hr. destruct Hr. exact H.
  - intros q r l pre H Hl. exists 0x1000. own_demo_casos H; [lia| |].
    + split; [exact own_demo_K|]. change (0 / 512) with 0. change (0 mod 512) with 0. by rewrite PK.
    + rename x into i. assert (i / 512 = 0 /\ i mod 512 = i) as [E1 E2] by lia. rewrite E1, E2.
      split; [exact own_demo_K|]. rewrite PK by (unfold ranura; lia).
      destruct (entrada_demo i) as [-> M]; [lia|]. unfold PTE_PRESENT, PTE_HUGE. rewrite !tiene_or by done. by rewrite mask_or.
  - intros r i Hr Hi. destruct (own_demo_nivel _ _ _ _ Hr) as [-> _]. clear Hr.
    split; [done|]. rewrite PK by (unfold ranura; lia). rewrite presentes_demo by (unfold ranura; lia). by rewrite bool_decide_eq_true_2 by lia.
  - intros r Hr. destruct (own_demo_nivel _ _ _ _ Hr) as [-> _]. clear Hr.
    rewrite PK by done. change (Z.land (palabra_demo 1 0) ADDR_MASK) with 0x2000. cbv zeta.
    rewrite (own_demo_palabra _ _ 0 own_demo_pdpt) by done. done.
Qed.

Definition vida_demo : vida := mkVida vmm_demo ∅ ∅.

Lemma sin_hojas_demo r pre p i f : ~ hoja_propia vmm_demo own_demo r pre p i f.
Proof. intros ([_ H]%own_demo_nivel & _). lia. Qed.

Lemma ninguno {A} `{Countable A} (x : A) (P : Prop) : x ∈ (∅ : gset A) -> P.
Proof. intros []%not_elem_of_empty. Qed.

Lemma vida_demo_vale : vale vida_demo own_demo.
Proof.
  split; cbn [st vivos sueltos vida_demo].
  - exact vmm_demo_wf.
  - split; [by intros r pre p i f H%sin_hojas_demo|]. by intros r1 pre1 p1 i1 r2 pre2 p2 i2 f H%sin_hojas_demo.
  - intros p r l pre i [H _]%own_demo_nivel Hr. destruct Hr. exact H.
  - intros _ p r pre i [_ H]%own_demo_nivel. lia.
  - split; change (KERNEL_PML4 vmm_demo) with 0x1000; change (mem vmm_demo) with mem_demo.
    + intros i Hi. rewrite (own_demo_palabra _ _ i own_demo_K) by (unfold ranura; lia). change (0x1000 / PAGE) with 1.
      destruct (entrada_demo i) as [-> M]; [lia|]. unfold PTE_USER. by rewrite tiene_or.
    + rewrite (own_demo_palabra _ _ 0 own_demo_K) by done. change (Z.land (palabra_demo (0x1000 / PAGE) 0) ADDR_MASK) with 0x2000.
      by rewrite (own_demo_palabra _ _ 0 own_demo_pdpt) by done.
  - intros q. apply ninguno.
  - intros f. apply ninguno.
Qed.

(** ** A run of it *)

Lemma parte_Some {A B} (o : option (A * B)) a r : snd <$> o = Some r -> o = Some (default a (fst <$> o), r).
Proof. destruct o as [[x y]|]; [|done]. cbn. by intros [= ->]. Qed.

Lemma parte_igual {A B} (a a' : A) (b b' : B) : Some (a, b) = Some (a', b') -> b = b'.
Proof. congruence. Qed.

(** A frame is taken, a space created, the frame mapped in it as data. *)
Definition q_demo : Z := 0x201000.
Definition f_demo : Z := 0x200000.
Definition vida_1 : vida := mkVida (with_ph vmm_demo (fst (alloc_frame (ph vmm_demo)))) ∅ ({[f_demo]} ∪ ∅).
Definition vida_2 : vida :=
  mkVida (default vmm_demo (fst <$> new_address_space (st vida_1) 0)) ({[q_demo]} ∪ vivos vida_1) (sueltos vida_1).
Definition mapea_demo := mapea_propia (st vida_2) q_demo USER_IMAGE_BASE f_demo (Imagen Datos).
Definition vida_3 : vida := mkVida (default vmm_demo (fst <$> mapea_demo)) (vivos vida_2) (sueltos vida_2 ∖ {[f_demo]}).

Lemma corrida_demo : snd (alloc_frame (ph vmm_demo)) = Some f_demo /\ snd <$> new_address_space (st vida_1) 0 = Some (Some q_demo) /\
  snd <$> mapea_demo = Some (Ok tt) /\ es_propia (mem (st vida_3)) q_demo USER_IMAGE_BASE = true /\
  destino (mem (st vida_3)) q_demo USER_IMAGE_BASE = Some f_demo /\ nx_disponible (st vida_2) = true /\ KERNEL_PML4 (st vida_2) = 0x1000 /\
  snd <$> destroy_address_space (st vida_3) q_demo 0 = Some (mkCuenta 1 4 0).
Proof. by vm_compute. Qed.

Lemma corrida_1 : rtc (paso 0) vida_demo vida_2.
Proof.
  destruct corrida_demo as (E1 & E2 & _). apply (rtc_l _ _ vida_1).
  - apply (PToma 0 vida_demo). rewrite <- E1. apply surjective_pairing.
  - apply rtc_once. apply (PNuevo 0 vida_1). exact (parte_Some _ vmm_demo _ E2).
Qed.

Lemma corrida_mapea : mapea_demo = Some (st vida_3, Ok tt).
Proof. destruct corrida_demo as (_ & _ & E & _). exact (parte_Some _ vmm_demo _ E). Qed.

Lemma corrida_3 : rtc (paso 0) vida_demo vida_3.
Proof.
  eapply rtc_r; [exact corrida_1|]. apply (PPropia 0 vida_2 q_demo USER_IMAGE_BASE f_demo (Imagen Datos) _ (Ok tt)).
  - apply elem_of_union_l, elem_of_singleton. reflexivity.
  - apply elem_of_union_l, elem_of_singleton. reflexivity.
  - reflexivity.
  - exact corrida_mapea.
Qed.

Lemma q_demo_vivo : q_demo ∈ vivos vida_3.
Proof. apply elem_of_union_l, elem_of_singleton. reflexivity. Qed.

Lemma espacios_aislados_witness :
  q_demo ∈ vivos vida_3 /\ destino (mem (st vida_3)) q_demo USER_IMAGE_BASE = Some f_demo /\
  used (bitmap (ph (st vida_3))) (f_demo / PAGE) = true /\ f_demo / PAGE * PAGE ∉ sueltos vida_3.
Proof.
  destruct corrida_demo as (_ & _ & _ & E4 & E5 & _). split; [exact q_demo_vivo|]. split; [exact E5|].
  destruct (espacios_aislados 0 vida_demo own_demo vida_3 vida_demo_vale corrida_3) as [_ H].
  destruct (H q_demo USER_IMAGE_BASE f_demo q_demo_vivo eq_refl E4 E5) as (H1 & H2 & _). exact (conj H1 H2).
Defined.

(** What is known of the state before and after the page is mapped. *)
Lemma vida_2_vale : exists own, vale vida_2 own.
Proof. exact (pasos_vale 0 vida_demo own_demo vida_2 vida_demo_vale corrida_1). Qed.
Lemma vida_3_vale : exists own, vale vida_3 own.
Proof. exact (pasos_vale 0 vida_demo own_demo vida_3 vida_demo_vale corrida_3). Qed.

Lemma map_page_imagen_spec_witness : exists own, wf (st vida_2) own /\
  exists s' p, map_page_imagen (st vida_2) q_demo USER_IMAGE_BASE f_demo Datos = Some (s', Ok tt) /\
    mmu 4 (mem s') q_demo USER_IMAGE_BASE = Some p /\ escribible p = true /\ ejecutable p = false.
Proof.
  destruct vida_2_vale as [own V]. exists own. destruct (va_vivos _ _ V q_demo q_demo_vivo) as [He Hk].
  split; [exact (va_wf _ _ V)|]. destruct corrida_demo as (_ & _ & _ & _ & _ & E6 & _).
  assert (Mf : marco f_demo) by (vm_compute; repeat split; discriminate).
  destruct (map_page_imagen_spec (st vida_2) own q_demo USER_IMAGE_BASE f_demo Datos (va_wf _ _ V) (va_medios _ _ V) He Mf)
    as (s' & r & E & Hr).
  pose proof (parte_igual _ _ _ _ (eq_trans (eq_sym E) corrida_mapea)) as Er. subst r.
  destruct Hr as (_ & (e4 & e3 & e2 & e & Hp & _ & _ & _ & _ & _ & Hd) & _).
  destruct (Hd eq_refl Hk) as (_ & Hw & Hx). exists s', [e4; e3; e2; e].
  exact (conj E (conj Hp (conj Hw (eq_trans Hx (f_equal negb E6))))).
Defined.

Lemma fisica_exacta_mmu_witness : fisica_exacta vmm_demo 0x1000 0x12345678 = Some (destino mem_demo 0x1000 0x12345678) /\
  destino mem_demo 0x1000 0x12345678 = Some 0x12345678.
Proof.
  split; [|reflexivity]. destruct (fisica_exacta_mmu vmm_demo own_demo 0x1000 0x12345678 vmm_demo_wf own_demo_K ltac:(lia)) as [H _].
  exact H.
Defined.

Lemma destroy_exacto_witness : exists s' c, destroy_address_space (st vida_3) q_demo 0 = Some (s', c) /\ c = mkCuenta 1 4 0 /\
  free_frames (ph s') = free_frames (ph (st vida_3)) + 5.
Proof.
  destruct vida_3_vale as [own V]. destruct (va_vivos _ _ V q_demo q_demo_vivo) as [He Hk].
  destruct (destroy_exacto (st vida_3) own q_demo 0 (va_wf _ _ V) (va_hojas _ _ V) He Hk)
    as (s' & c & L & E & _ & _ & _ & HL & _ & _ & HF & _).
  exists s', c. split; [exact E|]. destruct corrida_demo as (_ & _ & _ & _ & _ & _ & _ & Ec). rewrite E in Ec.
  assert (Hc : c = mkCuenta 1 4 0) by (clear - Ec; cbn in Ec; congruence). clear Ec. subst c. split; [reflexivity|]. rewrite HF, <- HL. reflexivity.
Defined.
