(* ===== verification/Autotest.v ===== *)
(** The start-up test of the address spaces: with frames enough it answers that
    all is well and that no frame was lost, and it leaves the machine as it
    was. Source: src/Ultra_kernel_x86-64/kernel/src/ring0/mm/vmm/roja.rs. *)

From stdpp Require Import gmap.
From S2P Require Import Prelude Titular Phys Vmm Derribo Espacios.

(** Another memory with the same tables. *)
Lemma wf_mem_igual s own m' : wf s own -> mem_ok m' ->
  (forall p x i, own !! p = Some x -> ranura i -> palabra m' p i = palabra (mem s) p i) -> wf (with_mem s m') own.
Proof.
  intros W Hm Hp. pose proof (wf_nucleo _ _ W) as WK. split; cbn [with_mem ph mem KERNEL_PML4]; try apply W; [done| | | |].
  - intros p r l pre i Ho Hl Hi. rewrite (Hp p _ i Ho Hi). by apply W.
  - intros q r l pre Ho Hl. destruct (wf_enlazada _ _ W _ _ _ _ Ho Hl) as (p & Hp1 & Hp2). exists p. split; [done|].
    rewrite (Hp p _ _ Hp1); [done|]. unfold ranura. apply Z.mod_pos_bound. lia.
  - intros r i Hr Hi. rewrite (Hp r _ i Hr), (Hp _ _ i WK) by (unfold ranura; lia). by apply W.
  - intros r Hr. rewrite (Hp r _ 0 Hr), (Hp _ _ 0 WK) by done.
    rewrite (Hp _ _ 0 (pd_identidad s own W r Hr)), (Hp _ _ 0 (pd_identidad s own W _ WK)) by done. by apply W.
Qed.

(** Writing in a frame that is no table. *)
Lemma escribe_dato s own f i e : wf s own -> marco f -> own !! f = None -> ranura i -> is_u64 e ->
  wf (with_mem s (escribe (mem s) f i e)) own /\
  forall p x j, own !! p = Some x -> ranura j -> palabra (escribe (mem s) f i e) p j = palabra (mem s) p j.
Proof.
  intros W Mf Nf Hi He.
  assert (Hp : forall p x j, own !! p = Some x -> ranura j -> palabra (escribe (mem s) f i e) p j = palabra (mem s) p j).
  { intros p x j Hp Hj. apply palabra_escribe_ne; [done|by apply (wf_marco _ _ W _ _ Hp)|done|done|congruence]. }
  split; [|done]. apply wf_mem_igual; [done| |done]. apply escribe_ok; [apply W|done].
Qed.

(** ** A space that lives for one page *)

Lemma sin_raiz s own q p l pre : wf s own -> own !! q = None -> own !! p <> Some (q, l, pre).
Proof. intros W Nq E. destruct (wf_nivel _ _ W _ _ _ _ E) as (_ & E' & _). unfold espacio in E'. congruence. Qed.

Section Efimero.
Context (s : vmm_st) (own : gmap Z etiqueta) (W : wf s own) (H : hojas_ok s own) (ticks : Z).
Let va : Z := USER_IMAGE_BASE.

Lemma va_partes : idx 4 va = 0 /\ idx 3 va = 1 /\ pref 1 va = 512 /\ pref 2 va = 1 /\ pref 3 va = 0 /\ compartida va = false /\ va mod PAGE = 0.
Proof. done. Qed.

(** [q] and [d] were made by [new_address_space], [t2] and [t1] by the mapping. *)
Context (q d : Z) (own2 : gmap Z etiqueta).
Context (Eown2 : own2 = <[q := (q, 4, 0)]> (<[d := (q, 3, 0)]> own)) (Nq : own !! q = None) (Nd : own !! d = None) (Hqd : q <> d).
Lemma own2_lookup p x : own2 !! p = Some x <-> p = q /\ x = (q, 4, 0) \/ p = d /\ x = (q, 3, 0) \/ own !! p = Some x.
Proof.
  rewrite Eown2, !lookup_insert_Some. split; [intros [[-> ->]|[? [[-> ->]|[? ?]]]]; tauto|].
  intros [[-> ->]|[[-> ->]|Hx]]; [tauto|tauto|]. right; split; [congruence|right; split; [congruence|done]].
Qed.

Context (t2 t1 : Z) (own3 : gmap Z etiqueta) (Hsub : own2 ⊆ own3) (L2 : own3 !! t2 = Some (q, 2, 1)) (L1 : own3 !! t1 = Some (q, 1, 512))
  (Hsolo : forall p, own3 !! p <> None -> own2 !! p <> None \/ p = d \/ p = t2 \/ p = t1).

Lemma own_own3 p x : own !! p = Some x -> own3 !! p = Some x.
Proof. intros E. apply (lookup_weaken _ _ _ _ (proj2 (own2_lookup p x) (or_intror (or_intror E))) Hsub). Qed.

(** The tables of the space are those four. *)
Lemma own3_q p l pre : own3 !! p = Some (q, l, pre) -> p = q \/ p = d \/ p = t2 \/ p = t1.
Proof.
  intros E. destruct (Hsolo p ltac:(congruence)) as [E2|]; [|tauto]. destruct (own2 !! p) as [x|] eqn:Ex; [|done].
  pose proof (lookup_weaken _ _ _ _ Ex Hsub) as Ew. rewrite E in Ew. injection Ew as <-.
  apply own2_lookup in Ex as [[-> _]|[[-> _]|Ex]]; [tauto|tauto|]. by destruct (sin_raiz s own q p l pre W Nq).
Qed.

Lemma own3_fuera p x : own3 !! p = Some x -> own !! p = Some x \/ (own !! p = None /\ exists l pre, x = (q, l, pre) /\ bajo l pre).
Proof.
  intros E. assert (C : own2 !! p <> None \/ p = d \/ p = t2 \/ p = t1) by (apply Hsolo; congruence).
  destruct (own !! p) as [y|] eqn:Ey; [left; apply own_own3 in Ey; congruence|right; split; [done|]].
  destruct (own2 !! p) as [z|] eqn:Ez.
  - pose proof (lookup_weaken _ _ _ _ Ez Hsub) as Ew. rewrite E in Ew. injection Ew as <-. apply own2_lookup in Ez as [[_ ->]|[[_ ->]|Ez]]; [| |congruence].
    + exists 4, 0. split; [done|by left].
    + exists 3, 0. split; [done|right; by left].
  - assert (d2 : own2 !! d = Some (q, 3, 0)) by (apply own2_lookup; tauto).
    destruct C as [?|[->|[->| ->]]]; [done|congruence| |].
    + exists 2, 1. split; [congruence|]. unfold bajo. lia.
    + exists 1, 512. split; [congruence|]. unfold bajo. lia.
Qed.

Lemma sin_own3 : sin q own3 = own.
Proof.
  apply map_eq. intros p. destruct (own !! p) as [[[r l] pre]|] eqn:E.
  - apply sin_lookup. split; [by apply own_own3|]. intros ->. by destruct (sin_raiz s own q p l pre W Nq).
  - destruct (sin q own3 !! p) as [[[r l] pre]|] eqn:E3; [|done]. apply sin_lookup in E3 as [E3 Hr].
    destruct (own3_fuera _ _ E3) as [?|(_ & l' & pre' & Ex & _)]; congruence.
Qed.

(** After the page is taken away the space gives back its four tables. *)
Lemma efimero_devuelve s5 x : (forall i, ranura i -> tiene (palabra (mem s5) t1 i) PTE_PRESENT = false) ->
  se_devuelve s5 own3 q x <-> own3 !! x <> None /\ own !! x = None.
Proof.
  intros Hz. split.
  - intros [(l & pre & E & _)|(p & i & pre & (E & Hi & Hp & _) & _)].
    + split; [congruence|]. destruct (own !! x) as [[[r l'] pre']|] eqn:Ex; [|done]. pose proof (own_own3 _ _ Ex) as E'.
      rewrite E in E'. injection E' as <- <- <-. by destruct (sin_raiz s own q x l pre W Nq).
    + destruct (own3_q _ _ _ E) as [->|[->|[->| ->]]].
      * assert (E' : own3 !! q = Some (q, 4, 0)) by (apply (lookup_weaken _ _ _ _ (proj2 (own2_lookup q _) (or_introl (conj eq_refl eq_refl))) Hsub)).
        rewrite E in E'. discriminate E'.
      * assert (E' : own3 !! d = Some (q, 3, 0)).
        { apply (lookup_weaken own2); [|done]. apply own2_lookup. tauto. }
        rewrite E in E'. discriminate E'.
      * rewrite E in L2. discriminate L2.
      * rewrite Hz in Hp by done. discriminate Hp.
  - intros [E N]. destruct (own3 !! x) as [y|] eqn:Ey; [|done]. left.
    destruct (own3_fuera _ _ Ey) as [?|(_ & l & pre & -> & Hb)]; [congruence|]. by exists l, pre.
Qed.
End Efimero.

Lemma libres_igual p p' : phys_ok p -> phys_ok p' -> (forall g, used (bitmap p') g = used (bitmap p) g) -> free_frames p' = free_frames p.
Proof.
  intros [W1 F1 _] [W2 F2 _] Hu. rewrite F1, F2. unfold contar_de_nuevo. apply zsum_ext. intros i _. f_equal.
  apply Z.bits_inj'. intros k Hk. destruct (decide (k < 64)) as [Hlt|Hge].
  - pose proof (Hu (i * 64 + k)) as E. rewrite !used_testbit in E.
    rewrite Z.div_add_l, Z.div_small, Z.add_0_r, Z.add_comm, Z.mod_add, Z.mod_small in E by (clear E; lia). exact E.
  - rewrite <- (Z.mod_small (byte_at (bitmap p') i) (2 ^ 64)), <- (Z.mod_small (byte_at (bitmap p) i) (2 ^ 64)) by (apply W1 || apply W2).
    by rewrite !Z.mod_pow2_bits_high by lia.
Qed.

(** ** The first half: a frame, a space and the page *)

(** What the mapping leaves, with the tables it made. *)
Record mapeado (s own : _) (f q d t2 t1 : Z) (s3 : vmm_st) (own2 own3 : gmap Z etiqueta) : Prop := {
  ma_wf : wf s3 own3;
  ma_own2 : own2 = <[q := (q, 4, 0)]> (<[d := (q, 3, 0)]> own); ma_q : own !! q = None; ma_d : own !! d = None; ma_qd : q <> d;
  ma_sub : own2 ⊆ own3; ma_t2 : own3 !! t2 = Some (q, 2, 1); ma_t1 : own3 !! t1 = Some (q, 1, 512);
  ma_solo : forall p, own3 !! p <> None -> own2 !! p <> None \/ p = d \/ p = t2 \/ p = t1;
  ma_f : marco f /\ own3 !! f = None /\ used (bitmap (ph s)) (f / PAGE) = false;
  ma_K : KERNEL_PML4 s3 = KERNEL_PML4 s;
  ma_used : forall g, used (bitmap (ph s3)) g = true <-> used (bitmap (ph s)) g = true \/ f / PAGE = g \/ own3 !! (g * PAGE) <> None;
  ma_fresca : forall p, own3 !! p <> None -> own !! p = None -> used (bitmap (ph s)) (p / PAGE) = false;
  ma_hojas : forall p r pre i, own !! p = Some (r, 1, pre) -> ranura i -> palabra (mem s3) p i = palabra (mem s) p i;
  ma_nueva : forall i, ranura i -> i <> 0 -> palabra (mem s3) t1 i = 0;
  ma_pagina : exists e4 e3 e2 e, mmu 4 (mem s3) q USER_IMAGE_BASE = Some [e4; e3; e2; e] /\ Z.land e ADDR_MASK = f;
  ma_destino : forall q' va, espacio own q' -> destino (mem s3) q' va = destino (mem s) q' va
}.

Arguments ma_wf {s own f q d t2 t1 s3 own2 own3} _.
Arguments ma_own2 {s own f q d t2 t1 s3 own2 own3} _.
Arguments ma_q {s own f q d t2 t1 s3 own2 own3} _.
Arguments ma_d {s own f q d t2 t1 s3 own2 own3} _.
Arguments ma_qd {s own f q d t2 t1 s3 own2 own3} _.
Arguments ma_sub {s own f q d t2 t1 s3 own2 own3} _.
Arguments ma_t2 {s own f q d t2 t1 s3 own2 own3} _.
Arguments ma_t1 {s own f q d t2 t1 s3 own2 own3} _.
Arguments ma_solo {s own f q d t2 t1 s3 own2 own3} _.
Arguments ma_f {s own f q d t2 t1 s3 own2 own3} _.
Arguments ma_K {s own f q d t2 t1 s3 own2 own3} _.
Arguments ma_used {s own f q d t2 t1 s3 own2 own3} _.
Arguments ma_fresca {s own f q d t2 t1 s3 own2 own3} _.
Arguments ma_hojas {s own f q d t2 t1 s3 own2 own3} _.
Arguments ma_nueva {s own f q d t2 t1 s3 own2 own3} _.
Arguments ma_pagina {s own f q d t2 t1 s3 own2 own3} _.
Arguments ma_destino {s own f q d t2 t1 s3 own2 own3} _.

Section Mapeado.
Context (s : vmm_st) (own : gmap Z etiqueta) (p : phys_st) (f : Z) (s2 : vmm_st) (q d t2 t1 t3 : Z) (s1 s3 : vmm_st) (own2 own3 : gmap Z etiqueta).
Context (W : wf s own) (W1 : wf (with_ph s p) own) (W2 : wf s2 own2) (Mf : marco f) (Uf : used (bitmap (ph s)) (f / PAGE) = false)
  (Us1 : forall g, used (bitmap p) g = (f / PAGE =? g) || used (bitmap (ph s)) g) (Nq : own !! q = None) (Nd : own !! d = None) (Hqd : q <> d)
  (Uq : used (bitmap p) (q / PAGE) = false) (Ud : used (bitmap p) (d / PAGE) = false)
  (Eown2 : own2 = <[q := (q, 4, 0)]> (<[d := (q, 3, 0)]> own))
  (Us2 : forall g, used (bitmap (ph s2)) g = (q / PAGE =? g) || (d / PAGE =? g) || used (bitmap p) g)
  (Hpal : forall p x i, own !! p = Some x -> ranura i -> palabra (mem s2) p i = palabra (mem s) p i)
  (K2 : KERNEL_PML4 s2 = KERNEL_PML4 s) (C : conserva (mid_de true) s2 own2 s1 own3)
  (L1 : own3 !! t1 = Some (q, 1, 512)) (L2 : own3 !! t2 = Some (q, 2, 1)) (L3 : own3 !! t3 = Some (q, 3, 0))
  (Hsolo : forall p, own3 !! p <> None -> own2 !! p <> None \/ p = t3 \/ p = t2 \/ p = t1).
Let e := hoja_de s2 f true true false false true.
Context (b : bool) (Es3 : s3 = con_olvido b USER_IMAGE_BASE (with_mem s1 (escribe (mem s1) t1 0 e))).
Context (e4 e3 e2 : Z) (Em : mmu 4 (mem s3) q USER_IMAGE_BASE = Some [e4; e3; e2; e]).
Context (Hd3 : forall q' va', espacio own2 q' -> q' <> q -> destino (mem s3) q' va' = destino (mem s2) q' va').

Lemma en2 y x : own2 !! y = Some x <-> y = q /\ x = (q, 4, 0) \/ y = d /\ x = (q, 3, 0) \/ own !! y = Some x.
Proof. exact (own2_lookup own q d own2 Eown2 Nq Nd Hqd y x). Qed.

Lemma map_t3 : t3 = d.
Proof.
  apply (wf_iny _ _ (co_wf _ _ _ _ _ C) t3 d _ L3). apply (lookup_weaken own2); [|apply (co_own _ _ _ _ _ C)]. apply en2. tauto.
Qed.

Lemma map_nuevo_t1 : own2 !! t1 = None.
Proof.
  destruct (own2 !! t1) as [y|] eqn:Ey; [|done]. pose proof (lookup_weaken _ _ _ _ Ey (co_own _ _ _ _ _ C)) as Ew. rewrite L1 in Ew.
  injection Ew as <-. apply en2 in Ey as [[_ E]|[[_ E]|E]]; [discriminate E|discriminate E|]. by destruct (sin_raiz s own q t1 1 512 W Nq).
Qed.

Lemma map_f : own3 !! f = None.
Proof.
  apply (crece_fuera _ _ _ _ C f Mf).
  - rewrite Us2, Us1, Z.eqb_refl. apply orb_true_r.
  - destruct (own2 !! f) as [x|] eqn:E; [|done]. apply en2 in E as [[-> _]|[[-> _]|E]].
    + by rewrite Us1, Z.eqb_refl in Uq.
    + by rewrite Us1, Z.eqb_refl in Ud.
    + apply (wf_marco _ _ W) in E as [_ E]. congruence.
Qed.

Lemma map_palabra x r pre i : own3 !! x = Some (r, 1, pre) -> ranura i ->
  palabra (mem s3) x i = if bool_decide ((x, i) = (t1, 0)) then e else if bool_decide (own2 !! x = None) then 0 else palabra (mem s2) x i.
Proof.
  intros Hx Hi. assert (He : is_u64 e) by (apply hoja_u64; destruct Mf; lia).
  rewrite Es3, (esc_palabra s1 own3 (co_wf _ _ _ _ _ C) t1 q 512 0 L1 ltac:(done) e He b USER_IMAGE_BASE x _ i Hx Hi).
  by rewrite (co_hojas _ _ _ _ _ C x r pre i Hx Hi).
Qed.

Lemma es_mapeado : mapeado s own f q d t2 t1 s3 own2 own3.
Proof.
  pose proof (co_wf _ _ _ _ _ C) as W3. assert (He : is_u64 e) by (apply hoja_u64; destruct Mf; lia).
  assert (Eph : ph s3 = ph s1) by (rewrite Es3; by destruct b). split.
  - rewrite Es3. by apply (esc_wf s1 own3 W3 t1 q 512 0 L1).
  - exact Eown2.
  - exact Nq.
  - exact Nd.
  - exact Hqd.
  - apply (co_own _ _ _ _ _ C).
  - exact L2.
  - exact L1.
  - intros x Hx. destruct (Hsolo x Hx) as [?|[->|?]]; [tauto| |tauto]. right; left. apply map_t3.
  - split; [exact Mf|]. split; [apply map_f|exact Uf].
  - destruct (co_resto _ _ _ _ _ C) as (EK & _). rewrite Es3. rewrite <- K2, <- EK. by destruct b.
  - intros g. rewrite Eph, (co_used _ _ _ _ _ C), Us2, Us1. assert (Hin : forall x y, own2 !! x = Some y -> x / PAGE = g -> own3 !! (g * PAGE) <> None).
    { intros x y Hx <-. rewrite marco_page by apply (wf_marco _ _ W2 _ _ Hx).
      by rewrite (lookup_weaken _ _ _ _ Hx (co_own _ _ _ _ _ C)). }
    rewrite !orb_true_iff, !Z.eqb_eq. split; [intros [[[Hx|Hx]|[?|?]]|?]; try tauto|tauto].
    + right; right. apply (Hin q (q, 4, 0)); [|done]. apply en2. tauto.
    + right; right. apply (Hin d (q, 3, 0)); [|done]. apply en2. tauto.
  - intros x Hx No. assert (Hle : forall g, used (bitmap p) g = false -> used (bitmap (ph s)) g = false).
    { intros g. rewrite Us1. by intros [_ ?]%orb_false_iff. }
    destruct (own2 !! x) as [y|] eqn:E2.
    + apply en2 in E2 as [[-> _]|[[-> _]|E]]; [by apply Hle|by apply Hle|congruence].
    + apply Hle. pose proof (co_fresca _ _ _ _ _ C x Hx E2) as Q. rewrite Us2 in Q. by apply orb_false_iff in Q as [_ Q].
  - intros x r pre i Hx Hi. assert (E2 : own2 !! x = Some (r, 1, pre)) by (apply en2; tauto).
    rewrite (map_palabra x r pre i) by (done || exact (lookup_weaken _ _ _ _ E2 (co_own _ _ _ _ _ C))).
    rewrite bool_decide_eq_false_2; [|intros E; injection E as -> _; by rewrite map_nuevo_t1 in E2].
    rewrite bool_decide_eq_false_2 by congruence. by apply (Hpal x (r, 1, pre)).
  - intros i Hi Hi0. rewrite (map_palabra t1 q 512 i L1 Hi), bool_decide_eq_false_2 by congruence.
    by rewrite bool_decide_eq_true_2 by apply map_nuevo_t1.
  - exists e4, e3, e2, e. split; [exact Em|]. destruct (hoja_campos s2 f true true false false true (proj1 Mf)) as (_ & _ & _ & _ & _ & Fm).
    fold e in Fm. rewrite Fm. by apply mask_marco.
  - intros q' va Hq'. assert (E2 : own2 !! q' = Some (q', 4, 0)) by (apply en2; tauto).
    rewrite Hd3; [|done|intros ->; unfold espacio in Hq'; congruence]. unfold destino. by rewrite (mmu_igual s own W).
Qed.
End Mapeado.

Lemma mapea_efimera s own ticks : wf s own -> 6 <= free_frames (ph s) ->
  exists p f s2 q d t2 t1 s3 own2 own3, alloc_frame (ph s) = (p, Some f) /\ new_address_space (with_ph s p) ticks = Some (s2, Some q) /\
    map_page_propia s2 q USER_IMAGE_BASE f true true = Some (s3, Ok tt) /\ mapeado s own f q d t2 t1 s3 own2 own3.
Proof.
  intros W Hf. destruct (alloc_frame (ph s)) as [p [f|]] eqn:Ea.
  2:{ destruct (alloc_None _ _ (wf_phys _ _ W) Ea) as [_ Hall]. destruct (wf_phys _ _ W) as [Hw Hfr _]. rewrite Hfr, contar_todo in Hf by done. lia. }
  destruct (wf_alloc s own p f W Ea) as (W1 & Mf & Uf & Nf & Us1 & F1). exists p, f.
  destruct (new_address_space_spec (with_ph s p) own ticks W1) as (s2 & r & E2 & (K2 & _) & _ & R). cbn [with_ph ph mem KERNEL_PML4] in *.
  destruct r as [q|]; [|destruct R as (_ & R & _); clear - R F1 Hf; lia].
  destruct R as (d & W2 & Nq & Nd & Hqd & Mq & Md & Uq & Ud & Us2 & F2 & Hpal & Hdest & Lq & _ & Zd & Zq).
  set (own2 := <[q := (q, 4, 0)]> (<[d := (q, 3, 0)]> own)) in *.
  assert (Hq2 : espacio own2 q) by (apply lookup_insert_eq).
  assert (Nf2 : own2 !! f = None).
  { unfold own2. rewrite !lookup_insert_ne; [done| |]; intros ->; rewrite Us1, Z.eqb_refl in *; done. }
  destruct (va_partes) as (I4 & I3 & P1 & P2 & P3 & Hc & Ha). destruct Mf as [Mf1 Mf2].
  assert (Hnone : mmu 4 (mem s2) q USER_IMAGE_BASE = None).
  { pose proof (Hdest USER_IMAGE_BASE) as X. rewrite Hc in X. unfold destino in X. by destruct (mmu 4 (mem s2) q USER_IMAGE_BASE). }
  destruct (map_spec s2 own2 q USER_IMAGE_BASE f true true (negb true) false true W2 Hq2 ltac:(lia)) as (s3 & r & o3 & E3 & _ & _ & _ & _ & R3).
  destruct (map_forma s2 own2 q USER_IMAGE_BASE f true true (negb true) false true W2 Hq2 Ha Mf1) as
    [(s1 & own3 & t3 & t2 & t1 & E1 & C & _ & _ & _ & L1 & L3 & L2 & Hsolo)|(s1 & own3 & E1 & C & Hsz & Rs)].
  2:{ exfalso. destruct Rs as [(pp & Ep & _)|Hall]; [congruence|]. pose proof (co_free _ _ _ _ _ C) as Fc.
      destruct (wf_phys _ _ (co_wf _ _ _ _ _ C)) as [Hw Hfr _]. rewrite Hfr, contar_todo in Fc by done. lia. }
  pose proof E1 as E0. rewrite E3 in E1. injection E1 as Es3 ->. destruct R3 as (_ & _ & Hd3 & (e4 & e3 & e2 & Em) & _).
  assert (D1 : dueno (KERNEL_PML4 s2) q 1 USER_IMAGE_BASE = q) by (by rewrite dueno_1, Hc).
  assert (D2 : dueno (KERNEL_PML4 s2) q 2 USER_IMAGE_BASE = q) by done.
  assert (D3 : dueno (KERNEL_PML4 s2) q 3 USER_IMAGE_BASE = q) by done.
  rewrite D1, P1 in L1. rewrite D2, P2 in L2. rewrite D3, P3 in L3.
  exists s2, q, d, t2, t1, s3, own2, own3. split; [done|]. split; [done|]. split; [exact E3|].
  apply (es_mapeado s own p f s2 q d t2 t1 t3 s1 s3 own2 own3 W W2 (conj Mf1 Mf2) Uf Us1 Nq Nd Hqd Uq Ud eq_refl Us2 Hpal K2 C L1 L2 L3 Hsolo _ Es3 e4 e3 e2 Em).
  intros q' va' Hq' Hne. rewrite (Hd3 q' va' Hq'), Hc, (bool_decide_eq_false_2 (q' = q)) by done. by rewrite andb_false_r.
Qed.

(** ** The second half: the page is taken away and the space goes *)

Section Recoge.
Context (s : vmm_st) (own : gmap Z etiqueta) (W : wf s own) (H : hojas_ok s own) (ticks : Z).
Context (f q d t2 t1 : Z) (s3 : vmm_st) (own2 own3 : gmap Z etiqueta) (A : mapeado s own f q d t2 t1 s3 own2 own3).
Let va : Z := USER_IMAGE_BASE.
Let v : Z := 0xB400000000000001.
Let s4 := with_mem s3 (escribe (mem s3) f 0 v).
Let s5 := olvida (with_mem s4 (escribe (mem s4) t1 0 0)) va.

Lemma rec_sub p x : own !! p = Some x -> own3 !! p = Some x.
Proof. exact (own_own3 own q d own2 (ma_own2 A) (ma_q A) (ma_d A) (ma_qd A) own3 (ma_sub A) p x). Qed.
Lemma rec_q : espacio own3 q.
Proof.
  apply (lookup_weaken own2); [|apply (ma_sub A)]. by apply (own2_lookup own q d own2 (ma_own2 A) (ma_q A) (ma_d A) (ma_qd A)); left.
Qed.
Lemma rec_qK : q <> KERNEL_PML4 s3.
Proof. rewrite (ma_K A). intros E. pose proof (wf_nucleo _ _ W) as WK. pose proof (ma_q A) as N. unfold espacio in WK. congruence. Qed.

Lemma rec_s4 : wf s4 own3 /\ forall p x j, own3 !! p = Some x -> ranura j -> palabra (mem s4) p j = palabra (mem s3) p j.
Proof. destruct (ma_f A) as (Mf & Nf & _). by apply escribe_dato; [apply A|..]. Qed.

Lemma rec_traduce : translate s3 q va = Some (Some f).
Proof.
  unfold translate. rewrite (camina_mmu s3 own3 (ma_wf A) q va) by (done || apply rec_q).
  destruct (ma_pagina A) as (e4 & e3 & e2 & e & Em & Ef). unfold va. rewrite Em. by rewrite Ef.
Qed.

Lemma rec_quita : unmap_page s4 q va = Some (s5, Some f).
Proof.
  destruct rec_s4 as [W4 P4]. destruct (ma_pagina A) as (e4 & e3 & e2 & e & Em & Ef).
  assert (Em4 : mmu 4 (mem s4) q va = Some [e4; e3; e2; e]) by (rewrite (mmu_igual s3 own3 (ma_wf A) _ q va rec_q P4); exact Em).
  destruct (unmap_forma s4 own3 q va W4 rec_q) as [(t3' & t2' & t1' & K3 & K2 & K1 & _ & _ & L1 & E)|[_ N]].
  2:{ by destruct (N e4 e3 e2 e). }
  cbv zeta in E. rewrite dueno_1 in L1. change (compartida va) with false in L1. change (pref 1 va) with 512 in L1. change (idx 1 va) with 0 in E.
  assert (t1' = t1) as -> by (apply (wf_iny _ _ W4 _ _ _ L1), (ma_t1 A)).
  rewrite (camino _ _ _ _ _ _ K3 K2 K1) in Em4. change (idx 1 va) with 0 in Em4.
  destruct (tiene (palabra (mem s4) t1 0) PTE_PRESENT) eqn:Ep; [|discriminate Em4].
  assert (Ee : palabra (mem s4) t1 0 = e) by (injection Em4; intros; assumption). rewrite E, Ee, Ef. reflexivity.
Qed.

Lemma rec_s5 : wf s5 own3 /\ (forall p x j, own3 !! p = Some x -> ranura j -> (p, j) <> (t1, 0) -> palabra (mem s5) p j = palabra (mem s3) p j) /\
  palabra (mem s5) t1 0 = 0.
Proof.
  destruct rec_s4 as [W4 P4]. assert (R0 : ranura 0) by done. assert (U0 : is_u64 0) by done. split; [|split].
  - exact (esc_wf s4 own3 W4 t1 q 512 0 (ma_t1 A) R0 0 U0 true va).
  - intros p x j Hp Hj Hne. rewrite <- (P4 p x j Hp Hj). exact (hoja_palabra s4 own3 W4 t1 q 512 0 (ma_t1 A) R0 0 p x j Hp Hj ltac:(congruence)).
  - by apply palabra_escribe.
Qed.

Lemma rec_vacia i : ranura i -> tiene (palabra (mem s5) t1 i) PTE_PRESENT = false.
Proof.
  intros Hi. destruct rec_s5 as (_ & P5 & P0). destruct (decide (i = 0)) as [->|N]; [by rewrite P0|].
  rewrite (P5 t1 _ i (ma_t1 A) Hi) by congruence. by rewrite (ma_nueva A).
Qed.

Lemma rec_hoja r pre p i g : hoja_propia s5 own3 r pre p i g -> hoja_propia s own r pre p i g.
Proof.
  intros (Hp & Hi & P1 & P2 & P3). assert (Hne : p <> t1) by (intros ->; by rewrite rec_vacia in P1).
  destruct (own3_fuera own q d own2 (ma_own2 A) (ma_q A) (ma_d A) (ma_qd A) t2 t1 own3 (ma_sub A) (ma_t2 A) (ma_t1 A) (ma_solo A) p _ Hp) as [Ho|(No & l & pre' & Ex & Hb)].
  - destruct rec_s5 as (_ & P5 & _). rewrite (P5 p _ i Hp Hi), (ma_hojas A p r pre i Ho Hi) in P1, P2, P3 by congruence. done.
  - exfalso. injection Ex as -> <- <-. destruct (own3_q s own W q d own2 (ma_own2 A) (ma_q A) (ma_d A) (ma_qd A) t2 t1 own3 (ma_sub A) (ma_solo A) p 1 pre Hp)
      as [->|[->|[->| ->]]]; [| | |done].
    + rewrite rec_q in Hp. discriminate Hp.
    + assert (E : own3 !! d = Some (q, 3, 0)) by (apply (lookup_weaken own2); [apply (own2_lookup own q d own2 (ma_own2 A) (ma_q A) (ma_d A) (ma_qd A)); tauto|apply (ma_sub A)]).
      rewrite E in Hp. discriminate Hp.
    + rewrite (ma_t2 A) in Hp. discriminate Hp.
Qed.

Lemma rec_hojas_ok : hojas_ok s5 own3.
Proof.
  split.
  - intros r pre p i g Hg%rec_hoja. destruct (ho_marco _ _ H _ _ _ _ _ Hg) as (Mg & Ug & Ng). split; [done|]. split.
    + apply (ma_used A). by left.
    + destruct (own3 !! g) as [x|] eqn:E; [|done]. rewrite (ma_fresca A g) in Ug; [done|congruence|done].
  - intros r1 pre1 p1 i1 r2 pre2 p2 i2 g H1%rec_hoja H2%rec_hoja. by apply (ho_una _ _ H _ _ _ _ _ _ _ _ _ H1 H2).
Qed.

Lemma rec_nada : translate s5 q va = Some None.
Proof.
  destruct rec_s4 as [W4 _]. destruct rec_s5 as [W5 _]. destruct (unmap_spec s4 own3 q va W4 rec_q) as (s' & o & E & _ & _ & _ & _ & _ & D).
  rewrite rec_quita in E. injection E as Es Eo. rewrite <- Es, <- Eo in D. specialize (D q va rec_q).
  rewrite !bool_decide_eq_true_2 in D by done. cbn [andb orb] in D. unfold translate.
  rewrite (camina_mmu s5 own3 W5 q va) by (done || apply rec_q). unfold destino in D. by destruct (mmu 4 (mem s5) q va).
Qed.

(** What is left when the space and the frame have gone. *)
Lemma rec_fin : exists s6 c, destroy_address_space s5 q ticks = Some (s6, c) /\
  let s7 := with_ph s6 (free_frame (ph s6) f ticks) in
  wf s7 own /\ (forall g, used (bitmap (ph s7)) g = used (bitmap (ph s)) g) /\ KERNEL_PML4 s7 = KERNEL_PML4 s /\
  forall q' va', espacio own q' -> destino (mem s7) q' va' = destino (mem s) q' va'.
Proof.
  destruct rec_s5 as (W5 & _). destruct rec_s4 as [W4 P4]. destruct (ma_f A) as (Mf & Nf & Uf).
  destruct (destroy_todo s5 own3 q ticks W5 rec_hojas_ok rec_q rec_qK) as (s6 & c & L & E & HL & _ & Hin & W6 & _ & Hm).
  assert (Hin' : forall x, x ∈ L <-> own3 !! x <> None /\ own !! x = None).
  { intros x. rewrite Hin. exact (efimero_devuelve s own W q d own2 (ma_own2 A) (ma_q A) (ma_d A) (ma_qd A) t2 t1 own3 (ma_sub A) (ma_t2 A) (ma_t1 A) (ma_solo A) s5 x rec_vacia). }
  rewrite (sin_own3 s own W q d own2 (ma_own2 A) (ma_q A) (ma_d A) (ma_qd A) t2 t1 own3 (ma_sub A) (ma_t2 A) (ma_t1 A) (ma_solo A)) in W6.
  assert (Nfo : own !! f = None).
  { destruct (own !! f) as [x|] eqn:Ex; [|done]. apply rec_sub in Ex. congruence. }
  pose proof (li_used _ _ _ _ HL) as U6. cbn [fst] in U6. change (ph s5) with (ph s3) in U6.
  assert (Uf6 : used (bitmap (ph s6)) (f / PAGE) = true).
  { rewrite U6, (proj2 (ma_used A _)) by tauto. rewrite marco_page, bool_decide_eq_false_2; [done| |done]. rewrite Hin'. tauto. }
  destruct (free_data s6 own f ticks W6 Mf Nfo Uf6) as (W7 & U7 & _). exists s6, c. split; [exact E|]. split; [exact W7|].
  split; [|split].
  - intros g. cbn [with_ph ph]. rewrite U7, U6. apply eq_iff_eq_true. rewrite !andb_true_iff, !negb_true_iff, Z.eqb_neq, bool_decide_eq_false, Hin', (ma_used A).
    split.
    + intros (Nfg & [Hu|[?|Ho]] & Nin); [done|done|]. apply (own_used s own g W). tauto.
    + intros Hg. split; [intros <-; congruence|]. split; [by left|]. intros [H1 H2]. pose proof (ma_fresca A _ H1 H2) as X.
      rewrite Z.div_mul in X by done. congruence.
  - destruct (li_resto _ _ _ _ HL) as ((EK & _) & _). cbn [fst] in EK. change (KERNEL_PML4 s5) with (KERNEL_PML4 s3) in EK.
    cbn [with_ph KERNEL_PML4]. rewrite EK. apply (ma_K A).
  - intros q' va' Hq'. assert (Hq3 : espacio own3 q') by (by apply rec_sub). assert (Hne : q' <> q).
    { intros ->. pose proof (ma_q A). unfold espacio in Hq'. congruence. }
    cbn [with_ph mem]. unfold destino at 1. rewrite (Hm q' va' Hq3 Hne). fold (destino (mem s5) q' va').
    destruct (unmap_spec s4 own3 q va W4 rec_q) as (s' & o & E' & _ & _ & _ & _ & _ & D). rewrite rec_quita in E'. injection E' as Es Eo.
    rewrite <- Es in D. rewrite (D q' va' Hq3), (bool_decide_eq_false_2 (q' = q)) by done. change (compartida va) with false.
    rewrite !andb_false_r. rewrite <- (ma_destino A q' va' Hq'). unfold destino. by rewrite (mmu_igual s3 own3 (ma_wf A) _ q' va' Hq3 P4).
Qed.
End Recoge.

(** C28: with six frames free, the start-up test of the address spaces answers that
    everything worked and that no frame was lost, and that is true: the frames
    in use are those there were, the tables are well formed, and every space
    goes where it went. *)
Theorem self_test_bien s own ticks : wf s own -> hojas_ok s own -> 6 <= free_frames (ph s) ->
  exists s', self_test s ticks = Some (s', (true, 0)) /\ wf s' own /\ free_frames (ph s') = free_frames (ph s) /\
    (forall g, used (bitmap (ph s')) g = used (bitmap (ph s)) g) /\
    forall q va, espacio own q -> destino (mem s') q va = destino (mem s) q va.
Proof.
  intros W H Hf. destruct (mapea_efimera s own ticks W Hf) as (p & f & s2 & q & d & t2 & t1 & s3 & own2 & own3 & E1 & E2 & E3 & A).
  destruct (ma_f A) as (Mf & _). destruct (rec_fin s own W H ticks f q d t2 t1 s3 own2 own3 A) as (s6 & c & E6 & W7 & U7 & _ & D7).
  pose proof (libres_igual _ _ (wf_phys _ _ W) (wf_phys _ _ W7) U7) as F7. cbn [with_ph ph] in F7.
  eexists. split; [|split; [exact W7|split; [exact F7|split; [exact U7|exact D7]]]].
  unfold self_test. rewrite E1. cbv zeta. rewrite E2. cbn [mbind option_bind]. rewrite E3. cbn [mbind option_bind].
  rewrite (rec_traduce s own f q d t2 t1 s3 own2 own3 A). cbn [mbind option_bind]. rewrite bool_decide_eq_true_2 by done.
  unfold pon_casilla, casilla. rewrite (proj2 (Z.ltb_lt _ _)) by apply Mf. cbn [mbind option_bind with_mem mem].
  rewrite palabra_escribe by done. rewrite Z.eqb_refl. cbn [mbind option_bind].
  rewrite (rec_quita s own f q d t2 t1 s3 own2 own3 A). cbn [mbind option_bind andb]. rewrite bool_decide_eq_true_2 by done.
  rewrite (rec_nada s own f q d t2 t1 s3 own2 own3 A). cbn [mbind option_bind]. rewrite bool_decide_eq_true_2 by done.
  rewrite E6. cbn [mbind option_bind fst]. unfold stats, saturating_sub. cbn [snd with_ph ph]. rewrite F7, Z.sub_diag. reflexivity.
Qed.

Lemma self_test_bien_witness : exists s', self_test vmm_demo 0 = Some (s', (true, 0)) /\
  free_frames (ph s') = free_frames (ph vmm_demo) /\ free_frames (ph vmm_demo) = MARCOS - 512.
Proof.
  assert (F : free_frames (ph vmm_demo) = MARCOS - 512) by (vm_compute; reflexivity).
  destruct (self_test_bien vmm_demo own_demo 0 vmm_demo_wf (va_hojas _ _ vida_demo_vale)) as (s' & E & _ & E' & _).
  - rewrite F, MARCOS_eq. lia.
  - exists s'. exact (conj E (conj E' F)).
Defined.
