(* ===== verification/Pila.v ===== *)
(** The network stack below TCP: checksums, Ethernet, ARP with its cache, IPv4,
    ICMP echo, UDP and the node that answers.
    Source: src/platform/shared/bmo-pila/src/{lib,suma,ether,arp,ipv4,icmp,udp,nodo}.rs.

    A frame is a list of bytes that comes from outside. Reading past its end, or
    copying into a range that a buffer has not, stops the program: every
    operation answers an option, and [None] is that stop. Inside it is the
    [Result] of the code. A buffer that is written comes back next to the
    result, also when the result is a refusal. [Rechazo::texto] is left out. *)

From S2P Require Import Prelude.

(** * Reading and writing bytes *)

Inductive Rechazo :=
| Corto | Largo | Version | Cabecera | Opciones | Fragmento | Banderas | Suma | Direccion | Tipo
| Protocolo | Puerto | Secuencia | Lleno | Estado | Asa | NoEsParaMi.
#[export] Instance Rechazo_eq_dec : EqDecision Rechazo.
Proof. solve_decision. Defined.

(** What can stop, refuse or answer. *)
Definition duda (A : Type) : Type := option (result A Rechazo).
(** The same with the buffer that was written. *)
Definition obra (A : Type) : Type := option (list Z * result A Rechazo).

Notation "x ←! c ; k" := (match c with None => None | Some (Err e) => Some (Err e) | Some (Ok x) => k end)
  (at level 20, c at level 100, k at level 200) : bmo_scope.

Definition be16 (b : list Z) (i : nat) : option Z :=
  x ← b !! i; y ← b !! S i; Some (x * 256 + y).
Definition be32 (b : list Z) (i : nat) : option Z :=
  x ← be16 b i; y ← be16 b (i + 2); Some (x * 65536 + y).

(** [&b[o..o + n]] and [&b[o..]]. *)
Definition trozo (o n : nat) (b : list Z) : option (list Z) :=
  if (o + n <=? length b)%nat then Some (slice o n b) else None.
Definition resto (o : nat) (b : list Z) : option (list Z) :=
  if (o <=? length b)%nat then Some (drop o b) else None.

(** [dst[o..o + src.len()].copy_from_slice(src)]. *)
Definition poner (o : nat) (src dst : list Z) : option (list Z) :=
  if (o + length src <=? length dst)%nat then Some (put o src dst) else None.
Definition de16 (v : Z) : list Z := [v / 256; v mod 256].
Definition de32 (v : Z) : list Z := de16 (v / 65536) ++ de16 (v mod 65536).
Definition pon16 (o : nat) (v : Z) (dst : list Z) : option (list Z) := poner o (de16 v) dst.
Definition pon32 (o : nat) (v : Z) (dst : list Z) : option (list Z) := poner o (de32 v) dst.

(** [f(&mut dst[o..])] and [f(&mut dst[..n])]. *)
Definition en_resto {A} (o : nat) (f : list Z -> obra A) (dst : list Z) : obra A :=
  d ← resto o dst; r ← f d; Some (take o dst ++ r.1, r.2).
Definition en_trozo {A} (n : nat) (f : list Z -> obra A) (dst : list Z) : obra A :=
  d ← trozo 0 n dst; r ← f d; Some (r.1 ++ drop n dst, r.2).

Definition Mac : Type := list Z.
Definition Ip : Type := list Z.

(** * suma.rs *)

Module Sumas.

Record Suma := mkSuma { acum : Z; impar : option Z }.

Definition nueva : Suma := mkSuma 0 None.

Definition anadir (s : Suma) (v : Z) : Suma :=
  let a := w32 (acum s + v) in mkSuma (w32 (Z.land a 0xFFFF + Z.shiftr a 16)) (impar s).

(** [b.chunks_exact(2)] and its remainder. *)
Fixpoint pares (s : Suma) (b : list Z) : Suma :=
  match b with
  | x :: y :: b => pares (anadir s (x * 256 + y)) b
  | [suelto] => mkSuma (acum s) (Some suelto)
  | [] => s
  end.

Definition bytes (s : Suma) (b : list Z) : Suma :=
  match impar s, b with
  | None, _ => pares s b
  | Some alto, bajo :: r => pares (anadir (mkSuma (acum s) None) (alto * 256 + bajo)) r
  | Some alto, [] => mkSuma (acum s) (Some alto)
  end.

Definition u16 (s : Suma) (v : Z) : Suma := bytes s (de16 v).

Definition cerrar (s : Suma) : Z :=
  let s := match impar s with Some alto => anadir (mkSuma (acum s) None) (alto * 256) | None => s end in
  0xFFFF - w16 (acum s).

Definition de (b : list Z) : Z := cerrar (bytes nueva b).

Definition pseudo (origen destino : Ip) (protocolo largo : Z) : Suma :=
  u16 (u16 (bytes (bytes nueva origen) destino) protocolo) largo.

End Sumas.

(** * ether.rs *)

Module Ether.

Definition CABECERA : nat := 14.
Definition MAX_CARGA : nat := 1500.
Definition MIN_TRAMA : nat := 60.
Definition DIFUSION : Mac := replicate 6 0xFF.
Definition TIPO_IPV4 : Z := 0x0800.
Definition TIPO_ARP : Z := 0x0806.

Definition es_grupo (m : Mac) : bool := Z.odd (default 0 (m !! 0%nat)).

Record Trama := mkTrama { destino : Mac; origen : Mac; tipo : Z; carga : list Z }.

Definition mac (b : list Z) : option Mac := trozo 0 6 b.

Definition leer (b : list Z) : duda Trama :=
  if (length b <? CABECERA)%nat then Some (Err Corto) else
  if (CABECERA + MAX_CARGA <? length b)%nat then Some (Err Largo) else
  d ← trozo 0 6 b; destino ← mac d;
  o ← trozo 6 6 b; origen ← mac o;
  if es_grupo origen || bool_decide (origen = replicate 6 0) then Some (Err Direccion) else
  tipo ← be16 b 12;
  if negb (tipo =? TIPO_IPV4) && negb (tipo =? TIPO_ARP) then Some (Err Tipo) else
  carga ← resto CABECERA b;
  Some (Ok (mkTrama destino origen tipo carga)).

Definition escribir (dst : list Z) (destino origen : Mac) (tipo : Z) : obra nat :=
  if (length dst <? CABECERA)%nat then Some (dst, Err Corto) else
  dst ← poner 0 destino dst; dst ← poner 6 origen dst; dst ← pon16 12 tipo dst;
  Some (dst, Ok CABECERA).

Definition con_relleno (dst : list Z) (largo : nat) : list Z * nat :=
  if (MIN_TRAMA <=? largo)%nat || (length dst <? MIN_TRAMA)%nat then (dst, largo)
  else (put largo (replicate (MIN_TRAMA - largo) 0) dst, MIN_TRAMA).

End Ether.

(** * ipv4.rs *)

Module Ipv4.

Definition CABECERA : nat := 20.
Definition ICMP : Z := 1.
Definition TCP : Z := 6.
Definition UDP : Z := 17.
Definition TTL : Z := 64.
Definition MTU : nat := 1500.

Definition es_difusion (ip : Ip) : bool := bool_decide (ip = replicate 4 255).
Definition es_grupo (ip : Ip) : bool := let x := default 0 (ip !! 0%nat) in (224 <=? x) && (x <=? 239).
Definition origen_imposible (ip : Ip) : bool :=
  let x := default 0 (ip !! 0%nat) in bool_decide (ip = replicate 4 0) || (x =? 127) || (224 <=? x).

Record Paquete := mkPaquete { origen : Ip; destino : Ip; protocolo : Z; ttl : Z; id : Z; carga : list Z }.

Definition leer (b : list Z) : duda Paquete :=
  if (length b <? CABECERA)%nat then Some (Err Corto) else
  b0 ← b !! 0%nat;
  if negb (Z.shiftr b0 4 =? 4) then Some (Err Version) else
  if negb (Z.land b0 0x0F =? 5) then Some (Err Opciones) else
  t ← be16 b 2;
  let total := Z.to_nat t in
  if (total <? CABECERA)%nat then Some (Err Cabecera) else
  if (length b <? total)%nat then Some (Err Corto) else
  banderas ← be16 b 6;
  if negb (Z.land banderas 0x8000 =? 0) then Some (Err Banderas) else
  if negb (Z.land banderas 0x3FFF =? 0) then Some (Err Fragmento) else
  ttl ← b !! 8%nat;
  if ttl =? 0 then Some (Err Cabecera) else
  cab ← trozo 0 CABECERA b;
  if negb (Sumas.de cab =? 0) then Some (Err Suma) else
  origen ← trozo 12 4 b;
  if origen_imposible origen then Some (Err Direccion) else
  destino ← trozo 16 4 b;
  protocolo ← b !! 9%nat;
  id ← be16 b 4;
  carga ← trozo CABECERA (total - CABECERA) b;
  Some (Ok (mkPaquete origen destino protocolo ttl id carga)).

Definition escribir (dst : list Z) (origen destino : Ip) (protocolo : Z) (largo_carga : nat) (id : Z) : obra nat :=
  let total := (CABECERA + largo_carga)%nat in
  if (MTU <? total)%nat then Some (dst, Err Largo) else
  if (length dst <? CABECERA)%nat then Some (dst, Err Corto) else
  en_trozo CABECERA (fun b =>
    b ← poner 0 [0x45] b; b ← poner 1 [0] b;
    b ← pon16 2 (w16 (Z.of_nat total)) b;
    b ← pon16 4 id b;
    b ← pon16 6 0x4000 b;
    b ← poner 8 [TTL] b; b ← poner 9 [protocolo] b;
    b ← pon16 10 0 b;
    b ← poner 12 origen b; b ← poner 16 destino b;
    let s := Sumas.de b in
    b ← pon16 10 s b;
    Some (b, Ok CABECERA)) dst.

End Ipv4.

(** * icmp.rs *)

Module Icmp.

Definition CABECERA : nat := 8.
Definition ECO_RESPUESTA : Z := 0.
Definition ECO_PETICION : Z := 8.

Record Eco := mkEco { tipo : Z; id : Z; secuencia : Z; datos : list Z }.

Definition leer (b : list Z) : duda Eco :=
  if (length b <? CABECERA)%nat then Some (Err Corto) else
  if negb (Sumas.de b =? 0) then Some (Err Suma) else
  t ← b !! 0%nat; c ← b !! 1%nat;
  if (negb (t =? ECO_PETICION) && negb (t =? ECO_RESPUESTA)) || negb (c =? 0) then Some (Err Tipo) else
  id ← be16 b 4; secuencia ← be16 b 6; datos ← resto CABECERA b;
  Some (Ok (mkEco t id secuencia datos)).

Definition escribir (dst : list Z) (tipo id secuencia : Z) (datos : list Z) : obra nat :=
  let n := (CABECERA + length datos)%nat in
  if (length dst <? n)%nat then Some (dst, Err Corto) else
  en_trozo n (fun b =>
    b ← poner 0 [tipo] b; b ← poner 1 [0] b;
    b ← pon16 2 0 b; b ← pon16 4 id b; b ← pon16 6 secuencia b;
    b ← poner CABECERA datos b;
    let s := Sumas.de b in
    b ← pon16 2 s b;
    Some (b, Ok n)) dst.

End Icmp.

(** * udp.rs *)

Module Udp.

Definition CABECERA : nat := 8.
Definition MAX_DATOS : nat := Ipv4.MTU - Ipv4.CABECERA - CABECERA.

Record Datagrama := mkDatagrama { origen : Z; destino : Z; datos : list Z }.

Definition leer (b : list Z) (ip_origen ip_destino : Ip) : duda Datagrama :=
  if (length b <? CABECERA)%nat then Some (Err Corto) else
  l ← be16 b 4;
  let largo := Z.to_nat l in
  if (largo <? CABECERA)%nat then Some (Err Cabecera) else
  if (length b <? largo)%nat then Some (Err Corto) else
  b ← trozo 0 largo b;
  suma ← be16 b 6;
  if suma =? 0 then Some (Err Suma) else
  let s := Sumas.pseudo ip_origen ip_destino Ipv4.UDP (w16 (Z.of_nat largo)) in
  if negb (Sumas.cerrar (Sumas.bytes s b) =? 0) then Some (Err Suma) else
  origen ← be16 b 0; destino ← be16 b 2;
  if (origen =? 0) || (destino =? 0) then Some (Err Puerto) else
  datos ← resto CABECERA b;
  Some (Ok (mkDatagrama origen destino datos)).

Definition escribir (dst : list Z) (ip_origen ip_destino : Ip) (origen destino : Z) (datos : list Z) : obra nat :=
  if (MAX_DATOS <? length datos)%nat then Some (dst, Err Largo) else
  let n := (CABECERA + length datos)%nat in
  if (length dst <? n)%nat then Some (dst, Err Corto) else
  en_trozo n (fun b =>
    b ← pon16 0 origen b; b ← pon16 2 destino b;
    b ← pon16 4 (w16 (Z.of_nat n)) b;
    b ← pon16 6 0 b;
    b ← poner CABECERA datos b;
    let s := Sumas.pseudo ip_origen ip_destino Ipv4.UDP (w16 (Z.of_nat n)) in
    let v := Sumas.cerrar (Sumas.bytes s b) in
    b ← pon16 6 (if v =? 0 then 0xFFFF else v) b;
    Some (b, Ok n)) dst.

End Udp.

(** * arp.rs *)

Module Arp.

Definition LARGO : nat := 28.
Definition FILAS : nat := 16.
Definition PREGUNTAS : nat := 4.
Definition VIDA_MS : Z := 60000.
Definition ESPERA_MS : Z := 3000.
Definition REINTENTO_MS : Z := 1000.

Inductive Op := Pregunta | Respuesta.
#[export] Instance Op_eq_dec : EqDecision Op.
Proof. solve_decision. Defined.

Record Arp := mkArp { op : Op; mac_origen : Mac; ip_origen : Ip; mac_destino : Mac; ip_destino : Ip }.

Definition leer (b : list Z) : duda Arp :=
  if (length b <? LARGO)%nat then Some (Err Corto) else
  h ← be16 b 0; p ← be16 b 2; l4 ← b !! 4%nat; l5 ← b !! 5%nat;
  if negb (h =? 1) || negb (p =? Ether.TIPO_IPV4) || negb (l4 =? 6) || negb (l5 =? 4) then Some (Err Cabecera) else
  o ← be16 b 6;
  op ←! Some (if o =? 1 then Ok Pregunta else if o =? 2 then Ok Respuesta else Err Tipo);
  mac_origen ← trozo 8 6 b; ip_origen ← trozo 14 4 b;
  mac_destino ← trozo 18 6 b; ip_destino ← trozo 24 4 b;
  if Ether.es_grupo mac_origen || bool_decide (mac_origen = replicate 6 0) then Some (Err Direccion) else
  if Ipv4.es_grupo ip_origen || Ipv4.es_difusion ip_origen then Some (Err Direccion) else
  Some (Ok (mkArp op mac_origen ip_origen mac_destino ip_destino)).

Definition escribir (dst : list Z) (a : Arp) : obra nat :=
  if (length dst <? LARGO)%nat then Some (dst, Err Corto) else
  dst ← pon16 0 1 dst; dst ← pon16 2 Ether.TIPO_IPV4 dst;
  dst ← poner 4 [6] dst; dst ← poner 5 [4] dst;
  dst ← pon16 6 (match op a with Pregunta => 1 | Respuesta => 2 end) dst;
  dst ← poner 8 (mac_origen a) dst; dst ← poner 14 (ip_origen a) dst;
  dst ← poner 18 (mac_destino a) dst; dst ← poner 24 (ip_destino a) dst;
  Some (dst, Ok LARGO).

Record Fila := mkFila { f_ip : Ip; f_mac : Mac; visto : Z; f_usada : bool }.
Record Cuestion := mkCuestion { p_ip : Ip; enviada : Z; p_usada : bool }.
Record Cache := mkCache { filas : list Fila; preguntas : list Cuestion }.

Definition nueva : Cache :=
  mkCache (replicate FILAS (mkFila (replicate 4 0) (replicate 6 0) 0 false))
          (replicate PREGUNTAS (mkCuestion (replicate 4 0) 0 false)).

(** [iter().find(p)] keeps the first that passes. *)
Definition buscar (c : Cache) (ip : Ip) (ahora : Z) : option Mac :=
  i ← position (fun f => f_usada f && bool_decide (f_ip f = ip) && (saturating_sub ahora (visto f) <? VIDA_MS)) (filas c);
  f_mac <$> filas c !! i.

Definition preguntar (c : Cache) (ip : Ip) (ahora : Z) : Cache * result bool Rechazo :=
  match position (fun p => p_usada p && bool_decide (p_ip p = ip)) (preguntas c) with
  | Some i =>
      match preguntas c !! i with
      | Some p =>
          if REINTENTO_MS <=? saturating_sub ahora (enviada p)
          then (mkCache (filas c) (<[i := mkCuestion (p_ip p) ahora (p_usada p)]> (preguntas c)), Ok true)
          else (c, Ok false)
      | None => (c, Ok false)
      end
  | None =>
      match position (fun p => negb (p_usada p) || (ESPERA_MS <=? saturating_sub ahora (enviada p))) (preguntas c) with
      | Some i => (mkCache (filas c) (<[i := mkCuestion ip ahora true]> (preguntas c)), Ok true)
      | None => (c, Err Lleno)
      end
  end.

Definition esperada (c : Cache) (ip : Ip) (ahora : Z) : bool :=
  existsb (fun p => p_usada p && bool_decide (p_ip p = ip) && (saturating_sub ahora (enviada p) <? ESPERA_MS)) (preguntas c).

Definition contestada (c : Cache) (ip : Ip) : Cache :=
  mkCache (filas c) ((fun p => if bool_decide (p_ip p = ip) then mkCuestion (p_ip p) (enviada p) false else p) <$> preguntas c).

(** The row seen longest ago, the first of them. *)
Fixpoint viejo_desde (fs : list Fila) (i : nat) (viejo : nat) (v : Z) : nat :=
  match fs with
  | [] => viejo
  | f :: fs => if visto f <? v then viejo_desde fs (S i) i (visto f) else viejo_desde fs (S i) viejo v
  end.
Definition mas_viejo (fs : list Fila) : nat :=
  match fs with [] => O | f :: _ => viejo_desde fs O O (visto f) end.

Definition aprender (c : Cache) (ip : Ip) (mac : Mac) (ahora : Z) : Cache * result unit Rechazo :=
  let esp := esperada c ip ahora in
  match position (fun f => f_usada f && bool_decide (f_ip f = ip)) (filas c) with
  | Some i =>
      match filas c !! i with
      | Some f =>
          if negb (bool_decide (f_mac f = mac)) && negb esp then (c, Err Direccion)
          else (contestada (mkCache (<[i := mkFila (f_ip f) mac ahora (f_usada f)]> (filas c)) (preguntas c)) ip, Ok tt)
      | None => (c, Ok tt)
      end
  | None =>
      if negb esp then (c, Err NoEsParaMi) else
      let i := match position (fun f => negb (f_usada f)) (filas c) with Some i => i | None => mas_viejo (filas c) end in
      (contestada (mkCache (<[i := mkFila ip mac ahora true]> (filas c)) (preguntas c)) ip, Ok tt)
  end.

End Arp.

(** * nodo.rs *)

Module Nodos.

Definition CARGA : nat := Ether.CABECERA + Ipv4.CABECERA.
Definition ECOS_POR_SEGUNDO : Z := 10.

Record Cuentas := mkCuentas {
  tramas : Z; rechazadas : Z; arp_contestadas : Z; ecos_contestados : Z; c_udp : Z; c_tcp : Z
}.

Inductive Hecho :=
| Nada
| Contestar (largo : nat)
| Eco (origen : Ip) (id secuencia : Z)
| Udp (origen : Ip) (datagrama : Udp.Datagrama)
| Tcp (origen destino : Ip) (segmento : list Z).

Record Nodo := mkNodo { mac : Mac; ip : Ip; arp : Arp.Cache; cuentas : Cuentas; n_id : Z; ecos : Z * Z }.

Definition nuevo (m : Mac) (i : Ip) : Nodo := mkNodo m i Arp.nueva (mkCuentas 0 0 0 0 0 0) 0 (0, 0).

Definition con_arp (n : Nodo) (c : Arp.Cache) : Nodo := mkNodo (mac n) (ip n) c (cuentas n) (n_id n) (ecos n).
Definition con_cuentas (n : Nodo) (c : Cuentas) : Nodo := mkNodo (mac n) (ip n) (arp n) c (n_id n) (ecos n).
Definition con_id (n : Nodo) (i : Z) : Nodo := mkNodo (mac n) (ip n) (arp n) (cuentas n) i (ecos n).
Definition con_ecos (n : Nodo) (e : Z * Z) : Nodo := mkNodo (mac n) (ip n) (arp n) (cuentas n) (n_id n) e.

Definition una_trama (c : Cuentas) := mkCuentas (w64 (tramas c + 1)) (rechazadas c) (arp_contestadas c) (ecos_contestados c) (c_udp c) (c_tcp c).
Definition un_rechazo (c : Cuentas) := mkCuentas (tramas c) (w64 (rechazadas c + 1)) (arp_contestadas c) (ecos_contestados c) (c_udp c) (c_tcp c).
Definition un_arp (c : Cuentas) := mkCuentas (tramas c) (rechazadas c) (w64 (arp_contestadas c + 1)) (ecos_contestados c) (c_udp c) (c_tcp c).
Definition un_eco (c : Cuentas) := mkCuentas (tramas c) (rechazadas c) (arp_contestadas c) (w64 (ecos_contestados c + 1)) (c_udp c) (c_tcp c).
Definition un_udp (c : Cuentas) := mkCuentas (tramas c) (rechazadas c) (arp_contestadas c) (ecos_contestados c) (w64 (c_udp c + 1)) (c_tcp c).
Definition un_tcp (c : Cuentas) := mkCuentas (tramas c) (rechazadas c) (arp_contestadas c) (ecos_contestados c) (c_udp c) (w64 (c_tcp c + 1)).

(** A step of the node: it may stop; else the node and the buffer come back with
    the result. *)
Definition paso (A : Type) : Type := option (Nodo * list Z * result A Rechazo).

(** [c?] on a writer, the node as it is. *)
Notation "d '&' x ←% c 'en' n ; k" :=
  (match c with None => None | Some (d, Err e) => Some (n, d, Err e) | Some (d, Ok x) => k end)
  (at level 20, x name, c at level 100, n at level 100, k at level 200) : bmo_scope.

Definition envolver (n : Nodo) (salida : list Z) (mac_destino : Mac) (ip_destino : Ip) (protocolo : Z) (largo : nat) : paso nat :=
  if (length salida <? CARGA + largo)%nat then Some (n, salida, Err Corto) else
  salida & _ ←% Ether.escribir salida mac_destino (mac n) Ether.TIPO_IPV4 en n;
  let n := con_id n (w16 (n_id n + 1)) in
  salida & _ ←% en_resto Ether.CABECERA (fun d => Ipv4.escribir d (ip n) ip_destino protocolo largo (n_id n)) salida en n;
  let '(salida, total) := Ether.con_relleno salida (CARGA + largo) in
  Some (n, salida, Ok total).

Definition atender_arp (n : Nodo) (t : Ether.Trama) (ahora : Z) (salida : list Z) : paso Hecho :=
  match Arp.leer (Ether.carga t) with
  | None => None
  | Some (Err e) => Some (n, salida, Err e)
  | Some (Ok a) =>
      if negb (bool_decide (Arp.mac_origen a = Ether.origen t)) then Some (n, salida, Err Direccion) else
      if negb (bool_decide (Arp.ip_destino a = ip n)) then Some (n, salida, Err NoEsParaMi) else
      match Arp.op a with
      | Arp.Respuesta =>
          match Arp.aprender (arp n) (Arp.ip_origen a) (Arp.mac_origen a) ahora with
          | (c, Err e) => Some (con_arp n c, salida, Err e)
          | (c, Ok _) => Some (con_arp n c, salida, Ok Nada)
          end
      | Arp.Pregunta =>
          let r := Arp.mkArp Arp.Respuesta (mac n) (ip n) (Arp.mac_origen a) (Arp.ip_origen a) in
          salida & l ←% Ether.escribir salida (Arp.mac_origen a) (mac n) Ether.TIPO_ARP en n;
          salida & m ←% en_resto l (fun d => Arp.escribir d r) salida en n;
          let n := con_cuentas n (un_arp (cuentas n)) in
          let '(salida, total) := Ether.con_relleno salida (l + m) in
          Some (n, salida, Ok (Contestar total))
      end
  end.

Definition atender_eco (n : Nodo) (t : Ether.Trama) (p : Ipv4.Paquete) (e : Icmp.Eco) (ahora : Z) (salida : list Z) : paso Hecho :=
  if Icmp.tipo e =? Icmp.ECO_RESPUESTA then Some (n, salida, Ok (Eco (Ipv4.origen p) (Icmp.id e) (Icmp.secuencia e))) else
  let n := if 1000 <=? saturating_sub ahora (ecos n).1 then con_ecos n (ahora, 0) else n in
  if ECOS_POR_SEGUNDO <=? (ecos n).2 then Some (n, salida, Err Lleno) else
  if (length salida <? CARGA)%nat then Some (n, salida, Err Corto) else
  salida & m ←% en_resto CARGA (fun d => Icmp.escribir d Icmp.ECO_RESPUESTA (Icmp.id e) (Icmp.secuencia e) (Icmp.datos e)) salida en n;
  match envolver n salida (Ether.origen t) (Ipv4.origen p) Ipv4.ICMP m with
  | None => None
  | Some (n, salida, Err e) => Some (n, salida, Err e)
  | Some (n, salida, Ok k) =>
      let n := con_ecos n ((ecos n).1, w32 ((ecos n).2 + 1)) in
      Some (con_cuentas n (un_eco (cuentas n)), salida, Ok (Contestar k))
  end.

Definition atender_ip (n : Nodo) (t : Ether.Trama) (ahora : Z) (salida : list Z) : paso Hecho :=
  match Ipv4.leer (Ether.carga t) with
  | None => None
  | Some (Err e) => Some (n, salida, Err e)
  | Some (Ok p) =>
      if negb (bool_decide (Ipv4.destino p = ip n)) then Some (n, salida, Err NoEsParaMi) else
      if negb (bool_decide (Ether.destino t = mac n)) then Some (n, salida, Err Direccion) else
      if Ipv4.protocolo p =? Ipv4.ICMP then
        match Icmp.leer (Ipv4.carga p) with
        | None => None
        | Some (Err e) => Some (n, salida, Err e)
        | Some (Ok e) => atender_eco n t p e ahora salida
        end
      else if Ipv4.protocolo p =? Ipv4.UDP then
        match Udp.leer (Ipv4.carga p) (Ipv4.origen p) (Ipv4.destino p) with
        | None => None
        | Some (Err e) => Some (n, salida, Err e)
        | Some (Ok d) => Some (con_cuentas n (un_udp (cuentas n)), salida, Ok (Udp (Ipv4.origen p) d))
        end
      else if Ipv4.protocolo p =? Ipv4.TCP then
        Some (con_cuentas n (un_tcp (cuentas n)), salida, Ok (Tcp (Ipv4.origen p) (Ipv4.destino p) (Ipv4.carga p)))
      else Some (n, salida, Err Protocolo)
  end.

Definition atender_sin_contar (n : Nodo) (trama : list Z) (ahora : Z) (salida : list Z) : paso Hecho :=
  match Ether.leer trama with
  | None => None
  | Some (Err e) => Some (n, salida, Err e)
  | Some (Ok t) =>
      if negb (bool_decide (Ether.destino t = mac n)) && negb (bool_decide (Ether.destino t = Ether.DIFUSION))
      then Some (n, salida, Err NoEsParaMi) else
      if Ether.tipo t =? Ether.TIPO_ARP then atender_arp n t ahora salida
      else if Ether.tipo t =? Ether.TIPO_IPV4 then atender_ip n t ahora salida
      else Some (n, salida, Err Tipo)
  end.

Definition atender (n : Nodo) (trama : list Z) (ahora : Z) (salida : list Z) : paso Hecho :=
  let n := con_cuentas n (una_trama (cuentas n)) in
  match atender_sin_contar n trama ahora salida with
  | None => None
  | Some (n, salida, Err e) => Some (con_cuentas n (un_rechazo (cuentas n)), salida, Err e)
  | Some (n, salida, Ok h) => Some (n, salida, Ok h)
  end.

Definition preguntar (n : Nodo) (ip_ : Ip) (ahora : Z) (salida : list Z) : paso (option nat) :=
  match Arp.preguntar (arp n) ip_ ahora with
  | (c, Err e) => Some (con_arp n c, salida, Err e)
  | (c, Ok false) => Some (con_arp n c, salida, Ok None)
  | (c, Ok true) =>
      let n := con_arp n c in
      let a := Arp.mkArp Arp.Pregunta (mac n) (ip n) (replicate 6 0) ip_ in
      salida & l ←% Ether.escribir salida Ether.DIFUSION (mac n) Ether.TIPO_ARP en n;
      salida & m ←% en_resto l (fun d => Arp.escribir d a) salida en n;
      let '(salida, total) := Ether.con_relleno salida (l + m) in
      Some (n, salida, Ok (Some total))
  end.

Definition eco (n : Nodo) (salida : list Z) (mac_destino : Mac) (ip_destino : Ip) (id secuencia : Z) (datos : list Z) : paso nat :=
  if (length salida <? CARGA)%nat then Some (n, salida, Err Corto) else
  salida & m ←% en_resto CARGA (fun d => Icmp.escribir d Icmp.ECO_PETICION id secuencia datos) salida en n;
  envolver n salida mac_destino ip_destino Ipv4.ICMP m.

Definition udp (n : Nodo) (salida : list Z) (mac_destino : Mac) (ip_destino : Ip) (origen destino : Z) (datos : list Z) : paso nat :=
  if (length salida <? CARGA)%nat then Some (n, salida, Err Corto) else
  salida & m ←% en_resto CARGA (fun d => Udp.escribir d (ip n) ip_destino origen destino datos) salida en n;
  envolver n salida mac_destino ip_destino Ipv4.UDP m.

End Nodos.

(** * The checksum *)

(** The sum of the 16-bit words of a sequence, and its image in ones' complement. *)
Fixpoint valor (b : list Z) : Z :=
  match b with x :: y :: b => x * 256 + y + valor b | [x] => x * 256 | [] => 0 end.
Definition norma (t : Z) : Z := if t =? 0 then 0 else (t - 1) mod 65535 + 1.

Abbreviation octetos := (Forall is_u8).

(** Two bytes at a time. *)
Lemma pares_ind (P : list Z -> Prop) : P [] -> (forall x, P [x]) -> (forall x y b, P b -> P (x :: y :: b)) -> forall b, P b.
Proof.
  intros H0 H1 H2. fix IH 1. intros [|x [|y b]]; [exact H0|exact (H1 x)|exact (H2 x y b (IH b))].
Qed.

Lemma valor_nonneg b : octetos b -> 0 <= valor b.
Proof.
  induction b as [|x|x y b IH] using pares_ind; [done| |]; intros H; cbn [valor].
  - apply Forall_cons in H as [H _]. unfold is_u8 in H. lia.
  - apply Forall_cons in H as [Hx H]. apply Forall_cons in H as [Hy H]. specialize (IH H). unfold is_u8 in *. lia.
Qed.

Lemma valor_app a b : Nat.even (length a) = true -> valor (a ++ b) = valor a + valor b.
Proof.
  induction a as [|x|x y a IH] using pares_ind; intros H; [done|done|]. cbn [app valor]. rewrite IH by done. lia.
Qed.

Lemma norma_range t : 0 <= t -> 0 <= norma t <= 65535.
Proof. intros H. unfold norma. destruct (Z.eqb_spec t 0); lia. Qed.

Lemma norma_mas t v : 0 <= t -> 0 <= v <= 65535 -> norma (norma t + v) = norma (t + v).
Proof.
  intros Ht Hv. unfold norma. destruct (Z.eqb_spec t 0) as [->|]; [by rewrite !Z.add_0_l|].
  rewrite !(proj2 (Z.eqb_neq _ _)) by lia. f_equal.
  replace ((t - 1) mod 65535 + 1 + v - 1) with ((t - 1) mod 65535 + v) by lia.
  replace (t + v - 1) with (t - 1 + v) by lia. by rewrite Zplus_mod_idemp_l.
Qed.

Lemma anadir_norma t v i : 0 <= t -> 0 <= v <= 65535 -> Sumas.anadir (Sumas.mkSuma (norma t) i) v = Sumas.mkSuma (norma (t + v)) i.
Proof.
  intros Ht Hv. unfold Sumas.anadir. cbn [Sumas.acum Sumas.impar]. f_equal. pose proof (norma_range t Ht) as R.
  unfold w32. rewrite (Z.mod_small (norma t + v)) by lia. change 0xFFFF with (Z.ones 16).
  rewrite Z.land_ones, Z.shiftr_div_pow2 by lia. rewrite <- norma_mas by done. change (2 ^ 16) with 65536.
  generalize dependent (norma t). intros a Ra. unfold norma. destruct (Z.eqb_spec (a + v) 0); lia.
Qed.

Lemma pares_norma b : forall t, 0 <= t -> octetos b -> Nat.even (length b) = true ->
  Sumas.pares (Sumas.mkSuma (norma t) None) b = Sumas.mkSuma (norma (t + valor b)) None.
Proof.
  induction b as [|x|x y b IH] using pares_ind; intros t Ht Hb Hl; [by rewrite Z.add_0_r|done|].
  apply Forall_cons in Hb as [Hx Hb]. apply Forall_cons in Hb as [Hy Hb]. unfold is_u8 in *. cbn [Sumas.pares valor].
  rewrite anadir_norma by lia. rewrite IH by (done || lia). do 2 f_equal. lia.
Qed.

Lemma cerrar_norma b : forall t, 0 <= t -> octetos b ->
  Sumas.cerrar (Sumas.pares (Sumas.mkSuma (norma t) None) b) = 65535 - norma (t + valor b).
Proof.
  induction b as [|x|x y b IH] using pares_ind; intros t Ht Hb.
  - unfold Sumas.cerrar. cbn. pose proof (norma_range t Ht). rewrite Z.add_0_r, w16_small by (unfold is_u16; lia). done.
  - apply Forall_cons in Hb as [Hx _]. unfold is_u8 in Hx. unfold Sumas.cerrar. cbn [Sumas.pares Sumas.impar Sumas.acum].
    rewrite anadir_norma by lia. cbn [Sumas.acum valor]. pose proof (norma_range (t + x * 256) ltac:(lia)).
    by rewrite w16_small by (unfold is_u16; lia).
  - apply Forall_cons in Hb as [Hx Hb]. apply Forall_cons in Hb as [Hy Hb]. unfold is_u8 in *. cbn [Sumas.pares valor].
    rewrite anadir_norma by lia. rewrite IH by (done || lia). do 2 f_equal. lia.
Qed.

Lemma de_norma b : octetos b -> Sumas.de b = 65535 - norma (valor b).
Proof. intros H. exact (cerrar_norma b 0 ltac:(lia) H). Qed.

(** A sum is right when the total is a multiple of 65535 other than zero. *)
Definition cuadra (t : Z) : Prop := 0 < t /\ t mod 65535 = 0.
Lemma norma_cuadra t : 0 <= t -> 65535 - norma t = 0 <-> cuadra t.
Proof. intros H. unfold norma, cuadra. destruct (Z.eqb_spec t 0); lia. Qed.

(** What a writer puts in the field makes it right. *)
Lemma cuadra_cierra t : 0 <= t -> cuadra (t + (65535 - norma t)).
Proof. intros H. unfold norma, cuadra. destruct (Z.eqb_spec t 0); lia. Qed.

(** The pseudo-header. *)
Definition valor_pseudo (o d : Ip) (pr l : Z) : Z := valor o + valor d + pr + l.
Lemma valor_de16 v b : valor (de16 v ++ b) = v + valor b.
Proof. unfold de16. cbn [app valor]. lia. Qed.
Lemma octetos_de16 v : is_u16 v -> octetos (de16 v).
Proof. unfold is_u16, de16, is_u8. intros H. repeat constructor; lia. Qed.

Lemma pseudo_norma o d pr l b : length o = 4%nat -> length d = 4%nat -> octetos o -> octetos d -> is_u16 pr -> is_u16 l -> octetos b ->
  Sumas.cerrar (Sumas.bytes (Sumas.pseudo o d pr l) b) = 65535 - norma (valor_pseudo o d pr l + valor b).
Proof.
  intros Lo Ld Ho Hd Hp Hl Hb. pose proof (valor_nonneg o Ho). pose proof (valor_nonneg d Hd). unfold is_u16 in *.
  assert (E : Sumas.pseudo o d pr l = Sumas.mkSuma (norma (valor_pseudo o d pr l)) None).
  { unfold Sumas.pseudo, Sumas.u16, Sumas.bytes, Sumas.nueva. cbn [Sumas.impar]. change (Sumas.mkSuma 0 None) with (Sumas.mkSuma (norma 0) None).
    rewrite (pares_norma o 0) by (done || by rewrite Lo). cbn [Sumas.impar]. rewrite (pares_norma d) by (done || lia || by rewrite Ld).
    cbn [Sumas.impar]. rewrite (pares_norma (de16 pr)) by (first [done|lia|by apply octetos_de16]). cbn [Sumas.impar].
    rewrite (pares_norma (de16 l)) by (first [done|by apply octetos_de16|unfold de16; cbn [valor]; lia]).
    do 2 f_equal. unfold valor_pseudo, de16. cbn [valor]. lia. }
  rewrite E. unfold Sumas.bytes. cbn [Sumas.impar]. apply cerrar_norma; [unfold valor_pseudo; lia|done].
Qed.

(** * What the writers leave, and what the readers say of it *)

(** A list of a known length, taken apart. *)
Lemma lista_4 (l : list Z) : length l = 4%nat -> exists a b c d, l = [a; b; c; d].
Proof. destruct l as [|a [|b [|c [|d [|]]]]]; try done. intros _. by exists a, b, c, d. Qed.
Lemma lista_6 (l : list Z) : length l = 6%nat -> exists a b c d e f, l = [a; b; c; d; e; f].
Proof. destruct l as [|a [|b [|c [|d [|e [|f [|]]]]]]]; try done. intros _. by exists a, b, c, d, e, f. Qed.

Ltac pela b n :=
  match n with
  | O => idtac
  | S ?n => let x := fresh "x" in destruct b as [|x b]; [cbn [length] in *; lia|]; pela b n
  end.

(** A 16-bit field of a header made of known bytes. *)
Lemma de16_of v : is_u16 v -> Some (v / 256 * 256 + v mod 256) = Some v.
Proof. unfold is_u16. intros H. f_equal. lia. Qed.

Lemma de16_of_eq v : is_u16 v -> v / 256 * 256 + v mod 256 = v.
Proof. unfold is_u16. lia. Qed.

(** ** Ethernet *)

Definition cab_ether (destino origen : Mac) (tipo : Z) : list Z := destino ++ origen ++ de16 tipo.

Lemma ether_escribir_eq dst d o t : length d = 6%nat -> length o = 6%nat -> (14 <= length dst)%nat ->
  Ether.escribir dst d o t = Some (cab_ether d o t ++ drop 14 dst, Ok 14%nat).
Proof.
  intros (a1 & a2 & a3 & a4 & a5 & a6 & ->)%lista_6 (b1 & b2 & b3 & b4 & b5 & b6 & ->)%lista_6 H.
  unfold Ether.escribir. rewrite (proj2 (Nat.ltb_ge _ _)) by done. do 14 (destruct dst as [|? dst]; [cbn [length] in H; lia|]). reflexivity.
Qed.

Definition mac_ok (m : Mac) : Prop := length m = 6%nat /\ octetos m /\ Ether.es_grupo m = false /\ m <> replicate 6 0.

Lemma ether_leer_eq d o t r : length d = 6%nat -> mac_ok o -> t = Ether.TIPO_IPV4 \/ t = Ether.TIPO_ARP -> (length r <= 1500)%nat ->
  Ether.leer (cab_ether d o t ++ r) = Some (Ok (Ether.mkTrama d o t r)).
Proof.
  intros Hd (Ho & _ & Hg & Hz) Ht Hr. unfold Ether.leer, cab_ether.
  assert (Hl : length ((d ++ o ++ de16 t) ++ r) = (14 + length r)%nat) by (rewrite !length_app, Hd, Ho; done).
  rewrite Hl, !(proj2 (Nat.ltb_ge _ _)) by (unfold Ether.CABECERA, Ether.MAX_CARGA; lia).
  apply lista_6 in Hd as (a1 & a2 & a3 & a4 & a5 & a6 & ->). apply lista_6 in Ho as (b1 & b2 & b3 & b4 & b5 & b6 & ->).
  cbn. rewrite Hg, bool_decide_eq_false_2 by exact Hz. cbn. destruct Ht as [-> | ->]; reflexivity.
Qed.

(** ** IPv4 *)

Definition cab_ip (o d : Ip) (pr : Z) (n : nat) (id s : Z) : list Z :=
  [0x45; 0] ++ de16 (Z.of_nat (20 + n)) ++ de16 id ++ de16 0x4000 ++ [64; pr] ++ de16 s ++ o ++ d.
Definition suma_ip (o d : Ip) (pr : Z) (n : nat) (id : Z) : Z := Sumas.de (cab_ip o d pr n id 0).

Lemma ipv4_escribir_eq dst o d pr n id : length o = 4%nat -> length d = 4%nat -> (20 + n <= 1500)%nat -> (20 <= length dst)%nat ->
  Ipv4.escribir dst o d pr n id = Some (cab_ip o d pr n id (suma_ip o d pr n id) ++ drop 20 dst, Ok 20%nat).
Proof.
  intros (a1 & a2 & a3 & a4 & ->)%lista_4 (b1 & b2 & b3 & b4 & ->)%lista_4 Hn H.
  unfold Ipv4.escribir. rewrite !(proj2 (Nat.ltb_ge _ _)) by (unfold Ipv4.MTU, Ipv4.CABECERA; lia).
  rewrite w16_small by (unfold is_u16, Ipv4.CABECERA; lia). change (Ipv4.CABECERA + n)%nat with (20 + n)%nat.
  unfold suma_ip, cab_ip. generalize (Z.of_nat (20 + n)). intros v.
  do 20 (destruct dst as [|? dst]; [cbn [length] in H; lia|]).
  unfold en_trozo, trozo. rewrite (proj2 (Nat.leb_le _ _)) by (cbn [length]; unfold Ipv4.CABECERA; lia). reflexivity.
Qed.

Definition ip_ok (i : Ip) : Prop := length i = 4%nat /\ octetos i /\ Ipv4.origen_imposible i = false.

Lemma cab_ip_octetos o d pr n id s : length o = 4%nat -> length d = 4%nat -> octetos o -> octetos d -> is_u8 pr -> (20 + n <= 1500)%nat -> is_u16 id -> is_u16 s ->
  octetos (cab_ip o d pr n id s) /\ valor (cab_ip o d pr n id s) = valor (cab_ip o d pr n id 0) + s.
Proof.
  intros Lo Ld Ho Hd Hp Hn Hi Hs. split.
  - unfold cab_ip. repeat (apply Forall_app; split); try done; try (by apply octetos_de16);
      [|apply octetos_de16; unfold is_u16; lia|]; unfold is_u8 in *; repeat constructor; lia.
  - apply lista_4 in Lo as (a1 & a2 & a3 & a4 & ->). apply lista_4 in Ld as (b1 & b2 & b3 & b4 & ->).
    unfold cab_ip, de16. cbn [app valor]. lia.
Qed.

Lemma suma_ip_cuadra o d pr n id : length o = 4%nat -> length d = 4%nat -> octetos o -> octetos d -> is_u8 pr -> (20 + n <= 1500)%nat -> is_u16 id ->
  Sumas.de (cab_ip o d pr n id (suma_ip o d pr n id)) = 0 /\ is_u16 (suma_ip o d pr n id).
Proof.
  intros Lo Ld Ho Hd Hp Hn Hi. assert (U0 : is_u16 0) by done.
  destruct (cab_ip_octetos o d pr n id 0 Lo Ld Ho Hd Hp Hn Hi U0) as [H0 _]. pose proof (valor_nonneg _ H0) as V0.
  pose proof (norma_range _ V0) as R. assert (Us : is_u16 (suma_ip o d pr n id)) by (unfold suma_ip; rewrite de_norma by done; unfold is_u16; lia).
  split; [|done]. destruct (cab_ip_octetos o d pr n id _ Lo Ld Ho Hd Hp Hn Hi Us) as [H1 E1].
  rewrite de_norma by done. rewrite E1. unfold suma_ip. rewrite de_norma by done.
  apply norma_cuadra; [lia|]. by apply cuadra_cierra.
Qed.

Lemma ipv4_leer_eq o d pr n id s c r : ip_ok o -> length d = 4%nat -> is_u16 id -> (20 + n <= 1500)%nat -> n = length c ->
  Sumas.de (cab_ip o d pr n id s) = 0 -> Ipv4.leer (cab_ip o d pr n id s ++ c ++ r) = Some (Ok (Ipv4.mkPaquete o d pr 64 id c)).
Proof.
  intros (Lo & _ & Hi) Ld Hid Hn Hc Hs.
  apply lista_4 in Lo as (a1 & a2 & a3 & a4 & ->). apply lista_4 in Ld as (b1 & b2 & b3 & b4 & ->).
  unfold Ipv4.leer.
  assert (Hl : length (cab_ip [a1; a2; a3; a4] [b1; b2; b3; b4] pr n id s ++ c ++ r) = (20 + n + length r)%nat).
  { rewrite !length_app, <- Hc. cbn. lia. }
  assert (Et : be16 (cab_ip [a1; a2; a3; a4] [b1; b2; b3; b4] pr n id s ++ c ++ r) 2 = Some (Z.of_nat (20 + n))).
  { exact (de16_of (Z.of_nat (20 + n)) ltac:(unfold is_u16; lia)). }
  rewrite Hl, (proj2 (Nat.ltb_ge _ _)) by (unfold Ipv4.CABECERA; lia).
  change ((cab_ip [a1; a2; a3; a4] [b1; b2; b3; b4] pr n id s ++ c ++ r) !! 0%nat) with (Some 0x45). cbn [mbind option_bind].
  change (negb (Z.shiftr 69 4 =? 4)) with false. change (negb (Z.land 69 15 =? 5)) with false. cbn iota. rewrite Et. cbn [mbind option_bind].
  rewrite Nat2Z.id, !(proj2 (Nat.ltb_ge _ _)) by (unfold Ipv4.CABECERA; lia).
  change (be16 (cab_ip [a1; a2; a3; a4] [b1; b2; b3; b4] pr n id s ++ c ++ r) 6) with (Some 0x4000). cbn [mbind option_bind].
  change (negb (Z.land 16384 32768 =? 0)) with false. change (negb (Z.land 16384 16383 =? 0)) with false. cbn iota.
  change ((cab_ip [a1; a2; a3; a4] [b1; b2; b3; b4] pr n id s ++ c ++ r) !! 8%nat) with (Some 64). cbn [mbind option_bind].
  change (64 =? 0) with false. cbn iota.
  assert (Ec : trozo 0 Ipv4.CABECERA (cab_ip [a1; a2; a3; a4] [b1; b2; b3; b4] pr n id s ++ c ++ r) = Some (cab_ip [a1; a2; a3; a4] [b1; b2; b3; b4] pr n id s)).
  { unfold trozo. rewrite Hl, (proj2 (Nat.leb_le _ _)) by (unfold Ipv4.CABECERA; lia). reflexivity. }
  rewrite Ec. cbn [mbind option_bind]. rewrite Hs. change (negb (0 =? 0)) with false. cbn iota.
  assert (Eo : trozo 12 4 (cab_ip [a1; a2; a3; a4] [b1; b2; b3; b4] pr n id s ++ c ++ r) = Some [a1; a2; a3; a4]).
  { unfold trozo. rewrite Hl, (proj2 (Nat.leb_le _ _)) by lia. reflexivity. }
  assert (Ed : trozo 16 4 (cab_ip [a1; a2; a3; a4] [b1; b2; b3; b4] pr n id s ++ c ++ r) = Some [b1; b2; b3; b4]).
  { unfold trozo. rewrite Hl, (proj2 (Nat.leb_le _ _)) by lia. reflexivity. }
  rewrite Eo. cbn [mbind option_bind]. rewrite Hi, Ed. cbn [mbind option_bind].
  change ((cab_ip [a1; a2; a3; a4] [b1; b2; b3; b4] pr n id s ++ c ++ r) !! 9%nat) with (Some pr). cbn [mbind option_bind].
  assert (Eid : be16 (cab_ip [a1; a2; a3; a4] [b1; b2; b3; b4] pr n id s ++ c ++ r) 4 = Some id) by exact (de16_of id Hid).
  rewrite Eid. cbn [mbind option_bind].
  assert (Ek : trozo Ipv4.CABECERA (20 + n - Ipv4.CABECERA) (cab_ip [a1; a2; a3; a4] [b1; b2; b3; b4] pr n id s ++ c ++ r) = Some c).
  { unfold trozo. rewrite Hl, (proj2 (Nat.leb_le _ _)) by (unfold Ipv4.CABECERA; lia). unfold slice.
    change (drop Ipv4.CABECERA (cab_ip [a1; a2; a3; a4] [b1; b2; b3; b4] pr n id s ++ c ++ r)) with (c ++ r).
    rewrite take_app_length'; [done|]. unfold Ipv4.CABECERA. lia. }
  by rewrite Ek.
Qed.

(** ** ICMP *)

Definition cab_icmp (t id sec s : Z) : list Z := [t; 0] ++ de16 s ++ de16 id ++ de16 sec.
Definition suma_icmp (t id sec : Z) (datos : list Z) : Z := Sumas.de (cab_icmp t id sec 0 ++ datos).

Lemma put_fin {A} (h old src : list A) : length old = length src -> put (length h) src (h ++ old) = h ++ src.
Proof.
  intros H. unfold put. rewrite take_app_length. rewrite drop_app_ge by lia.
  replace (length h + length src - length h)%nat with (length old) by lia. by rewrite drop_all, app_nil_r.
Qed.

Lemma poner_fin (h old src : list Z) : length old = length src -> poner (length h) src (h ++ old) = Some (h ++ src).
Proof. intros H. unfold poner. rewrite length_app, H, Nat.leb_refl. by rewrite put_fin. Qed.

Lemma icmp_escribir_eq dst t id sec datos : (8 + length datos <= length dst)%nat ->
  Icmp.escribir dst t id sec datos =
    Some ((cab_icmp t id sec (suma_icmp t id sec datos) ++ datos) ++ drop (8 + length datos) dst, Ok (8 + length datos)%nat).
Proof.
  intros H. unfold Icmp.escribir. change (Icmp.CABECERA + length datos)%nat with (8 + length datos)%nat.
  rewrite (proj2 (Nat.ltb_ge _ _)) by done. do 8 (destruct dst as [|? dst]; [cbn [length] in H; lia|]).
  unfold en_trozo, trozo. rewrite (proj2 (Nat.leb_le _ _)) by lia. unfold slice. cbn [mbind option_bind drop take Nat.add].
  set (old := take (length datos) dst). assert (Hold : length old = length datos) by (unfold old; rewrite length_take; cbn [length] in H; lia).
  cbn [pon16 poner de16 length Nat.add Nat.leb put take drop app mbind option_bind Icmp.CABECERA].
  rewrite drop_0. change Icmp.CABECERA with (length (cab_icmp t id sec 0)).
  change (t :: 0 :: _ :: _ :: _ :: _ :: _ :: _ :: old) with (cab_icmp t id sec 0 ++ old).
  rewrite (poner_fin (cab_icmp t id sec 0) old datos Hold). reflexivity.
Qed.

Lemma length_icmp t id sec s (datos : list Z) : length (cab_icmp t id sec s ++ datos) = (8 + length datos)%nat.
Proof. by rewrite length_app. Qed.

Lemma icmp_leer_eq t id sec datos : t = Icmp.ECO_PETICION \/ t = Icmp.ECO_RESPUESTA -> is_u16 id -> is_u16 sec -> octetos datos ->
  Icmp.leer (cab_icmp t id sec (suma_icmp t id sec datos) ++ datos) = Some (Ok (Icmp.mkEco t id sec datos)).
Proof.
  intros Ht Hid Hsec Hd. unfold Icmp.leer. rewrite length_icmp, (proj2 (Nat.ltb_ge _ _)) by (unfold Icmp.CABECERA; lia).
  assert (Ut : is_u8 t) by (destruct Ht as [-> | ->]; done).
  assert (Hc : forall s, is_u16 s -> octetos (cab_icmp t id sec s ++ datos) /\ valor (cab_icmp t id sec s ++ datos) = valor (cab_icmp t id sec 0 ++ datos) + s).
  { intros s Us. split.
    - unfold cab_icmp. repeat (apply Forall_app; split); try done; try (by apply octetos_de16).
      apply Forall_cons; split; [done|]. by apply Forall_singleton.
    - unfold cab_icmp, de16. cbn [app valor]. lia. }
  assert (S0 : Sumas.de (cab_icmp t id sec (suma_icmp t id sec datos) ++ datos) = 0).
  { destruct (Hc 0 ltac:(done)) as [O0 _]. pose proof (valor_nonneg _ O0) as V0. pose proof (norma_range _ V0) as R.
    assert (Es : suma_icmp t id sec datos = 65535 - norma (valor (cab_icmp t id sec 0 ++ datos))) by (by apply de_norma).
    assert (Us : is_u16 (suma_icmp t id sec datos)) by (rewrite Es; unfold is_u16; lia).
    destruct (Hc _ Us) as [O1 E1]. rewrite de_norma by done. rewrite E1, Es. apply norma_cuadra; [lia|]. by apply cuadra_cierra. }
  rewrite S0. cbn -[be16 resto Icmp.ECO_PETICION Icmp.ECO_RESPUESTA].
  replace (negb (t =? Icmp.ECO_PETICION) && negb (t =? Icmp.ECO_RESPUESTA) || false) with false by (by destruct Ht as [-> | ->]).
  unfold be16. cbn. rewrite !de16_of_eq by done. reflexivity.
Qed.

(** ** UDP *)

Definition cab_udp (o d : Z) (n : nat) (s : Z) : list Z := de16 o ++ de16 d ++ de16 (Z.of_nat (8 + n)) ++ de16 s.
Definition suma_udp (io id_ : Ip) (o d : Z) (datos : list Z) : Z :=
  let v := Sumas.cerrar (Sumas.bytes (Sumas.pseudo io id_ Ipv4.UDP (Z.of_nat (8 + length datos))) (cab_udp o d (length datos) 0 ++ datos)) in
  if v =? 0 then 0xFFFF else v.

Lemma udp_escribir_eq dst io id_ o d datos : (length datos <= 1472)%nat -> (8 + length datos <= length dst)%nat ->
  Udp.escribir dst io id_ o d datos =
    Some ((cab_udp o d (length datos) (suma_udp io id_ o d datos) ++ datos) ++ drop (8 + length datos) dst, Ok (8 + length datos)%nat).
Proof.
  intros Hm H. unfold Udp.escribir. change (Udp.CABECERA + length datos)%nat with (8 + length datos)%nat.
  rewrite !(proj2 (Nat.ltb_ge _ _)) by (done || exact Hm). do 8 (destruct dst as [|? dst]; [cbn [length] in H; lia|]).
  rewrite w16_small by (unfold is_u16; lia).
  unfold en_trozo, trozo. rewrite (proj2 (Nat.leb_le _ _)) by lia. unfold slice. cbn [mbind option_bind drop take Nat.add].
  set (old := take (length datos) dst). assert (Hold : length old = length datos) by (unfold old; rewrite length_take; cbn [length] in H; lia).
  unfold suma_udp, cab_udp. change (8 + length datos)%nat with (S (S (S (S (S (S (S (S (length datos))))))))). generalize (Z.of_nat (S (S (S (S (S (S (S (S (length datos)))))))))). intros v.
  cbn [pon16 poner de16 length Nat.add Nat.leb put take drop app mbind option_bind Udp.CABECERA].
  rewrite drop_0. change Udp.CABECERA with (length (de16 o ++ de16 d ++ de16 v ++ de16 0)).
  change (o / 256 :: _ :: _ :: _ :: _ :: _ :: _ :: _ :: old) with ((de16 o ++ de16 d ++ de16 v ++ de16 0) ++ old).
  rewrite (poner_fin (de16 o ++ de16 d ++ de16 v ++ de16 0) old datos Hold). reflexivity.
Qed.

Lemma udp_leer_eq io id_ o d datos : length io = 4%nat -> length id_ = 4%nat -> octetos io -> octetos id_ -> octetos datos ->
  is_u16 o -> is_u16 d -> o <> 0 -> d <> 0 -> (length datos <= 1472)%nat ->
  Udp.leer (cab_udp o d (length datos) (suma_udp io id_ o d datos) ++ datos) io id_ = Some (Ok (Udp.mkDatagrama o d datos)).
Proof.
  intros Li Ld Hi Hd Hda Ho Hde No Nd Hm. set (s := suma_udp io id_ o d datos).
  assert (Ul : is_u16 (Z.of_nat (8 + length datos))) by (unfold is_u16; lia).
  assert (Hc : forall s, is_u16 s -> octetos (cab_udp o d (length datos) s ++ datos) /\
    valor (cab_udp o d (length datos) s ++ datos) = valor (cab_udp o d (length datos) 0 ++ datos) + s).
  { intros x Ux. split.
    - unfold cab_udp. repeat (apply Forall_app; split); try done; by apply octetos_de16.
    - unfold cab_udp, de16. cbn [app valor]. lia. }
  destruct (Hc 0 ltac:(done)) as [O0 _]. pose proof (valor_nonneg _ O0) as V0. pose proof (valor_nonneg _ Hi). pose proof (valor_nonneg _ Hd).
  set (T := valor_pseudo io id_ Ipv4.UDP (Z.of_nat (8 + length datos)) + valor (cab_udp o d (length datos) 0 ++ datos)).
  assert (VT : 0 <= T) by (unfold T, valor_pseudo, Ipv4.UDP; unfold is_u16 in Ul; lia). pose proof (norma_range T VT) as R.
  assert (Es : s = if 65535 - norma T =? 0 then 65535 else 65535 - norma T).
  { unfold s, suma_udp. by rewrite pseudo_norma by done. }
  assert (Us : is_u16 s) by (rewrite Es; unfold is_u16; destruct (Z.eqb_spec (65535 - norma T) 0); lia).
  assert (Ns : (s =? 0) = false) by (rewrite Es; destruct (Z.eqb_spec (65535 - norma T) 0); lia).
  destruct (Hc s Us) as [O1 E1].
  assert (S0 : Sumas.cerrar (Sumas.bytes (Sumas.pseudo io id_ Ipv4.UDP (Z.of_nat (8 + length datos))) (cab_udp o d (length datos) s ++ datos)) = 0).
  { rewrite pseudo_norma by done. rewrite E1. replace (valor_pseudo _ _ _ _ + _) with (T + s) by (unfold T; lia).
    apply norma_cuadra; [unfold is_u16 in Us; lia|]. rewrite Es. pose proof (cuadra_cierra T VT) as C. destruct (Z.eqb_spec (65535 - norma T) 0) as [E|]; [|done].
    rewrite E in C. unfold cuadra in *. lia. }
  unfold Udp.leer. assert (Ll : length (cab_udp o d (length datos) s ++ datos) = (8 + length datos)%nat) by (by rewrite length_app).
  rewrite Ll, (proj2 (Nat.ltb_ge _ _)) by (unfold Udp.CABECERA; lia).
  assert (Et : be16 (cab_udp o d (length datos) s ++ datos) 4 = Some (Z.of_nat (8 + length datos))) by exact (de16_of _ Ul).
  rewrite Et. cbn [mbind option_bind]. rewrite Nat2Z.id, !(proj2 (Nat.ltb_ge _ _)) by (unfold Udp.CABECERA; lia).
  unfold trozo. rewrite Ll, Nat.leb_refl. unfold slice. rewrite drop_0, <- Ll, take_ge by lia. cbn [mbind option_bind]. rewrite Ll.
  assert (E6 : be16 (cab_udp o d (length datos) s ++ datos) 6 = Some s) by exact (de16_of _ Us).
  rewrite E6. cbn [mbind option_bind]. rewrite Ns, w16_small, S0 by done. cbn [Z.eqb negb].
  assert (Eo : be16 (cab_udp o d (length datos) s ++ datos) 0 = Some o) by exact (de16_of _ Ho).
  assert (Ed : be16 (cab_udp o d (length datos) s ++ datos) 2 = Some d) by exact (de16_of _ Hde).
  rewrite Eo, Ed. cbn [mbind option_bind]. rewrite !(proj2 (Z.eqb_neq _ _)) by done. cbn [orb].
  unfold resto. rewrite (proj2 (Nat.leb_le _ _)) by (rewrite Ll; unfold Udp.CABECERA; lia). reflexivity.
Qed.

(** ** ARP *)

Definition cab_arp (a : Arp.Arp) : list Z :=
  de16 1 ++ de16 Ether.TIPO_IPV4 ++ [6; 4] ++ de16 (match Arp.op a with Arp.Pregunta => 1 | Arp.Respuesta => 2 end) ++
  Arp.mac_origen a ++ Arp.ip_origen a ++ Arp.mac_destino a ++ Arp.ip_destino a.

Definition arp_largos (a : Arp.Arp) : Prop :=
  length (Arp.mac_origen a) = 6%nat /\ length (Arp.ip_origen a) = 4%nat /\ length (Arp.mac_destino a) = 6%nat /\ length (Arp.ip_destino a) = 4%nat.

Lemma arp_escribir_eq dst a : arp_largos a -> (28 <= length dst)%nat -> Arp.escribir dst a = Some (cab_arp a ++ drop 28 dst, Ok 28%nat).
Proof.
  destruct a as [op mo io md id_]. intros (Lm & Li & Lm' & Li') H. cbn [Arp.mac_origen Arp.ip_origen Arp.mac_destino Arp.ip_destino] in *.
  apply lista_6 in Lm as (a1 & a2 & a3 & a4 & a5 & a6 & ->). apply lista_4 in Li as (b1 & b2 & b3 & b4 & ->).
  apply lista_6 in Lm' as (c1 & c2 & c3 & c4 & c5 & c6 & ->). apply lista_4 in Li' as (d1 & d2 & d3 & d4 & ->).
  unfold Arp.escribir. rewrite (proj2 (Nat.ltb_ge _ _)) by done. do 28 (destruct dst as [|? dst]; [cbn [length] in H; lia|]). reflexivity.
Qed.

Lemma arp_leer_eq a r : arp_largos a -> mac_ok (Arp.mac_origen a) -> Ipv4.es_grupo (Arp.ip_origen a) = false -> Ipv4.es_difusion (Arp.ip_origen a) = false ->
  Arp.leer (cab_arp a ++ r) = Some (Ok a).
Proof.
  destruct a as [op mo io md id_]. intros (Lm & Li & Lm' & Li') (_ & _ & Hg & Hz) Hi1 Hi2. cbn [Arp.mac_origen Arp.ip_origen Arp.mac_destino Arp.ip_destino] in *.
  apply lista_6 in Lm as (a1 & a2 & a3 & a4 & a5 & a6 & ->). apply lista_4 in Li as (b1 & b2 & b3 & b4 & ->).
  apply lista_6 in Lm' as (c1 & c2 & c3 & c4 & c5 & c6 & ->). apply lista_4 in Li' as (d1 & d2 & d3 & d4 & ->).
  unfold Arp.leer. destruct op; cbn -[Ether.es_grupo Ipv4.es_grupo Ipv4.es_difusion]; rewrite Hg, bool_decide_eq_false_2 by exact Hz; cbn [orb]; by rewrite Hi1, Hi2.
Qed.

(** * The node *)

Definition nodo_ok (n : Nodos.Nodo) : Prop := mac_ok (Nodos.mac n) /\ ip_ok (Nodos.ip n).

Lemma ip_ok_no_grupo i : ip_ok i -> Ipv4.es_grupo i = false /\ Ipv4.es_difusion i = false.
Proof.
  intros (L & _ & H). apply lista_4 in L as (a & b & c & d & ->). unfold Ipv4.origen_imposible, Ipv4.es_grupo, Ipv4.es_difusion in *. cbn in *.
  apply orb_false_iff in H as [_ H%Z.leb_gt]. split; [by rewrite (proj2 (Z.leb_gt _ _)) by done|].
  apply bool_decide_eq_false_2. intros [= -> _ _ _]. lia.
Qed.

Lemma relleno_toma d k : (k <= length d)%nat -> let '(d', t) := Ether.con_relleno d k in
  exists c, take t d' = take k d ++ replicate c 0 /\ (c <= 60 - k)%nat.
Proof.
  intros H. unfold Ether.con_relleno. destruct ((Ether.MIN_TRAMA <=? k)%nat || (length d <? Ether.MIN_TRAMA)%nat) eqn:E.
  - exists O. by rewrite app_nil_r; split; [|lia].
  - apply orb_false_iff in E as [E1%Nat.leb_gt E2%Nat.ltb_ge]. exists (Ether.MIN_TRAMA - k)%nat. split; [|unfold Ether.MIN_TRAMA; lia].
    unfold put. rewrite app_assoc. rewrite take_app_le by (rewrite length_app, length_take, length_replicate; lia).
    rewrite take_ge; [done|]. rewrite length_app, length_take, length_replicate. lia.
Qed.

Section Nodo.
Import Nodos.

Lemma envolver_eq n salida md id_ pr largo : nodo_ok n -> length md = 6%nat -> length id_ = 4%nat -> (20 + largo <= 1500)%nat ->
  (34 + largo <= length salida)%nat ->
  let i := w16 (n_id n + 1) in
  let d := cab_ether md (mac n) Ether.TIPO_IPV4 ++ cab_ip (ip n) id_ pr largo i (suma_ip (ip n) id_ pr largo i) ++ drop 34 salida in
  envolver n salida md id_ pr largo = Some (con_id n i, fst (Ether.con_relleno d (34 + largo)), Ok (snd (Ether.con_relleno d (34 + largo)))) /\
  length d = length salida.
Proof.
  intros [(Lm & _) (Li & _)] Lmd Lid Hn H i d. split.
  2:{ unfold d, cab_ether, cab_ip. rewrite !length_app, length_drop, Lmd, Lm, Li, Lid. cbn [length de16]. lia. }
  unfold envolver. change (CARGA + largo)%nat with (34 + largo)%nat. rewrite (proj2 (Nat.ltb_ge _ _)) by done.
  rewrite (ether_escribir_eq salida md (mac n)) by (done || lia). cbn [n_id con_id ip].
  unfold en_resto, resto. change Ether.CABECERA with 14%nat.
  assert (L14 : length (cab_ether md (mac n) Ether.TIPO_IPV4) = 14%nat) by (unfold cab_ether; rewrite !length_app, Lmd, Lm; done).
  rewrite (proj2 (Nat.leb_le _ _)) by (rewrite length_app, L14; lia). cbn [mbind option_bind].
  rewrite drop_app_length' by done. fold i. rewrite (ipv4_escribir_eq (drop 14 salida)) by (done || (rewrite length_drop; lia)).
  cbn [mbind option_bind fst snd]. rewrite take_app_length' by done. rewrite drop_drop. change (14 + 20)%nat with 34%nat. fold d.
  by destruct (Ether.con_relleno d (34 + largo)).
Qed.

(** What [envolver] puts on the wire, for a body already written. *)
Lemma envolver_trama n cuerpo resto_ salida md id_ pr : nodo_ok n -> length md = 6%nat -> length id_ = 4%nat -> (20 + length cuerpo <= 1500)%nat ->
  length (take 34 salida) = 34%nat -> let buf := take 34 salida ++ cuerpo ++ resto_ in
  let i := w16 (n_id n + 1) in
  exists d t c, envolver n buf md id_ pr (length cuerpo) = Some (con_id n i, d, Ok t) /\
    take t d = cab_ether md (mac n) Ether.TIPO_IPV4 ++ cab_ip (ip n) id_ pr (length cuerpo) i (suma_ip (ip n) id_ pr (length cuerpo) i) ++ cuerpo ++ replicate c 0 /\
    (length cuerpo + c <= 1480)%nat.
Proof.
  intros Hn Lmd Lid Hl L34 buf i. assert (Hb : (34 + length cuerpo <= length buf)%nat) by (unfold buf; rewrite !length_app, L34; lia).
  destruct (envolver_eq n buf md id_ pr (length cuerpo) Hn Lmd Lid Hl Hb) as [E Ld]. fold i in E, Ld. cbv zeta in E, Ld.
  set (d := cab_ether md _ _ ++ _) in *. pose proof (relleno_toma d (34 + length cuerpo) ltac:(lia)) as R.
  destruct (Ether.con_relleno d (34 + length cuerpo)) as [d' t]. destruct R as (c & R & Hc). exists d', t, c. split; [exact E|]. split; [|lia].
  rewrite R. unfold d, buf. rewrite drop_app_length' by done. destruct Hn as [(Lm & _) (Li & _)].
  assert (L1 : length (cab_ether md (mac n) Ether.TIPO_IPV4) = 14%nat) by (unfold cab_ether; rewrite !length_app, Lmd, Lm; done).
  assert (L2 : forall x, length (cab_ip (ip n) id_ pr (length cuerpo) i x) = 20%nat) by (intros x; unfold cab_ip; rewrite !length_app, Li, Lid; done).
  rewrite (app_assoc (cab_ip _ _ _ _ _ _) cuerpo resto_), (app_assoc (cab_ether _ _ _)).
  rewrite take_app_length' by (rewrite !length_app, L1, L2; lia). by rewrite <- !app_assoc.
Qed.

(** A frame of the node's own is read back down to the protocol. *)
Lemma atender_ip_eq n m md pr i cuerpo c : nodo_ok n -> nodo_ok m -> mac m = md -> is_u16 i -> is_u8 pr ->
  (length cuerpo + c <= 1480)%nat ->
  let trama := cab_ether md (mac n) Ether.TIPO_IPV4 ++ cab_ip (ip n) (ip m) pr (length cuerpo) i (suma_ip (ip n) (ip m) pr (length cuerpo) i) ++ cuerpo ++ replicate c 0 in
  exists t p, Ether.leer trama = Some (Ok t) /\ Ether.destino t = mac m /\ Ether.origen t = mac n /\ Ether.tipo t = Ether.TIPO_IPV4 /\
    Ipv4.leer (Ether.carga t) = Some (Ok p) /\ Ipv4.origen p = ip n /\ Ipv4.destino p = ip m /\ Ipv4.protocolo p = pr /\ Ipv4.carga p = cuerpo.
Proof.
  intros [Hmn Hin] [(Lmm & _) (Lim & Oim & _)] Em Hi Hp Hl trama. pose proof Hin as (Lin & Oin & _).
  destruct (suma_ip_cuadra (ip n) (ip m) pr (length cuerpo) i) as [Hs _]; try done; [lia|].
  eexists _, _. split; [apply ether_leer_eq; [congruence|exact Hmn|by left|]|].
  - assert (L2 : forall x, length (cab_ip (ip n) (ip m) pr (length cuerpo) i x) = 20%nat) by (intros x; unfold cab_ip; rewrite !length_app, Lin, Lim; done).
    rewrite !length_app, L2, length_replicate. lia.
  - cbn [Ether.destino Ether.origen Ether.tipo Ether.carga]. do 3 (split; [done|]).
    split; [apply ipv4_leer_eq; try done; lia|]. done.
Qed.
End Nodo.

(** ** From one node to another *)

Section Cable.
Import Nodos.
Context (a b : Nodo) (Ha : nodo_ok a) (Hb : nodo_ok b).

(** The body after the writer, in a buffer with room for the two headers. *)
Lemma cuerpo_escrito (f : list Z -> obra nat) cuerpo salida : (34 + length cuerpo <= length salida)%nat ->
  f (drop 34 salida) = Some (cuerpo ++ drop (length cuerpo) (drop 34 salida), Ok (length cuerpo)) ->
  en_resto 34 f salida = Some (take 34 salida ++ cuerpo ++ drop (length cuerpo) (drop 34 salida), Ok (length cuerpo)) /\
  length (take 34 salida) = 34%nat.
Proof.
  intros H E. unfold en_resto, resto. rewrite (proj2 (Nat.leb_le _ _)) by lia. cbn [mbind option_bind]. rewrite E.
  cbn [mbind option_bind fst snd]. split; [done|]. rewrite length_take. lia.
Qed.

(** A frame for [b] gets as far as its protocol. *)
Lemma llega pr i cuerpo c ahora salida : is_u16 i -> is_u8 pr -> (length cuerpo + c <= 1480)%nat ->
  let trama := cab_ether (mac b) (mac a) Ether.TIPO_IPV4 ++ cab_ip (ip a) (ip b) pr (length cuerpo) i (suma_ip (ip a) (ip b) pr (length cuerpo) i) ++ cuerpo ++ replicate c 0 in
  exists t p, Ether.origen t = mac a /\ Ipv4.origen p = ip a /\ Ipv4.destino p = ip b /\ Ipv4.carga p = cuerpo /\
    forall n, mac n = mac b -> ip n = ip b -> atender_sin_contar n trama ahora salida =
      if pr =? Ipv4.ICMP then
        match Icmp.leer cuerpo with
        | None => None
        | Some (Err e) => Some (n, salida, Err e)
        | Some (Ok e) => atender_eco n t p e ahora salida
        end
      else if pr =? Ipv4.UDP then
        match Udp.leer cuerpo (ip a) (ip b) with
        | None => None
        | Some (Err e) => Some (n, salida, Err e)
        | Some (Ok d) => Some (con_cuentas n (un_udp (cuentas n)), salida, Ok (Udp (ip a) d))
        end
      else if pr =? Ipv4.TCP then
        Some (con_cuentas n (un_tcp (cuentas n)), salida, Ok (Tcp (ip a) (ip b) cuerpo))
      else Some (n, salida, Err Protocolo).
Proof.
  intros Hi Hp Hl trama. destruct (atender_ip_eq a b (mac b) pr i cuerpo c Ha Hb eq_refl Hi Hp Hl) as (t & p & E1 & E2 & E3 & E4 & E5 & E6 & E7 & E8 & E9).
  exists t, p. do 4 (split; [done|]). intros n Em En. unfold atender_sin_contar. fold trama in E1. rewrite E1, E2, Em.
  rewrite bool_decide_eq_true_2 by done. cbn [negb andb]. rewrite E4. change (Ether.TIPO_IPV4 =? Ether.TIPO_ARP) with false.
  change (Ether.TIPO_IPV4 =? Ether.TIPO_IPV4) with true. cbn iota. unfold atender_ip. rewrite E5, E7, En, E2, Em.
  rewrite !bool_decide_eq_true_2 by done. cbn [negb]. by rewrite E8, E9, E6.
Qed.

(** An echo request written by [a]. *)
Lemma eco_trama t0 id sec datos salida (n : Nodo) : nodo_ok n -> mac n = mac a -> ip n = ip a ->
  (length datos <= 1472)%nat -> (42 + length datos <= length salida)%nat ->
  let cuerpo := cab_icmp t0 id sec (suma_icmp t0 id sec datos) ++ datos in
  let i := w16 (n_id n + 1) in
  exists s' d t c, en_resto 34 (fun d => Icmp.escribir d t0 id sec datos) salida = Some (s', Ok (length cuerpo)) /\
    envolver n s' (mac b) (ip b) Ipv4.ICMP (length cuerpo) = Some (con_id n i, d, Ok t) /\ (length cuerpo + c <= 1480)%nat /\
    take t d = cab_ether (mac b) (mac a) Ether.TIPO_IPV4 ++ cab_ip (ip a) (ip b) Ipv4.ICMP (length cuerpo) i (suma_ip (ip a) (ip b) Ipv4.ICMP (length cuerpo) i) ++ cuerpo ++ replicate c 0.
Proof.
  intros Hn Em Ei Hd Hl cuerpo i. assert (Lc : length cuerpo = (8 + length datos)%nat) by (apply length_icmp).
  destruct (cuerpo_escrito (fun d => Icmp.escribir d t0 id sec datos) cuerpo salida) as [E L34].
  - lia.
  - rewrite icmp_escribir_eq by (rewrite length_drop; lia). by rewrite Lc.
  - destruct Hb as [(Lm & _) (Li & _)].
    destruct (envolver_trama n cuerpo (drop (length cuerpo) (drop 34 salida)) salida (mac b) (ip b) Ipv4.ICMP Hn Lm Li ltac:(lia) L34) as (d & t & c & E' & T & Hc).
    cbv zeta in E', T. eexists _, d, t, c. split; [exact E|]. split; [exact E'|]. split; [lia|]. rewrite T, Em, Ei. done.
Qed.
End Cable.

Lemma nodo_ok_con n c i e r : nodo_ok n -> nodo_ok (Nodos.mkNodo (Nodos.mac n) (Nodos.ip n) c i e r).
Proof. done. Qed.

(** C29: an echo request that one node writes to another is answered by it, and
    what the first one reads of the answer is an echo from the other's address
    with the identifier and the sequence number it asked with, whatever the
    numbers and the state of the two nodes.  The data are at most 1472 bytes, the
    buffers in which the two frames are written hold the 42 bytes of headers and
    the data, and the other has not answered ten in this second. *)
Theorem eco_ida_y_vuelta a b id sec datos buf1 buf2 buf3 t1 t2 : nodo_ok a -> nodo_ok b -> is_u16 id -> is_u16 sec -> octetos datos ->
  (length datos <= 1472)%nat -> (42 + length datos <= length buf1)%nat -> (42 + length datos <= length buf2)%nat ->
  (Nodos.ecos b).2 < 10 \/ 1000 <= saturating_sub t1 (Nodos.ecos b).1 ->
  exists a' s n, Nodos.eco a buf1 (Nodos.mac b) (Nodos.ip b) id sec datos = Some (a', s, Ok n) /\
  exists b' s' m, Nodos.atender b (take n s) t1 buf2 = Some (b', s', Ok (Nodos.Contestar m)) /\
  exists a'', Nodos.atender a' (take m s') t2 buf3 = Some (a'', buf3, Ok (Nodos.Eco (Nodos.ip b) id sec)).
Proof.
  intros Ha Hb Hid Hsec Hd Hl H1 H2 He.
  assert (W : forall z, is_u16 (w16 z)) by (intros z; unfold is_u16, w16; lia).
  destruct (eco_trama a b Hb Icmp.ECO_PETICION id sec datos buf1 a Ha eq_refl eq_refl Hl H1) as (s0 & s & n & c & E1 & E2 & Hc & T1).
  eexists _, s, n. split.
  { unfold Nodos.eco. change Nodos.CARGA with 34%nat. rewrite (proj2 (Nat.ltb_ge _ _)) by lia. rewrite E1. exact E2. }
  set (nb := Nodos.con_cuentas b (Nodos.una_trama (Nodos.cuentas b))).
  destruct (llega a b Ha Hb Ipv4.ICMP _ _ c t1 buf2 (W (Nodos.n_id a + 1)) ltac:(done) Hc) as (t & p & Et & Ep & Epd & _ & L).
  specialize (L nb eq_refl eq_refl). rewrite <- T1 in L. change (Ipv4.ICMP =? Ipv4.ICMP) with true in L. cbn iota in L.
  rewrite (icmp_leer_eq Icmp.ECO_PETICION id sec datos (or_introl eq_refl) Hid Hsec Hd) in L. unfold Nodos.atender_eco in L.
  cbn [Icmp.tipo Icmp.id Icmp.secuencia Icmp.datos] in L. change (Icmp.ECO_PETICION =? Icmp.ECO_RESPUESTA) with false in L. cbn iota in L.
  set (nc := if 1000 <=? saturating_sub t1 (Nodos.ecos nb).1 then Nodos.con_ecos nb (t1, 0) else nb) in L.
  assert (Hnc : (Nodos.ecos nc).2 < 10 /\ Nodos.mac nc = Nodos.mac b /\ Nodos.ip nc = Nodos.ip b).
  { unfold nc. destruct (Z.leb_spec 1000 (saturating_sub t1 (Nodos.ecos nb).1)) as [|Hlt]; cbn; [done|]. unfold nb in *. cbn in *. split; [lia|done]. }
  destruct Hnc as (Hec & Hm & Hi). change Nodos.ECOS_POR_SEGUNDO with 10 in L. rewrite (proj2 (Z.leb_gt _ _)) in L by done.
  change Nodos.CARGA with 34%nat in L. rewrite (proj2 (Nat.ltb_ge _ _)) in L by lia.
  assert (Hokc : nodo_ok nc) by (unfold nodo_ok; rewrite Hm, Hi; exact Hb).
  destruct (eco_trama b a Ha Icmp.ECO_RESPUESTA id sec datos buf2 nc Hokc Hm Hi Hl H2) as (s1 & s' & m & c' & E3 & E4 & Hc' & T2).
  rewrite E3, Et, Ep, E4 in L.
  eexists _, s', m. split; [unfold Nodos.atender; fold nb; rewrite L; reflexivity|].
  destruct (llega b a Hb Ha Ipv4.ICMP _ _ c' t2 buf3 (W (Nodos.n_id nc + 1)) ltac:(done) Hc') as (t' & p' & _ & Ep' & _ & _ & L').
  set (a' := Nodos.con_id a (w16 (Nodos.n_id a + 1))). set (na := Nodos.con_cuentas a' (Nodos.una_trama (Nodos.cuentas a'))).
  specialize (L' na eq_refl eq_refl). rewrite <- T2 in L'. change (Ipv4.ICMP =? Ipv4.ICMP) with true in L'. cbn iota in L'.
  rewrite (icmp_leer_eq Icmp.ECO_RESPUESTA id sec datos (or_intror eq_refl) Hid Hsec Hd) in L'. unfold Nodos.atender_eco in L'.
  cbn [Icmp.tipo Icmp.id Icmp.secuencia Icmp.datos] in L'. change (Icmp.ECO_RESPUESTA =? Icmp.ECO_RESPUESTA) with true in L'. cbn iota in L'.
  rewrite Ep' in L'. eexists. unfold Nodos.atender. fold na. rewrite L'. reflexivity.
Qed.

Definition nodo_a : Nodos.Nodo := Nodos.nuevo [2; 0; 0; 0; 0; 1] [10; 0; 0; 1].
Definition nodo_b : Nodos.Nodo := Nodos.nuevo [2; 0; 0; 0; 0; 2] [10; 0; 0; 2].
Lemma nodos_ok : nodo_ok nodo_a /\ nodo_ok nodo_b.
Proof. split; split; (split; [done|split; [repeat constructor; done|done]]). Qed.

Lemma eco_ida_y_vuelta_witness : exists a' s n b' s' m a'', Nodos.eco nodo_a (replicate 60 7) (Nodos.mac nodo_b) (Nodos.ip nodo_b) 77 5 [1; 2; 3] = Some (a', s, Ok n) /\
  Nodos.atender nodo_b (take n s) 9 (replicate 60 7) = Some (b', s', Ok (Nodos.Contestar m)) /\
  Nodos.atender a' (take m s') 12 [] = Some (a'', [], Ok (Nodos.Eco [10; 0; 0; 2] 77 5)).
Proof.
  destruct nodos_ok as [Ha Hb].
  destruct (eco_ida_y_vuelta nodo_a nodo_b 77 5 [1; 2; 3] (replicate 60 7) (replicate 60 7) [] 9 12 Ha Hb) as (a' & s & n & E1 & b' & s' & m & E2 & a'' & E3).
  1-6: (done || (repeat constructor; done) || (cbn; lia)).
  - left. cbn. lia.
  - exists a', s, n, b', s', m, a''. exact (conj E1 (conj E2 E3)).
Defined.

(** A datagram that one node writes to another arrives: the other one
    reads the same ports and the same bytes, from that address. *)
Theorem udp_llega a b o d datos buf1 buf2 t1 : nodo_ok a -> nodo_ok b -> is_u16 o -> is_u16 d -> o <> 0 -> d <> 0 -> octetos datos ->
  (length datos <= 1472)%nat -> (42 + length datos <= length buf1)%nat ->
  exists a' s n, Nodos.udp a buf1 (Nodos.mac b) (Nodos.ip b) o d datos = Some (a', s, Ok n) /\
  exists b', Nodos.atender b (take n s) t1 buf2 = Some (b', buf2, Ok (Nodos.Udp (Nodos.ip a) (Udp.mkDatagrama o d datos))).
Proof.
  intros Ha Hb Ho Hd No Nd Hda Hl H1. pose proof Ha as [_ (Lia & Oia & _)]. pose proof Hb as [(Lmb & _) (Lib & Oib & _)].
  set (cuerpo := cab_udp o d (length datos) (suma_udp (Nodos.ip a) (Nodos.ip b) o d datos) ++ datos).
  assert (Lc : length cuerpo = (8 + length datos)%nat) by (by unfold cuerpo; rewrite length_app).
  destruct (cuerpo_escrito (fun x => Udp.escribir x (Nodos.ip a) (Nodos.ip b) o d datos) cuerpo buf1) as [E L34].
  { lia. }
  { rewrite udp_escribir_eq by (rewrite ?length_drop; lia). by rewrite Lc. }
  destruct (envolver_trama a cuerpo (drop (length cuerpo) (drop 34 buf1)) buf1 (Nodos.mac b) (Nodos.ip b) Ipv4.UDP Ha Lmb Lib ltac:(lia) L34)
    as (s & n & c & E' & T & Hc). cbv zeta in E', T.
  eexists _, s, n. split.
  { unfold Nodos.udp. change Nodos.CARGA with 34%nat. rewrite (proj2 (Nat.ltb_ge _ _)) by lia. rewrite E. exact E'. }
  destruct (llega a b Ha Hb Ipv4.UDP (w16 (Nodos.n_id a + 1)) cuerpo c t1 buf2) as (t & p & _ & _ & _ & _ & L); [unfold is_u16, w16; lia|done|done|].
  set (nb := Nodos.con_cuentas b (Nodos.una_trama (Nodos.cuentas b))).
  specialize (L nb eq_refl eq_refl). rewrite <- T in L. change (Ipv4.UDP =? Ipv4.ICMP) with false in L. change (Ipv4.UDP =? Ipv4.UDP) with true in L.
  cbn iota in L. unfold cuerpo in L. rewrite udp_leer_eq in L by done. eexists. unfold Nodos.atender. fold nb. rewrite L. reflexivity.
Qed.

Lemma udp_llega_witness : exists a' s n b', Nodos.udp nodo_a (replicate 60 7) (Nodos.mac nodo_b) (Nodos.ip nodo_b) 5353 53 [1; 2; 3] = Some (a', s, Ok n) /\
  Nodos.atender nodo_b (take n s) 9 [] = Some (b', [], Ok (Nodos.Udp [10; 0; 0; 1] (Udp.mkDatagrama 5353 53 [1; 2; 3]))).
Proof.
  destruct nodos_ok as [Ha Hb].
  destruct (udp_llega nodo_a nodo_b 5353 53 [1; 2; 3] (replicate 60 7) [] 9 Ha Hb) as (a' & s & n & E1 & b' & E2).
  1-7: (done || (repeat constructor; done) || (cbn; lia)).
  exists a', s, n, b'. exact (conj E1 E2).
Defined.

(** * What comes from outside *)

(** ** No frame stops the node *)

Lemma be16_dentro b i : (S i < length b)%nat -> exists v, be16 b i = Some v.
Proof.
  intros H. destruct (lookup_lt_is_Some_2 b i ltac:(lia)) as [x Ex]. destruct (lookup_lt_is_Some_2 b (S i) H) as [y Ey].
  unfold be16. rewrite Ex, Ey. by eexists.
Qed.
Lemma trozo_dentro o n b : (o + n <= length b)%nat -> trozo o n b = Some (slice o n b) /\ length (slice o n b) = n.
Proof. intros H. unfold trozo. rewrite (proj2 (Nat.leb_le _ _)) by done. split; [done|by apply length_slice]. Qed.
Lemma resto_dentro o b : (o <= length b)%nat -> resto o b = Some (drop o b).
Proof. intros H. unfold resto. by rewrite (proj2 (Nat.leb_le _ _)). Qed.

Ltac largos :=
  repeat match goal with
  | H : (_ <? _)%nat = false |- _ => apply Nat.ltb_ge in H
  | H : (_ <? _)%nat = true |- _ => apply Nat.ltb_lt in H
  end; unfold Ether.CABECERA, Ipv4.CABECERA, Icmp.CABECERA, Udp.CABECERA, Arp.LARGO in *.
Ltac dentro :=
  cbn [mbind option_bind];
  match goal with
  | |- context [trozo ?o ?n ?b] =>
      rewrite (proj1 (trozo_dentro o n b ltac:(lia))); pose proof (proj2 (trozo_dentro o n b ltac:(lia))); generalize dependent (slice o n b); intros
  | |- context [resto ?o ?b] => rewrite (resto_dentro o b ltac:(lia))
  | |- context [be16 ?b ?i] => let v := fresh "v" in let E := fresh in destruct (be16_dentro b i ltac:(lia)) as [v E]; rewrite E; clear E
  | |- context [?b !! ?i] => let v := fresh "v" in let E := fresh in destruct (lookup_lt_is_Some_2 b i ltac:(lia)) as [v E]; rewrite E; clear E
  | |- context [if ?c then _ else _] => destruct c eqn:?; largos; try (by left; eexists)
  end.

(** A reader that never stops, with what holds of what it accepts. *)
Definition lee_bien {A} (r : duda A) (P : A -> Prop) : Prop := (exists e, r = Some (Err e)) \/ (exists x, r = Some (Ok x) /\ P x).

Lemma ether_leer_bien b : lee_bien (Ether.leer b) (fun t => length (Ether.destino t) = 6%nat /\ length (Ether.origen t) = 6%nat).
Proof. unfold lee_bien, Ether.leer, Ether.mac. repeat dentro. right; eexists; split; [done|]; by split. Qed.
Lemma ipv4_leer_bien b : lee_bien (Ipv4.leer b) (fun p => length (Ipv4.origen p) = 4%nat /\ length (Ipv4.destino p) = 4%nat).
Proof. unfold lee_bien, Ipv4.leer. repeat dentro. right; eexists; split; [done|]; by split. Qed.
Lemma icmp_leer_bien b : lee_bien (Icmp.leer b) (fun _ => True).
Proof. unfold lee_bien, Icmp.leer. repeat dentro. right; eexists; by split. Qed.
Lemma udp_leer_bien b io id_ : lee_bien (Udp.leer b io id_) (fun _ => True).
Proof. unfold lee_bien, Udp.leer. repeat dentro. right; eexists; by split. Qed.
Lemma arp_leer_bien b : lee_bien (Arp.leer b) arp_largos.
Proof. unfold lee_bien, Arp.leer. repeat dentro. all: right; eexists; split; [done|]; by repeat split. Qed.

(** A writer that never stops, and keeps the length of the buffer. *)
Definition escribe_bien (r : obra nat) (dst : list Z) (n : nat) : Prop :=
  exists s x, r = Some (s, x) /\ length s = length dst /\ (forall k, x = Ok k -> k = n /\ (n <= length dst)%nat).

Lemma ether_escribir_bien dst d o t : length d = 6%nat -> length o = 6%nat -> escribe_bien (Ether.escribir dst d o t) dst 14.
Proof.
  intros Ld Lo. destruct (decide (14 <= length dst)%nat) as [H|H].
  - eexists _, _. split; [by apply ether_escribir_eq|]. split; [|by intros k [= <-]].
    unfold cab_ether. rewrite !length_app, length_drop, Ld, Lo. cbn [length de16]. lia.
  - exists dst, (Err Corto). unfold Ether.escribir. by rewrite (proj2 (Nat.ltb_lt _ _)) by (unfold Ether.CABECERA; lia).
Qed.
Lemma arp_escribir_bien dst a : arp_largos a -> escribe_bien (Arp.escribir dst a) dst 28.
Proof.
  intros La. destruct (decide (28 <= length dst)%nat) as [H|H].
  - eexists _, _. split; [by apply arp_escribir_eq|]. split; [|by intros k [= <-]].
    destruct La as (L1 & L2 & L3 & L4). unfold cab_arp. rewrite !length_app, length_drop, L1, L2, L3, L4. cbn [length de16]. lia.
  - exists dst, (Err Corto). unfold Arp.escribir. by rewrite (proj2 (Nat.ltb_lt _ _)) by (unfold Arp.LARGO; lia).
Qed.
Lemma icmp_escribir_bien dst t id sec datos : escribe_bien (Icmp.escribir dst t id sec datos) dst (8 + length datos).
Proof.
  destruct (decide (8 + length datos <= length dst)%nat) as [H|H].
  - eexists _, _. split; [by apply icmp_escribir_eq|]. split; [|by intros k [= <-]].
    rewrite !length_app, length_drop. change (length (cab_icmp t id sec (suma_icmp t id sec datos))) with 8%nat. lia.
  - exists dst, (Err Corto). unfold Icmp.escribir. by rewrite (proj2 (Nat.ltb_lt _ _)) by (unfold Icmp.CABECERA; lia).
Qed.
Lemma ipv4_escribir_bien dst o d pr n id : length o = 4%nat -> length d = 4%nat -> escribe_bien (Ipv4.escribir dst o d pr n id) dst 20.
Proof.
  intros Lo Ld. destruct (decide (20 + n <= 1500)%nat) as [Hn|Hn].
  - destruct (decide (20 <= length dst)%nat) as [H|H].
    + eexists _, _. split; [by apply ipv4_escribir_eq|]. split; [|by intros k [= <-]].
      unfold cab_ip. rewrite !length_app, length_drop, Lo, Ld. cbn [length de16]. lia.
    + exists dst, (Err Corto). unfold Ipv4.escribir. rewrite (proj2 (Nat.ltb_ge _ _)) by (unfold Ipv4.MTU, Ipv4.CABECERA; lia).
      by rewrite (proj2 (Nat.ltb_lt _ _)) by (unfold Ipv4.CABECERA; lia).
  - exists dst, (Err Largo). unfold Ipv4.escribir. by rewrite (proj2 (Nat.ltb_lt _ _)) by (unfold Ipv4.MTU, Ipv4.CABECERA; lia).
Qed.

Lemma en_resto_bien o f dst n : (o <= length dst)%nat -> escribe_bien (f (drop o dst)) (drop o dst) n ->
  exists s x, en_resto o f dst = Some (s, x) /\ length s = length dst /\ (forall k, x = Ok k -> k = n /\ (o + n <= length dst)%nat).
Proof.
  intros H (s & x & E & L & K). unfold en_resto. rewrite resto_dentro by done. cbn [mbind option_bind]. rewrite E.
  exists (take o dst ++ s), x. split; [done|]. rewrite length_app, length_take, L, length_drop. rewrite length_drop in K.
  split; [lia|]. intros k Hk. destruct (K k Hk) as [-> ?]. split; [done|lia].
Qed.

(** The node's own addresses have the size of their types. *)
Definition nodo_tipo (n : Nodos.Nodo) : Prop := length (Nodos.mac n) = 6%nat /\ length (Nodos.ip n) = 4%nat.

(** A step that does not stop, keeps the size of the buffer and says how long the
    frame is that it leaves there. *)
Definition anda {A} (p : Nodos.paso A) (n : Nodos.Nodo) (salida : list Z) (largo : A -> nat) : Prop :=
  exists n' s x, p = Some (n', s, x) /\ length s = length salida /\ Nodos.mac n' = Nodos.mac n /\ Nodos.ip n' = Nodos.ip n /\
    forall r, x = Ok r -> (largo r <= length salida)%nat.

Lemma relleno_cabe d k : (k <= length d)%nat -> length (Ether.con_relleno d k).1 = length d /\ ((Ether.con_relleno d k).2 <= length d)%nat.
Proof.
  intros H. unfold Ether.con_relleno. destruct (_ || _) eqn:E; [done|]. apply orb_false_iff in E as [E1%Nat.leb_gt E2%Nat.ltb_ge]. cbn [fst snd].
  split; [|done]. apply length_put. rewrite length_replicate. lia.
Qed.

Lemma envolver_anda n salida md id_ pr largo : nodo_tipo n -> length md = 6%nat -> length id_ = 4%nat ->
  anda (Nodos.envolver n salida md id_ pr largo) n salida id.
Proof.
  intros [Lm Li] Lmd Lid. unfold Nodos.envolver, anda. destruct (_ <? _)%nat eqn:E; [by eexists _, _, _|]. apply Nat.ltb_ge in E.
  change (Nodos.CARGA + largo)%nat with (34 + largo)%nat in *.
  destruct (ether_escribir_bien salida md (Nodos.mac n) Ether.TIPO_IPV4 Lmd Lm) as (s & x & -> & Ls & _). destruct x as [k|e]; [|by eexists _, _, _].
  destruct (en_resto_bien Ether.CABECERA (fun d => Ipv4.escribir d (Nodos.ip (Nodos.con_id n (w16 (Nodos.n_id n + 1)))) id_ pr largo (Nodos.n_id (Nodos.con_id n (w16 (Nodos.n_id n + 1))))) s 20)
    as (s2 & x & E2 & Ls2 & _); [rewrite Ls; unfold Ether.CABECERA; lia|by apply ipv4_escribir_bien|]. cbv zeta. rewrite E2.
  destruct x as [k2|e]; [|eexists _, _, _; split; [done|]; split; [congruence|done]].
  pose proof (relleno_cabe s2 (34 + largo) ltac:(lia)) as [R1 R2]. destruct (Ether.con_relleno s2 (34 + largo)) as [s3 t]. cbn [fst snd] in *.
  eexists _, _, _. split; [done|]. split; [congruence|]. split; [done|]. split; [done|]. intros r [= <-]. cbn. lia.
Qed.

Definition largo_hecho (h : Nodos.Hecho) : nat := match h with Nodos.Contestar k => k | _ => O end.

Lemma anda_nodo {A} (p : Nodos.paso A) n n' s f : Nodos.mac n' = Nodos.mac n -> Nodos.ip n' = Nodos.ip n -> anda p n' s f -> anda p n s f.
Proof. intros Em Ei (m & t & x & E & L & M & I & K). exists m, t, x. by rewrite M, I. Qed.

Lemma anda_listo {A} n s (x : result A Rechazo) (f : A -> nat) n' : Nodos.mac n' = Nodos.mac n -> Nodos.ip n' = Nodos.ip n ->
  (forall r, x = Ok r -> f r = O) -> anda (Some (n', s, x)) n s f.
Proof. intros Em Ei K. exists n', s, x. do 4 (split; [done|]). intros r Hr. rewrite (K r Hr). lia. Qed.

Lemma arp_contesta_anda n salida md t a : nodo_tipo n -> length md = 6%nat -> arp_largos a -> forall (f : Nodos.Nodo -> Nodos.Nodo) (A : Type) (res : nat -> A) (g : A -> nat),
  (forall m, Nodos.mac (f m) = Nodos.mac m /\ Nodos.ip (f m) = Nodos.ip m) -> (forall k, (g (res k) <= k)%nat) ->
  anda (match Ether.escribir salida md (Nodos.mac n) t with
        | None => None
        | Some (s, Err e) => Some (n, s, Err e)
        | Some (s, Ok l) =>
            match en_resto l (fun d => Arp.escribir d a) s with
            | None => None
            | Some (s, Err e) => Some (n, s, Err e)
            | Some (s, Ok m) => let n := f n in let '(s, total) := Ether.con_relleno s (l + m) in Some (n, s, Ok (res total))
            end
        end) n salida g.
Proof.
  intros [Lm Li] Lmd La f A res g Hf Hg. destruct (ether_escribir_bien salida md (Nodos.mac n) t Lmd Lm) as (s & x & -> & Ls & K).
  destruct x as [l|e]; [|eexists _, _, _; by split]. destruct (K l eq_refl) as [-> Hl].
  destruct (en_resto_bien 14 (fun d => Arp.escribir d a) s 28) as (s2 & x & -> & Ls2 & K2); [lia|by apply arp_escribir_bien|].
  destruct x as [m|e]; [|eexists _, _, _; split; [done|split; [congruence|done]]]. destruct (K2 m eq_refl) as [-> Hm].
  pose proof (relleno_cabe s2 (14 + 28) ltac:(lia)) as [R1 R2]. destruct (Ether.con_relleno s2 (14 + 28)) as [s3 k]. cbn [fst snd] in *.
  eexists _, _, _. split; [done|]. split; [congruence|]. split; [apply Hf|]. split; [apply Hf|]. intros r [= <-]. specialize (Hg k). lia.
Qed.

Lemma atender_arp_anda n t ahora salida : nodo_tipo n -> anda (Nodos.atender_arp n t ahora salida) n salida largo_hecho.
Proof.
  intros Hn. unfold Nodos.atender_arp. destruct (arp_leer_bien (Ether.carga t)) as [(e & ->)|(a & -> & La)]; [by apply anda_listo|].
  destruct (negb _); [by apply anda_listo|]. destruct (negb _); [by apply anda_listo|]. destruct (Arp.op a).
  - assert (Lr : arp_largos (Arp.mkArp Arp.Respuesta (Nodos.mac n) (Nodos.ip n) (Arp.mac_origen a) (Arp.ip_origen a)))
      by (destruct Hn as [Lm Li], La as (L1 & L2 & _); by repeat split).
    exact (arp_contesta_anda n salida (Arp.mac_origen a) Ether.TIPO_ARP _ Hn (proj1 La) Lr
      (fun n => Nodos.con_cuentas n (Nodos.un_arp (Nodos.cuentas n))) _ Nodos.Contestar largo_hecho (fun _ => conj eq_refl eq_refl) (fun k => le_n k)).
  - destruct (Arp.aprender _ _ _ _) as [c [[]|e]]; apply anda_listo; done || by intros r [= <-].
Qed.

Lemma atender_eco_anda n t p e ahora salida : nodo_tipo n -> length (Ether.origen t) = 6%nat -> length (Ipv4.origen p) = 4%nat ->
  anda (Nodos.atender_eco n t p e ahora salida) n salida largo_hecho.
Proof.
  intros Hn Lt Lp. unfold Nodos.atender_eco. destruct (_ =? _); [apply anda_listo; done || by intros r [= <-]|].
  set (n' := if 1000 <=? _ then _ else n). assert (Hn' : Nodos.mac n' = Nodos.mac n /\ Nodos.ip n' = Nodos.ip n) by (unfold n'; by destruct (1000 <=? _)).
  destruct Hn' as [Em Ei]. apply (anda_nodo _ n n'); [done..|]. assert (Ht : nodo_tipo n') by (unfold nodo_tipo; by rewrite Em, Ei).
  generalize dependent n'. intros m _ _ Hm. destruct (_ <=? _); [by apply anda_listo|]. destruct (_ <? _)%nat eqn:E; [by apply anda_listo|].
  apply Nat.ltb_ge in E. edestruct (en_resto_bien Nodos.CARGA) as (s & x & -> & Ls & _); [exact E|apply icmp_escribir_bien|].
  destruct x as [k|x]; [|eexists _, _, _; by split].
  destruct (envolver_anda m s (Ether.origen t) (Ipv4.origen p) Ipv4.ICMP k Hm Lt Lp) as (m2 & s2 & x & -> & Ls2 & Em2 & Ei2 & K).
  destruct x as [r|x]; eexists _, _, _; (split; [done|]); (split; [congruence|]); (split; [done|]); (split; [done|]); [|done].
  intros h [= <-]. cbn. specialize (K r eq_refl). cbn in K. lia.
Qed.

Lemma atender_ip_anda n t ahora salida : nodo_tipo n -> length (Ether.origen t) = 6%nat -> anda (Nodos.atender_ip n t ahora salida) n salida largo_hecho.
Proof.
  intros Hn Lt. unfold Nodos.atender_ip. destruct (ipv4_leer_bien (Ether.carga t)) as [(e & ->)|(p & -> & Lo & _)]; [by apply anda_listo|].
  destruct (negb _); [by apply anda_listo|]. destruct (negb _); [by apply anda_listo|].
  destruct (_ =? Ipv4.ICMP); [|destruct (_ =? Ipv4.UDP); [|destruct (_ =? Ipv4.TCP)]].
  - destruct (icmp_leer_bien (Ipv4.carga p)) as [(e & ->)|(e & -> & _)]; [by apply anda_listo|]. by apply atender_eco_anda.
  - destruct (udp_leer_bien (Ipv4.carga p) (Ipv4.origen p) (Ipv4.destino p)) as [(e & ->)|(e & -> & _)]; apply anda_listo; done || by intros r [= <-].
  - apply anda_listo; done || by intros r [= <-].
  - by apply anda_listo.
Qed.

(** C30: whatever bytes arrive, the node never stops: it reads, refuses or answers,
    inside the buffer it was given, and what it answers fits there; its own
    addresses do not change. *)
Theorem atender_no_para n trama ahora salida : nodo_tipo n ->
  exists n' s x, Nodos.atender n trama ahora salida = Some (n', s, x) /\ length s = length salida /\
    Nodos.mac n' = Nodos.mac n /\ Nodos.ip n' = Nodos.ip n /\ forall k, x = Ok (Nodos.Contestar k) -> (k <= length salida)%nat.
Proof.
  intros Hn. set (m := Nodos.con_cuentas n (Nodos.una_trama (Nodos.cuentas n))).
  assert (A : anda (Nodos.atender_sin_contar m trama ahora salida) m salida largo_hecho).
  { unfold Nodos.atender_sin_contar. destruct (ether_leer_bien trama) as [(e & ->)|(t & -> & _ & Lo)]; [by apply anda_listo|].
    destruct (_ && _); [by apply anda_listo|]. destruct (_ =? _); [by apply atender_arp_anda|]. destruct (_ =? _); [by apply atender_ip_anda|].
    by apply anda_listo. }
  destruct A as (n' & s & x & E & Ls & Em & Ei & K). unfold Nodos.atender. fold m. rewrite E.
  destruct x as [h|e]; eexists _, _, _; (split; [done|]); repeat (split; [done|]); [|done]. intros k [= ->]. exact (K _ eq_refl).
Qed.

Lemma atender_no_para_witness : nodo_tipo nodo_a /\ exists n' x, Nodos.atender nodo_a (replicate 64 255) 0 [] = Some (n', [], x).
Proof.
  assert (H : nodo_tipo nodo_a) by done. split; [exact H|].
  destruct (atender_no_para nodo_a (replicate 64 255) 0 [] H) as (n' & s & x & E & L & _). destruct s; [|discriminate L]. exists n', x. exact E.
Defined.

(** ** Who can put an address in the cache *)

(** What happens to a node, the latest first. *)
Inductive evento := Llega (trama : list Z) (ahora : Z) (salida : list Z) | Pide (de : Ip) (ahora : Z) (salida : list Z).

Definition sucede (n : Nodos.Nodo) (e : evento) : option Nodos.Nodo :=
  match e with
  | Llega trama ahora salida => (fun r => r.1.1) <$> Nodos.atender n trama ahora salida
  | Pide i ahora salida => (fun r => r.1.1) <$> Nodos.preguntar n i ahora salida
  end.

Inductive vivido (m : Mac) (i : Ip) : list evento -> Nodos.Nodo -> Prop :=
| VNada : vivido m i [] (Nodos.nuevo m i)
| VMas h n e n' : vivido m i h n -> sucede n e = Some n' -> vivido m i (e :: h) n'.

(** [m] said it was [i], in an answer that came less than three seconds after
    this node asked for [i]. *)
Definition anunciada (h : list evento) (i : Ip) (m : Mac) : Prop :=
  exists trama t s tq s' tr a, Llega trama t s ∈ h /\ Pide i tq s' ∈ h /\ saturating_sub t tq < Arp.ESPERA_MS /\
    Ether.leer trama = Some (Ok tr) /\ Ether.origen tr = m /\ Arp.leer (Ether.carga tr) = Some (Ok a) /\
    Arp.op a = Arp.Respuesta /\ Arp.ip_origen a = i /\ Arp.mac_origen a = m.

Record cache_ok (h : list evento) (c : Arp.Cache) : Prop := {
  co_preguntas : forall p, p ∈ Arp.preguntas c -> Arp.p_usada p = true -> exists s, Pide (Arp.p_ip p) (Arp.enviada p) s ∈ h;
  co_filas : forall f, f ∈ Arp.filas c -> Arp.f_usada f = true -> anunciada h (Arp.f_ip f) (Arp.f_mac f)
}.

Lemma anunciada_mas h e i m : anunciada h i m -> anunciada (e :: h) i m.
Proof.
  intros (trama & t & s & tq & s' & tr & a & H1 & H2 & H3). exists trama, t, s, tq, s', tr, a.
  split; [by apply elem_of_cons; right|]. split; [by apply elem_of_cons; right|done].
Qed.

Lemma cache_mas h e c : cache_ok h c -> cache_ok (e :: h) c.
Proof.
  intros [P F]. split.
  - intros p Hp Hu. destruct (P p Hp Hu) as (s & Hs). exists s. apply elem_of_cons. by right.
  - intros f Hf Hu. by apply anunciada_mas, F.
Qed.

Lemma elem_insert {A} (l : list A) i x y : y ∈ <[i := x]> l -> y = x \/ y ∈ l.
Proof.
  intros (j & Hj)%list_elem_of_lookup. destruct (decide (j = i)) as [->|N].
  - apply list_lookup_insert_Some in Hj as [(_ & -> & _)|[N _]]; [by left|done].
  - rewrite list_lookup_insert_ne in Hj by done. right. by eapply list_elem_of_lookup_2.
Qed.

Lemma cache_pregunta h c i t s : cache_ok h c -> cache_ok (Pide i t s :: h) (Arp.preguntar c i t).1.
Proof.
  intros H. pose proof (cache_mas h (Pide i t s) c H) as H'. destruct H' as [P F]. unfold Arp.preguntar.
  assert (N : exists s', Pide i t s' ∈ Pide i t s :: h) by (exists s; apply elem_of_cons; by left).
  destruct (position _ _) as [k|] eqn:Ek.
  - apply position_Some in Ek as (p & Hp & [Hu Hi]%andb_true_iff & _). rewrite Hp. apply bool_decide_eq_true in Hi.
    destruct (_ <=? _); [|by apply cache_mas]. split; [|exact F]. cbn [fst Arp.preguntas].
    intros p' [->|Hp']%elem_insert Hu'; [|by apply P]. cbn [Arp.p_ip Arp.enviada]. rewrite Hi. exact N.
  - clear Ek. destruct (position _ _) as [k2|] eqn:Ek2; [|by apply cache_mas]. split; [|exact F]. cbn [fst Arp.preguntas].
    intros p' [->|Hp']%elem_insert Hu'; [exact N|by apply P].
Qed.

(** The heart of it: a row that was not there was expected. *)
Lemma aprender_fila c i m t f : f ∈ Arp.filas (Arp.aprender c i m t).1 -> Arp.f_usada f = true ->
  (exists f', f' ∈ Arp.filas c /\ Arp.f_usada f' = true /\ Arp.f_ip f' = Arp.f_ip f /\ Arp.f_mac f' = Arp.f_mac f) \/
  (Arp.f_ip f = i /\ Arp.f_mac f = m /\ Arp.esperada c i t = true).
Proof.
  unfold Arp.aprender. destruct (position _ (Arp.filas c)) as [k|] eqn:Ek.
  - apply position_Some in Ek as (f0 & Hf0 & [Hu0 Hi0]%andb_true_iff & _). rewrite Hf0. apply bool_decide_eq_true in Hi0.
    destruct (negb (bool_decide (Arp.f_mac f0 = m)) && negb (Arp.esperada c i t)) eqn:E; cbn [fst Arp.filas Arp.contestada].
    + intros Hf Hu. left. by exists f.
    + intros [->|Hf]%elem_insert Hu; [|left; by exists f]. cbn. apply andb_false_iff in E as [E|E].
      * apply negb_false_iff, bool_decide_eq_true in E. left. exists f0. split; [by eapply list_elem_of_lookup_2|done].
      * apply negb_false_iff in E. by right.
  - destruct (Arp.esperada c i t) eqn:E; cbn [negb fst]; [|intros Hf Hu; left; by exists f].
    cbn [Arp.filas Arp.contestada]. intros [->|Hf]%elem_insert Hu; [by right|left; by exists f].
Qed.

Lemma aprender_preguntas c i m t p : p ∈ Arp.preguntas (Arp.aprender c i m t).1 -> Arp.p_usada p = true -> p ∈ Arp.preguntas c.
Proof.
  assert (C : forall c', p ∈ Arp.preguntas (Arp.contestada c' i) -> Arp.p_usada p = true -> p ∈ Arp.preguntas c').
  { intros c' (p' & -> & Hp')%list_elem_of_fmap. case_bool_decide; [done|]. done. }
  unfold Arp.aprender. destruct (position _ (Arp.filas c)) as [k|].
  - destruct (Arp.filas c !! k); [|done]. destruct (negb _ && negb _); [done|]. intros Hp Hu. by specialize (C _ Hp Hu).
  - destruct (negb _); [done|]. intros Hp Hu. by specialize (C _ Hp Hu).
Qed.

Lemma esperada_pedida h c i t : cache_ok h c -> Arp.esperada c i t = true -> exists tq s, Pide i tq s ∈ h /\ saturating_sub t tq < Arp.ESPERA_MS.
Proof.
  intros [P _] E. unfold Arp.esperada in E. apply existsb_exists in E as (p & Hp & E). apply andb_true_iff in E as [[Hu Hi]%andb_true_iff Ht%Z.ltb_lt].
  apply bool_decide_eq_true in Hi. destruct (P p ltac:(by apply list_elem_of_In) Hu) as (s & Hs). rewrite Hi in Hs. by exists (Arp.enviada p), s.
Qed.

Lemma envolver_arp m s md i pr l n' s' x : Nodos.envolver m s md i pr l = Some (n', s', x) -> Nodos.arp n' = Nodos.arp m.
Proof. unfold Nodos.envolver. repeat case_match; try done; intros [= <- <- <-]; done. Qed.

Lemma atender_eco_cache m tr p e t salida n' s x : Nodos.atender_eco m tr p e t salida = Some (n', s, x) -> Nodos.arp n' = Nodos.arp m.
Proof.
  unfold Nodos.atender_eco. destruct (Icmp.tipo e =? _); [by intros [= <- _ _]|].
  set (m' := if 1000 <=? _ then _ else m). assert (Em : Nodos.arp m' = Nodos.arp m) by (unfold m'; by destruct (1000 <=? _)). rewrite <- Em. clearbody m'.
  destruct (_ <=? _); [by intros [= <- _ _]|]. destruct (_ <? _)%nat; [by intros [= <- _ _]|].
  destruct (en_resto _ _ _) as [[d [k|y]]|]; [|by intros [= <- _ _]|done].
  destruct (Nodos.envolver _ _ _ _ _ _) as [[[n2 s2] [y|y]]|] eqn:Ev; [| |done]; apply envolver_arp in Ev; intros [= <- _ _]; exact Ev.
Qed.

Lemma atender_ip_cache m tr t salida n' s x : Nodos.atender_ip m tr t salida = Some (n', s, x) -> Nodos.arp n' = Nodos.arp m.
Proof.
  unfold Nodos.atender_ip. destruct (Ipv4.leer _) as [[p|e]|]; [|by intros [= <- _ _]|done].
  destruct (negb _); [by intros [= <- _ _]|]. destruct (negb _); [by intros [= <- _ _]|].
  destruct (_ =? Ipv4.ICMP).
  - destruct (Icmp.leer _) as [[e|e]|]; [|by intros [= <- _ _]|done]. apply atender_eco_cache.
  - repeat case_match; try done; by intros [= <- _ _].
Qed.

(** Only an accepted answer touches the cache. *)
Lemma atender_cache n trama t salida r : Nodos.atender n trama t salida = Some r ->
  Nodos.arp r.1.1 = Nodos.arp n \/
  exists tr a, Ether.leer trama = Some (Ok tr) /\ Arp.leer (Ether.carga tr) = Some (Ok a) /\ Ether.origen tr = Arp.mac_origen a /\
    Arp.op a = Arp.Respuesta /\ Nodos.arp r.1.1 = (Arp.aprender (Nodos.arp n) (Arp.ip_origen a) (Arp.mac_origen a) t).1.
Proof.
  set (m := Nodos.con_cuentas n (Nodos.una_trama (Nodos.cuentas n))).
  assert (A : forall n' s x, Nodos.atender_sin_contar m trama t salida = Some (n', s, x) -> Nodos.arp n' = Nodos.arp n \/
    exists tr a, Ether.leer trama = Some (Ok tr) /\ Arp.leer (Ether.carga tr) = Some (Ok a) /\ Ether.origen tr = Arp.mac_origen a /\
      Arp.op a = Arp.Respuesta /\ Nodos.arp n' = (Arp.aprender (Nodos.arp n) (Arp.ip_origen a) (Arp.mac_origen a) t).1).
  { intros n' s x. unfold Nodos.atender_sin_contar. destruct (Ether.leer trama) as [[tr|e]|] eqn:Et; [|intros [= <- _ _]; by left|done].
    destruct (_ && _); [intros [= <- _ _]; by left|]. destruct (Ether.tipo tr =? Ether.TIPO_ARP).
    - unfold Nodos.atender_arp. destruct (Arp.leer (Ether.carga tr)) as [[a|e]|] eqn:Ea; [|intros [= <- _ _]; by left|done].
      destruct (negb (bool_decide (Arp.mac_origen a = Ether.origen tr))) eqn:Em; [intros [= <- _ _]; by left|].
      apply negb_false_iff, bool_decide_eq_true in Em. destruct (negb _); [intros [= <- _ _]; by left|].
      destruct (Arp.op a) eqn:Eo.
      + repeat case_match; try done; intros [= <- _ _]; by left.
      + change (Nodos.arp m) with (Nodos.arp n). destruct (Arp.aprender (Nodos.arp n) _ _ t) as [c y] eqn:El. intros H. right. exists tr, a.
        do 4 (split; [done|]). rewrite El. by destruct y; injection H as <- _ _.
    - destruct (Ether.tipo tr =? Ether.TIPO_IPV4); [|intros [= <- _ _]; by left]. intros H. left. change (Nodos.arp n) with (Nodos.arp m).
      exact (atender_ip_cache m tr t salida n' s x H). }
  unfold Nodos.atender. fold m. destruct (Nodos.atender_sin_contar m trama t salida) as [[[n' s] x]|] eqn:E; [|done].
  specialize (A n' s x eq_refl). by destruct x; intros [= <-].
Qed.

Lemma sucede_cache h n e n' : cache_ok h (Nodos.arp n) -> sucede n e = Some n' -> cache_ok (e :: h) (Nodos.arp n').
Proof.
  intros H. destruct e as [trama t salida|i t salida]; cbn [sucede].
  - destruct (Nodos.atender n trama t salida) as [r|] eqn:E; [|done]. intros [= <-].
    pose proof (cache_mas h (Llega trama t salida) _ H) as H'.
    destruct (atender_cache n trama t salida r E) as [->|(tr & a & E1 & E2 & E3 & E4 & ->)]; [done|]. split.
    + intros p Hp Hu. apply (co_preguntas _ _ H'); [|done]. by eapply aprender_preguntas.
    + intros f Hf Hu. destruct (aprender_fila _ _ _ _ f Hf Hu) as [(f' & Hf' & Hu' & <- & <-)|(-> & -> & Es)]; [by apply (co_filas _ _ H')|].
      destruct (esperada_pedida _ _ _ _ H' Es) as (tq & s & Hq & Ht). exists trama, t, salida, tq, s, tr, a.
      split; [apply elem_of_cons; by left|]. done.
  - destruct (Nodos.preguntar n i t salida) as [r|] eqn:E; [|done]. intros [= <-].
    assert (Ec : Nodos.arp r.1.1 = (Arp.preguntar (Nodos.arp n) i t).1).
    { revert E. unfold Nodos.preguntar. destruct (Arp.preguntar (Nodos.arp n) i t) as [c [[]|e]]; [|by intros [= <-]..].
      repeat case_match; try done; by intros [= <-]. }
    rewrite Ec. by apply cache_pregunta.
Qed.

(** C31: nobody can put an address in the cache without being asked: in every state
    that a node reaches from nothing, whatever frames came and in whatever
    order, an address that [buscar] gives for [i] is one that announced
    itself as [i], in a frame of its own, less than three seconds after this
    node asked for [i]. *)
Theorem cache_sin_intrusos m i h n quien cuando mac : vivido m i h n -> Arp.buscar (Nodos.arp n) quien cuando = Some mac -> anunciada h quien mac.
Proof.
  intros V. assert (H : cache_ok h (Nodos.arp n)).
  { induction V as [|h n e n' V IH E]; [|by eapply sucede_cache]. cbn [Nodos.nuevo Nodos.arp]. unfold Arp.nueva. split; cbn [Arp.preguntas Arp.filas].
    - intros p Hp Hu. apply elem_of_replicate in Hp as [-> _]. discriminate Hu.
    - intros f Hf Hu. apply elem_of_replicate in Hf as [-> _]. discriminate Hu. }
  unfold Arp.buscar. destruct (position _ (Arp.filas (Nodos.arp n))) as [k|] eqn:Ek; [|done]. cbn [mbind option_bind].
  apply position_Some in Ek as (f & Hf & [[Hu Hi]%andb_true_iff _]%andb_true_iff & _). rewrite Hf. intros [= <-].
  apply bool_decide_eq_true in Hi. rewrite <- Hi. apply (co_filas _ _ H); [by eapply list_elem_of_lookup_2|done].
Qed.

(** [nodo_a] asks for the address of [nodo_b], and it answers. *)
Definition arp_1 : Nodos.Nodo := default nodo_a (sucede nodo_a (Pide (Nodos.ip nodo_b) 1000 (replicate 60 7))).
Definition arp_pregunta : list Z :=
  match Nodos.preguntar nodo_a (Nodos.ip nodo_b) 1000 (replicate 60 7) with Some (_, s, Ok (Some k)) => take k s | _ => [] end.
Definition arp_respuesta : list Z :=
  match Nodos.atender nodo_b arp_pregunta 5 (replicate 60 7) with Some (_, s, Ok (Nodos.Contestar k)) => take k s | _ => [] end.
Definition arp_2 : Nodos.Nodo := default nodo_a (sucede arp_1 (Llega arp_respuesta 1500 [])).
Definition arp_historia : list evento := [Llega arp_respuesta 1500 []; Pide (Nodos.ip nodo_b) 1000 (replicate 60 7)].

Lemma corrida_arp : vivido (Nodos.mac nodo_a) (Nodos.ip nodo_a) arp_historia arp_2.
Proof.
  apply (VMas _ _ _ arp_1); [apply (VMas _ _ _ nodo_a); [exact (VNada _ _)|]|]; vm_compute; reflexivity.
Qed.

Lemma cache_sin_intrusos_witness :
  Arp.buscar (Nodos.arp arp_2) (Nodos.ip nodo_b) 1600 = Some (Nodos.mac nodo_b) /\ anunciada arp_historia (Nodos.ip nodo_b) (Nodos.mac nodo_b).
Proof.
  assert (Hb : Arp.buscar (Nodos.arp arp_2) (Nodos.ip nodo_b) 1600 = Some (Nodos.mac nodo_b)) by (vm_compute; reflexivity).
  split; [exact Hb|]. exact (cache_sin_intrusos _ _ _ _ _ _ _ corrida_arp Hb).
Defined.
