(* ===== verification/Sha2.v ===== *)
(** SHA-256 and SHA-512, HMAC and HKDF: that feeding a message in pieces is
    hashing it whole, that the padding is the one of FIPS 180-4, and that the
    keys derived are those of RFC 5869.
    Sources: src/platform/shared/bmo-cripto/src/{sha256,sha512,hmac}.rs.

    The two hashes share the feeding of blocks and the closing: the Section
    below is that text once, and a Module per hash gives it its words, its block
    and its length. [be n z] are the [n] bytes of [z] in big-endian order. *)

From Stdlib Require Import ZifyNat.
From S2P Require Import Prelude.

Definition be (n : nat) (z : Z) : list Z := reverse (le n z).
Definition of_be (b : list Z) : Z := of_le (reverse b).

(** * The engine: blocks, what waits for a block, and the closing *)

Record Estado := mkEstado { h : list Z; resto : list Z; pendientes : nat; total : Z }.

Section Motor.
Context (BLOQUE : nat) (W : Z) (RAICES : list Z) (bloque : list Z -> list Z -> list Z).
Context (ANCHO : nat) (LARGO_BITS : nat).

Definition nuevo : Estado := mkEstado RAICES (replicate BLOQUE 0) 0 0.

(** [while i + BLOQUE <= datos.len()]; the fuel is the length of what is left. *)
Fixpoint enteros (fuel : nat) (hs datos : list Z) : list Z * list Z :=
  match fuel with
  | O => (hs, datos)
  | S fuel => if (BLOQUE <=? length datos)%nat then enteros fuel (bloque hs (take BLOQUE datos)) (drop BLOQUE datos)
              else (hs, datos)
  end.

(** [total] counts bytes in an integer of [W] bits. *)
Definition mete (s : Estado) (datos : list Z) : Estado :=
  let total := (total s + Z.of_nat (length datos)) mod 2 ^ W in
  let '(s, datos) :=
    if (0 <? pendientes s)%nat then
      let cuantos := Nat.min (BLOQUE - pendientes s) (length datos) in
      let resto := put (pendientes s) (take cuantos datos) (resto s) in
      let pendientes := (pendientes s + cuantos)%nat in
      if (pendientes =? BLOQUE)%nat then (mkEstado (bloque (h s) resto) resto 0 total, drop cuantos datos)
      else (mkEstado (h s) resto pendientes total, drop cuantos datos)
    else (mkEstado (h s) (resto s) (pendientes s) total, datos) in
  let '(hs, sobra) := enteros (length datos) (h s) datos in
  if (0 <? length sobra)%nat then mkEstado hs (put 0 sobra (resto s)) (length sobra) total
  else mkEstado hs (resto s) (pendientes s) total.

(** [while pendientes != BLOQUE - LARGO_BITS]: zeros until the length fits. *)
Fixpoint ceros (fuel : nat) (s : Estado) : Estado :=
  match fuel with
  | O => s
  | S fuel => if (pendientes s =? BLOQUE - LARGO_BITS)%nat then s else ceros fuel (mete s [0])
  end.

Definition cierra (s : Estado) : list Z :=
  let bits := (total s * 8) mod 2 ^ W in
  let s := ceros BLOQUE (mete s [0x80]) in
  let s := mete s (be LARGO_BITS bits) in
  h s ≫= be ANCHO.

Definition hash (datos : list Z) : list Z := cierra (mete nuevo datos).

End Motor.

(** * SHA-256 *)

Module Sha256.

Definition LARGO : nat := 32.
Definition BLOQUE : nat := 64.

Definition RAICES : list Z :=
  [0x6a09e667; 0xbb67ae85; 0x3c6ef372; 0xa54ff53a;
   0x510e527f; 0x9b05688c; 0x1f83d9ab; 0x5be0cd19].

(** The table, by the rows of the source. *)
Definition K : list Z := concat
  [[0x428a2f98; 0x71374491; 0xb5c0fbcf; 0xe9b5dba5; 0x3956c25b; 0x59f111f1; 0x923f82a4; 0xab1c5ed5];
   [0xd807aa98; 0x12835b01; 0x243185be; 0x550c7dc3; 0x72be5d74; 0x80deb1fe; 0x9bdc06a7; 0xc19bf174];
   [0xe49b69c1; 0xefbe4786; 0x0fc19dc6; 0x240ca1cc; 0x2de92c6f; 0x4a7484aa; 0x5cb0a9dc; 0x76f988da];
   [0x983e5152; 0xa831c66d; 0xb00327c8; 0xbf597fc7; 0xc6e00bf3; 0xd5a79147; 0x06ca6351; 0x14292967];
   [0x27b70a85; 0x2e1b2138; 0x4d2c6dfc; 0x53380d13; 0x650a7354; 0x766a0abb; 0x81c2c92e; 0x92722c85];
   [0xa2bfe8a1; 0xa81a664b; 0xc24b8b70; 0xc76c51a3; 0xd192e819; 0xd6990624; 0xf40e3585; 0x106aa070];
   [0x19a4c116; 0x1e376c08; 0x2748774c; 0x34b0bcb5; 0x391c0cb3; 0x4ed8aa4a; 0x5b9cca4f; 0x682e6ff3];
   [0x748f82ee; 0x78a5636f; 0x84c87814; 0x8cc70208; 0x90befffa; 0xa4506ceb; 0xbef9a3f7; 0xc67178f2]].

Definition ror (x n : Z) : Z := Z.lor (Z.shiftr x n) (w32 (Z.shiftl x (32 - n))).

(** The sixteen words of a block and the forty-eight that follow. *)
Definition palabra (w : list Z) (i : nat) : Z :=
  let s0 := Z.lxor (Z.lxor (ror (w !!! (i - 15)%nat) 7) (ror (w !!! (i - 15)%nat) 18)) (Z.shiftr (w !!! (i - 15)%nat) 3) in
  let s1 := Z.lxor (Z.lxor (ror (w !!! (i - 2)%nat) 17) (ror (w !!! (i - 2)%nat) 19)) (Z.shiftr (w !!! (i - 2)%nat) 10) in
  w32 (w32 (w32 (w !!! (i - 16)%nat + s0) + w !!! (i - 7)%nat) + s1).

Definition agenda (b : list Z) : list Z :=
  foldl (fun w i => w ++ [palabra w i]) ((fun i => of_be (slice (i * 4) 4 b)) <$> seq 0 16) (seq 16 48).

Definition vuelta (w : list Z) (v : list Z) (i : nat) : list Z :=
  match v with
  | [a; bb; c; d; e; f; g; hh] =>
      let s1 := Z.lxor (Z.lxor (ror e 6) (ror e 11)) (ror e 25) in
      let ch := Z.lxor (Z.land e f) (Z.land (2 ^ 32 - 1 - e) g) in
      let t1 := w32 (w32 (w32 (w32 (hh + s1) + ch) + K !!! i) + w !!! i) in
      let s0 := Z.lxor (Z.lxor (ror a 2) (ror a 13)) (ror a 22) in
      let maj := Z.lxor (Z.lxor (Z.land a bb) (Z.land a c)) (Z.land bb c) in
      let t2 := w32 (s0 + maj) in
      [w32 (t1 + t2); a; bb; c; w32 (d + t1); e; f; g]
  | _ => v
  end.

Definition bloque (hs b : list Z) : list Z :=
  zip_with (fun x y => w32 (x + y)) hs (foldl (vuelta (agenda b)) hs (seq 0 64)).

Definition nuevo : Estado := nuevo BLOQUE RAICES.
Definition mete : Estado -> list Z -> Estado := mete BLOQUE 64 bloque.
Definition cierra : Estado -> list Z := cierra BLOQUE 64 bloque 4 8.
Definition hash : list Z -> list Z := hash BLOQUE 64 RAICES bloque 4 8.

End Sha256.

(** * SHA-512 *)

Module Sha512.

Definition LARGO : nat := 64.
Definition BLOQUE : nat := 128.

Definition RAICES : list Z :=
  [0x6a09e667f3bcc908; 0xbb67ae8584caa73b; 0x3c6ef372fe94f82b; 0xa54ff53a5f1d36f1;
   0x510e527fade682d1; 0x9b05688c2b3e6c1f; 0x1f83d9abfb41bd6b; 0x5be0cd19137e2179].

Definition K : list Z :=
  [0x428a2f98d728ae22; 0x7137449123ef65cd; 0xb5c0fbcfec4d3b2f; 0xe9b5dba58189dbbc;
   0x3956c25bf348b538; 0x59f111f1b605d019; 0x923f82a4af194f9b; 0xab1c5ed5da6d8118;
   0xd807aa98a3030242; 0x12835b0145706fbe; 0x243185be4ee4b28c; 0x550c7dc3d5ffb4e2;
   0x72be5d74f27b896f; 0x80deb1fe3b1696b1; 0x9bdc06a725c71235; 0xc19bf174cf692694;
   0xe49b69c19ef14ad2; 0xefbe4786384f25e3; 0x0fc19dc68b8cd5b5; 0x240ca1cc77ac9c65;
   0x2de92c6f592b0275; 0x4a7484aa6ea6e483; 0x5cb0a9dcbd41fbd4; 0x76f988da831153b5;
   0x983e5152ee66dfab; 0xa831c66d2db43210; 0xb00327c898fb213f; 0xbf597fc7beef0ee4;
   0xc6e00bf33da88fc2; 0xd5a79147930aa725; 0x06ca6351e003826f; 0x142929670a0e6e70;
   0x27b70a8546d22ffc; 0x2e1b21385c26c926; 0x4d2c6dfc5ac42aed; 0x53380d139d95b3df;
   0x650a73548baf63de; 0x766a0abb3c77b2a8; 0x81c2c92e47edaee6; 0x92722c851482353b;
   0xa2bfe8a14cf10364; 0xa81a664bbc423001; 0xc24b8b70d0f89791; 0xc76c51a30654be30;
   0xd192e819d6ef5218; 0xd69906245565a910; 0xf40e35855771202a; 0x106aa07032bbd1b8;
   0x19a4c116b8d2d0c8; 0x1e376c085141ab53; 0x2748774cdf8eeb99; 0x34b0bcb5e19b48a8;
   0x391c0cb3c5c95a63; 0x4ed8aa4ae3418acb; 0x5b9cca4f7763e373; 0x682e6ff3d6b2b8a3;
   0x748f82ee5defb2fc; 0x78a5636f43172f60; 0x84c87814a1f0ab72; 0x8cc702081a6439ec;
   0x90befffa23631e28; 0xa4506cebde82bde9; 0xbef9a3f7b2c67915; 0xc67178f2e372532b;
   0xca273eceea26619c; 0xd186b8c721c0c207; 0xeada7dd6cde0eb1e; 0xf57d4f7fee6ed178;
   0x06f067aa72176fba; 0x0a637dc5a2c898a6; 0x113f9804bef90dae; 0x1b710b35131c471b;
   0x28db77f523047d84; 0x32caab7b40c72493; 0x3c9ebe0a15c9bebc; 0x431d67c49c100d4c;
   0x4cc5d4becb3e42b6; 0x597f299cfc657e2a; 0x5fcb6fab3ad6faec; 0x6c44198c4a475817].

Definition ror (x n : Z) : Z := Z.lor (Z.shiftr x n) (w64 (Z.shiftl x (64 - n))).

Definition palabra (w : list Z) (i : nat) : Z :=
  let s0 := Z.lxor (Z.lxor (ror (w !!! (i - 15)%nat) 1) (ror (w !!! (i - 15)%nat) 8)) (Z.shiftr (w !!! (i - 15)%nat) 7) in
  let s1 := Z.lxor (Z.lxor (ror (w !!! (i - 2)%nat) 19) (ror (w !!! (i - 2)%nat) 61)) (Z.shiftr (w !!! (i - 2)%nat) 6) in
  w64 (w64 (w64 (w !!! (i - 16)%nat + s0) + w !!! (i - 7)%nat) + s1).

Definition agenda (b : list Z) : list Z :=
  foldl (fun w i => w ++ [palabra w i]) ((fun i => of_be (slice (i * 8) 8 b)) <$> seq 0 16) (seq 16 64).

Definition vuelta (w : list Z) (v : list Z) (i : nat) : list Z :=
  match v with
  | [a; bb; c; d; e; f; g; hh] =>
      let s1 := Z.lxor (Z.lxor (ror e 14) (ror e 18)) (ror e 41) in
      let ch := Z.lxor (Z.land e f) (Z.land (2 ^ 64 - 1 - e) g) in
      let t1 := w64 (w64 (w64 (w64 (hh + s1) + ch) + K !!! i) + w !!! i) in
      let s0 := Z.lxor (Z.lxor (ror a 28) (ror a 34)) (ror a 39) in
      let maj := Z.lxor (Z.lxor (Z.land a bb) (Z.land a c)) (Z.land bb c) in
      let t2 := w64 (s0 + maj) in
      [w64 (t1 + t2); a; bb; c; w64 (d + t1); e; f; g]
  | _ => v
  end.

Definition bloque (hs b : list Z) : list Z :=
  zip_with (fun x y => w64 (x + y)) hs (foldl (vuelta (agenda b)) hs (seq 0 80)).

Definition nuevo : Estado := nuevo BLOQUE RAICES.
Definition mete : Estado -> list Z -> Estado := mete BLOQUE 128 bloque.
Definition cierra : Estado -> list Z := cierra BLOQUE 128 bloque 8 16.
Definition hash : list Z -> list Z := hash BLOQUE 128 RAICES bloque 8 16.

End Sha512.

(** * HMAC and HKDF *)

Module Hmac.

Definition hmac (clave mensaje : list Z) : list Z :=
  let k := replicate Sha256.BLOQUE 0 in
  let k := if (Sha256.BLOQUE <? length clave)%nat then put 0 (Sha256.hash clave) k else put 0 clave k in
  let ipad := zip_with Z.lxor (replicate Sha256.BLOQUE 0x36) k in
  let opad := zip_with Z.lxor (replicate Sha256.BLOQUE 0x5C) k in
  let interior := Sha256.cierra (Sha256.mete (Sha256.mete Sha256.nuevo ipad) mensaje) in
  Sha256.cierra (Sha256.mete (Sha256.mete Sha256.nuevo opad) interior).

Definition iguales (a b : list Z) : bool := foldl Z.lor 0 (zip_with Z.lxor a b) =? 0.

Definition extraer (sal secreto : list Z) : list Z := hmac sal secreto.

(** [for n in 1..=bloques]: [previo] is [None] while [hay_previo] is false. *)
Fixpoint expandir_bucle (quedan n : nat) (llave etiqueta : list Z) (previo : option (list Z)) (puesto : nat) (salida : list Z) : list Z * bool :=
  match quedan with
  | O => (salida, true)
  | S quedan =>
      let entrada := replicate (Sha256.LARGO + 256 + 1) 0 in
      let '(entrada, k) := match previo with Some q => (put 0 q entrada, Sha256.LARGO) | None => (entrada, O) end in
      if (256 <? length etiqueta)%nat then (salida, false) else
      let entrada := put k etiqueta entrada in
      let k := (k + length etiqueta)%nat in
      let entrada := put k [w8 (Z.of_nat n)] entrada in
      let k := (k + 1)%nat in
      let previo := hmac llave (take k entrada) in
      let cuantos := Nat.min Sha256.LARGO (length salida - puesto) in
      expandir_bucle quedan (S n) llave etiqueta (Some previo) (puesto + cuantos) (put puesto (take cuantos previo) salida)
  end.

Definition expandir (llave etiqueta salida : list Z) : list Z * bool :=
  let bloques := ((length salida + 31) / 32)%nat in
  if (255 <? bloques)%nat then (salida, false) else expandir_bucle bloques 1 llave etiqueta None 0 salida.

End Hmac.

(** * The reference: the padded message, block by block *)

Definition trozos (n : nat) (l : list Z) : list (list Z) := (fun i => slice (i * n) n l) <$> seq 0 (length l / n).

Section Referencia.
Context (BLOQUE : nat) (W : Z) (RAICES : list Z) (bloque : list Z -> list Z -> list Z).
Context (ANCHO : nat) (LARGO_BITS : nat).

(** Zeros after the [0x80] when it leaves [r] bytes in the last block. *)
Definition faltan (r : nat) : nat :=
  if (r <=? BLOQUE - LARGO_BITS)%nat then (BLOQUE - LARGO_BITS - r)%nat else (BLOQUE + (BLOQUE - LARGO_BITS) - r)%nat.

Definition relleno (m : list Z) : list Z :=
  m ++ [0x80] ++ replicate (faltan ((length m + 1) mod BLOQUE)) 0 ++ be LARGO_BITS ((8 * Z.of_nat (length m)) mod 2 ^ W).

Definition hash_ref (m : list Z) : list Z := foldl bloque RAICES (trozos BLOQUE (relleno m)) ≫= be ANCHO.

Context (HB : (0 < LARGO_BITS < BLOQUE)%nat) (HW : 0 <= W).

Abbreviation enteros := (enteros BLOQUE bloque).
Abbreviation mete := (mete BLOQUE W bloque).
Abbreviation ceros := (ceros BLOQUE W bloque LARGO_BITS).

Lemma trozos_concat n bs : (0 < n)%nat -> Forall (fun b => length b = n) bs -> trozos n (concat bs) = bs.
Proof.
  intros Hn Hb. assert (Hl : length (concat bs) = (length bs * n)%nat) by (induction Hb; cbn; [done|rewrite length_app; lia]).
  unfold trozos. rewrite Hl, Nat.div_mul by lia. apply list_eq. intros i. rewrite list_lookup_fmap.
  destruct (Nat.lt_ge_cases i (length bs)) as [Hi|Hi].
  - rewrite lookup_seq_lt by done. cbn. destruct (lookup_lt_is_Some_2 bs i Hi) as [x Hx]. rewrite Hx. f_equal.
    rewrite <- (list_fmap_id bs) at 1. by apply (slice_celda id n bs i x).
  - rewrite (lookup_ge_None_2 bs) by done. by rewrite lookup_seq_ge.
Qed.

Lemma enteros_spec fuel : forall hs datos, (length datos <= fuel)%nat -> exists bs sobra,
  enteros fuel hs datos = (foldl bloque hs bs, sobra) /\ Forall (fun b => length b = BLOQUE) bs /\
  concat bs ++ sobra = datos /\ (length sobra < BLOQUE)%nat.
Proof.
  induction fuel as [|fuel IH]; intros hs datos Hf; cbn [Sha2.enteros].
  - exists [], datos. split_and!; [done|done|done|lia].
  - destruct (Nat.leb_spec BLOQUE (length datos)) as [Hd|Hd].
    + destruct (IH (bloque hs (take BLOQUE datos)) (drop BLOQUE datos)) as (bs & sobra & E & Hb & Ec & Hs); [rewrite length_drop; lia|].
      exists (take BLOQUE datos :: bs), sobra. split_and!; [done| |cbn; by rewrite <- app_assoc, Ec, take_drop|done].
      constructor; [rewrite length_take; lia|done].
    + exists [], datos. by split_and!.
Qed.

(** [s] has taken in the message [m]. *)
Record lleva (m : list Z) (s : Estado) : Prop := {
  ll_resto : length (resto s) = BLOQUE;
  ll_pend : (pendientes s < BLOQUE)%nat;
  ll_partes : exists bs, Forall (fun b => length b = BLOQUE) bs /\ h s = foldl bloque RAICES bs /\
    m = concat bs ++ take (pendientes s) (resto s);
  ll_total : total s = Z.of_nat (length m) mod 2 ^ W
}.

Lemma lleva_nuevo : lleva [] (nuevo BLOQUE RAICES).
Proof. split; cbn; [by rewrite length_replicate|lia|exists []; by split_and!|by rewrite Zmod_0_l]. Qed.

Lemma tras_bloques bs (b : list Z) :
  Forall (fun b => length b = BLOQUE) bs -> length b = BLOQUE -> foldl bloque RAICES (bs ++ [b]) = bloque (foldl bloque RAICES bs) b.
Proof. intros. by rewrite foldl_app. Qed.

(** The end of [mete]: whole blocks from the data, and what is left waits. *)
Lemma lleva_cola m hs rs datos t bs : length rs = BLOQUE -> Forall (fun b => length b = BLOQUE) bs ->
  hs = foldl bloque RAICES bs -> m = concat bs -> t = Z.of_nat (length (m ++ datos)) mod 2 ^ W ->
  lleva (m ++ datos)
    (let '(hs', sobra) := enteros (length datos) hs datos in
     if (0 <? length sobra)%nat then mkEstado hs' (put 0 sobra rs) (length sobra) t else mkEstado hs' rs 0 t).
Proof.
  intros Hr Hb -> -> Ht. destruct (enteros_spec (length datos) (foldl bloque RAICES bs) datos) as (bs' & sobra & -> & Hb' & <- & Hs); [done|].
  rewrite <- foldl_app. destruct (Nat.ltb_spec 0 (length sobra)) as [H0|H0].
  - split; cbn [resto pendientes h total]; [rewrite length_put; lia|done| |done].
    exists (bs ++ bs'). split_and!; [by apply Forall_app|done|]. rewrite concat_app, app_assoc. f_equal.
    rewrite <- slice_0. symmetry. apply slice_put_eq; [done|lia].
  - destruct sobra; [|cbn in H0; lia]. split; cbn [resto pendientes h total]; [done|lia| |done].
    exists (bs ++ bs'). split_and!; [by apply Forall_app|done|]. by rewrite concat_app, app_assoc.
Qed.

Lemma lleva_mete m s datos : lleva m s -> lleva (m ++ datos) (mete s datos).
Proof.
  intros [Hr Hp (bs & Hb & Hh & Hm) Ht]. unfold Sha2.mete. set (t := (total s + _) mod _).
  assert (Ht' : t = Z.of_nat (length (m ++ datos)) mod 2 ^ W).
  { unfold t. rewrite Ht, Z.add_mod_idemp_l by (pose proof (Z.pow_pos_nonneg 2 W); lia). f_equal. rewrite length_app. lia. }
  clearbody t. destruct (Nat.ltb_spec 0 (pendientes s)) as [H0|H0].
  - set (k := Nat.min (BLOQUE - pendientes s) (length datos)).
    assert (Hk : length (take k datos) = k) by (rewrite length_take; lia).
    assert (Ep : take (pendientes s + k) (put (pendientes s) (take k datos) (resto s)) = take (pendientes s) (resto s) ++ take k datos).
    { unfold put. rewrite app_assoc. apply take_app_length'. rewrite length_app, length_take, Hk. lia. }
    assert (Lp : length (put (pendientes s) (take k datos) (resto s)) = BLOQUE) by (rewrite length_put; lia).
    set (rs := put _ _ _) in *. clearbody rs.
    assert (Em : m ++ datos = (m ++ take k datos) ++ drop k datos) by (by rewrite <- app_assoc, take_drop).
    rewrite Em in *. clear Em.
    destruct (Nat.eqb_spec (pendientes s + k) BLOQUE) as [E|E]; cbn [h resto pendientes total].
    + rewrite E, take_ge in Ep by lia.
      apply (lleva_cola _ _ _ _ _ (bs ++ [rs])); [done|apply Forall_app; split; [done|by repeat constructor]|by rewrite foldl_app, <- Hh|
        by rewrite Hm, concat_app, <- app_assoc, Ep; cbn; rewrite app_nil_r|done].
    + assert (drop k datos = []) as Ed by (apply drop_ge; lia). rewrite Ed in *.
      cbn [length Sha2.enteros Nat.ltb Nat.leb]. rewrite app_nil_r in *.
      split; cbn [resto pendientes h total]; [done|lia| |done]. exists bs. split_and!; [done|done|].
      by rewrite Ep, Hm, app_assoc.
  - assert (pendientes s = 0%nat) as E0 by lia. rewrite E0 in *. cbn [h resto pendientes total].
    apply (lleva_cola _ _ _ _ _ bs); [done|done|done|by rewrite Hm, take_0, app_nil_r|done].
Qed.

Lemma lleva_pendientes m s : lleva m s -> pendientes s = (length m mod BLOQUE)%nat.
Proof.
  intros [Hr Hp (bs & Hb & _ & ->) _]. rewrite length_app, length_take.
  assert (Hl : length (concat bs) = (length bs * BLOQUE)%nat) by (clear -Hb; induction Hb; cbn; [done|rewrite length_app; lia]).
  rewrite Hl, Nat.add_comm, Nat.Div0.mod_add, Nat.mod_small; lia.
Qed.

(** The zeros: as many as are missing, and the fuel of one block is enough. *)
Lemma lleva_ceros fuel : forall m s, lleva m s -> (faltan (length m mod BLOQUE) <= fuel)%nat ->
  lleva (m ++ replicate (faltan (length m mod BLOQUE)) 0) (ceros fuel s).
Proof.
  assert (Hpaso : forall r, (r < BLOQUE)%nat -> r <> (BLOQUE - LARGO_BITS)%nat ->
    faltan r = S (faltan ((r + 1)%nat mod BLOQUE))).
  { intros r Hr Hn. unfold faltan. destruct (Nat.eq_dec (r + 1)%nat BLOQUE) as [E|E].
    - rewrite E, Nat.Div0.mod_same. destruct (Nat.leb_spec r (BLOQUE - LARGO_BITS)%nat), (Nat.leb_spec 0 (BLOQUE - LARGO_BITS)%nat); lia.
    - rewrite (Nat.mod_small (r + 1)%nat) by lia.
      destruct (Nat.leb_spec r (BLOQUE - LARGO_BITS)%nat), (Nat.leb_spec (r + 1)%nat (BLOQUE - LARGO_BITS)%nat); lia. }
  induction fuel as [|fuel IH]; intros m s Hs Hf.
  - replace (faltan _) with 0%nat by lia. cbn. by rewrite app_nil_r.
  - cbn [Sha2.ceros]. rewrite (lleva_pendientes m s Hs).
    assert (Hr : (length m mod BLOQUE < BLOQUE)%nat) by (apply Nat.mod_upper_bound; lia).
    destruct (Nat.eqb_spec (length m mod BLOQUE) (BLOQUE - LARGO_BITS)) as [E|E].
    + assert (faltan (length m mod BLOQUE) = 0%nat) as ->.
      { rewrite E. unfold faltan. rewrite Nat.leb_refl. lia. }
      cbn. by rewrite app_nil_r.
    + rewrite (Hpaso _ Hr E) in *. specialize (IH (m ++ [0]) (mete s [0]) (lleva_mete _ _ [0] Hs)).
      assert (Em : (length (m ++ [0%Z]) mod BLOQUE = (length m mod BLOQUE + 1) mod BLOQUE)%nat).
      { rewrite length_app. cbn [length]. by rewrite Nat.Div0.add_mod_idemp_l. }
      rewrite Em, <- app_assoc in IH. apply IH. lia.
Qed.

Lemma length_be n z : length (be n z) = n.
Proof. unfold be. by rewrite length_reverse, length_le. Qed.

Lemma faltan_menos r : (faltan r < BLOQUE + BLOQUE)%nat.
Proof. unfold faltan. destruct (Nat.leb_spec r (BLOQUE - LARGO_BITS)); lia. Qed.

Lemma length_relleno m : (length (relleno m) mod BLOQUE = 0)%nat.
Proof.
  unfold relleno. rewrite !length_app, length_replicate, length_be. cbn [length].
  set (r := ((length m + 1) mod BLOQUE)%nat). assert (Hr : (r < BLOQUE)%nat) by (apply Nat.mod_upper_bound; lia).
  replace (length m + (1 + (faltan r + LARGO_BITS)))%nat with ((length m + 1) + (faltan r + LARGO_BITS))%nat by lia.
  rewrite <- Nat.Div0.add_mod_idemp_l. fold r. unfold faltan. destruct (Nat.leb_spec r (BLOQUE - LARGO_BITS)).
  - replace (r + _)%nat with BLOQUE by lia. apply Nat.Div0.mod_same.
  - replace (r + _)%nat with (0 + 2 * BLOQUE)%nat by lia. by rewrite Nat.Div0.mod_add, Nat.Div0.mod_0_l.
Qed.

Lemma cierra_es m s : lleva m s -> cierra BLOQUE W bloque ANCHO LARGO_BITS s = hash_ref m.
Proof.
  intros Hs. unfold cierra, hash_ref. cbv zeta. rewrite (ll_total m s Hs).
  assert (Hf : (faltan (length (m ++ [0x80%Z]) mod BLOQUE) <= BLOQUE)%nat).
  { unfold faltan. assert ((length (m ++ [0x80%Z]) mod BLOQUE < BLOQUE)%nat) by (apply Nat.mod_upper_bound; lia).
    destruct (Nat.leb_spec (length (m ++ [0x80%Z]) mod BLOQUE) (BLOQUE - LARGO_BITS)); lia. }
  pose proof (lleva_ceros BLOQUE _ _ (lleva_mete _ _ [0x80] Hs) Hf) as H.
  apply (lleva_mete _ _ (be LARGO_BITS ((8 * Z.of_nat (length m)) mod 2 ^ W))) in H.
  rewrite Z.mul_mod_idemp_l, (Z.mul_comm _ 8) by (pose proof (Z.pow_pos_nonneg 2 W); lia).
  set (s' := mete _ _) in *. clearbody s'.
  assert (E : (m ++ [128]) ++ replicate (faltan (length (m ++ [128%Z]) mod BLOQUE)) 0 = m ++ [128] ++ replicate (faltan ((length m + 1) mod BLOQUE)) 0)
    by (rewrite length_app, <- app_assoc; done).
  rewrite E, <- !app_assoc in H. fold (relleno m) in H.
  pose proof (lleva_pendientes _ _ H) as Hp. rewrite length_relleno in Hp.
  destruct H as [_ _ (bs & Hb & -> & Hm) _]. rewrite Hp, take_0, app_nil_r in Hm. by rewrite Hm, trozos_concat by (done || lia).
Qed.

(** Feeding a message in any pieces and closing is hashing it whole. *)
Lemma por_partes_es ps : cierra BLOQUE W bloque ANCHO LARGO_BITS (foldl mete (nuevo BLOQUE RAICES) ps) = hash_ref (concat ps).
Proof.
  apply cierra_es. enough (forall m s, lleva m s -> lleva (m ++ concat ps) (foldl mete s ps)) as H by apply (H [] _ lleva_nuevo).
  induction ps as [|x ps IH]; intros m s Hs; cbn; [by rewrite app_nil_r|].
  rewrite app_assoc. by apply IH, lleva_mete.
Qed.

Lemma hash_es m : hash BLOQUE W RAICES bloque ANCHO LARGO_BITS m = hash_ref m.
Proof. unfold hash. apply cierra_es. exact (lleva_mete [] _ m lleva_nuevo). Qed.

End Referencia.

(** * The two hashes *)

Definition sha256_ref : list Z -> list Z := hash_ref Sha256.BLOQUE 64 Sha256.RAICES Sha256.bloque 4 8.
Definition sha512_ref : list Z -> list Z := hash_ref Sha512.BLOQUE 128 Sha512.RAICES Sha512.bloque 8 16.

Lemma sha256_partes ps : Sha256.cierra (foldl Sha256.mete Sha256.nuevo ps) = sha256_ref (concat ps).
Proof. apply por_partes_es; unfold Sha256.BLOQUE; lia. Qed.

Lemma sha512_partes ps : Sha512.cierra (foldl Sha512.mete Sha512.nuevo ps) = sha512_ref (concat ps).
Proof. apply por_partes_es; unfold Sha512.BLOQUE; lia. Qed.

Lemma sha256_hash m : Sha256.hash m = sha256_ref m.
Proof. apply hash_es; unfold Sha256.BLOQUE; lia. Qed.

Lemma sha512_hash m : Sha512.hash m = sha512_ref m.
Proof. apply hash_es; unfold Sha512.BLOQUE; lia. Qed.

(** C32: The hashes do not depend on how a message is fed: giving SHA-256 or
    SHA-512 the pieces of a message one by one and closing, and hashing it at
    once, are both the compression of the FIPS 180-4 padding of the whole
    message (a one bit, zeros, the length in bits), block after block. *)
Theorem sha2_por_partes ps :
  Sha256.cierra (foldl Sha256.mete Sha256.nuevo ps) = sha256_ref (concat ps) /\ Sha256.hash (concat ps) = sha256_ref (concat ps) /\
  Sha512.cierra (foldl Sha512.mete Sha512.nuevo ps) = sha512_ref (concat ps) /\ Sha512.hash (concat ps) = sha512_ref (concat ps).
Proof. by rewrite sha256_partes, sha256_hash, sha512_partes, sha512_hash. Qed.

(** The tables are the numbers that the standard says they are: the fractional
    bits of the square roots of the first primes, and of their cube roots. *)
Definition primos (n : nat) : list Z :=
  take n (filter (fun q => forallb (fun d => (q <=? d) || negb (q mod d =? 0)) [2; 3; 5; 7; 11; 13; 17; 19] = true) (seqZ 2 420)).
Definition es_raiz (e w q k : Z) : bool :=
  let x := Z.shiftl q (e * w) in
  existsb (fun a => let n := Z.shiftl a w + k in (n ^ e <=? x) && (x <? (n + 1) ^ e)) (seqZ 1 7).

Example tablas_fips :
  forallb id (zip_with (es_raiz 2 32) (primos 8) Sha256.RAICES) && forallb id (zip_with (es_raiz 3 32) (primos 64) Sha256.K) &&
  forallb id (zip_with (es_raiz 2 64) (primos 8) Sha512.RAICES) && forallb id (zip_with (es_raiz 3 64) (primos 80) Sha512.K) &&
  (length (primos 80) =? 80)%nat && (length Sha256.K =? 64)%nat && (length Sha512.K =? 80)%nat = true.
Proof. vm_compute. reflexivity. Qed.

(** The vectors of FIPS 180-4 for the message [abc]. *)
Example sha256_abc : Sha256.hash [97; 98; 99] =
  [0xba; 0x78; 0x16; 0xbf; 0x8f; 0x01; 0xcf; 0xea; 0x41; 0x41; 0x40; 0xde; 0x5d; 0xae; 0x22; 0x23;
   0xb0; 0x03; 0x61; 0xa3; 0x96; 0x17; 0x7a; 0x9c; 0xb4; 0x10; 0xff; 0x61; 0xf2; 0x00; 0x15; 0xad].
Proof. vm_compute. reflexivity. Qed.

Example sha512_abc : take 16 (Sha512.hash [97; 98; 99]) =
  [0xdd; 0xaf; 0x35; 0xa1; 0x93; 0x61; 0x7a; 0xba; 0xcc; 0x41; 0x73; 0x49; 0xae; 0x20; 0x41; 0x31].
Proof. vm_compute. reflexivity. Qed.

Lemma vuelta_8 w v i : length v = 8%nat -> length (Sha256.vuelta w v i) = 8%nat.
Proof. intros H. do 9 (destruct v as [|? v]; try discriminate H). done. Qed.

Lemma bloque_8 hs b : length hs = 8%nat -> length (Sha256.bloque hs b) = 8%nat.
Proof.
  intros H. unfold Sha256.bloque. rewrite length_zip_with_l_eq; [done|]. rewrite H. symmetry.
  revert hs H. generalize (seq 0 64). induction l as [|i l IH]; intros hs H; [exact H|]. cbn [foldl]. apply IH, vuelta_8, H.
Qed.

Lemma length_bind_be n l : length (l ≫= be n) = (length l * n)%nat.
Proof. induction l as [|x l IH]; [done|]. rewrite bind_cons, length_app, length_be, IH. cbn [length]. lia. Qed.

Lemma length_sha256 m : length (Sha256.hash m) = 32%nat.
Proof.
  rewrite sha256_hash. unfold sha256_ref, hash_ref. set (bs := trozos _ _). clearbody bs.
  assert (H : length (foldl Sha256.bloque Sha256.RAICES bs) = 8%nat).
  { revert bs. enough (forall bs hs, length hs = 8%nat -> length (foldl Sha256.bloque hs bs) = 8%nat) as G by (intros; by apply G).
    induction bs as [|b bs IH]; intros hs Hh; [done|]. cbn. by apply IH, bloque_8. }
  rewrite length_bind_be, H. lia.
Qed.

(** * HMAC (RFC 2104) and HKDF (RFC 5869) *)

#[local] Opaque sha256_ref Sha256.hash.

(** The key as one block. *)
Definition llave_bloque (clave : list Z) : list Z :=
  pad 64 (if (64 <? length clave)%nat then sha256_ref clave else clave).

Definition hmac_ref (clave m : list Z) : list Z :=
  let xor n := Z.lxor n <$> llave_bloque clave in
  sha256_ref (xor 0x5C ++ sha256_ref (xor 0x36 ++ m)).

Lemma zip_replicate n x (l : list Z) : length l = n -> zip_with Z.lxor (replicate n x) l = Z.lxor x <$> l.
Proof. intros <-. induction l as [|y l IH]; [done|]. cbn. by f_equal. Qed.

Lemma sha256_dos a b : Sha256.cierra (Sha256.mete (Sha256.mete Sha256.nuevo a) b) = sha256_ref (a ++ b).
Proof. rewrite <- (app_nil_r b) at 2. exact (sha256_partes [a; b]). Qed.

Lemma hmac_es clave m : Hmac.hmac clave m = hmac_ref clave m.
Proof.
  unfold Hmac.hmac, hmac_ref, llave_bloque. rewrite !sha256_dos. change Sha256.BLOQUE with 64%nat.
  rewrite <- (sha256_hash clave). destruct (Nat.ltb_spec 64 (length clave)).
  - rewrite put_zeros by (rewrite length_sha256; lia). by rewrite !zip_replicate by (apply length_pad; rewrite length_sha256; lia).
  - rewrite put_zeros by done. by rewrite !zip_replicate by by apply length_pad.
Qed.

Lemma length_hmac clave m : length (Hmac.hmac clave m) = 32%nat.
Proof. unfold Hmac.hmac. rewrite sha256_dos, <- sha256_hash. apply length_sha256. Qed.

(** T(n + 1), T(n + 2), ... of RFC 5869 after T(n) = [t]. *)
Fixpoint hkdf_t (k n : nat) (prk info t : list Z) : list Z :=
  match k with
  | O => []
  | S k => let t := hmac_ref prk (t ++ info ++ [Z.of_nat (S n)]) in t ++ hkdf_t k (S n) prk info t
  end.
Definition hkdf_ref (prk info : list Z) (l : nat) : list Z := take l (hkdf_t 255 0 prk info []).

Lemma length_hkdf_t k : forall n prk info t, length (hkdf_t k n prk info t) = (32 * k)%nat.
Proof.
  induction k as [|k IH]; intros; [done|]. cbn [hkdf_t]. rewrite length_app, IH, <- hmac_es, length_hmac. lia.
Qed.

Lemma take_pad N b : take (length b) (pad N b) = b.
Proof. unfold pad. apply take_app_length. Qed.

Lemma bucle_es info llave : (length info <= 256)%nat -> forall quedan n previo puesto salida,
  (match previo with Some t => length t = 32%nat | None => True end) -> (S n + quedan <= 256)%nat ->
  (length salida <= puesto + 32 * quedan)%nat -> (quedan = 0 \/ puesto + 32 * (quedan - 1) < length salida)%nat ->
  Hmac.expandir_bucle quedan (S n) llave info previo puesto salida =
    (take puesto salida ++ take (length salida - puesto) (hkdf_t quedan n llave info (default [] previo)), true).
Proof.
  intros Hi. induction quedan as [|q IH]; intros n previo puesto salida Hp Hn H1 H2; cbn [Hmac.expandir_bucle hkdf_t].
  - rewrite take_nil, app_nil_r, take_ge by lia. done.
  - destruct H2 as [H2|H2]; [lia|]. set (t := default [] previo).
    assert (Ent : exists e, (match previo with Some q => (put 0 q (replicate (Sha256.LARGO + 256 + 1) 0), Sha256.LARGO)
                      | None => (replicate (Sha256.LARGO + 256 + 1) 0, O) end) = (e, length t) /\ e = pad 289 t /\ (length t <= 32)%nat).
    { change (Sha256.LARGO + 256 + 1)%nat with 289%nat. destruct previo as [r|].
      - change t with r. exists (put 0 r (replicate 289 0)). rewrite Hp. split_and!; [done|apply put_zeros; lia|lia].
      - exists (replicate 289 0). split_and!; [done|done|cbn; lia]. }
    destruct Ent as (e & -> & -> & Ht). rewrite (proj2 (Nat.ltb_ge 256 (length info))) by done.
    rewrite put_pad by lia. rewrite <- length_app, put_pad by (rewrite length_app; cbn [length]; lia).
    replace (length (t ++ info) + 1)%nat with (length ((t ++ info) ++ [w8 (Z.of_nat (S n))])) by (rewrite (length_app (t ++ info)); done).
    rewrite take_pad, hmac_es, <- app_assoc. replace (w8 (Z.of_nat (S n))) with (Z.of_nat (S n)) by (unfold w8; lia).
    set (t1 := hmac_ref llave (t ++ info ++ [Z.of_nat (S n)])).
    assert (L1 : length t1 = 32%nat) by (unfold t1; rewrite <- hmac_es; apply length_hmac).
    change Sha256.LARGO with 32%nat. set (c := Nat.min 32 (length salida - puesto)).
    assert (Lc : length (take c t1) = c) by (rewrite length_take; lia).
    assert (Ls : length (put puesto (take c t1) salida) = length salida) by (apply length_put; lia).
    rewrite IH; [|done|lia|lia|lia]. rewrite Ls. cbn [default from_option id]. f_equal.
    assert (take (puesto + c) (put puesto (take c t1) salida) = take puesto salida ++ take c t1) as ->.
    { unfold put. rewrite app_assoc. apply take_app_length'. rewrite length_app, length_take. lia. }
    rewrite <- app_assoc. f_equal.
    rewrite take_app, L1. f_equal; [|f_equal; lia]. unfold c. destruct (Nat.le_gt_cases 32 (length salida - puesto)).
    + by rewrite !take_ge by lia.
    + f_equal. lia.
Qed.

Lemma hkdf_t_prefijo b : forall c n k llave info t, (b <= c)%nat -> (n <= 32 * b)%nat ->
  take n (hkdf_t b k llave info t) = take n (hkdf_t c k llave info t).
Proof.
  induction b as [|b IH]; intros c n k llave info t Hc Hn; [by replace n with 0%nat by lia|].
  destruct c as [|c]; [lia|]. cbn [hkdf_t]. rewrite !take_app. f_equal. rewrite <- hmac_es, length_hmac. apply IH; lia.
Qed.

(** The key derivation: HMAC is the one of RFC 2104, also for keys longer
    than a block; the output of [expandir] is the one of HKDF-Expand (RFC
    5869) for every length up to 255 blocks and every label up to 256 bytes,
    and in any other case it says no and leaves the buffer as it was. *)
Theorem hmac_hkdf clave mensaje llave etiqueta salida :
  Hmac.hmac clave mensaje = hmac_ref clave mensaje /\
  Hmac.expandir llave etiqueta salida =
    if (255 * 32 <? length salida)%nat || ((0 <? length salida)%nat && (256 <? length etiqueta)%nat) then (salida, false)
    else (hkdf_ref llave etiqueta (length salida), true).
Proof.
  split; [apply hmac_es|]. unfold Hmac.expandir. set (n := length salida). set (b := ((n + 31) / 32)%nat).
  assert (Hb : (n <= 32 * b < n + 32)%nat) by (unfold b; lia).
  destruct (Nat.ltb_spec 255 b), (Nat.ltb_spec (255 * 32) n); cbn [orb]; try lia; [done|].
  destruct (Nat.ltb_spec 0 n) as [Hpos|Hpos]; cbn [andb].
  - destruct (Nat.ltb_spec 256 (length etiqueta)) as [He|He].
    + destruct b; [lia|]. cbn [Hmac.expandir_bucle]. by rewrite (proj2 (Nat.ltb_lt _ _)) by done.
    + rewrite bucle_es by (done || lia). cbn [take app]. rewrite Nat.sub_0_r. unfold hkdf_ref. f_equal. fold n.
      rewrite (hkdf_t_prefijo b 255) by lia. done.
  - assert (n = 0%nat) as E0 by lia. assert (salida = []) as -> by (apply nil_length_inv; unfold n in E0; lia).
    by replace b with 0%nat by (cbn in *; lia).
Qed.
