(* ===== verification/Primo.v ===== *)
(** The prime of the field: 2^255 - 19 is prime, by a chain of Pocklington
    certificates, and what that gives: the little theorem of Fermat, inverses,
    and square roots of one. Nothing here is a function of the program; [Campo]
    and [Curva] are about the code and use it. *)

From Stdlib Require Import Znumtheory Zpow_facts.
From S2P Require Import Prelude.

(** * The theorem of Fermat *)

Definition producto (l : list Z) : Z := foldr Z.mul 1 l.

Lemma producto_perm l k : l ≡ₚ k -> producto l = producto k.
Proof. induction 1; cbn [producto foldr] in *; unfold producto in *; lia. Qed.

Lemma producto_escala a n l : 0 < n -> producto ((fun x => (a * x) mod n) <$> l) mod n = (a ^ Z.of_nat (length l) * producto l) mod n.
Proof.
  intros Hn. induction l as [|x l IH]; [done|]. rewrite fmap_cons. cbn [producto foldr length] in *.
  rewrite <- Z.mul_mod_idemp_r by lia. unfold producto in IH. rewrite IH, Z.mul_mod_idemp_r, Z.mul_mod_idemp_l by lia.
  rewrite Nat2Z.inj_succ, Z.pow_succ_r by lia. unfold producto. f_equal. lia.
Qed.

Lemma producto_coprimo l n : Forall (fun x => rel_prime x n) l -> rel_prime (producto l) n.
Proof.
  induction 1 as [|x l Hx _ IH]; cbn; [apply rel_prime_1|]. apply rel_prime_sym, rel_prime_mult; by apply rel_prime_sym.
Qed.

Lemma coprimo_menor n x : prime n -> 1 <= x < n -> rel_prime x n.
Proof. intros Hn Hx. apply rel_prime_sym, prime_rel_prime; [done|]. intros H%Z.divide_pos_le; lia. Qed.

Lemma no_divide n x : 0 < n -> x mod n <> 0 -> ~ (n | x).
Proof. intros Hn H D. apply H. by apply Z.mod_divide; [lia|]. Qed.

Lemma prime_pos n : prime n -> 1 < n.
Proof. by intros [H _]. Qed.

Lemma cong_div n x y : 0 < n -> x mod n = y mod n <-> (n | x - y).
Proof.
  intros Hn. rewrite <- Z.mod_divide, Zminus_mod by lia. split.
  - intros ->. rewrite Z.sub_diag. apply Zmod_0_l.
  - intros H. pose proof (Z.mod_pos_bound x n Hn). pose proof (Z.mod_pos_bound y n Hn).
    apply Z.mod_divide in H; [|lia]. destruct H as [k Hk]. revert Hk. generalize dependent (x mod n). generalize dependent (y mod n). intros u Hu v Hv E. assert (k = 0) as -> by nia. lia.
Qed.

(** A factor that does not vanish cancels. *)
Lemma cancela n a x y : prime n -> a mod n <> 0 -> (a * x) mod n = (a * y) mod n -> x mod n = y mod n.
Proof.
  intros Hn Ha H. pose proof (prime_pos n Hn). apply cong_div in H; [|lia]. rewrite <- Z.mul_sub_distr_l in H.
  apply cong_div; [lia|]. apply prime_mult in H as [H|H]; [|done|done]. destruct (no_divide n a ltac:(lia) Ha H).
Qed.

Lemma producto_no_cero n a b : prime n -> a mod n <> 0 -> b mod n <> 0 -> (a * b) mod n <> 0.
Proof.
  intros Hn Ha Hb E. pose proof (prime_pos n Hn). apply Z.mod_divide in E; [|lia].
  apply prime_mult in E as [E|E]; [| |done].
  - exact (no_divide n a ltac:(lia) Ha E).
  - exact (no_divide n b ltac:(lia) Hb E).
Qed.

Lemma fermat n a : prime n -> a mod n <> 0 -> a ^ (n - 1) mod n = 1.
Proof.
  intros Hn Ha. pose proof (prime_pos n Hn) as H1. set (L := seqZ 1 (n - 1)). set (f := fun x => (a * x) mod n).
  assert (In : forall x, x ∈ L <-> 1 <= x < n) by (intros x; unfold L; rewrite elem_of_seqZ; lia).
  assert (Hperm : f <$> L ≡ₚ L).
  { apply submseteq_length_Permutation; [|by rewrite length_fmap].
    apply NoDup_submseteq.
    - apply NoDup_fmap_2_strong; [|apply NoDup_seqZ]. intros x y Hx%In Hy%In E. apply (cancela n a x y) in E; [|done|done].
      by rewrite !Z.mod_small in E by lia.
    - intros x (y & -> & Hy%In)%list_elem_of_fmap. apply In. unfold f. pose proof (Z.mod_pos_bound (a * y) n ltac:(lia)).
      enough ((a * y) mod n <> 0) by lia. apply producto_no_cero; [done..|]. rewrite Z.mod_small; lia. }
  pose proof (producto_escala a n L ltac:(lia)) as E. fold f in E. rewrite (producto_perm _ _ Hperm) in E.
  assert (Hc : rel_prime (producto L) n).
  { apply producto_coprimo, Forall_forall. intros x Hx%In. by apply coprimo_menor. }
  replace (Z.of_nat (length L)) with (n - 1) in E by (unfold L; rewrite length_seqZ; lia).
  transitivity (1 mod n); [symmetry|apply Z.mod_small; lia]. apply (cancela n (producto L)); [done| |rewrite Z.mul_1_r, (Z.mul_comm (producto L)); exact E].
  intros E0. apply Z.mod_divide in E0; [|lia].
  destruct Hc as [_ _ Hc]. pose proof (Hc n E0 (Z.divide_refl n)) as D. apply Z.divide_pos_le in D; lia.
Qed.

(** * Pocklington *)

Section Exponentes.
Context (n a : Z) (Hn : prime n) (Ha : a mod n <> 0).

Lemma potencia_no_cero k : 0 <= k -> a ^ k mod n <> 0.
Proof.
  intros Hk. pose proof (prime_pos n Hn). revert k Hk. apply natlike_ind.
  - change (a ^ 0) with 1. rewrite Z.mod_small; lia.
  - intros k Hk IH. rewrite Z.pow_succ_r by done. by apply producto_no_cero.
Qed.

(** The exponents that give one: closed under remainders, so under the greatest
    common divisor. *)
Lemma uno_resto i j : 0 <= i -> 0 < j -> a ^ i mod n = 1 -> a ^ j mod n = 1 -> a ^ (i mod j) mod n = 1.
Proof.
  intros Hi Hj Ei Ej. pose proof (prime_pos n Hn). pose proof (Z.mod_pos_bound i j Hj). pose proof (Z.div_pos i j Hi Hj).
  rewrite (Z.div_mod i j), Z.pow_add_r, Z.pow_mul_r, Z.mul_mod in Ei by lia.
  rewrite (Zpow_facts.Zpower_mod (a ^ j)), Ej, Z.pow_1_l, (Z.mod_small 1) in Ei by lia.
  by rewrite Z.mul_1_l, Z.mod_mod in Ei by lia.
Qed.

Lemma uno_mcd j : 0 <= j -> forall i, 0 <= i -> a ^ i mod n = 1 -> a ^ j mod n = 1 -> a ^ (Z.gcd i j) mod n = 1.
Proof.
  intros Hj. pattern j. apply Zlt_0_ind; [|done]. clear j Hj. intros j IH Hj i Hi Ei Ej.
  destruct (Z.eq_dec j 0) as [->|Hj0]; [by rewrite Z.gcd_0_r, Z.abs_eq|].
  rewrite Z.gcd_comm, <- Z.gcd_mod, Z.gcd_comm by done. pose proof (Z.mod_pos_bound i j ltac:(lia)).
  apply (IH (i mod j)); [lia|done|done|]. by apply uno_resto; [|lia|..].
Qed.

(** A prime that divides [m] and is needed in the exponent divides [n - 1]. *)
Lemma factor_del_orden m r : prime r -> 0 < m -> (r | m) -> a ^ m mod n = 1 -> a ^ (m / r) mod n <> 1 -> (r | n - 1).
Proof.
  intros Hr Hm Dr Em Er. pose proof (prime_pos n Hn). pose proof (prime_pos r Hr).
  assert (Eg : a ^ Z.gcd m (n - 1) mod n = 1) by (apply uno_mcd; [lia|lia|done|by apply fermat]).
  pose proof (Z.gcd_divide_r m (n - 1)) as Dn. destruct (Z.gcd_divide_l m (n - 1)) as [h Hh].
  pose proof (Z.gcd_nonneg m (n - 1)) as Hg. revert Eg Dn Hh Hg. generalize (Z.gcd m (n - 1)). intros g Eg Dn Hh Hg0.
  assert (Hg : 0 < g) by (destruct (Z.eq_dec g 0) as [->|]; lia).
  assert (r | g) as Dg.
  { rewrite Hh in Dr. apply prime_mult in Dr as [[k Hk]|D]; [exfalso|done|done]. apply Er.
    assert (m / r = g * k) as -> by (symmetry; apply Z.div_unique_exact; [lia|]; rewrite Hh, Hk; lia).
    assert (0 < k) as Hk0.
    { apply (Z.mul_pos_cancel_r k r); [clear -H0; lia|]. rewrite <- Hk. apply (Z.mul_pos_cancel_r h g); [done|]. by rewrite <- Hh. }
    rewrite Z.pow_mul_r by (clear -Hg Hk0; lia). rewrite Zpow_facts.Zpower_mod, Eg, Z.pow_1_l by (clear -H Hk0; lia). apply Z.mod_small. clear -H; lia. }
  by etrans; [exact Dg|].
Qed.

End Exponentes.

(** Distinct primes that divide a number divide it together. *)
Lemma producto_divide rs m : NoDup rs -> Forall prime rs -> Forall (fun r => (r | m)) rs -> (producto rs | m).
Proof.
  induction rs as [|r rs IH]; intros Hn Hp Hd; cbn; [apply Z.divide_1_l|].
  apply NoDup_cons in Hn as [Hr Hn]. apply Forall_cons in Hp as [Pr Hp]. apply Forall_cons in Hd as [Dr Hd].
  destruct (IH Hn Hp Hd) as [k Hk]. fold (producto rs) in *.
  assert (rel_prime r (producto rs)) as Hc.
  { apply rel_prime_sym, producto_coprimo. apply Forall_forall. intros x Hx. apply prime_rel_prime; [exact (proj1 (Forall_forall _ _) Hp x Hx)|].
    intros D. apply Hr. rewrite Forall_forall in Hp. by rewrite <- (prime_div_prime x r (Hp x Hx) Pr D). }
  rewrite Hk, Z.mul_comm in Dr. destruct (Gauss _ _ _ Dr Hc) as [q ->]. exists q. rewrite Hk. lia.
Qed.

(** Every divisor of a number all of whose prime divisors are one modulo [f]. *)
Lemma divisores_uno f m : (forall l, prime l -> (l | m) -> (f | l - 1)) -> forall d, 0 < d -> (d | m) -> (f | d - 1).
Proof.
  intros H d Hd. enough (G : 0 < d -> (d | m) -> (f | d - 1)) by auto.
  revert d Hd. enough (G : forall d, 0 <= d -> 0 < d -> (d | m) -> (f | d - 1)) by (intros d Hd; apply G; lia).
  apply (Z_lt_induction (fun d => 0 < d -> (d | m) -> (f | d - 1))). intros d IH Hd Dd. destruct (Z.eq_dec d 1) as [->|]; [apply Z.divide_0_r|].
  destruct (prime_dec d) as [Pd|Nd]; [by apply H|]. apply not_prime_divide in Nd as (x & Hx & [y ->]); [|lia].
  assert (Hy : 0 < y < y * x) by nia.
  destruct (IH x ltac:(lia) ltac:(lia)) as [u Hu]; [etrans; [|exact Dd]; by exists y|].
  destruct (IH y ltac:(lia) ltac:(lia)) as [v Hv]; [etrans; [|exact Dd]; exists x; lia|].
  exists (v * x + u). lia.
Qed.

(** A congruence modulo a number holds modulo its divisors. *)
Lemma cong_divisor n l x y : 0 < n -> 0 < l -> (l | n) -> x mod n = y mod n -> x mod l = y mod l.
Proof. intros Hn Hl D H%cong_div; [|done]. apply cong_div; [done|]. by etrans. Qed.

Lemma pocklington n a rs : 1 < n -> NoDup rs -> Forall prime rs -> Forall (fun r => (r | n - 1)) rs ->
  a ^ (n - 1) mod n = 1 -> Forall (fun r => Z.gcd (a ^ ((n - 1) / r) mod n - 1) n = 1) rs -> n < producto rs * producto rs -> prime n.
Proof.
  intros Hn Nd Pr Dr Ea Eg Hf.
  assert (Hd : forall l, prime l -> (l | n) -> (producto rs | l - 1)).
  { intros l Pl Dl. pose proof (prime_pos l Pl) as Hl.
    assert (E1 : a ^ (n - 1) mod l = 1).
    { transitivity (1 mod l); [|apply Z.mod_small; lia]. apply (cong_divisor n); [lia|lia|done|]. by rewrite Ea, Z.mod_small by lia. }
    assert (Ha : a mod l <> 0).
    { intros E0. rewrite Zpow_facts.Zpower_mod, E0, Z.pow_0_l, Z.mod_0_l in E1 by lia. done. }
    apply producto_divide; [done..|]. apply Forall_forall. intros r Hr. rewrite Forall_forall in Pr, Dr, Eg.
    apply (factor_del_orden l a Pl Ha (n - 1) r); [by apply Pr|lia|by apply Dr|done|].
    intros E. specialize (Eg r Hr). assert (l | 1) as D1.
    { rewrite <- Eg. apply Z.gcd_greatest; [|done]. apply cong_div; [lia|]. transitivity 1; [|symmetry; apply Z.mod_small; lia]. etransitivity; [|exact E].
      apply (cong_divisor n); [lia|lia|done|]. apply Z.mod_mod. lia. }
    apply Z.divide_pos_le in D1; lia. }
  assert (H1 : forall d, 1 < d -> (d | n) -> producto rs < d).
  { intros d H1 Dd. pose proof (divisores_uno _ _ Hd d ltac:(lia) Dd) as D.
    destruct (Z.le_gt_cases (producto rs) 0); [lia|]. apply Z.divide_pos_le in D; lia. }
  destruct (prime_dec n) as [|Np]; [done|]. apply not_prime_divide in Np as (x & Hx & [y Hy]); [|done].
  assert (1 < y) by (clear -Hx Hy Hn; nia).
  pose proof (H1 x ltac:(lia) ltac:(by exists y)). pose proof (H1 y ltac:(lia) ltac:(exists x; lia)).
  destruct (Z.le_gt_cases (producto rs) 0); [|clear -Hf Hy H0 H2 H3; nia].
  destruct rs as [|r rs]; [cbn in *; lia|]. exfalso.
  assert (Hp : forall k, Forall prime k -> 0 < producto k).
  { induction 1 as [|z k Hz _ IH]; cbn; [lia|]. apply Z.mul_pos_pos; [pose proof (prime_pos z Hz); lia|done]. }
  specialize (Hp _ Pr). lia.
Qed.

(** Small primes, by trial. *)
Fixpoint sin_divisores (k : nat) (d n : Z) : bool :=
  match k with O => n <? d * d | S k => negb (n mod d =? 0) && sin_divisores k (d + 1) n end.

Lemma sin_divisores_bien k : forall d n, sin_divisores k d n = true -> 0 < d -> 
  forall x, d <= x -> x * x <= n -> ~ (x | n).
Proof.
  induction k as [|k IH]; intros d n H Hd x Hx Hn D; cbn in H.
  - apply Z.ltb_lt in H. nia.
  - apply andb_prop in H as [H1 H2]. destruct (Z.eq_dec x d) as [->|].
    + apply Z.mod_divide in D; [|lia]. by rewrite D in H1.
    + by apply (IH _ _ H2 ltac:(lia) x); [lia|..].
Qed.

Lemma primo_de_prueba k n : 1 < n -> sin_divisores k 2 n = true -> prime n.
Proof.
  intros Hn H. destruct (prime_dec n) as [|Np]; [done|]. apply not_prime_divide in Np as (x & Hx & [y ->]); [|done].
  exfalso. destruct (Z.le_ge_cases x y).
  - apply (sin_divisores_bien k 2 _ H ltac:(lia) x); [lia|nia|by exists y].
  - apply (sin_divisores_bien k 2 _ H ltac:(lia) y); [nia|nia|exists x; lia].
Qed.

(** * 2^255 - 19 *)

(** What a certificate with base 2 asks of [n]: the powers, computed by
    repeated squaring. *)
Definition certificado (n : Z) (rs : list Z) : bool :=
  (1 <? n) && (Zpow_mod 2 (n - 1) n =? 1) && (n <? producto rs * producto rs)
  && forallb (fun r => ((n - 1) mod r =? 0) && (Z.gcd (Zpow_mod 2 ((n - 1) / r) n - 1) n =? 1)) rs.

Lemma certificado_primo n rs : certificado n rs = true -> NoDup rs -> Forall prime rs -> prime n.
Proof.
  unfold certificado. intros [[[H1 H2]%andb_prop H3]%andb_prop H4]%andb_prop Nd Pr.
  apply Z.ltb_lt in H1, H3. rewrite Zpow_mod_correct in H2 by lia. apply Z.eqb_eq in H2.
  rewrite forallb_forall in H4. setoid_rewrite <- list_elem_of_In in H4.
  apply (pocklington n 2 rs); try done; apply Forall_forall; intros r Hr; specialize (H4 r Hr);
    apply andb_prop in H4 as [D%Z.eqb_eq G%Z.eqb_eq].
  - rewrite Forall_forall in Pr. apply Z.mod_divide; [pose proof (prime_pos r (Pr r Hr)); lia|done].
  - by rewrite Zpow_mod_correct in G by lia.
Qed.

Ltac por_prueba k := apply (primo_de_prueba k); [done|vm_compute; reflexivity].

Lemma primo_1 : prime 1919519569386763.
Proof.
  apply (certificado_primo _ [8574133; 127; 47]); [vm_compute; reflexivity|apply (bool_decide_unpack _); vm_compute; exact I|].
  rewrite !Forall_cons, Forall_nil. split_and!; [por_prueba 2930%nat|por_prueba 10%nat|por_prueba 5%nat|done].
Qed.

Lemma primo_2 : prime 75445702479781427272750846543864801.
Proof.
  apply (certificado_primo _ [1919519569386763; 75707]); [vm_compute; reflexivity|apply (bool_decide_unpack _); vm_compute; exact I|].
  rewrite !Forall_cons, Forall_nil. split_and!; [exact primo_1|por_prueba 280%nat|done].
Qed.

Lemma primo_3 : prime 74058212732561358302231226437062788676166966415465897661863160754340907.
Proof.
  apply (certificado_primo _ [75445702479781427272750846543864801; 353]); [vm_compute; reflexivity|apply (bool_decide_unpack _); vm_compute; exact I|].
  rewrite !Forall_cons, Forall_nil. split_and!; [exact primo_2|por_prueba 18%nat|done].
Qed.

Lemma primo_25519 : prime (2 ^ 255 - 19).
Proof.
  apply (certificado_primo _ [74058212732561358302231226437062788676166966415465897661863160754340907]);
    [vm_compute; reflexivity|apply (bool_decide_unpack _); vm_compute; exact I|].
  rewrite Forall_cons, Forall_nil. split; [exact primo_3|done].
Qed.
