(* ===== verification/Campo.v ===== *)
(** Arithmetic modulo 2^255 - 19 in five limbs of 51 bits, the field under
    X25519 and Ed25519: that it computes the field operations, that no
    intermediate overflows, and that every element has one canonical encoding.
    Source: src/platform/shared/bmo-cripto/src/campo25519.rs.

    [Fe] is [[u64; 5]]. The arithmetic wraps at the width of the code (u64, and
    u128 inside [mul]); the bound [apretado] is what makes the wraps idle, and
    every operation establishes it again. *)

From S2P Require Import Prelude Primo.

(** * The code *)

Record Fe := mkFe { l0 : Z; l1 : Z; l2 : Z; l3 : Z; l4 : Z }.

Definition w128 (z : Z) : Z := z mod 2 ^ 128.

Definition M : Z := w64 (Z.shiftl 1 51) - 1.
Definition DOS_P : Fe :=
  mkFe 0xFFFFFFFFFFFDA 0xFFFFFFFFFFFFE 0xFFFFFFFFFFFFE 0xFFFFFFFFFFFFE 0xFFFFFFFFFFFFE.
Definition CERO : Fe := mkFe 0 0 0 0 0.
Definition UNO : Fe := mkFe 1 0 0 0 0.

Definition llevar (a : Fe) : Fe :=
  let c := Z.shiftr (l0 a) 51 in let a0 := Z.land (l0 a) M in let a1 := w64 (l1 a + c) in
  let c := Z.shiftr a1 51 in let a1 := Z.land a1 M in let a2 := w64 (l2 a + c) in
  let c := Z.shiftr a2 51 in let a2 := Z.land a2 M in let a3 := w64 (l3 a + c) in
  let c := Z.shiftr a3 51 in let a3 := Z.land a3 M in let a4 := w64 (l4 a + c) in
  let c := Z.shiftr a4 51 in let a4 := Z.land a4 M in let a0 := w64 (a0 + w64 (c * 19)) in
  let c := Z.shiftr a0 51 in let a0 := Z.land a0 M in let a1 := w64 (a1 + c) in
  mkFe a0 a1 a2 a3 a4.

Definition suma (a b : Fe) : Fe :=
  llevar (mkFe (l0 a +w l0 b) (l1 a +w l1 b) (l2 a +w l2 b) (l3 a +w l3 b) (l4 a +w l4 b)).

Definition resta (a b : Fe) : Fe :=
  llevar (mkFe (l0 a +w l0 DOS_P -w l0 b) (l1 a +w l1 DOS_P -w l1 b) (l2 a +w l2 DOS_P -w l2 b)
               (l3 a +w l3 DOS_P -w l3 b) (l4 a +w l4 DOS_P -w l4 b)).

(** [+] and [*] on u128. *)
Definition s128 (a b : Z) : Z := w128 (a + b).
Definition m128 (a b : Z) : Z := w128 (a * b).

(** The end of [mul]: the carries of the five columns. *)
Definition acarreo (r0 r1 r2 r3 r4 : Z) : Fe :=
  let c := Z.shiftr r0 51 in let t0 := w64 (Z.land r0 M) in let r1 := s128 r1 c in
  let c := Z.shiftr r1 51 in let t1 := w64 (Z.land r1 M) in let r2 := s128 r2 c in
  let c := Z.shiftr r2 51 in let t2 := w64 (Z.land r2 M) in let r3 := s128 r3 c in
  let c := Z.shiftr r3 51 in let t3 := w64 (Z.land r3 M) in let r4 := s128 r4 c in
  let c := Z.shiftr r4 51 in let t4 := w64 (Z.land r4 M) in
  let t0 := w64 (t0 + w64 (w64 c * 19)) in
  let cc := Z.shiftr t0 51 in let t0 := Z.land t0 M in let t1 := w64 (t1 + cc) in
  mkFe t0 t1 t2 t3 t4.

Definition mul (a b : Fe) : Fe :=
  let '(mkFe a0 a1 a2 a3 a4) := a in
  let '(mkFe b0 b1 b2 b3 b4) := b in
  let b1_19 := m128 b1 19 in
  let b2_19 := m128 b2 19 in
  let b3_19 := m128 b3 19 in
  let b4_19 := m128 b4 19 in
  let col p q r s t := s128 (s128 (s128 (s128 p q) r) s) t in
  let r0 := col (m128 a0 b0) (m128 a1 b4_19) (m128 a2 b3_19) (m128 a3 b2_19) (m128 a4 b1_19) in
  let r1 := col (m128 a0 b1) (m128 a1 b0) (m128 a2 b4_19) (m128 a3 b3_19) (m128 a4 b2_19) in
  let r2 := col (m128 a0 b2) (m128 a1 b1) (m128 a2 b0) (m128 a3 b4_19) (m128 a4 b3_19) in
  let r3 := col (m128 a0 b3) (m128 a1 b2) (m128 a2 b1) (m128 a3 b0) (m128 a4 b4_19) in
  let r4 := col (m128 a0 b4) (m128 a1 b3) (m128 a2 b2) (m128 a3 b1) (m128 a4 b0) in
  acarreo r0 r1 r2 r3 r4.

Definition cuadrado (a : Fe) : Fe := mul a a.

Fixpoint cuadrado_n (a : Fe) (n : nat) : Fe :=
  match n with O => a | S n => cuadrado_n (cuadrado a) n end.

Definition invertir (a : Fe) : Fe :=
  let z2 := cuadrado a in
  let z8 := cuadrado_n z2 2 in
  let z9 := mul z8 a in
  let z11 := mul z9 z2 in
  let z22 := cuadrado z11 in
  let z_5_0 := mul z22 z9 in
  let z_10_0 := mul (cuadrado_n z_5_0 5) z_5_0 in
  let z_20_0 := mul (cuadrado_n z_10_0 10) z_10_0 in
  let z_40_0 := mul (cuadrado_n z_20_0 20) z_20_0 in
  let z_50_0 := mul (cuadrado_n z_40_0 10) z_10_0 in
  let z_100_0 := mul (cuadrado_n z_50_0 50) z_50_0 in
  let z_200_0 := mul (cuadrado_n z_100_0 100) z_100_0 in
  let z_250_0 := mul (cuadrado_n z_200_0 50) z_50_0 in
  mul (cuadrado_n z_250_0 5) z11.

(** One limb of the swap without a branch. *)
Definition cruza (mascara a b : Z) : Z * Z :=
  let t := Z.land mascara (Z.lxor a b) in (Z.lxor a t, Z.lxor b t).

Definition intercambio (cual : Z) (a b : Fe) : Fe * Fe :=
  let mascara := w64 (0 - cual) in
  let x i := cruza mascara (i a) (i b) in
  (mkFe (x l0).1 (x l1).1 (x l2).1 (x l3).1 (x l4).1, mkFe (x l0).2 (x l1).2 (x l2).2 (x l3).2 (x l4).2).

Definition desde_bytes (b : list Z) : Fe :=
  let l i := of_le (slice i 8 b) in
  mkFe (Z.land (l 0%nat) M) (Z.land (Z.shiftr (l 6%nat) 3) M) (Z.land (Z.shiftr (l 12%nat) 6) M)
       (Z.land (Z.shiftr (l 19%nat) 1) M) (Z.land (Z.shiftr (l 24%nat) 12) M).

(** The subtraction of p in [a_bytes]: how many times it fits, and doing it. *)
Definition cociente (t : Fe) : Z :=
  let q := Z.shiftr (l0 t +w 19) 51 in
  let q := Z.shiftr (l1 t +w q) 51 in
  let q := Z.shiftr (l2 t +w q) 51 in
  let q := Z.shiftr (l3 t +w q) 51 in
  Z.shiftr (l4 t +w q) 51.

Definition descuenta (t : Fe) (q : Z) : Fe :=
  let t0 := w64 (l0 t + w64 (19 * q)) in
  let c := Z.shiftr t0 51 in let t0 := Z.land t0 M in let t1 := w64 (l1 t + c) in
  let c := Z.shiftr t1 51 in let t1 := Z.land t1 M in let t2 := w64 (l2 t + c) in
  let c := Z.shiftr t2 51 in let t2 := Z.land t2 M in let t3 := w64 (l3 t + c) in
  let c := Z.shiftr t3 51 in let t3 := Z.land t3 M in let t4 := w64 (l4 t + c) in
  mkFe t0 t1 t2 t3 (Z.land t4 M).

(** The [while bits >= 8 && o < 32] of the packing; [bits] loses eight each
    time, so [bits] turns are enough. *)
Fixpoint saca (fuel : nat) (acc : Z) (bits : nat) (s : list Z) : Z * nat * list Z :=
  match fuel with
  | O => (acc, bits, s)
  | S fuel =>
      if (8 <=? bits)%nat && (length s <? 32)%nat
      then saca fuel (Z.shiftr acc 8) (bits - 8) (s ++ [Z.land acc 0xFF])
      else (acc, bits, s)
  end.

Fixpoint empaqueta (ls : list Z) (acc : Z) (bits : nat) (s : list Z) : list Z :=
  match ls with
  | [] => s ++ le (32 - length s) acc
  | x :: ls =>
      let acc := Z.lor acc (w128 (Z.shiftl x (Z.of_nat bits))) in
      let '(acc, bits, s) := saca (bits + 51) acc (bits + 51) s in
      empaqueta ls acc bits s
  end.

Definition limbos (a : Fe) : list Z := [l0 a; l1 a; l2 a; l3 a; l4 a].

Definition a_bytes (a : Fe) : list Z :=
  let t := llevar (llevar a) in
  empaqueta (limbos (descuenta t (cociente t))) 0 0 [].

(** * Values and bounds *)

Definition p : Z := 2 ^ 255 - 19.

Definition val (a : Fe) : Z := l0 a + 2 ^ 51 * l1 a + 2 ^ 102 * l2 a + 2 ^ 153 * l3 a + 2 ^ 204 * l4 a.

(** The element of the field that the limbs stand for. *)
Definition fe (a : Fe) : Z := val a mod p.

Definition limbos_en (n : Z) (a : Fe) : Prop :=
  0 <= l0 a < n /\ 0 <= l1 a < n /\ 0 <= l2 a < n /\ 0 <= l3 a < n /\ 0 <= l4 a < n.

(** What every operation leaves: limbs of 51 bits but for the last carry. *)
Definition apretado (a : Fe) : Prop := limbos_en (2 ^ 51 + 2 ^ 13) a.

Lemma corte z : Z.shiftr z 51 = z / 2 ^ 51.
Proof. by rewrite Z.shiftr_div_pow2. Qed.

Lemma resto_M z : Z.land z M = z mod 2 ^ 51.
Proof. exact (land_ones_mod z 51 ltac:(done)). Qed.

(** One link of a carry chain. *)
Lemma eslabon z : 0 <= z -> exists c r, Z.shiftr z 51 = c /\ Z.land z M = r /\ z = 2 ^ 51 * c + r /\ 0 <= c /\ 0 <= r < 2 ^ 51.
Proof.
  intros Hz. exists (z / 2 ^ 51), (z mod 2 ^ 51). rewrite corte, resto_M.
  pose proof (Z.div_mod z (2 ^ 51)). pose proof (Z.mod_pos_bound z (2 ^ 51)). pose proof (Z.div_pos z (2 ^ 51)). lia.
Qed.

Ltac enlaza z :=
  let c := fresh "c" in let r := fresh "r" in let Hc := fresh "Hc" in let Hr := fresh "Hr" in
  let E := fresh "E" in
  destruct (eslabon z) as (c & r & Hc & Hr & E & ? & ?);
  [ lia | rewrite ?Hc, ?Hr in *; clear Hc Hr ].

Lemma llevar_bien a : limbos_en (2 ^ 54) a ->
  limbos_en (2 ^ 51 + 1) (llevar a) /\ exists k, 0 <= k < 16 /\ val a = val (llevar a) + k * p.
Proof.
  destruct a as [a0 a1 a2 a3 a4]. unfold limbos_en, llevar, val, p. cbn [l0 l1 l2 l3 l4]. intros H.
  enlaza a0. rewrite (w64_small (a1 + c)) by (unfold is_u64; lia).
  enlaza (a1 + c). rewrite (w64_small (a2 + _)) by (unfold is_u64; lia).
  enlaza (a2 + c0). rewrite (w64_small (a3 + _)) by (unfold is_u64; lia).
  enlaza (a3 + c1). rewrite (w64_small (a4 + _)) by (unfold is_u64; lia).
  enlaza (a4 + c2). rewrite (w64_small (c3 * 19)) by (unfold is_u64; lia).
  rewrite (w64_small (r + _)) by (unfold is_u64; lia).
  enlaza (r + c3 * 19). rewrite (w64_small (r0 + c4)) by (unfold is_u64; lia).
  split; [lia|]. exists c3. lia.
Qed.

Lemma apretado_menor a : limbos_en (2 ^ 51 + 1) a -> apretado a.
Proof. unfold apretado, limbos_en. lia. Qed.

Lemma apretado_val a : apretado a -> 0 <= val a < 2 ^ 256.
Proof. unfold apretado, limbos_en, val. lia. Qed.

Lemma fe_rango a : 0 <= fe a < p.
Proof. apply Z.mod_pos_bound. done. Qed.

(** The same class modulo p, through a quotient. *)
Lemma fe_cong a z k : val a = z + k * p -> fe a = z mod p.
Proof. unfold fe. intros ->. apply Z.mod_add. done. Qed.

Lemma mod_cong x y k : x = y + k * p -> x mod p = y mod p.
Proof. intros ->. apply Z.mod_add. done. Qed.

Lemma suma_bien a b : apretado a -> apretado b -> apretado (suma a b) /\ fe (suma a b) = (fe a + fe b) mod p.
Proof.
  intros Ha Hb. unfold suma, fe at 2 3. rewrite <- Z.add_mod by done.
  destruct a as [a0 a1 a2 a3 a4], b as [b0 b1 b2 b3 b4]. unfold apretado, limbos_en in Ha, Hb. cbn [l0 l1 l2 l3 l4] in *.
  rewrite !w64_small by (unfold is_u64; lia).
  edestruct llevar_bien as (Hr & k & _ & Hk); [|split; [exact (apretado_menor _ Hr)|]].
  - unfold limbos_en. cbn [l0 l1 l2 l3 l4]. lia.
  - apply (fe_cong _ _ (- k)). unfold val in *. cbn [l0 l1 l2 l3 l4] in *. lia.
Qed.

Lemma resta_bien a b : apretado a -> apretado b -> apretado (resta a b) /\ fe (resta a b) = (fe a - fe b) mod p.
Proof.
  intros Ha Hb. unfold resta, fe at 2 3. rewrite <- Zminus_mod.
  destruct a as [a0 a1 a2 a3 a4], b as [b0 b1 b2 b3 b4]. unfold apretado, limbos_en in Ha, Hb.
  cbn [l0 l1 l2 l3 l4 DOS_P] in *.
  rewrite !(w64_small (_ + _)), !w64_small by (unfold is_u64; lia).
  edestruct llevar_bien as (Hr & k & _ & Hk); [|split; [exact (apretado_menor _ Hr)|]].
  - unfold limbos_en. cbn [l0 l1 l2 l3 l4]. lia.
  - apply (fe_cong _ _ (2 - k)). unfold val, p in *. cbn [l0 l1 l2 l3 l4] in *. lia.
Qed.

Lemma w128_small z : 0 <= z < 2 ^ 128 -> w128 z = z.
Proof. intros. unfold w128. by rewrite Z.mod_small. Qed.

Lemma acarreo_bien r0 r1 r2 r3 r4 :
  0 <= r0 < 2 ^ 112 -> 0 <= r1 < 2 ^ 112 -> 0 <= r2 < 2 ^ 112 -> 0 <= r3 < 2 ^ 112 -> 0 <= r4 < 2 ^ 107 ->
  apretado (acarreo r0 r1 r2 r3 r4) /\
  fe (acarreo r0 r1 r2 r3 r4) = (r0 + 2 ^ 51 * r1 + 2 ^ 102 * r2 + 2 ^ 153 * r3 + 2 ^ 204 * r4) mod p.
Proof.
  intros. unfold acarreo, s128.
  enlaza r0. rewrite (w128_small (r1 + _)) by lia.
  enlaza (r1 + c). rewrite (w128_small (r2 + _)) by lia.
  enlaza (r2 + c0). rewrite (w128_small (r3 + _)) by lia.
  enlaza (r3 + c1). rewrite (w128_small (r4 + _)) by lia.
  enlaza (r4 + c2).
  rewrite (w64_small r), (w64_small r5), (w64_small r6), (w64_small r7), (w64_small r8), (w64_small c3),
    (w64_small (c3 * 19)), (w64_small (r + c3 * 19)) by (unfold is_u64; lia).
  enlaza (r + c3 * 19). rewrite (w64_small (r5 + c4)) by (unfold is_u64; lia).
  split.
  - unfold apretado, limbos_en. cbn [l0 l1 l2 l3 l4]. lia.
  - apply (fe_cong _ _ (- c3)). unfold val, p. cbn [l0 l1 l2 l3 l4]. lia.
Qed.

(** The bound of one product of a column. *)
Lemma producto_cabe x y m n : 0 <= x < m -> 0 <= y < n -> 0 <= x * y < m * n.
Proof. nia. Qed.

(** The product of two values, column by column. *)
Lemma columnas_ident a0 a1 a2 a3 a4 b0 b1 b2 b3 b4 :
  val (mkFe a0 a1 a2 a3 a4) * val (mkFe b0 b1 b2 b3 b4) =
    (a0 * b0 + a1 * b4 * 19 + a2 * b3 * 19 + a3 * b2 * 19 + a4 * b1 * 19)
    + 2 ^ 51 * (a0 * b1 + a1 * b0 + a2 * b4 * 19 + a3 * b3 * 19 + a4 * b2 * 19)
    + 2 ^ 102 * (a0 * b2 + a1 * b1 + a2 * b0 + a3 * b4 * 19 + a4 * b3 * 19)
    + 2 ^ 153 * (a0 * b3 + a1 * b2 + a2 * b1 + a3 * b0 + a4 * b4 * 19)
    + 2 ^ 204 * (a0 * b4 + a1 * b3 + a2 * b2 + a3 * b1 + a4 * b0)
    + (a1 * b4 + a2 * b3 + a3 * b2 + a4 * b1 + 2 ^ 51 * (a2 * b4 + a3 * b3 + a4 * b2)
       + 2 ^ 102 * (a3 * b4 + a4 * b3) + 2 ^ 153 * (a4 * b4)) * p.
Proof. unfold val, p. cbn [l0 l1 l2 l3 l4]. ring. Qed.

Lemma columna a b c d e : 0 <= a < 2 ^ 108 -> 0 <= b < 2 ^ 108 -> 0 <= c < 2 ^ 108 ->
  0 <= d < 2 ^ 108 -> 0 <= e < 2 ^ 108 -> s128 (s128 (s128 (s128 a b) c) d) e = a + b + c + d + e.
Proof.
  intros. unfold s128.
  by rewrite (w128_small (a + b)), (w128_small (a + b + c)), (w128_small (a + b + c + d)), w128_small by lia.
Qed.

Lemma mul_bien a b : apretado a -> apretado b -> apretado (mul a b) /\ fe (mul a b) = (fe a * fe b) mod p.
Proof.
  intros Ha Hb. unfold fe at 2 3. rewrite <- Z.mul_mod by done.
  destruct a as [a0 a1 a2 a3 a4], b as [b0 b1 b2 b3 b4]. unfold apretado, limbos_en in Ha, Hb.
  cbn [l0 l1 l2 l3 l4] in *. destruct Ha as (A0 & A1 & A2 & A3 & A4), Hb as (B0 & B1 & B2 & B3 & B4).
  assert (P : forall x y, 0 <= x < 2 ^ 51 + 2 ^ 13 -> 0 <= y < 2 ^ 51 + 2 ^ 13 -> 0 <= x * y < 2 ^ 103)
    by (intros x y Hx Hy; pose proof (producto_cabe _ _ _ _ Hx Hy); lia).
  unfold mul, m128. rewrite !(w128_small (_ * 19)) by lia.
  rewrite !(Z.mul_assoc _ _ 19).
  erewrite (mod_cong (val _ * val _) _ _ (columnas_ident a0 a1 a2 a3 a4 b0 b1 b2 b3 b4)).
  repeat match goal with |- context [?x * ?y] =>
    first [is_var x | fail]; first [is_var y | fail];
    let q := fresh "q" in pose proof (P x y ltac:(assumption) ltac:(assumption)); set (q := x * y) in *; clearbody q end.
  rewrite !w128_small by lia. rewrite !columna by lia. apply acarreo_bien; lia.
Qed.

(** * Powers and the inverse *)

Section Potencias.
Context (a : Fe) (Ha : apretado a).

(** [x] stands for a power of [a]. *)
Definition potencia (x : Fe) (e : Z) : Prop := apretado x /\ 0 <= e /\ fe x = fe a ^ e mod p.

Lemma potencia_1 : potencia a 1.
Proof. split; [done|]. split; [lia|]. rewrite Z.pow_1_r. symmetry. apply Z.mod_small, fe_rango. Qed.

Lemma potencia_mul x y e f : potencia x e -> potencia y f -> potencia (mul x y) (e + f).
Proof.
  intros (Hx & He & Ex) (Hy & Hf & Ey). destruct (mul_bien x y Hx Hy) as [Hr E].
  split; [done|]. split; [lia|]. by rewrite E, Ex, Ey, <- Z.mul_mod, Z.pow_add_r.
Qed.

Lemma potencia_cuadrado x e : potencia x e -> potencia (cuadrado x) (2 * e).
Proof. intros H. replace (2 * e) with (e + e) by lia. by apply potencia_mul. Qed.

Lemma potencia_n n : forall x e, potencia x e -> potencia (cuadrado_n x n) (2 ^ Z.of_nat n * e).
Proof.
  induction n as [|n IH]; intros x e H.
  - by replace (2 ^ Z.of_nat 0 * e) with e by lia.
  - rewrite Nat2Z.inj_succ, Z.pow_succ_r by lia. replace (2 * 2 ^ Z.of_nat n * e) with (2 ^ Z.of_nat n * (2 * e)) by lia.
    by apply IH, potencia_cuadrado.
Qed.

Lemma potencia_es x e f : potencia x e -> e = f -> potencia x f.
Proof. by intros ? <-. Qed.

(** A value with a name, of which only the power it is matters later. *)
Lemma potencia_let v e f (k : Fe -> Fe) : potencia v e -> (forall z, potencia z e -> potencia (k z) f) -> potencia (k v) f.
Proof. auto. Qed.

Ltac nombra :=
  match goal with |- potencia (let z := ?v in @?k z) ?f =>
    eapply (potencia_let v _ f k);
    [ first [apply potencia_mul; [try apply potencia_n|]; eassumption
            | apply potencia_n; eassumption | apply potencia_cuadrado; eassumption]
    | let z := fresh "z" in let H := fresh "H" in intros z H; cbv beta ]
  end.

Lemma invertir_potencia : potencia (invertir a) (p - 2).
Proof.
  pose proof potencia_1. cbv delta [invertir]. cbv beta. do 13 nombra.
  eapply potencia_es; [apply potencia_mul; [apply potencia_n|]; eassumption|reflexivity].
Qed.

End Potencias.

Lemma invertir_bien a : apretado a -> apretado (invertir a) /\ fe (invertir a) = fe a ^ (p - 2) mod p.
Proof. intros Ha. destruct (invertir_potencia a Ha) as (H & _ & E). done. Qed.

(** * The swap *)

Lemma lxor_lxor a b : Z.lxor a (Z.lxor a b) = b.
Proof. by rewrite <- Z.lxor_assoc, Z.lxor_nilpotent, Z.lxor_0_l. Qed.

Lemma cruza_bien (c : bool) a b : is_u64 a -> is_u64 b ->
  cruza (w64 (0 - Z.b2z c)) a b = if c then (b, a) else (a, b).
Proof.
  intros Ha Hb. unfold cruza. destruct c; cbn [Z.b2z].
  - replace (Z.land (w64 (0 - 1)) (Z.lxor a b)) with (Z.lxor a b).
    { by rewrite lxor_lxor, (Z.lxor_comm a b), lxor_lxor. }
    symmetry. change (w64 (0 - 1)) with (2 ^ 64 - 1). rewrite Z.land_comm, land_ones_mod by done.
    apply Z.mod_small. split; [by apply Z.lxor_nonneg; unfold is_u64 in *; lia|].
    destruct (Z.eq_dec (Z.lxor a b) 0) as [->|]; [done|]. unfold is_u64 in *.
    assert (Z.lxor a b >= 0) by (apply Z.le_ge, Z.lxor_nonneg; lia).
    apply Z.log2_lt_pow2; [lia|]. pose proof (Z.log2_lxor a b ltac:(lia) ltac:(lia)).
    assert (L : forall z, 0 <= z < 2 ^ 64 -> Z.log2 z < 64)
      by (intros z Hz; destruct (Z.eq_dec z 0) as [->|]; [done|]; apply Z.log2_lt_pow2; lia).
    pose proof (L a Ha). pose proof (L b Hb). lia.
  - change (w64 (0 - 0)) with 0. by rewrite Z.land_0_l, !Z.lxor_0_r.
Qed.

Lemma apretado_u64 a : apretado a -> is_u64 (l0 a) /\ is_u64 (l1 a) /\ is_u64 (l2 a) /\ is_u64 (l3 a) /\ is_u64 (l4 a).
Proof. unfold apretado, limbos_en, is_u64. lia. Qed.

Lemma intercambio_bien (c : bool) a b : apretado a -> apretado b ->
  intercambio (Z.b2z c) a b = if c then (b, a) else (a, b).
Proof.
  intros (A0 & A1 & A2 & A3 & A4)%apretado_u64 (B0 & B1 & B2 & B3 & B4)%apretado_u64.
  unfold intercambio. rewrite !cruza_bien by done. by destruct a, b, c.
Qed.

(** * Bytes *)

Lemma octetos_dec l : bool_decide (Forall is_u8 l) = true -> Forall is_u8 l.
Proof. apply bool_decide_eq_true. Qed.

Lemma of_le_app a b : of_le (a ++ b) = of_le a + 2 ^ (8 * Z.of_nat (length a)) * of_le b.
Proof.
  induction a as [|x a IH]; [cbn; lia|]. cbn [app of_le length]. rewrite IH.
  replace (8 * Z.of_nat (S (length a))) with (8 + 8 * Z.of_nat (length a)) by lia. rewrite Z.pow_add_r by lia. lia.
Qed.

Lemma of_le_slice i n b : Forall is_u8 b -> (i + n <= length b)%nat ->
  of_le (slice i n b) = of_le b / 2 ^ (8 * Z.of_nat i) mod 2 ^ (8 * Z.of_nat n).
Proof.
  intros Hb Hl. unfold slice. rewrite <- (take_drop i b) at 2. rewrite <- (take_drop n (drop i b)) at 2.
  assert (H1 : 0 <= of_le (take i b) < 2 ^ (8 * Z.of_nat i)).
  { pose proof (of_le_range (take i b) ltac:(by apply Forall_take)) as H. rewrite length_take in H. by replace (i `min` length b)%nat with i in H by lia. }
  assert (H2 : 0 <= of_le (take n (drop i b)) < 2 ^ (8 * Z.of_nat n)).
  { pose proof (of_le_range (take n (drop i b)) ltac:(by apply Forall_take, Forall_drop)) as H. rewrite length_take, length_drop in H.
    by replace (n `min` (length b - i))%nat with n in H by lia. }
  rewrite !of_le_app, !length_take, length_drop.
  replace (i `min` length b)%nat with i by lia. replace (n `min` (length b - i))%nat with n by lia.
  rewrite (Z.mul_comm _ (of_le _ + _)), Z.div_add by (pose proof (Z.pow_pos_nonneg 2 (8 * Z.of_nat i)); lia).
  rewrite Z.div_small, Z.add_0_l by done. rewrite Z.mul_comm, Z.mod_add by (pose proof (Z.pow_pos_nonneg 2 (8 * Z.of_nat n)); lia).
  by rewrite Z.mod_small.
Qed.

(** A field of bits read through a window of 64. *)
Lemma ventana v a s : 0 <= a -> 0 <= s <= 13 -> v / 2 ^ a mod 2 ^ 64 / 2 ^ s mod 2 ^ 51 = v / 2 ^ (a + s) mod 2 ^ 51.
Proof.
  intros Ha Hs. apply Z.bits_inj'. intros i Hi. destruct (Z.lt_ge_cases i 51).
  - rewrite !Z.mod_pow2_bits_low, !Z.div_pow2_bits, Z.mod_pow2_bits_low, Z.div_pow2_bits by lia. f_equal. lia.
  - by rewrite !Z.mod_pow2_bits_high by lia.
Qed.

Lemma parte_bits v m n : 0 <= m -> 0 <= n -> v mod 2 ^ (m + n) = v mod 2 ^ m + 2 ^ m * (v / 2 ^ m mod 2 ^ n).
Proof.
  intros. rewrite Z.pow_add_r by done.
  apply Z.rem_mul_r; [pose proof (Z.pow_pos_nonneg 2 m); lia|apply Z.pow_pos_nonneg; lia].
Qed.

Lemma cinco_limbos v : v mod 2 ^ 255 = v mod 2 ^ 51 + 2 ^ 51 * (v / 2 ^ 51 mod 2 ^ 51) + 2 ^ 102 * (v / 2 ^ 102 mod 2 ^ 51)
  + 2 ^ 153 * (v / 2 ^ 153 mod 2 ^ 51) + 2 ^ 204 * (v / 2 ^ 204 mod 2 ^ 51).
Proof.
  change 255 with (204 + 51) at 1. rewrite parte_bits by done. change 204 with (153 + 51) at 1. rewrite parte_bits by done.
  change 153 with (102 + 51) at 1. rewrite parte_bits by done. change 102 with (51 + 51) at 1. by rewrite parte_bits.
Qed.

Lemma desde_bytes_bien b : length b = 32%nat -> Forall is_u8 b ->
  limbos_en (2 ^ 51) (desde_bytes b) /\ val (desde_bytes b) = of_le b mod 2 ^ 255.
Proof.
  intros Hl Hb. unfold desde_bytes. rewrite !of_le_slice by (done || lia). rewrite !resto_M, !Z.shiftr_div_pow2 by done.
  rewrite cinco_limbos. generalize (of_le b). intros v.
  pose proof (ventana v 0 0 ltac:(lia) ltac:(lia)) as V0. pose proof (ventana v 48 3 ltac:(lia) ltac:(lia)) as V1.
  pose proof (ventana v 96 6 ltac:(lia) ltac:(lia)) as V2. pose proof (ventana v 152 1 ltac:(lia) ltac:(lia)) as V3.
  pose proof (ventana v 192 12 ltac:(lia) ltac:(lia)) as V4. rewrite !Z.div_1_r in V0.
  unfold limbos_en, val. cbn [l0 l1 l2 l3 l4].
  change (8 * Z.of_nat 0) with 0. change (8 * Z.of_nat 6) with 48. change (8 * Z.of_nat 12) with 96.
  change (8 * Z.of_nat 19) with 152. change (8 * Z.of_nat 24) with 192. change (8 * Z.of_nat 8) with 64.
  rewrite !Z.div_1_r, V0, V1, V2, V3, V4. split; [repeat split; by apply Z.mod_pos_bound|done].
Qed.

(** * The canonical encoding *)

Lemma cociente_es t : limbos_en (2 ^ 52) t -> cociente t = (val t + 19) / 2 ^ 255.
Proof.
  destruct t as [t0 t1 t2 t3 t4]. unfold limbos_en, cociente, val. cbn [l0 l1 l2 l3 l4]. intros H.
  rewrite (w64_small (t0 + _)) by (unfold is_u64; lia). enlaza (t0 + 19).
  rewrite (w64_small (t1 + _)) by (unfold is_u64; lia). enlaza (t1 + c).
  rewrite (w64_small (t2 + _)) by (unfold is_u64; lia). enlaza (t2 + c0).
  rewrite (w64_small (t3 + _)) by (unfold is_u64; lia). enlaza (t3 + c1).
  rewrite (w64_small (t4 + _)) by (unfold is_u64; lia). enlaza (t4 + c2).
  apply Z.div_unique with (r + 2 ^ 51 * r0 + 2 ^ 102 * r1 + 2 ^ 153 * r2 + 2 ^ 204 * r3); lia.
Qed.

Lemma descuenta_es t q : limbos_en (2 ^ 52) t -> 0 <= q <= 1 ->
  limbos_en (2 ^ 51) (descuenta t q) /\ val (descuenta t q) = (val t + 19 * q) mod 2 ^ 255.
Proof.
  destruct t as [t0 t1 t2 t3 t4]. unfold limbos_en, descuenta, val. cbn [l0 l1 l2 l3 l4]. intros H Hq.
  rewrite (w64_small (19 * q)), (w64_small (t0 + _)) by (unfold is_u64; lia). enlaza (t0 + 19 * q).
  rewrite (w64_small (t1 + _)) by (unfold is_u64; lia). enlaza (t1 + c).
  rewrite (w64_small (t2 + _)) by (unfold is_u64; lia). enlaza (t2 + c0).
  rewrite (w64_small (t3 + _)) by (unfold is_u64; lia). enlaza (t3 + c1).
  rewrite (w64_small (t4 + _)) by (unfold is_u64; lia). enlaza (t4 + c2). split; [lia|].
  apply Z.mod_unique with c3; lia.
Qed.

(** Five limbs in 255 bits become one number below p. *)
Lemma canonico a : apretado a -> let t := llevar (llevar a) in
  limbos_en (2 ^ 51) (descuenta t (cociente t)) /\ val (descuenta t (cociente t)) = fe a.
Proof.
  intros Ha t. destruct (llevar_bien a) as (H1 & k1 & _ & E1); [unfold apretado, limbos_en in *; lia|].
  destruct (llevar_bien (llevar a)) as (H2 & k2 & _ & E2); [unfold limbos_en in *; lia|]. fold t in H2, E2.
  assert (Ht : limbos_en (2 ^ 52) t) by (unfold limbos_en in *; lia).
  assert (Hv : 0 <= val t < 2 * p) by (unfold limbos_en, val, p in *; lia).
  assert (Ef : fe a = val t mod p) by (apply (fe_cong _ _ (k1 + k2)); lia).
  rewrite Ef, (cociente_es t Ht). destruct (Z.lt_ge_cases (val t) p).
  - replace ((val t + 19) / 2 ^ 255) with 0 by (symmetry; apply Z.div_small; unfold p in *; lia).
    destruct (descuenta_es t 0 Ht) as [Hr Er]; [lia|]. split; [done|].
    rewrite Er, !Z.mod_small; unfold p in *; lia.
  - assert ((val t + 19) / 2 ^ 255 = 1) as -> by (symmetry; apply Z.div_unique with (val t - p); unfold p in *; lia).
    destruct (descuenta_es t 1 Ht) as [Hr Er]; [lia|]. split; [done|].
    rewrite Er, <- (Z.mod_unique (val t + 19 * 1) (2 ^ 255) 1 (val t - p)) by (unfold p in *; lia).
    apply Z.mod_unique with 1; unfold p in *; lia.
Qed.

Lemma le_app m : forall n z, le (m + n) z = le m z ++ le n (z / 2 ^ (8 * Z.of_nat m)).
Proof.
  induction m as [|m IH]; intros n z; [cbn [Nat.add le app]; by rewrite Z.div_1_r|].
  cbn [Nat.add le app]. rewrite IH. do 3 f_equal. rewrite Z.div_div by (try apply Z.pow_pos_nonneg; lia). f_equal.
  rewrite <- Z.pow_add_r by lia. f_equal. lia.
Qed.

Lemma le_bajo k z y : le k (z + 2 ^ (8 * Z.of_nat k) * y) = le k z.
Proof.
  revert z. induction k as [|k IH]; intros z; [done|]. cbn [le].
  replace (8 * Z.of_nat (S k)) with (8 + 8 * Z.of_nat k) by lia. rewrite Z.pow_add_r, <- Z.mul_assoc by lia. f_equal.
  - rewrite Z.mul_comm, Z.mod_add; done.
  - rewrite (Z.mul_comm (2 ^ 8)), Z.div_add by done. apply IH.
Qed.

Lemma saca_spec fuel : forall acc bits s, 0 <= acc -> (bits <= fuel)%nat -> (length s + bits / 8 <= 32)%nat ->
  saca fuel acc bits s = (acc / 2 ^ (8 * Z.of_nat (bits / 8)), (bits mod 8)%nat, s ++ le (bits / 8) acc).
Proof.
  induction fuel as [|fuel IH]; intros acc bits s Ha Hf Hs.
  - replace bits with 0%nat by lia. cbn [saca le Nat.div Nat.divmod fst Nat.modulo snd]. change (2 ^ (8 * Z.of_nat 0)) with 1.
    by rewrite Z.div_1_r, app_nil_r.
  - cbn [saca]. destruct (Nat.leb_spec 8 bits) as [H8|H8]; cbn [andb].
    + assert (E8 : (bits / 8 = S ((bits - 8) / 8))%nat).
      { replace bits with ((bits - 8) + 1 * 8)%nat at 1 by lia. rewrite Nat.div_add by lia. lia. }
      rewrite E8 in Hs. rewrite (proj2 (Nat.ltb_lt _ _)) by lia. rewrite IH; [|by apply Z.shiftr_nonneg|lia|rewrite length_app; cbn [length]; lia].
      rewrite E8, Z.shiftr_div_pow2, <- (app_assoc s) by done. cbn [le app]. rewrite (land_ones_mod acc 8 : 0 <= 8 -> Z.land acc 255 = _) by done.
      f_equal. f_equal.
      * rewrite Z.div_div by (try apply Z.pow_pos_nonneg; lia). f_equal. rewrite <- Z.pow_add_r by lia. f_equal. lia.
      * replace bits with ((bits - 8) + 1 * 8)%nat at 2 by lia. by rewrite Nat.Div0.mod_add.
    + rewrite Nat.div_small, Nat.mod_small by done. cbn [le]. change (2 ^ (8 * Z.of_nat 0)) with 1.
      by rewrite Z.div_1_r, app_nil_r.
Qed.

(** The value of a list of limbs. *)
Fixpoint base51 (ls : list Z) : Z := match ls with [] => 0 | x :: ls => x + 2 ^ 51 * base51 ls end.

Lemma empaqueta_spec ls : forall acc bits s, Forall (fun x => 0 <= x < 2 ^ 51) ls ->
  (bits < 8)%nat -> 0 <= acc < 2 ^ Z.of_nat bits -> (8 * length s + bits + 51 * length ls = 255)%nat ->
  empaqueta ls acc bits s = s ++ le (32 - length s) (acc + 2 ^ Z.of_nat bits * base51 ls).
Proof.
  induction ls as [|x ls IH]; intros acc bits s Hls Hb Ha Hl; cbn [empaqueta base51].
  - by rewrite Z.mul_0_r, Z.add_0_r.
  - apply Forall_cons in Hls as [Hx Hls]. cbn [length] in Hl.
    set (acc' := acc + 2 ^ Z.of_nat bits * x).
    assert (H58 : 2 ^ Z.of_nat bits <= 2 ^ 7) by (apply Z.pow_le_mono_r; lia).
    assert (Hp : 0 < 2 ^ Z.of_nat bits) by (apply Z.pow_pos_nonneg; lia).
    assert (Eacc : Z.lor acc (w128 (Z.shiftl x (Z.of_nat bits))) = acc').
    { rewrite w128_small by (rewrite Z.shiftl_mul_pow2 by lia; nia). rewrite Z.lor_comm, lor_shiftl_add by lia. unfold acc'. lia. }
    rewrite Eacc. set (k := ((bits + 51) / 8)%nat). set (r := ((bits + 51) mod 8)%nat).
    assert (Ek : (bits + 51 = 8 * k + r)%nat) by (apply Nat.div_mod_eq).
    assert (Hr : (r < 8)%nat) by (apply Nat.mod_upper_bound; lia).
    assert (Hacc' : 0 <= acc' < 2 ^ (8 * Z.of_nat k) * 2 ^ Z.of_nat r).
    { rewrite <- Z.pow_add_r by lia. replace (8 * Z.of_nat k + Z.of_nat r) with (Z.of_nat bits + 51) by lia.
      rewrite Z.pow_add_r by lia. unfold acc'. nia. }
    assert (Hpk : 0 < 2 ^ (8 * Z.of_nat k)) by (apply Z.pow_pos_nonneg; lia).
    rewrite saca_spec by (fold k; lia). fold k r. rewrite IH; [|done|done| |].
    + rewrite <- app_assoc, length_app, length_le. f_equal.
      replace (32 - length s)%nat with (k + (32 - (length s + k)))%nat by lia. rewrite le_app.
      assert (Et : acc + 2 ^ Z.of_nat bits * (x + 2 ^ 51 * base51 ls) = acc' + 2 ^ (8 * Z.of_nat k) * (2 ^ Z.of_nat r * base51 ls)).
      { rewrite (Z.mul_assoc (2 ^ (8 * _))), <- Z.pow_add_r by lia.
        replace (8 * Z.of_nat k + Z.of_nat r) with (Z.of_nat bits + 51) by lia. rewrite Z.pow_add_r by lia. unfold acc'. ring. }
      rewrite Et, le_bajo. f_equal. f_equal. rewrite (Z.mul_comm (2 ^ (8 * _))), Z.div_add by lia. done.
    + split; [apply Z.div_pos; lia|]. apply Z.div_lt_upper_bound; lia.
    + rewrite length_app, length_le. lia.
Qed.

(** The encoding is the number below p in 32 bytes. *)
Lemma a_bytes_es a : apretado a -> a_bytes a = le 32 (fe a).
Proof.
  intros Ha. destruct (canonico a Ha) as [Hl Hv]. unfold a_bytes. set (t := llevar (llevar a)) in *. cbv zeta.
  set (d := descuenta t (cociente t)) in *. clearbody d. rewrite empaqueta_spec.
  - cbn [app length]. f_equal. rewrite <- Hv. unfold limbos, val. cbn [base51]. change (2 ^ Z.of_nat 0) with 1. lia.
  - unfold limbos. unfold limbos_en in Hl. repeat constructor; lia.
  - lia.
  - cbn. lia.
  - done.
Qed.

Lemma length_a_bytes a : apretado a -> length (a_bytes a) = 32%nat.
Proof. intros. by rewrite a_bytes_es, length_le. Qed.

Lemma a_bytes_octetos a : apretado a -> Forall is_u8 (a_bytes a).
Proof. intros. rewrite a_bytes_es by done. apply le_bytes. apply fe_rango. Qed.

Lemma of_le_a_bytes a : apretado a -> of_le (a_bytes a) = fe a.
Proof.
  intros. rewrite a_bytes_es by done. apply of_le_le. pose proof (fe_rango a).
  assert (p < 2 ^ (8 * Z.of_nat 32)) by done. lia.
Qed.

(** Two encodings are equal exactly when the elements are. *)
Lemma a_bytes_inj a b : apretado a -> apretado b -> a_bytes a = a_bytes b <-> fe a = fe b.
Proof.
  intros Ha Hb. split; intros H.
  - rewrite <- (of_le_a_bytes a), <- (of_le_a_bytes b) by done. by rewrite H.
  - by rewrite !a_bytes_es, H.
Qed.

Lemma apretado_51 a : limbos_en (2 ^ 51) a -> apretado a.
Proof. unfold apretado, limbos_en. lia. Qed.

Lemma desde_bytes_fe b : length b = 32%nat -> Forall is_u8 b ->
  apretado (desde_bytes b) /\ fe (desde_bytes b) = of_le b mod 2 ^ 255 mod p.
Proof. intros Hl Hb. destruct (desde_bytes_bien b Hl Hb) as [H E]. split; [by apply apretado_51|]. unfold fe. by rewrite E. Qed.

(** * The field *)

Lemma por_inverso a : apretado a -> fe (mul a (invertir a)) = if decide (fe a = 0) then 0 else 1.
Proof.
  intros Ha. destruct (invertir_bien a Ha) as [Hi Ei]. destruct (mul_bien a (invertir a) Ha Hi) as [_ ->].
  pose proof (fe_rango a) as R. rewrite Ei, Z.mul_mod_idemp_r by done.
  replace (fe a * fe a ^ (p - 2)) with (fe a ^ (p - 1))
    by (replace (p - 1) with (Z.succ (p - 2)) by lia; apply Z.pow_succ_r; done).
  case_decide as D.
  - rewrite D, Z.pow_0_l by done. done.
  - apply fermat; [exact primo_25519|]. rewrite Z.mod_small by lia. done.
Qed.

(** C33: The operations on five limbs are the operations of the field of
    2^255 - 19 elements. On limbs below 2^51 + 2^13 [suma], [resta], [mul] and
    [cuadrado] compute sum, difference, product and square, [invertir] the
    inverse of everything but zero (and zero for zero), and [intercambio]
    exchanges exactly when its bit is set; each leaves limbs within the same
    bound, so that no chain of them overflows the u64 of a limb nor the u128 of
    a column. *)
Theorem campo_bien a b (c : bool) : apretado a -> apretado b ->
  apretado (suma a b) /\ fe (suma a b) = (fe a + fe b) mod p /\
  apretado (resta a b) /\ fe (resta a b) = (fe a - fe b) mod p /\
  apretado (mul a b) /\ fe (mul a b) = (fe a * fe b) mod p /\
  apretado (cuadrado a) /\ fe (cuadrado a) = (fe a * fe a) mod p /\
  apretado (invertir a) /\ fe (mul a (invertir a)) = (if decide (fe a = 0) then 0 else 1) /\
  (fe a = 0 -> fe (invertir a) = 0) /\
  intercambio (Z.b2z c) a b = (if c then (b, a) else (a, b)).
Proof.
  intros Ha Hb. destruct (suma_bien a b Ha Hb), (resta_bien a b Ha Hb), (mul_bien a b Ha Hb), (mul_bien a a Ha Ha).
  split_and!; try assumption.
  - by apply invertir_bien.
  - by apply por_inverso.
  - intros E0. destruct (invertir_bien a Ha) as [_ ->]. by rewrite E0, Z.pow_0_l.
  - by apply intercambio_bien.
Qed.

Definition fe_ej : Fe := mkFe (2 ^ 51 + 5) 3 0 7 (2 ^ 51).

Lemma apretado_ej : apretado fe_ej.
Proof. repeat split; vm_compute; congruence. Qed.

Lemma campo_bien_witness : apretado fe_ej /\ fe (mul fe_ej (invertir fe_ej)) = 1 /\ intercambio 1 fe_ej CERO = (CERO, fe_ej).
Proof.
  assert (H0 : apretado CERO) by (repeat split; vm_compute; congruence).
  destruct (campo_bien fe_ej CERO true apretado_ej H0) as (_ & _ & _ & _ & _ & _ & _ & _ & _ & E & _ & S).
  split; [exact apretado_ej|]. split; [|exact S].
  rewrite E. destruct (decide (fe fe_ej = 0)) as [D|D]; [vm_compute in D; discriminate D|reflexivity].
Defined.

(** Every element of the field has exactly one encoding. [a_bytes] writes
    the 32 little-endian bytes of the number below 2^255 - 19 that the limbs
    stand for, whatever limbs they are; two elements are equal exactly when
    their encodings are; reading an encoding back gives the element; and a
    32-byte string is the encoding of what [desde_bytes] reads from it exactly
    when it is below 2^255 - 19 (the reader itself drops the top bit and
    reduces). *)
Theorem codificacion_canonica a b x : apretado a -> apretado b -> length x = 32%nat -> Forall is_u8 x ->
  a_bytes a = le 32 (fe a) /\ fe a < p /\
  (a_bytes a = a_bytes b <-> fe a = fe b) /\
  fe (desde_bytes (a_bytes a)) = fe a /\
  apretado (desde_bytes x) /\ fe (desde_bytes x) = of_le x mod 2 ^ 255 mod p /\
  (a_bytes (desde_bytes x) = x <-> of_le x < p).
Proof.
  intros Ha Hb Lx Hx. pose proof (fe_rango a) as Ra. destruct (desde_bytes_fe x Lx Hx) as [D E].
  assert (P : p < 2 ^ 255) by done. pose proof (of_le_range x Hx) as Rx.
  split_and!; try done.
  - by apply a_bytes_es.
  - lia.
  - by apply a_bytes_inj.
  - destruct (desde_bytes_fe (a_bytes a) (length_a_bytes a Ha) (a_bytes_octetos a Ha)) as [_ ->].
    rewrite of_le_a_bytes, (Z.mod_small (fe a) (2 ^ 255)), Z.mod_small by (done || lia). done.
  - split; intros H.
    + rewrite <- H, of_le_a_bytes by done. apply fe_rango.
    + rewrite a_bytes_es, E, (Z.mod_small (of_le x) (2 ^ 255)), Z.mod_small by (done || lia). rewrite <- Lx. by apply le_of_le.
Qed.

Definition bytes_ej : list Z := 237 :: replicate 30 255 ++ [127].

Lemma codificacion_canonica_witness : of_le bytes_ej = p /\ a_bytes (desde_bytes bytes_ej) = replicate 32 0 /\ a_bytes (desde_bytes bytes_ej) <> bytes_ej.
Proof.
  assert (H : Forall is_u8 bytes_ej) by (apply octetos_dec; vm_compute; reflexivity).
  destruct (codificacion_canonica fe_ej fe_ej bytes_ej apretado_ej apretado_ej eq_refl H) as (_ & _ & _ & _ & _ & _ & [C _]).
  split; [vm_compute; reflexivity|]. split; [vm_compute; reflexivity|]. intros E. apply C in E. vm_compute in E. discriminate E.
Defined.
