(* ===== verification/Curva.v ===== *)
(** X25519: the key exchange, and the numbers modulo p that the limbs of
    [Campo] stand for.
    Source: src/platform/shared/bmo-cripto/src/x25519.rs.

    [Repr a x] is that the limbs [a] stand for [x] modulo p, and [_ ≡p _] is
    equality of what they stand for, with [Proper] instances so that it can be
    rewritten with. *)

From S2P Require Import Prelude Primo Campo.

(** * x25519.rs *)

Module X25519.

Definition LARGO : nat := 32.
Definition BASE : list Z := 9 :: replicate 31 0.
Definition A24 : Fe := mkFe 121665 0 0 0 0.

(** [e[0] &= 248; e[31] &= 127; e[31] |= 64]. *)
Definition ajustar (k : list Z) : list Z :=
  let e := <[0%nat := Z.land (k !!! 0%nat) 248]> k in
  let e := <[31%nat := Z.land (e !!! 31%nat) 127]> e in
  <[31%nat := Z.lor (e !!! 31%nat) 64]> e.

(** The bit [t] of a scalar. *)
Definition bit (k : list Z) (t : nat) : Z := Z.land (Z.shiftr (k !!! (t / 8)%nat) (Z.of_nat (t mod 8))) 1.

Record Peldano := mkPeldano { x2 : Fe; z2 : Fe; x3 : Fe; z3 : Fe; cambiado : Z }.

Definition peldano (k : list Z) (x1 : Fe) (s : Peldano) (t : nat) : Peldano :=
  let b := bit k t in
  let c := Z.lxor (cambiado s) b in
  let '(x2, x3) := intercambio c (x2 s) (x3 s) in
  let '(z2, z3) := intercambio c (z2 s) (z3 s) in
  let a := suma x2 z2 in
  let aa := cuadrado a in
  let b_ := resta x2 z2 in
  let bb := cuadrado b_ in
  let e := resta aa bb in
  let c := suma x3 z3 in
  let d := resta x3 z3 in
  let da := mul d a in
  let cb := mul c b_ in
  let x3 := cuadrado (suma da cb) in
  let z3 := mul x1 (cuadrado (resta da cb)) in
  let x2 := mul aa bb in
  let z2 := mul e (suma aa (mul A24 e)) in
  mkPeldano x2 z2 x3 z3 b.

Definition escalera (k : list Z) (u : Fe) : Fe :=
  let s := foldl (peldano k u) (mkPeldano UNO CERO u UNO 0) (rev (seq 0 255)) in
  let '(x2, x3) := intercambio (cambiado s) (x2 s) (x3 s) in
  let '(z2, z3) := intercambio (cambiado s) (z2 s) (z3 s) in
  mul x2 (invertir z2).

Definition x25519 (k u : list Z) : list Z := a_bytes (escalera (ajustar k) (desde_bytes u)).

Definition secreto_a_publico (secreto : list Z) : list Z := x25519 secreto BASE.
Definition secreto_compartido (mi_secreto su_publica : list Z) : list Z := x25519 mi_secreto su_publica.
Definition es_cero (s : list Z) : bool := foldl Z.lor 0 s =? 0.

End X25519.

(** * Numbers modulo p *)

Definition eqp (x y : Z) : Prop := x mod p = y mod p.
Infix "≡p" := eqp (at level 70) : bmo_scope.

#[export] Instance eqp_equiv : Equivalence eqp.
Proof. split; [by intros x|by intros x y|intros x y z; unfold eqp; congruence]. Qed.
#[export] Instance add_eqp : Proper (eqp ==> eqp ==> eqp) Z.add.
Proof. intros x x' E y y' F. unfold eqp in *. by rewrite Z.add_mod, E, F, <- Z.add_mod. Qed.
#[export] Instance mul_eqp : Proper (eqp ==> eqp ==> eqp) Z.mul.
Proof. intros x x' E y y' F. unfold eqp in *. by rewrite Z.mul_mod, E, F, <- Z.mul_mod. Qed.
#[export] Instance sub_eqp : Proper (eqp ==> eqp ==> eqp) Z.sub.
Proof. intros x x' E y y' F. unfold eqp in *. by rewrite Zminus_mod, E, F, <- Zminus_mod. Qed.
#[export] Instance opp_eqp : Proper (eqp ==> eqp) Z.opp.
Proof. intros x x' E. rewrite <- !Z.sub_0_l. by rewrite E. Qed.

Lemma pow_eqp x y n : x ≡p y -> x ^ n ≡p y ^ n.
Proof. unfold eqp. intros E. by rewrite Zpow_facts.Zpower_mod, E, <- Zpow_facts.Zpower_mod. Qed.

Lemma mod_eqp x : x mod p ≡p x.
Proof. unfold eqp. by apply Z.mod_mod. Qed.

(** A linear combination of congruences, the polynomial identity aside. *)
Lemma eqp_comb1 c a b x y : a ≡p b -> x - y = c * (a - b) -> x ≡p y.
Proof. intros H E. replace x with (y + c * (a - b)) by lia. rewrite H. by replace (y + c * (b - b)) with y by lia. Qed.

Lemma eqp_comb2 c1 a1 b1 c2 a2 b2 x y : a1 ≡p b1 -> a2 ≡p b2 -> x - y = c1 * (a1 - b1) + c2 * (a2 - b2) -> x ≡p y.
Proof.
  intros H1 H2 E. replace x with (y + c1 * (a1 - b1) + c2 * (a2 - b2)) by lia. rewrite H1, H2.
  by replace (y + c1 * (b1 - b1) + c2 * (b2 - b2)) with y by lia.
Qed.

Lemma p_primo : Znumtheory.prime p.
Proof. exact primo_25519. Qed.

Lemma eqp_0 x : x ≡p 0 <-> x mod p = 0.
Proof. unfold eqp. by rewrite Zmod_0_l. Qed.

(** The field has no zero divisors, *)
Lemma eqp_producto x y : x * y ≡p 0 -> x ≡p 0 \/ y ≡p 0.
Proof.
  rewrite !eqp_0. intros H. destruct (Z.eq_dec (x mod p) 0) as [|Hx]; [by left|]. right.
  destruct (Z.eq_dec (y mod p) 0) as [|Hy]; [done|]. destruct (producto_no_cero p x y p_primo Hx Hy H).
Qed.

(** and every other element has an inverse, the power p - 2. *)
Definition inv (x : Z) : Z := x ^ (p - 2) mod p.

Lemma inv_bien x : ~ x ≡p 0 -> x * inv x ≡p 1.
Proof.
  rewrite eqp_0. intros Hx. unfold inv. rewrite mod_eqp. unfold eqp. rewrite <- Z.pow_succ_r by done.
  change (Z.succ (p - 2)) with (p - 1). rewrite (fermat p x p_primo Hx). done.
Qed.

Lemma inv_eqp x y : x ≡p y -> inv x = inv y.
Proof. intros E. exact (pow_eqp x y (p - 2) E). Qed.

Lemma eqp_cancela a x y : ~ a ≡p 0 -> a * x ≡p a * y -> x ≡p y.
Proof.
  intros Ha E. assert (a * (x - y) ≡p 0) as H by (apply (eqp_comb1 1 (a * x) (a * y)); [done|lia]).
  apply eqp_producto in H as [H|H]; [done|]. apply (eqp_comb1 1 (x - y) 0); [done|lia].
Qed.

Lemma inv_unico a x : ~ a ≡p 0 -> a * x ≡p 1 -> x ≡p inv a.
Proof. intros Ha E. apply (eqp_cancela a); [done|]. by rewrite E, inv_bien. Qed.

Lemma raiz_de_uno x : x * x ≡p 1 -> x ≡p 1 \/ x ≡p -1.
Proof.
  intros E. assert ((x - 1) * (x + 1) ≡p 0) as H by (apply (eqp_comb1 1 (x * x) 1); [done|lia]).
  apply eqp_producto in H as [H|H]; [left|right]; (eapply (eqp_comb1 1); [exact H|lia]).
Qed.

(** * Limbs that stand for a number *)

Definition Repr (a : Fe) (x : Z) : Prop := apretado a /\ fe a = x mod p.

Lemma repr_eqp a x y : Repr a x -> x ≡p y -> Repr a y.
Proof. intros [Ha E] H. split; [done|]. by rewrite E. Qed.

Lemma repr_fe a : apretado a -> Repr a (fe a).
Proof. intros Ha. split; [done|]. unfold fe. by rewrite Z.mod_mod. Qed.

Lemma repr_mul a b x y : Repr a x -> Repr b y -> Repr (mul a b) (x * y).
Proof. intros [Ha Ea] [Hb Eb]. destruct (mul_bien a b Ha Hb) as [H E]. split; [done|]. by rewrite E, Ea, Eb, <- Z.mul_mod. Qed.

Lemma repr_suma a b x y : Repr a x -> Repr b y -> Repr (suma a b) (x + y).
Proof. intros [Ha Ea] [Hb Eb]. destruct (suma_bien a b Ha Hb) as [H E]. split; [done|]. by rewrite E, Ea, Eb, <- Z.add_mod. Qed.

Lemma repr_resta a b x y : Repr a x -> Repr b y -> Repr (resta a b) (x - y).
Proof. intros [Ha Ea] [Hb Eb]. destruct (resta_bien a b Ha Hb) as [H E]. split; [done|]. by rewrite E, Ea, Eb, <- Zminus_mod. Qed.

Lemma repr_cuadrado a x : Repr a x -> Repr (cuadrado a) (x * x).
Proof. intros H. by apply repr_mul. Qed.

Lemma repr_cuadrado_n n : forall a x, Repr a x -> Repr (cuadrado_n a n) (x ^ (2 ^ Z.of_nat n)).
Proof.
  induction n as [|n IH]; intros a x H; cbn [cuadrado_n].
  - change (2 ^ Z.of_nat 0) with 1. by rewrite Z.pow_1_r.
  - rewrite Nat2Z.inj_succ, Z.pow_succ_r, Z.pow_mul_r, Z.pow_2_r by lia. by apply IH, repr_cuadrado.
Qed.

Lemma repr_invertir a x : Repr a x -> Repr (invertir a) (inv x).
Proof.
  intros [Ha E]. destruct (invertir_bien a Ha) as [H E']. split; [done|]. rewrite E', E. unfold inv.
  rewrite Z.mod_mod by done. apply pow_eqp, mod_eqp.
Qed.

Lemma repr_CERO : Repr CERO 0.
Proof. split; [unfold apretado, limbos_en; cbn; lia|done]. Qed.
Lemma repr_UNO : Repr UNO 1.
Proof. split; [unfold apretado, limbos_en; cbn; lia|done]. Qed.

Lemma repr_bytes a x : Repr a x -> a_bytes a = le 32 (x mod p).
Proof. intros [Ha E]. by rewrite a_bytes_es, E. Qed.

Lemma repr_desde b : length b = 32%nat -> Forall is_u8 b -> Repr (desde_bytes b) (of_le b mod 2 ^ 255).
Proof. intros Hl Hb. destruct (desde_bytes_fe b Hl Hb). by split. Qed.

Lemma repr_limbos a x : limbos_en (2 ^ 51) a -> val a ≡p x -> Repr a x.
Proof. intros Hl E. split; [by apply apretado_51|]. exact E. Qed.

(** What an expression of the field operations stands for. *)
Ltac campo :=
  lazymatch goal with
  | |- Repr (mul _ _) _ => eapply repr_mul; campo
  | |- Repr (suma _ _) _ => eapply repr_suma; campo
  | |- Repr (resta _ _) _ => eapply repr_resta; campo
  | |- Repr (cuadrado _) _ => eapply repr_cuadrado; campo
  | |- Repr (invertir _) _ => eapply repr_invertir; campo
  | |- Repr CERO _ => exact repr_CERO
  | |- Repr UNO _ => exact repr_UNO
  | |- _ => eassumption
  end.

(** * X25519 is the ladder of Montgomery *)

(** Doubling and differential addition in the coordinates (X : Z), as RFC 7748
    gives them, with [x1] the coordinate of the difference. *)
Definition dobla_xz (q : Z * Z) : Z * Z :=
  let aa := (q.1 + q.2) * (q.1 + q.2) in
  let bb := (q.1 - q.2) * (q.1 - q.2) in
  let e := aa - bb in
  ((aa * bb) mod p, (e * (aa + 121665 * e)) mod p).
Definition suma_xz (x1 : Z) (q r : Z * Z) : Z * Z :=
  let da := (r.1 - r.2) * (q.1 + q.2) in
  let cb := (r.1 + r.2) * (q.1 - q.2) in
  (((da + cb) * (da + cb)) mod p, (x1 * ((da - cb) * (da - cb))) mod p).

(** The ladder with no swaps: a pair of points one [x1] apart, and the bits of
    the scalar from the top. *)
Definition escalon (n x1 : Z) (r : (Z * Z) * (Z * Z)) (t : nat) : (Z * Z) * (Z * Z) :=
  if Z.testbit n (Z.of_nat t) then (suma_xz x1 r.1 r.2, dobla_xz r.2) else (dobla_xz r.1, suma_xz x1 r.1 r.2).
Definition escalera_ref (n x1 : Z) : Z :=
  let r := foldl (escalon n x1) ((1, 0), (x1, 1)) (rev (seq 0 255)) in (r.1.1 * inv r.1.2) mod p.

(** The scalar that a secret stands for: multiple of 8, with the bit 254 set. *)
Definition escalar_de (k : list Z) : Z := 2 ^ 254 + 8 * ((of_le k / 8) mod 2 ^ 251).

Definition x25519_ref (k u : list Z) : list Z := le 32 (escalera_ref (escalar_de k) (of_le u mod 2 ^ 255)).

Definition repr2 (x z : Fe) (q : Z * Z) : Prop := Repr x q.1 /\ Repr z q.2.

Lemma repr_mod a x : Repr a x -> Repr a (x mod p).
Proof. intros H. eapply repr_eqp; [exact H|]. symmetry. apply mod_eqp. Qed.

Lemma repr_A24 : Repr X25519.A24 121665.
Proof. split; [unfold apretado, limbos_en; cbn; lia|done]. Qed.

Lemma suma_xz_sim x1 q r : suma_xz x1 q r = suma_xz x1 r q.
Proof. unfold suma_xz. f_equal; f_equal; ring. Qed.

(** What one turn does to two points in place. *)
Lemma peldano_puntos x1 X1 x2 z2 x3 z3 q r : Repr x1 X1 -> repr2 x2 z2 q -> repr2 x3 z3 r ->
  let a := suma x2 z2 in let aa := cuadrado a in let b := resta x2 z2 in let bb := cuadrado b in let e := resta aa bb in
  let c := suma x3 z3 in let d := resta x3 z3 in let da := mul d a in let cb := mul c b in
  repr2 (mul aa bb) (mul e (suma aa (mul X25519.A24 e))) (dobla_xz q) /\
  repr2 (cuadrado (suma da cb)) (mul x1 (cuadrado (resta da cb))) (suma_xz X1 q r).
Proof.
  intros H1 [Hx2 Hz2] [Hx3 Hz3]. cbv zeta. pose proof repr_A24.
  split; (split; apply repr_mod); campo.
Qed.

Lemma Z_b2z_xorb a b : Z.lxor (Z.b2z a) (Z.b2z b) = Z.b2z (xorb a b).
Proof. by destruct a, b. Qed.

(** A state of the loop holds the pair of the reference, swapped if it says so. *)
Definition peldano_es (s : X25519.Peldano) (r : (Z * Z) * (Z * Z)) : Prop :=
  exists c : bool, X25519.cambiado s = Z.b2z c /\
    let '(q0, q1) := if c then (r.2, r.1) else (r.1, r.2) in
    repr2 (X25519.x2 s) (X25519.z2 s) q0 /\ repr2 (X25519.x3 s) (X25519.z3 s) q1.

Lemma cambio_es (c : bool) s q0 q1 :
  repr2 (X25519.x2 s) (X25519.z2 s) q0 -> repr2 (X25519.x3 s) (X25519.z3 s) q1 ->
  exists x2 x3 z2 z3, intercambio (Z.b2z c) (X25519.x2 s) (X25519.x3 s) = (x2, x3) /\
    intercambio (Z.b2z c) (X25519.z2 s) (X25519.z3 s) = (z2, z3) /\
    repr2 x2 z2 (if c then q1 else q0) /\ repr2 x3 z3 (if c then q0 else q1).
Proof.
  intros [Hx2 Hz2] [Hx3 Hz3]. rewrite !intercambio_bien by (apply Hx2 || apply Hx3 || apply Hz2 || apply Hz3).
  destruct c; eexists _, _, _, _; split_and!; reflexivity || done.
Qed.

Lemma peldano_bien k n x1 X1 s r t : Repr x1 X1 -> X25519.bit k t = Z.b2z (Z.testbit n (Z.of_nat t)) ->
  peldano_es s r -> peldano_es (X25519.peldano k x1 s t) (escalon n X1 r t).
Proof.
  intros H1 Hb (c & Hc & Hs). unfold X25519.peldano. rewrite Hb, Hc, Z_b2z_xorb.
  set (b := Z.testbit n (Z.of_nat t)) in *. destruct r as [r0 r1]. cbn [fst snd] in Hs.
  assert (exists q0 q1, repr2 (X25519.x2 s) (X25519.z2 s) q0 /\ repr2 (X25519.x3 s) (X25519.z3 s) q1 /\ 
    q0 = (if c then r1 else r0) /\ q1 = (if c then r0 else r1)) as (q0 & q1 & H2 & H3 & E0 & E1)
    by (destruct c, Hs; eexists _, _; eauto).
  destruct (cambio_es (xorb c b) s q0 q1 H2 H3) as (x2 & x3 & z2 & z3 & -> & -> & P2 & P3).
  destruct (peldano_puntos x1 X1 x2 z2 x3 z3 _ _ H1 P2 P3) as [D A]. cbv zeta in D, A.
  exists b. cbn [X25519.cambiado X25519.x2 X25519.x3 X25519.z2 X25519.z3]. split; [done|].
  unfold escalon. cbn [fst snd]. fold b. subst q0 q1. destruct b, c; cbn [xorb fst snd] in *; rewrite ?(suma_xz_sim X1 r1 r0) in *; done.
Qed.

Lemma escalera_bien k n x1 X1 : Repr x1 X1 -> (forall t, (t < 255)%nat -> X25519.bit k t = Z.b2z (Z.testbit n (Z.of_nat t))) ->
  Repr (X25519.escalera k x1) (escalera_ref n X1).
Proof.
  intros H1 Hb. unfold X25519.escalera, escalera_ref.
  assert (G : forall l s r, Forall (fun t => (t < 255)%nat) l -> peldano_es s r ->
    peldano_es (foldl (X25519.peldano k x1) s l) (foldl (escalon n X1) r l)).
  { induction l as [|t l IH]; intros s r Hl Hs; [done|]. apply Forall_cons in Hl as [Ht Hl].
    cbn [foldl]. apply IH; [done|]. apply peldano_bien; [done|by apply Hb|done]. }
  destruct (G (rev (seq 0 255)) (X25519.mkPeldano UNO CERO x1 UNO 0) ((1, 0), (X1, 1))) as (c & Hc & Hs).
  - apply Forall_rev, Forall_forall. intros t Ht%elem_of_seq. lia.
  - exists false. cbn [X25519.x2 X25519.z2 X25519.x3 X25519.z3 X25519.cambiado fst snd]. split; [done|].
    repeat split; (apply repr_UNO || apply repr_CERO || apply H1).
  - clear G. set (s := foldl (X25519.peldano k x1) _ _) in *. set (r := foldl (escalon n X1) _ _) in *. clearbody s r.
    destruct r as [r0 r1]. cbn [fst snd] in *. rewrite Hc.
    assert (exists q0 q1, repr2 (X25519.x2 s) (X25519.z2 s) q0 /\ repr2 (X25519.x3 s) (X25519.z3 s) q1 /\ 
      (if c then q1 else q0) = r0) as (q0 & q1 & H2 & H3 & E0) by (destruct c, Hs; eexists _, _; eauto).
    destruct (cambio_es c s q0 q1 H2 H3) as (x2 & x3 & z2 & z3 & -> & -> & [Px Pz] & _). rewrite E0 in Px, Pz.
    apply repr_mod. campo.
Qed.

(** A test of every byte. *)
Lemma byte_todos (f : Z -> bool) : forallb f (seqZ 0 256) = true -> forall x, is_u8 x -> f x = true.
Proof.
  rewrite forallb_forall. intros H x Hx. apply H, list_elem_of_In, elem_of_seqZ. unfold is_u8 in Hx. lia.
Qed.

Lemma byte_bit l t : Forall is_u8 l -> (t / 8 < length l)%nat -> X25519.bit l t = Z.b2z (Z.testbit (of_le l) (Z.of_nat t)).
Proof.
  intros Hl Ht. unfold X25519.bit. rewrite (list_lookup_total_correct l (t / 8) ((of_le l / 256 ^ Z.of_nat (t / 8)) mod 256)).
  2:{ rewrite <- (le_of_le l Hl) at 1. by apply le_lookup. }
  rewrite (land_ones_mod _ 1 : 0 <= 1 -> Z.land _ 1 = _), <- Z.bit0_mod, Z.shiftr_spec by lia.
  change 256 with (2 ^ 8). rewrite <- Z.pow_mul_r, Z.mod_pow2_bits_low, Z.div_pow2_bits by (pose proof (Nat.mod_upper_bound t 8); lia).
  do 2 f_equal. pose proof (Nat.div_mod_eq t 8). lia.
Qed.

Lemma extremos (k : list Z) : length k = 32%nat -> exists x m y, k = x :: m ++ [y] /\ length m = 30%nat.
Proof.
  intros Hk. destruct k as [|x k]; [done|]. destruct (rev k) as [|y r] eqn:E.
  - apply (f_equal (@length Z)) in E. rewrite length_rev in E. cbn in *. lia.
  - exists x, (rev r), y. assert (k = rev r ++ [y]) as -> by (rewrite <- (rev_involutive k), E; done).
    split; [done|]. cbn in Hk. rewrite length_app in Hk. cbn in Hk. lia.
Qed.

Lemma ajustar_es x m y : length m = 30%nat -> X25519.ajustar (x :: m ++ [y]) = Z.land x 248 :: m ++ [Z.lor (Z.land y 127) 64].
Proof.
  intros Hm. unfold X25519.ajustar. cbn [lookup_total list_lookup_total insert list_insert].
  assert (L : forall z, (m ++ [z]) !!! 30%nat = z) by (intros z; rewrite lookup_total_app_r, Hm by lia; done).
  assert (I : forall z w, <[30%nat := w]> (m ++ [z]) = m ++ [w]) by (intros z w; rewrite insert_app_r_alt, Hm by lia; done).
  change (<[31%nat := ?w]> (?a :: ?l)) with (a :: <[30%nat := w]> l). cbn [insert list_insert].
  by rewrite !I, !L.
Qed.

Lemma clamp_bajo x : is_u8 x -> Z.land x 248 = 8 * (x / 8).
Proof. intros H. apply Z.eqb_eq. revert x H. apply byte_todos. vm_compute. reflexivity. Qed.
Lemma clamp_alto x : is_u8 x -> Z.lor (Z.land x 127) 64 = 64 + x mod 64.
Proof. intros H. apply Z.eqb_eq. revert x H. apply byte_todos. vm_compute. reflexivity. Qed.

Lemma ajustar_escalar k : length k = 32%nat -> Forall is_u8 k ->
  length (X25519.ajustar k) = 32%nat /\ Forall is_u8 (X25519.ajustar k) /\ of_le (X25519.ajustar k) = escalar_de k.
Proof.
  intros (x & m & y & -> & Hm)%extremos Hk. rewrite ajustar_es by done.
  apply Forall_cons in Hk as [Hx [Hmm Hy]%Forall_app]. apply Forall_cons in Hy as [Hy _].
  rewrite clamp_bajo, clamp_alto by done. unfold escalar_de. pose proof (of_le_range m Hmm) as Rm. rewrite Hm in Rm.
  change (8 * Z.of_nat 30) with 240 in Rm. unfold is_u8 in *. split_and!.
  - cbn. rewrite length_app, Hm. done.
  - constructor; [lia|]. apply Forall_app. split; [done|]. constructor; [lia|done].
  - cbn [of_le]. rewrite !of_le_app, Hm. cbn [of_le]. change (8 * Z.of_nat 30) with 240.
    generalize dependent (of_le m). intros v Hv. rewrite !Z.mul_0_r, !Z.add_0_r.
    replace ((x + 2 ^ 8 * (v + 2 ^ 240 * y)) / 8) with (x / 8 + 32 * v + 2 ^ 245 * y) by lia.
    replace ((x / 8 + 32 * v + 2 ^ 245 * y) mod 2 ^ 251) with (x / 8 + 32 * v + 2 ^ 245 * (y mod 64)) by lia. lia.
Qed.

(** C34: X25519 computes what RFC 7748 says: for every secret and every point of
    32 bytes the answer is X / Z in 32 bytes, where (X : Z) is the end of the
    ladder of Montgomery, without swaps, over the bits of the clamped secret
    (a multiple of 8 with the bit 254 set), from the point reduced modulo p and
    without its top bit; the swaps under a mask and the reductions of the limbs
    leave no trace. *)
Theorem x25519_bien k u : length k = 32%nat -> Forall is_u8 k -> length u = 32%nat -> Forall is_u8 u ->
  X25519.x25519 k u = x25519_ref k u.
Proof.
  intros Lk Hk Lu Hu. destruct (ajustar_escalar k Lk Hk) as (La & Ha & Ea).
  assert (H : Repr (X25519.escalera (X25519.ajustar k) (desde_bytes u)) (escalera_ref (escalar_de k) (of_le u mod 2 ^ 255))).
  { apply escalera_bien; [by apply repr_desde|]. intros t Ht. rewrite <- Ea. apply byte_bit; [done|]. rewrite La.
    apply Nat.div_lt_upper_bound; lia. }
  unfold X25519.x25519, x25519_ref. rewrite (repr_bytes _ _ H). f_equal. unfold escalera_ref. by rewrite Z.mod_mod.
Qed.

Definition secreto_demo : list Z := [0; 0; 0; 0; 0; 0; 0; 7] ++ replicate 24 0.

Lemma x25519_bien_witness : length secreto_demo = 32%nat /\ Forall is_u8 secreto_demo /\
  X25519.secreto_a_publico secreto_demo = x25519_ref secreto_demo X25519.BASE.
Proof.
  assert (H1 : Forall is_u8 secreto_demo) by (apply (bool_decide_unpack _); vm_compute; exact I).
  assert (H2 : Forall is_u8 X25519.BASE) by (apply (bool_decide_unpack _); vm_compute; exact I).
  split; [reflexivity|]. split; [exact H1|]. exact (x25519_bien secreto_demo X25519.BASE eq_refl H1 eq_refl H2).
Defined.
