(* ===== verification/Edwards.v ===== *)
(** Ed25519: points of the twisted curve of Edwards, the verification of a
    signature, and the scalar arithmetic of signing.
    Source: src/platform/shared/bmo-cripto/src/ed25519.rs.

    The reference is the curve in its two coordinates, with the addition law by
    its formula; the code works with four, and never divides until the end. *)

From Stdlib Require Import Znumtheory.
From S2P Require Import Prelude Primo Campo Curva Sha2.

(** [==] on arrays of bytes. *)
Definition bytes_iguales (a b : list Z) : bool := bool_decide (a = b).

(** * ed25519.rs *)

Module Ed25519.

Definition CLAVE : nat := 32.
Definition FIRMA : nat := 64.

Definition D_BYTES : list Z :=
  [0xa3; 0x78; 0x59; 0x13; 0xca; 0x4d; 0xeb; 0x75; 0xab; 0xd8; 0x41; 0x41; 0x4d; 0x0a; 0x70; 0x00;
   0x98; 0xe8; 0x79; 0x77; 0x79; 0x40; 0xc7; 0x8c; 0x73; 0xfe; 0x6f; 0x2b; 0xee; 0x6c; 0x03; 0x52].
Definition RAIZ_MENOS_UNO : list Z :=
  [0xb0; 0xa0; 0x0e; 0x4a; 0x27; 0x1b; 0xee; 0xc4; 0x78; 0xe4; 0x2f; 0xad; 0x06; 0x18; 0x43; 0x2f;
   0xa7; 0xd7; 0xfb; 0x3d; 0x99; 0x00; 0x4d; 0x2b; 0x0b; 0xdf; 0xc1; 0x4f; 0x80; 0x24; 0x83; 0x2b].
Definition BASE : list Z := 0x58 :: replicate 31 0x66.
Definition L : list Z :=
  [0xed; 0xd3; 0xf5; 0x5c; 0x1a; 0x63; 0x12; 0x58; 0xd6; 0x9c; 0xf7; 0xa2; 0xde; 0xf9; 0xde; 0x14;
   0x00; 0x00; 0x00; 0x00; 0x00; 0x00; 0x00; 0x00] ++ replicate 7 0x00 ++ [0x10].

Record Punto := mkPunto { px : Fe; py : Fe; pz : Fe; pt : Fe }.
Definition NEUTRO : Punto := mkPunto CERO UNO UNO CERO.

(** [for _ in 1..n] squares n - 1 times. *)
Definition pow_p58 (z : Fe) : Fe :=
  let t0 := cuadrado z in
  let t1 := cuadrado t0 in
  let t1 := cuadrado t1 in
  let t1 := mul z t1 in
  let t0 := mul t0 t1 in
  let t0 := cuadrado t0 in
  let t0 := mul t1 t0 in
  let t1 := cuadrado t0 in
  let t1 := cuadrado_n t1 4 in
  let t0 := mul t1 t0 in
  let t1 := cuadrado t0 in
  let t1 := cuadrado_n t1 9 in
  let t1 := mul t1 t0 in
  let t2 := cuadrado t1 in
  let t2 := cuadrado_n t2 19 in
  let t1 := mul t2 t1 in
  let t1 := cuadrado t1 in
  let t1 := cuadrado_n t1 9 in
  let t0 := mul t1 t0 in
  let t1 := cuadrado t0 in
  let t1 := cuadrado_n t1 49 in
  let t1 := mul t1 t0 in
  let t2 := cuadrado t1 in
  let t2 := cuadrado_n t2 99 in
  let t1 := mul t2 t1 in
  let t1 := cuadrado t1 in
  let t1 := cuadrado_n t1 49 in
  let t0 := mul t1 t0 in
  let t0 := cuadrado t0 in
  let t0 := cuadrado t0 in
  mul t0 z.

Definition iguales (a b : Fe) : bool := bytes_iguales (a_bytes a) (a_bytes b).
Definition es_cero (a : Fe) : bool := bytes_iguales (a_bytes a) (replicate 32 0).

(** The sign, once a root has been found. *)
Definition con_signo (b : list Z) (x y : Fe) : option Punto :=
  let signo := Z.land (Z.shiftr (b !!! 31%nat) 7) 1 in
  if es_cero x && (signo =? 1) then None else
  let x := if negb (Z.land (a_bytes x !!! 0%nat) 1 =? signo) then resta CERO x else x in
  Some (mkPunto x y UNO (mul x y)).

Definition descomprimir (b : list Z) : option Punto :=
  let d := desde_bytes D_BYTES in
  let y := desde_bytes b in
  let y2 := cuadrado y in
  let u := resta y2 UNO in
  let v := suma (mul d y2) UNO in
  let v2 := cuadrado v in
  let v3 := mul v2 v in
  let v4 := cuadrado v2 in
  let v7 := mul v3 v4 in
  let x := mul (pow_p58 (mul u v7)) (mul u v3) in
  let chk := mul v (cuadrado x) in
  if negb (iguales chk u) then
    let x := mul x (desde_bytes RAIZ_MENOS_UNO) in
    let chk := mul v (cuadrado x) in
    if negb (iguales chk u) then None else con_signo b x y
  else con_signo b x y.

Definition comprimir (p : Punto) : list Z :=
  let zi := invertir (pz p) in
  let x := mul (px p) zi in
  let y := mul (py p) zi in
  let out := a_bytes y in
  <[31%nat := Z.lor (out !!! 31%nat) (w8 (Z.shiftl (Z.land (a_bytes x !!! 0%nat) 1) 7))]> out.

Definition suma (a b : Punto) : Punto :=
  let d := desde_bytes D_BYTES in
  let dos_d := Campo.suma d d in
  let aa := mul (resta (py a) (px a)) (resta (py b) (px b)) in
  let bb := mul (Campo.suma (py a) (px a)) (Campo.suma (py b) (px b)) in
  let cc := mul (mul (pt a) (pt b)) dos_d in
  let dd := mul (Campo.suma (pz a) (pz a)) (pz b) in
  let e := resta bb aa in
  let f := resta dd cc in
  let g := Campo.suma dd cc in
  let h := Campo.suma bb aa in
  mkPunto (mul e f) (mul g h) (mul f g) (mul e h).

Definition por_bit (p : Punto) (byte : Z) (r : Punto) (bit : Z) : Punto :=
  let r := suma r r in
  if Z.land (Z.shiftr byte bit) 1 =? 1 then suma r p else r.

Definition por_escalar (n : list Z) (p : Punto) : Punto :=
  foldl (fun r byte => foldl (por_bit p byte) r [7; 6; 5; 4; 3; 2; 1; 0]) NEUTRO (rev n).

(** From the most significant byte down. *)
Fixpoint s_valida_desde (s l : list Z) : bool :=
  match s, l with
  | x :: s, y :: l => if x <? y then true else if y <? x then false else s_valida_desde s l
  | _, _ => false
  end.
Definition s_valida (s : list Z) : bool := s_valida_desde (rev s) (rev L).

Definition orden_pequeno (p : Punto) : bool :=
  let p2 := suma p p in
  let p4 := suma p2 p2 in
  let p8 := suma p4 p4 in
  bytes_iguales (comprimir p8) (comprimir NEUTRO).

Definition verificar (publica mensaje firma : list Z) : bool :=
  let r_bytes := take 32 firma in
  let s_bytes := drop 32 firma in
  if negb (s_valida s_bytes) then false else
  match descomprimir publica with
  | None => false
  | Some a =>
      match descomprimir r_bytes with
      | None => false
      | Some r =>
          if orden_pequeno a || orden_pequeno r then false else
          let h := Sha512.nuevo in
          let h := Sha512.mete h r_bytes in
          let h := Sha512.mete h publica in
          let h := Sha512.mete h mensaje in
          let k := Sha512.cierra h in
          let menos_a := mkPunto (resta CERO (px a)) (py a) (pz a) (resta CERO (pt a)) in
          from_option (fun base =>
              let izquierda := suma (por_escalar s_bytes base) (por_escalar k menos_a) in
              bytes_iguales (comprimir izquierda) r_bytes) false (descomprimir BASE)
      end
  end.

(** ** [mod escalar]: arithmetic modulo L, for signing *)

Fixpoint mayor_o_igual_desde (a b : list Z) : bool :=
  match a, b with
  | x :: a, y :: b => if negb (x =? y) then y <? x else mayor_o_igual_desde a b
  | _, _ => true
  end.
Definition mayor_o_igual (a b : list Z) : bool := mayor_o_igual_desde (rev a) (rev b).

Fixpoint resta_desde (a b : list Z) (prestamo : Z) : list Z :=
  match a, b with
  | x :: a, y :: b =>
      let v := x - y - prestamo in
      if v <? 0 then w8 (v + 256) :: resta_desde a b 1 else w8 v :: resta_desde a b 0
  | _, _ => a
  end.
Definition resta (a b : list Z) : list Z := resta_desde a b 0.

(** [r << 1], byte by byte with the carry. *)
Fixpoint dobla (r : list Z) (acarreo : Z) : list Z :=
  match r with
  | [] => []
  | byte :: r => Z.lor (w8 (Z.shiftl byte 1)) acarreo :: dobla r (Z.land (Z.shiftr byte 7) 1)
  end.

Definition reducir_bit (x : list Z) (r : list Z) (bit : nat) : list Z :=
  let r := dobla r 0 in
  let r := <[0%nat := Z.lor (r !!! 0%nat) (Z.land (Z.shiftr (x !!! (bit / 8)%nat) (Z.of_nat (bit mod 8))) 1)]> r in
  if mayor_o_igual r L then resta r L else r.

Definition reducir (x : list Z) : list Z := foldl (reducir_bit x) (replicate 32 0) (rev (seq 0 512)).

(** The schoolbook product: column [n] after the pair of loops. *)
Definition columna_mas (p : list Z) (n : nat) (v : Z) : list Z := <[n := w32 (p !!! n + v)]> p.

Definition muladd (a b c : list Z) : list Z :=
  let p := replicate 64 0 in
  let p := foldl (fun p i => foldl (fun p j => columna_mas p (i + j) (w32 (a !!! i * b !!! j))) p (seq 0 32)) p (seq 0 32) in
  let p := foldl (fun p i => columna_mas p i (c !!! i)) p (seq 0 32) in
  let '(out, acarreo) := foldl (fun '(out, acarreo) i =>
      let v := w32 (p !!! i + acarreo) in (out ++ [Z.land v 0xFF], Z.shiftr v 8)) ([], 0) (seq 0 64) in
  reducir out.

Definition recortar (h : list Z) : list Z := X25519.ajustar (take 32 h).

Definition publica_de (secreta : list Z) : option (list Z) :=
  let h := Sha512.hash secreta in
  let a := recortar h in
  base ← descomprimir BASE;
  Some (comprimir (por_escalar a base)).

Definition firmar (secreta mensaje : list Z) : option (list Z) :=
  let h := Sha512.hash secreta in
  let a := recortar h in
  base ← descomprimir BASE;
  let publica := comprimir (por_escalar a base) in
  let r := reducir (Sha512.cierra (Sha512.mete (Sha512.mete Sha512.nuevo (drop 32 h)) mensaje)) in
  let punto_r := comprimir (por_escalar r base) in
  let k := reducir (Sha512.cierra (Sha512.mete (Sha512.mete (Sha512.mete Sha512.nuevo punto_r) publica) mensaje)) in
  let s := muladd k a r in
  Some (punto_r ++ s).

End Ed25519.

(** * The constants *)

Definition D : Z := 37095705934669439343138083508754565189542113879843219016388785533085940283555.
Definition RAIZ : Z := 19681161376707505956807079304988542015446066515923890162744021073123829784752.

Lemma repr_bytes_cte b x : bool_decide (length b = 32%nat /\ Forall is_u8 b) = true -> of_le b = x -> x < 2 ^ 255 -> Repr (desde_bytes b) x.
Proof.
  intros [Hl Hb]%bool_decide_eq_true E Hx. pose proof (repr_desde b Hl Hb) as H. pose proof (of_le_range b Hb).
  rewrite E in *. by rewrite Z.mod_small in H by lia.
Qed.

Lemma repr_D : Repr (desde_bytes Ed25519.D_BYTES) D.
Proof. apply repr_bytes_cte; vm_compute; reflexivity. Qed.
Lemma repr_RAIZ : Repr (desde_bytes Ed25519.RAIZ_MENOS_UNO) RAIZ.
Proof. apply repr_bytes_cte; vm_compute; reflexivity. Qed.

(** The curve of RFC 8032: d = -121665 / 121666. *)
Lemma D_es : 121666 * D ≡p -121665.
Proof. vm_compute. reflexivity. Qed.
Lemma RAIZ_es : RAIZ * RAIZ ≡p -1.
Proof. vm_compute. reflexivity. Qed.

(** Powers without a division: 2^255 is 19. *)
Definition plega (z : Z) : Z :=
  let z := Z.land z (2 ^ 255 - 1) + 19 * Z.shiftr z 255 in Z.land z (2 ^ 255 - 1) + 19 * Z.shiftr z 255.
Fixpoint cuadra (n : nat) (z : Z) : Z := match n with O => z | S n => cuadra n (plega (z * z)) end.
Definition mp (x y : Z) : Z := plega (x * y).
Definition medio (z : Z) : Z :=
  let z2 := cuadra 1 z in
  let z9 := mp (cuadra 2 z2) z in
  let z11 := mp z9 z2 in
  let z5 := mp (cuadra 1 z11) z9 in
  let z10 := mp (cuadra 5 z5) z5 in
  let z20 := mp (cuadra 10 z10) z10 in
  let z40 := mp (cuadra 20 z20) z20 in
  let z50 := mp (cuadra 10 z40) z10 in
  let z100 := mp (cuadra 50 z50) z50 in
  let z200 := mp (cuadra 100 z100) z100 in
  let z250 := mp (cuadra 50 z200) z50 in
  let z6 := mp (cuadra 1 z2) z2 in
  mp (cuadra 4 z250) z6.

Lemma pliegue z : Z.land z (2 ^ 255 - 1) + 19 * Z.shiftr z 255 ≡p z.
Proof.
  rewrite land_ones_mod, Z.shiftr_div_pow2 by done. apply (mod_cong _ _ (- (z / 2 ^ 255))).
  unfold p. pose proof (Z.div_mod z (2 ^ 255) ltac:(done)). lia.
Qed.

Lemma plega_es z : plega z ≡p z.
Proof. unfold plega. cbv zeta. by rewrite !pliegue. Qed.

(** [x] is the power [e] of [z] modulo p. *)
Definition pot (z x e : Z) : Prop := 0 <= e /\ x ≡p z ^ e.

Lemma pot_1 z : pot z z 1.
Proof. split; [lia|by rewrite Z.pow_1_r]. Qed.
Lemma pot_mul z x y e f : pot z x e -> pot z y f -> pot z (mp x y) (e + f).
Proof. intros [He Ex] [Hf Ey]. unfold mp. split; [lia|]. by rewrite plega_es, Ex, Ey, Z.pow_add_r. Qed.
Lemma pot_cuadra z n : forall x e, pot z x e -> pot z (cuadra n x) (2 ^ Z.of_nat n * e).
Proof.
  induction n as [|n IH]; intros x e H; cbn [cuadra].
  - by replace (2 ^ Z.of_nat 0 * e) with e by lia.
  - rewrite Nat2Z.inj_succ, Z.pow_succ_r by lia. replace (2 * 2 ^ Z.of_nat n * e) with (2 ^ Z.of_nat n * (e + e)) by lia.
    by apply IH, pot_mul.
Qed.

Lemma pot_let z v e f (k : Z -> Z) : pot z v e -> (forall y, pot z y e -> pot z (k y) f) -> pot z (k v) f.
Proof. auto. Qed.

Lemma medio_es z : medio z ≡p z ^ ((p - 1) / 2).
Proof.
  assert (exists e, pot z (medio z) e /\ e = (p - 1) / 2) as (e & [_ H] & ->); [|done].
  eexists. split.
  - pose proof (pot_1 z). cbv delta [medio]. cbv beta.
    do 12 (match goal with |- pot z (let y := ?v in @?k y) ?f =>
      eapply (pot_let z v _ f k); [first [apply pot_mul; [try apply pot_cuadra|]; eassumption | apply pot_cuadra; eassumption]
        | let y := fresh "y" in let H := fresh "H" in intros y H; cbv beta] end).
    apply pot_mul; [apply pot_cuadra|]; eassumption.
  - vm_compute. reflexivity.
Qed.

(** d is not a square. *)
Lemma D_no_residuo : D ^ ((p - 1) / 2) ≡p -1.
Proof. rewrite <- medio_es. vm_compute. reflexivity. Qed.

Lemma uno_no_cero : ~ 1 ≡p 0.
Proof. by vm_compute. Qed.
Lemma dos_no_cero : ~ 2 ≡p 0.
Proof. by vm_compute. Qed.

(** Euler's criterion, the half that is needed: a square other than zero gives one. *)
Lemma euler w x : w ≡p x * x -> ~ x ≡p 0 -> w ^ ((p - 1) / 2) ≡p 1.
Proof.
  intros E Hx. etransitivity; [exact (pow_eqp _ _ _ E)|].
  assert (Hm : 2 * ((p - 1) / 2) = p - 1 /\ 0 <= (p - 1) / 2) by (vm_compute; done).
  destruct Hm as [Hm H0]. revert Hm H0. generalize ((p - 1) / 2). intros m Hm H0.
  rewrite <- Z.pow_2_r, <- Z.pow_mul_r, Hm by lia. unfold eqp. rewrite (fermat p x p_primo); [done|].
  by rewrite eqp_0 in Hx.
Qed.

(** No square is [d] times another. *)
Lemma D_no_cuadrado a b : a * a ≡p D * (b * b) -> b ≡p 0.
Proof.
  intros E. destruct (Z.eq_dec (b mod p) 0) as [Hb|Hb]; [by apply eqp_0|]. exfalso.
  assert (Hb' : ~ b ≡p 0) by (by rewrite eqp_0).
  assert (ED : D ≡p (a * inv b) * (a * inv b)).
  { replace (a * inv b * (a * inv b)) with (a * a * (inv b * inv b)) by lia. rewrite E.
    replace (D * (b * b) * (inv b * inv b)) with (D * (b * inv b) * (b * inv b)) by lia.
    rewrite inv_bien by done. by rewrite !Z.mul_1_r. }
  assert (Hn : ~ a * inv b ≡p 0).
  { intros H. rewrite H in ED. revert ED. by vm_compute. }
  pose proof (euler D _ ED Hn) as H1. rewrite D_no_residuo in H1. revert H1. by vm_compute.
Qed.

(** * The curve *)

Definition curva (q : Z * Z) : Prop := q.2 * q.2 - q.1 * q.1 ≡p 1 + D * (q.1 * q.1) * (q.2 * q.2).

(** The denominators of the addition law. *)
Definition lado (q r : Z * Z) : Z := D * q.1 * r.1 * q.2 * r.2.

Definition suma_af (q r : Z * Z) : Z * Z :=
  let t := lado q r in
  (((q.1 * r.2 + q.2 * r.1) * inv (1 + t)) mod p, ((q.2 * r.2 + q.1 * r.1) * inv (1 - t)) mod p).

Lemma eqp_comb4 c1 a1 b1 c2 a2 b2 c3 a3 b3 c4 a4 b4 x y : a1 ≡p b1 -> a2 ≡p b2 -> a3 ≡p b3 -> a4 ≡p b4 ->
  x - y = c1 * (a1 - b1) + c2 * (a2 - b2) + c3 * (a3 - b3) + c4 * (a4 - b4) -> x ≡p y.
Proof.
  intros H1 H2 H3 H4 E. replace x with (y + c1 * (a1 - b1) + c2 * (a2 - b2) + c3 * (a3 - b3) + c4 * (a4 - b4)) by lia.
  rewrite H1, H2, H3, H4. replace (_ + _) with y by lia. done.
Qed.

(** The law is complete: its denominators never vanish on the curve.  With
    [u = i x], where [i] is the root of -1, both [u1 + t y1] and [u1 - t y1]
    would be roots of [-d] times a square. *)
Lemma lado_raiz (s : Z) x1 y1 x2 y2 : s = 1 \/ s = -1 -> curva (x1, y1) -> curva (x2, y2) ->
  D * x1 * x2 * y1 * y2 * (D * x1 * x2 * y1 * y2) ≡p 1 -> RAIZ * x1 * y1 * (RAIZ * x2 + s * y2) ≡p 0.
Proof.
  unfold curva. cbn [fst snd]. intros Hs C1 C2 H.
  set (a := RAIZ * x1 + s * (D * x1 * x2 * y1 * y2) * y1). set (b := RAIZ * x1 * y1 * (RAIZ * x2 + s * y2)).
  assert (E : a * a + D * (b * b) ≡p 0).
  { apply (eqp_comb4 (x1 * x1 + D * x1 * x1 * x2 * x2 * y1 * y1 * (RAIZ * RAIZ - 1) + D * x1 * x1 * y1 * y1 * y2 * y2
        + s * 2 * D * RAIZ * x1 * x1 * x2 * y1 * y1 * y2) _ _ 1 _ _ (- D * x1 * x1 * y1 * y1) _ _ (y1 * y1 - 1) _ _ _ _ RAIZ_es C1 C2 H).
    unfold a, b. destruct Hs as [-> | ->]; ring. }
  apply (D_no_cuadrado (RAIZ * a)). 
  apply (eqp_comb2 (- (D * (b * b))) _ _ (RAIZ * RAIZ) _ _ _ _ RAIZ_es E). ring.
Qed.

Lemma eqp_mul_0 x y : ~ x * y ≡p 0 -> ~ x ≡p 0 /\ ~ y ≡p 0.
Proof. intros H. split; intros E; apply H; rewrite E; by rewrite ?Z.mul_0_r. Qed.

Lemma lado_no_uno q r : curva q -> curva r -> ~ lado q r * lado q r ≡p 1.
Proof.
  destruct q as [x1 y1], r as [x2 y2]. unfold lado. cbn [fst snd]. intros C1 C2 H.
  pose proof (lado_raiz 1 x1 y1 x2 y2 ltac:(by left) C1 C2 H) as R1.
  pose proof (lado_raiz (-1) x1 y1 x2 y2 ltac:(by right) C1 C2 H) as R2.
  assert (Hn : ~ D * x1 * x2 * y1 * y2 * (D * x1 * x2 * y1 * y2) ≡p 0) by (rewrite H; exact uno_no_cero).
  apply eqp_mul_0 in Hn as [Hn _]. apply eqp_mul_0 in Hn as [Hn Hy2]. apply eqp_mul_0 in Hn as [Hn Hy1].
  apply eqp_mul_0 in Hn as [Hn _]. apply eqp_mul_0 in Hn as [_ Hx1].
  assert (HR : ~ RAIZ ≡p 0) by (by vm_compute).
  assert (E : 2 * (RAIZ * x1 * y1 * y2) ≡p 0) by (apply (eqp_comb2 1 _ _ (-1) _ _ _ _ R1 R2); ring).
  apply eqp_producto in E as [E|E]; [exact (dos_no_cero E)|].
  apply eqp_producto in E as [E|E]; [|exact (Hy2 E)]. apply eqp_producto in E as [E|E]; [|exact (Hy1 E)].
  apply eqp_producto in E as [E|E]; [exact (HR E)|exact (Hx1 E)].
Qed.

Lemma lado_mas q r : curva q -> curva r -> ~ 1 + lado q r ≡p 0 /\ ~ 1 - lado q r ≡p 0.
Proof.
  intros Hq Hr. pose proof (lado_no_uno q r Hq Hr) as H.
  split; intros E; apply H; [apply (eqp_comb1 (lado q r - 1) _ _ _ _ E)|apply (eqp_comb1 (- lado q r - 1) _ _ _ _ E)]; ring.
Qed.

(** The sum of two points of the curve is a point of the curve. *)
Lemma suma_curva q r : curva q -> curva r -> curva (suma_af q r).
Proof.
  intros Hq Hr. destruct (lado_mas q r Hq Hr) as [N1 N2].
  pose proof (inv_bien _ N1) as I1. pose proof (inv_bien _ N2) as I2.
  destruct q as [x1 y1], r as [x2 y2]. unfold curva, suma_af, lado in *. cbn [fst snd] in *.
  set (t := D * x1 * x2 * y1 * y2) in *. set (a := inv (1 + t)) in *. set (b := inv (1 - t)) in *. clearbody a b.
  rewrite !mod_eqp. set (e := x1 * y2 + y1 * x2). set (h := y1 * y2 + x1 * x2).
  assert (E : (1 + t) * (1 + t) * (h * h) - (1 - t) * (1 - t) * (e * e) ≡p (1 - t * t) * (1 - t * t) + D * (e * e) * (h * h)).
  { set (k1 := D * (x1 * x1) * (y1 * y1)) in *. set (k2 := D * (x2 * x2) * (y2 * y2)) in *.
    transitivity ((1 + k1 * k2) * ((y1 * y1 - x1 * x1) * (y2 * y2 - x2 * x2)) - (1 - k1 * k2) * (1 - k1 * k2)
      - k1 * ((y2 * y2 - x2 * x2) * (y2 * y2 - x2 * x2)) - k2 * ((y1 * y1 - x1 * x1) * (y1 * y1 - x1 * x1))
      + ((1 - t * t) * (1 - t * t) + D * (e * e) * (h * h))).
    - unfold t, e, h, k1, k2. apply eq_subrelation; [apply _|]. ring.
    - rewrite Hq, Hr. apply eq_subrelation; [apply _|]. ring. }
  transitivity ((1 + t) * (1 + t) * (h * h) * (a * a * (b * b)) - (1 - t) * (1 - t) * (e * e) * (a * a * (b * b))).
  - replace ((1 + t) * (1 + t) * (h * h) * (a * a * (b * b))) with ((1 + t) * a * ((1 + t) * a) * (h * b * (h * b))) by ring.
    replace ((1 - t) * (1 - t) * (e * e) * (a * a * (b * b))) with ((1 - t) * b * ((1 - t) * b) * (e * a * (e * a))) by ring.
    rewrite I1, I2. apply eq_subrelation; [apply _|]. ring.
  - replace ((1 + t) * (1 + t) * (h * h) * (a * a * (b * b)) - (1 - t) * (1 - t) * (e * e) * (a * a * (b * b)))
      with (((1 + t) * (1 + t) * (h * h) - (1 - t) * (1 - t) * (e * e)) * (a * a * (b * b))) by ring.
    rewrite E. replace (((1 - t * t) * (1 - t * t) + D * (e * e) * (h * h)) * (a * a * (b * b)))
      with ((1 + t) * a * ((1 + t) * a) * ((1 - t) * b * ((1 - t) * b)) + D * (e * a * (e * a)) * (h * b * (h * b))) by ring.
    rewrite I1, I2. apply eq_subrelation; [apply _|]. ring.
Qed.

(** * Four coordinates *)

(** [P] stands for the point [q]: X = x Z, Y = y Z, T = x y Z. *)
Definition en_afin (P : Ed25519.Punto) (q : Z * Z) : Prop :=
  exists z, ~ z ≡p 0 /\ Repr (Ed25519.px P) (q.1 * z) /\ Repr (Ed25519.py P) (q.2 * z) /\
    Repr (Ed25519.pz P) z /\ Repr (Ed25519.pt P) (q.1 * q.2 * z).

Lemma no_cero_mul x y : ~ x ≡p 0 -> ~ y ≡p 0 -> ~ x * y ≡p 0.
Proof. intros Hx Hy [E|E]%eqp_producto; auto. Qed.

Lemma suma_afin P Q q r : curva q -> curva r -> en_afin P q -> en_afin Q r -> en_afin (Ed25519.suma P Q) (suma_af q r).
Proof.
  intros Hq Hr (z1 & N1 & X1 & Y1 & Z1 & T1) (z2 & N2 & X2 & Y2 & Z2 & T2). destruct (lado_mas q r Hq Hr) as [M1 M2].
  pose proof (inv_bien _ M1) as I1. pose proof (inv_bien _ M2) as I2.
  destruct q as [x1 y1], r as [x2 y2]. unfold suma_af, lado in *. cbn [fst snd] in *.
  set (t := D * x1 * x2 * y1 * y2) in *. set (a := inv (1 + t)) in *. set (b := inv (1 - t)) in *. clearbody a b.
  unfold Ed25519.suma. set (d := desde_bytes Ed25519.D_BYTES). assert (Hd : Repr d D) by apply repr_D. clearbody d.
  exists (2 * z1 * z2 * (1 - t) * (2 * z1 * z2 * (1 + t))). cbn [Ed25519.px Ed25519.py Ed25519.pz Ed25519.pt fst snd].
  split; [|split_and!].
  - pose proof dos_no_cero. by repeat apply no_cero_mul.
  - eapply repr_eqp; [campo|]. transitivity (2 * z1 * z2 * (x1 * y2 + y1 * x2) * (2 * z1 * z2 * (1 - t))).
    + apply eq_subrelation; [apply _|]. unfold t. ring.
    + rewrite mod_eqp. apply (eqp_comb1 (- (2 * z1 * z2 * (x1 * y2 + y1 * x2) * (2 * z1 * z2 * (1 - t)))) _ _ _ _ I1). ring.
  - eapply repr_eqp; [campo|]. transitivity (2 * z1 * z2 * (y1 * y2 + x1 * x2) * (2 * z1 * z2 * (1 + t))).
    + apply eq_subrelation; [apply _|]. unfold t. ring.
    + rewrite mod_eqp. apply (eqp_comb1 (- (2 * z1 * z2 * (y1 * y2 + x1 * x2) * (2 * z1 * z2 * (1 + t)))) _ _ _ _ I2). ring.
  - eapply repr_eqp; [campo|]. apply eq_subrelation; [apply _|]. unfold t. ring.
  - eapply repr_eqp; [campo|]. rewrite !mod_eqp.
    transitivity (2 * z1 * z2 * (x1 * y2 + y1 * x2) * (2 * z1 * z2 * (y1 * y2 + x1 * x2)) * (((1 + t) * a) * ((1 - t) * b))).
    + rewrite I1, I2. apply eq_subrelation; [apply _|]. unfold t. ring.
    + apply eq_subrelation; [apply _|]. ring.
Qed.

Definition O : Z * Z := (0, 1).

Lemma O_curva : curva O.
Proof. by vm_compute. Qed.
Lemma O_afin : en_afin Ed25519.NEUTRO O.
Proof. exists 1. split; [exact uno_no_cero|]. split_and!; first [exact repr_CERO|exact repr_UNO]. Qed.

(** ** Multiples *)

(** Double and add over the bits of a number, from the top. *)
Fixpoint por_pos (n : positive) (q : Z * Z) : Z * Z :=
  match n with
  | xH => suma_af (suma_af O O) q
  | xO n => let r := por_pos n q in suma_af r r
  | xI n => let r := por_pos n q in suma_af (suma_af r r) q
  end.
Definition por_af (n : Z) (q : Z * Z) : Z * Z := match n with Zpos n => por_pos n q | _ => O end.

Lemma inv_1 : inv 1 = 1.
Proof. unfold inv. rewrite Z.pow_1_l by done. done. Qed.

Lemma suma_O_O : suma_af O O = O.
Proof.
  unfold suma_af, lado, O. cbn [fst snd]. replace (1 + D * 0 * 0 * 1 * 1) with 1 by lia. replace (1 - D * 0 * 0 * 1 * 1) with 1 by lia.
  by rewrite inv_1.
Qed.

Lemma por_af_paso n b q : 0 <= n -> por_af (2 * n + Z.b2z b) q =
  (let r := suma_af (por_af n q) (por_af n q) in if b then suma_af r q else r).
Proof. intros Hn. destruct n as [|n|n]; [|by destruct b|lia]. destruct b; cbn; [done|]. by rewrite suma_O_O. Qed.

Lemma por_af_curva n q : curva q -> curva (por_af n q).
Proof.
  intros Hq. destruct n as [|n|n]; [exact O_curva| |exact O_curva]. cbn [por_af].
  induction n as [n IH|n IH|]; cbn [por_pos]; repeat apply suma_curva; auto using O_curva.
Qed.

Lemma byte_testbit x i : 0 <= i -> (Z.land (Z.shiftr x i) 1 =? 1) = Z.testbit x i.
Proof.
  intros Hi. rewrite (land_ones_mod _ 1 : 0 <= 1 -> Z.land _ 1 = _), <- Z.bit0_mod, Z.shiftr_spec by lia.
  rewrite Z.add_0_l. by destruct (Z.testbit x i).
Qed.

(** The loop of one byte, and of all of them. *)
Lemma por_bit_es P q byte : curva q -> en_afin P q -> is_u8 byte -> forall r n, 0 <= n -> en_afin r (por_af n q) ->
  en_afin (foldl (Ed25519.por_bit P byte) r [7; 6; 5; 4; 3; 2; 1; 0]) (por_af (256 * n + byte) q).
Proof.
  intros Hq HP Hb.
  assert (G : forall i r n, 0 <= n -> 0 <= i -> en_afin r (por_af n q) -> en_afin (Ed25519.por_bit P byte r i) (por_af (2 * n + Z.b2z (Z.testbit byte i)) q)).
  { intros i r n Hn Hi Hr. unfold Ed25519.por_bit. rewrite byte_testbit, por_af_paso by done. cbv zeta.
    pose proof (por_af_curva n q Hq). pose proof (suma_afin r r _ _ H H Hr Hr) as H2.
    destruct (Z.testbit byte i); [|done]. apply suma_afin; auto using suma_curva. }
  intros r n Hn Hr. cbn [foldl].
  assert (E : 256 * n + byte = 2 * (2 * (2 * (2 * (2 * (2 * (2 * (2 * n + Z.b2z (Z.testbit byte 7)) + Z.b2z (Z.testbit byte 6))
    + Z.b2z (Z.testbit byte 5)) + Z.b2z (Z.testbit byte 4)) + Z.b2z (Z.testbit byte 3)) + Z.b2z (Z.testbit byte 2)) + Z.b2z (Z.testbit byte 1)) + Z.b2z (Z.testbit byte 0)).
  { clear -Hb. assert (Hf : forallb (fun byte => byte =? 128 * Z.b2z (Z.testbit byte 7) + 64 * Z.b2z (Z.testbit byte 6) + 32 * Z.b2z (Z.testbit byte 5)
      + 16 * Z.b2z (Z.testbit byte 4) + 8 * Z.b2z (Z.testbit byte 3) + 4 * Z.b2z (Z.testbit byte 2) + 2 * Z.b2z (Z.testbit byte 1) + Z.b2z (Z.testbit byte 0)) (seqZ 0 256) = true)
      by (vm_compute; reflexivity).
    pose proof (byte_todos _ Hf byte Hb) as E. apply Z.eqb_eq in E. lia. }
  assert (B : forall b m, 0 <= m -> 0 <= 2 * m + Z.b2z b) by (intros [] m Hm; cbn; lia).
  rewrite E. do 8 (apply G; [by repeat apply B|lia|]). done.
Qed.

Lemma por_escalar_es P q n : curva q -> en_afin P q -> Forall is_u8 n -> en_afin (Ed25519.por_escalar n P) (por_af (of_le n) q).
Proof.
  intros Hq HP Hn. unfold Ed25519.por_escalar. induction Hn as [|x n Hx Hn IH]; [exact O_afin|].
  cbn [rev of_le]. rewrite foldl_app. change (2 ^ 8) with 256. replace (x + 256 * of_le n) with (256 * of_le n + x) by lia.
  refine (por_bit_es P q x Hq HP Hx _ (of_le n) _ IH). apply of_le_range in Hn. lia.
Qed.

(** * Bytes of a point *)

(** The number that a point is on the wire: y, and the parity of x above it. *)
Definition cod (q : Z * Z) : list Z := le 32 (q.2 mod p + 2 ^ 255 * ((q.1 mod p) mod 2)).

Lemma p_rango x : 0 <= x mod p < 2 ^ 255.
Proof. pose proof (Z.mod_pos_bound x p ltac:(done)). unfold p in *. lia. Qed.

Lemma mod2_rango x : 0 <= x mod 2 <= 1.
Proof. pose proof (Z.mod_pos_bound x 2). lia. Qed.

Lemma bit_cero x : 0 <= x -> Z.land (le 32 x !!! 0%nat) 1 = x mod 2.
Proof.
  intros Hx. rewrite (list_lookup_total_correct _ 0 ((x / 256 ^ 0) mod 256)) by (apply (le_lookup 32 x 0); lia).
  rewrite (land_ones_mod _ 1 : 0 <= 1 -> Z.land _ 1 = _) by done. rewrite Z.div_1_r. lia.
Qed.

Lemma pon_signo v b : 0 <= v < 2 ^ 255 -> 0 <= b <= 1 ->
  <[31%nat := Z.lor (le 32 v !!! 31%nat) (w8 (Z.shiftl b 7))]> (le 32 v) = le 32 (v + 2 ^ 255 * b).
Proof.
  intros Hv Hb. rewrite (list_lookup_total_correct (le 32 v) 31 (v / 2 ^ 248)).
  2:{ rewrite le_lookup by lia. f_equal. change (256 ^ Z.of_nat 31) with (2 ^ 248). apply Z.mod_small. lia. }
  assert (E : w8 (Z.shiftl b 7) = Z.shiftl b 7) by (destruct (Z.eq_dec b 0) as [->|]; [done|]; by replace b with 1 by lia).
  rewrite E, Z.lor_comm, lor_shiftl_add by lia. change 32%nat with (31 + 1)%nat. rewrite !le_app.
  rewrite insert_app_r_alt by (rewrite length_le; lia). rewrite length_le. change (31 - 31)%nat with 0%nat.
  change (8 * Z.of_nat 31) with 248. change (le 1 (?z)) with [z mod 2 ^ 8]. cbn [insert list_insert]. f_equal.
  - replace (v + 2 ^ 255 * b) with (v + 2 ^ (8 * Z.of_nat 31) * (128 * b)) by (change (8 * Z.of_nat 31) with 248; lia). by rewrite le_bajo.
  - f_equal. lia.
Qed.

Lemma comprimir_es P q : en_afin P q -> Ed25519.comprimir P = cod q.
Proof.
  intros (z & Nz & Hx & Hy & Hz & _). unfold Ed25519.comprimir, cod. pose proof (inv_bien z Nz) as I.
  assert (Rx : Repr (mul (Ed25519.px P) (invertir (Ed25519.pz P))) q.1).
  { eapply repr_eqp; [campo|]. apply (eqp_comb1 q.1 _ _ _ _ I). ring. }
  assert (Ry : Repr (mul (Ed25519.py P) (invertir (Ed25519.pz P))) q.2).
  { eapply repr_eqp; [campo|]. apply (eqp_comb1 q.2 _ _ _ _ I). ring. }
  rewrite (repr_bytes _ _ Rx), (repr_bytes _ _ Ry), bit_cero by apply p_rango.
  apply pon_signo; [apply p_rango|]. apply mod2_rango.
Qed.

Lemma le_signo_inj v b w c : 0 <= v < 2 ^ 255 -> 0 <= b <= 1 -> 0 <= w < 2 ^ 255 -> 0 <= c <= 1 ->
  le 32 (v + 2 ^ 255 * b) = le 32 (w + 2 ^ 255 * c) -> v = w /\ b = c.
Proof.
  intros Hv Hb Hw Hc E. apply (f_equal of_le) in E.
  rewrite !of_le_le in E by (change (2 ^ (8 * Z.of_nat 32)) with (2 ^ 256); lia). lia.
Qed.

Lemma cod_inj q r : cod q = cod r -> q.2 ≡p r.2 /\ (q.1 mod p) mod 2 = (r.1 mod p) mod 2.
Proof. apply le_signo_inj; first [apply p_rango|apply mod2_rango]. Qed.

(** [b] is the encoding of the point [q]: its y modulo p, and the x of the
    curve that has the parity of the top bit. *)
Definition es_punto (b : list Z) (q : Z * Z) : Prop :=
  q.2 = (of_le b mod 2 ^ 255) mod p /\ 0 <= q.1 < p /\ curva q /\ q.1 mod 2 = of_le b / 2 ^ 255.

Lemma curva_raiz x y : curva (x, y) <-> (D * (y * y) + 1) * (x * x) ≡p y * y - 1.
Proof. unfold curva. cbn [fst snd]. split; intros H; apply (eqp_comb1 (-1) _ _ _ _ H); ring. Qed.

Lemma v_no_cero y : ~ D * (y * y) + 1 ≡p 0.
Proof.
  intros E. assert (Hy : y ≡p 0).
  { apply (D_no_cuadrado RAIZ). apply (eqp_comb2 1 _ _ (-1) _ _ _ _ RAIZ_es E). ring. }
  rewrite Hy in E. revert E. by vm_compute.
Qed.

(** A number and its opposite: the two roots, one of each parity. *)
Lemma cuadrados_iguales x y : x * x ≡p y * y -> x ≡p y \/ x ≡p - y.
Proof.
  intros E. assert ((x - y) * (x + y) ≡p 0) as [H|H]%eqp_producto by (apply (eqp_comb1 1 _ _ _ _ E); ring).
  - left. apply (eqp_comb1 1 _ _ _ _ H). ring.
  - right. apply (eqp_comb1 1 _ _ _ _ H). ring.
Qed.

Lemma raices_reducidas x y : 0 <= x < p -> 0 <= y < p -> x * x ≡p y * y -> x = y \/ (x <> 0 /\ x = p - y).
Proof.
  intros Hx Hy [E|E]%cuadrados_iguales; unfold eqp in E.
  - left. by rewrite !Z.mod_small in E.
  - rewrite (Z.mod_small x) in E by done. destruct (Z.eq_dec y 0) as [->|Hn]; [left; by rewrite Zmod_0_l in E|].
    right. rewrite (Z_mod_nz_opp_full y), Z.mod_small in E; [lia|done|]. by rewrite Z.mod_small.
Qed.

Lemma p_impar : p mod 2 = 1.
Proof. done. Qed.

Lemma es_punto_unico b q r : es_punto b q -> es_punto b r -> q = r.
Proof.
  destruct q as [x y], r as [x' y']. intros (E1 & R1 & C1 & S1) (E2 & R2 & C2 & S2). cbn [fst snd] in *. subst y y'. f_equal.
  apply curva_raiz in C1, C2. rewrite <- C2 in C1. apply eqp_cancela in C1; [|apply v_no_cero].
  apply raices_reducidas in C1 as [->|[Hn E]]; [done| |done|done]. exfalso. rewrite <- S2, E in S1. pose proof p_impar. lia.
Qed.

(** * The square root *)

Lemma pow_p58_potencia z : apretado z -> potencia z (Ed25519.pow_p58 z) ((p - 5) / 8).
Proof.
  intros Hz. assert (exists e, potencia z (Ed25519.pow_p58 z) e /\ e = (p - 5) / 8) as (e & H & ->); [|done].
  eexists. split.
  - pose proof (potencia_1 z Hz). cbv delta [Ed25519.pow_p58]. cbv beta.
    do 30 (match goal with |- potencia z (let y := ?v in @?k y) ?f =>
      eapply (potencia_let z v _ f k);
      [first [apply potencia_mul; eassumption | apply potencia_n; eassumption | apply potencia_cuadrado; eassumption]
      | let y := fresh "y" in let H := fresh "H" in intros y H; cbv beta] end).
    apply potencia_mul; eassumption.
  - vm_compute. reflexivity.
Qed.

Lemma repr_pow_p58 z x : Repr z x -> Repr (Ed25519.pow_p58 z) (x ^ ((p - 5) / 8)).
Proof.
  intros [Hz E]. destruct (pow_p58_potencia z Hz) as (H & _ & E'). split; [done|]. rewrite E', E. apply pow_eqp, mod_eqp.
Qed.

(** [v x^2] at the candidate root is [u] times a fourth root of one when [u / v]
    is a square. *)
Lemma candidata u v x : ~ v ≡p 0 -> v * (x * x) ≡p u ->
  let x0 := (u * (v * v * v * (v * v * (v * v)))) ^ ((p - 5) / 8) * (u * (v * v * v)) in
  v * (x0 * x0) ≡p u \/ v * (x0 * x0) ≡p - u.
Proof.
  intros Hv E x0. set (m := (p - 5) / 8) in *.
  assert (Hm : 0 <= m /\ 2 * m + 1 = (p - 1) / 4 /\ 2 * ((p - 1) / 4) = (p - 1) / 2 /\ 2 * ((p - 1) / 2) = p - 1) by (unfold m; vm_compute; done).
  destruct (Z.eq_dec (u mod p) 0) as [Hu|Hu].
  - left. apply (proj2 (eqp_0 u)) in Hu. unfold x0. generalize ((u * (v * v * v * (v * v * (v * v)))) ^ m). intros a.
    apply (eqp_comb1 (v * a * a * (v * v * v) * (v * v * v) * u - 1) _ _ _ _ Hu). ring.
  - assert (Hx : ~ x ≡p 0).
    { intros H. rewrite H in E. apply Hu, (proj1 (eqp_0 u)). rewrite <- E. apply eq_subrelation; [apply _|]. ring. }
    set (w := x * (v * v * (v * v))). assert (Hw : ~ w ≡p 0) by (unfold w; repeat apply no_cero_mul; done).
    set (g := u * (v * v * v * (v * v * (v * v)))) in *.
    assert (Eg : g ≡p w * w) by (unfold g, w; rewrite <- E; apply eq_subrelation; [apply _|]; ring).
    assert (Ex : v * (x0 * x0) ≡p u * w ^ ((p - 1) / 2)).
    { unfold x0. replace (v * (g ^ m * (u * (v * v * v)) * (g ^ m * (u * (v * v * v))))) with (u * (g ^ m * g ^ m * g)) by (unfold g; ring).
      rewrite <- Z.pow_add_r by lia. rewrite <- (Z.pow_1_r g) at 2. rewrite <- Z.pow_add_r by lia.
      replace (m + m + 1) with ((p - 1) / 4) by lia. rewrite (pow_eqp _ _ _ Eg), <- Z.pow_2_r, <- Z.pow_mul_r by lia.
      by replace (2 * ((p - 1) / 4)) with ((p - 1) / 2) by lia. }
    assert (E1 : w ^ ((p - 1) / 2) * w ^ ((p - 1) / 2) ≡p 1).
    { rewrite <- Z.pow_add_r by lia. replace ((p - 1) / 2 + (p - 1) / 2) with (p - 1) by lia.
      unfold eqp. rewrite (fermat p w p_primo); [done|]. by rewrite eqp_0 in Hw. }
    apply raiz_de_uno in E1 as [E1|E1]; rewrite E1 in Ex; [left|right]; rewrite Ex; apply eq_subrelation; try apply _; ring.
Qed.

Lemma le_inj n x y : 0 <= x < 2 ^ (8 * Z.of_nat n) -> 0 <= y < 2 ^ (8 * Z.of_nat n) -> le n x = le n y -> x = y.
Proof. intros Hx Hy E. by rewrite <- (of_le_le n x), <- (of_le_le n y), E. Qed.

Lemma iguales_es a b x y : Repr a x -> Repr b y -> Ed25519.iguales a b = bool_decide (x mod p = y mod p).
Proof.
  intros Ra Rb. unfold Ed25519.iguales, bytes_iguales. rewrite (repr_bytes _ _ Ra), (repr_bytes _ _ Rb).
  apply bool_decide_ext. split; [|by intros ->]. apply le_inj; change (2 ^ (8 * Z.of_nat 32)) with (2 ^ 256).
  - pose proof (p_rango x). lia.
  - pose proof (p_rango y). lia.
Qed.

Lemma es_cero_es a x : Repr a x -> Ed25519.es_cero a = bool_decide (x mod p = 0).
Proof.
  intros Ra. unfold Ed25519.es_cero, bytes_iguales. rewrite (repr_bytes _ _ Ra). change (replicate 32 0) with (le 32 0).
  apply bool_decide_ext. split; [|by intros ->]. apply le_inj; change (2 ^ (8 * Z.of_nat 32)) with (2 ^ 256); [|lia].
  pose proof (p_rango x). lia.
Qed.

Lemma signo_es b : length b = 32%nat -> Forall is_u8 b -> Z.land (Z.shiftr (b !!! 31%nat) 7) 1 = of_le b / 2 ^ 255.
Proof.
  intros Hl Hb. assert (is_u8 (b !!! 31%nat)) as Hx.
  { rewrite Forall_forall in Hb. apply Hb. destruct (lookup_lt_is_Some_2 b 31 ltac:(lia)) as [x E].
    rewrite (list_lookup_total_correct _ _ _ E). by apply (list_elem_of_lookup_2 _ 31). }
  rewrite (land_ones_mod _ 1 : 0 <= 1 -> Z.land _ 1 = _), Z.shiftr_div_pow2 by done.
  rewrite (list_lookup_total_correct b 31 (of_le b / 2 ^ 248)) in *; unfold is_u8 in *.
  - lia.
  - pose proof (of_le_range b Hb) as R. rewrite Hl in R. change (2 ^ (8 * Z.of_nat 32)) with (2 ^ 256) in R.
    rewrite <- (le_of_le b Hb) at 1. rewrite Hl, le_lookup by lia. f_equal. change (256 ^ Z.of_nat 31) with (2 ^ 248). apply Z.mod_small. lia.
  - pose proof (of_le_range b Hb) as R. rewrite Hl in R. change (2 ^ (8 * Z.of_nat 32)) with (2 ^ 256) in R.
    rewrite <- (le_of_le b Hb) at 1. rewrite Hl, le_lookup by lia. f_equal. change (256 ^ Z.of_nat 31) with (2 ^ 248). apply Z.mod_small. lia.
Qed.

(** What [descomprimir] answers of the bytes [b]: their point, or that there is none. *)
Definition del_punto (b : list Z) (o : option Ed25519.Punto) : Prop :=
  match o with
  | Some P => exists q, es_punto b q /\ en_afin P q
  | None => forall q, ~ es_punto b q
  end.

Lemma punto_afin x y X Y : Repr x X -> Repr y Y -> en_afin (Ed25519.mkPunto x y UNO (mul x y)) (X mod p, Y mod p).
Proof.
  intros Hx Hy. exists 1. cbn [Ed25519.px Ed25519.py Ed25519.pz Ed25519.pt fst snd]. split; [exact uno_no_cero|].
  rewrite !Z.mul_1_r. split_and!; [by apply repr_mod|by apply repr_mod|exact repr_UNO|].
  eapply repr_eqp; [campo|]. by rewrite !mod_eqp.
Qed.

Lemma con_signo_es b x y X Y : length b = 32%nat -> Forall is_u8 b -> Repr x X -> Repr y Y -> Y = of_le b mod 2 ^ 255 ->
  (D * (Y * Y) + 1) * (X * X) ≡p Y * Y - 1 -> del_punto b (Ed25519.con_signo b x y).
Proof.
  intros Hl Hb Rx Ry HY E. unfold Ed25519.con_signo. rewrite signo_es by done. set (s := of_le b / 2 ^ 255).
  assert (Hs : 0 <= s <= 1).
  { pose proof (of_le_range b Hb) as R. rewrite Hl in R. change (2 ^ (8 * Z.of_nat 32)) with (2 ^ 256) in R. unfold s. lia. }
  rewrite (es_cero_es x X Rx), (repr_bytes x X Rx), bit_cero by apply p_rango.
  assert (Hc : forall z, (D * (Y * Y) + 1) * (z * z) ≡p Y * Y - 1 -> curva (z mod p, Y mod p)).
  { intros z Hz. apply curva_raiz. by rewrite !mod_eqp. }
  set (xr := X mod p). assert (Hx : 0 <= xr < p) by (apply Z.mod_pos_bound; done).
  case_bool_decide as E0; cbn [andb]; [destruct (Z.eqb_spec s 1) as [Es|Es]|].
  - (* x = 0 with the sign set: no other root, so no point *)
    intros [x' y'] (Ey & Rx' & C & Sx). cbn [fst snd] in *. subst y'. rewrite <- HY in C. apply curva_raiz in C.
    rewrite !mod_eqp in C. rewrite <- E in C. apply eqp_cancela in C; [|apply v_no_cero].
    assert (x' * x' ≡p xr * xr) as C' by (unfold xr; by rewrite !mod_eqp).
    apply raices_reducidas in C'; [|done|done]. fold xr in E0. fold s in Sx. rewrite E0 in C'. destruct C' as [->|[? ->]]; [|lia].
    rewrite Es in Sx. done.
  - fold xr in E0. rewrite E0. replace s with 0 by lia. cbn [Z.modulo Z.div_eucl snd Z.eqb negb].
    exists (xr, Y mod p). split; [|by apply punto_afin]. split_and!; cbn [fst snd]; [by rewrite HY|lia|lia|by apply Hc|].
    fold s. rewrite E0. change (0 mod 2) with 0. lia.
  - destruct (Z.eqb_spec (xr mod 2) s) as [Ep|Ep]; cbn [negb].
    + exists (xr, Y mod p). split; [|by apply punto_afin]. split_and!; cbn [fst snd]; [by rewrite HY|lia|lia|by apply Hc|done].
    + exists ((0 - X) mod p, Y mod p). split; [|apply punto_afin; [campo|done]; exact repr_CERO].
      assert (En : (0 - X) mod p = p - xr) by (rewrite Z.sub_0_l, Z_mod_nz_opp_full by done; done).
      split_and!; cbn [fst snd]; [by rewrite HY|rewrite En; fold xr in E0; lia|rewrite En; fold xr in E0; lia| |].
      * apply Hc. rewrite <- E. apply eq_subrelation; [apply _|]. ring.
      * rewrite En. fold s. pose proof p_impar. pose proof (mod2_rango xr). clear -Ep H Hs H0. lia.
Qed.

Lemma descomprimir_es b : length b = 32%nat -> Forall is_u8 b -> del_punto b (Ed25519.descomprimir b).
Proof.
  intros Hl Hb. pose proof (repr_desde b Hl Hb) as Ry. unfold Ed25519.descomprimir. cbv zeta.
  set (y := desde_bytes b) in *. set (Y := of_le b mod 2 ^ 255) in *.
  set (d := desde_bytes Ed25519.D_BYTES). assert (Rd : Repr d D) by apply repr_D. clearbody d.
  set (u := resta (cuadrado y) UNO). set (v := suma (mul d (cuadrado y)) UNO).
  set (i := desde_bytes Ed25519.RAIZ_MENOS_UNO). assert (Ri : Repr i RAIZ) by apply repr_RAIZ. clearbody i.
  assert (Ru : Repr u (Y * Y - 1)) by (unfold u; campo). assert (Rv : Repr v (D * (Y * Y) + 1)) by (unfold v; campo).
  pose proof (v_no_cero Y) as Nv. clearbody u v. set (U := Y * Y - 1) in *. set (V := D * (Y * Y) + 1) in *.
  assert (Rp : Repr (Ed25519.pow_p58 (mul u (mul (mul (cuadrado v) v) (cuadrado (cuadrado v)))))
    ((U * (V * V * V * (V * V * (V * V)))) ^ ((p - 5) / 8))) by (apply repr_pow_p58; campo).
  set (x := mul (Ed25519.pow_p58 _) _). set (X := (U * (V * V * V * (V * V * (V * V)))) ^ ((p - 5) / 8) * (U * (V * V * V))).
  assert (Rx : Repr x X) by (unfold x, X; campo). clearbody x.
  assert (Rk : Repr (mul v (cuadrado x)) (V * (X * X))) by campo.
  assert (Rk' : Repr (mul v (cuadrado (mul x i))) (V * (X * RAIZ * (X * RAIZ)))) by campo.
  rewrite (iguales_es _ _ _ _ Rk Ru), (iguales_es _ _ _ _ Rk' Ru). case_bool_decide as E1; cbn [negb].
  { by apply (con_signo_es b x y X Y). }
  case_bool_decide as E2; cbn [negb].
  { apply (con_signo_es b _ y (X * RAIZ) Y); [done|done|campo|done|done|done]. }
  (* neither of the two candidates is a root: there is none *)
  intros [xq yq] (Eq & _ & C & _). cbn [fst snd] in *. subst yq. apply curva_raiz in C. rewrite !mod_eqp in C.
  destruct (candidata U V xq Nv C) as [H|H]; [by apply E1|]. fold X in H. apply E2.
  apply (eqp_comb2 (V * X * X) _ _ (-1) _ _ _ _ RAIZ_es H). ring.
Qed.

(** * The verification *)

(** The order of the group, and its generator: y = 4/5 with x even. *)
Definition L_num : Z := 2 ^ 252 + 27742317777372353535851937790883648493.
Definition B : Z * Z :=
  (15112221349535400772501151409588531511454012693041857206046113283949847762202,
   46316835694926478169428394003475163141307993866256225615783033603165251855960).

Lemma L_es : of_le Ed25519.L = L_num.
Proof. reflexivity. Qed.

Lemma B_es : es_punto Ed25519.BASE B /\ 5 * B.2 ≡p 4.
Proof. split; [split_and!|]; vm_compute; done. Qed.

Lemma of_le_rev_cons x l : of_le (rev (x :: l)) = of_le (rev l) + 2 ^ (8 * Z.of_nat (length l)) * x.
Proof. cbn [rev]. rewrite of_le_app, length_rev. cbn [of_le]. lia. Qed.

Lemma of_le_rev_rango l : Forall is_u8 l -> 0 <= of_le (rev l) < 2 ^ (8 * Z.of_nat (length l)).
Proof. intros H. rewrite <- length_rev. by apply of_le_range, Forall_rev. Qed.

(** Comparing from the top is comparing the numbers. *)
Lemma mayor_digito m n u v x y : 0 <= u < m -> 0 <= v < m -> x < y -> n = m -> u + n * x < v + n * y.
Proof. nia. Qed.

Lemma s_valida_desde_es s : forall l, length s = length l -> Forall is_u8 s -> Forall is_u8 l ->
  Ed25519.s_valida_desde s l = (of_le (rev s) <? of_le (rev l)).
Proof.
  induction s as [|x s IH]; intros [|y l] Hl Hs Hm; try done. injection Hl as Hl.
  apply Forall_cons in Hs as [Hx Hs]. apply Forall_cons in Hm as [Hy Hm]. cbn [Ed25519.s_valida_desde].
  rewrite !of_le_rev_cons, Hl. pose proof (of_le_rev_rango s Hs) as Rs. pose proof (of_le_rev_rango l Hm) as Rl. rewrite Hl in Rs.
  set (w := 2 ^ (8 * Z.of_nat (length l))) in *. symmetry.
  destruct (Z.ltb_spec x y); [apply Z.ltb_lt; by apply (mayor_digito w)|].
  destruct (Z.ltb_spec y x); [apply Z.ltb_ge, Z.lt_le_incl; by apply (mayor_digito w)|].
  replace y with x by lia. rewrite IH by done.
  destruct (Z.ltb_spec (of_le (rev s)) (of_le (rev l))); [apply Z.ltb_lt|apply Z.ltb_ge]; lia.
Qed.

Lemma L_octetos : Forall is_u8 Ed25519.L.
Proof. apply octetos_dec. vm_compute. reflexivity. Qed.

Lemma s_valida_es s : length s = 32%nat -> Forall is_u8 s -> Ed25519.s_valida s = (of_le s <? L_num).
Proof.
  intros Hl Hs. unfold Ed25519.s_valida. rewrite s_valida_desde_es.
  - by rewrite !rev_involutive.
  - rewrite !length_rev. done.
  - by apply Forall_rev.
  - apply Forall_rev, L_octetos.
Qed.

Definition dup (q : Z * Z) : Z * Z := suma_af q q.
Definition ocho (q : Z * Z) : Z * Z := dup (dup (dup q)).

(** Both coordinates are already remainders. *)
Definition reducido (q : Z * Z) : Prop := 0 <= q.1 < p /\ 0 <= q.2 < p.

Lemma suma_reducido q r : reducido (suma_af q r).
Proof. split; apply Z.mod_pos_bound; done. Qed.

Lemma por_reducido n q : reducido (por_af n q).
Proof.
  assert (reducido O) by (unfold reducido, O; cbn; done).
  destruct n as [|n|n]; [done| |done]. destruct n; apply suma_reducido.
Qed.

(** The neutral element is the only point with y = 1. *)
Lemma y_uno q : curva q -> q.2 ≡p 1 -> q.1 ≡p 0.
Proof.
  destruct q as [x y]. cbn [fst snd]. intros C E. apply curva_raiz in C. rewrite E in C.
  assert ((D + 1) * (x * x) ≡p 0) as H by (apply (eqp_comb1 1 _ _ _ _ C); ring).
  destruct (eqp_producto _ _ H) as [H1|H1]; [exfalso; revert H1; by vm_compute|].
  destruct (eqp_producto _ _ H1) as [H2|H2]; exact H2.
Qed.

Lemma cod_O q : curva q -> reducido q -> cod q = cod O <-> q = O.
Proof.
  intros C [R1 R2]. split; [|by intros ->]. intros [E _]%cod_inj. pose proof (y_uno q C E) as E1. cbn in E.
  unfold eqp in *. rewrite (Z.mod_small q.2) in E by done. rewrite (Z.mod_small q.1), Zmod_0_l in E1 by done.
  destruct q as [x y]. cbn [fst snd] in *. subst x. rewrite E. done.
Qed.

Lemma orden_pequeno_es P q : curva q -> en_afin P q -> Ed25519.orden_pequeno P = bool_decide (ocho q = O).
Proof.
  intros C A. unfold Ed25519.orden_pequeno, bytes_iguales. cbv zeta.
  assert (A8 : en_afin (Ed25519.suma (Ed25519.suma (Ed25519.suma P P) (Ed25519.suma P P)) (Ed25519.suma (Ed25519.suma P P) (Ed25519.suma P P))) (ocho q)).
  { unfold ocho, dup. pose proof (suma_curva q q C C) as C2. pose proof (suma_curva _ _ C2 C2) as C4.
    pose proof (suma_afin _ _ _ _ C C A A) as A2. pose proof (suma_afin _ _ _ _ C2 C2 A2 A2) as A4. exact (suma_afin _ _ _ _ C4 C4 A4 A4). }
  rewrite (comprimir_es _ _ A8), (comprimir_es _ _ O_afin). apply bool_decide_ext. apply cod_O; [|apply suma_reducido].
  unfold ocho, dup. auto using suma_curva.
Qed.

(** The opposite of a point. *)
Definition neg (q : Z * Z) : Z * Z := (- q.1, q.2).

Lemma neg_curva q : curva q -> curva (neg q).
Proof. unfold curva, neg. cbn [fst snd]. by rewrite !Z.mul_opp_opp. Qed.

Lemma neg_afin P q : en_afin P q ->
  en_afin (Ed25519.mkPunto (resta CERO (Ed25519.px P)) (Ed25519.py P) (Ed25519.pz P) (resta CERO (Ed25519.pt P))) (neg q).
Proof.
  intros (z & Nz & Hx & Hy & Hz & Ht). exists z. unfold neg. cbn [Ed25519.px Ed25519.py Ed25519.pz Ed25519.pt fst snd].
  split_and!; [done| |done|done|].
  - replace (- q.1 * z) with (0 - q.1 * z) by ring. campo.
  - replace (- q.1 * q.2 * z) with (0 - q.1 * q.2 * z) by ring. campo.
Qed.

(** The encoding of a point is the one string of bytes below p that decodes to it. *)
Lemma cod_es b q r : length b = 32%nat -> Forall is_u8 b -> es_punto b r -> curva q -> reducido q ->
  cod q = b <-> q = r /\ of_le b mod 2 ^ 255 < p.
Proof.
  intros Hl Hb Er C [R1 R2]. unfold cod. rewrite (Z.mod_small q.1 p), (Z.mod_small q.2 p) by done.
  assert (Hp : p < 2 ^ 255) by done. pose proof (mod2_rango q.1).
  pose proof (of_le_range b Hb) as Rb. rewrite Hl in Rb. change (2 ^ (8 * Z.of_nat 32)) with (2 ^ 256) in Rb. split.
  - intros <-. rewrite of_le_le by (change (2 ^ (8 * Z.of_nat 32)) with (2 ^ 256); lia).
    assert (E1 : (q.2 + 2 ^ 255 * (q.1 mod 2)) mod 2 ^ 255 = q.2) by (rewrite Z.mul_comm, Z.mod_add, Z.mod_small by lia; done).
    split; [|lia]. eapply es_punto_unico; [|exact Er]. split_and!; [|lia|lia|done|].
    + rewrite of_le_le, E1 by (change (2 ^ (8 * Z.of_nat 32)) with (2 ^ 256); lia). by rewrite Z.mod_small.
    + rewrite of_le_le by (change (2 ^ (8 * Z.of_nat 32)) with (2 ^ 256); lia).
      rewrite Z.mul_comm, Z.div_add, Z.div_small by lia. lia.
  - intros [-> Hc]. destruct Er as (E2 & _ & _ & E1). rewrite E1, E2, Z.mod_small by (split; [apply Z.mod_pos_bound; done|done]).
    transitivity (le 32 (of_le b)); [f_equal|rewrite <- Hl; by apply le_of_le].
    pose proof (Z.div_mod (of_le b) (2 ^ 255) ltac:(done)). lia.
Qed.

#[local] Opaque Ed25519.descomprimir.

(** What an Ed25519 signature is: S below the order, the key and R decode to
    points, none of order eight or less, and [S]B - [k]A is R, with k the
    SHA-512 of R, the key and the message, and R in its canonical form. *)
Definition firma_valida (publica mensaje firma : list Z) : Prop :=
  let r_bytes := take 32 firma in
  let s := of_le (drop 32 firma) in
  let k := of_le (sha512_ref (r_bytes ++ publica ++ mensaje)) in
  s < L_num /\ of_le r_bytes mod 2 ^ 255 < p /\
  exists a r, es_punto publica a /\ es_punto r_bytes r /\ ocho a <> O /\ ocho r <> O /\
    suma_af (por_af s B) (por_af k (neg a)) = r.

Lemma zip_positivo l : forall k, Forall (fun x => 0 <= x) (zip_with (fun x y => w64 (x + y)) l k).
Proof.
  induction l as [|x l IH]; intros [|y k]; [constructor|constructor|constructor|]. apply Forall_cons. split; [|apply IH].
  unfold w64. by apply Z.mod_pos_bound.
Qed.

Lemma foldl_512_positivo bs : Forall (fun x => 0 <= x) (foldl Sha512.bloque Sha512.RAICES bs).
Proof.
  destruct bs as [|b bs] using rev_ind; [by repeat constructor|]. rewrite foldl_app. apply zip_positivo.
Qed.

Lemma sha512_octetos m : Forall is_u8 (sha512_ref m).
Proof.
  unfold sha512_ref, hash_ref. generalize (trozos Sha512.BLOQUE (relleno Sha512.BLOQUE 128 16 m)). intros bs.
  pose proof (foldl_512_positivo bs) as H. revert H. generalize (foldl Sha512.bloque Sha512.RAICES bs). intros l.
  induction 1 as [|x l Hx _ IH]; [constructor|]. cbn [mbind list_bind]. apply Forall_app. split; [|done].
  unfold be. apply Forall_reverse, le_bytes, Hx.
Qed.

#[local] Opaque sha512_ref.

Lemma resumen_es r_bytes publica mensaje :
  Sha512.cierra (Sha512.mete (Sha512.mete (Sha512.mete Sha512.nuevo r_bytes) publica) mensaje) = sha512_ref (r_bytes ++ publica ++ mensaje).
Proof. pose proof (sha512_partes [r_bytes; publica; mensaje]) as H. cbn [concat] in H. rewrite app_nil_r in H. exact H. Qed.

Lemma base_es : exists base, Ed25519.descomprimir Ed25519.BASE = Some base /\ en_afin base B.
Proof.
  destruct B_es as [HB _]. pose proof (descomprimir_es Ed25519.BASE eq_refl ltac:(apply octetos_dec; vm_compute; reflexivity)) as H.
  destruct (Ed25519.descomprimir Ed25519.BASE) as [base|]; cbn [del_punto] in H; [|destruct (H B HB)].
  destruct H as (q & Eq & Aq). exists base. split; [reflexivity|]. by rewrite <- (es_punto_unico _ _ _ Eq HB).
Qed.

Lemma verificar_es publica mensaje firma : length publica = 32%nat -> Forall is_u8 publica ->
  length firma = 64%nat -> Forall is_u8 firma ->
  Ed25519.verificar publica mensaje firma = true <-> firma_valida publica mensaje firma.
Proof.
  intros Lp Hp Lf Hf.
  assert (Lr : length (take 32 firma) = 32%nat) by (rewrite length_take; lia).
  assert (Ls : length (drop 32 firma) = 32%nat) by (rewrite length_drop; lia).
  pose proof (Forall_take _ 32 _ Hf) as Hr. pose proof (Forall_drop _ 32 _ Hf) as Hs.
  unfold Ed25519.verificar, firma_valida. cbv zeta. rewrite (s_valida_es _ Ls Hs).
  set (rb := take 32 firma) in *. set (sb := drop 32 firma) in *. clearbody rb sb.
  destruct (Z.ltb_spec (of_le sb) L_num) as [Hs1|Hs1]; cbn [negb]; [|split; [done|intros (? & _); lia]].
  pose proof (descomprimir_es publica Lp Hp) as Da. destruct (Ed25519.descomprimir publica) as [A|]; cbn [del_punto] in Da.
  2:{ split; [done|]. intros (_ & _ & a & r & Ha & _). destruct (Da a Ha). }
  pose proof (descomprimir_es rb Lr Hr) as Dr. destruct (Ed25519.descomprimir rb) as [R|]; cbn [del_punto] in Dr.
  2:{ split; [done|]. intros (_ & _ & a & r & _ & Er & _). destruct (Dr r Er). }
  destruct Da as (a & Ea & Aa), Dr as (r & Er & Ar).
  assert (Ca : curva a) by apply Ea. assert (Cr : curva r) by apply Er.
  rewrite (orden_pequeno_es _ _ Ca Aa), (orden_pequeno_es _ _ Cr Ar).
  case_bool_decide as Oa; cbn [orb].
  { split; [done|]. intros (_ & _ & a' & r' & Ea' & _ & Na & _). destruct Na. by rewrite (es_punto_unico _ _ _ Ea' Ea). }
  case_bool_decide as Or.
  { split; [done|]. intros (_ & _ & a' & r' & _ & Er' & _ & Nr & _). destruct Nr. by rewrite (es_punto_unico _ _ _ Er' Er). }
  rewrite (resumen_es rb publica mensaje). set (kb := sha512_ref (rb ++ publica ++ mensaje)).
  assert (Hk : Forall is_u8 kb) by apply sha512_octetos. clearbody kb.
  destruct base_es as (base & -> & Ab). cbn [from_option]. destruct B_es as [[_ (_ & CB & _)] _].
  assert (Ai : en_afin (Ed25519.suma (Ed25519.por_escalar sb base) (Ed25519.por_escalar kb
      (Ed25519.mkPunto (resta CERO (Ed25519.px A)) (Ed25519.py A) (Ed25519.pz A) (resta CERO (Ed25519.pt A)))))
    (suma_af (por_af (of_le sb) B) (por_af (of_le kb) (neg a)))).
  { pose proof (neg_curva a Ca) as Cn. apply suma_afin; [by apply por_af_curva|by apply por_af_curva| |].
    - by apply por_escalar_es.
    - apply por_escalar_es; [done|by apply neg_afin|done]. }
  assert (Ci : curva (suma_af (por_af (of_le sb) B) (por_af (of_le kb) (neg a)))).
  { apply suma_curva; apply por_af_curva; [done|by apply neg_curva]. }
  rewrite (comprimir_es _ _ Ai). unfold bytes_iguales. rewrite bool_decide_eq_true.
  rewrite (cod_es rb _ r Lr Hr Er Ci (suma_reducido _ _)). split.
  - intros [E Hc]. split; [exact Hs1|]. split; [exact Hc|]. exists a, r. split; [exact Ea|]. split; [exact Er|]. split; [exact Oa|]. split; [exact Or|exact E].
  - intros (_ & Hc & a' & r' & Ea' & Er' & _ & _ & E).
    assert (a' = a) as -> by exact (es_punto_unico _ _ _ Ea' Ea). assert (r' = r) as -> by exact (es_punto_unico _ _ _ Er' Er).
    exact (conj E Hc).
Qed.

(** C35: A signature is accepted exactly when it is one: for every key of 32
    bytes, message and signature of 64, [verificar] says yes if and only if S
    is below the order of the group, key and R are the encodings of points of
    the curve whose eightfold is not the neutral element, R is canonical, and
    [S]B + [k](-A) = R holds on the curve, with k the SHA-512 of R, the key and
    the message.  That is the equation [S]B = R + [k]A of RFC 8032 with [k]A on
    the other side, as the code computes it; that the two are the same is the
    group law, which is not proved here. *)
Theorem verificar_bien publica mensaje firma : length publica = 32%nat -> Forall is_u8 publica ->
  length firma = 64%nat -> Forall is_u8 firma ->
  Ed25519.verificar publica mensaje firma = true <-> firma_valida publica mensaje firma.
Proof. exact (verificar_es publica mensaje firma). Qed.

Definition clave_demo : list Z := Ed25519.BASE.
Definition ceros_demo : list Z := replicate 64 0.

Lemma verificar_bien_witness : length clave_demo = 32%nat /\ length ceros_demo = 64%nat /\
  (Ed25519.verificar clave_demo [] ceros_demo = true <-> firma_valida clave_demo [] ceros_demo).
Proof.
  assert (H1 : Forall is_u8 clave_demo) by (apply octetos_dec; vm_compute; reflexivity).
  assert (H2 : Forall is_u8 ceros_demo) by (apply octetos_dec; vm_compute; reflexivity).
  split; [reflexivity|]. split; [reflexivity|]. exact (verificar_bien clave_demo [] ceros_demo eq_refl H1 eq_refl H2).
Defined.

(** The signature of zeros is a point of order four: no key accepts it. *)
Lemma firma_de_ceros publica mensaje : ~ firma_valida publica mensaje (replicate 64 0).
Proof.
  intros (_ & _ & a & r & _ & Er & _ & Nr & _). apply Nr. clear Nr. destruct r as [x y]. destruct Er as (Ey & Rx & C & _).
  cbn [fst snd] in *. change (of_le (take 32 (replicate 64 0))) with 0 in Ey. change (0 mod 2 ^ 255 mod p) with 0 in Ey. subst y.
  apply curva_raiz in C. assert (E : x * x ≡p -1) by (apply (eqp_comb1 1 _ _ _ _ C); ring).
  assert (E1 : dup (x, 0) = (0, p - 1)).
  { unfold dup, suma_af, lado. cbn [fst snd]. replace (1 + D * x * x * 0 * 0) with 1 by ring. replace (1 - D * x * x * 0 * 0) with 1 by ring.
    rewrite inv_1. replace ((x * 0 + 0 * x) * 1) with 0 by ring. replace ((0 * 0 + x * x) * 1) with (x * x) by ring.
    rewrite Zmod_0_l. f_equal. exact E. }
  unfold ocho. rewrite E1.
  assert (E2 : dup (0, p - 1) = O).
  { unfold dup, suma_af, lado. cbn [fst snd]. replace (1 + D * 0 * 0 * (p - 1) * (p - 1)) with 1 by ring.
    replace (1 - D * 0 * 0 * (p - 1) * (p - 1)) with 1 by ring. rewrite inv_1. reflexivity. }
  rewrite E2. exact suma_O_O.
Qed.


(** A string of 32 bytes decodes to the point whose y it carries, modulo p,
    and whose x is the root of the curve with the parity of its top bit; when
    there is no such x the answer is none, so a zero x with the bit set is
    refused.  The point is unique and it is encoded again as the same string,
    save for the strings whose y is not below p: 3 and p + 3 are two encodings
    of one point, and the decoder takes both. *)
Theorem descomprimir_bien b : length b = 32%nat -> Forall is_u8 b ->
  match Ed25519.descomprimir b with
  | Some P => exists q, es_punto b q /\ en_afin P q /\ (forall r, es_punto b r -> r = q) /\
                (of_le b mod 2 ^ 255 < p <-> Ed25519.comprimir P = b)
  | None => forall q, ~ es_punto b q
  end /\
  (exists P Q q, Ed25519.descomprimir (le 32 3) = Some P /\ Ed25519.descomprimir (le 32 (p + 3)) = Some Q /\
     en_afin P q /\ en_afin Q q).
Proof.
  intros Hl Hb. split.
  - pose proof (descomprimir_es b Hl Hb) as H. destruct (Ed25519.descomprimir b) as [P|]; cbn [del_punto] in H; [|exact H].
    destruct H as (q & Eq & Aq). exists q. split; [exact Eq|]. split; [exact Aq|]. split; [intros r Er; exact (es_punto_unico _ _ _ Er Eq)|].
    rewrite (comprimir_es _ _ Aq). assert (C : curva q) by apply Eq. assert (Rq : reducido q).
    { destruct Eq as (E2 & R1 & _). split; [exact R1|]. rewrite E2. by apply Z.mod_pos_bound. }
    rewrite (cod_es b q q Hl Hb Eq C Rq). tauto.
  - set (q := (47490639360184182837601875270316946735278442122217188244898328344323804759522, 3)).
    assert (E1 : es_punto (le 32 3) q) by (split_and!; vm_compute; done).
    assert (E2 : es_punto (le 32 (p + 3)) q) by (split_and!; vm_compute; done).
    pose proof (descomprimir_es (le 32 3) eq_refl ltac:(apply octetos_dec; vm_compute; reflexivity)) as H1.
    pose proof (descomprimir_es (le 32 (p + 3)) eq_refl ltac:(apply octetos_dec; vm_compute; reflexivity)) as H2.
    destruct (Ed25519.descomprimir (le 32 3)) as [P|]; cbn [del_punto] in H1; [|destruct (H1 q E1)].
    destruct (Ed25519.descomprimir (le 32 (p + 3))) as [Q|]; cbn [del_punto] in H2; [|destruct (H2 q E2)].
    destruct H1 as (q1 & F1 & A1), H2 as (q2 & F2 & A2). exists P, Q, q. split; [reflexivity|]. split; [reflexivity|].
    split; [rewrite <- (es_punto_unico _ _ _ F1 E1); exact A1|rewrite <- (es_punto_unico _ _ _ F2 E2); exact A2].
Qed.

Lemma descomprimir_bien_witness : length clave_demo = 32%nat /\ exists P q, Ed25519.descomprimir clave_demo = Some P /\ en_afin P q.
Proof.
  assert (H1 : Forall is_u8 clave_demo) by (apply octetos_dec; vm_compute; reflexivity).
  split; [reflexivity|]. pose proof (descomprimir_bien clave_demo eq_refl H1) as [H _].
  destruct (Ed25519.descomprimir clave_demo) as [P|].
  - destruct H as (q & _ & A & _). exists P, q. split; [reflexivity|exact A].
  - destruct (H B (proj1 B_es)).
Defined.
