(* ===== verification/Escalar.v ===== *)
(** The arithmetic modulo the order of the group that signing needs: reduction
    bit by bit and the schoolbook product, in bytes.
    Source: src/platform/shared/bmo-cripto/src/ed25519.rs, [mod escalar]. *)

From S2P Require Import Prelude Primo Campo Curva Sha2 Edwards.

(** The first digit and the rest. *)
Lemma digito r k m : 0 <= r < 256 -> 0 < m -> (r + 256 * k) mod (256 * m) = r + 256 * (k mod m).
Proof.
  intros Hr Hm. symmetry. apply Z.mod_unique with (k / m).
  - left. pose proof (Z.mod_pos_bound k m Hm). lia.
  - pose proof (Z.div_mod k m ltac:(lia)). lia.
Qed.

Lemma pow_8S n : 2 ^ (8 * Z.of_nat (S n)) = 256 * 2 ^ (8 * Z.of_nat n).
Proof. replace (8 * Z.of_nat (S n)) with (8 + 8 * Z.of_nat n) by lia. by rewrite Z.pow_add_r by lia. Qed.

Lemma pow_8_pos n : 0 < 2 ^ (8 * Z.of_nat n).
Proof. apply Z.pow_pos_nonneg; lia. Qed.

Lemma w8_small z : 0 <= z < 256 -> w8 z = z.
Proof. intros. unfold w8. by rewrite Z.mod_small. Qed.

Lemma resta_es a : forall b pr, length a = length b -> Forall is_u8 a -> Forall is_u8 b -> 0 <= pr <= 1 ->
  let r := Ed25519.resta_desde a b pr in
  length r = length a /\ Forall is_u8 r /\ of_le r = (of_le a - of_le b - pr) mod 2 ^ (8 * Z.of_nat (length a)).
Proof.
  induction a as [|x a IH]; intros [|y b] pr Hl Ha Hb Hp; try done.
  - cbn. split_and!; [done|constructor|]. change (2 ^ 0) with 1. by rewrite Z.mod_1_r.
  - injection Hl as Hl. apply Forall_cons in Ha as [Hx Ha]. apply Forall_cons in Hb as [Hy Hb]. unfold is_u8 in Hx, Hy.
    cbn zeta. cbn [Ed25519.resta_desde length of_le]. rewrite pow_8S. change (2 ^ 8) with 256 in *.
    destruct (Z.ltb_spec (x - y - pr) 0).
    + destruct (IH b 1 Hl Ha Hb ltac:(lia)) as (I1 & I2 & I3). rewrite w8_small by lia. cbn [length of_le]. change (2 ^ 8) with 256.
      split_and!; [by f_equal|constructor; [unfold is_u8; lia|done]|]. rewrite I3.
      replace (x + 256 * of_le a - (y + 256 * of_le b) - pr) with ((x - y - pr + 256) + 256 * (of_le a - of_le b - 1)) by lia.
      by rewrite digito by (apply pow_8_pos || lia).
    + destruct (IH b 0 Hl Ha Hb ltac:(lia)) as (I1 & I2 & I3). rewrite w8_small by lia. cbn [length of_le]. change (2 ^ 8) with 256.
      split_and!; [by f_equal|constructor; [unfold is_u8; lia|done]|]. rewrite I3.
      replace (x + 256 * of_le a - (y + 256 * of_le b) - pr) with ((x - y - pr) + 256 * (of_le a - of_le b - 0)) by lia.
      by rewrite digito by (apply pow_8_pos || lia).
Qed.

Lemma byte_doble x c : is_u8 x -> 0 <= c <= 1 -> Z.lor (w8 (Z.shiftl x 1)) c = (2 * x) mod 256 + c /\ Z.land (Z.shiftr x 7) 1 = x / 128.
Proof.
  intros Hx Hc.
  assert (H : forallb (fun x => (Z.lor (w8 (Z.shiftl x 1)) 0 =? (2 * x) mod 256 + 0) && (Z.lor (w8 (Z.shiftl x 1)) 1 =? (2 * x) mod 256 + 1)
      && (Z.land (Z.shiftr x 7) 1 =? x / 128)) (seqZ 0 256) = true) by (vm_compute; reflexivity).
  pose proof (byte_todos _ H x Hx) as [[H0 H1]%andb_prop H2]%andb_prop. apply Z.eqb_eq in H0, H1, H2. split; [|done].
  assert (c = 0 \/ c = 1) as [-> | ->] by lia; done.
Qed.

Lemma dobla_es r : forall c, Forall is_u8 r -> 0 <= c <= 1 ->
  let r' := Ed25519.dobla r c in
  length r' = length r /\ Forall is_u8 r' /\ of_le r' = (2 * of_le r + c) mod 2 ^ (8 * Z.of_nat (length r)).
Proof.
  induction r as [|x r IH]; intros c Hr Hc; cbn zeta.
  - cbn. split_and!; [done|constructor|]. change (2 ^ 0) with 1. by rewrite Z.mod_1_r.
  - apply Forall_cons in Hr as [Hx Hr]. cbn [Ed25519.dobla length of_le]. destruct (byte_doble x c Hx Hc) as [E1 E2]. rewrite E1, E2.
    unfold is_u8 in Hx. destruct (IH (x / 128) Hr ltac:(lia)) as (I1 & I2 & I3). rewrite pow_8S, I3. change (2 ^ 8) with 256 in *.
    split_and!; [by f_equal|constructor; [unfold is_u8; lia|done]|].
    replace (2 * (x + 256 * of_le r) + c) with (((2 * x) mod 256 + c) + 256 * (2 * of_le r + x / 128)) by lia.
    by rewrite digito by (apply pow_8_pos || lia).
Qed.

Lemma mayor_o_igual_desde_es s : forall l, length s = length l -> Forall is_u8 s -> Forall is_u8 l ->
  Ed25519.mayor_o_igual_desde s l = (of_le (rev l) <=? of_le (rev s)).
Proof.
  induction s as [|x s IH]; intros [|y l] Hl Hs Hm; try done. injection Hl as Hl.
  apply Forall_cons in Hs as [Hx Hs]. apply Forall_cons in Hm as [Hy Hm]. cbn [Ed25519.mayor_o_igual_desde].
  rewrite !of_le_rev_cons, Hl. pose proof (of_le_rev_rango s Hs) as Rs. pose proof (of_le_rev_rango l Hm) as Rl. rewrite Hl in Rs.
  set (w := 2 ^ (8 * Z.of_nat (length l))) in *. symmetry. destruct (Z.eqb_spec x y) as [->|Hn]; cbn [negb].
  - rewrite IH by done. destruct (Z.leb_spec (of_le (rev l)) (of_le (rev s))); [apply Z.leb_le|apply Z.leb_gt]; lia.
  - destruct (Z.ltb_spec y x).
    + apply Z.leb_le, Z.lt_le_incl. by apply (mayor_digito w).
    + apply Z.leb_gt. apply (mayor_digito w); [done|done|lia|done].
Qed.

(** A number below the order, in 32 bytes. *)
Definition escalar (r : list Z) (v : Z) : Prop := length r = 32%nat /\ Forall is_u8 r /\ of_le r = v /\ 0 <= v < L_num.

Lemma reducir_bit_es x r v bit : Forall is_u8 x -> (bit / 8 < length x)%nat -> escalar r v ->
  escalar (Ed25519.reducir_bit x r bit) ((2 * v + Z.b2z (Z.testbit (of_le x) (Z.of_nat bit))) mod L_num).
Proof.
  intros Hx Hb (Hl & Hr & Hv & Rv). unfold Ed25519.reducir_bit.
  pose proof (byte_bit x bit Hx Hb) as Eb. unfold X25519.bit in Eb. rewrite Eb. set (b := Z.testbit (of_le x) (Z.of_nat bit)). clearbody b.
  assert (Rb : 0 <= Z.b2z b <= 1) by (by destruct b).
  destruct r as [|r0 r]; [done|]. apply Forall_cons in Hr as [H0 Hr]. cbn in Hl. injection Hl as Hl.
  cbn [Ed25519.dobla]. destruct (byte_doble r0 0 H0 ltac:(lia)) as [E1 E2]. rewrite E1, E2.
  change (((2 * r0) mod 256 + 0 :: ?t) !!! 0%nat) with ((2 * r0) mod 256 + 0).
  change (<[0%nat := ?y]> (?a :: ?t)) with (y :: t).
  assert (E3 : Z.lor ((2 * r0) mod 256 + 0) (Z.b2z b) = (2 * r0) mod 256 + Z.b2z b).
  { destruct (byte_doble r0 (Z.b2z b) H0 Rb) as [E3 _]. rewrite <- E3, Z.add_0_r. reflexivity. }
  rewrite E3. unfold is_u8 in H0. destruct (dobla_es r (r0 / 128) Hr ltac:(lia)) as (I1 & I2 & I3). set (d := Ed25519.dobla r (r0 / 128)) in *. clearbody d.
  cbn [of_le] in Hv. change (2 ^ 8) with 256 in *.
  assert (HL : L_num < 2 ^ 253) by done. pose proof (of_le_range r Hr) as Rr. rewrite Hl in *. change (8 * Z.of_nat 31) with 248 in *.
  rewrite Z.mod_small in I3 by lia.
  assert (Ed : of_le ((2 * r0) mod 256 + Z.b2z b :: d) = 2 * v + Z.b2z b) by (cbn [of_le]; change (2 ^ 8) with 256; lia).
  assert (Hd : Forall is_u8 ((2 * r0) mod 256 + Z.b2z b :: d)) by (constructor; [unfold is_u8; lia|done]).
  assert (Ll : length ((2 * r0) mod 256 + Z.b2z b :: d) = 32%nat) by (cbn; lia).
  set (r' := (2 * r0) mod 256 + Z.b2z b :: d) in *. clearbody r'.
  unfold Ed25519.mayor_o_igual. rewrite mayor_o_igual_desde_es, !rev_involutive, Ed, L_es.
  2:{ rewrite !length_rev, Ll. done. }
  2:{ by apply Forall_rev. }
  2:{ apply Forall_rev, L_octetos. }
  destruct (Z.leb_spec L_num (2 * v + Z.b2z b)).
  - destruct (resta_es r' Ed25519.L 0) as (R1 & R2 & R3); [by rewrite Ll|done|exact L_octetos|lia|].
    rewrite Ed, L_es, Ll in R3. change (8 * Z.of_nat 32) with 256 in R3. rewrite Z.mod_small in R3 by lia.
    split; [by rewrite <- Ll|]. split; [exact R2|]. unfold Ed25519.resta. rewrite R3.
    replace ((2 * v + Z.b2z b) mod L_num) with (2 * v + Z.b2z b - L_num); [split; lia|].
    apply Z.mod_unique with 1; lia.
  - rewrite Z.mod_small by lia. split; [done|]. split; [done|]. split; [done|lia].
Qed.

Lemma bit_de_arriba v k : 0 <= v -> 0 <= k -> v / 2 ^ k = 2 * (v / 2 ^ (k + 1)) + Z.b2z (Z.testbit v k).
Proof.
  intros Hv Hk. rewrite Z.pow_add_r, <- Z.div_div by (try apply Z.pow_pos_nonneg; lia). change (2 ^ 1) with 2.
  rewrite Z.testbit_spec' by done. apply Z.div_mod. done.
Qed.

Lemma reducir_es x : length x = 64%nat -> Forall is_u8 x -> escalar (Ed25519.reducir x) (of_le x mod L_num).
Proof.
  intros Hl Hx. unfold Ed25519.reducir. pose proof (of_le_range x Hx) as Rx. rewrite Hl in Rx. change (8 * Z.of_nat 64) with 512 in Rx.
  assert (G : forall m k, (k + m = 512)%nat ->
    escalar (foldl (Ed25519.reducir_bit x) (replicate 32 0) (rev (seq k m))) ((of_le x / 2 ^ Z.of_nat k) mod L_num)).
  { induction m as [|m IH]; intros k Hk.
    - replace k with 512%nat by lia. change (Z.of_nat 512) with 512. rewrite Z.div_small by lia. cbn [seq rev foldl].
      split; [done|]. split; [apply octetos_dec; vm_compute; reflexivity|]. done.
    - cbn [seq rev]. rewrite foldl_app. specialize (IH (S k) ltac:(lia)).
      pose proof (reducir_bit_es x _ _ k Hx ltac:(rewrite Hl; apply Nat.div_lt_upper_bound; lia) IH) as H.
      rewrite (bit_de_arriba _ (Z.of_nat k)) by lia. replace (Z.of_nat k + 1) with (Z.of_nat (S k)) by lia.
      replace ((2 * (of_le x / 2 ^ Z.of_nat (S k)) + Z.b2z (Z.testbit (of_le x) (Z.of_nat k))) mod L_num)
        with ((2 * ((of_le x / 2 ^ Z.of_nat (S k)) mod L_num) + Z.b2z (Z.testbit (of_le x) (Z.of_nat k))) mod L_num); [exact H|].
      rewrite Z.add_mod, Z.mul_mod_idemp_r, <- Z.add_mod by done. reflexivity. }
  specialize (G 512%nat 0%nat eq_refl). change (2 ^ Z.of_nat 0) with 1 in G. by rewrite Z.div_1_r in G.
Qed.

(** ** The product *)

Lemma of_le_insert l : forall n z, (n < length l)%nat -> of_le (<[n := z]> l) = of_le l + (z - l !!! n) * 2 ^ (8 * Z.of_nat n).
Proof.
  induction l as [|x l IH]; intros n z Hn; [cbn in Hn; lia|]. destruct n as [|n].
  - cbn. lia.
  - change (<[S n := z]> (x :: l)) with (x :: <[n := z]> l). change ((x :: l) !!! S n) with (l !!! n). cbn [of_le].
    rewrite IH by (cbn in Hn; lia). rewrite pow_8S. change (2 ^ 8) with 256. lia.
Qed.

(** Columns of at most [m]. *)
Definition columnas (p : list Z) (m : nat -> Z) : Prop := length p = 64%nat /\ forall n, (n < 64)%nat -> 0 <= p !!! n <= m n.

Lemma columna_mas_es p m n v : columnas p m -> (n < 64)%nat -> 0 <= v -> m n + v < 2 ^ 32 ->
  columnas (Ed25519.columna_mas p n v) (fun i => if decide (i = n) then m n + v else m i) /\
  of_le (Ed25519.columna_mas p n v) = of_le p + v * 2 ^ (8 * Z.of_nat n).
Proof.
  intros [Hl Hp] Hn Hv Hb. unfold Ed25519.columna_mas. pose proof (Hp n Hn). rewrite w32_small by (unfold is_u32; lia). split.
  - split; [by rewrite length_insert|]. intros i Hi. destruct (decide (i = n)) as [->|Hne].
    + rewrite list_lookup_total_insert_eq by lia. lia.
    + rewrite list_lookup_total_insert_ne by done. by apply Hp.
  - rewrite of_le_insert by lia. f_equal. f_equal. lia.
Qed.

Lemma of_le_take_S l k : (k < length l)%nat -> of_le (take (S k) l) = of_le (take k l) + 2 ^ (8 * Z.of_nat k) * (l !!! k).
Proof.
  intros Hk. destruct (lookup_lt_is_Some_2 l k Hk) as [x Hx]. rewrite (take_S_r l k x Hx), of_le_app, length_take.
  rewrite (list_lookup_total_correct _ _ _ Hx). replace (k `min` length l)%nat with k by lia. cbn [of_le]. lia.
Qed.

Lemma byte_de l k : Forall is_u8 l -> (k < length l)%nat -> 0 <= l !!! k <= 255.
Proof.
  intros Hl Hk. destruct (lookup_lt_is_Some_2 l k Hk) as [x Hx]. rewrite (list_lookup_total_correct _ _ _ Hx).
  rewrite Forall_forall in Hl. pose proof (Hl x ltac:(by apply (list_elem_of_lookup_2 _ k))) as H. unfold is_u8 in H. lia.
Qed.

Lemma columnas_mono p m m' : columnas p m -> (forall n, (n < 64)%nat -> m n <= m' n) -> columnas p m'.
Proof. intros [Hl Hp] H. split; [done|]. intros n Hn. specialize (Hp n Hn). specialize (H n Hn). lia. Qed.

(** One row: the digit [i] of [a] by the first [k] digits of [b]. *)
Lemma fila_es a b i k p M : Forall is_u8 a -> length a = 32%nat -> Forall is_u8 b -> length b = 32%nat ->
  (i < 32)%nat -> (k <= 32)%nat -> 0 <= M -> M + 65025 < 2 ^ 32 -> columnas p (fun _ => M) ->
  let p' := foldl (fun p j => Ed25519.columna_mas p (i + j) (w32 (a !!! i * b !!! j))) p (seq 0 k) in
  columnas p' (fun n => if decide (i <= n < i + k)%nat then M + 65025 else M) /\
  of_le p' = of_le p + a !!! i * 2 ^ (8 * Z.of_nat i) * of_le (take k b).
Proof.
  intros Ha La Hb Lb Hi Hk HM HM2 Hp. cbn zeta. induction k as [|k IH].
  - cbn [seq foldl take of_le]. split; [|by rewrite Z.mul_0_r, Z.add_0_r]. apply (columnas_mono _ _ _ Hp). intros n _; cbv beta; case_decide; lia.
  - destruct (IH ltac:(lia)) as [IH1 IH2]. rewrite (seq_S k 0), foldl_app. cbn [foldl Nat.add]. clear IH.
    set (p' := foldl _ p (seq 0 k)) in *. clearbody p'.
    pose proof (byte_de a i Ha ltac:(lia)) as Ra. pose proof (byte_de b k Hb ltac:(lia)) as Rb.
    assert (Rv : 0 <= a !!! i * b !!! k <= 65025) by nia. rewrite w32_small by (unfold is_u32; lia).
    destruct (columna_mas_es p' _ (i + k) (a !!! i * b !!! k) IH1) as [C E]; [lia|lia|case_decide; lia|]. split.
    + apply (columnas_mono _ _ _ C). intros n Hn; cbv beta; repeat case_decide; lia.
    + rewrite E, IH2, of_le_take_S by lia. replace (8 * Z.of_nat (i + k)) with (8 * Z.of_nat i + 8 * Z.of_nat k) by lia.
      rewrite Z.pow_add_r by lia. ring.
Qed.

Lemma filas_es a b m : Forall is_u8 a -> length a = 32%nat -> Forall is_u8 b -> length b = 32%nat -> (m <= 32)%nat ->
  let p := foldl (fun p i => foldl (fun p j => Ed25519.columna_mas p (i + j) (w32 (a !!! i * b !!! j))) p (seq 0 32)) (replicate 64 0) (seq 0 m) in
  columnas p (fun _ => 65025 * Z.of_nat m) /\ of_le p = of_le (take m a) * of_le b.
Proof.
  intros Ha La Hb Lb Hm. cbn zeta. induction m as [|m IH].
  - split; [split; [done|]|done]. intros n Hn. cbn [seq foldl]. rewrite (list_lookup_total_correct _ n 0) by (by apply lookup_replicate_2). lia.
  - destruct (IH ltac:(lia)) as [IH1 IH2]. rewrite (seq_S m 0), foldl_app. cbn [foldl Nat.add]. clear IH.
    set (p := foldl _ (replicate 64 0) (seq 0 m)) in *. clearbody p.
    destruct (fila_es a b m 32 p (65025 * Z.of_nat m) Ha La Hb Lb ltac:(lia) ltac:(lia) ltac:(lia) ltac:(lia) IH1) as [C E]. split.
    + apply (columnas_mono _ _ _ C). intros n Hn; cbv beta; case_decide; lia.
    + rewrite E, IH2, (of_le_take_S a m), (take_ge b 32) by lia. ring.
Qed.

Lemma suma_c_es c k p M : Forall is_u8 c -> length c = 32%nat -> (k <= 32)%nat -> 0 <= M -> M + 255 < 2 ^ 32 -> columnas p (fun _ => M) ->
  let p' := foldl (fun p i => Ed25519.columna_mas p i (c !!! i)) p (seq 0 k) in
  columnas p' (fun n => if decide (n < k)%nat then M + 255 else M) /\ of_le p' = of_le p + of_le (take k c).
Proof.
  intros Hc Lc Hk HM HM2 Hp. cbn zeta. induction k as [|k IH].
  - cbn [seq foldl take of_le]. split; [|by rewrite Z.add_0_r]. apply (columnas_mono _ _ _ Hp). intros n _; cbv beta; case_decide; lia.
  - destruct (IH ltac:(lia)) as [IH1 IH2]. rewrite (seq_S k 0), foldl_app. cbn [foldl Nat.add]. clear IH.
    set (p' := foldl _ p (seq 0 k)) in *. clearbody p'. pose proof (byte_de c k Hc ltac:(lia)) as Rc.
    destruct (columna_mas_es p' _ k (c !!! k) IH1) as [C E]; [lia|lia|case_decide; lia|]. split.
    + apply (columnas_mono _ _ _ C). intros n Hn; cbv beta; repeat case_decide; lia.
    + rewrite E, IH2, (of_le_take_S c k) by lia. ring.
Qed.

(** The columns carried into bytes. *)
Lemma acarreo_es p k M : columnas p (fun _ => M) -> M < 2 ^ 31 -> (k <= 64)%nat ->
  let r := foldl (fun '(out, acarreo) i => let v := w32 (p !!! i + acarreo) in (out ++ [Z.land v 0xFF], Z.shiftr v 8)) ([], 0) (seq 0 k) in
  length r.1 = k /\ Forall is_u8 r.1 /\ 0 <= r.2 < 2 ^ 24 /\ of_le r.1 + 2 ^ (8 * Z.of_nat k) * r.2 = of_le (take k p).
Proof.
  intros [Lp Hp] HM Hk. cbn zeta. induction k as [|k IH]; [by cbn|].
  specialize (IH ltac:(lia)). rewrite (seq_S k 0), foldl_app. cbn [foldl Nat.add].
  destruct (foldl _ ([], 0) (seq 0 k)) as [out ac]. cbn [fst snd] in *. destruct IH as (I1 & I2 & I3 & I4).
  pose proof (Hp k ltac:(lia)) as Rk. rewrite w32_small by (unfold is_u32; lia).
  rewrite (land_ones_mod _ 8 : 0 <= 8 -> Z.land _ 255 = _), Z.shiftr_div_pow2 by done. split_and!.
  - rewrite length_app, I1. cbn. lia.
  - apply Forall_app. split; [done|]. constructor; [unfold is_u8; lia|done].
  - lia.
  - lia.
  - rewrite of_le_app, I1, (of_le_take_S p k), <- I4, pow_8S by lia. cbn [of_le]. change (2 ^ 8) with 256.
    pose proof (Z.div_mod (p !!! k + ac) 256 ltac:(done)) as Dm. set (w := 2 ^ (8 * Z.of_nat k)) in *.
    replace (p !!! k) with (256 * ((p !!! k + ac) / 256) + (p !!! k + ac) mod 256 - ac) at 3 by lia. ring.
Qed.

(** C36: The arithmetic of signing is the arithmetic modulo the order of the
    group: [reducir] is the remainder of any number of 64 bytes, and [muladd]
    is a b + c modulo that order for any three scalars of 32 bytes, without a
    carry lost in the columns of 32 bits; both answer 32 bytes below the order. *)
Theorem escalar_bien x a b c : length x = 64%nat -> Forall is_u8 x ->
  length a = 32%nat -> Forall is_u8 a -> length b = 32%nat -> Forall is_u8 b -> length c = 32%nat -> Forall is_u8 c ->
  Ed25519.reducir x = le 32 (of_le x mod L_num) /\ Ed25519.muladd a b c = le 32 ((of_le a * of_le b + of_le c) mod L_num) /\
  Ed25519.s_valida (Ed25519.muladd a b c) = true.
Proof.
  intros Lx Hx La Ha Lb Hb Lc Hc.
  assert (G : forall r v, escalar r v -> r = le 32 v).
  { intros r v (L & H & <- & _). rewrite <- L. symmetry. by apply le_of_le. }
  split; [apply G; by apply reducir_es|].
  assert (M : escalar (Ed25519.muladd a b c) ((of_le a * of_le b + of_le c) mod L_num)).
  { unfold Ed25519.muladd. destruct (filas_es a b 32 Ha La Hb Lb ltac:(lia)) as [F1 F2].
    set (p := foldl _ (replicate 64 0) (seq 0 32)) in *. clearbody p.
    destruct (suma_c_es c 32 p 2080800 Hc Lc (le_n 32) ltac:(lia) ltac:(lia) F1) as [S1 S2].
    set (p' := foldl _ p (seq 0 32)) in *. clearbody p'.
    assert (C : columnas p' (fun _ => 2081055)) by (apply (columnas_mono _ _ _ S1); intros n Hn; cbv beta; case_decide; lia).
    destruct (acarreo_es p' 64 2081055 C eq_refl (le_n 64)) as (A1 & A2 & A3 & A4).
    destruct (foldl _ ([], 0) (seq 0 64)) as [out ac]. cbn [fst snd] in *.
    rewrite (take_ge p') in A4 by (destruct C; lia). rewrite S2, F2, !take_ge in A4 by lia.
    enough (of_le out = of_le a * of_le b + of_le c) as <- by by apply reducir_es.
    pose proof (of_le_range a Ha) as Ra. pose proof (of_le_range b Hb) as Rb. pose proof (of_le_range c Hc) as Rc. pose proof (of_le_range out A2) as Ro.
    rewrite La in Ra. rewrite Lb in Rb. rewrite Lc in Rc. rewrite A1 in Ro.
    change (8 * Z.of_nat 32) with 256 in *. change (8 * Z.of_nat 64) with 512 in *.
    assert (Hab : of_le a * of_le b <= (2 ^ 256 - 1) * (2 ^ 256 - 1)) by nia. lia. }
  split; [by apply G|]. destruct M as (L & H & E & R). rewrite s_valida_es by done. apply Z.ltb_lt. rewrite E. apply R.
Qed.

Definition demo_a : list Z := 3 :: replicate 30 0 ++ [255].
Definition demo_x : list Z := replicate 64 200.

Lemma escalar_bien_witness : length demo_x = 64%nat /\ length demo_a = 32%nat /\
  Ed25519.muladd demo_a demo_a demo_a = le 32 ((of_le demo_a * of_le demo_a + of_le demo_a) mod L_num).
Proof.
  assert (H1 : Forall is_u8 demo_x) by (apply octetos_dec; vm_compute; reflexivity).
  assert (H2 : Forall is_u8 demo_a) by (apply octetos_dec; vm_compute; reflexivity).
  split; [reflexivity|]. split; [reflexivity|].
  exact (proj1 (proj2 (escalar_bien demo_x demo_a demo_a demo_a eq_refl H1 eq_refl H2 eq_refl H2 eq_refl H2))).
Defined.
