(* ===== verification/Firma.v ===== *)
(** Who a [.bex] is from: the signature gate and the anchor of trust.
    Sources: src/platform/abi/bmo-firma/src/lib.rs,
    src/Ultra_kernel_x86-64/kernel/src/ring0/task/confianza.rs.

    The section [Signature] of a file is [u32 n, u32 algorithm], n entries of 40
    bytes (a section and its digest) and, when it is signed, 64 bytes of
    signature and the 32 of the key that made it. What is signed is the chain
    of digests ([Bex.cadena]). *)

From S2P Require Import Prelude Blake3 Bex Campo Sha2 Edwards.

Module Firma.

(** * bmo-firma *)

Definition CABECERA : Z := 8.
Definition ENTRADA : Z := 40.
Definition BLOQUE_FIRMA : Z := 96.
Definition ALGO_NINGUNO : Z := 0.
Definition ALGO_ED25519 : Z := 1.

Inductive Veredicto :=
| SoloIntegridad
| Firmado (clave : nat)
| NoCuadra
| AutorDesconocido
| AlgoritmoDesconocido (algo : Z)
| SeccionRota.

Definition permite_ejecutar (v : Veredicto) (exige_firma : bool) : bool :=
  match v with
  | Firmado _ => true
  | SoloIntegridad => negb exige_firma
  | _ => false
  end.

Definition u32_en (b : list Z) (i : nat) : option Z :=
  b0 ← b !! i; b1 ← b !! (i + 1)%nat; b2 ← b !! (i + 2)%nat; b3 ← b !! (i + 3)%nat; Some (of_le [b0; b1; b2; b3]).

(** In [u64]. *)
Definition donde_esta_la_firma (seccion : list Z) : option Z :=
  cuantos ← u32_en seccion 0;
  let inicio := CABECERA +w w64 (cuantos * ENTRADA) in
  let fin := inicio +w BLOQUE_FIRMA in
  if Z.of_nat (length seccion) <? fin then None else Some inicio.

Definition examinar (seccion cadena : list Z) (ancla : list (list Z)) : Veredicto :=
  if Z.of_nat (length seccion) <? CABECERA then SeccionRota else
  match u32_en seccion 4 with
  | None => SeccionRota
  | Some algo =>
      if algo =? ALGO_NINGUNO then SoloIntegridad
      else if negb (algo =? ALGO_ED25519) then AlgoritmoDesconocido algo
      else match donde_esta_la_firma seccion with
           | None => SeccionRota
           | Some off =>
               let sig := slice (Z.to_nat off) 64 seccion in
               let pk := slice (Z.to_nat (off + 64)) 32 seccion in
               if negb (Ed25519.verificar pk cadena sig) then NoCuadra
               else match position (fun k => bytes_iguales k pk) ancla with
                    | Some i => Firmado i
                    | None => AutorDesconocido
                    end
           end
  end.

(** * task/confianza.rs *)

Definition CLAVE : nat := 32.
Definition ANCLA : list (list Z) :=
  [[0x8C; 0x64; 0x13; 0x09; 0xFA; 0x1B; 0xC4; 0x9B; 0x77; 0xB9; 0xA2; 0xD8; 0xC5; 0x53; 0x8A; 0x75;
    0xBC; 0x85; 0x3B; 0xF9; 0xE7; 0xAF; 0x36; 0xCB; 0x13; 0xD1; 0x40; 0xF4; 0x08; 0x96; 0x42; 0x1E]].

(** The first eight keys, over the buffer of the caller. *)
Definition claves (dst : list (list Z)) : list (list Z) * nat :=
  let n := if (8 <? length ANCLA)%nat then 8%nat else length ANCLA in
  (take n ANCLA ++ drop n dst, n).
Definition exige_firma : bool := false.

End Firma.
Import Firma.

(** * What the gate promises *)

Section Seccion.
Context (s : list Z) (Hs : Forall is_u8 s) (Hl : Z.of_nat (length s) < 2 ^ 63).

(** The three things the section says, read as they are laid out. *)
Definition cuantos_de : nat := Z.to_nat (of_le (slice 0 4 s)).
Definition algo_de : Z := of_le (slice 4 4 s).
Definition firma_de : list Z := slice (8 + 40 * cuantos_de) 64 s.
Definition clave_de : list Z := slice (8 + 40 * cuantos_de + 64) 32 s.
Definition cabe_la_firma : Prop := (8 + 40 * cuantos_de + 96 <= length s)%nat.

Lemma u32_en_es i : (i + 4 <= length s)%nat -> u32_en s i = Some (of_le (slice i 4 s)).
Proof.
  intros H. unfold u32_en, slice.
  destruct (lookup_lt_is_Some_2 s i ltac:(lia)) as [b0 E0]. destruct (lookup_lt_is_Some_2 s (i + 1) ltac:(lia)) as [b1 E1].
  destruct (lookup_lt_is_Some_2 s (i + 2) ltac:(lia)) as [b2 E2]. destruct (lookup_lt_is_Some_2 s (i + 3) ltac:(lia)) as [b3 E3].
  rewrite E0, E1, E2, E3. cbn [mbind option_bind]. do 2 f_equal.
  rewrite (drop_S s b0 i E0). replace (S i) with (i + 1)%nat by lia. rewrite (drop_S s b1 _ E1).
  replace (S (i + 1)) with (i + 2)%nat by lia. rewrite (drop_S s b2 _ E2).
  replace (S (i + 2)) with (i + 3)%nat by lia. rewrite (drop_S s b3 _ E3). reflexivity.
Qed.

Lemma slice_octetos i n : Forall is_u8 (slice i n s).
Proof. unfold slice. by apply Forall_take, Forall_drop. Qed.

Lemma cuantos_rango : 0 <= of_le (slice 0 4 s) < 2 ^ 32.
Proof.
  pose proof (of_le_range _ (slice_octetos 0 4)) as H. unfold slice in *. rewrite length_take in H.
  assert (2 ^ (8 * Z.of_nat (4 `min` length (drop 0 s))) <= 2 ^ 32) by (apply Z.pow_le_mono_r; [done|]; clear; lia). lia.
Qed.

Lemma donde_esta_es : (8 <= length s)%nat ->
  donde_esta_la_firma s = if decide cabe_la_firma then Some (8 + 40 * Z.of_nat cuantos_de) else None.
Proof using Hs.
  intros H. unfold donde_esta_la_firma. rewrite u32_en_es by lia. cbn [mbind option_bind].
  pose proof cuantos_rango as R. unfold cabe_la_firma, cuantos_de, CABECERA, ENTRADA, BLOQUE_FIRMA.
  set (n := of_le (slice 0 4 s)) in *. rewrite (w64_small (n * 40)), (w64_small (8 + n * 40)), (w64_small (8 + n * 40 + 96)) by (unfold is_u64; lia).
  destruct (Z.ltb_spec (Z.of_nat (length s)) (8 + n * 40 + 96)); case_decide; try lia; [done|]. f_equal. lia.
Qed.

Lemma examinar_es cadena ancla :
  examinar s cadena ancla =
    if decide (8 <= length s)%nat then
      if decide (algo_de = 0) then SoloIntegridad
      else if decide (algo_de = 1) then
        if decide cabe_la_firma then
          if Ed25519.verificar clave_de cadena firma_de then
            match position (fun k => bytes_iguales k clave_de) ancla with Some i => Firmado i | None => AutorDesconocido end
          else NoCuadra
        else SeccionRota
      else AlgoritmoDesconocido algo_de
    else SeccionRota.
Proof using Hs.
  unfold examinar, CABECERA. destruct (Z.ltb_spec (Z.of_nat (length s)) 8); case_decide; try lia; [done|].
  rewrite u32_en_es by lia. fold algo_de. unfold ALGO_NINGUNO, ALGO_ED25519.
  destruct (Z.eqb_spec algo_de 0), (decide (algo_de = 0)); try done.
  destruct (Z.eqb_spec algo_de 1), (decide (algo_de = 1)); try done. cbn [negb].
  rewrite donde_esta_es by done. case_decide as D; [|done].
  replace (Z.to_nat (8 + 40 * Z.of_nat cuantos_de)) with (8 + 40 * cuantos_de)%nat by lia.
  replace (Z.to_nat (8 + 40 * Z.of_nat cuantos_de + 64)) with (8 + 40 * cuantos_de + 64)%nat by lia.
  cbv zeta. fold firma_de clave_de. by destruct (Ed25519.verificar clave_de cadena firma_de).
Qed.

Lemma verificar_sec cadena : cabe_la_firma -> Ed25519.verificar clave_de cadena firma_de = true <-> firma_valida clave_de cadena firma_de.
Proof using Hs.
  intros D. unfold cabe_la_firma in D.
  apply verificar_es; try apply slice_octetos; unfold clave_de, firma_de; rewrite length_slice; lia.
Qed.

(** The first key of the anchor that is the one of the file. *)
Definition es_la_clave (ancla : list (list Z)) (i : nat) : Prop :=
  ancla !! i = Some clave_de /\ forall j, (j < i)%nat -> ancla !! j <> Some clave_de.

Lemma busca_clave ancla :
  match position (fun k => bytes_iguales k clave_de) ancla with
  | Some i => es_la_clave ancla i
  | None => clave_de ∉ ancla
  end.
Proof.
  destruct (position _ ancla) as [i|] eqn:E.
  - apply position_Some in E as (k & E1 & E2 & E3). unfold bytes_iguales in *. rewrite bool_decide_eq_true in E2. subst k.
    split; [done|]. intros j Hj Ej. specialize (E3 j _ Hj Ej). cbn in E3. by rewrite bool_decide_true in E3.
  - rewrite position_None in E. intros [i Hi]%list_elem_of_lookup. specialize (E i _ Hi). unfold bytes_iguales in E.
    by rewrite bool_decide_true in E.
Qed.

(** C37: What the signature gate answers, case by case. [Firmado i] is said
    exactly when the section declares Ed25519 and holds the block, the
    signature is one (over the chain, by the key the file brings) and that key
    is in the anchor, [i] being its first place; a valid signature by a key
    out of the anchor is [AutorDesconocido], so with an empty anchor nobody is
    trusted; no count of hashes, however large, makes the block fall inside a
    section too short for it. When a signature is required, only [Firmado]
    runs; when it is not, a file that declares a signature still needs a good
    one, by a known key. *)
Theorem examinar_bien cadena ancla :
  let v := examinar s cadena ancla in
  let firmada := (8 <= length s)%nat /\ algo_de = ALGO_ED25519 /\ cabe_la_firma in
  (forall i, v = Firmado i <-> firmada /\ firma_valida clave_de cadena firma_de /\ es_la_clave ancla i) /\
  (v = AutorDesconocido <-> firmada /\ firma_valida clave_de cadena firma_de /\ clave_de ∉ ancla) /\
  (v = NoCuadra <-> firmada /\ ~ firma_valida clave_de cadena firma_de) /\
  (v = SoloIntegridad <-> (8 <= length s)%nat /\ algo_de = ALGO_NINGUNO) /\
  (forall a, v = AlgoritmoDesconocido a <-> (8 <= length s)%nat /\ a = algo_de /\ a <> ALGO_NINGUNO /\ a <> ALGO_ED25519) /\
  (v = SeccionRota <-> (length s < 8)%nat \/ algo_de = ALGO_ED25519 /\ ~ cabe_la_firma) /\
  (permite_ejecutar v true = true <-> exists i, v = Firmado i) /\
  (permite_ejecutar v false = true <-> (exists i, v = Firmado i) \/ (8 <= length s)%nat /\ algo_de = ALGO_NINGUNO).
Proof using Hs.
  cbv zeta. rewrite examinar_es. pose proof (busca_clave ancla) as K. unfold ALGO_NINGUNO, ALGO_ED25519.
  assert (U : forall i j, es_la_clave ancla i -> es_la_clave ancla j -> i = j).
  { intros i j [H1 H2] [H3 H4]. destruct (Nat.lt_total i j) as [L|[L|L]]; [by destruct (H4 i L)|done|by destruct (H2 j L)]. }
  assert (N : forall i, es_la_clave ancla i -> clave_de ∈ ancla) by (intros i [H _]; by apply (list_elem_of_lookup_2 _ i)).
  case_decide as D1; [|naive_solver lia].
  assert (D1' : ~ (length s < 8)%nat) by lia.
  case_decide as D2; [naive_solver lia|]. case_decide as D3; [|naive_solver lia]. case_decide as D4; [|naive_solver lia].
  pose proof (verificar_sec cadena D4) as V. destruct (Ed25519.verificar clave_de cadena firma_de); [|naive_solver].
  destruct (position _ ancla) as [k|]; naive_solver.
Qed.
End Seccion.

(** One entry and a signature of zeros by a key of zeros. *)
Definition firma_nula : list Z := le 4 1 ++ le 4 1 ++ replicate 40 7 ++ replicate 96 0.

Lemma examinar_bien_witness : examinar firma_nula [] [replicate 32 0] = NoCuadra /\
  permite_ejecutar (examinar firma_nula [] [replicate 32 0]) false = false.
Proof.
  assert (H : Forall is_u8 firma_nula) by (apply octetos_dec; vm_compute; reflexivity).
  destruct (examinar_bien firma_nula H [] [replicate 32 0]) as (_ & _ & [_ E] & _).
  assert (Z : firma_de firma_nula = replicate 64 0) by (vm_compute; reflexivity).
  rewrite E; [split; reflexivity|]. split; [|rewrite Z; apply firma_de_ceros].
  split; [cbn; lia|]. split; [vm_compute; reflexivity|vm_compute; lia].
Defined.
