(* ===== verification/Carga.v ===== *)
(** What a program declares that it needs, and whether it fits.
    Source: src/platform/shared/bmo-carga-juicio/src/lib.rs.

    The table of requirements is a section of the executable: a header, records
    of 32 bytes and the texts of the reasons. The texts are only printed. *)

From S2P Require Import Prelude.

Module Carga.

Inductive Veredicto := Cabe | NoCabe (faltan : Z) | SinMargen (faltan : Z) | NoDeclara.

Definition admite (v : Veredicto) : bool := match v with Cabe | NoDeclara => true | _ => false end.

Definition cabe (pide libre margen : Z) : Veredicto :=
  if pide =? 0 then NoDeclara
  else if libre <? pide then NoCabe (pide -w libre)
  else
    let queda := libre -w pide in
    if queda <? margen then SinMargen (margen -w queda) else Cabe.

Definition leer (n : nat) (b : list Z) (o : Z) : option Z :=
  if o + Z.of_nat n <=? Z.of_nat (length b) then Some (of_le (slice (Z.to_nat o) n b)) else None.
Definition leer_u16 : list Z -> Z -> option Z := leer 2.
Definition leer_u32 : list Z -> Z -> option Z := leer 4.
Definition leer_u64 : list Z -> Z -> option Z := leer 8.

Definition REQUISITOS_MAGIC : Z := of_le [0x42; 0x52; 0x45; 0x51].
Definition CABECERA_LEN : Z := 16.
Definition REQUISITO_LEN : Z := 32.
Definition CLASE_MEMORIA : Z := 0x0001.
Definition CLASE_MONTON : Z := 0x0008.
Definition UNIDAD_BYTES : Z := 1.
Definition OBLIGATORIO : Z := Z.shiftl 1 0.

Record Requisito := mkRequisito {
  clase : Z; unidad : Z; banderas : Z; cantidad : Z; motivo_off : Z; motivo_len : Z
}.
Definition es_obligatorio (r : Requisito) : bool := negb (Z.land (banderas r) OBLIGATORIO =? 0).

Record Tabla := mkTabla { t_bytes : list Z; cuantos : Z; motivos_off : Z; motivos_len : Z }.

Definition checked_mul (a b : Z) : option Z := if a * b <? 2 ^ 64 then Some (a * b) else None.

Definition abrir (b : list Z) : option Tabla :=
  if Z.of_nat (length b) <? CABECERA_LEN then None else
  magia ← leer_u32 b 0;
  if negb (magia =? REQUISITOS_MAGIC) then None else
  cuantos ← leer_u32 b 4;
  motivos_off ← leer_u32 b 8;
  motivos_len ← leer_u32 b 12;
  n ← checked_mul cuantos REQUISITO_LEN;
  fin_registros ← checked_add CABECERA_LEN n;
  if Z.of_nat (length b) <? fin_registros then None else
  fin_motivos ← checked_add motivos_off motivos_len;
  if (0 <? motivos_len) && ((motivos_off <? fin_registros) || (Z.of_nat (length b) <? fin_motivos)) then None
  else Some (mkTabla b cuantos motivos_off motivos_len).

Definition requisito (t : Tabla) (i : Z) : option Requisito :=
  if cuantos t <=? i then None else
  let e := CABECERA_LEN + i * REQUISITO_LEN in
  c ← leer_u16 (t_bytes t) e;
  u ← leer_u16 (t_bytes t) (e + 2);
  f ← leer_u32 (t_bytes t) (e + 4);
  n ← leer_u64 (t_bytes t) (e + 8);
  mo ← leer_u32 (t_bytes t) (e + 16);
  ml ← leer_u16 (t_bytes t) (e + 20);
  Some (mkRequisito c u f n mo ml).

Definition iter (t : Tabla) : list Requisito := omap (requisito t) (seqZ 0 (cuantos t)).

Definition saturating_add (a b : Z) : Z := Z.min (a + b) (2 ^ 64 - 1).
Definition total_de (t : Tabla) (c : Z) : Z :=
  foldl (fun a r => saturating_add a (cantidad r)) 0 (filter (fun r => clase r = c) (iter t)).

(** What [admit_payload_desde] adds up: the obligatory bytes of memory and heap. *)
Definition cuenta (pide : Z) (r : Requisito) : Z :=
  if negb (es_obligatorio r) || negb (unidad r =? UNIDAD_BYTES) then pide
  else if (clase r =? CLASE_MEMORIA) || (clase r =? CLASE_MONTON) then saturating_add pide (cantidad r)
  else pide.
Definition pide_de (t : Tabla) : Z := foldl cuenta 0 (iter t).

End Carga.
Import Carga.

(** The verdict admits exactly when what is asked and the margin fit, and says
    how much is missing otherwise. *)
Lemma cabe_es pide libre margen : is_u64 pide -> is_u64 libre -> is_u64 margen ->
  cabe pide libre margen =
    (if decide (pide = 0) then NoDeclara else if decide (libre < pide) then NoCabe (pide - libre)
     else if decide (libre < pide + margen) then SinMargen (pide + margen - libre) else Cabe).
Proof.
  intros H1 H2 H3. unfold cabe, is_u64 in *. destruct (Z.eqb_spec pide 0), (decide (pide = 0)); try lia; [done|].
  destruct (Z.ltb_spec libre pide), (decide (libre < pide)); try lia; [f_equal; apply w64_small; unfold is_u64; lia|].
  rewrite (w64_small (libre - pide)) by (unfold is_u64; lia).
  destruct (Z.ltb_spec (libre - pide) margen), (decide (libre < pide + margen)); try lia; [|done].
  f_equal. rewrite w64_small by (unfold is_u64; lia). lia.
Qed.

Lemma admite_es pide libre margen : is_u64 pide -> is_u64 libre -> is_u64 margen ->
  admite (cabe pide libre margen) = true <-> pide = 0 \/ pide + margen <= libre.
Proof. intros. rewrite cabe_es by done. unfold is_u64 in *. repeat case_decide; cbn; intuition (done || lia). Qed.

(** What was opened reads whole: the records are the bytes of the section, 32 by
    32, and none of them is lost on the way. *)
Lemma leer_Some n b o : 0 <= o -> o + Z.of_nat n <= Z.of_nat (length b) -> leer n b o = Some (of_le (slice (Z.to_nat o) n b)).
Proof. intros. unfold leer. by rewrite (proj2 (Z.leb_le _ _)). Qed.

Lemma abrir_ok b t : Forall is_u8 b -> abrir b = Some t ->
  t_bytes t = b /\ 0 <= cuantos t < 2 ^ 32 /\ CABECERA_LEN + cuantos t * REQUISITO_LEN <= Z.of_nat (length b).
Proof.
  intros Hb. unfold abrir, leer_u32. case_if; [done|]. bdestr. unfold CABECERA_LEN, REQUISITO_LEN in *.
  rewrite !leer_Some by lia. cbn [mbind option_bind]. case_if; [done|].
  assert (R : 0 <= of_le (slice (Z.to_nat 4) 4 b) < 2 ^ 32).
  { pose proof (of_le_range (slice (Z.to_nat 4) 4 b) ltac:(unfold slice; by apply Forall_take, Forall_drop)) as R.
    rewrite length_slice in R by lia. exact R. }
  set (n := of_le (slice (Z.to_nat 4) 4 b)) in *. clearbody n.
  unfold checked_mul. case_if; [|done]. cbn [mbind option_bind]. unfold checked_add.
  destruct (decide (16 + n * 32 < 2 ^ 64)); [|lia]. cbn [mbind option_bind].
  case_if; [done|]. case_decide; cbn [mbind option_bind]; [|done]. case_if; [done|]. intros [= <-]. bdestr. cbn [t_bytes cuantos]. split; [done|lia].
Qed.

Lemma requisito_Some t i : CABECERA_LEN + cuantos t * REQUISITO_LEN <= Z.of_nat (length (t_bytes t)) -> 0 <= i < cuantos t ->
  exists r, requisito t i = Some r.
Proof.
  intros H Hi. unfold requisito, leer_u16, leer_u32, leer_u64, CABECERA_LEN, REQUISITO_LEN in *.
  rewrite (proj2 (Z.leb_gt _ _)) by lia. rewrite !leer_Some by lia. cbn [mbind option_bind]. by eexists.
Qed.

Lemma iter_entera b t : Forall is_u8 b -> abrir b = Some t -> Z.of_nat (length (iter t)) = cuantos t.
Proof.
  intros Hb Ht. destruct (abrir_ok b t Hb Ht) as (E & R & L). rewrite <- E in L. unfold iter.
  assert (G : forall l, Forall (fun i => 0 <= i < cuantos t) l -> length (omap (requisito t) l) = length l).
  { induction 1 as [|i l Hi Hl IH]; [done|]. destruct (requisito_Some t i L Hi) as [r Hr]. cbn. rewrite Hr. cbn. by rewrite IH. }
  rewrite G, length_seqZ by (apply Forall_forall; intros i Hi%elem_of_seqZ; lia). lia.
Qed.

Lemma pide_rango t : Forall (fun r => 0 <= cantidad r) (iter t) -> is_u64 (pide_de t).
Proof.
  unfold pide_de. assert (G : forall l a, is_u64 a -> Forall (fun r => 0 <= cantidad r) l -> is_u64 (foldl cuenta a l)).
  { induction l as [|r l IH]; intros a Ha Hl; [done|]. inversion_clear Hl. cbn. apply IH; [|done].
    unfold cuenta, saturating_add, is_u64 in *. repeat case_if; lia. }
  intros H. by apply G; [unfold is_u64; lia|].
Qed.

(** ** What is asked for, without the saturation *)

Definition exigido (r : Requisito) : Prop :=
  es_obligatorio r = true /\ unidad r = UNIDAD_BYTES /\ (clase r = CLASE_MEMORIA \/ clase r = CLASE_MONTON).
#[global] Instance exigido_dec r : Decision (exigido r).
Proof. unfold exigido. apply _. Defined.
Definition suma (l : list Requisito) : Z := foldr (fun r a => cantidad r + a) 0 (filter exigido l).

Lemma cuenta_es a r : cuenta a r = if decide (exigido r) then saturating_add a (cantidad r) else a.
Proof.
  unfold cuenta. case_decide as D; unfold exigido in D; destruct (es_obligatorio r), (Z.eqb_spec (unidad r) UNIDAD_BYTES),
    (Z.eqb_spec (clase r) CLASE_MEMORIA), (Z.eqb_spec (clase r) CLASE_MONTON); cbn [negb orb]; done || (exfalso; intuition congruence).
Qed.

Lemma requisito_cantidad t i r : Forall is_u8 (t_bytes t) -> requisito t i = Some r -> is_u64 (cantidad r).
Proof.
  intros Hb. unfold requisito. case_if; [done|]. set (e := CABECERA_LEN + i * REQUISITO_LEN).
  destruct (leer_u16 (t_bytes t) e); [|done]. cbn [mbind option_bind]. destruct (leer_u16 (t_bytes t) (e + 2)); [|done]. cbn [mbind option_bind].
  destruct (leer_u32 (t_bytes t) (e + 4)); [|done]. cbn [mbind option_bind].
  destruct (leer_u64 (t_bytes t) (e + 8)) as [n|] eqn:En; [|done]. cbn [mbind option_bind].
  destruct (leer_u32 (t_bytes t) (e + 16)); [|done]. cbn [mbind option_bind]. destruct (leer_u16 (t_bytes t) (e + 20)); [|done].
  cbn [mbind option_bind]. intros [= <-]. cbn [cantidad]. unfold leer_u64, leer in En. case_if_in En; [|done]. injection En as <-.
  pose proof (of_le_range (slice (Z.to_nat (e + 8)) 8 (t_bytes t)) ltac:(unfold slice; by apply Forall_take, Forall_drop)) as R.
  assert (length (slice (Z.to_nat (e + 8)) 8 (t_bytes t)) <= 8)%nat by (unfold slice; rewrite length_take; lia).
  assert (2 ^ (8 * Z.of_nat (length (slice (Z.to_nat (e + 8)) 8 (t_bytes t)))) <= 2 ^ 64) by (apply Z.pow_le_mono_r; lia). unfold is_u64. lia.
Qed.

Lemma iter_cantidad t : Forall is_u8 (t_bytes t) -> Forall (fun r => 0 <= cantidad r) (iter t).
Proof.
  intros Hb. unfold iter. rewrite Forall_forall. intros r (i & _ & Hr)%list_elem_of_omap. apply (requisito_cantidad t i r Hb) in Hr. apply Hr.
Qed.

Lemma foldl_cuenta l : forall a, 0 <= a < 2 ^ 64 -> Forall (fun r => 0 <= cantidad r) l -> foldl cuenta a l = Z.min (a + suma l) (2 ^ 64 - 1).
Proof.
  induction l as [|r l IH]; intros a Ha Hl; [cbn; lia|]. apply Forall_cons in Hl as [Hr Hl]. cbn [foldl]. rewrite cuenta_es.
  unfold suma. rewrite filter_cons. assert (Hs : 0 <= suma l).
  { clear - Hl. unfold suma. induction Hl as [|x l Hx Hl IH]; [done|]. rewrite filter_cons. case_decide; cbn [foldr]; lia. }
  case_decide; [|by apply IH]. cbn [foldr]. fold (suma l). unfold saturating_add. rewrite IH by (done || lia). lia.
Qed.

Lemma pide_es t : Forall is_u8 (t_bytes t) -> pide_de t = Z.min (suma (iter t)) (2 ^ 64 - 1).
Proof. intros Hb. unfold pide_de. by rewrite foldl_cuenta by (lia || by apply iter_cantidad). Qed.
