(* ===== verification/Admitir.v ===== *)
(** Admission of a program: from the bytes of a [.bex] to an address space that
    can run.
    Source: src/Ultra_kernel_x86-64/kernel/src/ring0/task/admitir.rs.

    The function is one in the source; here each of its blocks is a definition,
    composed in the same order by [admit_payload_desde].  It runs on the machine
    of [Vmm] (allocator, memory, page tables) and on a source of bytes, the
    class [Origen].  An action answers [None] where the machine would stop;
    [Err] is the [return None] of the code, with the reason that it logs, and
    it leaves what had already been taken as it was.  The fabrication of the
    first context, the entry in the scheduler and the seeds of the capability
    table come after what is modelled here. *)

From stdpp Require Import gmap.
From S2P Require Import Prelude Titular Phys Vmm Blake3 Bex Edwards Firma Carga.

(** * Where the bytes come from *)

(** [traer] follows the sections; [traer_suelto] reads elsewhere without moving
    it.  Both answer the bytes that were copied to the buffer. *)
Class Origen (F : Type) := {
  traer : F -> Z -> Z -> F * list Z;
  traer_suelto : F -> Z -> Z -> F * list Z
}.

(** [Origen::EnMemoria]. *)
Definition traer_de (bytes : list Z) (offset n : Z) : list Z :=
  let fin := Z.min (Bex.saturating_add offset n) (Z.of_nat (length bytes)) in
  if fin <=? offset then [] else slice (Z.to_nat offset) (Z.to_nat (fin - offset)) bytes.
#[global] Instance EnMemoria : Origen (list Z) := {
  traer bytes offset n := (bytes, traer_de bytes offset n);
  traer_suelto bytes offset n := (bytes, traer_de bytes offset n)
}.

(** * Actions *)

Inductive Rechazo :=
| NoEsBex (e : BexError) | SinEspacio | FirmaSinLeer | CadenaRota | FirmaNo (v : Firma.Veredicto)
| NoCabeLoDeclarado (pide libre : Z) | SinContiguos | RelocsSinLeer | RelocsCorruptas | SinMarcos
| SeccionAMedias | RelocMalFormada | RelocDesconocida | RelocSinSeccion | RelocFuera | NoSePudoMapear
| RelocPartidaAlFinal | SeccionCorrupta | RelocsSinAplicar | SinEntrada | SinPilaDeKernel.

(** The statics of the file are the three numbers that [run] shows. *)
Record Mundo (F : Type) := mkMundo {
  vm : vmm_st; fu : F; ULTIMO_DECLARADO : Z; RECHAZO_PIDE : Z; RECHAZO_LIBRE : Z
}.
Arguments mkMundo {F} _ _ _ _ _.
Arguments vm {F} _.
Arguments fu {F} _.
Arguments ULTIMO_DECLARADO {F} _.
Arguments RECHAZO_PIDE {F} _.
Arguments RECHAZO_LIBRE {F} _.

Section Acciones.
Context {F : Type}.
Definition accion (A : Type) : Type := Mundo F -> option (Mundo F * result A Rechazo).
Definition con_vm (w : Mundo F) (s : vmm_st) : Mundo F :=
  mkMundo s (fu w) (ULTIMO_DECLARADO w) (RECHAZO_PIDE w) (RECHAZO_LIBRE w).
Definition con_fu (w : Mundo F) (f : F) : Mundo F :=
  mkMundo (vm w) f (ULTIMO_DECLARADO w) (RECHAZO_PIDE w) (RECHAZO_LIBRE w).
Definition ret {A} (a : A) : accion A := fun w => Some (w, Ok a).
Definition rechaza {A} (r : Rechazo) : accion A := fun w => Some (w, Err r).
Definition bind {A B} (c : accion A) (k : A -> accion B) : accion B :=
  fun w => match c w with
           | None => None
           | Some (w, Err r) => Some (w, Err r)
           | Some (w, Ok a) => k a w
           end.
End Acciones.
Arguments accion F A : clear implicits.
Notation "x <~ c ;; k" := (bind c (fun x => k)) (at level 100, c at next level, right associativity) : bmo_scope.
Notation "c ;;; k" := (bind c (fun _ => k)) (at level 100, right associativity) : bmo_scope.

Section Admitir.
Context {F : Type} `{Origen F} (ticks : Z).

Fixpoint por_cada {A S} (l : list A) (f : S -> A -> accion F S) (s : S) : accion F S :=
  match l with [] => ret s | a :: l => s' <~ f s a;; por_cada l f s' end.

(** [copy_nonoverlapping] to the mirror of physical memory, and a slice of it. *)
Definition copia (m : Z -> Z) (a : Z) (l : list Z) : Z -> Z :=
  fun x => if (a <=? x) && (x <? a + Z.of_nat (length l)) then default 0 (l !! Z.to_nat (x - a)) else m x.
Definition lee (m : Z -> Z) (a n : Z) : list Z := m <$> seqZ a n.
Definition copia_en (a : Z) (l : list Z) : accion F unit :=
  fun w => Some (con_vm w (with_mem (vm w) (copia (mem (vm w)) a l)), Ok tt).

Definition toma_marco : accion F Z := fun w =>
  match alloc_frame (ph (vm w)) with
  | (p, Some f) => Some (con_vm w (with_mem (with_ph (vm w) p) (zero_frame (mem (vm w)) f)), Ok f)
  | (p, None) => Some (con_vm w (with_ph (vm w) p), Err SinMarcos)
  end.
(** A mapping of [vmm] with its error turned into a rejection. *)
Definition mapeo (f : vmm_st -> option (vmm_st * result unit unit)) : accion F unit := fun w =>
  match f (vm w) with
  | None => None
  | Some (s, Ok _) => Some (con_vm w s, Ok tt)
  | Some (s, Err _) => Some (con_vm w s, Err NoSePudoMapear)
  end.

(** * The plan: addresses and order *)

Definition alinea (va align : Z) : Z := Z.land (va +w align -w 1) (not64 (align -w 1)).
Definition paginas_de (s : Seccion) : Z := (mem_size s +w PAGE -w 1) / PAGE.
(** [va_de]: one address per section of the plan. *)
Fixpoint reparto (va : Z) (l : list Seccion) : list Z :=
  match l with
  | [] => []
  | s :: l => let va := alinea va (alignment s) in va :: reparto (va +w w64 (paginas_de s * PAGE)) l
  end.
Definition va_de (plan : BexLoadPlan) : list Z := reparto USER_IMAGE_BASE (sections plan).

Definition seccion_por_codigo_reloc (plan : BexLoadPlan) (cod : Z) : option nat :=
  buscado ← (if cod =? 0 then Some CODE else if cod =? 1 then Some DATA else if cod =? 2 then Some RODATA else None);
  position (fun s => kind s =? buscado) (sections plan).

(** The insertion of one index among those already in order: [rev] of what is
    to its left. *)
Fixpoint inserta (off : nat -> Z) (x : nat) (izq : list nat) : list nat :=
  match izq with
  | [] => [x]
  | y :: izq' => if off x <? off y then y :: inserta off x izq' else x :: izq
  end.
Definition orden (plan : BexLoadPlan) : list nat :=
  let off i := from_option file_offset 0 (sections plan !! i) in
  rev (foldl (fun izq x => inserta off x izq) [] (seq 0 (length (sections plan)))).

(** * The tables at the end of the file *)

Definition MAX_FIRMA : Z := 8 + Z.of_nat MAX_BEX_SECTIONS * 40.
Definition REQUISITOS_MAX : Z := 2048.
Definition MARGEN_DEL_KERNEL : Z := 64 * 1024 * 1024.

Definition trae_suelto (offset n : Z) (r : Rechazo) : accion F (list Z) := fun w =>
  let '(f, l) := traer_suelto (fu w) offset n in
  Some (con_fu w f, if Z.of_nat (length l) =? n then Ok l else Err r).

(** [firmas], with the buffer it borrows. *)
Definition lee_firmas (plan : BexLoadPlan) : accion F (option (list Z * Firmas)) :=
  if (0 <? firma_file_size plan) && (firma_file_size plan <=? MAX_FIRMA) then
    buf <~ trae_suelto (firma_file_offset plan) (firma_file_size plan) FirmaSinLeer;;
    ret ((fun f => (buf, f)) <$> firmas_abrir buf (firma_indice plan))
  else ret None.

(** The gate of authorship; [exige] is the policy. *)
Definition juzga_firma (exige : bool) (firmas : option (list Z * Firmas)) : accion F (option nat) :=
  match firmas with
  | None => ret None
  | Some (buf, f) =>
      let '(ancla, cuantas) := Firma.claves (replicate 8 (replicate 32 0)) in
      match cadena f with
      | None => rechaza CadenaRota
      | Some c =>
          let v := Firma.examinar buf c (take cuantas ancla) in
          if negb (Firma.permite_ejecutar v exige) then rechaza (FirmaNo v)
          else ret (match v with Firma.Firmado i => Some i | _ => None end)
      end
  end.

Definition juzga_requisitos (plan : BexLoadPlan) : accion F unit :=
  if 0 <? requisitos_file_size plan then fun w =>
    let n := Z.min (requisitos_file_size plan) REQUISITOS_MAX in
    let '(f, l) := traer_suelto (fu w) (requisitos_file_offset plan) n in
    let w := con_fu w f in
    match Carga.abrir l with
    | None => Some (w, Ok tt)
    | Some t =>
        let pide := Carga.pide_de t in
        let libre := Z.min (snd (stats (ph (vm w))) * PAGE) (2 ^ 64 - 1) in
        if negb (Carga.admite (Carga.cabe pide libre MARGEN_DEL_KERNEL)) then
          Some (mkMundo (vm w) (fu w) (ULTIMO_DECLARADO w) pide libre, Err (NoCabeLoDeclarado pide libre))
        else Some (mkMundo (vm w) (fu w) pide (RECHAZO_PIDE w) (RECHAZO_LIBRE w), Ok tt)
    end
  else ret tt.

Definition cierra (c : Aterrizaje) (r : Rechazo) : accion F Cierre := fun w =>
  match cerrar c with
  | None => None
  | Some (Ok k) => Some (w, Ok k)
  | Some (Err _) => Some (w, Err r)
  end.
Definition uno_mas (k : Cierre) : Z := match k with Cuadra => 0 | SinFirma => 1 end.

(** The frames lent to the table, its bytes and how many sections had no hash. *)
Definition lee_relocs (plan : BexLoadPlan) (firmas : option (list Z * Firmas)) : accion F (option (Z * Z) * list Z * Z) :=
  if 0 <? cuantas_relocs (relocs_file_size plan) then
    let n := relocs_file_size plan in
    let pags := (n +w PAGE -w 1) / PAGE in
    base <~ (fun w => match alloc_frames_contig (ph (vm w)) pags with
                      | (p, Some b) => Some (con_vm w (with_ph (vm w) p), Ok b)
                      | (p, None) => Some (con_vm w (with_ph (vm w) p), Err SinContiguos) end);;
    l <~ (fun w => let '(f, l) := traer_suelto (fu w) (relocs_file_offset plan) n in
                   let w := con_fu (con_vm w (with_mem (vm w) (copia (mem (vm w)) base l))) f in
                   Some (w, if Z.of_nat (length l) =? n then Ok l else Err RelocsSinLeer));;
    let esperado := f ← snd <$> firmas; i ← relocs_indice plan; digest_de f i in
    k <~ cierra (trozo (at_abrir RELOCS esperado) l) RelocsCorruptas;;
    ret (Some (base, pags), l, uno_mas k)
  else ret (None, [], 0).

(** * A page *)

Record Vuelta := mkVuelta { cierre : Aterrizaje; cola : option (Z * Z); aplicadas : Z }.

(** The bytes of the file that fall in the page, and their hash. *)
Definition baja_trozo (s : Seccion) (frame p : Z) (v : Vuelta) : accion F Vuelta :=
  let chunk := w64 (p * PAGE) in
  if chunk <? file_size s then fun w =>
    let n := Z.min (file_size s -w chunk) PAGE in
    let '(f, l) := traer (fu w) (file_offset s +w chunk) n in
    let m := copia (mem (vm w)) frame l in
    let w := con_fu (con_vm w (with_mem (vm w) m)) f in
    if negb (Z.of_nat (length l) =? n) then Some (w, Err SeccionAMedias)
    else Some (w, Ok (mkVuelta (trozo (cierre v) (lee m frame n)) (cola v) (aplicadas v)))
  else ret v.

(** What was left of a relocation split by the end of the page before. *)
Definition baja_cola (frame : Z) (v : Vuelta) : accion F Vuelta :=
  match cola v with
  | None => ret v
  | Some (valor, ya) => copia_en frame (drop (Z.to_nat ya) (le 8 valor));;; ret (mkVuelta (cierre v) None (aplicadas v))
  end.

Definition aplica_una (plan : BexLoadPlan) (relocs : list Z) (frame pagina_va : Z) (v : Vuelta) (r : Z) : accion F Vuelta :=
  match leer_reloc relocs 0 (relocs_file_size plan) r with
  | None => rechaza RelocMalFormada
  | Some rel =>
      if negb (r_kind rel =? RELOC_SECCION_ABS64) then rechaza RelocDesconocida else
      match seccion_por_codigo_reloc plan (donde_sec rel), seccion_por_codigo_reloc plan (destino_sec rel) with
      | Some i_donde, Some i_destino =>
          match sections plan !! i_donde, va_de plan !! i_donde, va_de plan !! i_destino with
          | Some sec_donde, Some base_donde, Some base_destino =>
              if negb (reloc_cabe (donde_off rel) 8 (file_size sec_donde) (mem_size sec_donde)) then rechaza RelocFuera else
              let donde_va := base_donde +w donde_off rel in
              if (donde_va <? pagina_va) || (pagina_va +w PAGE <=? donde_va) then ret v else
              let valor := w64 (base_destino + destino_off rel) in
              let dentro := donde_va -w pagina_va in
              let caben := PAGE -w dentro in
              copia_en (frame +w dentro) (take (Z.to_nat (Z.min caben 8)) (le 8 valor));;;
              ret (mkVuelta (cierre v) (if caben <? 8 then Some (valor, caben) else cola v) (aplicadas v +w 1))
          | _, _, _ => fun _ => None
          end
      | _, _ => rechaza RelocSinSeccion
      end
  end.

Definition pagina (plan : BexLoadPlan) (relocs : list Z) (aspace : Z) (s : Seccion) (va_start : Z) (permiso : PermisoImagen)
    (v : Vuelta) (p : Z) : accion F Vuelta :=
  frame <~ toma_marco;;
  v <~ baja_trozo s frame p v;;
  let pagina_va := va_start +w w64 (p * PAGE) in
  v <~ baja_cola frame v;;
  v <~ por_cada (seqZ 0 (cuantas_relocs (relocs_file_size plan))) (aplica_una plan relocs frame pagina_va) v;;
  mapeo (fun m => map_page_imagen m aspace pagina_va frame permiso);;;
  ret v.

(** * A section *)

Definition permiso_de (k : Z) : PermisoImagen :=
  if k =? CODE then Codigo else if k =? RODATA then Constantes else Datos.

Record Carga := mkCarga { c_aplicadas : Z; sin_firma : Z; entry_va : Z; code_bytes : Z; code_va : Z; code_len : Z }.

Definition seccion (plan : BexLoadPlan) (firmas : option (list Z * Firmas)) (relocs : list Z) (aspace : Z) (c : Carga) (i : nat)
  : accion F Carga :=
  match sections plan !! i, va_de plan !! i with
  | Some s, Some va_start =>
      let esperado := f ← snd <$> firmas; digest_de f (indice s) in
      v <~ por_cada (seqZ 0 (paginas_de s)) (pagina plan relocs aspace s va_start (permiso_de (kind s)))
             (mkVuelta (at_abrir (kind s) esperado) None (c_aplicadas c));;
      if bool_decide (is_Some (cola v)) then rechaza RelocPartidaAlFinal else
      k <~ cierra (cierre v) SeccionCorrupta;;
      let cb := Z.min (code_bytes c + w32 (mem_size s)) (2 ^ 32 - 1) in
      let sf := sin_firma c +w uno_mas k in
      if kind s =? CODE then ret (mkCarga (aplicadas v) sf (va_start +w p_entry_offset plan) cb va_start (mem_size s))
      else ret (mkCarga (aplicadas v) sf (entry_va c) cb (code_va c) (code_len c))
  | _, _ => fun _ => None
  end.

Definition suelta_relocs (marcos : option (Z * Z)) : accion F unit :=
  match marcos with
  | None => ret tt
  | Some (base, pags) => fun w =>
      Some (con_vm w (with_ph (vm w) (foldl (fun s p => free_frame s (base +w w64 (p * PAGE)) ticks) (ph (vm w)) (seqZ 0 pags))), Ok tt)
  end.

(** * Stack and channels *)

Definition USER_STACK_PAGES : Z := USER_STACK_SIZE / PAGE.
Definition KERNEL_STACK_PAGES : Z := 4.
Definition MAX_CHANNEL_PAGES : Z := 16.

Definition una_pila (aspace : Z) (_ : unit) (p : Z) : accion F unit :=
  frame <~ toma_marco;;
  mapeo (fun m => map_page_propia m aspace (USER_STACK_TOP - (p + 1) * PAGE) frame true true).
Definition un_canal (page_phys : Z -> Z) (aspace : Z) (_ : unit) (i : Z) : accion F unit :=
  mapeo (fun m => map_page m aspace (CHANNEL_VA_BASE + i * PAGE) (page_phys i) true true).
Definition pila_kernel : accion F Z := fun w =>
  match alloc_frames_contig_de (ph (vm w)) KERNEL_STACK_PAGES Pila with
  | (p, Some b) => Some (con_vm w (with_ph (vm w) p), Ok b)
  | (p, None) => Some (con_vm w (with_ph (vm w) p), Err SinPilaDeKernel)
  end.

(** What the task is made of. *)
Record Admitida := mkAdmitida { ad_aspace : Z; ad_carga : Carga; ad_firmante : option nat; kstack_base : Z }.

Definition nuevo_espacio : accion F Z := fun w =>
  match new_address_space (vm w) ticks with
  | None => None
  | Some (s, Some a) => Some (con_vm w s, Ok a)
  | Some (s, None) => Some (con_vm w s, Err SinEspacio)
  end.

Definition admit_payload_desde (page_phys : Z -> Z) (prologo : list Z) (tam_fichero : Z) : accion F Admitida :=
  match inspect prologo tam_fichero with
  | Err e => rechaza (NoEsBex e)
  | Ok plan =>
      aspace <~ nuevo_espacio;;
      firmas <~ lee_firmas plan;;
      firmante <~ juzga_firma Firma.exige_firma firmas;;
      juzga_requisitos plan;;;
      r <~ lee_relocs plan firmas;;
      let '(marcos, relocs, sf) := r in
      c <~ por_cada (orden plan) (seccion plan firmas relocs aspace) (mkCarga 0 sf 0 0 0 0);;
      suelta_relocs marcos;;;
      if negb (c_aplicadas c =? cuantas_relocs (relocs_file_size plan)) then rechaza RelocsSinAplicar else
      if entry_va c =? 0 then rechaza SinEntrada else
      por_cada (seqZ 0 USER_STACK_PAGES) (una_pila aspace) tt;;;
      por_cada (seqZ 0 MAX_CHANNEL_PAGES) (un_canal page_phys aspace) tt;;;
      kstack <~ pila_kernel;;
      ret (mkAdmitida aspace c firmante kstack)
  end.

End Admitir.
