(* ===== verification/Aterrizaje.v ===== *)
(** What the admission of a program does to the machine: the image that lands is
    the one of the file, and nobody else notices.
    Source: src/Ultra_kernel_x86-64/kernel/src/ring0/task/admitir.rs.

    [J] is the invariant of the loader, with respect to the machine [s0] that
    it found: the other spaces and the frames that were in use are as they
    were; [T] are the frames that it holds and [L] the pages of the new space,
    each with its frame, its permission and its bytes; the new space has no page
    of its own but those that [V0] allows. *)

From stdpp Require Import gmap.
From S2P Require Import Prelude Titular Phys Vmm Espacios Blake3 Bex Edwards Firma Carga Admitir.

(** * The machine of the loader *)

Record Pagina := mkPagina { g_va : Z; g_marco : Z; g_perm : bool * bool; g_byte : Z -> Z }.

(** The page is mapped for the user, with its permission (writable, executable)
    and its bytes. *)
Record puesta (s : vmm_st) (q : Z) (g : Pagina) : Prop := {
  pu_va : g_va g mod PAGE = 0 /\ compartida (g_va g) = false;
  pu_destino : forall va, Vmm.pagina va = Vmm.pagina (g_va g) -> destino (mem s) q va = Some (g_marco g + va mod PAGE);
  pu_derechos : exists p, mmu 4 (mem s) q (g_va g) = Some p /\ de_usuario p = true /\
    escribible p = (g_perm g).1 /\ ejecutable p = (g_perm g).2;
  pu_bytes : forall k, 0 <= k < PAGE -> mem s (g_marco g + k) = g_byte g k
}.

(** ** Runs of frames *)

Definition marcos (base n : Z) : list Z := (fun i => base + i * PAGE) <$> seqZ 0 n.

Lemma titular_otro t f q g : titular_ok t -> 0 <= f < MARCOS -> marco g -> g <> f * PAGE ->
  titular_de (marcar t (f * PAGE) q) g = titular_de t g.
Proof.
  intros Ht Hf Mg Hne. rewrite <- (marco_page g Mg).
  assert (Hg : 0 <= g / PAGE < MARCOS) by (destruct Mg; rewrite MARCOS_eq; unfold PAGE, PHYSMAP_SIZE in *; lia).
  rewrite titular_de_marcar by assumption. rewrite decide_False; [done|]. intros E. apply Hne. rewrite E. symmetry. by apply marco_page.
Qed.

Lemma marca_run_otro n : forall t f q g, titular_ok t -> 0 <= f -> f + Z.of_nat n <= MARCOS -> marco g ->
  ~ (f * PAGE <= g < (f + Z.of_nat n) * PAGE) -> titular_de (marca_run t f n q) g = titular_de t g.
Proof.
  induction n as [|n IH]; intros t f q g Ht Hf Hn Mg Hg; [done|]. cbn [marca_run].
  rewrite frame_addr by lia. assert (Ht' : titular_ok (marcar t (f * PAGE) q)) by (apply marcar_ok; [done|unfold PAGE; lia]).
  rewrite IH; [|done|lia|lia|done|unfold PAGE in *; lia]. apply titular_otro; [done|lia|done|]. intros ->. apply Hg. unfold PAGE. lia.
Qed.

Lemma marca_desde_otro n : forall t f i q g, titular_ok t -> 0 <= f -> 0 <= i -> f + i + Z.of_nat n <= MARCOS -> marco g ->
  ~ ((f + i) * PAGE <= g < (f + i + Z.of_nat n) * PAGE) -> titular_de (marca_desde t (f * PAGE) i n q) g = titular_de t g.
Proof.
  induction n as [|n IH]; intros t f i q g Ht Hf Hi Hn Mg Hg; [done|]. cbn [marca_desde].
  assert (E : w64 (f * PAGE + w64 (i * PAGE)) = (f + i) * PAGE).
  { rewrite (frame_addr i) by lia. rewrite <- Z.mul_add_distr_r. apply frame_addr. lia. }
  rewrite E. assert (Ht' : titular_ok (marcar t ((f + i) * PAGE) q)) by (apply marcar_ok; [done|unfold PAGE; lia]).
  rewrite IH; [|done|lia|lia|lia|done|unfold PAGE in *; lia]. apply titular_otro; [done|lia|done|]. intros ->. apply Hg. unfold PAGE. lia.
Qed.

Lemma contig_titular s n p base : phys_ok s -> 0 < n -> alloc_frames_contig s n = (p, Some base) ->
  exists f, base = f * PAGE /\ hueco (bitmap s) f n /\
    (forall g, used (bitmap p) g = ((f <=? g) && (g <? f + n)) || used (bitmap s) g) /\ phys_ok p /\
    forall g, marco g -> ~ (f * PAGE <= g < (f + n) * PAGE) -> titular_de (tit p) g = titular_de (tit s) g.
Proof.
  intros Hp Hn E. pose proof (alloc_frames_contig_cases s n Hp Hn) as R. rewrite E in R. destruct R as (f & -> & Hh & Hu & _ & Hok).
  exists f. split; [done|]. split; [done|]. split; [done|]. split; [done|]. intros g Mg Hg.
  unfold alloc_frames_contig in E. repeat case_if_in E; [done..|].
  pose proof (contig_loop_spec (bitmap s) n (S (Z.to_nat (FRAME_SLOTS * 64))) 0 0 0) as Hl.
  destruct (contig_loop _ _ _ _ _ _) as [st|]; [|done]. injection E as <- Eb. cbn [tit].
  destruct Hl as (S0 & S1 & _).
  { unfold scan_inv. split_and!; try lia; intros; lia. }
  { rewrite Nat2Z.inj_succ, Z2Nat.id by (rewrite FRAME_SLOTS_eq; lia). change (FRAME_SLOTS * 64) with MARCOS. lia. }
  rewrite frame_addr in Eb by lia. assert (st = f) as -> by (unfold PAGE in Eb; lia).
  apply marca_run_otro; [apply Hp|done|rewrite Z2Nat.id by lia; done|done|by rewrite Z2Nat.id by lia].
Qed.

Lemma elem_marcos f base n : f ∈ marcos base n <-> exists i, 0 <= i < n /\ f = base + i * PAGE.
Proof. unfold marcos. rewrite list_elem_of_fmap. setoid_rewrite elem_of_seqZ. split; intros (i & A & B); exists i; split; done || lia. Qed.

Lemma NoDup_marcos base n : NoDup (marcos base n).
Proof. unfold marcos. apply NoDup_fmap_2; [|apply NoDup_seqZ]. intros i j E. unfold PAGE in E. lia. Qed.

Section Invariante.
Context (s0 : vmm_st) (own0 : gmap Z etiqueta).
(** The pages of its own that the new space may have, each with the frames that
    may be behind it. *)
Context (V0 : Z -> Z -> Prop).

Definition ocupado (s : vmm_st) (f : Z) : Prop := used (bitmap (ph s)) (f / PAGE) = true.

Record J (q : Z) (s : vmm_st) (own : gmap Z etiqueta) (T : list Z) (L : list Pagina) : Prop := {
  j_wf : wf s own; j_medios : medios s own; j_own : own0 ⊆ own;
  j_K : KERNEL_PML4 s = KERNEL_PML4 s0; j_nx : nx_disponible s = nx_disponible s0;
  j_q : espacio own q /\ own0 !! q = None;
  j_mmu : forall r va, espacio own0 r -> mmu 4 (mem s) r va = mmu 4 (mem s0) r va;
  j_bytes : forall g a, marco g -> ocupado s0 g -> own0 !! g = None -> g <= a < g + PAGE -> mem s a = mem s0 a;
  j_used : forall g, used (bitmap (ph s0)) g = true -> used (bitmap (ph s)) g = true;
  j_nueva : forall g, own !! g <> None -> own0 !! g = None -> ~ ocupado s0 g;
  j_nodup : NoDup T;
  j_T : forall f, f ∈ T -> marco f /\ ocupado s f /\ own !! f = None /\ ~ ocupado s0 f;
  j_L : Forall (puesta s q) L;
  j_LT : forall g, g ∈ L -> g_marco g ∈ T;
  j_solo : forall va d, compartida va = false -> destino (mem s) q va = Some d -> V0 (Vmm.pagina va) (d - va mod PAGE)
}.

Lemma solo_igual s s' own q : espacio own q -> (forall r va, espacio own r -> mmu 4 (mem s') r va = mmu 4 (mem s) r va) ->
  (forall va d, compartida va = false -> destino (mem s) q va = Some d -> V0 (Vmm.pagina va) (d - va mod PAGE)) ->
  forall va d, compartida va = false -> destino (mem s') q va = Some d -> V0 (Vmm.pagina va) (d - va mod PAGE).
Proof. intros Hq Hm H va d Hc. unfold destino. rewrite Hm by done. by apply H. Qed.


Context (W0 : wf s0 own0).

Lemma j_qK q s own T L : J q s own T L -> q <> KERNEL_PML4 s.
Proof. intros H E. destruct (j_q _ _ _ _ _ H) as [_ N]. rewrite E, (j_K _ _ _ _ _ H), (wf_nucleo _ _ W0) in N. done. Qed.

(** Memory that changes inside frames that are no table changes nothing of the tables. *)
Lemma wf_otra_mem s own m (fs : list Z) : wf s own -> Forall (fun f => own !! f = None /\ marco f) fs -> mem_ok m ->
  (forall a, (forall f, f ∈ fs -> ~ (f <= a < f + PAGE)) -> m a = mem s a) ->
  wf (with_mem s m) own /\ (forall p x i, own !! p = Some x -> ranura i -> palabra m p i = palabra (mem s) p i).
Proof.
  intros W Hfs Hm Hout. rewrite Forall_forall in Hfs.
  assert (P : forall p x i, own !! p = Some x -> ranura i -> palabra m p i = palabra (mem s) p i).
  { intros p x i Hp Hi. apply palabra_ext. intros a Ha. apply Hout. intros f Hf. destruct (Hfs f Hf) as [Nf [Mf _]].
    destruct (wf_marco _ _ W _ _ Hp) as [[Mp _] _]. unfold ranura, PAGE in *. intros Hb. assert (p = f) as -> by lia. congruence. }
  split; [|exact P]. pose proof (wf_nucleo _ _ W) as WK.
  assert (Pk0 : palabra m (Z.land (palabra m (KERNEL_PML4 s) 0) ADDR_MASK) 0 =
    palabra (mem s) (Z.land (palabra (mem s) (KERNEL_PML4 s) 0) ADDR_MASK) 0).
  { rewrite (P _ _ 0 WK) by done. by apply (P _ _ 0 (pd_identidad s own W _ WK)). }
  destruct W. split; cbn [with_mem ph mem KERNEL_PML4]; try assumption.
  - intros p r l pre i Hp Hl Hi. rewrite (P p _ i Hp Hi). by apply wf_hija.
  - intros p r l pre Hp Hl. destruct (wf_enlazada p r l pre Hp Hl) as (t & Ht & E). exists t. split; [done|].
    by rewrite (P t _ (pre mod 512) Ht) by (by apply Z.mod_pos_bound).
  - intros r i Hr Hi. assert (Ri : ranura i) by (unfold ranura; lia). rewrite (P r _ i Hr Ri), (P _ _ i WK Ri). by apply wf_mitad.
  - intros r Hr. assert (R0 : ranura 0) by done. destruct (wf_identidad r Hr) as (A & B & C). cbv zeta in *.
    rewrite (P r _ 0 Hr R0), Pk0. split; [done|]. split; [|done].
    rewrite <- B. assert (X : own !! Z.land (palabra (mem s) r 0) ADDR_MASK = Some (r, 3, 0)).
    { destruct (wf_hija r r 4 0 0 Hr ltac:(lia) R0 A) as [N1 N2]. exact (N2 (N1 eq_refl)). }
    by apply (P _ _ 0 X).
Qed.
Lemma puesta_igual s s' q g : (forall va, Vmm.pagina va = Vmm.pagina (g_va g) -> mmu 4 (mem s') q va = mmu 4 (mem s) q va) ->
  (forall k, 0 <= k < PAGE -> mem s' (g_marco g + k) = mem s (g_marco g + k)) -> puesta s q g -> puesta s' q g.
Proof.
  intros Hm Hb [A B (p & C & D) E]. split; [done| | |].
  - intros va Hva. rewrite <- (B va Hva). unfold destino. by rewrite Hm.
  - exists p. split; [|done]. by rewrite Hm.
  - intros k Hk. by rewrite Hb, E.
Qed.

Lemma marco_lejos f g k : marco f -> marco g -> f <> g -> 0 <= k < PAGE -> ~ (f <= g + k < f + PAGE).
Proof. intros [Hf _] [Hg _] Hne Hk. unfold PAGE in *. lia. Qed.

(** Bytes written in held frames that are not mapped yet. *)
Lemma J_escribe_en q s own T L m fs : J q s own T L -> Forall (fun f => f ∈ T /\ f ∉ g_marco <$> L) fs -> mem_ok m ->
  (forall a, (forall f, f ∈ fs -> ~ (f <= a < f + PAGE)) -> m a = mem s a) -> J q (with_mem s m) own T L.
Proof.
  intros H Hfs Hm Hout. rewrite Forall_forall in Hfs.
  assert (Hfs' : Forall (fun f => own !! f = None /\ marco f) fs).
  { rewrite Forall_forall. intros f Hf. destruct (j_T _ _ _ _ _ H f (proj1 (Hfs f Hf))) as (Mf & _ & Nf & _). done. }
  destruct (wf_otra_mem s own m fs (j_wf _ _ _ _ _ H) Hfs' Hm Hout) as [W P].
  assert (Hmm : forall r va, espacio own r -> mmu 4 m r va = mmu 4 (mem s) r va).
  { intros r va Hr. exact (mmu_igual s own (j_wf _ _ _ _ _ H) m r va Hr P). }
  destruct H. split; cbn [with_mem ph mem KERNEL_PML4 nx_disponible]; try done.
  - intros p r l pre i Hp. cbn [with_mem KERNEL_PML4 mem]. intros Hr Hl Hc Hi. rewrite (P p _ i Hp Hi). by apply (j_medios0 p r l pre i).
  - intros r va Hr. rewrite Hmm by (by apply (lookup_weaken _ _ _ _ Hr)). by apply j_mmu0.
  - intros g a Mg Ug Ng Ha. rewrite <- (j_bytes0 g a Mg Ug Ng Ha). apply Hout. intros f Hf Hb.
    destruct (j_T0 f (proj1 (Hfs f Hf))) as (Mf & _ & _ & N0). assert (f = g) as -> by (destruct Mf, Mg; unfold PAGE in *; lia). done.
  - rewrite Forall_forall in *. intros g Hg. apply (puesta_igual s); [|intros k Hk|by apply j_L0].
    + intros va _. apply Hmm, j_q0.
    + cbn [with_mem mem]. apply Hout. intros f Hf. destruct (Hfs f Hf) as [HfT HfL].
      apply marco_lejos; [by apply j_T0|by apply (j_T0 _ (j_LT0 g Hg))| |done]. intros ->. apply HfL. by apply list_elem_of_fmap_2.
  - exact (solo_igual s (with_mem s m) own q (proj1 j_q0) Hmm j_solo0).
Qed.

Lemma J_escribe q s own T L m f : J q s own T L -> f ∈ T -> f ∉ g_marco <$> L -> mem_ok m ->
  (forall a, ~ (f <= a < f + PAGE) -> m a = mem s a) -> J q (with_mem s m) own T L.
Proof.
  intros H Hf HL Hm Hout. apply (J_escribe_en q s own T L m [f] H); [by repeat constructor|done|].
  intros a Ha. apply Hout, Ha. by left.
Qed.

(** The order of the frames that are held is no matter. *)
Lemma J_perm q s own T T' L : Permutation T T' -> J q s own T L -> J q s own T' L.
Proof.
  intros HP []. split; try done; [by rewrite <- HP|intros f Hf; rewrite <- HP in Hf; by apply j_T0|].
  intros g Hg. rewrite <- HP. by apply j_LT0.
Qed.

(** More frames in use. *)
Lemma J_ph q s own T L p' N : J q s own T L -> phys_ok p' ->
  (forall g, used (bitmap p') g = true <-> used (bitmap (ph s)) g = true \/ exists f, f ∈ N /\ f / PAGE = g) ->
  (forall g, marco g -> own !! g <> None -> titular_de (tit p') g = titular_de (tit (ph s)) g) ->
  NoDup N -> (forall f, f ∈ N -> marco f /\ used (bitmap (ph s)) (f / PAGE) = false) ->
  J q (with_ph s p') own (N ++ T) L.
Proof.
  intros H Hp Hu Ht Hnd HN.
  assert (HT : forall f, f ∈ N -> f ∉ T).
  { intros f H1 H2. destruct (HN f H1) as [_ E]. destruct (j_T _ _ _ _ _ H f H2) as (_ & E' & _). unfold ocupado in E'. congruence. }
  assert (Hmas : forall g, used (bitmap (ph s)) g = true -> used (bitmap p') g = true) by (intros g ?; apply Hu; by left).
  destruct H. split; cbn [with_ph ph mem KERNEL_PML4 nx_disponible]; try done.
  - destruct j_wf0. split; cbn [with_ph ph mem KERNEL_PML4]; try done.
    + by apply Hmas.
    + intros p x Hx. destruct (wf_marco p x Hx) as [? ?]. split; [done|by apply Hmas].
    + intros p r l pre Hx Hr. rewrite Ht; [by apply (wf_titular p r l pre)|by apply (wf_marco p _ Hx)|congruence].
  - intros g Hg. apply Hmas. by apply j_used0.
  - apply NoDup_app. split; [done|]. split; [done|done].
  - intros f [Hf|Hf]%elem_of_app.
    + destruct (HN f Hf) as [Mf Uf]. split; [done|]. split; [apply Hu; right; by exists f|]. split.
      * destruct (own !! f) as [x|] eqn:E; [|done]. apply (wf_marco _ _ j_wf0) in E as [_ E]. congruence.
      * intros Hb. unfold ocupado in Hb. apply j_used0 in Hb. congruence.
    + destruct (j_T0 f Hf) as (A & B & C & D). split; [done|]. split; [by apply Hmas|done].
  - rewrite Forall_forall in *. intros g Hg. apply (puesta_igual s); [done|done|by apply j_L0].
  - intros g Hg. apply elem_of_app. right. by apply j_LT0.
Qed.

Lemma J_toma q s own T L p f : J q s own T L -> alloc_frame (ph s) = (p, Some f) ->
  J q (with_mem (with_ph s p) (zero_frame (mem s) f)) own (f :: T) L /\ f ∉ T /\ marco f /\
  (forall k, 0 <= k < PAGE -> zero_frame (mem s) f (f + k) = 0) /\ mem_ok (zero_frame (mem s) f).
Proof.
  intros H E. destruct (wf_alloc s own p f (j_wf _ _ _ _ _ H) E) as (W & Mf & Uf & Nf & Us & _).
  assert (HfT : f ∉ T).
  { intros Hf. destruct (j_T _ _ _ _ _ H f Hf) as (_ & E' & _). unfold ocupado in E'. congruence. }
  assert (HP : J q (with_ph s p) own ([f] ++ T) L).
  { apply J_ph; [done|apply W| | |by apply NoDup_singleton|by intros g ->%list_elem_of_singleton].
    - intros g. rewrite Us, orb_true_iff, Z.eqb_eq. split; [intros [<-|?]; [right; exists f; split; [by constructor|done]|by left]|].
      intros [?|(h & ->%list_elem_of_singleton & <-)]; [by right|by left].
    - intros g Mg Hg. apply alloc_frame_inv in E as (j & Hj & -> & _ & _ & Ht & _); [|apply (wf_phys _ _ (j_wf _ _ _ _ _ H))].
      rewrite Ht. assert (exists i, g = i * PAGE /\ 0 <= i < MARCOS) as (i & -> & Hi).
      { destruct Mg. exists (g / PAGE). rewrite MARCOS_eq. unfold PAGE, PHYSMAP_SIZE in *. lia. }
      rewrite titular_de_marcar by (exact Hi || exact Hj || apply (wf_phys _ _ (j_wf _ _ _ _ _ H))).
      rewrite decide_False; [done|]. intros ->. congruence. }
  split; [|split; [done|split; [done|split]]].
  - apply (J_escribe q (with_ph s p) own ([f] ++ T) L _ f HP); [by left| |apply zero_frame_ok; apply (j_wf _ _ _ _ _ H)|].
    + intros (g & -> & Hg)%list_elem_of_fmap. by apply HfT, (j_LT _ _ _ _ _ H).
    + intros a Ha. cbn [with_ph mem]. rewrite zero_frame_eq by done. case_if; [|done]. bdestr. lia.
  - intros k Hk. rewrite zero_frame_eq by done. by rewrite (proj2 (Z.leb_le _ _)), (proj2 (Z.ltb_lt _ _)) by lia.
  - apply zero_frame_ok. apply (j_wf _ _ _ _ _ H).
Qed.

(** A run of frames, with or without an owner of its own. *)
Lemma J_contig q s own T L p p' f n : J q s own T L -> 0 < n -> hueco (bitmap (ph s)) f n -> phys_ok p' -> bitmap p' = bitmap p ->
  (forall g, used (bitmap p) g = ((f <=? g) && (g <? f + n)) || used (bitmap (ph s)) g) ->
  (forall g, marco g -> ~ (f * PAGE <= g < (f + n) * PAGE) -> titular_de (tit p') g = titular_de (tit (ph s)) g) ->
  J q (with_ph s p') own (marcos (f * PAGE) n ++ T) L.
Proof.
  intros H Hn (F0 & F1 & Fr) Hp Eb Hu Ht.
  assert (N0 : f <> 0) by (intros ->; specialize (Fr 0 ltac:(lia)); pose proof (wf_cero _ _ (j_wf _ _ _ _ _ H)); congruence).
  assert (Pg : forall i, (f * PAGE + i * PAGE) / PAGE = f + i) by (intros i; rewrite <- Z.mul_add_distr_r; by apply Z.div_mul).
  apply J_ph; [done|done| | |apply NoDup_marcos|].
  - intros g. rewrite Eb, Hu, orb_true_iff, andb_true_iff, Z.leb_le, Z.ltb_lt. split.
    + intros [Hg|?]; [|by left]. right. exists (f * PAGE + (g - f) * PAGE). split; [apply elem_marcos; exists (g - f); lia|]. rewrite Pg. lia.
    + intros [?|(h & (i & Hi & ->)%elem_marcos & <-)]; [by right|]. left. rewrite Pg. lia.
  - intros g Mg Hg. apply Ht; [done|]. intros Hb. destruct (own !! g) as [x|] eqn:E; [|done].
    apply (wf_marco _ _ (j_wf _ _ _ _ _ H)) in E as [_ E]. rewrite Fr in E; [done|]. destruct Mg. unfold PAGE in *. lia.
  - intros g (i & Hi & ->)%elem_marcos. split; [|rewrite Pg; apply Fr; lia]. rewrite MARCOS_eq in F1.
    split; [rewrite <- Z.mul_add_distr_r; by apply Z.mod_mul|]. unfold PAGE, PHYSMAP_SIZE. lia.
Qed.

Lemma J_contig_simple q s own T L p base n : J q s own T L -> 0 < n -> alloc_frames_contig (ph s) n = (p, Some base) ->
  J q (with_ph s p) own (marcos base n ++ T) L.
Proof.
  intros H Hn E. destruct (contig_titular (ph s) n p base (wf_phys _ _ (j_wf _ _ _ _ _ H)) Hn E) as (f & -> & Hh & Hu & Hok & Ht).
  by apply (J_contig q s own T L p p f n).
Qed.

Lemma J_contig_de q s own T L p base n x : J q s own T L -> 0 < n -> alloc_frames_contig_de (ph s) n x = (p, Some base) ->
  J q (with_ph s p) own (marcos base n ++ T) L.
Proof.
  intros H Hn E. unfold alloc_frames_contig_de in E. destruct (alloc_frames_contig (ph s) n) as [p1 [b|]] eqn:E1; [|done].
  injection E as <- <-. destruct (contig_titular (ph s) n p1 b (wf_phys _ _ (j_wf _ _ _ _ _ H)) Hn E1) as (f & -> & Hh & Hu & Hok & Ht).
  pose proof Hh as (F0 & F1 & _). apply (J_contig q s own T L p1 _ f n); try done.
  - destruct Hok. split; cbn [with_tit bitmap free_frames tit]; [done|done|]. by apply marca_desde_ok.
  - intros g Mg Hg. cbn [with_tit tit]. rewrite marca_desde_otro; [by apply Ht|apply Hok|done|done|rewrite Z2Nat.id by lia; lia|done|].
    rewrite Z2Nat.id by lia. by rewrite Z.add_0_r.
Qed.

(** ** Mapping a page *)

(** A frame that is nobody's table stays so, whatever its use. *)
Lemma no_tabla q s own T L g : J q s own T L -> ocupado s0 g -> own0 !! g = None -> own !! g = None.
Proof.
  intros H Hu H0. destruct (own !! g) eqn:E; [|done]. destruct (j_nueva _ _ _ _ _ H g); [congruence|done|done].
Qed.

Lemma J_crece q s own T L s1 own1 : J q s own T L -> conserva (mid_de true) s own s1 own1 ->
  J q s1 own1 T L /\ forall f k, f ∈ T -> 0 <= k < PAGE -> mem s1 (f + k) = mem s (f + k).
Proof.
  intros H C. pose proof H as H'. destruct (co_resto _ _ _ _ _ C) as (R1 & R2 & R3 & R4).
  assert (Fuera : forall g, ocupado s g -> own !! g = None -> own1 !! g = None).
  { intros g Ug Ng. destruct (own1 !! g) eqn:E; [|done]. unfold ocupado in Ug. rewrite (co_fresca _ _ _ _ _ C g) in Ug; [done|congruence|done]. }
  assert (Bytes : forall f k, f ∈ T -> 0 <= k < PAGE -> mem s1 (f + k) = mem s (f + k)).
  { intros f k Hf Hk. destruct (j_T _ _ _ _ _ H f Hf) as (Mf & Uf & Nf & _).
    apply (co_bytes _ _ _ _ _ C f); [done|by apply Fuera|lia]. }
  split; [|exact Bytes]. destruct H. split; try done.
  - apply C.
  - exact (crece_medios s own s1 own1 C j_medios0).
  - etrans; [done|apply C].
  - congruence.
  - congruence.
  - split; [apply (co_espacio _ _ _ _ _ C), j_q0|apply j_q0].
  - intros r va Hr. rewrite (co_mmu _ _ _ _ _ C) by (by apply (lookup_weaken _ _ _ _ Hr)). by apply j_mmu0.
  - intros g a Mg Ug Ng Ha. rewrite <- (j_bytes0 g a Mg Ug Ng Ha). apply (co_bytes _ _ _ _ _ C g); [done| |done].
    apply Fuera; [by apply j_used0|]. by apply (no_tabla q s own T L).
  - intros g Hg. apply (co_used _ _ _ _ _ C). left. by apply j_used0.
  - intros g Hg Ng. destruct (own !! g) eqn:E; [apply j_nueva0; [congruence|done]|].
    intros Hb. apply j_used0 in Hb. rewrite (co_fresca _ _ _ _ _ C g Hg E) in Hb. done.
  - intros f Hf. destruct (j_T0 f Hf) as (A & B & D & E). split; [done|]. split; [apply (co_used _ _ _ _ _ C); by left|].
    split; [by apply Fuera|done].
  - rewrite Forall_forall in *. intros g Hg. apply (puesta_igual s); [|intros k Hk|by apply j_L0].
    + intros va _. apply (co_mmu _ _ _ _ _ C), j_q0.
    + apply Bytes; [by apply j_LT0|done].
  - exact (solo_igual s s1 own q (proj1 j_q0) (co_mmu _ _ _ _ _ C) j_solo0).
Qed.

Lemma J_hoja q s own T L t va e b : J q s own T L -> own !! t = Some (q, 1, pref 1 va) -> is_u64 e ->
  Forall (fun g => Vmm.pagina (g_va g) <> Vmm.pagina va) L ->
  let s' := con_olvido b va (with_mem s (escribe (mem s) t (idx 1 va) e)) in
  (forall va' d, Vmm.pagina va' = Vmm.pagina va -> destino (mem s') q va' = Some d -> V0 (Vmm.pagina va') (d - va' mod PAGE)) ->
  J q s' own T L /\ forall f k, f ∈ T -> 0 <= k < PAGE -> mem s' (f + k) = mem s (f + k).
Proof.
  intros H Ht He HL s' HV. pose proof H as H'. pose proof (idx_range 1 va) as Ri. pose proof (j_wf _ _ _ _ _ H) as W.
  pose proof (proj1 (wf_marco _ _ W _ _ Ht)) as Mt. assert (Em : mem s' = escribe (mem s) t (idx 1 va) e) by (by destruct b).
  assert (Ep : ph s' = ph s) by (by destruct b). assert (Fuera : forall g a, marco g -> own !! g = None -> g <= a < g + PAGE -> mem s' a = mem s a).
  { intros g a Mg Ng Ha. rewrite Em. apply escribe_fuera. unfold ranura in Ri. intros Hb.
    assert (g = t) as -> by (destruct Mg, Mt; unfold PAGE in *; lia). congruence. }
  assert (Bytes : forall f k, f ∈ T -> 0 <= k < PAGE -> mem s' (f + k) = mem s (f + k)).
  { intros f k Hf Hk. destruct (j_T _ _ _ _ _ H f Hf) as (Mf & _ & Nf & _). apply (Fuera f); [done|done|lia]. }
  assert (Mmu : forall r va', espacio own r -> (r = q -> Vmm.pagina va' <> Vmm.pagina va) -> mmu 4 (mem s') r va' = mmu 4 (mem s) r va').
  { intros r va' Hr Hn. rewrite Em. apply (hoja_mmu s own W t q (pref 1 va) (idx 1 va) Ht Ri e r va' Hr).
    unfold dueno. cbn [Z.ltb Z.compare Pos.compare Pos.compare_cont andb]. intros Heq.
    destruct (_ || _); injection Heq as E1 E2 E3; [by apply (j_qK _ _ _ _ _ H)|]. apply Hn; [done|]. by apply pagina_niveles. }
  split; [|exact Bytes]. destruct H.
  assert (EK : KERNEL_PML4 s' = KERNEL_PML4 s) by (by destruct b). assert (En : nx_disponible s' = nx_disponible s) by (by destruct b).
  split; try done.
  - exact (esc_wf s own W t q (pref 1 va) (idx 1 va) Ht Ri e He b va).
  - exact (esc_medios s own W t q (pref 1 va) (idx 1 va) Ht Ri e He b va j_medios0).
  - congruence.
  - congruence.
  - intros r va' Hr. rewrite Mmu; [by apply j_mmu0|by apply (lookup_weaken _ _ _ _ Hr)|]. intros ->. destruct j_q0 as [_ N].
    unfold espacio in Hr. congruence.
  - intros g a Mg Ug Ng Ha. rewrite <- (j_bytes0 g a Mg Ug Ng Ha). apply (Fuera g); [done| |done]. by apply (no_tabla q s own T L).
  - intros g Hg. rewrite Ep. by apply j_used0.
  - intros f Hf. unfold ocupado. rewrite Ep. by apply j_T0.
  - rewrite Forall_forall in *. intros g Hg. apply (puesta_igual s); [|intros k Hk|by apply j_L0].
    + intros va' Hva. apply Mmu; [apply j_q0|]. intros _. rewrite Hva. by apply HL.
    + apply Bytes; [by apply j_LT0|done].
  - intros va' d Hc Hd. destruct (decide (Vmm.pagina va' = Vmm.pagina va)) as [E|E]; [by apply HV|].
    apply j_solo0; [done|]. unfold destino in *. by rewrite <- Mmu by (apply j_q0 || done).
Qed.

Definition permiso_real (w x : bool) : bool * bool := (w, negb (negb x && nx_disponible s0)).

(** A frame of the loader mapped: or the rest is as it was, or it also is. *)
Lemma J_map q s own T L va pa w x c n : J q s own T L -> compartida va = false -> 0 <= pa ->
  V0 (Vmm.pagina va) (Z.land pa ADDR_MASK) ->
  Forall (fun g => Vmm.pagina (g_va g) <> Vmm.pagina va) L ->
  exists s' r own', map_page_tipo s q va pa true w x c n = Some (s', r) /\ J q s' own' T L /\
    (forall f k, f ∈ T -> 0 <= k < PAGE -> mem s' (f + k) = mem s (f + k)) /\
    (r = Ok tt -> pa ∈ T -> va mod PAGE = 0 /\ puesta s' q (mkPagina va pa (permiso_real w x) (fun k => mem s (pa + k)))).
Proof.
  intros H Hc H0 HV HL. pose proof (j_wf _ _ _ _ _ H) as W. destruct (j_q _ _ _ _ _ H) as [Hq _].
  destruct (decide (va mod PAGE = 0 /\ pa mod PAGE = 0)) as [[Hva Hpa]|Hal].
  2:{ exists s, (Err tt), own. split; [|done].
      unfold map_page_tipo. destruct (Z.eqb_spec (va mod PAGE) 0), (Z.eqb_spec (pa mod PAGE) 0); cbn [negb orb]; tauto. }
  destruct (map_forma s own q va pa true w x c n W Hq Hva Hpa) as
    [(s1 & o1 & t3 & t2 & t1 & E & C & _ & _ & _ & L1 & _)|(s1 & o1 & E & C & _)]; rewrite E.
  2:{ exists s1, (Err tt), o1. destruct (J_crece q s own T L s1 o1 H C) as [H1 B1]. done. }
  rewrite dueno_1, Hc in L1. destruct (J_crece q s own T L s1 o1 H C) as [H1 B1].
  set (e := hoja_de s pa true w x c n) in *. set (b := tiene _ _) in *.
  destruct (map_spec s own q va pa true w x c n W Hq H0) as (s' & r & own' & E' & _ & _ & _ & _ & R).
  rewrite E in E'. injection E' as <- <-. destruct R as (_ & _ & Hd & (e4 & e3 & e2 & Hm) & _). fold e in Hm, Hd.
  destruct (J_hoja q s1 o1 T L t1 va e b H1 L1) as [H2 B2]; [by apply hoja_u64|done| |].
  { intros va' d Hva'. rewrite Hd by done. rewrite !bool_decide_eq_true_2 by done. cbn [andb orb]. intros [= <-].
    rewrite Hva'. replace (_ + _ - _) with (Z.land pa ADDR_MASK) by lia. exact HV. }
  set (s2 := con_olvido b va _) in *. exists s2, (Ok tt), o1. split; [done|]. split; [done|].
  assert (B : forall f k, f ∈ T -> 0 <= k < PAGE -> mem s2 (f + k) = mem s (f + k)) by (intros f k Hf Hk; by rewrite B2, B1).
  split; [done|]. intros _ HT. split; [done|].
  pose proof (proj1 (j_T _ _ _ _ _ H pa HT)) as Mpa. split; cbn [g_va g_marco g_perm g_byte].
  - done.
  - intros va' Hva'. rewrite Hd by done. rewrite !bool_decide_eq_true_2 by done. cbn [andb orb]. by rewrite mask_marco.
  - destruct (derechos s2 o1 q va _ (j_wf _ _ _ _ _ H2) (j_medios _ _ _ _ _ H2) (proj1 (j_q _ _ _ _ _ H2)) (j_qK _ _ _ _ _ H2) Hc Hm)
      as (? & ? & ? & e' & t' & Ee & _ & _ & _ & U & Wr & X). injection Ee as <- <- <- <-.
    destruct (hoja_campos s pa true w x c n Hpa) as (_ & F2 & F3 & _ & F5 & _). fold e in F2, F3, F5.
    eexists. split; [exact Hm|]. rewrite U, Wr, X, F2, F3, F5, (j_nx _ _ _ _ _ H). done.
  - intros k Hk. by rewrite B.
Qed.

(** ** The start, and giving frames back *)

Lemma J_suelta q s own T L f ticks : J q s own (f :: T) L -> f ∉ g_marco <$> L -> J q (with_ph s (free_frame (ph s) f ticks)) own T L.
Proof.
  intros H Hf. destruct (j_T _ _ _ _ _ H f ltac:(by left)) as (Mf & Uf & Nf & N0).
  destruct (free_data s own f ticks (j_wf _ _ _ _ _ H) Mf Nf Uf) as (W & Us & _ & Ht).
  destruct H. apply NoDup_cons in j_nodup0 as [Hn Hnd].
  assert (Mas : forall g, g <> f -> marco g -> ocupado s g -> ocupado (with_ph s (free_frame (ph s) f ticks)) g).
  { intros g Hne Mg Ug. unfold ocupado in *. cbn [with_ph ph]. rewrite Us, Ug, (proj2 (Z.eqb_neq _ _)); [done|].
    intros E. apply Hne. rewrite <- (marco_page g Mg), <- (marco_page f Mf). congruence. }
  split; cbn [with_ph ph mem KERNEL_PML4 nx_disponible]; try done.
  - intros g Hg. rewrite Us, (j_used0 g Hg), (proj2 (Z.eqb_neq _ _)); [done|]. intros <-. by apply N0.
  - intros g Hg. destruct (j_T0 g ltac:(by right)) as (A & B & C & D). split; [done|]. split; [|done].
    apply Mas; [|done|done]. intros ->. done.
  - rewrite Forall_forall in *. intros g Hg. apply (puesta_igual s); [done|done|by apply j_L0].
  - intros g Hg. specialize (j_LT0 g Hg). apply elem_of_cons in j_LT0 as [E|HT]; [|done].
    destruct Hf. rewrite <- E. by apply list_elem_of_fmap_2.
Qed.

Lemma mfor_inv {S} (P : S -> Prop) (f : S -> Z -> option S) l : forall s s', P s ->
  (forall s i s', i ∈ l -> P s -> f s i = Some s' -> P s') -> mfor f l s = Some s' -> P s'.
Proof.
  induction l as [|i l IH]; intros s s' Hs Hf; cbn [mfor]; [by intros [= <-]|].
  destruct (f s i) as [s1|] eqn:E; [|done]. cbn [mbind option_bind]. apply IH.
  - apply (Hf s i); [by left|done|done].
  - intros s2 j s3 Hj. apply Hf. by right.
Qed.

(** A new space only writes in frames that were free. *)
Lemma nuevo_bytes s own ticks s' r g a : wf s own -> new_address_space s ticks = Some (s', r) ->
  marco g -> ocupado s g -> g <= a < g + PAGE -> mem s' a = mem s a.
Proof.
  intros Ws E Mg Ug Ha. revert E. pose proof (wf_phys _ _ Ws) as Hp. unfold new_address_space.
  destruct (alloc_frame_de (ph s) Tabla) as [p [q|]] eqn:E1; [|by intros [= <- <-]].
  destruct (alloc_tabla _ _ _ Hp (wf_cero _ _ Ws) E1) as (Mq & Uq & Hp1 & _ & U1 & _).
  assert (H0 : used (bitmap p) 0 = true) by (rewrite U1, (wf_cero _ _ Ws); apply orb_true_r).
  destruct (alloc_frame_de p Tabla) as [p2 [d|]] eqn:E2; [|by intros [= <- <-]].
  destruct (alloc_tabla _ _ _ Hp1 H0 E2) as (Md & Ud & _). rewrite U1 in Ud. apply orb_false_iff in Ud as [_ Ud].
  assert (Fuera : forall t, marco t -> used (bitmap (ph s)) (t / PAGE) = false -> ~ (t <= a < t + PAGE)).
  { intros t Mt Ut Hb. assert (g = t) as -> by (destruct Mt, Mg; unfold PAGE in *; lia). unfold ocupado in Ug. congruence. }
  pose proof (Fuera q Mq Uq) as Hq. pose proof (Fuera d Md Ud) as Hd.
  set (s1 := with_mem _ _). set (K := KERNEL_PML4 s1). intros E.
  assert (W : forall t i e u u', t = q \/ t = d -> ranura i -> pon_casilla u t i e = Some u' -> mem u' a = mem u a).
  { intros t i e u u' Ht Hi Eu. unfold pon_casilla in Eu. case_if_in Eu; [|done]. injection Eu as <-. cbn [with_mem mem].
    apply escribe_fuera. unfold ranura, PAGE in *. destruct Ht as [->| ->]; lia. }
  assert (R0 : ranura 0) by (unfold ranura; lia).
  destruct (mfor (copia_casilla K q) (seqZ 256 256) s1) as [s2|] eqn:F1; [|done]. cbn [mbind option_bind] in E.
  destruct (pon_casilla s2 q 0 _) as [s3|] eqn:F2; [|done]. cbn [mbind option_bind] in E.
  destruct (casilla s3 K 0) as [k0|] eqn:F3; [|done]. cbn [mbind option_bind] in E.
  destruct (copia_casilla _ d s3 0) as [s4|] eqn:F4; [|done]. cbn [mbind option_bind] in E. injection E as <- <-.
  unfold copia_casilla in F4. destruct (casilla s3 (Z.land k0 ADDR_MASK) 0) as [e|] eqn:F5; [|done]. cbn [mbind option_bind] in F4.
  rewrite (W d 0 e s3 s4 (or_intror eq_refl) R0 F4), (W q 0 _ s2 s3 (or_introl eq_refl) R0 F2).
  assert (F6 : mem s2 a = mem s1 a).
  { apply (mfor_inv (fun u => mem u a = mem s1 a) (copia_casilla K q) (seqZ 256 256) s1 s2); [done| |done].
    intros u i u' Hi Hu Eu. unfold copia_casilla in Eu. destruct (casilla u K i) as [e'|]; [|done]. cbn [mbind option_bind] in Eu.
    rewrite <- Hu. apply (W q i e' u u'); [by left|apply elem_of_seqZ in Hi; unfold ranura; lia|done]. }
  rewrite F6. unfold s1. cbn [with_mem mem]. rewrite !zero_frame_eq by done.
  destruct (Z.leb_spec d a), (Z.ltb_spec a (d + PAGE)), (Z.leb_spec q a), (Z.ltb_spec a (q + PAGE)); cbn [andb]; done || lia.
Qed.

(** What the rest of the machine keeps. *)
Record intacto (s : vmm_st) : Prop := {
  in_wf : exists own, wf s own /\ own0 ⊆ own;
  in_K : KERNEL_PML4 s = KERNEL_PML4 s0;
  in_mmu : forall r va, espacio own0 r -> mmu 4 (mem s) r va = mmu 4 (mem s0) r va;
  in_bytes : forall g a, marco g -> ocupado s0 g -> own0 !! g = None -> g <= a < g + PAGE -> mem s a = mem s0 a;
  in_used : forall g, used (bitmap (ph s0)) g = true -> used (bitmap (ph s)) g = true
}.

Lemma J_intacto q s own T L : J q s own T L -> intacto s.
Proof. intros []. split; try done. by exists own. Qed.

Lemma J_nuevo ticks s' q : medios s0 own0 -> new_address_space s0 ticks = Some (s', Some q) -> exists own, J q s' own [] [].
Proof.
  intros M E. destruct (new_address_space_spec s0 own0 ticks W0) as (s2 & r & E' & (EK & _ & En & _) & _ & R). rewrite E in E'. injection E' as <- <-.
  destruct R as (d & W & Nq & Nd & Hne & Mq & Md & Uq & Ud & Us & _ & P & Dn & _ & Pq & Pd & Pq2).
  set (own := <[q:=(q, 4, 0)]> (<[d:=(q, 3, 0)]> own0)) in *. exists own.
  assert (Sub : own0 ⊆ own) by (etrans; [by apply insert_subseteq|apply insert_subseteq; by rewrite lookup_insert_ne]).
  assert (Caso : forall p x, own !! p = Some x -> p = q /\ x = (q, 4, 0) \/ p = d /\ x = (q, 3, 0) \/ own0 !! p = Some x).
  { intros p x. unfold own. rewrite !lookup_insert_Some. intros [[-> ->]|[? [[-> ->]|[? ?]]]]; tauto. }
  split; try done.
  - intros p r l pre i Hp Hr Hl Hc Hi Hx. rewrite EK in Hr. destruct (Caso p _ Hp) as [[-> Hpe]|[[-> Hpe]|H0]].
    + injection Hpe as -> -> ->. destruct (decide (i = 0)) as [->|Hn].
      * rewrite Pq. unfold mid_de, PTE_HUGE, PTE_WRITABLE, PTE_USER. rewrite !tiene_or by (done || lia). repeat (split; [done|]).
        unfold PTE_NX. rewrite tiene_bit, Z.lor_spec, Z.land_spec, mask_bit by done. by rewrite andb_false_r.
      * unfold comparte in Hc. apply orb_false_iff in Hc as [Hc _]. cbn [Z.eqb Pos.eqb andb] in Hc. apply Z.leb_gt in Hc.
        unfold ranura in Hi. rewrite Pq2 in Hx by lia. done.
    + injection Hpe as -> -> ->. destruct (decide (i = 0)) as [->|Hn]; [by cbn in Hc|].
      unfold ranura in Hi. rewrite Pd in Hx by lia. done.
    + rewrite (P p _ i H0 Hi) in *. by apply (M p r l pre i).
  - by split; [apply lookup_insert_eq|].
  - intros r va Hr. exact (mmu_igual s0 own0 W0 (mem s') r va Hr P).
  - intros g a Mg Ug _ Ha. exact (nuevo_bytes s0 own0 ticks s' (Some q) g a W0 E Mg Ug Ha).
  - intros g Hg. rewrite Us, Hg. by rewrite !orb_true_r.
  - intros g Hg N0. destruct (own !! g) as [x|] eqn:Eg; [|done]. unfold ocupado. destruct (Caso g x Eg) as [[-> _]|[[-> _]|?]]; congruence.
  - apply NoDup_nil_2.
  - intros f Hf. by apply not_elem_of_nil in Hf.
  - intros g Hg. by apply not_elem_of_nil in Hg.
  - intros va d' Hc. by rewrite Dn, Hc.
Qed.

Lemma sin_sitio_intacto ticks s' : new_address_space s0 ticks = Some (s', None) -> intacto s'.
Proof.
  intros E. destruct (new_address_space_spec s0 own0 ticks W0) as (s2 & r & E' & (EK & _) & _ & R). rewrite E in E'. injection E' as <- <-.
  destruct R as (W & _ & Us & P). split; try done.
  - by exists own0.
  - intros r va Hr. apply (mmu_igual s0 own0 W0 (mem s') r va Hr). intros p x i Hp. apply P. congruence.
  - intros g a Mg Ug _ Ha. exact (nuevo_bytes s0 own0 ticks s' None g a W0 E Mg Ug Ha).
  - intros g Hg. by rewrite Us.
Qed.

End Invariante.
