(* ===== verification/Reparto.v ===== *)
(** The plan of the loader: where each section goes and in which order they are
    brought.
    Source: src/Ultra_kernel_x86-64/kernel/src/ring0/task/admitir.rs, 254-287 and
    584-599.

    [fin_reparto] is the end of the image without wrap-around: while it stays
    under the stack, the addresses that the code computes in 64 bits are the
    intended ones. *)

From stdpp Require Import sorting.
From S2P Require Import Prelude Titular Phys Vmm Bex Admitir.

(** * Addresses *)

Definition pags (s : Seccion) : Z := (mem_size s + PAGE - 1) / PAGE.
Definition sube (va a : Z) : Z := (va + a - 1) / a * a.
Fixpoint fin_reparto (va : Z) (l : list Seccion) : Z :=
  match l with [] => va | s :: l => fin_reparto (sube va (alignment s) + pags s * PAGE) l end.

(** What the gate leaves of a section. *)
Definition colocable (s : Seccion) : Prop := is_u64 (mem_size s) /\ exists k, 0 <= k < 16 /\ alignment s = 2 ^ k.

Lemma limpia_bajos z k : is_u64 z -> 0 <= k < 64 -> Z.land z (not64 (2 ^ k - 1)) = z / 2 ^ k * 2 ^ k.
Proof.
  intros Hz Hk. rewrite <- Z.shiftl_mul_pow2, <- Z.shiftr_div_pow2 by lia. apply Z.bits_inj'. intros i Hi.
  rewrite Z.land_spec, testbit_not64, Z.shiftl_spec by lia. replace (2 ^ k - 1) with (Z.ones k) by (rewrite Z.ones_equiv; lia).
  destruct (Z.ltb_spec i k).
  - rewrite Z.ones_spec_low, (Z.testbit_neg_r _ (i - k)) by lia. rewrite (proj2 (Z.ltb_lt i 64)) by lia. by rewrite andb_false_r.
  - rewrite Z.ones_spec_high, Z.shiftr_spec by lia. replace (i - k + k) with i by lia.
    destruct (Z.ltb_spec i 64); [by rewrite andb_true_r|]. rewrite (testbit_above z 64 i) by (done || lia). done.
Qed.

Lemma potencia k : 0 <= k < 16 -> exists q r, 0 < q /\ 0 < r /\ PAGE * r = 2 ^ k * q /\ (q = 1 \/ r = 1) /\ 2 ^ k <= 2 ^ 15.
Proof.
  intros Hk. assert (P : 0 < 2 ^ k <= 2 ^ 15) by (split; [apply Z.pow_pos_nonneg; lia|apply Z.pow_le_mono_r; lia]).
  destruct (Z.le_gt_cases k 12).
  - exists (2 ^ (12 - k)), 1. rewrite <- Z.pow_add_r by lia. replace (k + (12 - k)) with 12 by lia.
    split; [apply Z.pow_pos_nonneg; lia|]. split; [done|]. split; [done|]. split; [by right|lia].
  - exists 1, (2 ^ (k - 12)). unfold PAGE. change 4096 with (2 ^ 12). rewrite <- Z.pow_add_r by lia.
    replace (12 + (k - 12)) with k by lia. split; [done|]. split; [apply Z.pow_pos_nonneg; lia|]. split; [lia|]. split; [by left|lia].
Qed.

(** The next multiple: it does not go back, stays page-aligned and loses less
    than the alignment. *)
Lemma sube_es va a k : a = 2 ^ k -> 0 <= k < 16 -> 0 <= va -> va mod PAGE = 0 ->
  va <= sube va a < va + 2 ^ 15 /\ sube va a mod PAGE = 0 /\ sube va a mod a = 0.
Proof.
  intros -> Hk H0 Hva. destruct (potencia k Hk) as (q & r & Hq & Hr & E & D & Hb).
  assert (P : 0 < 2 ^ k) by (apply Z.pow_pos_nonneg; lia). unfold sube. set (a := 2 ^ k) in *. clearbody a.
  pose proof (Z.div_mod (va + a - 1) a ltac:(lia)) as Dm. pose proof (Z.mod_pos_bound (va + a - 1) a P) as Bm.
  set (d := (va + a - 1) / a) in *. clearbody d. set (m := (va + a - 1) mod a) in *. clearbody m.
  split; [lia|]. split; [|apply Z.mod_mul; lia].
  destruct D as [-> | ->].
  - replace (d * a) with (d * r * PAGE) by lia. by apply Z.mod_mul.
  - apply Z.mod_divide in Hva as [x Hx]; [|done]. rewrite Z.mul_1_r in E. assert (Ex : va = (x * q) * a) by lia.
    assert (d = x * q) as -> by nia. rewrite <- Ex. rewrite Hx. by apply Z.mod_mul.
Qed.

Lemma alinea_es va a k : a = 2 ^ k -> 0 <= k < 16 -> 0 <= va < 2 ^ 63 -> alinea va a = sube va a.
Proof.
  intros -> Hk Hva. assert (P : 0 < 2 ^ k <= 2 ^ 15) by (split; [apply Z.pow_pos_nonneg; lia|apply Z.pow_le_mono_r; lia]).
  unfold alinea, sube. rewrite (w64_small (va + 2 ^ k)), (w64_small (2 ^ k - 1)), (w64_small (va + 2 ^ k - 1)) by (unfold is_u64; lia).
  apply limpia_bajos; unfold is_u64; lia.
Qed.

Lemma pags_pos s : 0 <= mem_size s -> 0 <= pags s /\ mem_size s <= pags s * PAGE < mem_size s + PAGE.
Proof. intros. unfold pags, PAGE. lia. Qed.

Lemma fin_crece l : forall va, 0 <= va -> va mod PAGE = 0 -> Forall colocable l -> va <= fin_reparto va l.
Proof.
  induction l as [|s l IH]; intros va H0 Hva Hl; cbn [fin_reparto]; [done|]. apply Forall_cons in Hl as [(Hm & k & Hk & Ha) Hl].
  destruct (sube_es va _ k Ha Hk H0 Hva) as (B & M & _). destruct (pags_pos s ltac:(apply Hm)) as [P _].
  assert (Q : 0 <= pags s * PAGE) by (apply Z.mul_nonneg_nonneg; [done|by unfold PAGE]).
  etrans; [|apply IH; [lia| |done]]; [lia|]. rewrite Z.add_mod, M, Z.mod_mul by done. done.
Qed.

(** The addresses of the code, section by section. *)
Lemma reparto_es l : forall va, 0 <= va -> va mod PAGE = 0 -> Forall colocable l -> fin_reparto va l < 2 ^ 63 ->
  length (reparto va l) = length l /\
  forall i s v, l !! i = Some s -> reparto va l !! i = Some v ->
    va <= v /\ v mod PAGE = 0 /\ v mod alignment s = 0 /\ paginas_de s = pags s /\ v + pags s * PAGE <= fin_reparto va l /\
    forall j s' v', (i < j)%nat -> l !! j = Some s' -> reparto va l !! j = Some v' -> v + pags s * PAGE <= v'.
Proof.
  induction l as [|s l IH]; intros va H0 Hva Hl Hf; [done|]. cbn [reparto fin_reparto length] in *.
  apply Forall_cons in Hl as [(Hm & k & Hk & Ha) Hl]. destruct (sube_es va _ k Ha Hk H0 Hva) as (B & M & M').
  destruct (pags_pos s ltac:(apply Hm)) as [P Pb]. assert (Q : 0 <= pags s * PAGE) by (apply Z.mul_nonneg_nonneg; [done|by unfold PAGE]).
  assert (Mn : (sube va (alignment s) + pags s * PAGE) mod PAGE = 0) by (rewrite Z.add_mod, M, Z.mod_mul by done; done).
  assert (V0 : 0 <= sube va (alignment s) + pags s * PAGE) by (clear - H0 B Q; lia).
  pose proof (fin_crece l _ V0 Mn Hl) as Hc.
  rewrite (alinea_es va _ k Ha Hk) by (clear - H0 B Q Hc Hf; lia).
  assert (Hb : mem_size s < 2 ^ 63) by (clear - Pb B Hc Hf H0; lia).
  assert (Ep : paginas_de s = pags s).
  { clear - Hm Hb. unfold paginas_de, pags, is_u64 in *. rewrite (w64_small (mem_size s + PAGE)) by (unfold is_u64, PAGE; lia).
    rewrite w64_small by (unfold is_u64, PAGE; lia). done. }
  rewrite Ep, (w64_small (pags s * PAGE)), (w64_small (sube va (alignment s) + pags s * PAGE)) by (unfold is_u64; clear - H0 B Q Hc Hf; lia).
  destruct (IH (sube va (alignment s) + pags s * PAGE)) as [L R]; [done|done|done|done|]. split; [by rewrite L|].
  intros [|i] s' v; cbn [lookup list_lookup].
  - intros [= <-] [= <-]. split; [apply B|]. repeat (split; [done|]). intros [|j] s' v' Hj; [clear - Hj; lia|].
    intros Hs Hv. by apply (R j s' v').
  - intros Hs Hv. destruct (R i s' v Hs Hv) as (R1 & R2 & R3 & R4 & R5 & R6). split; [clear - R1 B Q; lia|]. repeat (split; [done|]).
    intros [|j] s2 v2 Hj; [clear - Hj; lia|]. intros Hs2 Hv2. apply (R6 j s2 v2); [clear - Hj; lia|done|done].
Qed.

(** ** Sections by the code of a relocation *)

Lemma codigo_reloc_es plan c i : seccion_por_codigo_reloc plan c = Some i -> exists s, sections plan !! i = Some s /\
  (c = 0 /\ kind s = CODE \/ c = 1 /\ kind s = DATA \/ c = 2 /\ kind s = RODATA).
Proof.
  unfold seccion_por_codigo_reloc. repeat case_if; cbn [mbind option_bind]; try done; bdestr;
    intros (s & Hs & Hk & _)%position_Some; exists s; (split; [done|]); apply Z.eqb_eq in Hk; tauto.
Qed.

(** * The order in which the sections are asked for *)

Section Orden.
Context (off : nat -> Z).

(** Before in the file; at the same offset, before in the table. *)
Definition antes (i j : nat) : Prop := off i < off j \/ off i = off j /\ (i < j)%nat.

Lemma inserta_perm x l : Permutation (inserta off x l) (x :: l).
Proof. induction l as [|y l IH]; cbn [inserta]; [done|]. case_if; [|done]. rewrite IH. apply Permutation_swap. Qed.

Lemma inserta_orden x l : Forall (fun y => (y < x)%nat) l -> StronglySorted (fun i j => antes j i) l ->
  StronglySorted (fun i j => antes j i) (inserta off x l).
Proof.
  intros Hx. induction 1 as [|y l Hs IH Hy]; cbn [inserta]; [by repeat constructor|]. apply Forall_cons in Hx as [Hyx Hx].
  case_if; bdestr.
  - constructor; [by apply IH|]. rewrite inserta_perm. constructor; [by left|done].
  - constructor; [by constructor|]. assert (antes y x) by (unfold antes; destruct (Z.eq_dec (off y) (off x)); [right|left]; lia).
    constructor; [done|]. eapply Forall_impl; [exact Hy|]. unfold antes in *. intros z Hz. lia.
Qed.

Lemma ordena_es n : Permutation (foldl (fun izq x => inserta off x izq) [] (seq 0 n)) (seq 0 n) /\
  StronglySorted (fun i j => antes j i) (foldl (fun izq x => inserta off x izq) [] (seq 0 n)).
Proof.
  induction n as [|n [P S]]; [split; constructor|]. rewrite seq_S, foldl_app. cbn [foldl Nat.add]. split.
  - rewrite inserta_perm, P, Permutation_app_comm. done.
  - apply inserta_orden; [|done]. rewrite P. apply Forall_seq. lia.
Qed.
End Orden.

Lemma StronglySorted_rev {A} (R : A -> A -> Prop) l : StronglySorted (fun i j => R j i) l -> StronglySorted R (rev l).
Proof.
  induction 1 as [|x l Hs IH Hx]; cbn [rev]; [constructor|]. apply StronglySorted_app_2; [|exact IH|by repeat constructor].
  intros a b Ha Hb. rewrite list_elem_of_In, <- in_rev, <- list_elem_of_In in Ha. rewrite Forall_forall in Hx. apply list_elem_of_singleton in Hb as ->. by apply Hx.
Qed.

Definition off_de (plan : BexLoadPlan) (i : nat) : Z := from_option file_offset 0 (sections plan !! i).

Lemma orden_perm plan : Permutation (orden plan) (seq 0 (length (sections plan))).
Proof. unfold orden. etrans; [symmetry; apply Permutation_rev|apply (ordena_es (off_de plan))]. Qed.

(** The two tables of the plan. While the image, counted without
    wrap-around, ends below 2^63, each section gets an address from the base of
    user images up, a multiple of the page and of its own alignment, the
    addresses follow the order of the table and the pages of no two sections
    overlap. The order in which they are then brought is all of them, once each,
    by their place in the file, and in the order of the table when two start at
    the same one. *)
Theorem reparto_bien plan : Forall colocable (sections plan) -> fin_reparto USER_IMAGE_BASE (sections plan) < 2 ^ 63 ->
  length (va_de plan) = length (sections plan) /\
  (forall i s v, sections plan !! i = Some s -> va_de plan !! i = Some v ->
    USER_IMAGE_BASE <= v /\ v mod PAGE = 0 /\ v mod alignment s = 0 /\ mem_size s <= paginas_de s * PAGE /\
    v + paginas_de s * PAGE <= fin_reparto USER_IMAGE_BASE (sections plan) /\
    forall j s' v', (i < j)%nat -> sections plan !! j = Some s' -> va_de plan !! j = Some v' -> v + paginas_de s * PAGE <= v') /\
  Permutation (orden plan) (seq 0 (length (sections plan))) /\ StronglySorted (antes (off_de plan)) (orden plan).
Proof.
  intros Hc Hf. destruct (reparto_es (sections plan) USER_IMAGE_BASE ltac:(done) ltac:(done) Hc Hf) as [L R].
  split; [done|]. split; [|split; [apply orden_perm|apply StronglySorted_rev, ordena_es]].
  intros i s v Hs Hv. destruct (R i s v Hs Hv) as (A & B & C & D & E & G). rewrite D. repeat (split; [done|]). split; [|done].
  apply pags_pos, (Forall_lookup_1 _ _ _ _ Hc Hs).
Qed.

Definition plan_demo : BexLoadPlan :=
  mkPlan 0 [mkSeccion 0 RODATA 0 5000 10 10 8; mkSeccion 1 CODE 4 100 4900 4900 8192; mkSeccion 2 BSS 0 0 0 1 8] 0 0 0 None 0 0 0 0 None.

Lemma reparto_bien_witness : va_de plan_demo = [0x40000000; 0x40002000; 0x40004000] /\ orden plan_demo = [2; 1; 0]%nat /\
  length (va_de plan_demo) = 3%nat.
Proof.
  split; [vm_compute; reflexivity|]. split; [vm_compute; reflexivity|].
  apply (reparto_bien plan_demo); [|vm_compute; reflexivity].
  repeat constructor; unfold is_u64; cbn [mem_size alignment plan_demo]; try lia; [exists 3|exists 13|exists 3]; split; done || lia.
Defined.
