(* ===== verification/Imagen.v ===== *)
(** A page and a section of the image: what the loader leaves in them.
    Source: src/Ultra_kernel_x86-64/kernel/src/ring0/task/admitir.rs, 601-884.

    [cumple] is total correctness of an action: from [P] it ends in [Q], or with
    a rejection in [E]; it never stops the machine. The bytes come from a source
    that is faithful to a file ([fiel]). *)

From stdpp Require Import gmap.
From S2P Require Import Prelude Titular Phys Vmm Espacios Blake3 Bex Edwards Firma Carga Admitir Aterrizaje Reparto.

(** * Total correctness *)

Definition cumple {F A} (P : Mundo F -> Prop) (c : accion F A) (Q : A -> Mundo F -> Prop) (E : Mundo F -> Prop) : Prop :=
  forall w, P w -> match c w with None => False | Some (w', Ok a) => Q a w' | Some (w', Err _) => E w' end.

Section Reglas.
Context {F : Type} (E : Mundo F -> Prop).

Lemma cumple_ret {A} (a : A) (P : Mundo F -> Prop) Q : (forall w, P w -> Q a w) -> cumple P (ret a) Q E.
Proof. intros H w Hw. by apply H. Qed.
Lemma cumple_rechaza {A} r P (Q : A -> Mundo F -> Prop) : (forall w, P w -> E w) -> cumple P (rechaza r) Q E.
Proof. intros H w Hw. by apply H. Qed.
Lemma cumple_bind {A B} (c : accion F A) (k : A -> accion F B) P Q R :
  cumple P c Q E -> (forall a, cumple (Q a) (k a) R E) -> cumple P (c' <~ c;; k c') R E.
Proof.
  intros Hc Hk w Hw. specialize (Hc w Hw). unfold bind. destruct (c w) as [[w' [a|r]]|]; [|done|done]. by apply Hk.
Qed.
Lemma cumple_pre {A} (P P' : Mundo F -> Prop) (c : accion F A) Q : (forall w, P w -> P' w) -> cumple P' c Q E -> cumple P c Q E.
Proof. intros H Hc w Hw. by apply Hc, H. Qed.
Lemma cumple_post {A} P (c : accion F A) (Q Q' : A -> Mundo F -> Prop) : (forall a w, Q a w -> Q' a w) -> cumple P c Q E -> cumple P c Q' E.
Proof. intros H Hc w Hw. specialize (Hc w Hw). destruct (c w) as [[w' [a|r]]|]; [by apply H|done|done]. Qed.
Lemma cumple_ex {A X} (P : X -> Mundo F -> Prop) (c : accion F A) Q : (forall x, cumple (P x) c Q E) -> cumple (fun w => exists x, P x w) c Q E.
Proof. intros H w [x Hx]. by apply (H x). Qed.
Lemma cumple_puro {A} (G : Prop) P (c : accion F A) Q : (G -> cumple P c Q E) -> cumple (fun w => G /\ P w) c Q E.
Proof. intros H w [Hg Hw]. by apply H. Qed.

(** The loop: [I] knows what has been done. *)
Lemma cumple_por_cada {A S} (I : list A -> S -> Mundo F -> Prop) (f : S -> A -> accion F S) l s :
  (forall hecho a resto s, l = hecho ++ a :: resto -> cumple (I hecho s) (f s a) (fun s' => I (hecho ++ [a]) s') E) ->
  cumple (I [] s) (por_cada l f s) (fun s' => I l s') E.
Proof.
  intros H. cut (forall resto hecho s, l = hecho ++ resto -> cumple (I hecho s) (por_cada resto f s) (fun s' => I l s') E).
  { intros G. by apply (G l []). }
  induction resto as [|a resto IH]; intros hecho s1 El; cbn [por_cada].
  - apply cumple_ret. intros w. by rewrite El, app_nil_r.
  - eapply cumple_bind; [by apply (H hecho a resto)|]. intros s2. apply IH. by rewrite El, <- app_assoc.
Qed.
End Reglas.

(** * Sources of bytes *)

(** The documented contract of [traer] and [traer_suelto]: what they copy is the
    file from that offset on, and perhaps less than was asked for. *)
Record fiel {F} `{Origen F} (img : list Z) (Inv : F -> Prop) : Prop := {
  fiel_traer f o n : Inv f -> 0 <= o -> 0 <= n ->
    Inv (fst (traer f o n)) /\ exists m, Z.of_nat m <= n /\ snd (traer f o n) = slice (Z.to_nat o) m img;
  fiel_suelto f o n : Inv f -> 0 <= o -> 0 <= n ->
    Inv (fst (traer_suelto f o n)) /\ exists m, Z.of_nat m <= n /\ snd (traer_suelto f o n) = slice (Z.to_nat o) m img
}.

(** A memory image keeps it, and never gives less than there is. *)
Lemma traer_de_es img o n : 0 <= o -> 0 <= n -> o + n < 2 ^ 64 -> traer_de img o n = slice (Z.to_nat o) (Z.to_nat n) img.
Proof.
  intros Ho Hn Hw. unfold traer_de, Bex.saturating_add. rewrite (Z.min_l (o + n)) by lia. case_if; bdestr; unfold slice.
  - destruct (Z.eq_dec n 0) as [->|]; [done|]. rewrite drop_ge by lia. by rewrite take_nil.
  - destruct (Z.le_gt_cases (o + n) (Z.of_nat (length img))).
    + rewrite Z.min_l by lia. by replace (o + n - o) with n by lia.
    + rewrite Z.min_r by lia. rewrite !take_ge by (rewrite length_drop; lia). done.
Qed.
Lemma traer_de_fiel img o n : 0 <= o -> 0 <= n -> exists m, Z.of_nat m <= n /\ traer_de img o n = slice (Z.to_nat o) m img.
Proof.
  intros Ho Hn. unfold traer_de, Bex.saturating_add. case_if; [by exists 0%nat|]. bdestr.
  eexists. split; [|done]. rewrite Z2Nat.id by lia. lia.
Qed.
Lemma memoria_fiel img : fiel img (fun l => l = img).
Proof.
  split; intros f o n -> Ho Hn; (split; [done|]); by apply traer_de_fiel.
Qed.

Lemma slice_u8 (img : list Z) o n : Forall is_u8 img -> Forall is_u8 (slice o n img).
Proof. intros H. unfold slice. by apply Forall_take, Forall_drop. Qed.
(** What was read whole is what the file has there. *)
Lemma slice_entera {A} (img : list A) o m n : (m <= n)%nat -> length (slice o m img) = n ->
  slice o m img = slice o n img /\ (n = 0%nat \/ o + n <= length img)%nat.
Proof.
  unfold slice. rewrite length_take, length_drop. intros Hm Hl. assert (m = n) as -> by lia. split; [done|lia].
Qed.

(** * The memory that is copied *)

Lemma copia_fuera m a l x : ~ (a <= x < a + Z.of_nat (length l)) -> copia m a l x = m x.
Proof. intros H. unfold copia. case_if; [bdestr; lia|done]. Qed.
Lemma copia_dentro m a l k : 0 <= k < Z.of_nat (length l) -> Some (copia m a l (a + k)) = l !! Z.to_nat k.
Proof.
  intros H. unfold copia. rewrite (proj2 (Z.leb_le _ _)), (proj2 (Z.ltb_lt _ _)) by lia. cbn [andb].
  replace (a + k - a) with k by lia. destruct (lookup_lt_is_Some_2 l (Z.to_nat k) ltac:(lia)) as [y ->]. done.
Qed.
Lemma copia_ok m a l : mem_ok m -> Forall is_u8 l -> mem_ok (copia m a l).
Proof.
  intros Hm Hl x. unfold copia. case_if; [|done]. destruct (l !! Z.to_nat (x - a)) eqn:E; cbn; [|unfold is_u8; lia].
  by apply (Forall_lookup_1 _ _ _ _ Hl E).
Qed.
(** Written at a place of a frame, seen from its start. *)
Lemma copia_base m f b d l : (forall k, 0 <= k < PAGE -> m (f + k) = b k) ->
  forall k, 0 <= k < PAGE -> copia m (f + d) l (f + k) = copia b d l k.
Proof.
  intros H k Hk. unfold copia. replace (f + k - (f + d)) with (k - d) by lia. rewrite <- (H k Hk).
  destruct (Z.leb_spec (f + d) (f + k)), (Z.leb_spec d k); try lia; cbn [andb]; [|done].
  by destruct (Z.ltb_spec (f + k) (f + d + Z.of_nat (length l))), (Z.ltb_spec k (d + Z.of_nat (length l))); try lia.
Qed.
Lemma lee_copia m f l n : n = Z.of_nat (length l) -> lee (copia m f l) f n = l.
Proof.
  intros ->. apply list_eq. intros i. unfold lee. rewrite list_lookup_fmap. destruct (decide (i < length l)%nat) as [Hi|Hi].
  - rewrite lookup_seqZ_lt by lia. cbn [fmap option_fmap option_map]. rewrite copia_dentro by lia. by rewrite Nat2Z.id.
  - rewrite lookup_seqZ_ge by lia. rewrite lookup_ge_None_2 by lia. done.
Qed.

(** * The machine of the loader, action by action *)

Section Maquina.
Context {F : Type} `{Origen F} (s0 : vmm_st) (own0 : gmap Z etiqueta) (V0 : Z -> Z -> Prop) (Inv : F -> Prop) (W0 : wf s0 own0).

Definition estado (q : Z) (T : list Z) (L : list Pagina) (w : Mundo F) : Prop :=
  (exists own, J s0 own0 V0 q (vm w) own T L) /\ Inv (fu w).
Definition falla (w : Mundo F) : Prop := intacto s0 own0 (vm w).
(** A frame being filled: held, not mapped yet, with bytes [b]. *)
Definition abierta (q : Z) (T : list Z) (L : list Pagina) (f : Z) (b : Z -> Z) (w : Mundo F) : Prop :=
  estado q T L w /\ f ∈ T /\ f ∉ g_marco <$> L /\ forall k, 0 <= k < PAGE -> mem (vm w) (f + k) = b k.

Lemma estado_falla q T L w : estado q T L w -> falla w.
Proof. intros [[own Hj] _]. by apply (J_intacto s0 own0 V0 q (vm w) own T L). Qed.
Lemma abierta_falla q T L f b w : abierta q T L f b w -> falla w.
Proof. intros [Hs _]. by apply (estado_falla q T L). Qed.

Lemma J_mem_ok q s own T L : J s0 own0 V0 q s own T L -> mem_ok (mem s).
Proof. intros Hj. apply (wf_mem _ _ (j_wf _ _ _ _ _ _ _ _ Hj)). Qed.

Lemma toma_marco_bien q T L : cumple (estado q T L) toma_marco (fun f w => abierta q (f :: T) L f (fun _ => 0) w) falla.
Proof.
  intros w [[own Hj] Hi]. unfold toma_marco. destruct (alloc_frame (ph (vm w))) as [p [f|]] eqn:E.
  - destruct (J_toma s0 own0 V0 q (vm w) own T L p f Hj E) as (H1 & HT & Mf & Hz & _). split; [|split; [by left|split]].
    + split; [|done]. by exists own.
    + intros (g & -> & Hg)%list_elem_of_fmap. by apply HT, (j_LT _ _ _ _ _ _ _ _ Hj).
    + exact Hz.
  - apply alloc_None in E as [-> _]; [|apply (wf_phys _ _ (j_wf _ _ _ _ _ _ _ _ Hj))].
    apply (estado_falla q T L). split; [|done]. exists own. by destruct (vm w).
Qed.

Lemma copia_en_bien q T L f b d l : Forall is_u8 l -> 0 <= d -> d + Z.of_nat (length l) <= PAGE ->
  cumple (abierta q T L f b) (copia_en (f + d) l) (fun _ => abierta q T L f (copia b d l)) falla.
Proof.
  intros Hl Hd Hn w ([[own Hj] Hi] & Hf & HL & Hb). unfold copia_en. split; [split; [|done]|split; [done|split; [done|]]].
  - exists own. apply (J_escribe s0 own0 V0 q (vm w) own T L _ f Hj Hf HL).
    + apply copia_ok; [by apply (J_mem_ok q _ own T L)|done].
    + intros a Ha. apply copia_fuera. lia.
  - by apply copia_base.
Qed.

Lemma j_pon q s own T L g : J s0 own0 V0 q s own T L -> puesta s q g -> g_marco g ∈ T -> J s0 own0 V0 q s own T (g :: L).
Proof.
  intros [] Hg Ht. split; try done; [by constructor|]. intros g' [->|Hg']%elem_of_cons; [done|by apply j_LT].
Qed.

(** The permission of a page, with what the machine can enforce. *)
Definition permiso_pagina (k : PermisoImagen) : bool * bool :=
  match k with Codigo => permiso_real s0 false true | Constantes => permiso_real s0 false false | Datos => permiso_real s0 true false end.

Lemma mapeo_bien q T L f b va w x c n : compartida va = false -> (forall f, V0 (Vmm.pagina va) f) -> Forall (fun g => Vmm.pagina (g_va g) <> Vmm.pagina va) L ->
  cumple (abierta q T L f b) (mapeo (fun m => map_page_tipo m q va f true w x c n))
    (fun _ => estado q T (mkPagina va f (permiso_real s0 w x) b :: L)) falla.
Proof using W0.
  intros Hc HV HL w0 ([[own Hj] Hi] & Hf & _ & Hb). unfold mapeo.
  assert (H0 : 0 <= f) by (pose proof (proj1 (j_T _ _ _ _ _ _ _ _ Hj f Hf)) as [_ ?]; lia).
  destruct (J_map s0 own0 V0 W0 q (vm w0) own T L va f w x c n Hj Hc H0 (HV _) HL) as (s' & r & own' & -> & Hj' & _ & Hr).
  destruct r as [[]|[]].
  - destruct (Hr eq_refl Hf) as [_ [P1 P2 P3 P4]]. split; [|done]. exists own'. apply j_pon; [done| |done].
    split; [exact P1|exact P2|exact P3|]. intros k Hk. cbn [g_marco g_byte] in *. by rewrite P4, Hb.
  - by apply (J_intacto s0 own0 V0 q s' own' T L).
Qed.

Lemma mapeo_imagen q T L f b va k : compartida va = false -> (forall f, V0 (Vmm.pagina va) f) -> Forall (fun g => Vmm.pagina (g_va g) <> Vmm.pagina va) L ->
  cumple (abierta q T L f b) (mapeo (fun m => map_page_imagen m q va f k))
    (fun _ => estado q T (mkPagina va f (permiso_pagina k) b :: L)) falla.
Proof using W0. intros Hc HV HL. destruct k; cbv [map_page_imagen permiso_pagina]; by apply mapeo_bien. Qed.
End Maquina.

(** ** Addresses of a program *)

Definition sitio (va : Z) : Prop := 2 ^ 30 <= va < 2 ^ 47 /\ va mod PAGE = 0.

Lemma sitio_privado va : sitio va -> compartida va = false.
Proof.
  intros [Hv _]. unfold compartida, comparte, idx. apply orb_false_iff. split.
  - apply orb_false_iff. split; [|done]. apply andb_false_iff. right. apply Z.leb_gt.
    change (2 ^ (3 + 9 * 4)) with (2 ^ 39). assert (0 <= va / 2 ^ 39 < 2 ^ 8); [|lia].
    split; [by apply Z.div_pos; lia|apply Z.div_lt_upper_bound; lia].
  - cbn [Z.eqb Pos.eqb andb]. apply orb_false_iff. split; [done|]. change (2 ^ (3 + 9 * 4)) with (2 ^ 39). change (2 ^ (3 + 9 * 3)) with (2 ^ 30).
    apply andb_false_iff. destruct (Z.eqb_spec ((va / 2 ^ 39) mod 512) 0) as [E|E]; [right|by left].
    apply Z.eqb_neq. intros E'. lia.
Qed.

Lemma sitio_distinto va va' : sitio va -> sitio va' -> va <> va' -> Vmm.pagina va <> Vmm.pagina va'.
Proof.
  intros [Hv Mv] [Hv' Mv'] Hne E. apply Hne. unfold Vmm.pagina, PAGE in *.
  rewrite !Z.mod_small in E by (split; [apply Z.div_pos; lia|apply Z.div_lt_upper_bound; lia]). lia.
Qed.

(** * Relocations *)

(** What the gate leaves of a loadable section, and where the plan has to end:
    under the stack. *)
Definition apta (s : Seccion) : Prop := legible s /\ file_size s <= mem_size s /\ exists k, 0 <= k /\ alignment s = 2 ^ k.
Definition cabe_imagen (plan : BexLoadPlan) : Prop := fin_reparto USER_IMAGE_BASE (sections plan) <= USER_STACK_BOTTOM.

Lemma apta_colocable s : apta s -> colocable s.
Proof.
  intros ((_ & _ & Hm & Ha) & _ & k & Hk & E). split; [done|]. exists k. split; [|done]. split; [done|].
  destruct (Z.lt_ge_cases k 16) as [|Hge]; [done|]. rewrite E in Ha. pose proof (Z.pow_le_mono_r 2 16 k ltac:(lia) Hge). lia.
Qed.

Section Parches.
Context (plan : BexLoadPlan) (relocs : list Z) (Ap : Forall apta (sections plan)) (Hfin : cabe_imagen plan) (Hr : Forall is_u8 relocs).

Definition n_relocs : Z := cuantas_relocs (relocs_file_size plan).

(** Section, offset in it and value of a relocation that is accepted. *)
Definition parche (r : Z) : option (nat * Z * Z) :=
  rel ← leer_reloc relocs 0 (relocs_file_size plan) r;
  if negb (r_kind rel =? RELOC_SECCION_ABS64) then None else
  i ← seccion_por_codigo_reloc plan (donde_sec rel);
  j ← seccion_por_codigo_reloc plan (destino_sec rel);
  s ← sections plan !! i;
  base ← va_de plan !! j;
  if reloc_cabe (donde_off rel) 8 (file_size s) (mem_size s) then Some (i, donde_off rel, w64 (base + destino_off rel)) else None.

(** Section [i] of the plan and its address. *)
Definition en_plan (i : nat) (s : Seccion) (va : Z) : Prop := sections plan !! i = Some s /\ va_de plan !! i = Some va.

Lemma lugar_es i s va : en_plan i s va ->
  USER_IMAGE_BASE <= va /\ va mod PAGE = 0 /\ paginas_de s = pags s /\ 0 <= file_size s <= mem_size s /\ mem_size s <= pags s * PAGE /\
  0 <= pags s /\ va + pags s * PAGE <= USER_STACK_BOTTOM.
Proof using Ap Hfin.
  intros [Hs Hv]. unfold cabe_imagen in Hfin.
  destruct (reparto_es (sections plan) USER_IMAGE_BASE ltac:(done) ltac:(done)) as [_ R].
  { by apply (Forall_impl _ _ _ Ap), apta_colocable. }
  { unfold USER_STACK_BOTTOM, USER_STACK_TOP, USER_STACK_SIZE in Hfin. lia. }
  destruct (R i s va Hs Hv) as (A & B & _ & D & E' & _). pose proof (Forall_lookup_1 _ _ _ _ Ap Hs) as ((_ & Hf & Hm & _) & Hle & _).
  unfold is_u64 in *. destruct (pags_pos s ltac:(apply Hm)) as [P1 P2]. clear R.
  split; [done|]. split; [done|]. clear B. split; [done|]. lia.
Qed.

Lemma leer_reloc_rango tam r rel : leer_reloc relocs 0 tam r = Some rel -> is_u64 (donde_off rel).
Proof using Hr.
  unfold leer_reloc. case_if; [done|]. destruct (checked_add 0 (r * RELOC_SIZE)) as [e|]; [|done]. cbn [mbind option_bind].
  destruct (u64_en relocs e) as [o|] eqn:Eo; [|done]. cbn [mbind option_bind].
  destruct (u32_en relocs (e + 8)); [|done]. cbn [mbind option_bind].
  destruct (u8_en relocs (e + 12)); [|done]. cbn [mbind option_bind]. destruct (u8_en relocs (e + 13)); [|done]. cbn [mbind option_bind].
  destruct (u64_en relocs (e + 16)); [|done]. cbn [mbind option_bind]. intros [= <-]. cbn [donde_off].
  unfold u64_en, campo in Eo. case_if_in Eo; [|done]. injection Eo as <-.
  pose proof (of_le_range (slice (Z.to_nat e) 8 relocs) (slice_u8 _ _ _ Hr)) as R.
  assert (length (slice (Z.to_nat e) 8 relocs) <= 8)%nat by (unfold slice; rewrite length_take; lia).
  assert (2 ^ (8 * Z.of_nat (length (slice (Z.to_nat e) 8 relocs))) <= 2 ^ 64) by (apply Z.pow_le_mono_r; lia).
  unfold is_u64. lia.
Qed.

Lemma parche_es r i d x : parche r = Some (i, d, x) -> exists s va, en_plan i s va /\ 0 <= d /\ d + 8 <= mem_size s /\ is_u64 x.
Proof using Ap Hfin Hr.
  unfold parche. destruct (leer_reloc relocs 0 (relocs_file_size plan) r) as [rel|] eqn:El; [|done]. cbn [mbind option_bind]. case_if; [done|].
  destruct (seccion_por_codigo_reloc plan (donde_sec rel)) as [i'|] eqn:Ei; [|done]. cbn [mbind option_bind].
  destruct (seccion_por_codigo_reloc plan (destino_sec rel)) as [j|] eqn:Ej; [|done]. cbn [mbind option_bind].
  apply codigo_reloc_es in Ei as (s & Hs & _). rewrite Hs. cbn [mbind option_bind].
  destruct (va_de plan !! j) as [base|]; [|done]. cbn [mbind option_bind]. case_if; [|done]. intros [= <- <- <-].
  destruct (reparto_es (sections plan) USER_IMAGE_BASE ltac:(done) ltac:(done)) as [Len _].
  { by apply (Forall_impl _ _ _ Ap), apta_colocable. }
  { unfold cabe_imagen, USER_STACK_BOTTOM, USER_STACK_TOP, USER_STACK_SIZE in Hfin. lia. }
  destruct (lookup_lt_is_Some_2 (va_de plan) i') as [va Hva]; [unfold va_de; rewrite Len; by apply lookup_lt_Some in Hs|].
  exists s, va. split; [by split|]. apply leer_reloc_rango in El. split; [apply El|]. split; [|apply w64_range].
  pose proof (Forall_lookup_1 _ _ _ _ Ap Hs) as (_ & Hle & _). unfold reloc_cabe, checked_add in *. case_decide; [|done]. bdestr.
  case_if_in Heqb0; bdestr; lia.
Qed.

(** One turn of the loop of a page: refused, skipped or written. *)
Lemma aplica_una_es {F} `{Origen F} i s va f p v r : en_plan i s va -> 0 <= p < pags s ->
  match parche r with
  | None => exists e, aplica_una (F:=F) plan relocs f (va + p * PAGE) v r = rechaza e
  | Some (j, d, x) => aplica_una (F:=F) plan relocs f (va + p * PAGE) v r =
      if decide (j = i /\ p * PAGE <= d < (p + 1) * PAGE) then
        copia_en (f +w (d - p * PAGE)) (take (Z.to_nat (Z.min ((p + 1) * PAGE - d) 8)) (le 8 x));;;
        ret (mkVuelta (cierre v) (if (p + 1) * PAGE - d <? 8 then Some (x, (p + 1) * PAGE - d) else cola v) (aplicadas v +w 1))
      else ret v
  end.
Proof using Ap Hfin Hr.
  intros Hi Hp. pose proof (parche_es r) as Hes. unfold aplica_una. unfold parche in *.
  destruct (leer_reloc relocs 0 (relocs_file_size plan) r) as [rel|] eqn:El; cbn [mbind option_bind] in *; [|by eexists].
  case_if; [by eexists|].
  destruct (seccion_por_codigo_reloc plan (donde_sec rel)) as [j|] eqn:Ej; cbn [mbind option_bind] in *; [|by eexists].
  destruct (seccion_por_codigo_reloc plan (destino_sec rel)) as [k|] eqn:Ek; cbn [mbind option_bind] in *; [|by eexists].
  destruct (reparto_es (sections plan) USER_IMAGE_BASE ltac:(done) ltac:(done)) as [Len Rep].
  { by apply (Forall_impl _ _ _ Ap), apta_colocable. }
  { unfold cabe_imagen, USER_STACK_BOTTOM, USER_STACK_TOP, USER_STACK_SIZE in Hfin. lia. }
  apply codigo_reloc_es in Ej as (sj & Hsj & _), Ek as (sk & Hsk & _). rewrite Hsj. cbn [mbind option_bind] in *.
  destruct (lookup_lt_is_Some_2 (va_de plan) j) as [vj Hvj]; [unfold va_de; rewrite Len; by apply lookup_lt_Some in Hsj|].
  destruct (lookup_lt_is_Some_2 (va_de plan) k) as [vk Hvk]; [unfold va_de; rewrite Len; by apply lookup_lt_Some in Hsk|].
  rewrite Hvj, Hvk. cbn [mbind option_bind] in *. rewrite Hsj, Hvk in Hes. cbn [mbind option_bind] in Hes.
  destruct (reloc_cabe _ _ _ _); cbn [negb]; [|by eexists].
  destruct (Hes j (donde_off rel) _ eq_refl) as (sj' & vj' & [Hsj' Hvj'] & D0 & D8 & _). clear Hes.
  rewrite Hsj in Hsj'. injection Hsj' as <-. rewrite Hvj in Hvj'. injection Hvj' as <-.
  destruct (lugar_es j sj vj) as (Bj & _ & _ & _ & Bm & _ & Be); [by split|]. destruct (lugar_es i s va Hi) as (Ci & _ & _ & _ & Cm & Cp & Ce).
  unfold USER_STACK_BOTTOM, USER_STACK_TOP, USER_STACK_SIZE, USER_IMAGE_BASE in *. unfold PAGE in *.
  rewrite (w64_small (vj + donde_off rel)), (w64_small (va + p * 4096 + 4096)) by (unfold is_u64; lia).
  set (d := donde_off rel) in *. clearbody d.
  assert (Sep : j <> i -> vj + d < va + p * 4096 \/ va + p * 4096 + 4096 <= vj + d).
  { intros Hne. destruct Hi as [Hs Hv]. destruct (Nat.lt_total i j) as [L|[L|L]]; [|by subst|].
    - destruct (Rep i s va Hs Hv) as (_ & _ & _ & _ & _ & X). specialize (X j sj vj L Hsj Hvj). unfold PAGE in X. clear - X Hp D0. lia.
    - destruct (Rep j sj vj Hsj Hvj) as (_ & _ & _ & _ & _ & X). specialize (X i s va L Hs Hv). unfold PAGE in X. clear - X Hp D8 Bm. lia. }
  assert (Same : j = i -> vj = va). { intros ->. destruct Hi as [_ Hv]. congruence. }
  case_decide as D.
  - destruct D as [-> D]. rewrite (Same eq_refl) in *. rewrite (proj2 (orb_false_iff _ _)) by (rewrite Z.ltb_ge, Z.leb_gt; lia).
    rewrite (w64_small (va + d - (va + p * 4096))) by (unfold is_u64; lia).
    rewrite (w64_small (4096 - (va + d - (va + p * 4096)))) by (unfold is_u64; lia).
    replace (va + d - (va + p * 4096)) with (d - p * 4096) by lia. by replace (4096 - (d - p * 4096)) with ((p + 1) * 4096 - d) by lia.
  - rewrite (proj2 (orb_true_iff _ _)); [done|]. rewrite Z.ltb_lt, Z.leb_le. destruct (decide (j = i)) as [E|E]; [|by apply Sep].
    rewrite (Same E) in *. assert (~ (p * 4096 <= d < (p + 1) * 4096)) by tauto. lia.
Qed.
End Parches.

(** * What a section has to hold *)

Section Contenido.
Context (plan : BexLoadPlan) (relocs img : list Z) (i : nat) (s : Seccion).

(** Its bytes in the file, and zeros up to the end of the last page. *)
Definition octeto (o : Z) : Z := if o <? file_size s then img !!! Z.to_nat (file_offset s + o) else 0.
(** The relocation at [d] patches the byte at [o]. *)
Definition cubre (d o : Z) : Prop := d <= o < d + 8.
Definition es_parche (r d x : Z) : Prop := 0 <= r < n_relocs plan /\ parche plan relocs r = Some (i, d, x).

(** The byte [o] after the relocations of [P]: theirs where one falls, the one
    of the file elsewhere. *)
Definition byte_ok (P : Z -> Z -> Prop) (o b : Z) : Prop :=
  (forall r d x, es_parche r d x -> P r d -> cubre d o -> le 8 x !! Z.to_nat (o - d) = Some b) /\
  ((forall r d x, es_parche r d x -> P r d -> ~ cubre d o) -> b = octeto o).
Definition byte_final : Z -> Z -> Prop := byte_ok (fun _ _ => True).

(** No two relocations of the section touch the same byte. *)
Definition separadas : Prop := forall r r' d d' x x', es_parche r d x -> es_parche r' d' x' -> r <> r' -> d + 8 <= d' \/ d' + 8 <= d.
(** Its range of the file does not wrap around; the gate says so of every
    section but [BSS]. *)
Definition en_fichero : Prop := file_offset s + file_size s < 2 ^ 64.

(** The value that waits for the page that starts at [B]. *)
Definition cola_ok (P : Z -> Prop) (B : Z) (c : option (Z * Z)) : Prop :=
  match c with
  | Some (x, ya) => exists r d, es_parche r d x /\ P r /\ d < B < d + 8 /\ ya = B - d
  | None => forall r d x, es_parche r d x -> P r -> ~ (d < B < d + 8)
  end.

Definition hash_ok (k : Z) (esp : option (list Z)) (p : Z) (a : Aterrizaje) : Prop :=
  exists ps, a = foldl trozo (at_abrir k esp) ps /\ Z.of_nat (length (concat ps)) = Z.min (p * PAGE) (file_size s) /\
    (en_fichero -> concat ps = slice (Z.to_nat (file_offset s)) (Z.to_nat (Z.min (p * PAGE) (file_size s))) img).

Lemma byte_ok_otro (P Q : Z -> Z -> Prop) o b : (forall r d x, es_parche r d x -> cubre d o -> (P r d <-> Q r d)) -> byte_ok P o b -> byte_ok Q o b.
Proof.
  intros H [A B]. split.
  - intros r d x Hp Hq Hc. apply (A r d x); [done|by apply (H r d x)|done].
  - intros N. apply B. intros r d x Hp Hq Hc. apply (N r d x); [done|by apply (H r d x)|done].
Qed.

(** One more relocation, over a byte that no other one of [P] touches. *)
Lemma byte_ok_uno (P : Z -> Z -> Prop) r0 d0 x0 o b b' : es_parche r0 d0 x0 ->
  (forall r d x, es_parche r d x -> P r d -> r <> r0 -> cubre d o -> cubre d0 o -> False) ->
  byte_ok P o b -> (cubre d0 o -> le 8 x0 !! Z.to_nat (o - d0) = Some b') -> (~ cubre d0 o -> b' = b) ->
  byte_ok (fun r d => P r d \/ r = r0) o b'.
Proof.
  intros H0 Hs [A B] H1 H2. assert (U : forall d x, es_parche r0 d x -> d = d0 /\ x = x0).
  { intros d x [_ E]. destruct H0 as [_ E0]. rewrite E0 in E. by injection E as <- <-. }
  assert (D : cubre d0 o \/ ~ cubre d0 o) by (unfold cubre; lia). split.
  - intros r d x Hp HP Hc. destruct (Z.eq_dec r r0) as [->|Hne].
    + destruct (U d x Hp) as [-> ->]. by apply H1.
    + destruct HP as [HP| ->]; [|done]. destruct D as [D|D]; [by destruct (Hs r d x Hp HP Hne Hc D)|]. rewrite (H2 D). by apply (A r d x).
  - intros N. assert (Nd : ~ cubre d0 o) by (apply (N r0 d0 x0); [done|by right]). rewrite (H2 Nd). apply B.
    intros r d x Hp HP. apply (N r d x); [done|by left].
Qed.
End Contenido.

(** * A page *)

Section Pagina.
Context {F : Type} `{Origen F} (s0 : vmm_st) (own0 : gmap Z etiqueta) (V0 : Z -> Z -> Prop) (Inv : F -> Prop) (W0 : wf s0 own0).
Context (plan : BexLoadPlan) (relocs img : list Z) (Ap : Forall apta (sections plan)) (Hfin : cabe_imagen plan).
Context (Hr : Forall is_u8 relocs) (Hi : Forall is_u8 img) (Fi : fiel img Inv).
Context (i : nat) (s : Seccion) (va : Z) (Hplan : en_plan plan i s va) (esp : option (list Z)).
Context (HV : forall p f, 0 <= p < pags s -> V0 (Vmm.pagina (va + p * PAGE)) f).
Notation estado := (estado s0 own0 V0 Inv).
Notation abierta := (abierta s0 own0 V0 Inv).
Notation falla := (falla s0 own0).
Notation hash_ok := (hash_ok img s (kind s) esp).

Lemma abierta_fu q T L f b w u : Inv u -> abierta q T L f b w -> abierta q T L f b (con_fu w u).
Proof. intros Hu [[H1 _] H2]. by split. Qed.

Lemma baja_trozo_bien q T L f p v : 0 <= p < pags s -> hash_ok p (cierre v) ->
  cumple (abierta q T L f (fun _ => 0)) (baja_trozo s f p v)
    (fun v' w => exists b, abierta q T L f b w /\ cola v' = cola v /\ hash_ok (p + 1) (cierre v') /\
       (en_fichero s -> forall k, 0 <= k < PAGE -> b k = octeto img s (p * PAGE + k))) falla.
Proof using Ap Fi Hfin Hi Hplan.
  intros Hp (ps & Ec & El & Ecat). destruct (lugar_es plan Ap Hfin i s va Hplan) as (B1 & _ & _ & B4 & B5 & B6 & B7).
  pose proof (Forall_lookup_1 _ _ _ _ Ap (proj1 Hplan)) as ((Ho & Hf & _) & _).
  unfold USER_STACK_BOTTOM, USER_STACK_TOP, USER_STACK_SIZE, USER_IMAGE_BASE, is_u64 in *.
  unfold baja_trozo. rewrite w64_small by (unfold is_u64, PAGE in *; lia). case_if; bdestr.
  2:{ apply cumple_ret. intros w Hw. exists (fun _ => 0). split; [done|]. split; [done|]. split.
      - exists ps. replace (Z.min ((p + 1) * PAGE) (file_size s)) with (Z.min (p * PAGE) (file_size s)) by (unfold PAGE in *; lia). done.
      - intros _ k Hk. unfold octeto. rewrite (proj2 (Z.ltb_ge _ _)) by lia. done. }
  intros w Hw. rewrite (w64_small (file_size s - p * PAGE)) by (unfold is_u64, PAGE in *; lia).
  set (n := Z.min (file_size s - p * PAGE) PAGE). set (o := w64 (file_offset s + p * PAGE)).
  assert (Hn : 0 < n <= PAGE) by (unfold n, PAGE in *; lia).
  pose proof (w64_range (file_offset s + p * PAGE)) as Ro. fold o in Ro. unfold is_u64 in Ro.
  destruct (fiel_traer _ _ Fi (fu w) o n (proj2 (proj1 Hw)) ltac:(lia) ltac:(lia)) as (Hu & m & Hm & Em).
  destruct (traer (fu w) o n) as [u l]. cbn [fst snd] in Hu, Em. subst l. set (l := slice (Z.to_nat o) m img).
  assert (Hl8 : Forall is_u8 l) by (by apply slice_u8). assert (Hlm : Z.of_nat (length l) <= n) by (unfold l, slice; rewrite length_take; lia).
  pose proof (copia_en_bien s0 own0 V0 Inv q T L f _ 0 l Hl8 ltac:(lia) ltac:(lia) w Hw) as Hc. unfold copia_en in Hc.
  rewrite Z.add_0_r in Hc. pose proof (abierta_fu q T L f _ _ u Hu Hc) as Hc'.
  destruct (Z.eqb_spec (Z.of_nat (length l)) n) as [E|E]; cbn [negb]; [|by apply (abierta_falla s0 own0 V0 Inv q T L f _ _ Hc')].
  rewrite lee_copia by done. destruct (slice_entera img (Z.to_nat o) m (Z.to_nat n) ltac:(lia)) as [El' Hin]; [fold l; lia|]. fold l in El'.
  eexists. split; [exact Hc'|]. split; [done|]. cbn [cierre].
  assert (Mn : Z.min ((p + 1) * PAGE) (file_size s) = p * PAGE + n) by (unfold n, PAGE in *; lia).
  assert (Mp : Z.min (p * PAGE) (file_size s) = p * PAGE) by lia. split.
  - exists (ps ++ [l]). rewrite foldl_app. cbn [foldl]. rewrite Ec, Mn, concat_app, length_app, Nat2Z.inj_add, El, Mp. cbn [concat].
    rewrite app_nil_r. split; [done|]. split; [lia|]. intros He. rewrite (Ecat He), Mp, El'. unfold en_fichero in He.
    assert (Eo : o = file_offset s + p * PAGE) by (apply w64_small; unfold is_u64, PAGE in *; lia). unfold slice.
    rewrite Eo. replace (Z.to_nat (p * PAGE + n)) with (Z.to_nat (p * PAGE) + Z.to_nat n)%nat by (unfold PAGE in *; lia).
    rewrite Z2Nat.inj_add by (unfold PAGE in *; lia). rewrite <- drop_drop.
    symmetry.
    rewrite <- (take_drop (Z.to_nat (p * PAGE)) (take (Z.to_nat (p * PAGE) + Z.to_nat n) (drop (Z.to_nat (file_offset s)) img))).
    rewrite take_take, Nat.min_l, skipn_firstn_comm by lia. do 2 f_equal. lia.
  - intros He k Hk. unfold en_fichero in He. assert (Eo : o = file_offset s + p * PAGE) by (apply w64_small; unfold is_u64, PAGE in *; lia).
    unfold octeto. destruct (Z.ltb_spec (p * PAGE + k) (file_size s)).
    + assert (Hk' : k < n) by (unfold n; lia). apply (inj Some). transitivity (l !! Z.to_nat k).
      * rewrite <- (copia_dentro (fun _ => 0) 0 l k) by lia. done.
      * rewrite El'. unfold slice. rewrite lookup_take_lt by lia. rewrite lookup_drop. replace (Z.to_nat o + Z.to_nat k)%nat with (Z.to_nat (file_offset s + (p * PAGE + k))) by lia.
        rewrite list_lookup_lookup_total_lt by lia. done.
    + rewrite copia_fuera; [done|]. unfold n in E. lia.
Qed.

Notation es_parche := (es_parche plan relocs i).
Notation separadas := (separadas plan relocs i).
Notation cola_ok := (cola_ok plan relocs i).
Notation byte_ok := (byte_ok plan relocs img i s).

Lemma es_parche_rango r d x : es_parche r d x -> 0 <= d /\ d + 8 <= mem_size s /\ is_u64 x.
Proof using Ap Hfin Hplan Hr.
  intros [_ E]. destruct (parche_es plan relocs Ap Hfin Hr r i d x E) as (s' & va' & [Hs _] & H1 & H2 & H3).
  rewrite (proj1 Hplan) in Hs. by injection Hs as <-.
Qed.

(** Bytes of a value, from one of them on. *)
Lemma valor_8 n x : 0 <= x -> Forall is_u8 (drop n (le 8 x)) /\ Forall is_u8 (take n (le 8 x)).
Proof. intros Hx. pose proof (le_bytes 8 x Hx) as Hb. split; [by apply Forall_drop|by apply Forall_take]. Qed.

(** What one write of a relocation does to each byte of the page. *)
Lemma copia_valor b x d a n k : 0 <= a -> 0 <= k -> a <= k < a + Z.of_nat (length (slice (Z.to_nat d) n (le 8 x))) -> 0 <= d ->
  le 8 x !! Z.to_nat (k - a + d) = Some (copia b a (slice (Z.to_nat d) n (le 8 x)) k).
Proof.
  intros Ha Hk Hx Hd. replace k with (a + (k - a)) at 2 by lia. rewrite copia_dentro by lia.
  unfold slice in *. rewrite length_take, length_drop in Hx. rewrite lookup_take_lt, lookup_drop by lia. f_equal. lia.
Qed.

Lemma baja_cola_bien q T L f p b v : 0 <= p < pags s -> cola_ok (fun _ => True) (p * PAGE) (cola v) ->
  cumple (abierta q T L f b) (baja_cola f v)
    (fun v' w => exists b', abierta q T L f b' w /\ cola v' = None /\ cierre v' = cierre v /\
       (separadas -> (forall k, 0 <= k < PAGE -> b k = octeto img s (p * PAGE + k)) ->
        forall k, 0 <= k < PAGE -> byte_ok (fun _ d => d < p * PAGE) (p * PAGE + k) (b' k))) falla.
Proof using Ap Hfin Hplan Hr.
  intros Hp Hc. unfold baja_cola. destruct v as [cv [[x ya]|] av]; cbn [cola cierre aplicadas] in *.
  2:{ apply cumple_ret. intros w Hw. exists b. split; [done|]. split; [done|]. split; [done|]. intros _ Hb k Hk. rewrite (Hb k Hk). split; [|done].
      intros r d x Hpr Hd Hcu. destruct (Hc r d x Hpr I). unfold cubre in Hcu. lia. }
  destruct Hc as (r0 & d0 & Hp0 & _ & Hd & ->). destruct (es_parche_rango r0 d0 x Hp0) as (D0 & D8 & [Hx _]).
  set (l := drop (Z.to_nat (p * PAGE - d0)) (le 8 x)). assert (Hl : Z.of_nat (length l) = d0 + 8 - p * PAGE).
  { unfold l. rewrite length_drop, length_le. lia. }
  eapply cumple_bind; [rewrite <- (Z.add_0_r f) at 2; apply (copia_en_bien s0 own0 V0 Inv q T L f b 0 l);
    [by apply valor_8|done|unfold PAGE in *; lia]|].
  intros []. apply cumple_ret. intros w Hw. eexists. split; [exact Hw|]. split; [done|]. split; [done|]. intros Hsep Hb k Hk.
  apply (byte_ok_otro _ _ _ _ _ (fun r d => False \/ r = r0)).
  { intros r d x' Hpr Hcu. split; [intros [[]| ->]|].
    - destruct Hpr as [_ E]. destruct Hp0 as [_ E0]. rewrite E0 in E. injection E as <- <-. lia.
    - intros Hd'. right. destruct (Z.eq_dec r r0) as [|Hne]; [done|]. destruct (Hsep r r0 d d0 x' x Hpr Hp0 Hne); unfold cubre in Hcu; lia. }
  apply (byte_ok_uno plan relocs img i s _ r0 d0 x (p * PAGE + k) (b k)); [done|done| | |].
  - rewrite (Hb k Hk). split; [by intros|done].
  - intros Hcu. unfold cubre in Hcu. unfold l. replace (drop (Z.to_nat (p * PAGE - d0)) (le 8 x)) with (slice (Z.to_nat (p * PAGE - d0)) 8 (le 8 x)).
    + rewrite <- (copia_valor b x (p * PAGE - d0) 0 8 k); [f_equal; lia|lia|lia| |lia]. unfold slice. rewrite length_take, length_drop, length_le. lia.
    + unfold slice. apply take_ge. rewrite length_drop, length_le. lia.
  - intros Hn. rewrite copia_fuera; [done|]. unfold cubre in Hn. lia.
Qed.

(** After the relocations of [D]. *)
Definition a_medias q T L f p b (v : Vuelta) (D : list Z) (v' : Vuelta) (w : Mundo F) : Prop :=
  exists b', abierta q T L f b' w /\ (forall r, r ∈ D -> parche plan relocs r <> None) /\ cierre v' = cierre v /\
    cola_ok (fun r => r ∈ D) ((p + 1) * PAGE) (cola v') /\
    (separadas -> (forall k, 0 <= k < PAGE -> byte_ok (fun _ d => d < p * PAGE) (p * PAGE + k) (b k)) ->
     forall k, 0 <= k < PAGE -> byte_ok (fun r d => d < p * PAGE \/ r ∈ D) (p * PAGE + k) (b' k)).

Lemma a_medias_falla q T L f p b v D v' w : a_medias q T L f p b v D v' w -> falla w.
Proof. intros (b' & Ha & _). by apply (abierta_falla s0 own0 V0 Inv q T L f b'). Qed.

(** A relocation that does not fall in the page changes nothing of it. *)
Lemma a_medias_salta q T L f p b v D r v' j d x w : 0 <= p -> parche plan relocs r = Some (j, d, x) -> 0 <= d ->
  ~ (j = i /\ p * PAGE <= d < (p + 1) * PAGE) -> a_medias q T L f p b v D v' w -> a_medias q T L f p b v (D ++ [r]) v' w.
Proof.
  intros Hp E Hd Hn (b' & Ha & Hpa & Hci & Hco & Hby). exists b'. split; [done|].
  assert (Out : forall d' x', es_parche r d' x' -> ~ (p * PAGE <= d' < (p + 1) * PAGE)).
  { intros d' x' [_ E'] Hd'. rewrite E in E'. injection E' as -> -> ->. by apply Hn. }
  split; [|split; [done|split]].
  - intros r' [Hr'| ->%list_elem_of_singleton]%elem_of_app; [by apply Hpa|by rewrite E].
  - destruct (cola v') as [[y ya]|]; cbn in *.
    + destruct Hco as (r' & d' & Q1 & Q2 & Q3). exists r', d'. split; [done|]. split; [|done]. apply elem_of_app. by left.
    + intros r' d' x' Hp' [Hr'| ->%list_elem_of_singleton]%elem_of_app Hd'; [by apply (Hco r' d' x')|].
      apply (Out d' x' Hp'). unfold PAGE in *. lia.
  - intros Hs Hb k Hk. apply (byte_ok_otro _ _ _ _ _ (fun r d => d < p * PAGE \/ r ∈ D)); [|by apply Hby].
    intros r' d' x' Hp' Hcu. rewrite elem_of_app, list_elem_of_singleton. split; [tauto|].
    intros [?|[?| ->]]; [by left|by right|left]. specialize (Out d' x' Hp'). unfold cubre, PAGE in *. lia.
Qed.

(** One that does is written, and what is left of it waits. *)
Lemma a_medias_escribe q T L f p b v D r v' d x n : 0 <= p -> es_parche r d x -> r ∉ D -> p * PAGE <= d < (p + 1) * PAGE ->
  cumple (a_medias q T L f p b v D v')
    (copia_en (f + (d - p * PAGE)) (take (Z.to_nat (Z.min ((p + 1) * PAGE - d) 8)) (le 8 x));;;
     ret (mkVuelta (cierre v') (if (p + 1) * PAGE - d <? 8 then Some (x, (p + 1) * PAGE - d) else cola v') n))
    (a_medias q T L f p b v (D ++ [r])) falla.
Proof using Ap Hfin Hplan Hr.
  intros Hp Hpr HrD Hd. destruct (es_parche_rango r d x Hpr) as (D0 & D8 & [Hx _]).
  set (l := take _ (le 8 x)). assert (Hl : Z.of_nat (length l) = Z.min ((p + 1) * PAGE - d) 8).
  { unfold l. rewrite length_take, length_le. lia. }
  apply cumple_ex. intros b'. intros w (Ha & Hpa & Hci & Hco & Hby). revert w Ha. change (cumple (abierta q T L f b')
    (copia_en (f + (d - p * PAGE)) l;;; ret (mkVuelta (cierre v') (if (p + 1) * PAGE - d <? 8 then Some (x, (p + 1) * PAGE - d) else cola v') n))
    (a_medias q T L f p b v (D ++ [r])) falla).
  eapply cumple_bind; [apply (copia_en_bien s0 own0 V0 Inv); [by apply valor_8|lia|unfold PAGE in *; lia]|].
  intros []. apply cumple_ret. intros w Hw. eexists. split; [exact Hw|]. cbn [cierre cola].
  assert (U : forall d' x', es_parche r d' x' -> d' = d /\ x' = x).
  { intros d' x' [_ E']. destruct Hpr as [_ E]. rewrite E in E'. by injection E' as <- <-. }
  split; [|split; [done|split]].
  - intros r' [Hr'| ->%list_elem_of_singleton]%elem_of_app; [by apply Hpa|]. destruct Hpr as [_ ->]. done.
  - case_if; bdestr.
    + exists r, d. split; [done|]. split; [apply elem_of_app; right; by left|]. lia.
    + destruct (cola v') as [[y ya]|]; cbn in *.
      * destruct Hco as (r' & d' & Q1 & Q2 & Q3). exists r', d'. split; [done|]. split; [|done]. apply elem_of_app. by left.
      * intros r' d' x' Hp' [Hr'| ->%list_elem_of_singleton]%elem_of_app Hd'; [by apply (Hco r' d' x')|].
        destruct (U d' x' Hp') as [-> ->]. lia.
  - intros Hs Hb k Hk. apply (byte_ok_otro _ _ _ _ _ (fun r' d' => (d' < p * PAGE \/ r' ∈ D) \/ r' = r)).
    { intros r' d' x' _ _. rewrite elem_of_app, list_elem_of_singleton. tauto. }
    apply (byte_ok_uno plan relocs img i s _ r d x (p * PAGE + k) (b' k)); [done| |by apply Hby| |].
    + intros r' d' x' Hp' _ Hne C1 C2. destruct (Hs r' r d' d x' x Hp' Hpr Hne); unfold cubre in *; lia.
    + intros Hcu. unfold cubre in Hcu. replace l with (slice (Z.to_nat 0) (Z.to_nat (Z.min ((p + 1) * PAGE - d) 8)) (le 8 x)) by done.
      rewrite <- (copia_valor b' x 0 (d - p * PAGE) _ k); [f_equal; lia|lia|lia| |lia].
      unfold slice. rewrite length_take, length_drop, length_le. lia.
    + intros Hn. rewrite copia_fuera; [done|]. unfold cubre in Hn. lia.
Qed.

Lemma relocs_bien q T L f p b v : 0 <= p < pags s -> cola v = None ->
  cumple (abierta q T L f b) (por_cada (seqZ 0 (n_relocs plan)) (aplica_una plan relocs f (va + p * PAGE)) v)
    (a_medias q T L f p b v (seqZ 0 (n_relocs plan))) falla.
Proof using Ap H Hfin Hplan Hr.
  intros Hp Hc. eapply cumple_pre; [|apply cumple_por_cada].
  { intros w Hw. exists b. split; [done|]. split; [by intros r Hr'%not_elem_of_nil|]. split; [done|]. rewrite Hc. split.
    - intros r d x _ Hr'. by apply not_elem_of_nil in Hr'.
    - intros _ Hb k Hk. apply (byte_ok_otro _ _ _ _ _ (fun _ d => d < p * PAGE)); [|by apply Hb].
      intros r d x _ _. rewrite elem_of_nil. tauto. }
  intros D r resto v' El. assert (Hrr : 0 <= r < n_relocs plan).
  { assert (r ∈ seqZ 0 (n_relocs plan)) as X%elem_of_seqZ by (rewrite El; apply elem_of_app; right; by left). lia. }
  assert (HrD : r ∉ D).
  { pose proof (NoDup_seqZ 0 (n_relocs plan)) as N. rewrite El in N. apply NoDup_app in N as (_ & N & _). intros X. apply (N r X). by left. }
  pose proof (aplica_una_es plan relocs Ap Hfin Hr (F:=F) i s va f p v' r Hplan Hp) as E.
  destruct (parche plan relocs r) as [[[j d] x]|] eqn:Epr.
  2:{ destruct E as [e ->]. apply cumple_rechaza. intros w. apply a_medias_falla. }
  destruct (parche_es plan relocs Ap Hfin Hr r j d x Epr) as (_ & _ & _ & D0 & _). rewrite E. case_decide as Hd.
  - destruct Hd as [-> Hd]. intros w Hw. assert (Mf : marco f).
    { destruct Hw as (b' & ([[own Hj] _] & Hf & _) & _). apply (j_T _ _ _ _ _ _ _ _ Hj f Hf). }
    rewrite w64_small by (destruct Mf; unfold is_u64, PAGE, PHYSMAP_SIZE in *; lia).
    exact (a_medias_escribe q T L f p b v D r v' d x _ (proj1 Hp) (conj Hrr Epr) HrD Hd w Hw).
  - apply cumple_ret. intros w. apply (a_medias_salta q T L f p b v D r v' j d x w); try done. apply Hp.
Qed.

(** A page of the section in the new space. *)
Definition contenido (g : Pagina) (p : Z) : Prop :=
  g_va g = va + p * PAGE /\ g_perm g = permiso_pagina s0 (permiso_de (kind s)) /\
  (separadas -> en_fichero s -> forall k, 0 <= k < PAGE -> byte_final plan relocs img i s (p * PAGE + k) (g_byte g k)).
Definition vuelta_ok (p : Z) (v : Vuelta) : Prop := hash_ok p (cierre v) /\ cola_ok (fun _ => True) (p * PAGE) (cola v).
Definition todas_bien : Prop := forall r, 0 <= r < n_relocs plan -> parche plan relocs r <> None.

Lemma pagina_bien q T L p v : 0 <= p < pags s -> vuelta_ok p v -> Forall (fun g => Vmm.pagina (g_va g) <> Vmm.pagina (va + p * PAGE)) L ->
  cumple (estado q T L) (pagina plan relocs q s va (permiso_de (kind s)) v p)
    (fun v' w => exists g, estado q (g_marco g :: T) (g :: L) w /\ contenido g p /\ vuelta_ok (p + 1) v' /\ todas_bien) falla.
Proof using Ap Fi HV Hfin Hi Hplan Hr W0.
  intros Hp [Hh Hc] HL. destruct (lugar_es plan Ap Hfin i s va Hplan) as (B1 & Bm & _ & _ & _ & _ & B7).
  unfold USER_STACK_BOTTOM, USER_STACK_TOP, USER_STACK_SIZE, USER_IMAGE_BASE in *.
  assert (Ev : va +w w64 (p * PAGE) = va + p * PAGE).
  { clear Bm. rewrite (w64_small (p * PAGE)) by (unfold is_u64, PAGE in *; lia). apply w64_small. unfold is_u64, PAGE in *. lia. }
  assert (Hsit : sitio (va + p * PAGE)).
  { split; [clear Bm; unfold PAGE in *; lia|]. rewrite Z.add_mod, Bm, Z.mod_mul by done. done. }
  unfold pagina. eapply cumple_bind; [apply (toma_marco_bien s0 own0 V0 Inv q T L)|]. intros f. cbv beta.
  eapply cumple_bind; [by apply (baja_trozo_bien q (f :: T) L f p v)|]. intros v1. cbv beta. rewrite Ev.
  apply cumple_ex. intros b1. eapply cumple_pre; [intros w (H1 & H2 & H3 & H4); exact (conj (conj H2 (conj H3 H4)) H1)|].
  apply cumple_puro. intros (Ec1 & Hh1 & Hb1).
  eapply cumple_bind; [apply (baja_cola_bien q (f :: T) L f p b1 v1 Hp); by rewrite Ec1|]. intros v2. cbv beta.
  apply cumple_ex. intros b2. eapply cumple_pre; [intros w (H1 & H2 & H3 & H4); exact (conj (conj H2 (conj H3 H4)) H1)|].
  apply cumple_puro. intros (Ec2 & Eh2 & Hb2).
  eapply cumple_bind; [exact (relocs_bien q (f :: T) L f p b2 v2 Hp Ec2)|]. intros v3.
  apply cumple_ex. intros b3. eapply cumple_pre; [intros w (H1 & H2); exact (conj H2 H1)|].
  apply cumple_puro. intros (Hpa & Eh3 & Hc3 & Hb3).
  assert (En : forall r, r ∈ seqZ 0 (n_relocs plan) <-> 0 <= r < n_relocs plan) by (intros r; rewrite elem_of_seqZ; lia).
  eapply cumple_bind; [exact (mapeo_imagen s0 own0 V0 Inv W0 q (f :: T) L f b3 _ (permiso_de (kind s)) (sitio_privado _ Hsit) (fun f => HV p f Hp) HL)|].
  intros []. apply cumple_ret. intros w Hw. eexists (mkPagina _ f _ _). split; [exact Hw|]. split; [|split; [split|]].
  - split; [done|]. split; [done|]. intros Hs He k Hk. cbn [g_byte].
    apply (byte_ok_otro _ _ _ _ _ (fun r d => d < p * PAGE \/ r ∈ seqZ 0 (n_relocs plan))).
    { intros r d x [Hr' _] _. rewrite En. tauto. }
    apply Hb3; [done| |done]. intros k' Hk'. apply Hb2; [done| |done]. intros k2 Hk2. by apply Hb1.
  - by rewrite Eh3, Eh2.
  - destruct (cola v3) as [[x ya]|]; cbn in *.
    + destruct Hc3 as (r & d & Q1 & _ & Q3). by exists r, d.
    + intros r d x Hp' _. apply (Hc3 r d x Hp'). apply En, Hp'.
  - intros r Hr'. by apply Hpa, En.
Qed.
End Pagina.

(** * A section *)

Section Seccion.
Context {F : Type} `{Origen F} (s0 : vmm_st) (own0 : gmap Z etiqueta) (V0 : Z -> Z -> Prop) (Inv : F -> Prop) (W0 : wf s0 own0).
Context (plan : BexLoadPlan) (relocs img : list Z) (Ap : Forall apta (sections plan)) (Hfin : cabe_imagen plan).
Context (Hr : Forall is_u8 relocs) (Hi : Forall is_u8 img) (Fi : fiel img Inv) (firmas : option (list Z * Firmas)).
Context (HV : forall i s va p f, en_plan plan i s va -> 0 <= p < pags s -> V0 (Vmm.pagina (va + p * PAGE)) f).
Notation estado := (estado s0 own0 V0 Inv).
Notation falla := (falla s0 own0).
Notation contenido := (contenido s0 plan relocs img).
Notation todas_bien := (todas_bien plan relocs).

(** The digest that the signature table declares for a section. *)
Definition declara (idx : nat) : option (list Z) := f ← snd <$> firmas; digest_de f idx.

(** The bytes of a section in the file hash to what is declared for it. *)
Definition integra (s : Seccion) : Prop :=
  en_fichero s -> forall e, declara (indice s) = Some e ->
    hash_ref (slice (Z.to_nat (file_offset s)) (Z.to_nat (file_size s)) img) = e.

Lemma cierra_bien (P : Mundo F -> Prop) s k a r : 0 <= file_size s < 2 ^ 64 -> (forall w, P w -> falla w) ->
  hash_ok img s k (declara (indice s)) (pags s) a -> file_size s <= pags s * PAGE ->
  cumple P (cierra a r) (fun _ w => integra s /\ P w) falla.
Proof using.
  intros Hs HP (ps & -> & Hl & Hcat) Hle w Hw. rewrite Z.min_r in Hl, Hcat by done.
  destruct (trozos_rep ps (at_abrir k (declara (indice s))) [] Blake3.new eq_refl hrep_new) as (h & E1 & E2 & E3 & _); [cbn [app]; lia|].
  unfold cierra, cerrar. rewrite E3, E1. cbn [at_abrir esperado mbind option_bind]. rewrite (finalize_rep _ _ E2). cbn [app].
  destruct (declara (indice s)) as [e|] eqn:Ee.
  - case_bool_decide as Eh; [|by apply HP]. split; [|done]. intros He e' Hde. rewrite Ee in Hde. injection Hde as <-. by rewrite <- Hcat.
  - split; [|done]. intros He e'. congruence.
Qed.

(** All the pages of a section, and only those. *)
Definition paginas_hechas (i : nat) (s : Seccion) (va n : Z) (P : list Pagina) : Prop :=
  (forall p, 0 <= p < n -> exists g, g ∈ P /\ contenido i s va g p) /\
  Forall (fun g => exists p, 0 <= p < n /\ contenido i s va g p) P.

Lemma hechas_una i s va n P g : 0 <= n -> paginas_hechas i s va n P -> contenido i s va g n -> paginas_hechas i s va (n + 1) (g :: P).
Proof.
  intros Hn [A B] Hg. split.
  - intros p Hp. destruct (Z.eq_dec p n) as [->|Hne]; [exists g; split; [by left|done]|].
    destruct (A p ltac:(lia)) as (g' & H1 & H2). exists g'. split; [by right|done].
  - constructor; [exists n; split; [lia|done]|]. eapply Forall_impl; [exact B|]. intros g' (p & Hp & Hc). exists p. split; [lia|done].
Qed.

(** The page is outside the section. *)
Definition ajena (s : Seccion) (va : Z) (g : Pagina) : Prop := sitio (g_va g) /\ (g_va g < va \/ va + pags s * PAGE <= g_va g).

Definition avance i s va q T L (hecho : list Z) (v : Vuelta) (w : Mundo F) : Prop :=
  exists P, estado q ((g_marco <$> P) ++ T) (P ++ L) w /\ vuelta_ok plan relocs img i s (declara (indice s)) (Z.of_nat (length hecho)) v /\
    paginas_hechas i s va (Z.of_nat (length hecho)) P /\ (P <> [] -> todas_bien).

Lemma seqZ_parte n hecho a resto : seqZ 0 n = hecho ++ a :: resto -> a = Z.of_nat (length hecho) /\ 0 <= a < n.
Proof.
  intros E. assert (X : seqZ 0 n !! length hecho = Some a) by (rewrite E; by apply list_lookup_middle).
  apply lookup_seqZ in X as [-> X]. lia.
Qed.

Lemma contenido_sitio i s va p g : en_plan plan i s va -> 0 <= p < pags s -> contenido i s va g p -> sitio (g_va g) /\ va <= g_va g < va + pags s * PAGE.
Proof using Ap Hfin.
  intros He Hp (Hv & _). destruct (lugar_es plan Ap Hfin i s va He) as (B1 & Bm & _ & _ & _ & _ & B7). rewrite Hv.
  unfold USER_STACK_BOTTOM, USER_STACK_TOP, USER_STACK_SIZE, USER_IMAGE_BASE in *. split.
  - split; [clear Bm; unfold PAGE in *; lia|]. rewrite Z.add_mod, Bm, Z.mod_mul by done. done.
  - clear Bm. unfold PAGE in *. lia.
Qed.

Lemma paginas_bien i s va q T L n : en_plan plan i s va -> Forall (ajena s va) L ->
  cumple (estado q T L)
    (por_cada (seqZ 0 (pags s)) (pagina plan relocs q s va (permiso_de (kind s))) (mkVuelta (at_abrir (kind s) (declara (indice s))) None n))
    (fun v w => avance i s va q T L (seqZ 0 (pags s)) v w) falla.
Proof using Ap Fi HV Hfin Hi Hr W0.
  intros He HL. destruct (lugar_es plan Ap Hfin i s va He) as (_ & _ & _ & B4 & _ & B6 & _).
  eapply cumple_pre; [|apply cumple_por_cada].
  { intros w Hw. exists []. split; [done|]. split; [|split; [split; [cbn; lia|constructor]|done]]. split.
    - exists []. cbn. split; [done|]. split; [lia|]. intros _. rewrite Z.min_l by lia. done.
    - cbn. intros r d x Hp _. destruct (es_parche_rango plan relocs Ap Hfin Hr i s va He r d x Hp) as (? & _). lia. }
  intros hecho p resto v El. destruct (seqZ_parte _ _ _ _ El) as [-> Hp]. unfold avance at 1. set (m := Z.of_nat (length hecho)) in *.
  apply cumple_ex. intros P. eapply cumple_pre; [intros w (H1 & H2 & H3 & H4); exact (conj (conj H2 (conj H3 H4)) H1)|].
  apply cumple_puro. intros (Hv & Hpg & Htb). eapply cumple_post; [|apply (pagina_bien s0 own0 V0 Inv W0 plan relocs img Ap Hfin Hr Hi Fi i s va He _ (fun p f => HV i s va p f He) q ((g_marco <$> P) ++ T) (P ++ L) m v Hp Hv)].
  - intros v' w (g & Hw & Hg & Hv' & Ht). unfold avance. rewrite length_app. cbn [length]. replace (Z.of_nat (length hecho + 1)) with (m + 1) by lia.
    exists (g :: P). split; [done|]. split; [done|]. split; [apply hechas_una; [lia|done|done]|done].
  - assert (Hsi : sitio (va + m * PAGE)).
    { destruct (lugar_es plan Ap Hfin i s va He) as (B1 & Bm & _ & _ & _ & _ & B7).
      unfold USER_STACK_BOTTOM, USER_STACK_TOP, USER_STACK_SIZE, USER_IMAGE_BASE in *.
      split; [clear Bm; unfold PAGE in *; lia|]. rewrite Z.add_mod, Bm, Z.mod_mul by done. done. }
    apply Forall_app. split; rewrite Forall_forall.
    + intros g Hg. destruct Hpg as [_ Hpg]. rewrite Forall_forall in Hpg. destruct (Hpg g Hg) as (p' & Hp' & Hc).
      destruct (contenido_sitio i s va p' g He ltac:(lia) Hc) as [Hs' _]. apply sitio_distinto; [done|done|]. destruct Hc as [-> _]. unfold PAGE. lia.
    + intros g Hg. rewrite Forall_forall in HL. destruct (HL g Hg) as [Hs' Hd]. apply sitio_distinto; [done|done|]. unfold PAGE in *. lia.
Qed.

(** What the statistics of the load say of the entry point. *)
Definition entra_por (c : Carga) : Prop :=
  entry_va c = 0 \/ exists i s, en_plan plan i s (code_va c) /\ kind s = CODE /\ entry_va c = code_va c +w p_entry_offset plan /\ code_len c = mem_size s.

Lemma seccion_bien i s va q T L c : en_plan plan i s va -> Forall (ajena s va) L -> entra_por c ->
  cumple (estado q T L) (seccion plan firmas relocs q c i)
    (fun c' w => exists P, estado q ((g_marco <$> P) ++ T) (P ++ L) w /\ paginas_hechas i s va (pags s) P /\ (P <> [] -> todas_bien) /\ integra s /\ entra_por c') falla.
Proof using Ap Fi HV Hfin Hi Hr W0.
  intros He HL Hc. destruct (lugar_es plan Ap Hfin i s va He) as (_ & _ & B3 & B4 & B5 & B6 & _).
  pose proof (Forall_lookup_1 _ _ _ _ Ap (proj1 He)) as ((_ & Hf & _) & _).
  unfold seccion. destruct He as [Hs Hv] eqn:Ehe. rewrite Hs, Hv. fold (declara (indice s)). rewrite B3.
  eapply cumple_bind; [exact (paginas_bien i s va q T L (c_aplicadas c) He HL)|]. intros v.
  apply cumple_ex. intros P. eapply cumple_pre; [intros w (H1 & H2 & H3 & H4); exact (conj (conj H2 (conj H3 H4)) H1)|].
  apply cumple_puro. rewrite length_seqZ, Z2Nat.id by done. intros ([Hh _] & Hpg & Htb).
  case_bool_decide; [apply cumple_rechaza; intros w; apply (estado_falla s0 own0 V0 Inv)|].
  eapply cumple_bind; [apply (cierra_bien (estado q ((g_marco <$> P) ++ T) (P ++ L)) s (kind s)); [apply Hf|intros w; apply (estado_falla s0 own0 V0 Inv)|done|lia]|].
  intros k. apply cumple_puro. intros Hin. cbv zeta.
  case_if; bdestr; apply cumple_ret; intros w Hw; exists P; (split; [done|]; split; [done|]; split; [done|]; split; [done|]).
  - right. exists i, s. cbn [code_va entry_va code_len]. by repeat split.
  - destruct Hc as [Hc|Hc]; [by left|by right].
Qed.
End Seccion.
