(* ===== verification/Admision.v ===== *)
(** What the admission of a program promises.
    Source: src/Ultra_kernel_x86-64/kernel/src/ring0/task/admitir.rs.

    The pieces of [Imagen] put together: from the bytes of the file to the
    space that runs them, whatever the outcome. *)

From stdpp Require Import gmap.
From S2P Require Import Prelude Titular Phys Vmm Espacios Blake3 Bex Edwards Firma Carga Admitir Aterrizaje Reparto Imagen.

(** * What the gate leaves in the plan *)

Record plan_bueno (plan : BexLoadPlan) : Prop := {
  pb_aptas : Forall apta (sections plan);
  pb_fichero : Forall (fun s => kind s <> BSS -> en_fichero s) (sections plan);
  pb_tablas : is_u64 (relocs_file_offset plan) /\ is_u64 (relocs_file_size plan) /\ is_u64 (firma_file_offset plan) /\
    is_u64 (firma_file_size plan) /\ is_u64 (requisitos_file_offset plan) /\ is_u64 (requisitos_file_size plan);
  pb_codigo : exists c, c ∈ sections plan /\ kind c = CODE /\ 0 < mem_size c
}.

Lemma rango_de_u64 k l : Forall legible l -> is_u64 (fst (fst (rango_de k l))) /\ is_u64 (snd (fst (rango_de k l))).
Proof.
  intros Hl. unfold rango_de. destruct (last (filter (es k) l)) as [s|] eqn:E; cbn; [|unfold is_u64; lia].
  apply last_Some_elem_of, list_elem_of_filter in E as [_ E]. rewrite Forall_forall in Hl. destruct (Hl s E) as (A & B & _). done.
Qed.

Lemma secciones_legibles b tam r fl : Forall is_u8 b -> bien_formada b tam r fl -> Forall legible (secciones r) /\ 0 <= entry_offset r.
Proof.
  intros Hb Hr. pose proof (tabla_pos b tam r fl Hb Hr) as H0. destruct Hr as (E & Hc & _).
  pose proof (ca_cabe _ _ _ _ _ _ Hc) as [_ Hcabe]. rewrite <- E in Hb, Hcabe. split.
  - destruct (secciones_lookup r Hb H0 Hcabe) as [Hlen Hlk]. apply Forall_lookup. intros i s Hs.
    pose proof (lookup_lt_Some _ _ _ Hs) as Hl. apply Hlk in Hs.
    destruct (seccion_Some r i Hb H0 Hcabe ltac:(lia)) as (s' & E' & _ & E2). rewrite Hs in E'. injection E' as <-. exact E2.
  - rewrite <- (ca_entry _ _ _ _ _ _ Hc). rewrite <- E. apply of_le_range. by apply slice_u8.
Qed.

Lemma plan_bueno_de b tam plan : Forall is_u8 b -> 0 <= tam < 2 ^ 64 -> inspect b tam = Ok plan -> plan_bueno plan.
Proof.
  intros Hb Ht (r & Hr & _ & Hp)%inspect_ok. apply revisar_iff in Hr as (fl & Hr); [|done..].
  destruct (secciones_legibles b tam r fl Hb Hr) as [Hleg He0]. destruct Hr as (_ & _ & Hs & _ & (c & (l1 & l2 & El & Kc & _) & Hen) & _).
  destruct Hp as (_ & P2 & _ & P4 & P5 & P6). rewrite Forall_forall in Hleg, Hs.
  split.
  - rewrite P2, Forall_forall. intros s [_ Hin]%list_elem_of_filter. split; [by apply Hleg|]. split; [by apply (so_memoria tam), Hs|].
    apply (so_alineada tam), Hs, Hin.
  - rewrite P2, Forall_forall. intros s [_ Hin]%list_elem_of_filter K. unfold en_fichero. destruct (so_fichero tam s (Hs s Hin) K). lia.
  - assert (Hl' : Forall legible (secciones r)) by (by rewrite Forall_forall).
    pose proof (rango_de_u64 RELOCS _ Hl') as R1. rewrite <- P4 in R1. pose proof (rango_de_u64 SIGNATURE _ Hl') as R2. rewrite <- P5 in R2.
    pose proof (rango_de_u64 REQUISITOS _ Hl') as R3. rewrite <- P6 in R3. cbn [fst snd] in *. tauto.
  - exists c. split; [|split; [done|lia]]. rewrite P2. apply list_elem_of_filter. split; [|rewrite El; apply elem_of_app; right; by left].
    unfold cargable. by rewrite Kc.
Qed.

(** * The steps before the sections *)

Section Pasos.
Context {F : Type} `{Origen F} (ticks : Z) (s0 : vmm_st) (own0 : gmap Z etiqueta) (V0 : Z -> Z -> Prop) (Inv : F -> Prop) (W0 : wf s0 own0).
Context (plan : BexLoadPlan) (img : list Z) (Pb : plan_bueno plan) (Hi : Forall is_u8 img) (Fi : fiel img Inv).
Notation estado := (estado s0 own0 V0 Inv).
Notation falla := (falla s0 own0).

Lemma estado_fu q T L w u : Inv u -> estado q T L w -> estado q T L (con_fu w u).
Proof. intros Hu [Hj _]. by split. Qed.

(** A range of the file that had to be read whole. *)
Definition rango (o n : Z) : list Z := slice (Z.to_nat o) (Z.to_nat n) img.

Lemma trae_suelto_bien q T L o n r : 0 <= o -> 0 <= n ->
  cumple (estado q T L) (trae_suelto o n r) (fun l w => (l = rango o n /\ Z.of_nat (length l) = n) /\ estado q T L w) falla.
Proof using Fi.
  intros Ho Hn w Hw. unfold trae_suelto. destruct (fiel_suelto _ _ Fi (fu w) o n (proj2 Hw) Ho Hn) as (Hu & m & Hm & Em).
  destruct (traer_suelto (fu w) o n) as [u l]. cbn [fst snd] in *. subst l. pose proof (estado_fu q T L w u Hu Hw) as Hw'.
  destruct (Z.eqb_spec (Z.of_nat (length (slice (Z.to_nat o) m img))) n) as [E|E].
  - split; [|done]. split; [|done]. apply slice_entera; lia.
  - by apply (estado_falla s0 own0 V0 Inv q T L).
Qed.

(** The signature table that the loader consults: none when it is longer than
    its buffer. *)
Definition firmas_de : option (list Z * Firmas) :=
  if (0 <? firma_file_size plan) && (firma_file_size plan <=? MAX_FIRMA) then
    let buf := rango (firma_file_offset plan) (firma_file_size plan) in
    (fun f => (buf, f)) <$> firmas_abrir buf (firma_indice plan)
  else None.

Lemma lee_firmas_bien q T L : cumple (estado q T L) (lee_firmas plan) (fun f w => f = firmas_de /\ estado q T L w) falla.
Proof using Fi Pb.
  destruct (pb_tablas plan Pb) as (_ & _ & [Ho _] & [Hn _] & _). unfold lee_firmas, firmas_de. case_if; [|by apply cumple_ret].
  eapply cumple_bind; [by apply (trae_suelto_bien q T L)|]. intros l. apply cumple_puro. intros [-> _]. by apply cumple_ret.
Qed.

(** Whoever is named signed the chain of the table, with a key of the anchor. *)
Definition firmante_ok (firmas : option (list Z * Firmas)) (o : option nat) : Prop :=
  match o with
  | None => True
  | Some i => exists buf f c, firmas = Some (buf, f) /\ cadena f = Some c /\ cabe_la_firma buf /\ algo_de buf = Firma.ALGO_ED25519 /\
      firma_valida (clave_de buf) c (firma_de buf) /\ es_la_clave buf Firma.ANCLA i
  end.

Lemma firmado_es buf c ancla i : Forall is_u8 buf -> Firma.examinar buf c ancla = Firma.Firmado i ->
  cabe_la_firma buf /\ algo_de buf = Firma.ALGO_ED25519 /\ firma_valida (clave_de buf) c (firma_de buf) /\ es_la_clave buf ancla i.
Proof.
  intros Hb. rewrite (examinar_es buf Hb). repeat (case_decide; [|done || idtac]); try done.
  destruct (Ed25519.verificar _ _ _) eqn:V; [|done]. pose proof (busca_clave buf ancla) as K.
  destruct (position _ ancla) as [j|]; [|done]. intros [= ->]. apply verificar_sec in V; done.
Qed.

Lemma juzga_firma_bien q T L e firmas : (forall b f, firmas = Some (b, f) -> Forall is_u8 b) ->
  cumple (estado q T L) (juzga_firma e firmas) (fun o w => firmante_ok firmas o /\ estado q T L w) falla.
Proof.
  intros Hb. unfold juzga_firma. destruct firmas as [[b f]|]; [|by apply cumple_ret].
  assert (Ea : Firma.claves (replicate 8 (replicate 32 0)) = (Firma.ANCLA ++ replicate 7 (replicate 32 0), 1%nat)) by reflexivity.
  rewrite Ea. change (take 1 (Firma.ANCLA ++ replicate 7 (replicate 32 0))) with Firma.ANCLA.
  destruct (cadena f) as [c|] eqn:Ec; [|apply cumple_rechaza; intros w; apply (estado_falla s0 own0 V0 Inv)].
  cbv zeta. case_if; [apply cumple_rechaza; intros w; apply (estado_falla s0 own0 V0 Inv)|].
  apply cumple_ret. intros w Hw. split; [|done].
  destruct (Firma.examinar b c Firma.ANCLA) as [|i| | | |] eqn:Ex; try done. exists b, f, c. split; [done|]. split; [done|].
  apply firmado_es; [by apply (Hb b f)|done].
Qed.

Lemma juzga_requisitos_bien q T L : cumple (estado q T L) (juzga_requisitos plan) (fun _ => estado q T L) falla.
Proof using Fi Pb.
  destruct (pb_tablas plan Pb) as (_ & _ & _ & _ & [Ho _] & [Hn _]). unfold juzga_requisitos. case_if; [|by apply cumple_ret].
  intros w Hw. destruct (fiel_suelto _ _ Fi (fu w) (requisitos_file_offset plan) (Z.min (requisitos_file_size plan) REQUISITOS_MAX) (proj2 Hw) Ho)
    as (Hu & _); [unfold REQUISITOS_MAX; lia|].
  destruct (traer_suelto _ _ _) as [u l]. cbn [fst snd] in *. pose proof (estado_fu q T L w u Hu Hw) as Hw'.
  destruct (Carga.abrir l) as [t|]; [|done]. cbv zeta. case_if; [|done]. by apply (estado_falla s0 own0 V0 Inv q T L).
Qed.

(** The table of relocations that the loader applies, and its frames. *)
Definition relocs_de : list Z :=
  if 0 <? cuantas_relocs (relocs_file_size plan) then rango (relocs_file_offset plan) (relocs_file_size plan) else [].
Definition prestados (m : option (Z * Z)) : list Z := match m with Some (base, n) => marcos base n | None => [] end.

Lemma paginas_tabla n : is_u64 n -> (n +w PAGE -w 1) / PAGE = 0 \/ 0 < (n +w PAGE -w 1) / PAGE /\ n <= (n +w PAGE -w 1) / PAGE * PAGE \/ n = 0.
Proof.
  unfold is_u64, PAGE. intros Hn. destruct (Z.lt_ge_cases (n + 4096) (2 ^ 64)).
  - rewrite (w64_small (n + 4096)), (w64_small (n + 4096 - 1)) by (unfold is_u64; lia). lia.
  - destruct (Z.eq_dec n (2 ^ 64 - 4096)) as [->|]; [right; left; vm_compute; split; [reflexivity|discriminate]|left].
    assert (E : w64 (n + 4096) = n + 4096 - 2 ^ 64) by (unfold w64; symmetry; apply (Z.mod_unique _ _ 1); lia).
    rewrite E, w64_small by (unfold is_u64; lia). lia.
Qed.

Lemma copia_tabla q base n l T w : 0 < n -> Z.of_nat (length l) <= n * PAGE -> Forall is_u8 l ->
  estado q (marcos base n ++ T) [] w -> estado q (marcos base n ++ T) [] (con_vm w (with_mem (vm w) (copia (mem (vm w)) base l))).
Proof.
  intros Hn Hl Hl8 [[own Hj] Hu]. split; [|done]. exists own. apply (J_escribe_en s0 own0 V0 q (vm w) own _ [] _ (marcos base n) Hj).
  - rewrite Forall_forall. intros f Hf. split; [apply elem_of_app; by left|apply not_elem_of_nil].
  - apply copia_ok; [by apply (J_mem_ok s0 own0 V0 q _ own (marcos base n ++ T) [])|done].
  - intros a Ha. apply copia_fuera. intros Hb. apply (Ha (base + (a - base) / PAGE * PAGE)).
    + apply elem_marcos. exists ((a - base) / PAGE). split; [|done]. unfold PAGE in *. lia.
    + unfold PAGE. lia.
Qed.

Lemma lee_relocs_bien q firmas :
  cumple (estado q [] []) (lee_relocs plan firmas)
    (fun r w => let '(m, l, _) := r in estado q (prestados m) [] w /\ l = relocs_de /\
       (forall j e, 0 < cuantas_relocs (relocs_file_size plan) -> relocs_indice plan = Some j -> declara firmas j = Some e -> hash_ref l = e)) falla.
Proof using Fi Hi Pb.
  destruct (pb_tablas plan Pb) as ([Ho Ho'] & [Hn Hn'] & _). unfold lee_relocs, relocs_de. case_if.
  2:{ apply cumple_ret. intros w Hw. split; [done|]. split; [done|]. intros j e Hc. bdestr. lia. }
  bdestr. unfold cuantas_relocs, RELOC_SIZE in Heqb. set (n := relocs_file_size plan) in *. set (pags := (n +w PAGE -w 1) / PAGE).
  pose proof (paginas_tabla n (conj Hn Hn')) as Hpags. fold pags in Hpags.
  assert (Hn0 : n <> 0) by (intros E; rewrite E in Heqb; done).
  clearbody pags. eapply (cumple_bind _ _ _ _ (fun base w => (0 < pags /\ n <= pags * PAGE) /\ estado q (marcos base pags ++ []) [] w)).
  { intros w Hw. destruct (alloc_frames_contig (ph (vm w)) pags) as [p r] eqn:E. destruct Hpags as [->|[Hp|Hp]]; [| |by destruct Hn0].
    - unfold alloc_frames_contig in E. cbn [Z.eqb] in E. injection E as <- <-. apply (estado_falla s0 own0 V0 Inv q [] []).
      by destruct w as [[] ? ? ? ?].
    - destruct Hw as [[own Hj] Hu]. destruct r as [base|].
      + split; [done|]. split; [|done]. exists own. exact (J_contig_simple s0 own0 V0 q (vm w) own [] [] p base pags Hj (proj1 Hp) E).
      + pose proof (alloc_frames_contig_cases (ph (vm w)) pags (wf_phys _ _ (j_wf _ _ _ _ _ _ _ _ Hj)) (proj1 Hp)) as X. rewrite E in X.
        destruct X as [-> _]. apply (estado_falla s0 own0 V0 Inv q [] []). split; [|done]. exists own. by destruct w as [[] ? ? ? ?]. }
  intros base. apply cumple_puro. intros [Hp Hpn].
  eapply (cumple_bind _ _ _ _ (fun l w => l = rango (relocs_file_offset plan) n /\ estado q (marcos base pags ++ []) [] w)).
  { intros w Hw. destruct (fiel_suelto _ _ Fi (fu w) (relocs_file_offset plan) n (proj2 Hw) Ho Hn) as (Hu & m & Hm & Em).
    destruct (traer_suelto (fu w) (relocs_file_offset plan) n) as [u l]. cbn [fst snd] in *. subst l. set (l := slice (Z.to_nat (relocs_file_offset plan)) m img).
    assert (Hlm : Z.of_nat (length l) <= n) by (unfold l, slice; rewrite length_take; lia).
    assert (Hl8 : Forall is_u8 l) by (by apply slice_u8).
    pose proof (estado_fu q _ [] _ u Hu (copia_tabla q base pags l [] w Hp ltac:(lia) Hl8 Hw)) as Hw'.
    destruct (Z.eqb_spec (Z.of_nat (length l)) n) as [E|E]; [|by apply (estado_falla s0 own0 V0 Inv q (marcos base pags ++ []) [])].
    split; [|done]. unfold l, rango. apply slice_entera; [lia|]. fold l. lia. }
  intros l. apply cumple_puro. intros ->. set (l := rango (relocs_file_offset plan) n).
  assert (Hlen : Z.of_nat (length l) < 2 ^ 64) by (unfold l, rango, slice; rewrite length_take; lia).
  set (esp := f ← snd <$> firmas; j ← relocs_indice plan; digest_de f j).
  destruct (trozos_rep [l] (at_abrir RELOCS esp) [] Blake3.new eq_refl hrep_new) as (h & E1 & E2 & E3 & _); [cbn; by rewrite app_nil_r|].
  cbn [foldl concat app] in E1, E2, E3. rewrite app_nil_r in E2.
  eapply (cumple_bind _ _ _ _ (fun _ w => (forall e, esp = Some e -> hash_ref l = e) /\ estado q (marcos base pags ++ []) [] w)).
  { intros w Hw. unfold cierra, cerrar. rewrite E3, E1. cbn [at_abrir esperado]. destruct esp as [e|]; cbn [mbind option_bind].
    - rewrite (finalize_rep _ _ E2). case_bool_decide; [|by apply (estado_falla s0 own0 V0 Inv q (marcos base pags ++ []) [])].
      split; [|done]. by intros e' [= <-].
    - split; [|done]. done. }
  intros k. apply cumple_puro. intros Hk. apply cumple_ret. intros w Hw. cbn [prestados]. rewrite app_nil_r in Hw. split; [done|]. split; [done|].
  intros j e _ Ej Ee. apply Hk. unfold esp. rewrite Ej. unfold declara in Ee. by destruct (snd <$> firmas).
Qed.
End Pasos.

(** * The image *)

Section Imagen.
Context {F : Type} `{Origen F} (ticks : Z) (s0 : vmm_st) (own0 : gmap Z etiqueta) (V0 : Z -> Z -> Prop) (Inv : F -> Prop) (W0 : wf s0 own0).
Context (plan : BexLoadPlan) (img : list Z) (Pb : plan_bueno plan) (Hfin : cabe_imagen plan) (Hi : Forall is_u8 img) (Fi : fiel img Inv).
Notation estado := (estado s0 own0 V0 Inv).
Notation falla := (falla s0 own0).
Context (HVi : forall i s va p f, en_plan plan i s va -> 0 <= p < pags s -> V0 (Vmm.pagina (va + p * PAGE)) f).
Context (HVp : forall p f, 0 <= p < USER_STACK_PAGES -> V0 (Vmm.pagina (USER_STACK_TOP - (p + 1) * PAGE)) f).
Notation relocs := (relocs_de plan img).
Notation firmas := (firmas_de plan img).
Notation contenido := (contenido s0 plan relocs img).

Lemma relocs_u8 : Forall is_u8 relocs.
Proof using Hi. unfold relocs_de, rango. case_if; [by apply slice_u8|constructor]. Qed.

(** What has landed of the sections of a list. *)
Definition puestas (hecho : list nat) (P : list Pagina) : Prop :=
  (forall i s va, i ∈ hecho -> en_plan plan i s va ->
     (forall p, 0 <= p < pags s -> exists g, g ∈ P /\ contenido i s va g p) /\ integra img firmas s) /\
  Forall (fun g => exists i s va p, i ∈ hecho /\ en_plan plan i s va /\ 0 <= p < pags s /\ contenido i s va g p) P.

Lemma puestas_una hecho P i s va P' : en_plan plan i s va -> puestas hecho P -> paginas_hechas s0 plan relocs img i s va (pags s) P' -> integra img firmas s ->
  puestas (hecho ++ [i]) (P' ++ P).
Proof.
  intros He [A B] [C D] Hin. split.
  - intros j s' va' [Hj| ->%list_elem_of_singleton]%elem_of_app He'.
    + destruct (A j s' va' Hj He') as [A1 A2]. split; [|done]. intros p Hp. destruct (A1 p Hp) as (g & Hg & Hc). exists g.
      split; [apply elem_of_app; by right|done].
    + assert (s' = s /\ va' = va) as [-> ->] by (destruct He as [E1 E2], He' as [E3 E4]; split; congruence). split; [|done].
      intros p Hp. destruct (C p Hp) as (g & Hg & Hc). exists g. split; [apply elem_of_app; by left|done].
  - apply Forall_app. split; [eapply Forall_impl; [exact D|]|eapply Forall_impl; [exact B|]]; cbv beta.
    + intros g (p & Hp & Hc). exists i, s, va, p. split; [apply elem_of_app; right; by left|done].
    + intros g (j & s' & va' & p & Hj & R). exists j, s', va', p. split; [apply elem_of_app; by left|done].
Qed.

(** Sections of different places do not meet. *)
Lemma otra_ajena i s va j s' va' p g : en_plan plan i s va -> en_plan plan j s' va' -> i <> j -> 0 <= p < pags s' -> contenido j s' va' g p -> ajena s va g.
Proof using Hfin Pb.
  intros He He' Hne Hp Hc. pose proof (pb_aptas plan Pb) as Ap.
  destruct (contenido_sitio s0 plan relocs img Ap Hfin j s' va' p g He' Hp Hc) as [Hs Hr]. split; [done|].
  destruct (reparto_es (sections plan) USER_IMAGE_BASE ltac:(done) ltac:(done)) as [_ R].
  { by apply (Forall_impl _ _ _ Ap), apta_colocable. }
  { unfold cabe_imagen, USER_STACK_BOTTOM, USER_STACK_TOP, USER_STACK_SIZE in Hfin. lia. }
  destruct He as [E1 E2], He' as [E3 E4]. destruct (Nat.lt_total i j) as [L|[L|L]]; [|done|].
  - destruct (R i s va E1 E2) as (_ & _ & _ & _ & _ & X). specialize (X j s' va' L E3 E4). clear - X Hr. lia.
  - destruct (R j s' va' E3 E4) as (_ & _ & _ & _ & _ & X). specialize (X i s va L E1 E2). clear - X Hr. lia.
Qed.

Lemma en_plan_de i : (i < length (sections plan))%nat -> exists s va, en_plan plan i s va.
Proof using Hfin Pb.
  intros Hl. destruct (lookup_lt_is_Some_2 _ _ Hl) as [s Hs].
  destruct (reparto_es (sections plan) USER_IMAGE_BASE ltac:(done) ltac:(done)) as [Len _].
  { by apply (Forall_impl _ _ _ (pb_aptas plan Pb)), apta_colocable. }
  { unfold cabe_imagen, USER_STACK_BOTTOM, USER_STACK_TOP, USER_STACK_SIZE in Hfin. lia. }
  destruct (lookup_lt_is_Some_2 (va_de plan) i) as [va Hva]; [unfold va_de; by rewrite Len|]. exists s, va. by split.
Qed.

Definition cargadas q M (hecho : list nat) (c : Carga) (w : Mundo F) : Prop :=
  exists P, estado q ((g_marco <$> P) ++ M) P w /\ puestas hecho P /\ (P <> [] -> todas_bien plan relocs) /\ entra_por plan c.

Lemma secciones_bien q M sf : cumple (estado q M [])
  (por_cada (orden plan) (seccion plan firmas relocs q) (mkCarga 0 sf 0 0 0 0)) (cargadas q M (orden plan)) falla.
Proof using Fi HVi Hfin Hi Pb W0.
  eapply cumple_pre; [|apply cumple_por_cada].
  { intros w Hw. exists []. split; [done|]. split; [|split; [done|by left]]. split; [|constructor]. by intros i s va Hn%not_elem_of_nil. }
  intros hecho i resto c El. assert (Hin : i ∈ orden plan) by (rewrite El; apply elem_of_app; right; by left).
  assert (Hn : i ∉ hecho).
  { pose proof (NoDup_seq 0 (length (sections plan))) as N. rewrite <- (orden_perm plan), El in N. apply NoDup_app in N as (_ & N & _).
    intros X. apply (N i X). by left. }
  rewrite (orden_perm plan), elem_of_seq in Hin. destruct (en_plan_de i ltac:(lia)) as (s & va & He).
  apply cumple_ex. intros P. eapply cumple_pre; [intros w (H1 & H2 & H3 & H4); exact (conj (conj H2 (conj H3 H4)) H1)|].
  apply cumple_puro. intros (HP & Htb & Hc).
  eapply cumple_post; [|apply (seccion_bien s0 own0 V0 Inv W0 plan relocs img (pb_aptas plan Pb) Hfin relocs_u8 Hi Fi firmas HVi i s va); [done| |done]].
  - intros c' w (P' & Hw & Hpg & Ht & Hint & Hc'). exists (P' ++ P). rewrite fmap_app, <- app_assoc. split; [done|]. split; [by apply (puestas_una hecho P i s va)|].
    split; [|done]. intros Hne. destruct P'; [by apply Htb|by apply Ht].
  - destruct HP as [_ HP]. eapply Forall_impl; [exact HP|]. intros g (j & s' & va' & p & Hj & He' & Hp & Hg).
    apply (otra_ajena i s va j s' va' p g); try done. intros ->. done.
Qed.

(** * After the sections *)

Lemma suelta_todos q A P l : forall s own, J s0 own0 V0 q s own (((fun f => f) <$> l) ++ A) P -> (forall f, f ∈ l -> f ∉ g_marco <$> P) ->
  J s0 own0 V0 q (with_ph s (foldl (fun p f => free_frame p f ticks) (ph s) l)) own A P.
Proof.
  induction l as [|f l IH]; intros s own Hj Hl; cbn [foldl fmap list_fmap app] in *.
  { by destruct s. }
  apply (IH (with_ph s (free_frame (ph s) f ticks)) own); [|intros g Hg; apply Hl; by right].
  apply J_suelta; [done|]. apply Hl. by left.
Qed.

Lemma suelta_relocs_bien q P m : cumple (estado q ((g_marco <$> P) ++ prestados m) P) (suelta_relocs ticks m) (fun _ => estado q (g_marco <$> P) P) falla.
Proof.
  destruct m as [[base n]|]; cbn [prestados suelta_relocs]; [|apply cumple_ret; intros w; by rewrite app_nil_r].
  intros w [[own Hj] Hu]. split; [|done]. exists own. cbn [con_vm vm].
  assert (E : forall l p, Forall (fun i => base +w w64 (i * PAGE) = base + i * PAGE) l ->
    foldl (fun s p => free_frame s (base +w w64 (p * PAGE)) ticks) p l = foldl (fun p f => free_frame p f ticks) p ((fun i => base + i * PAGE) <$> l)).
  { induction l as [|i l IH]; intros p Hl; [done|]. apply Forall_cons in Hl as [Ei Hl]. cbn. rewrite Ei. by apply IH. }
  rewrite E.
  - apply suelta_todos.
    + rewrite list_fmap_id. apply (J_perm s0 own0 V0 q (vm w) own _ _ P (Permutation_app_comm _ _) Hj).
    + intros f Hf Hg. pose proof (j_nodup _ _ _ _ _ _ _ _ Hj) as N. apply NoDup_app in N as (_ & N & _). by apply (N f).
  - rewrite Forall_forall. intros i Hin%elem_of_seqZ.
    assert (M : forall j, 0 <= j < n -> marco (base + j * PAGE)).
    { intros j Hj'. apply (j_T _ _ _ _ _ _ _ _ Hj). apply elem_of_app. right. apply elem_marcos. by exists j. }
    destruct (M 0 ltac:(lia)) as [_ M0]. destruct (M i ltac:(lia)) as [_ Mi]. unfold PHYSMAP_SIZE, PAGE in *.
    rewrite (w64_small (i * 4096)) by (unfold is_u64; lia). apply w64_small. unfold is_u64. lia.
Qed.

(** The pages of the image are below the stack. *)
Definition bajo_pila (g : Pagina) : Prop := sitio (g_va g) /\ g_va g < USER_STACK_BOTTOM.

Lemma puestas_bajas hecho P : puestas hecho P -> Forall bajo_pila P.
Proof using Hfin Pb.
  intros [_ B]. eapply Forall_impl; [exact B|]. intros g (i & s & va & p & _ & He & Hp & Hc).
  destruct (contenido_sitio s0 plan relocs img (pb_aptas plan Pb) Hfin i s va p g He Hp Hc) as [Hs Hr]. split; [done|].
  destruct (lugar_es plan (pb_aptas plan Pb) Hfin i s va He) as (_ & _ & _ & _ & _ & _ & B7). lia.
Qed.

(** A page of the stack: writable, not executable, of zeros. *)
Definition de_pila (p : Z) (g : Pagina) : Prop :=
  g_va g = USER_STACK_TOP - (p + 1) * PAGE /\ g_perm g = permiso_real s0 true false /\ forall k, 0 <= k < PAGE -> g_byte g k = 0.
Definition pila_hecha (n : Z) (S : list Pagina) : Prop :=
  (forall p, 0 <= p < n -> exists g, g ∈ S /\ de_pila p g) /\ Forall (fun g => exists p, 0 <= p < n /\ de_pila p g) S.

Lemma sitio_pila p : 0 <= p < 16 -> sitio (USER_STACK_TOP - (p + 1) * PAGE) /\
  USER_STACK_BOTTOM <= USER_STACK_TOP - (p + 1) * PAGE < USER_STACK_TOP.
Proof. intros Hp. unfold sitio, USER_STACK_BOTTOM, USER_STACK_TOP, USER_STACK_SIZE, PAGE. lia. Qed.

Lemma pila_bien q P : Forall bajo_pila P ->
  cumple (estado q (g_marco <$> P) P) (por_cada (seqZ 0 USER_STACK_PAGES) (una_pila q) tt)
    (fun _ w => exists S, estado q (g_marco <$> S ++ P) (S ++ P) w /\ pila_hecha USER_STACK_PAGES S) falla.
Proof using HVp W0.
  intros HP. change USER_STACK_PAGES with 16. eapply cumple_pre; [|eapply cumple_post; [|
    apply (cumple_por_cada falla (fun hecho (_ : unit) w => exists S, estado q (g_marco <$> S ++ P) (S ++ P) w /\ pila_hecha (Z.of_nat (length hecho)) S))]].
  - intros w Hw. exists []. split; [done|]. split; [cbn; lia|constructor].
  - intros [] w. by rewrite length_seqZ.
  - intros hecho p resto [] El. destruct (seqZ_parte _ _ _ _ El) as [-> Hp]. set (m := Z.of_nat (length hecho)) in *.
    destruct (sitio_pila m Hp) as [Hsit Hbot].
    apply cumple_ex. intros S. eapply cumple_pre; [intros w (H1 & H2); exact (conj H2 H1)|]. apply cumple_puro. intros [HS1 HS2].
    unfold una_pila. eapply cumple_bind; [apply (toma_marco_bien s0 own0 V0 Inv q)|]. intros f. cbv beta.
    eapply cumple_post; [|apply (mapeo_bien s0 own0 V0 Inv W0 q _ _ f (fun _ => 0) _ true false false true); [by apply sitio_privado|intros f'; by apply HVp|]].
    + intros [] w Hw. exists (mkPagina (USER_STACK_TOP - (m + 1) * PAGE) f (permiso_real s0 true false) (fun _ => 0) :: S).
      split; [exact Hw|]. rewrite length_app. cbn [length]. replace (Z.of_nat (length hecho + 1)) with (m + 1) by lia. split.
      * intros p Hp'. destruct (Z.eq_dec p m) as [->|Hne]; [eexists; split; [by left|by repeat split]|].
        destruct (HS1 p ltac:(lia)) as (g & Hg & Hd). exists g. split; [by right|done].
      * constructor; [exists m; split; [lia|by repeat split]|]. eapply Forall_impl; [exact HS2|]. intros g (p & Hp' & Hd). exists p. split; [lia|done].
    + apply Forall_app. split; rewrite Forall_forall; intros g Hg; rewrite Forall_forall in HS2, HP.
      * destruct (HS2 g Hg) as (p & Hp' & Hv & _). destruct (sitio_pila p ltac:(lia)) as [Hs _]. rewrite <- Hv in Hs.
        apply sitio_distinto; [done|done|]. rewrite Hv. unfold PAGE. lia.
      * destruct (HP g Hg) as [Hs Hb]. apply sitio_distinto; [done|done|]. lia.
Qed.

Lemma canales_bien q T L page_phys : (forall i, 0 <= i < MAX_CHANNEL_PAGES -> 0 <= page_phys i) ->
  (forall i, 0 <= i < MAX_CHANNEL_PAGES -> V0 (Vmm.pagina (CHANNEL_VA_BASE + i * PAGE)) (Z.land (page_phys i) ADDR_MASK)) ->
  Forall (fun g => sitio (g_va g) /\ g_va g < USER_STACK_TOP) L ->
  cumple (estado q T L) (por_cada (seqZ 0 MAX_CHANNEL_PAGES) (un_canal page_phys q) tt) (fun _ => estado q T L) falla.
Proof using W0.
  change MAX_CHANNEL_PAGES with 16. intros Hpp HVc HL. apply (cumple_por_cada falla (fun _ _ => estado q T L)). intros hecho p resto [] El.
  destruct (seqZ_parte _ _ _ _ El) as [_ Hp]. unfold un_canal, mapeo. intros w [[own Hj] Hu].
  assert (Hsit : sitio (CHANNEL_VA_BASE + p * PAGE)) by (unfold sitio, CHANNEL_VA_BASE, PAGE; lia).
  assert (HL' : Forall (fun g => Vmm.pagina (g_va g) <> Vmm.pagina (CHANNEL_VA_BASE + p * PAGE)) L).
  { eapply Forall_impl; [exact HL|]. intros g [Hs Hb]. apply sitio_distinto; [done|done|]. unfold CHANNEL_VA_BASE, USER_STACK_TOP, PAGE in *. lia. }
  destruct (J_map s0 own0 V0 W0 q (vm w) own T L _ (page_phys p) true false false false Hj (sitio_privado _ Hsit) (Hpp p Hp) (HVc p Hp) HL') as (s' & r & own' & E & Hj' & _).
  unfold map_page. cbn [negb]. rewrite E. destruct r as [[]|[]]; [split; [|done]; by exists own'|]. by apply (J_intacto s0 own0 V0 q s' own' T L).
Qed.

Lemma pila_kernel_bien q T L : cumple (estado q T L) pila_kernel (fun b => estado q (marcos b KERNEL_STACK_PAGES ++ T) L) falla.
Proof.
  intros w [[own Hj] Hu]. unfold pila_kernel. destruct (alloc_frames_contig_de (ph (vm w)) KERNEL_STACK_PAGES Pila) as [p [b|]] eqn:E.
  - split; [|done]. exists own. exact (J_contig_de s0 own0 V0 q (vm w) own T L p b KERNEL_STACK_PAGES Pila Hj ltac:(done) E).
  - unfold alloc_frames_contig_de in E. pose proof (alloc_frames_contig_cases (ph (vm w)) KERNEL_STACK_PAGES (wf_phys _ _ (j_wf _ _ _ _ _ _ _ _ Hj)) ltac:(done)) as X.
    destruct (alloc_frames_contig (ph (vm w)) KERNEL_STACK_PAGES) as [p1 [b|]]; [done|]. injection E as <-. destruct X as [-> _].
    apply (estado_falla s0 own0 V0 Inv q T L). split; [|done]. exists own. by destruct w as [[] ? ? ? ?].
Qed.
End Imagen.

(** * The promise *)

(** The program [a] is ready in the machine [s], from the file [img] with the
    plan [plan]; the machine was [s0] before. [L] are its pages. *)
Record listo (s0 : vmm_st) (own0 : gmap Z etiqueta) (page_phys : Z -> Z) (plan : BexLoadPlan) (img : list Z) (a : Admitida)
    (own : gmap Z etiqueta) (L : list Pagina) (s : vmm_st) : Prop := {
  li_espacio : wf s own /\ espacio own (ad_aspace a) /\ own0 !! ad_aspace a = None;
  (** each page has a frame of its own, that was free *)
  li_marcos : NoDup (g_marco <$> L) /\ forall g, g ∈ L -> puesta s (ad_aspace a) g /\ own !! g_marco g = None /\
    used (bitmap (ph s)) (g_marco g / PAGE) = true /\ used (bitmap (ph s0)) (g_marco g / PAGE) = false;
  (** at the addresses of its own the space has those pages, the pages of the
      channels, and nothing else *)
  li_solo : forall va d, compartida va = false -> destino (mem s) (ad_aspace a) va = Some d ->
    (exists g, g ∈ L /\ Vmm.pagina va = Vmm.pagina (g_va g) /\ d = g_marco g + va mod PAGE) \/
    (exists i, 0 <= i < MAX_CHANNEL_PAGES /\ Vmm.pagina va = Vmm.pagina (CHANNEL_VA_BASE + i * PAGE) /\ d = page_phys i + va mod PAGE);
  (** only a section of zeros can have a range of the file that wraps around *)
  li_fichero : forall i sec va, en_plan plan i sec va -> kind sec <> BSS -> en_fichero sec;
  (** every section is there, page by page, and is the one that was signed *)
  li_secciones : forall i sec va, en_plan plan i sec va ->
    (forall p, 0 <= p < pags sec -> exists g, g ∈ L /\ contenido s0 plan (relocs_de plan img) img i sec va g p) /\
    integra img (firmas_de plan img) sec;
  li_relocs : todas_bien plan (relocs_de plan img) /\
    forall j e, 0 < n_relocs plan -> relocs_indice plan = Some j -> declara (firmas_de plan img) j = Some e -> hash_ref (relocs_de plan img) = e;
  li_pila : forall p, 0 <= p < USER_STACK_PAGES -> exists g, g ∈ L /\ de_pila s0 p g;
  li_entrada : exists i sec, en_plan plan i sec (code_va (ad_carga a)) /\ kind sec = CODE /\
    entry_va (ad_carga a) = code_va (ad_carga a) +w p_entry_offset plan /\ code_len (ad_carga a) = mem_size sec;
  li_firmante : firmante_ok (firmas_de plan img) (ad_firmante a);
  li_kernel : forall f, f ∈ marcos (kstack_base a) KERNEL_STACK_PAGES -> own !! f = None /\
    used (bitmap (ph s)) (f / PAGE) = true /\ used (bitmap (ph s0)) (f / PAGE) = false /\
    forall va d, compartida va = false -> destino (mem s) (ad_aspace a) va = Some d -> d / PAGE * PAGE <> f
}.

(** What the loader may map in the new space: pages of the sections and of the
    stack, on any frame, and the pages of the channels. *)
Definition permitida (page_phys : Z -> Z) (plan : BexLoadPlan) (P f : Z) : Prop :=
  (exists i sec va p, en_plan plan i sec va /\ 0 <= p < pags sec /\ P = Vmm.pagina (va + p * PAGE)) \/
  (exists p, 0 <= p < USER_STACK_PAGES /\ P = Vmm.pagina (USER_STACK_TOP - (p + 1) * PAGE)) \/
  (exists i, 0 <= i < MAX_CHANNEL_PAGES /\ P = Vmm.pagina (CHANNEL_VA_BASE + i * PAGE) /\ f = Z.land (page_phys i) ADDR_MASK).

Section Admision.
Context {F : Type} `{Origen F} (ticks : Z) (s0 : vmm_st) (own0 : gmap Z etiqueta) (Inv : F -> Prop).
Context (W0 : wf s0 own0) (M0 : medios s0 own0) (img : list Z) (Hi : Forall is_u8 img) (Fi : fiel img Inv).
Context (page_phys : Z -> Z) (Hpp : forall i, 0 <= i < MAX_CHANNEL_PAGES -> marco (page_phys i) /\ ocupado s0 (page_phys i)).
Notation estado plan := (estado s0 own0 (permitida page_phys plan) Inv).
Notation falla := (falla s0 own0).

Lemma nuevo_bien plan : cumple (fun w => vm w = s0 /\ Inv (fu w)) (nuevo_espacio ticks) (fun q => estado plan q [] []) falla.
Proof using M0 W0.
  intros w [Ew Hu]. unfold nuevo_espacio. rewrite Ew.
  destruct (new_address_space_spec s0 own0 ticks W0) as (s2 & r & E & _). rewrite E. destruct r as [q|].
  - split; [|done]. by apply (J_nuevo s0 own0 (permitida page_phys plan) W0 ticks s2 q M0).
  - by apply (sin_sitio_intacto s0 own0 (permitida page_phys plan) W0 ticks s2).
Qed.

Lemma permite_imagen plan i s va p f : en_plan plan i s va -> 0 <= p < pags s -> permitida page_phys plan (Vmm.pagina (va + p * PAGE)) f.
Proof. intros He Hp. left. by exists i, s, va, p. Qed.
Lemma permite_pila plan p f : 0 <= p < USER_STACK_PAGES -> permitida page_phys plan (Vmm.pagina (USER_STACK_TOP - (p + 1) * PAGE)) f.
Proof. intros Hp. right; left. by exists p. Qed.

(** An address of its own that leads somewhere is in one of the pages of the
    list, or in a channel. *)
Lemma solo_es plan q s own T S P va d : J s0 own0 (permitida page_phys plan) q s own T (S ++ P) ->
  (forall i sec va, en_plan plan i sec va -> forall p, 0 <= p < pags sec -> exists g, g ∈ P /\ g_va g = va + p * PAGE) ->
  (forall p, 0 <= p < USER_STACK_PAGES -> exists g, g ∈ S /\ g_va g = USER_STACK_TOP - (p + 1) * PAGE) ->
  compartida va = false -> destino (mem s) q va = Some d ->
  (exists g, g ∈ S ++ P /\ Vmm.pagina va = Vmm.pagina (g_va g) /\ d = g_marco g + va mod PAGE) \/
  (exists i, 0 <= i < MAX_CHANNEL_PAGES /\ Vmm.pagina va = Vmm.pagina (CHANNEL_VA_BASE + i * PAGE) /\ d = page_phys i + va mod PAGE).
Proof using Hpp.
  intros Hj HP HS Hc Hd. pose proof (j_L _ _ _ _ _ _ _ _ Hj) as HL. rewrite Forall_forall in HL.
  assert (G : forall g, g ∈ S ++ P -> Vmm.pagina va = Vmm.pagina (g_va g) -> d = g_marco g + va mod PAGE).
  { intros g Hg E. pose proof (pu_destino _ _ _ (HL g Hg) va E) as X. rewrite Hd in X. by injection X. }
  destruct (j_solo _ _ _ _ _ _ _ _ Hj va d Hc Hd) as [(i & sec & v & p & He & Hp & E)|[(p & Hp & E)|(i & Hi' & E & Ed)]].
  - left. destruct (HP i sec v He p Hp) as (g & Hg & Ev). rewrite <- Ev in E. exists g.
    assert (g ∈ S ++ P) by (apply elem_of_app; by right). split; [done|]. split; [done|by apply G].
  - left. destruct (HS p Hp) as (g & Hg & Ev). rewrite <- Ev in E. exists g.
    assert (g ∈ S ++ P) by (apply elem_of_app; by left). split; [done|]. split; [done|by apply G].
  - right. exists i. split; [done|]. split; [done|]. rewrite (mask_marco (page_phys i)) in Ed by (by apply Hpp). lia.
Qed.

Lemma admision_es prologo tam : Forall is_u8 prologo -> 0 <= tam < 2 ^ 64 ->
  (forall plan, inspect prologo tam = Ok plan -> cabe_imagen plan) ->
  cumple (fun w => vm w = s0 /\ Inv (fu w)) (admit_payload_desde ticks page_phys prologo tam)
    (fun a w => falla w /\ exists plan own L, inspect prologo tam = Ok plan /\ listo s0 own0 page_phys plan img a own L (vm w)) falla.
Proof using Fi Hi Hpp M0 W0.
  intros Hp Ht Hfin. unfold admit_payload_desde. destruct (inspect prologo tam) as [plan|e] eqn:Ei.
  2:{ apply cumple_rechaza. intros w [Ew _]. unfold falla. rewrite Ew. split; try done. by exists own0. }
  pose proof (plan_bueno_de prologo tam plan Hp Ht Ei) as Pb. pose proof (Hfin plan eq_refl) as Hc. clear Hfin.
  eapply cumple_bind; [exact (nuevo_bien plan)|]. intros q. cbv beta.
  eapply cumple_bind; [exact (lee_firmas_bien s0 own0 _ Inv plan img Pb Fi q [] [])|]. intros firmas. apply cumple_puro. intros ->.
  eapply cumple_bind; [apply (juzga_firma_bien s0 own0 _ Inv q [] [])|].
  { intros b f. unfold firmas_de, rango. case_if; [|done]. destruct (firmas_abrir _ _); [|done]. intros [= <- _]. by apply slice_u8. }
  intros o. apply cumple_puro. intros Ho.
  eapply cumple_bind; [exact (juzga_requisitos_bien s0 own0 _ Inv plan img Pb Fi q [] [])|]. intros [].
  eapply cumple_bind; [exact (lee_relocs_bien s0 own0 _ Inv plan img Pb Hi Fi q (firmas_de plan img))|]. intros [[m l] sf]. cbv beta iota.
  eapply cumple_pre; [intros w (H1 & H2); exact (conj H2 H1)|]. apply cumple_puro. intros [-> Hrh].
  eapply cumple_bind; [exact (secciones_bien s0 own0 _ Inv W0 plan img Pb Hc Hi Fi (permite_imagen plan) q (prestados m) sf)|]. intros c.
  apply cumple_ex. intros P. eapply cumple_pre; [intros w (H1 & H2 & H3 & H4); exact (conj (conj H2 (conj H3 H4)) H1)|].
  apply cumple_puro. intros (HP & Htb & Hent). pose proof (puestas_bajas s0 plan img Pb Hc (orden plan) P HP) as Hb.
  eapply cumple_bind; [exact (suelta_relocs_bien ticks s0 own0 _ Inv q P m)|]. intros [].
  case_if; [apply cumple_rechaza; intros w; apply (estado_falla s0 own0 _ Inv)|].
  case_if; [apply cumple_rechaza; intros w; apply (estado_falla s0 own0 _ Inv)|]. bdestr.
  eapply cumple_bind; [exact (pila_bien s0 own0 _ Inv W0 (permite_pila plan) q P Hb)|]. intros []. apply cumple_ex. intros S.
  eapply cumple_pre; [intros w (H1 & H2); exact (conj H2 H1)|]. apply cumple_puro. intros [HS1 HS2].
  eapply cumple_bind; [apply (canales_bien s0 own0 _ Inv W0 q _ (S ++ P) page_phys)|].
  { intros i Hi'. by destruct (Hpp i Hi') as [[_ ?] _]; lia. }
  { intros i Hi'. right; right. by exists i. }
  { apply Forall_app. split.
    - eapply Forall_impl; [exact HS2|]. intros g (p & Hp' & Hv & _). rewrite Hv. destruct (sitio_pila p Hp') as [A [_ B]]. done.
    - eapply Forall_impl; [exact Hb|]. intros g [A B]. split; [done|]. unfold USER_STACK_BOTTOM, USER_STACK_SIZE in B. lia. }
  intros []. eapply cumple_bind; [exact (pila_kernel_bien s0 own0 _ Inv q _ (S ++ P))|]. intros b. cbv beta.
  apply cumple_ret. intros w Hw. split; [by apply (estado_falla s0 own0 _ Inv) in Hw|]. exists plan. destruct Hw as [[own Hj] _].
  exists own, (S ++ P). split; [done|].
  assert (Enc : forall i sec va, en_plan plan i sec va -> i ∈ orden plan).
  { intros i sec va [Hs _]. rewrite (orden_perm plan), elem_of_seq. apply lookup_lt_Some in Hs. lia. }
  assert (HPne : P <> []).
  { destruct (pb_codigo plan Pb) as (sec & [i Hsec]%list_elem_of_lookup & _ & Hm). apply lookup_lt_Some in Hsec as Hlt.
    destruct (en_plan_de plan Pb Hc i Hlt) as (sec' & va & He). assert (sec' = sec) as -> by (destruct He as [E _]; congruence).
    destruct (proj1 HP i sec va (Enc i sec va He) He) as [HPp _].
    destruct (lugar_es plan (pb_aptas plan Pb) Hc i sec va He) as (_ & _ & _ & _ & B5 & _). unfold PAGE in B5.
    destruct (HPp 0 ltac:(lia)) as (g & Hg & _). intros ->. by apply not_elem_of_nil in Hg. }
  pose proof (j_T _ _ _ _ _ _ _ _ Hj) as HT. pose proof (j_nodup _ _ _ _ _ _ _ _ Hj) as HN. apply NoDup_app in HN as (_ & HN1 & HN2).
  assert (Hso : forall va d, compartida va = false -> destino (mem (vm w)) q va = Some d ->
    (exists g, g ∈ S ++ P /\ Vmm.pagina va = Vmm.pagina (g_va g) /\ d = g_marco g + va mod PAGE) \/
    (exists i, 0 <= i < MAX_CHANNEL_PAGES /\ Vmm.pagina va = Vmm.pagina (CHANNEL_VA_BASE + i * PAGE) /\ d = page_phys i + va mod PAGE)).
  { intros va d. apply (solo_es plan q (vm w) own _ S P va d Hj).
    - intros i sec v He p Hp'. destruct (proj1 (proj1 HP i sec v (Enc i sec v He) He) p Hp') as (g & Hg & Hv & _). by exists g.
    - intros p Hp'. destruct (HS1 p Hp') as (g & Hg & Hv & _). by exists g. }
  assert (HM : forall g, g ∈ S ++ P -> g_marco g ∈ g_marco <$> S ++ P) by (intros g Hg; by apply list_elem_of_fmap_2).
  split; cbn [ad_aspace ad_carga ad_firmante kstack_base].
  - split; [apply (j_wf _ _ _ _ _ _ _ _ Hj)|apply (j_q _ _ _ _ _ _ _ _ Hj)].
  - split; [done|]. intros g Hg. pose proof (j_L _ _ _ _ _ _ _ _ Hj) as HL. rewrite Forall_forall in HL.
    destruct (HT (g_marco g)) as (_ & A & B & C); [apply elem_of_app; right; by apply HM|]. split; [by apply HL|]. split; [done|]. split; [done|].
    by apply not_true_is_false.
  - exact Hso.
  - intros i sec va [He _] K. pose proof (pb_fichero plan Pb) as X. rewrite Forall_forall in X. apply X; [|done].
    by apply list_elem_of_lookup_2 in He.
  - intros i sec va He. destruct (proj1 HP i sec va (Enc i sec va He) He) as [A B]. split; [|done].
    intros p Hp'. destruct (A p Hp') as (g & Hg & Hcg). exists g. split; [apply elem_of_app; by right|done].
  - split; [by apply Htb|done].
  - intros p Hp'. destruct (HS1 p Hp') as (g & Hg & Hd). exists g. split; [apply elem_of_app; by left|done].
  - destruct Hent as [|(i & sec & A & B)]; [done|]. by exists i, sec.
  - done.
  - intros f Hf. destruct (HT f) as (_ & A & B & C); [apply elem_of_app; by left|]. split; [done|]. split; [done|].
    split; [by apply not_true_is_false|]. intros va d Hcv Hd. assert (Off : forall x, marco x -> (x + va mod PAGE) / PAGE * PAGE = x).
    { intros x [Hx _]. pose proof (Z.mod_pos_bound va PAGE ltac:(done)). unfold PAGE in *. lia. }
    destruct (Hso va d Hcv Hd) as [(g & Hg & _ & ->)|(i & Hi' & _ & ->)].
    + destruct (HT (g_marco g)) as (Mg & _); [apply elem_of_app; right; by apply HM|]. rewrite Off by done.
      intros <-. by apply (HN1 (g_marco g) Hf), HM.
    + destruct (Hpp i Hi') as [Mi Ui]. rewrite Off by done. by intros <-.
Qed.
End Admision.


(** A program with code, data, and a relocation that puts the address of the
    third byte of the code at the fifth of the data. *)
Definition demo_imagen : list Z :=
  le 4 MAGIC ++ le 2 1 ++ le 2 0 ++ le 4 1 ++ [1; 0] ++ le 2 0 ++ [2; 0] ++ le 6 0 ++ le 8 2 ++ le 8 48 ++
  le 4 3 ++ le 4 232 ++ demo_seccion CODE 4 192 4 8 16 ++ demo_seccion DATA 0 196 12 16 8 ++ demo_seccion RELOCS 0 208 24 24 8 ++
  [0x90; 0x90; 0xEB; 0xFE] ++ le 4 7 ++ le 8 0 ++
  le 8 4 ++ le 4 0 ++ [RELOC_SECCION_ABS64; 1] ++ le 2 0 ++ le 8 2.
Definition demo_plan_imagen : BexLoadPlan :=
  mkPlan 2 [mkSeccion 0 CODE 4 192 4 8 16; mkSeccion 1 DATA 0 196 12 16 8] 0 208 24 (Some 2%nat) 0 0 0 0 None.
Definition demo_mundo (img : list Z) : Mundo (list Z) := mkMundo vmm_demo img 0 0 0.
Definition demo_canal (i : Z) : Z := (100 + i) * PAGE.
Definition corre (img : list Z) (tam : Z) : option (Mundo (list Z) * result Admitida Rechazo) :=
  admit_payload_desde 0 demo_canal img tam (demo_mundo img).
(** What can be said of a run without its memory. *)
Definition desenlace (r : option (Mundo (list Z) * result Admitida Rechazo)) : option (result Admitida Rechazo) := snd <$> r.

Lemma demo_canal_bien i : 0 <= i < MAX_CHANNEL_PAGES -> marco (demo_canal i) /\ ocupado vmm_demo (demo_canal i).
Proof.
  change MAX_CHANNEL_PAGES with 16. intros Hi. unfold demo_canal. split.
  - unfold marco, PAGE, PHYSMAP_SIZE. split; [by apply Z.mod_mul|lia].
  - unfold ocupado. rewrite Z.div_mul by done. apply (proj2 phys_demo_reserva). lia.
Qed.


(** C40: The judgement of what a program declares. For a file in memory: what is
    asked for is the sum of its obligatory requirements of memory and heap,
    saturated; the program is refused exactly when the first 2048 bytes of its
    section are a table, that sum is not zero and it does not fit, with the
    64 MiB of the kernel, in the frames that are free; the refusal says both
    numbers. A section that cannot be read as a table refuses nobody. *)
Theorem requisitos_bien plan (w : Mundo (list Z)) : Forall is_u8 (fu w) -> phys_ok (ph (vm w)) ->
  is_u64 (requisitos_file_offset plan) -> requisitos_file_offset plan + REQUISITOS_MAX < 2 ^ 64 -> 0 < requisitos_file_size plan ->
  let l := slice (Z.to_nat (requisitos_file_offset plan)) (Z.to_nat (Z.min (requisitos_file_size plan) REQUISITOS_MAX)) (fu w) in
  let libre := free_frames (ph (vm w)) * PAGE in
  exists w' r, juzga_requisitos plan w = Some (w', r) /\ vm w' = vm w /\
    match Carga.abrir l with
    | None => r = Ok tt
    | Some t =>
        let pide := Z.min (suma (Carga.iter t)) (2 ^ 64 - 1) in
        Z.of_nat (length (Carga.iter t)) = Carga.cuantos t /\
        (r = Ok tt /\ ULTIMO_DECLARADO w' = pide /\ (pide = 0 \/ pide + MARGEN_DEL_KERNEL <= libre) \/
         r = Err (NoCabeLoDeclarado pide libre) /\ RECHAZO_PIDE w' = pide /\ RECHAZO_LIBRE w' = libre /\ pide <> 0 /\ libre < pide + MARGEN_DEL_KERNEL)
    end.
Proof.
  intros Hb Hp Ho Ho2 Hn l libre. unfold juzga_requisitos. rewrite (proj2 (Z.ltb_lt _ _)) by done. cbn [traer_suelto EnMemoria].
  rewrite traer_de_es by (unfold REQUISITOS_MAX, is_u64 in *; lia). fold l. assert (Hl8 : Forall is_u8 l) by (by apply slice_u8).
  destruct (Carga.abrir l) as [t|] eqn:Et; [|by eexists _, _].
  destruct (abrir_ok l t Hl8 Et) as (E & R & Lt). rewrite <- E in Hl8. rewrite (pide_es t Hl8). cbv zeta.
  assert (Hf : 0 <= free_frames (ph (vm w)) <= MARCOS) by (rewrite (ok_free _ Hp); apply contar_range).
  unfold stats. cbn [snd con_fu vm]. fold libre. rewrite MARCOS_eq in Hf. unfold PAGE in libre.
  rewrite (Z.min_l libre) by (unfold libre; lia). set (pide := Z.min (suma (Carga.iter t)) (2 ^ 64 - 1)).
  assert (Hpi : is_u64 pide) by (unfold pide; rewrite <- (pide_es t Hl8); apply pide_rango, iter_cantidad, Hl8).
  assert (Hit : Z.of_nat (length (Carga.iter t)) = Carga.cuantos t) by (apply (iter_entera l); [by rewrite <- E|done]).
  destruct (Carga.admite (Carga.cabe pide libre MARGEN_DEL_KERNEL)) eqn:Ec; cbn [negb]; eexists _, _; (split; [done|]; split; [done|]; split; [done|]).
  - left. split; [done|]. split; [done|]. apply admite_es in Ec; [done|done|unfold is_u64, libre; lia|done].
  - right. repeat (split; [done|]). assert (N : ~ (pide = 0 \/ pide + MARGEN_DEL_KERNEL <= libre)).
    { rewrite <- admite_es by (done || (unfold is_u64, libre; lia)). by rewrite Ec. }
    lia.
Qed.

(** * What the code does not promise *)

(** C39: A signature section that is missing, or longer than the buffer of the
    loader, is as good as none: nothing is read, nobody is asked who signed,
    even when the policy is to demand a signature, and no section has a digest
    to be compared with. The buffer has no room for the block of the signature
    itself, so this is the fate of every section signed with fourteen digests or
    more. *)
Theorem firma_que_no_cabe {F} `{Origen F} plan exige (w : Mundo F) :
  firma_file_size plan <= 0 \/ MAX_FIRMA < firma_file_size plan ->
  lee_firmas plan w = Some (w, Ok None) /\ (firmas <~ lee_firmas plan;; juzga_firma exige firmas) w = Some (w, Ok None) /\
  (forall idx, declara None idx = None) /\
  forall n, 14 <= n -> MAX_FIRMA < Firma.CABECERA + n * Firma.ENTRADA + Firma.BLOQUE_FIRMA.
Proof.
  intros Hn. assert (E : lee_firmas plan w = Some (w, Ok None)).
  { unfold lee_firmas. destruct (Z.ltb_spec 0 (firma_file_size plan)), (Z.leb_spec (firma_file_size plan) MAX_FIRMA); cbn [andb]; try done; lia. }
  split; [exact E|]. split; [|split; [done|]].
  - unfold bind. by rewrite E.
  - intros n Hn'. unfold MAX_FIRMA, MAX_BEX_SECTIONS, Firma.CABECERA, Firma.ENTRADA, Firma.BLOQUE_FIRMA. lia.
Qed.

(** A signed table of fourteen digests. *)
Definition plan_firmado : BexLoadPlan := mkPlan 0 [] 0 0 0 None 0 0 200 (8 + 14 * 40 + 96) (Some 15%nat).
Lemma firma_que_no_cabe_witness : (firmas <~ lee_firmas plan_firmado;; juzga_firma true firmas) (demo_mundo []) = Some (demo_mundo [], Ok None).
Proof. apply (firma_que_no_cabe plan_firmado true (demo_mundo [])). right. vm_compute. reflexivity. Defined.

(** Zeros of 2^47 bytes before the code, a code that comes first in the file,
    and a third section that the file does not bring. *)
Definition ALTA : Z := 0xFFFF900000000000.
Definition hostil : list Z :=
  le 4 MAGIC ++ le 2 1 ++ le 2 0 ++ le 4 1 ++ [1; 0] ++ le 2 0 ++ [2; 0] ++ le 6 0 ++ le 8 0 ++ le 8 48 ++
  le 4 3 ++ le 4 0 ++ demo_seccion BSS 0 (2 ^ 40) 0 (ALTA - USER_IMAGE_BASE) 8 ++
  demo_seccion CODE 4 192 4 4 16 ++ demo_seccion RODATA 0 196 4 4 8 ++ [0x90; 0x90; 0xEB; 0xFE].
(** Two sections of code: the long one is the last of the table and the first
    of the file. *)
Definition dos_codigos : list Z :=
  le 4 MAGIC ++ le 2 1 ++ le 2 0 ++ le 4 1 ++ [1; 0] ++ le 2 0 ++ [2; 0] ++ le 6 0 ++ le 8 100 ++ le 8 48 ++
  le 4 2 ++ le 4 0 ++ demo_seccion CODE 4 148 4 4 16 ++ demo_seccion CODE 4 144 4 101 8 ++ replicate 8 0x90.
(** One obligatory requirement: a pebibyte of memory. *)
Definition pide_mucho : list Z :=
  le 4 MAGIC ++ le 2 1 ++ le 2 0 ++ le 4 1 ++ [1; 0] ++ le 2 0 ++ [2; 0] ++ le 6 0 ++ le 8 0 ++ le 8 48 ++
  le 4 2 ++ le 4 0 ++ demo_seccion CODE 4 144 4 4 16 ++ demo_seccion REQUISITOS 0 148 48 48 8 ++ [0x90; 0x90; 0xEB; 0xFE] ++
  le 4 Carga.REQUISITOS_MAGIC ++ le 4 1 ++ le 8 0 ++ le 2 Carga.CLASE_MEMORIA ++ le 2 Carga.UNIDAD_BYTES ++ le 4 Carga.OBLIGATORIO ++
  le 8 (2 ^ 50) ++ le 16 0.

(** The leaf that a run leaves at an address of the kernel, and its first byte. *)
Definition hoja_en (r : option (Mundo (list Z) * result Admitida Rechazo)) (va : Z) : option (Z * Z) :=
  w ← fst <$> r; f ← destino (mem (vm w)) 0x1000 va; Some (f, mem (vm w) f).
Definition libres (r : option (Mundo (list Z) * result Admitida Rechazo)) : option Z := (fun x => free_frames (ph (vm (fst x)))) <$> r.

(** Three files that the gate lets through, over the machine of the
    examples. The first is rejected, because it is short, but not before its code
    was mapped, through the tables that every space shares, in the half of the
    kernel: nothing bounds the size in memory of a section, so the bound on the
    end of the image of [admision_bien] is a hypothesis and not a consequence
    of the gate. The second is admitted with an entry point a hundred bytes into
    a section of four: the gate judges it against the last section of code of
    the table and the loader takes the last one of the file. The third asks for
    more memory than there is and is told so, but the two frames of the space
    that it was given first are not returned. *)
Lemma admision_hostil :
  (desenlace (corre hostil 200) = Some (Err SeccionAMedias) /\ compartida ALTA = true /\
   destino mem_demo 0x1000 ALTA = None /\ exists f, hoja_en (corre hostil 200) ALTA = Some (f, 0x90)) /\
  (exists a, desenlace (corre dos_codigos 152) = Some (Ok a) /\ code_len (ad_carga a) = 4 /\
     entry_va (ad_carga a) = code_va (ad_carga a) + 100) /\
  (desenlace (corre pide_mucho 196) = Some (Err (NoCabeLoDeclarado (2 ^ 50) ((free_frames (ph vmm_demo) - 2) * PAGE))) /\
   libres (corre pide_mucho 196) = Some (free_frames (ph vmm_demo) - 2)).
Proof.
  split; [|split; [|split]].
  - split; [vm_compute; reflexivity|]. split; [vm_compute; reflexivity|]. split; [vm_compute; reflexivity|].
    exists 2105344. vm_compute. reflexivity.
  - eexists. split; [vm_compute; reflexivity|]. split; reflexivity.
  - vm_compute. reflexivity.
  - vm_compute. reflexivity.
Qed.

(** The third program of [admision_hostil], judged on its own. *)
Definition plan_pide : BexLoadPlan := mkPlan 0 [] 0 0 0 None 148 48 0 0 None.
Lemma requisitos_bien_witness : exists w' r, juzga_requisitos plan_pide (demo_mundo pide_mucho) = Some (w', r) /\ vm w' = vmm_demo /\
  exists libre, r = Err (NoCabeLoDeclarado (2 ^ 50) libre) /\ RECHAZO_PIDE w' = 2 ^ 50 /\ libre < 2 ^ 50 + MARGEN_DEL_KERNEL.
Proof.
  assert (B : Forall is_u8 (fu (demo_mundo pide_mucho))) by (apply bytes_decide; vm_compute; reflexivity).
  destruct (requisitos_bien plan_pide (demo_mundo pide_mucho) B (proj1 phys_demo_reserva)) as (w' & r & E & Ev & R).
  { vm_compute. split; [discriminate|reflexivity]. } { vm_compute. reflexivity. } { vm_compute. reflexivity. }
  exists w', r. split; [exact E|]. split; [exact Ev|].
  match type of R with match ?o with _ => _ end => destruct o as [t|] eqn:Et end; [|exfalso; vm_compute in Et; discriminate Et].
  assert (Es : Z.min (suma (Carga.iter t)) (2 ^ 64 - 1) = 2 ^ 50).
  { assert (X : (fun t => Z.min (suma (Carga.iter t)) (2 ^ 64 - 1)) <$> Some t = Some (2 ^ 50)) by (rewrite <- Et; vm_compute; reflexivity).
    injection X as X. exact X. }
  destruct R as [_ R]. rewrite Es in R. destruct R as [(_ & _ & [X|X])|(R1 & R2 & _ & _ & R3)]; [discriminate X| |].
  - exfalso. assert (Y : (2 ^ 50 + MARGEN_DEL_KERNEL <=? free_frames (ph vmm_demo) * PAGE) = false) by (vm_compute; reflexivity).
    apply Z.leb_gt in Y. apply (Z.lt_irrefl (2 ^ 50 + MARGEN_DEL_KERNEL)). apply (Z.le_lt_trans _ _ _ X Y).
  - eexists. split; [exact R1|]. split; [exact R2|exact R3].
Defined.
